(* ===== verification/_CoqProject ===== *)
-Q . S2P
Prelude.v
GoLib.v
GoText.v
GoFloat.v
GoMail.v
CreditTypes.v
CreditDB.v
CreditAccount.v
CreditReservation.v
CreditOutcome.v
CreditHistory.v
CreditInvariant.v
CreditStatements.v
CreditOperations.v
CreditSettlement.v
CreditService.v
CreditExamples.v
CreditReads.v
CreditProperties.v
OrderTypes.v
OrderPolicy.v
OrderDB.v
OrderStore.v
OrderReads.v
OrderProgress.v
OrderAssignment.v
OrderCancellation.v
OrderCreationStore.v
OrderCreation.v
OrderProofStore.v
OrderProofs.v
OrderOutbox.v
OrderFacts.v
OrderLogic.v
OrderInvariant.v
OrderAggregate.v
OrderRecords.v
OrderKeeps.v
OrderSagaKeeps.v
OrderSteps.v
OrderRuns.v
OrderExamples.v
OrderCalls.v
OrderProperties.v
OrderSagas.v
OrderCreationSafety.v
OrderDelivery.v
SupplierTypes.v
SupplierProposal.v
SupplierDB.v
SupplierStore.v
SupplierRequests.v
SupplierAdmin.v
SupplierRuns.v
SupplierInvariant.v
SupplierSteps.v
SupplierRefinement.v
SupplierExamples.v
SupplierCalls.v
SupplierProperties.v
UserTypes.v
UserDB.v
UserStore.v
UserAuth.v
UserAccounts.v
UserReviews.v
UserRuns.v
UserSteps.v
UserInvariant.v
UserKeeps.v
UserExamples.v
UserSessions.v
UserRelay.v
UserProperties.v
UserCredit.v
CommunicationDB.v
Communication.v
CommunicationRuns.v
CommunicationProperties.v
OrderChat.v
