(* ===== verification/Prelude.v ===== *)
(** * Friend on Campus: a verification library

    Friend on Campus is a campus delivery marketplace: a requester offers
    credits for an errand, a courier accepts it, delivers, and is paid. It is a
    set of Go services that own a PostgreSQL database each and talk by RPC and
    by facts on Kafka. This library models the services that carry the money,
    the lifecycle, the places, the people and what they tell each other,
    credit-service, order-service, supplier-service, user-service and
    communication-service, from their RPC service layer down to the statements and
    constraints of their databases, and proves what makes them correct.

    ** How the parts work together

    order-service (src/order-service/internal/order) keeps the order aggregate:
    the order, its offers, its audit trail and the facts about it, all written
    in one transaction per change. What must agree with money is a saga: a
    first transaction records the intent, a leased step calls credit-service,
    and a second transaction applies what Credit confirmed. A relay
    (order-service/internal/outbox) publishes the facts; credit-service
    (src/credit-service/internal) holds, adjusts, reverts and releases credits
    on the order's behalf, and settles the hold when the order's outcome
    arrives on Kafka (credit-service/internal/events). supplier-service
    (src/supplier-service/internal/location) keeps the Locations between which
    orders are carried: users propose them, administrators decide, create, edit
    and archive them and schedule when they are out of operation; an order copies
    the Locations it names when it is created. user-service
    (src/user-service/internal) registers people by mailed links, signs the
    tokens by which the other services know their callers, keeps roles with their
    audit trail, and the reviews that two parties of an order give each other; the
    transaction that registers a user records a fact, a relay
    (user-service/internal/outbox) publishes it and credit-service opens the
    user's account. communication-service (src/communication-service/internal)
    connects users to a Telegram bot, follows the status facts of orders, notifies
    the parties of an order and relays what they write to each other while its
    chat is open.

    ** The files

    - Prelude (this file): results, the transaction monad, finite-map sums,
      tactics and generic lemmas. GoLib: machine integers, times, UUIDs, what
      unicode and strings do. GoText: UTF-8, encoding/json, RFC 3339.
    - CreditTypes, CreditDB: internal/account/types.go and
      internal/reservation/types.go, the schema of credit-service/database and
      the queries of creditdb with the errors PostgreSQL raises.
    - CreditAccount, CreditReservation, CreditOutcome: the operations, one
      definition per Go function, of internal/account, internal/reservation
      and internal/events with rpc/shared/errors.go.
    - CreditHistory, CreditInvariant, CreditStatements, CreditOperations,
      CreditSettlement, CreditService: append-only history, the invariant of
      the database, and that statements, operations and every call under every
      fault keep both. CreditReads, CreditProperties: the theorems.
      CreditExamples: a run from registration to settlement.
    - OrderTypes, OrderPolicy: types.go, repository.go, events.go;
      transitions.go, changefields.go, NewChange and validateChange.
    - OrderDB, OrderStore: the schema and queries of order-service/database,
      and the transaction of postgres.go, mutation.go and the postgres files:
      what it locked, what it remembers, when a failed write poisons it.
    - OrderReads, OrderProgress, OrderAssignment, OrderCancellation,
      OrderOutbox: the operations, by Go file of the same name.
    - OrderCreationStore, OrderCreation: creation.sql, images.sql,
      postgrescreation.go, postgresimages.go and itemimages.go; creation.go and
      creationrecovery.go.
    - OrderProofStore, OrderProofs: proofs.sql and postgresproofs.go; proofs.go,
      proofreceipts.go, proofoutages.go and proofcleanup.go.
    - OrderFacts, OrderLogic, OrderInvariant, OrderAggregate: the policy as a
      relation, the frame for transactions, the invariant of the aggregate and
      that Apply keeps it. OrderRecords: how workflows, images, photos and
      receipts may evolve. OrderKeeps, OrderSagaKeeps: every transaction keeps
      both. OrderSteps: every transaction, every statement outside one and
      every delivery of the relay as a step of the tables ([order_step]).
      OrderRuns: what a committed transaction did. OrderCalls: an operation of
      several transactions is a sequence of steps.
    - OrderProperties, OrderSagas, OrderCreationSafety, OrderDelivery (with the
      timers): the theorems. OrderExamples: a run from the
      request through Credit, a courier, a photo and the receipt, and the other
      ways an order may end.

    - GoFloat: float64, its comparisons and its JSON text. SupplierTypes,
      SupplierProposal: internal/location/shared, the types of additionrequest,
      disablement and admin, what normalising and validation do (proposal.go,
      input.go, patch.go). SupplierDB: the schema of supplier-service/database
      and the queries lifecycle.sql, location.sql and idempotency.sql.
      SupplierStore: internal/idempotency and the repositories. SupplierRequests,
      SupplierAdmin: additionrequest/operations.go with disablement/operations.go,
      admin/service.go with discovery.
    - SupplierRuns: what a committed transaction did, what normalising guarantees.
      SupplierInvariant, SupplierSteps: the invariant and the history of the
      database, every write as one effect of an actor, every call as at most one
      effect. SupplierRefinement: the abstract directory of places, petitions and
      outages. SupplierExamples, SupplierCalls, SupplierProperties: a run and the
      theorems.

    - GoMail: letters in lower case, bare addresses of net/mail, base64.
      UserTypes, UserDB: internal/models, review/model.go, jwt/contracts.go and
      pkg/auth/tokenclaims; user-service/migrations with the statements that gorm
      and sqlc run. UserStore: internal/store and the repositories of
      internal/admin and internal/review. UserAuth, UserAccounts, UserReviews:
      service/auth.go, provisioning.go and jwt/es256.go; service/profile.go,
      roles.go, internal/bootstrap, internal/admin, the gates and handlers;
      internal/review, pkg/pagination and internal/outbox.
    - UserRuns: what a committed transaction did, and the effects of transactions.
      UserSteps: every transaction as one effect, the writes of the calls apart from
      the statements of the relays. UserInvariant, UserKeeps: the invariant and the history of the database, that every effect
      keeps both, and that every call moves along steps. UserExamples: a run.
      UserSessions, UserRelay, UserProperties: the theorems. UserCredit: the
      registration through both services.

    - CommunicationDB: the types of internal/linking, internal/chat and
      internal/telegram, communication-service/migrations, the statements of
      communication-service/queries and the stores that run them. Communication:
      linking/service.go, handlers/telegramlink, chat/relay.go, chat/projection.go,
      chat/retention.go, notify, bot, telegram/poller.go and the consumer of
      cmd/server. CommunicationRuns: the changes of the database, its invariant,
      that programs make only such changes, and a logic for what a program logs.
      CommunicationProperties: the theorems and a run. OrderChat: the facts of
      Order and the copies of Communication together.

    ** What is shown

    - Credit, in every reachable state: credits are conserved, a hold is never
      larger than the balance and no arithmetic wraps
      ([credits_conserved], [holds_covered], [reserved_is_active_holds],
      [ledger_explains_accounts]); history is append-only; replayed, late,
      lost and conflicting calls do what the service promises
      ([replay_same_outcome], [lost_reply_recovered], [released_fences],
      [reverted_offer_never_applies], [outcome_redelivery]); the schema never
      rejects what the service writes ([mutation_contract]); the payout is the
      lateness rule exactly, with the bound at which it stops to be.
    - Orders, in every reachable state: the lifecycle is exactly a relation of
      moves, the audit trail is complete and walks it, each change of status is
      announced once and each order ends with one outcome
      ([transition_policy], [reachable_orders_sound], [status_walks_lifecycle],
      [order_history_kept], [one_outcome_per_order]).
    - Sagas: an order opens only with the hold Credit was seen to keep and is
      rejected only with a refusal or a seen release; it is assigned only with a
      confirmed adjustment and reopened only with a restored hold; a step that
      has lost its claim changes nothing, processing ends, and what a saga has
      recorded is never undone ([creation_needs_confirmed_hold],
      [assignment_needs_confirmed_hold], [withdrawal_needs_restored_hold],
      [stale_step_changes_nothing], [saga_records_final]).
    - Delivery and timers: an order becomes delivered only against the pending
      receipt of its courier, in time and with photos verified by then
      ([delivery_needs_evidence]); the timers close only what is due.
    - Supplier, for every call by whomever under any fault: it is at most one
      step, that its caller may take, of an abstract directory whose petitions are
      decided once and whose outages never meet ([supplier_refines_directory]);
      the database stays sound and its history final ([supplier_sound],
      [supplier_history]); an approval publishes exactly the normalised proposal,
      a repeated call answers as the first did, disablements follow their states,
      what is read is what was written and may be disclosed
      ([approval_publishes_proposal], [submit_replayed],
      [disablement_transitions], [created_location_reads_back],
      [requests_disclosed]).
    - Users, in every reachable state: a mailed link works once and proves its
      address, a refresh token is exchanged once, logging out everywhere is final
      ([magic_link_once], [redeemed_link_authenticates], [refresh_token_once],
      [logout_all_final]); roles change exactly by the policy and each is
      explained by the audit trail from the first administrator on
      ([change_role_policy], [roles_explained]); the statistics of a user are those
      of its live reviews ([review_statistics_exact]); nothing recorded changes
      ([user_history]); what is published was registered, and what waits is
      published ([registrations_announced], [drain_publishes_waiting]).
    - Communication: a code links one chat once and disconnecting is final
      ([link_code_redeemed_once], [unlink_final]); every operation, whatever
      happens between its statements, keeps the database sound
      ([communication_sound]); a message reaches only the other participant of an
      open chat, is recorded first and accepted at most once
      ([relay_reaches_counterpart], [relayed_at_most_once], [open_chats_exact]);
      notifications go to the participants who did not act
      ([notified_participants]), and a fresh event is acknowledged only when they were
      told, have no chat or were refused; the cleanup spares what is open and deletes what is
      over ([retention]).
    - Order and Communication together: the copy of an order ends with the status
      of the order, however its facts are delivered ([chat_copy_follows_order]).
    - User and Credit together: who registers gets an account with the starting
      credits, once ([registered_user_gets_account]).
    - Reads: rows decode to what was written, a stranger does not see the
      delivery of an order, and the pages of a listing are complete
      ([ledger_pages_complete], [review_pages_complete]).

    ** How the code is modelled

    - A transaction is atomic: every mutation of an order or an account first
      takes its advisory lock or locks its row, so transactions about the same
      data do not overlap. What other transactions do between two transactions
      of a saga is an argument ([rd_meanwhile], [cn_meanwhile],
      [ts_meanwhile]), restricted in theorems to steps of the service. Begin, a
      statement or the commit may fail ([Faults]), and a failed commit may have
      been applied.
    - A handler fails with a value of the error type that the code tests with
      errors.Is; wrapped context is dropped. Logging, metrics and context
      deadlines are left out.
    - Integers have their width: 64-bit arithmetic is written with its
      wrap-around, BIGINT columns refuse what does not fit.
    - Times are UTC nanoseconds, stored by PostgreSQL in microseconds.
    - Identifiers are text; parsing them (github.com/google/uuid) is the
      parameter [UUID], of which [UUIDLaws] says that a parsed identifier is
      canonical and not empty and [UUIDFold] that canonical spellings equal up
      to case are equal. The request hash (SHA-256) is the parameter [Digest].
      EqualFold folds ASCII letters: the compared texts are identifiers.
    - How the database orders text, and which names a search matches, are the
      parameters [Collation] and [Search]. A UUID that a service draws is
      canonical; theorems assume nothing else of it.
    - JSON columns hold the JSON value that encoding/json writes.
    - Loops: a handler's retries are counted as in the code (three attempts);
      processing an attempt or a creation loops until it is told to stop, so it
      is given a list of rounds, and [processing_terminates] and
      [creation_processing_terminates] show that two are enough.
    - Signing and parsing JSON web tokens is the parameter [Codec], of which
      [CodecLaws] says that a token that was signed is parsed between its issue and
      its expiry, to one payload at any time. Phone numbers (libphonenumber), the
      lower case of letters beyond ASCII and the collation of citext are the
      parameters [PhoneNumbers], [UnicodeLower] and [CIText]. What a call of
      user-service draws and reads from clocks is its [Env]; [sound_env] asks for
      canonical identifiers and a clock between the years 1 and 9999, which a
      publishable fact needs.
    - A review's transaction is atomic because it locks its reviewee's row before
      it counts; a role change locks its actor but not its target, so what others
      do between its reads and its conditional update is an argument, and the step of
      a role change runs the code's reads at an earlier state with the same actor.
    - Relays of user-service interleave: each is between claiming, publishing and
      settling a fact while the service and other relays go on ([relays_step]).
    - The operations of communication-service are no transactions. Each is a
      program whose actions take a turn, which says what other clients did to the
      database before it, whether the statement failed, and what the Bot API and the
      clock answered; theorems let others do what the service does ([others_ok]).
      The log of a program keeps every database it saw and every call it made. Each
      statement is atomic; RedeemCode and DeleteLink are, by the locks they take, and
      DeleteExpired, whose rows nobody else writes any more, is taken to be. How often an update is retried before the service stops is an
      argument ([patience]).
    - Object storage, image decoding, Credit's and Supplier's replies are
      arguments of the operations that ask for them, whatever they say.

    ** Not modelled

    Generated code (pkg/gen, pkg/kafkagen, the sqlc packages apart from their
    queries), protobuf conversion and RPC plumbing, Kafka and Telegram I/O,
    the S3 client, deployment, the frontend, and the import of the Locations
    that supplier-service ships with (internal/seed), whose Buildings and
    Categories theorems take as given. Of user-service the cookies and
    configuration, the text of its mail and the demo data. Of
    communication-service the HTTP client of the Bot API with its JSON, the waiting
    between retries, configuration and startup. *)
From stdpp Require Import prelude gmap strings list fin_maps sorting.
From Stdlib Require Import ZArith Lia.

Declare Scope foc_scope.
Delimit Scope foc_scope with foc.

(** ** Results and the transaction monad

    A transaction body reads an environment [R] (clocks, fault injection),
    threads the database state [S] and either returns a value with the new
    state or fails. A failure carries no state: the caller rolls back. *)

Inductive result (E A : Type) : Type :=
| Ok (a : A)
| Err (e : E).
Arguments Ok {E A} _.
Arguments Err {E A} _.

#[export] Instance result_mret {E} : MRet (result E) := λ A a, Ok a.
#[export] Instance result_mbind {E} : MBind (result E) := λ A B k m,
  match m with Ok a => k a | Err e => Err e end.

(** The pure counterparts of [ensure] and [require] below. *)
Definition guard_ok {E} (b : bool) (e : E) : result E unit := if b then Ok tt else Err e.
Definition from_option_ok {E A} (o : option A) (e : E) : result E A :=
  match o with Some a => Ok a | None => Err e end.

(** Boolean tests on options, values and text. *)
Definition is_some {A} (o : option A) : bool := match o with Some _ => true | None => false end.
Definition same {A} `{EqDecision A} (x y : A) : bool := bool_decide (x = y).
Definition nonempty (s : string) : bool := negb (bool_decide (s = EmptyString)).

Definition is_ok {E A} (r : result E A) : bool := match r with Ok _ => true | Err _ => false end.

Definition ST (E R S A : Type) : Type := R → S → result E (A * S).

#[export] Instance st_mret {E R S} : MRet (ST E R S) := λ A a r s, Ok (a, s).
#[export] Instance st_mbind {E R S} : MBind (ST E R S) := λ A B k m r s,
  match m r s with
  | Ok (a, s') => k a r s'
  | Err e => Err e
  end.

Definition throw {E R S A} (e : E) : ST E R S A := λ r s, Err e.
Definition ask {E R S} : ST E R S R := λ r s, Ok (r, s).
Definition get {E R S} : ST E R S S := λ r s, Ok (s, s).
Definition put {E R S} (s : S) : ST E R S unit := λ r _, Ok (tt, s).
Definition modify {E R S} (f : S → S) : ST E R S unit := λ r s, Ok (tt, f s).
Definition gets {E R S A} (f : S → A) : ST E R S A := λ r s, Ok (f s, s).

(** [ensure b e] is the guard "if not b, fail with e". *)
Definition ensure {E R S} (b : bool) (e : E) : ST E R S unit :=
  if b then mret tt else throw e.

(** [require o e] unwraps an optional row, failing with [e] when absent. *)
Definition require {E R S A} (o : option A) (e : E) : ST E R S A :=
  match o with Some a => mret a | None => throw e end.

(** A statement on the state; a computation that may fail, without state; and
    the error of a computation as its caller reports it. *)
Definition exec {E R S A} (f : S → result E (S * A)) : ST E R S A := λ _ s,
  match f s with Ok (s', a) => Ok (a, s') | Err e => Err e end.
Definition exec_unit {E R S} (f : S → result E S) : ST E R S unit :=
  exec (λ s, s' ← f s; mret (s', tt)).
Definition lift {E R S A} (r : result E A) : ST E R S A :=
  match r with Ok a => mret a | Err e => throw e end.
Definition reporting {E R S A} (f : E → E) (m : ST E R S A) : ST E R S A := λ r s,
  match m r s with Ok out => Ok out | Err e => Err (f e) end.

(** [for_each f l] is a Go loop whose body may return early with an error. *)
Fixpoint for_each {E R S A} (f : A → ST E R S unit) (l : list A) : ST E R S unit :=
  match l with
  | [] => mret tt
  | x :: l' => _ ← f x; for_each f l'
  end.

(** ** Weakest preconditions

    [wp m r s Q X]: run in environment [r] from state [s], [m] either returns
    a value and state satisfying [Q], or fails with an error satisfying [X]. *)

Definition wp {E R S A} (m : ST E R S A) (r : R) (s : S)
    (Q : A → S → Prop) (X : E → Prop) : Prop :=
  match m r s with
  | Ok (a, s') => Q a s'
  | Err e => X e
  end.

Section wp_rules.
  Context {E R S : Type}.
  Implicit Types (r : R) (s : S) (X : E → Prop).

Lemma wp_ret {A} (a : A) r s (Q : A → S → Prop) X :
  Q a s → wp (mret a) r s Q X.
Proof. done. Qed.

Lemma wp_throw {A} (e : E) r s (Q : A → S → Prop) X :
  X e → wp (throw e) r s Q X.
Proof. done. Qed.

Lemma wp_bind {A B} (m : ST E R S A) (k : A → ST E R S B) r s Q X :
  wp m r s (λ a s', wp (k a) r s' Q X) X → wp (m ≫= k) r s Q X.
Proof. unfold wp, mbind, st_mbind. by destruct (m r s) as [[a s']|e]. Qed.

Lemma wp_mono {A} (m : ST E R S A) r s (Q Q' : A → S → Prop) (X X' : E → Prop) :
  wp m r s Q X → (∀ a s', Q a s' → Q' a s') → (∀ e, X e → X' e) → wp m r s Q' X'.
Proof. unfold wp. destruct (m r s) as [[a s']|e]; eauto. Qed.

Lemma wp_ask r s (Q : R → S → Prop) X : Q r s → wp ask r s Q X.
Proof. done. Qed.

Lemma wp_gets {A} (f : S → A) r s Q X : Q (f s) s → wp (gets f) r s Q X.
Proof. done. Qed.

Lemma wp_modify (f : S → S) r s Q X : Q tt (f s) → wp (modify f) r s Q X.
Proof. done. Qed.

Lemma wp_ensure (b : bool) (e : E) r s Q X :
  (b = true → Q tt s) → (b = false → X e) → wp (ensure b e) r s Q X.
Proof. destruct b; unfold ensure; intros; [by apply wp_ret; auto|by apply wp_throw; auto]. Qed.

Lemma wp_require {A} (o : option A) (e : E) r s Q X :
  (∀ a, o = Some a → Q a s) → (o = None → X e) → wp (require o e) r s Q X.
Proof. destruct o; unfold require; intros; [by apply wp_ret; auto|by apply wp_throw; auto]. Qed.

Lemma wp_ok {A} (m : ST E R S A) r s Q X a s' :
  wp m r s Q X → m r s = Ok (a, s') → Q a s'.
Proof. unfold wp. intros Hwp Hrun. by rewrite Hrun in Hwp. Qed.

Lemma wp_err {A} (m : ST E R S A) r s Q X e :
  wp m r s Q X → m r s = Err e → X e.
Proof. unfold wp. intros Hwp Hrun. by rewrite Hrun in Hwp. Qed.

Lemma wp_intro {A} (m : ST E R S A) r s Q X :
  (∀ a s', m r s = Ok (a, s') → Q a s') → (∀ e, m r s = Err e → X e) → wp m r s Q X.
Proof. unfold wp. destruct (m r s) as [[a s']|e]; eauto. Qed.

(** A loop preserves an invariant that each iteration preserves. *)
Lemma wp_for_each {A} (f : A → ST E R S unit) (I : S → Prop) l r s X :
  I s → (∀ x s', x ∈ l → I s' → wp (f x) r s' (λ _, I) X) →
  wp (for_each f l) r s (λ _, I) X.
Proof.
  revert s. induction l as [|x l IH]; intros s HI Hf; simpl; [done|].
  apply wp_bind. eapply wp_mono; [apply Hf; [set_solver|done]| |done].
  intros ? s' HI'. apply IH; [done|]. intros; apply Hf; [set_solver|done].
Qed.

End wp_rules.

(** Running a bind that succeeded splits into its two halves. *)
Lemma bind_ok {E R S A B} (m : ST E R S A) (k : A → ST E R S B) r s b s' :
  (m ≫= k) r s = Ok (b, s') → ∃ a s1, m r s = Ok (a, s1) ∧ k a r s1 = Ok (b, s').
Proof.
  unfold mbind, st_mbind. destruct (m r s) as [[a s1]|e]; [eauto|done].
Qed.

(** ** Reading guards *)

Lemma guard_ok_Ok {E} (b : bool) (e : E) u : guard_ok b e = Ok u ↔ b = true.
Proof. unfold guard_ok. destruct b, u; split; congruence. Qed.

Lemma same_true {A} `{EqDecision A} (x y : A) : same x y = true ↔ x = y.
Proof. apply bool_decide_eq_true. Qed.
Lemma same_false {A} `{EqDecision A} (x y : A) : same x y = false ↔ x ≠ y.
Proof. apply bool_decide_eq_false. Qed.
Lemma same_eq {A} `{EqDecision A} (x y : A) : same x y = true → x = y.
Proof. apply bool_decide_eq_true_1. Qed.
Lemma same_ne {A} `{EqDecision A} (x y : A) : same x y = false → x ≠ y.
Proof. apply bool_decide_eq_false_1. Qed.
Lemma same_refl {A} `{EqDecision A} (x : A) : same x x = true.
Proof. by apply same_true. Qed.

Lemma bind_Ok {E A B} (m : result E A) (k : A → result E B) b :
  m ≫= k = Ok b ↔ ∃ a, m = Ok a ∧ k a = Ok b.
Proof.
  destruct m as [a|e]; simpl; split.
  - eauto.
  - by intros (? & [= ->] & ?).
  - done.
  - by intros (? & ? & ?).
Qed.

Lemma Ok_inj {E A} (x y : A) : @Ok E A x = Ok y → x = y.
Proof. by intros [= ->]. Qed.

Lemma from_option_ok_Ok {E A} (o : option A) (e : E) a : from_option_ok o e = Ok a ↔ o = Some a.
Proof. destruct o; simpl; split; congruence. Qed.

(** [inv_ok H] splits a successful computation of the error monad into its
    steps, reading the guards as booleans. *)
Ltac inv_ok H :=
  lazymatch type of H with
  | (_ ≫= _) = Ok _ =>
      let a := fresh "a" in let H1 := fresh "Hok" in
      apply bind_Ok in H as (a & H1 & H); cbn beta iota in H;
      inv_ok H1; inv_ok H
  | guard_ok _ _ = Ok _ => apply guard_ok_Ok in H
  | from_option_ok _ _ = Ok _ => apply from_option_ok_Ok in H
  | Err _ = Ok _ => discriminate H
  | mret _ = Ok _ => apply Ok_inj in H
  | Ok _ = Ok _ => apply Ok_inj in H
  | (let '(_, _) := ?p in _) = Ok _ => destruct p; cbn beta iota in H; inv_ok H
  | _ => idtac
  end.

(** [inv_checks H] splits a conjunction of boolean checks into what they say. *)
Ltac inv_checks H :=
  repeat match type of H with _ && _ = true => apply andb_prop in H as [H ?] end;
  repeat match goal with
  | Hx : same _ _ = true |- _ => apply same_eq in Hx
  | Hx : (_ =? _)%Z = true |- _ => apply Z.eqb_eq in Hx
  | Hx : (_ <? _)%Z = true |- _ => apply Z.ltb_lt in Hx
  | Hx : negb (nonempty _) = true |- _ => apply negb_true_iff, negb_false_iff, bool_decide_eq_true in Hx
  end.

(** ** Successful runs of the transaction monad *)

Section runs.
  Context {E R S : Type}.
  Implicit Types (r : R) (s : S).

Lemma st_run_ret {A} (a b : A) r s s' : (mret a : ST E R S A) r s = Ok (b, s') → b = a ∧ s' = s.
Proof. intros Hr%Ok_inj. by simplify_eq. Qed.
Lemma st_run_ask r s a s' : (ask : ST E R S R) r s = Ok (a, s') → a = r ∧ s' = s.
Proof. intros Hr%Ok_inj. by simplify_eq. Qed.
Lemma st_run_get r s a s' : (get : ST E R S S) r s = Ok (a, s') → a = s ∧ s' = s.
Proof. intros Hr%Ok_inj. by simplify_eq. Qed.
Lemma st_run_gets {A} (f : S → A) r s a s' : (gets f : ST E R S A) r s = Ok (a, s') → a = f s ∧ s' = s.
Proof. intros Hr%Ok_inj. by simplify_eq. Qed.
Lemma st_run_modify (f : S → S) r s u s' : (modify f : ST E R S unit) r s = Ok (u, s') → s' = f s.
Proof. intros Hr%Ok_inj. by simplify_eq. Qed.
Lemma st_run_ensure b (e : E) r s u s' : ensure b e r s = Ok (u, s') → b = true ∧ s' = s.
Proof. destruct b; [intros Hr%Ok_inj; by simplify_eq|done]. Qed.
Lemma st_run_require {A} (o : option A) (e : E) r s a s' :
  require o e r s = Ok (a, s') → o = Some a ∧ s' = s.
Proof. destruct o; [intros Hr%Ok_inj; by simplify_eq|done]. Qed.
Lemma st_run_exec {A} (f : S → result E (S * A)) r s a s' : exec f r s = Ok (a, s') → f s = Ok (s', a).
Proof. unfold exec. destruct (f s) as [[??]|]; [|done]. intros Hr%Ok_inj. by simplify_eq. Qed.
Lemma st_run_exec_unit (f : S → result E S) r s u s' : exec_unit f r s = Ok (u, s') → f s = Ok s'.
Proof. unfold exec_unit. intros Hr%st_run_exec. inv_ok Hr. by simplify_eq. Qed.
Lemma st_run_lift {A} (m : result E A) r s a s' : lift m r s = Ok (a, s') → m = Ok a ∧ s' = s.
Proof. destruct m; simpl; [|done]. intros Hr%Ok_inj. by simplify_eq. Qed.
Lemma st_run_reporting {A} f (m : ST E R S A) r s a s' :
  reporting f m r s = Ok (a, s') → m r s = Ok (a, s').
Proof. unfold reporting. by destruct (m r s) as [[??]|]. Qed.
End runs.

(** [split_run H] splits a successful run into the runs of its steps. A file
    with primitives of its own extends [split_more]. *)
Ltac split_more H := idtac.
Ltac split_run H :=
  lazymatch type of H with
  | (_ ≫= _) _ _ = Ok (_, _) =>
      let a := fresh "a" in let s := fresh "s" in let H1 := fresh "Hrun" in
      apply bind_ok in H as (a & s & H1 & H); cbn beta iota in H;
      split_run H1; split_run H
  | mret _ _ _ = Ok _ => let X := fresh "Es" in apply st_run_ret in H as [H X]; subst
  | ask _ _ = Ok _ => let X := fresh "Es" in apply st_run_ask in H as [H X]; subst
  | get _ _ = Ok _ => let X := fresh "Es" in apply st_run_get in H as [H X]; subst
  | gets _ _ _ = Ok _ => let X := fresh "Es" in apply st_run_gets in H as [H X]; subst
  | modify _ _ _ = Ok _ => apply st_run_modify in H; subst
  | ensure _ _ _ _ = Ok _ => let X := fresh "Es" in apply st_run_ensure in H as [H X]; subst
  | require _ _ _ _ = Ok _ => let X := fresh "Es" in apply st_run_require in H as [H X]; subst
  | throw _ _ _ = Ok _ => discriminate H
  | (let '(_, _) := ?p in _) _ _ = Ok _ => destruct p; cbn beta iota in H; split_run H
  | (if ?b then _ else _) _ _ = Ok _ => let X := fresh "Hb" in destruct b eqn:X; split_run H
  | (match ?x with _ => _ end) _ _ = Ok _ => let X := fresh "Hm" in destruct x eqn:X; split_run H
  | _ => split_more H
  end.

(** [wp_step] applies the rule for the head of the program. *)
Ltac wp_step :=
  lazymatch goal with
  | |- wp (mbind _ _) _ _ _ _ => apply wp_bind
  | |- wp (mret _) _ _ _ _ => apply wp_ret
  | |- wp (throw _) _ _ _ _ => apply wp_throw
  | |- wp ask _ _ _ _ => apply wp_ask
  | |- wp (gets _) _ _ _ _ => apply wp_gets
  | |- wp (modify _) _ _ _ _ => apply wp_modify
  | |- wp (ensure _ _) _ _ _ _ => apply wp_ensure; intro
  | |- wp (require _ _) _ _ _ _ => apply wp_require; [intros ??|intro]
  | |- wp (if ?b then _ else _) _ _ _ _ => destruct b eqn:?
  | |- wp (match ?x with _ => _ end) _ _ _ _ => destruct x eqn:?
  end.
Ltac wp_steps := repeat (wp_step; cbn beta iota).

(** ** Signed 64-bit integers *)

Definition min_int64 : Z := -2 ^ 63.
Definition max_int64 : Z := 2 ^ 63 - 1.
Definition is_int64 (z : Z) : Prop := (min_int64 ≤ z ≤ max_int64)%Z.
#[export] Instance is_int64_dec z : Decision (is_int64 z).
Proof. unfold is_int64. apply _. Defined.

(** Two's-complement wrap-around of Go's int64 arithmetic. *)
Definition wrap64 (z : Z) : Z := ((z + 2 ^ 63) mod 2 ^ 64 - 2 ^ 63)%Z.
Definition add64 (a b : Z) : Z := wrap64 (a + b).
Definition sub64 (a b : Z) : Z := wrap64 (a - b).
Definition mul64 (a b : Z) : Z := wrap64 (a * b).
Definition neg64 (a : Z) : Z := wrap64 (- a).

(** Conversion to int32 keeps the low 32 bits. *)
Definition wrap32 (z : Z) : Z := ((z + 2 ^ 31) mod 2 ^ 32 - 2 ^ 31)%Z.

Lemma wrap32_id z : (- 2 ^ 31 ≤ z < 2 ^ 31)%Z → wrap32 z = z.
Proof. unfold wrap32. intros. rewrite Z.mod_small; lia. Qed.

Lemma wrap64_id z : is_int64 z → wrap64 z = z.
Proof.
  unfold is_int64, min_int64, max_int64, wrap64. intros.
  rewrite Z.mod_small; lia.
Qed.

Lemma wrap64_range z : is_int64 (wrap64 z).
Proof.
  unfold is_int64, min_int64, max_int64, wrap64.
  pose proof (Z.mod_pos_bound (z + 2 ^ 63) (2 ^ 64)). lia.
Qed.

Lemma sub64_id a b : is_int64 (a - b) → sub64 a b = (a - b)%Z.
Proof. apply wrap64_id. Qed.
Lemma add64_id a b : is_int64 (a + b) → add64 a b = (a + b)%Z.
Proof. apply wrap64_id. Qed.
Lemma mul64_id a b : is_int64 (a * b) → mul64 a b = (a * b)%Z.
Proof. apply wrap64_id. Qed.
Lemma neg64_id a : is_int64 (- a) → neg64 a = (- a)%Z.
Proof. apply wrap64_id. Qed.

(** [int64_lia] discharges range side conditions. *)
Ltac int64_lia := unfold is_int64, min_int64, max_int64 in *; lia.

(** ** Sums over finite maps and lists *)

Definition msum {K V} `{Countable K} (f : K → V → Z) (m : gmap K V) : Z :=
  map_fold (λ k v acc, f k v + acc)%Z 0%Z m.

Section msum.
  Context {K V : Type} `{Countable K}.
  Implicit Types (f g : K → V → Z) (m : gmap K V).

Lemma msum_empty f : msum f (∅ : gmap K V) = 0%Z.
Proof. apply map_fold_empty. Qed.

Lemma msum_insert f m k v :
  m !! k = None → msum f (<[k:=v]> m) = (f k v + msum f m)%Z.
Proof.
  intros. unfold msum.
  rewrite (map_fold_insert_L (λ k v acc, (f k v + acc)%Z) 0%Z k v m); [done|intros; lia|done].
Qed.

Lemma msum_delete f m k v :
  m !! k = Some v → msum f m = (f k v + msum f (delete k m))%Z.
Proof.
  intros Hk. rewrite <- (insert_id m k v) at 1 by done. rewrite <- insert_delete_eq.
  apply msum_insert, lookup_delete_eq.
Qed.

Lemma msum_update f m k v v' :
  m !! k = Some v → msum f (<[k:=v']> m) = (msum f m - f k v + f k v')%Z.
Proof.
  intros Hk. rewrite (msum_delete f m k v Hk).
  rewrite <- insert_delete_eq, msum_insert by apply lookup_delete_eq. lia.
Qed.

Lemma msum_ext f g m :
  (∀ k v, m !! k = Some v → f k v = g k v) → msum f m = msum g m.
Proof.
  induction m as [|k v m Hk IH] using map_ind; intros Hfg.
  { by rewrite !msum_empty. }
  rewrite !msum_insert by done. rewrite (Hfg k v) by apply lookup_insert_eq.
  rewrite IH; [done|]. intros k' v' ?. apply Hfg. rewrite lookup_insert_ne; congruence.
Qed.

Lemma msum_nonneg f m :
  (∀ k v, m !! k = Some v → 0 ≤ f k v)%Z → (0 ≤ msum f m)%Z.
Proof.
  induction m as [|k v m Hk IH] using map_ind; intros Hf.
  { by rewrite msum_empty. }
  rewrite msum_insert by done.
  pose proof (Hf k v (lookup_insert_eq _ _ _)).
  assert (0 ≤ msum f m)%Z; [|lia].
  apply IH. intros k' v' ?. apply (Hf k'). rewrite lookup_insert_ne; congruence.
Qed.

(** Every summand of a non-negative sum is at most the sum. *)
Lemma msum_lookup_le f m k v :
  m !! k = Some v → (∀ k v, m !! k = Some v → 0 ≤ f k v)%Z → (f k v ≤ msum f m)%Z.
Proof.
  intros Hk Hf. rewrite (msum_delete f m k v Hk).
  assert (0 ≤ msum f (delete k m))%Z; [|lia].
  apply msum_nonneg. intros k' v' [??]%lookup_delete_Some. eauto.
Qed.

End msum.

(** Sum of [f] over a list. *)
Definition lsum {A} (f : A → Z) (l : list A) : Z := foldr (λ x acc, f x + acc)%Z 0%Z l.

Lemma lsum_app {A} (f : A → Z) l1 l2 : lsum f (l1 ++ l2) = (lsum f l1 + lsum f l2)%Z.
Proof. induction l1; simpl; lia. Qed.

Lemma lsum_snoc {A} (f : A → Z) l x : lsum f (l ++ [x]) = (lsum f l + f x)%Z.
Proof. rewrite lsum_app. simpl. lia. Qed.

Lemma lsum_zero {A} (f : A → Z) l : (∀ x, x ∈ l → f x = 0%Z) → lsum f l = 0%Z.
Proof. induction l as [|y l IH]; simpl; intros Hz; [done|]. rewrite (Hz y), IH; set_solver. Qed.

(** Sum over the rows of a table that satisfy [p]. *)
Lemma lsum_rows {K V} `{Countable K} (f : V → Z) (p : V → bool) (m : gmap K V) :
  lsum f (filter (λ v, p v = true) (snd <$> map_to_list m)) = msum (λ _ v, if p v then f v else 0%Z) m.
Proof.
  unfold msum. rewrite map_fold_foldr. induction (map_to_list m) as [|[k v] l IH]; [done|].
  rewrite fmap_cons. simpl. rewrite <- IH. destruct (p v) eqn:Hp.
  - by rewrite filter_cons_True.
  - by rewrite filter_cons_False by congruence.
Qed.

Lemma lsum_length {A} (l : list A) : lsum (λ _, 1%Z) l = Z.of_nat (length l).
Proof. induction l as [|x l IH]; [done|]. simpl in *. lia. Qed.

(** ** Present and absent values *)

Lemma is_some_iff {A} (o : option A) : is_some o = true ↔ is_Some o.
Proof. destruct o; split; try done; by intros []. Qed.
Lemma is_some_false {A} (o : option A) : is_some o = false ↔ o = None.
Proof. by destruct o. Qed.
Lemma negb_is_some {A} (o : option A) : negb (is_some o) = true ↔ o = None.
Proof. by destruct o. Qed.

(** ** Searching a list *)

Definition find_first {A} (f : A → bool) (l : list A) : option A :=
  snd <$> list_find (λ x, f x = true) l.
Definition find_last {A} (f : A → bool) (l : list A) : option A := find_first f (rev l).

(** The first match, and what a function that keeps the test does to it. *)
Lemma find_first_some {A} (p : A → bool) l x : find_first p l = Some x → x ∈ l ∧ p x = true.
Proof.
  unfold find_first. intros ([i y] & Hf & ->)%fmap_Some.
  apply list_find_Some in Hf as (Hi & Hp & _). split; [by eapply list_elem_of_lookup_2|done].
Qed.

Lemma find_first_None {A} (p : A → bool) l x : find_first p l = None → x ∈ l → p x = false.
Proof.
  unfold find_first. intros Hn%fmap_None Hx. rewrite list_find_None, Forall_forall in Hn.
  specialize (Hn x Hx). by destruct (p x).
Qed.

Lemma find_first_fmap {A} (p : A → bool) (f : A → A) l :
  (∀ x, p (f x) = p x) → find_first p (f <$> l) = f <$> find_first p l.
Proof.
  intros Hp. unfold find_first. induction l as [|x l IH]; [done|]. rewrite fmap_cons. cbn [list_find].
  rewrite Hp. destruct (decide (p x = true)); [done|].
  destruct (list_find _ (f <$> l)) as [[]|], (list_find _ l) as [[]|]; done.
Qed.

Lemma find_first_cons {A} (p : A → bool) x l :
  find_first p (x :: l) = if p x then Some x else find_first p l.
Proof.
  unfold find_first. simpl. destruct (p x) eqn:Hp; [by rewrite decide_True|].
  rewrite decide_False by congruence. by destruct (list_find _ l) as [[]|].
Qed.

Lemma find_first_app {A} (p : A → bool) x l k :
  find_first p l = Some x → find_first p (l ++ k) = Some x.
Proof.
  induction l as [|y l IH]; [done|]. rewrite <- app_comm_cons, !find_first_cons.
  by destruct (p y).
Qed.

(** With distinct keys, an element is found by its key. *)
Lemma find_first_key {A K} `{EqDecision K} (f : A → K) (l : list A) x :
  NoDup (f <$> l) → x ∈ l → find_first (λ y, bool_decide (f y = f x)) l = Some x.
Proof.
  induction l as [|y l IH]; [by intros _ ?%elem_of_nil|].
  rewrite fmap_cons, find_first_cons. intros [Hy Hl]%NoDup_cons [->|Hx]%elem_of_cons.
  - by rewrite bool_decide_true.
  - rewrite bool_decide_false; [by apply IH|]. intros Heq. apply Hy. rewrite Heq.
    by apply list_elem_of_fmap_2.
Qed.

(** ** Maps that grow *)

(** Every row of [m] is still in [m'], related by [R]. *)
Definition map_extends {K V} `{Countable K} (R : V → V → Prop) (m m' : gmap K V) : Prop :=
  ∀ k v, m !! k = Some v → ∃ v', m' !! k = Some v' ∧ R v v'.

Section map_extends.
  Context {K V : Type} `{Countable K} (R : V → V → Prop) `{!Reflexive R}.

Lemma map_extends_refl (m : gmap K V) : map_extends R m m.
Proof. intros k v Hk. by exists v. Qed.

Lemma map_extends_trans `{!Transitive R} (m1 m2 m3 : gmap K V) :
  map_extends R m1 m2 → map_extends R m2 m3 → map_extends R m1 m3.
Proof.
  intros H12 H23 k v Hk. destruct (H12 k v Hk) as (v2 & Hv2 & ?).
  destruct (H23 k v2 Hv2) as (v3 & ? & ?). exists v3. split; [done|by etrans].
Qed.

Lemma map_extends_insert (m : gmap K V) k v' :
  (∀ v, m !! k = Some v → R v v') → map_extends R m (<[k := v']> m).
Proof.
  intros Hv k' v Hk'. destruct (decide (k = k')) as [<-|].
  - exists v'. rewrite lookup_insert_eq. auto.
  - exists v. by rewrite lookup_insert_ne.
Qed.
Lemma map_extends_fmap (f : V → V) (m : gmap K V) : (∀ v, R v (f v)) → map_extends R m (f <$> m).
Proof. intros Hf k v Hk. exists (f v). by rewrite lookup_fmap, Hk. Qed.
End map_extends.

(** ** Unique columns

    No two rows of [m] have the same [key]; a row without one clashes with none. *)
Definition unique_by {K A B} `{Countable K} (key : A → option B) (m : gmap K A) : Prop :=
  ∀ i j x y b, m !! i = Some x → m !! j = Some y → key x = Some b → key y = Some b → i = j.

Section unique_by.
  Context {K A B : Type} `{Countable K} (key : A → option B).
  Implicit Types m : gmap K A.

Lemma unique_by_empty : unique_by key (∅ : gmap K A).
Proof. intros i j x y b Hi. by rewrite lookup_empty in Hi. Qed.

Lemma unique_by_insert m i x :
  unique_by key m → (∀ j y b, m !! j = Some y → key x = Some b → key y = Some b → i = j) →
  unique_by key (<[i := x]> m).
Proof.
  intros Hm Hx a b y z k [[<- <-]|[Hai Ha]]%lookup_insert_Some [[<- <-]|[Hbi Hb]]%lookup_insert_Some Hy Hz.
  - done.
  - by eapply Hx.
  - symmetry. by eapply Hx.
  - by eapply Hm.
Qed.

(** A row may be replaced by one with the same key, or none. *)
Lemma unique_by_put m i x x' :
  unique_by key m → m !! i = Some x → (∀ b, key x' = Some b → key x = Some b) →
  unique_by key (<[i := x']> m).
Proof. intros Hm Hi Hk. apply unique_by_insert; [done|]. intros j y b Hj Hb Hy. by eapply Hm; eauto. Qed.

Lemma unique_by_fmap (f : A → A) m :
  unique_by key m → (∀ x b, key (f x) = Some b → key x = Some b) → unique_by key (f <$> m).
Proof.
  intros Hm Hf i j x y b (x' & <- & Hi)%lookup_fmap_Some (y' & <- & Hj)%lookup_fmap_Some Hx Hy.
  eapply Hm; eauto.
Qed.
End unique_by.

(** ** Reading SQL

    A CHECK or a filter passes when its column is NULL; LIMIT size OFFSET offset. *)
Definition opt_check {A} (f : A → bool) (o : option A) : bool :=
  match o with Some a => f a | None => true end.
Definition page_of {A} (offset size : Z) (rows : list A) : list A :=
  take (Z.to_nat size) (drop (Z.to_nat offset) rows).

(** Pages: the chunks of a list, and the list again. *)
Lemma concat_chunks {A} (l : list A) (s n : nat) :
  concat ((λ i, take s (drop (i * s) l)) <$> seq 0 n) = take (n * s) l.
Proof.
  induction n as [|n IH]; [done|].
  rewrite seq_S, fmap_app, concat_app, IH. simpl. rewrite app_nil_r.
  replace (s + n * s)%nat with (n * s + s)%nat by lia. by rewrite take_take_drop.
Qed.

(** How many pages cover [total] rows. *)
Lemma pages_cover (total size : Z) :
  (0 ≤ total → 0 < size →
   total ≤ (total + size - 1) / size * size ∧ (total + size - 1) / size ≤ total)%Z.
Proof.
  intros Ht Hs. pose proof (Z.div_mod (total + size - 1) size) as Hd.
  pose proof (Z.mod_pos_bound (total + size - 1) size Hs). split; [nia|].
  enough ((total + size - 1) / size < total + 1)%Z by lia. apply Z.div_lt_upper_bound; nia.
Qed.

(** ** Record updates

    [x <| f := v |>] is the record [x] with field [f] replaced. A record type
    gives its eta expansion and one [Setter] instance per updated field, which
    [build_setter] derives from it. *)

Class Eta (T : Type) := eta : T → T.
Class Setter {T F : Type} (proj : T → F) := update_field : (F → F) → T → T.
Arguments update_field {T F} proj {_} f x /.

Ltac build_setter proj :=
  let T := match type of proj with ?T → _ => T end in
  let e := eval cbv [eta] in (eta : T → T) in
  let e := match e with ?i => eval unfold i in i | _ => e end in
  match eval pattern proj in e with
  | ?g _ => let r := eval cbv beta in (λ f (x : T), g (λ y : T, f (proj y)) x) in exact r
  end.

Notation "x <| proj := v |>" := (update_field proj (λ _, v) x)
  (at level 1, left associativity, format "x <| proj  :=  v |>") : foc_scope.

(** ** Automation *)

Create HintDb foc discriminated.
#[export] Hint Resolve wrap64_range : foc.
Create Rewrite HintDb foc_sums.
#[export] Hint Rewrite @msum_empty @lsum_snoc @lsum_app : foc_sums.

(** Case split on every remaining boolean or option test of the goal. *)
Ltac split_cases :=
  repeat match goal with
  | |- context [match ?x with _ => _ end] => destruct x eqn:?; simplify_eq/=
  end.
