(* ===== verification/GoLib.v ===== *)
(** * The parts of Go's standard library the services use

    [time.Time] is a count of nanoseconds since Go's zero time (year 1, UTC),
    so the zero value is 0 and [Truncate], which rounds down to a multiple
    since the zero time, is a modulus. All times are UTC. [time.Duration] is a
    signed 64-bit count of nanoseconds. Identifiers that the code parses with
    google/uuid are kept as their canonical text: the parser is a parameter. *)
From S2P Require Import Prelude.
From stdpp Require Import prelude strings.
From Stdlib Require Import ZArith Lia.

Local Open Scope Z_scope.

(** ** time *)

Abbreviation Time := Z (only parsing).
Abbreviation Duration := Z (only parsing).

Definition Microsecond : Duration := 1000.
Definition Second : Duration := 1000000000.
Definition Minute : Duration := 60 * Second.
Definition Hour : Duration := 60 * Minute.

Definition zero_time : Time := 0.
Definition IsZero (t : Time) : bool := t =? 0.
Definition After (t u : Time) : bool := u <? t.
Definition Before (t u : Time) : bool := t <? u.

(** [Time.Sub] saturates at the ends of the int64 range. *)
Definition time_sub (t u : Time) : Duration :=
  Z.max min_int64 (Z.min max_int64 (t - u)).

(** [Time.Truncate] rounds down to a multiple of [d] since the zero time. *)
Definition time_truncate (t : Time) (d : Duration) : Time :=
  if d <=? 0 then t else t - t mod d.

(** [Duration.Truncate] rounds toward zero to a multiple of [m]. *)
Definition duration_truncate (d m : Duration) : Duration :=
  if m <=? 0 then d else d - Z.rem d m.

(** PostgreSQL keeps microseconds: what a timestamptz column stores. *)
Definition stored_time (t : Time) : Time := time_truncate t Microsecond.

Lemma stored_time_idemp t : stored_time (stored_time t) = stored_time t.
Proof.
  unfold stored_time, time_truncate, Microsecond. simpl.
  pose proof (Z.div_mod t 1000). pose proof (Z.mod_pos_bound t 1000).
  replace (t - t mod 1000) with (1000 * (t / 1000)) by lia.
  rewrite Z.mul_comm at 2. rewrite Z.mod_mul; lia.
Qed.

Lemma time_truncate_le t d : 0 < d → t - d < time_truncate t d <= t.
Proof.
  intros. unfold time_truncate. destruct (Z.leb_spec d 0); [lia|].
  pose proof (Z.mod_pos_bound t d). lia.
Qed.

Lemma time_truncate_mono t u d : t <= u → time_truncate t d <= time_truncate u d.
Proof.
  unfold time_truncate. destruct (Z.leb_spec d 0); [done|]. intros.
  pose proof (Z.div_le_mono t u d). pose proof (Z.div_mod t d). pose proof (Z.div_mod u d).
  nia.
Qed.

Lemma stored_time_le t : stored_time t <= t.
Proof. unfold stored_time. by apply time_truncate_le. Qed.

Lemma time_sub_id t u : is_int64 (t - u) → time_sub t u = t - u.
Proof. unfold time_sub. int64_lia. Qed.

(** ** UUIDs and hashes

    [uuid_parse s] is [uuid.Parse s] followed by [String]: the canonical text
    of the identifier, or [None] when [s] does not parse. *)
Class UUID := uuid_parse : string → option string.

(** What the services rely on: the canonical text parses to itself and is not
    empty, and the empty text is no identifier. *)
Class UUIDLaws `{UUID} : Prop := {
  uuid_parse_canonical s t : uuid_parse s = Some t → uuid_parse t = Some t;
  uuid_parse_nonempty s t : uuid_parse s = Some t → t ≠ EmptyString;
  uuid_parse_empty : uuid_parse EmptyString = None;
}.

(** A concrete parser for examples: 36 characters are canonical text. *)
Definition example_uuid : UUID := λ s,
  if decide (String.length s = 36%nat) then Some s else None.

Lemma example_uuid_laws : @UUIDLaws example_uuid.
Proof.
  split; unfold uuid_parse, example_uuid; try (intros s t; case_decide; intros [= <-]).
  - by rewrite decide_True.
  - by intros ->.
  - done.
Qed.

(** [sha256_hex] is the lower-case hexadecimal SHA-256 digest. *)
Class Digest := sha256_hex : string → string.

(** [uuid.NewV7]: the n-th identifier generated. Version 7 identifiers are
    time-ordered, so a later one compares greater; they are kept as their
    128-bit value. *)
Class UUIDv7 := new_v7 : nat → Z.

Class UUIDv7Laws `{UUIDv7} : Prop :=
  new_v7_mono n m : (n < m)%nat → new_v7 n < new_v7 m.
