(* ===== verification/GoText.v ===== *)
(** * Text in Go's standard library: UTF-8, JSON and RFC 3339

    A Go string is a sequence of bytes, here a [string]. [segments] is the
    decoding loop that unicode/utf8, strings and encoding/json share. *)
From S2P Require Import Prelude.
From S2P Require Import GoLib.
From stdpp Require Import prelude strings pretty.
From Stdlib Require Import ZArith Lia Ascii.

Local Open Scope Z_scope.

(** ** unicode/utf8 *)

Definition code (c : ascii) : Z := Z.of_N (N_of_ascii c).
Definition byte (n : Z) : ascii := ascii_of_N (Z.to_N n).
Definition within (lo hi z : Z) : bool := (lo <=? z) && (z <=? hi).
Definition cont (c : ascii) : bool := within 128 191 (code c).

(** The accepted ranges of the second byte exclude overlong encodings,
    surrogates and values above U+10FFFF. *)
Definition two_bytes (a b : ascii) : bool := within 194 223 (code a) && cont b.
Definition three_bytes (a b c : ascii) : bool :=
  (((code a =? 224) && within 160 191 (code b))
   || ((code a =? 237) && within 128 159 (code b))
   || ((within 225 236 (code a) || within 238 239 (code a)) && cont b)) && cont c.
Definition four_bytes (a b c d : ascii) : bool :=
  (((code a =? 240) && within 144 191 (code b))
   || ((code a =? 244) && within 128 143 (code b))
   || (within 241 243 (code a) && cont b)) && cont c && cont d.

(** The runes of a string with their bytes; an invalid byte is a segment of
    its own, without a rune. *)
Fixpoint segments (s : string) : list (option Z * string) :=
  match s with
  | EmptyString => []
  | String a s1 =>
      let invalid := (None, String a EmptyString) in
      if code a <? 128 then (Some (code a), String a EmptyString) :: segments s1
      else match s1 with
      | String b s2 =>
          if two_bytes a b then
            (Some (64 * (code a - 192) + (code b - 128)),
             String a (String b EmptyString)) :: segments s2
          else match s2 with
          | String c s3 =>
              if three_bytes a b c then
                (Some (4096 * (code a - 224) + 64 * (code b - 128) + (code c - 128)),
                 String a (String b (String c EmptyString))) :: segments s3
              else match s3 with
              | String d s4 =>
                  if four_bytes a b c d then
                    (Some (262144 * (code a - 240) + 4096 * (code b - 128)
                           + 64 * (code c - 128) + (code d - 128)),
                     String a (String b (String c (String d EmptyString)))) :: segments s4
                  else invalid :: segments s1
              | EmptyString => invalid :: segments s1
              end
          | EmptyString => invalid :: segments s1
          end
      | EmptyString => invalid :: segments s1
      end
  end.

Definition ValidString (s : string) : bool :=
  forallb (λ g, match g.1 with Some _ => true | None => false end) (segments s).
Definition RuneCountInString (s : string) : Z := Z.of_nat (length (segments s)).

(** ** strings *)

(** The UTF-8 encodings of the runes for which unicode.IsSpace holds. *)
Definition of_bytes (l : list Z) : string := foldr (λ b s, String (byte b) s) EmptyString l.
Definition spaces : list string := of_bytes <$>
  [[9]; [10]; [11]; [12]; [13]; [32]; [194; 133]; [194; 160]; [225; 154; 128];
   [226; 128; 128]; [226; 128; 129]; [226; 128; 130]; [226; 128; 131]; [226; 128; 132];
   [226; 128; 133]; [226; 128; 134]; [226; 128; 135]; [226; 128; 136]; [226; 128; 137];
   [226; 128; 138]; [226; 128; 168]; [226; 128; 169]; [226; 128; 175]; [226; 129; 159];
   [227; 128; 128]].

Fixpoint strip_prefix (p s : string) : option string :=
  match p, s with
  | EmptyString, _ => Some s
  | String a p', String b s' => if Ascii.eqb a b then strip_prefix p' s' else None
  | _, EmptyString => None
  end.

Definition HasPrefix (p s : string) : bool := is_some (strip_prefix p s).

(** The first of [ps] that starts [s], removed. *)
Fixpoint strip_any (ps : list string) (s : string) : option string :=
  match ps with
  | [] => None
  | p :: ps' => match strip_prefix p s with Some r => Some r | None => strip_any ps' s end
  end.

Fixpoint strip_all (fuel : nat) (ps : list string) (s : string) : string :=
  match fuel with
  | O => s
  | S n => match strip_any ps s with Some r => strip_all n ps r | None => s end
  end.

(** TrimSpace: the spaces are stripped as prefixes, and as suffixes by way of
    the reversed bytes. No space encoding is a suffix of another rune's. *)
Definition TrimSpace (s : string) : string :=
  let l := strip_all (String.length s) spaces s in
  String.rev (strip_all (String.length l) (String.rev <$> spaces) (String.rev l)).

(** Trimming twice is trimming once. *)

Lemma append_cons a (s t : string) : String a s +:+ t = String a (s +:+ t).
Proof. done. Qed.
Lemma append_assoc (s t u : string) : (s +:+ t) +:+ u = s +:+ (t +:+ u).
Proof. induction s as [|a s IH]; [done|]. rewrite ?append_cons. cbn [String.length]. by rewrite ?append_cons, IH. Qed.
Lemma append_nil (s : string) : s +:+ EmptyString = s.
Proof. induction s as [|a s IH]; [done|]. rewrite ?append_cons. cbn [String.length]. by rewrite ?append_cons, IH. Qed.
Lemma append_length (s t : string) : String.length (s +:+ t) = (String.length s + String.length t)%nat.
Proof. induction s as [|a s IH]; [done|]. rewrite ?append_cons. cbn [String.length]. by rewrite ?append_cons, IH. Qed.

Lemma rev_app_rev (s t : string) : String.rev_app s t = String.rev s +:+ t.
Proof.
  unfold String.rev. revert t. induction s as [|a s IH]; intros t; cbn [String.append String.length String.rev_app]; [done|].
  rewrite IH, (IH (String a EmptyString)), append_assoc. done.
Qed.
Lemma rev_cons a (s : string) : String.rev (String a s) = String.rev s +:+ String a EmptyString.
Proof. unfold String.rev. cbn [String.append String.length String.rev_app]. by rewrite rev_app_rev. Qed.
Lemma rev_append (s t : string) : String.rev (s +:+ t) = String.rev t +:+ String.rev s.
Proof.
  induction s as [|a s IH]; [by rewrite append_nil|]. by rewrite append_cons, !rev_cons, IH, append_assoc.
Qed.
Lemma rev_rev (s : string) : String.rev (String.rev s) = s.
Proof. induction s as [|a s IH]; [done|]. by rewrite rev_cons, rev_append, IH. Qed.
Lemma rev_length (s : string) : String.length (String.rev s) = String.length s.
Proof.
  induction s as [|a s IH]; [done|]. rewrite rev_cons, append_length, IH. cbn [String.append String.length String.rev_app]. lia.
Qed.

Lemma strip_prefix_Some (p s r : string) : strip_prefix p s = Some r ↔ s = p +:+ r.
Proof.
  revert s. induction p as [|a p IH]; intros s; cbn [strip_prefix].
  { change (EmptyString +:+ r) with r. naive_solver. }
  rewrite append_cons. destruct s as [|b s]; [done|]. destruct (Ascii.eqb_spec a b) as [->|Hne].
  - rewrite IH. split; [by intros ->|by intros [= ->]].
  - split; [done|]. by intros [= -> _].
Qed.

Lemma strip_any_Some ps s r : strip_any ps s = Some r → ∃ p, p ∈ ps ∧ s = p +:+ r.
Proof.
  induction ps as [|p ps IH]; cbn [strip_any]; [done|]. destruct (strip_prefix p s) as [r'|] eqn:Hp.
  - intros [= ->]. apply strip_prefix_Some in Hp as ->. exists p. split; [by left|done].
  - intros (q & Hq & ->)%IH. exists q. split; [by right|done].
Qed.

Lemma strip_any_None ps s : strip_any ps s = None ↔ ∀ p r, p ∈ ps → s ≠ p +:+ r.
Proof.
  induction ps as [|p ps IH]; cbn [String.append strip_any].
  - split; [intros _ q r Hq; by apply elem_of_nil in Hq|done].
  - destruct (strip_prefix p s) as [r|] eqn:Hp.
    + split; [done|]. intros Hn. apply strip_prefix_Some in Hp. by destruct (Hn p r); [left|].
    + rewrite IH. split; [|intros Hn q r Hq; apply Hn; by right].
      intros Hn q r [->|Hq]%elem_of_cons Hs; [|by eapply Hn].
      apply strip_prefix_Some in Hs. congruence.
Qed.

(** What is stripped is a prefix, and no further one is left. *)
Lemma strip_all_spec n ps s :
  Forall (λ p, p ≠ EmptyString) ps → (String.length s ≤ n)%nat →
  (∃ p, s = p +:+ strip_all n ps s) ∧ strip_any ps (strip_all n ps s) = None.
Proof.
  intros Hps. revert s. induction n as [|n IH]; intros s Hn; cbn [strip_all].
  - destruct s; [|cbn in Hn; lia]. split; [by exists EmptyString|]. apply strip_any_None.
    intros p r Hp Hs. rewrite Forall_forall in Hps. specialize (Hps p Hp). by destruct p.
  - destruct (strip_any ps s) as [r|] eqn:Hr; [|split; [by exists EmptyString|done]].
    apply strip_any_Some in Hr as (p & Hp & ->). rewrite Forall_forall in Hps. pose proof (Hps p Hp) as Hne.
    rewrite append_length in Hn. assert (String.length p ≠ 0)%nat by (by destruct p).
    destruct (IH r) as [[q Hq] Hnone]; [lia|]. split; [|done]. exists (p +:+ q). by rewrite append_assoc, <- Hq.
Qed.

Lemma strip_all_done n ps s : strip_any ps s = None → strip_all n ps s = s.
Proof. destruct n; cbn [strip_all]; [done|]. by intros ->. Qed.

Lemma spaces_nonempty : Forall (λ p, p ≠ EmptyString) spaces ∧ Forall (λ p, p ≠ EmptyString) (String.rev <$> spaces).
Proof. split; vm_compute; repeat (constructor; [done|]); constructor. Qed.

(** A trimmed text starts and ends with no space. *)
Lemma TrimSpace_stripped s :
  strip_any spaces (TrimSpace s) = None ∧ strip_any (String.rev <$> spaces) (String.rev (TrimSpace s)) = None.
Proof.
  unfold TrimSpace. destruct spaces_nonempty as [Hs Hr].
  set (l := strip_all (String.length s) spaces s).
  destruct (strip_all_spec (String.length s) spaces s Hs ltac:(lia)) as [_ Hl]. fold l in Hl.
  set (t := strip_all (String.length l) (String.rev <$> spaces) (String.rev l)).
  destruct (strip_all_spec (String.length l) (String.rev <$> spaces) (String.rev l) Hr
    ltac:(rewrite rev_length; lia)) as [[p Hp] Ht]. fold t in Hp, Ht.
  assert (l = String.rev t +:+ String.rev p) as Hlt by (by rewrite <- rev_append, <- Hp, rev_rev).
  rewrite rev_rev. split; [|done]. apply strip_any_None. intros q r Hq Hc. rewrite strip_any_None in Hl.
  apply (Hl q (r +:+ String.rev p) Hq). by rewrite Hlt, Hc, append_assoc.
Qed.

Lemma TrimSpace_idemp s : TrimSpace (TrimSpace s) = TrimSpace s.
Proof.
  destruct (TrimSpace_stripped s) as [Hl Ht]. unfold TrimSpace at 1.
  by rewrite (strip_all_done _ spaces _ Hl), strip_all_done, rev_rev.
Qed.

(** The order of Go's strings compares bytes. *)
Definition string_le (x y : string) : Prop := String.leb x y = true.
#[export] Instance string_le_dec : RelDecision string_le.
Proof. unfold RelDecision, string_le. apply _. Defined.
#[export] Instance string_le_total : Total string_le.
Proof. intros x y. destruct (String.leb_total x y); [by left|by right]. Qed.
#[export] Instance string_le_trans : Transitive string_le.
Proof.
  unfold string_le, String.leb. intros x. induction x as [|a x IH]; intros [|b y] [|c z]; simpl; try done.
  intros Hxy Hyz. specialize (IH y z). unfold Ascii.compare in *.
  destruct (N.compare_spec (N_of_ascii a) (N_of_ascii b)) as [E1|L1|L1]; try done;
    destruct (N.compare_spec (N_of_ascii b) (N_of_ascii c)) as [E2|L2|L2]; try done;
    destruct (N.compare_spec (N_of_ascii a) (N_of_ascii c)) as [E3|L3|L3]; try done; lia || auto.
Qed.
#[export] Instance string_le_antisymm : AntiSymm (=) string_le.
Proof. intros x y. unfold string_le. by apply String.leb_antisym. Qed.

(** EqualFold on identifiers, whose text is ASCII. *)
Definition fold_byte (c : ascii) : Z := if within 65 90 (code c) then code c + 32 else code c.
Fixpoint EqualFold (s t : string) : bool :=
  match s, t with
  | EmptyString, EmptyString => true
  | String a s', String b t' => (fold_byte a =? fold_byte b) && EqualFold s' t'
  | _, _ => false
  end.

Lemma EqualFold_refl s : EqualFold s s = true.
Proof. induction s as [|a s IH]; simpl; [done|]. by rewrite Z.eqb_refl. Qed.

Lemma EqualFold_trans s t u : EqualFold s t = true → EqualFold u t = true → EqualFold s u = true.
Proof.
  revert t u. induction s as [|a s IH]; intros [|b t] [|c u]; simpl; try done.
  intros [?%Z.eqb_eq ?]%andb_prop [?%Z.eqb_eq ?]%andb_prop. apply andb_true_intro.
  split; [apply Z.eqb_eq; lia|]. by eapply IH.
Qed.

(** Canonical UUID text is lower case: texts equal up to case are equal. *)
Class UUIDFold `{UUID} : Prop :=
  uuid_fold s s' t t' : uuid_parse s = Some t → uuid_parse s' = Some t' →
    EqualFold t t' = true → t = t'.

(** ** Text and times in PostgreSQL *)

(** PostgreSQL text holds valid UTF-8 without NUL; [length] counts characters. *)
Definition no_nul (s : string) : bool :=
  forallb (λ g, match g.1 with Some r => negb (r =? 0) | None => false end) (segments s).
Definition opt_text_ok (o : option string) : bool :=
  match o with Some s => no_nul s | None => true end.
Definition opt_length_le (n : Z) (o : option string) : bool :=
  match o with Some s => RuneCountInString s <=? n | None => true end.

(** btrim strips spaces only. *)
Definition btrim (s : string) : string :=
  let l := strip_all (String.length s) [" "] s in
  String.rev (strip_all (String.length l) [" "] (String.rev l)).
Definition char_length (s : string) : Z := RuneCountInString s.

Lemma segments_nonempty s : s ≠ EmptyString → 0 < char_length s.
Proof.
  intros Hs. unfold char_length, RuneCountInString. destruct s as [|a s]; [done|]. cbn [segments].
  repeat match goal with |- context [if ?b then _ else _] => destruct b | |- context [match ?x with _ => _ end] => destruct x end;
    cbn [length]; lia.
Qed.

(** A text that Go trimmed has no spaces for btrim to strip. *)
Lemma strip_space ps s : strip_any ps s = None → " "%string ∈ ps → strip_any [" "%string] s = None.
Proof. rewrite !strip_any_None. intros Hn Hin p r ->%list_elem_of_singleton. by apply Hn. Qed.

Lemma btrim_TrimSpace s : btrim (TrimSpace s) = TrimSpace s.
Proof.
  destruct (TrimSpace_stripped s) as [Hl Ht]. unfold btrim.
  rewrite (strip_all_done _ [" "%string] (TrimSpace s)); [|eapply strip_space; [exact Hl|by vm_compute; repeat constructor]].
  rewrite strip_all_done, rev_rev; [done|]. eapply strip_space; [exact Ht|]. by vm_compute; repeat constructor.
Qed.

Definition stored_times : option Time → option Time := fmap stored_time.

(** ** encoding/json

    A value to encode. Structs and maps are objects whose members come in the
    order they are written: field order, or sorted keys for a map. *)
Inductive json :=
| JNull
| JBool (b : bool)
| JInt (z : Z)
(** A number that is not an integer, as it is written. *)
| JNumber (text : string)
| JString (s : string)
| JArray (items : list json)
| JObject (members : list (string * json)).

#[export] Instance json_eq_dec : EqDecision json.
Proof.
  unshelve refine (fix go (v w : json) : Decision (v = w) :=
    let arrays := fix arrays (l k : list json) : Decision (l = k) :=
      match l, k with
      | [], [] => left eq_refl
      | x :: l', y :: k' => cast_if_and (go x y) (arrays l' k')
      | _, _ => right _
      end in
    let members := fix members (l k : list (string * json)) : Decision (l = k) :=
      match l, k with
      | [], [] => left eq_refl
      | (a, x) :: l', (b, y) :: k' => cast_if_and3 (decide (a = b)) (go x y) (members l' k')
      | _, _ => right _
      end in
    match v, w with
    | JNull, JNull => left eq_refl
    | JBool a, JBool b => cast_if (decide (a = b))
    | JInt a, JInt b => cast_if (decide (a = b))
    | JNumber a, JNumber b => cast_if (decide (a = b))
    | JString a, JString b => cast_if (decide (a = b))
    | JArray l, JArray k => cast_if (arrays l k)
    | JObject l, JObject k => cast_if (members l k)
    | _, _ => right _
    end); try clear members; try clear arrays; clear go; congruence.
Defined.

Definition backslash : string := of_bytes [92].
Definition quote : string := of_bytes [34].
Definition hex_digit (n : Z) : string :=
  of_bytes [if n <? 10 then 48 + n else 87 + n].

(** The escape that Marshal (HTML-safe by default) writes for a rune. *)
Definition escape_rune (g : option Z * string) : string :=
  match g.1 with
  | None => backslash +:+ "ufffd"
  | Some r =>
      if (r =? 34) || (r =? 92) then backslash +:+ g.2
      else if r =? 8 then backslash +:+ "b"
      else if r =? 12 then backslash +:+ "f"
      else if r =? 10 then backslash +:+ "n"
      else if r =? 13 then backslash +:+ "r"
      else if r =? 9 then backslash +:+ "t"
      else if (r <? 32) || (r =? 60) || (r =? 62) || (r =? 38) then
        backslash +:+ "u00" +:+ hex_digit (r / 16) +:+ hex_digit (r mod 16)
      else if (r =? 8232) || (r =? 8233) then
        backslash +:+ "u202" +:+ hex_digit (r mod 16)
      else g.2
  end.

(** jsonb's text escapes only quotes, backslashes and control characters. *)
Definition jsonb_rune (g : option Z * string) : string :=
  match g.1 with
  | Some r =>
      if (r =? 34) || (r =? 92) || (r <? 32) then escape_rune g else g.2
  | None => g.2
  end.

Definition concat_map (f : option Z * string → string) (l : list (option Z * string)) : string :=
  foldr (λ g s, f g +:+ s) EmptyString l.

Definition quoted (f : option Z * string → string) (s : string) : string :=
  quote +:+ concat_map f (segments s) +:+ quote.

(** The text of a value, with the separators [colon] and [comma]. *)
Section print.
  Context (escape : option Z * string → string) (colon comma : string).

Fixpoint print_json (v : json) : string :=
  match v with
  | JNull => "null"
  | JBool b => if b then "true" else "false"
  | JInt z => pretty z
  | JNumber t => t
  | JString s => quoted escape s
  | JArray vs =>
      let fix items (first : bool) (vs : list json) : string :=
        match vs with
        | [] => EmptyString
        | v :: vs' => (if first then EmptyString else comma) +:+ print_json v +:+ items false vs'
        end in
      "[" +:+ items true vs +:+ "]"
  | JObject ms =>
      let fix members (first : bool) (ms : list (string * json)) : string :=
        match ms with
        | [] => EmptyString
        | (k, v) :: ms' =>
            (if first then EmptyString else comma) +:+ quoted escape k +:+ colon
            +:+ print_json v +:+ members false ms'
        end in
      "{" +:+ members true ms +:+ "}"
  end.

End print.

(** json.Marshal and the text form of a jsonb column. *)
Definition Marshal (v : json) : string := print_json escape_rune ":" "," v.
Definition jsonb_text (v : json) : string := print_json jsonb_rune ": " ", " v.

(** ** time.Time as RFC 3339 with nanoseconds *)

Definition nanos_per_day : Z := 86400 * Second.

(** The civil date of a day counted from 1 January of year 1. *)
Definition civil (days : Z) : Z * Z * Z :=
  let z := days + 306 in
  let era := z / 146097 in
  let doe := z mod 146097 in
  let yoe := (doe - doe / 1460 + doe / 36524 - doe / 146096) / 365 in
  let doy := doe - (365 * yoe + yoe / 4 - yoe / 100) in
  let mp := (5 * doy + 2) / 153 in
  let m := if mp <? 10 then mp + 3 else mp - 9 in
  (yoe + era * 400 + (if m <=? 2 then 1 else 0), m, doy - (153 * mp + 2) / 5 + 1).

(** [digits n z] is [z] in [n] decimal digits. *)
Fixpoint digits (n : nat) (z : Z) : string :=
  match n with
  | O => EmptyString
  | S n' => digits n' (z / 10) +:+ of_bytes [48 + z mod 10]
  end.

(** The fraction without trailing zeros, its dot included. *)
Fixpoint fraction (n : nat) (z : Z) : string :=
  match n with
  | O => EmptyString
  | S n' => if z mod 10 =? 0 then fraction n' (z / 10) else "." +:+ digits n z
  end.

(** MarshalJSON's text of a UTC time, which fails outside years 0 to 9999. *)
Definition format_time (t : Time) : option string :=
  let '(y, m, d) := civil (t / nanos_per_day) in
  let s := t mod nanos_per_day / Second in
  if within 0 9999 y then
    Some (digits 4 y +:+ "-" +:+ digits 2 m +:+ "-" +:+ digits 2 d +:+ "T"
          +:+ digits 2 (s / 3600) +:+ ":" +:+ digits 2 (s / 60 mod 60) +:+ ":"
          +:+ digits 2 (s mod 60) +:+ fraction 9 (t mod Second) +:+ "Z")
  else None.
