(* ===== verification/GoFloat.v ===== *)
(** * float64 in Go: comparison with integers and its JSON text

    A float64 is the Standard Library's [spec_float], in which a finite value is
    a sign, a mantissa and a power of two. encoding/json writes the shortest
    decimal that reads back as the same value (strconv.AppendFloat with
    precision -1), with an exponent below 1e-6 and from 1e21. *)
From S2P Require Import Prelude.
From S2P Require Import GoLib.
From S2P Require Import GoText.
From stdpp Require Import prelude strings pretty.
From Stdlib Require Import ZArith Lia SpecFloat.

Local Open Scope Z_scope.

Abbreviation Float64 := spec_float (only parsing).

#[export] Instance spec_float_eq_dec : EqDecision spec_float.
Proof. solve_decision. Defined.

Definition IsNaN (f : Float64) : bool := match f with S754_nan => true | _ => false end.
Definition IsInf (f : Float64) : bool := match f with S754_infinity _ => true | _ => false end.

(** A finite value is [numerator / denominator], the latter a power of two. *)
Definition numerator (f : Float64) : Z :=
  match f with
  | S754_finite s m e => (if s then -1 else 1) * Z.pos m * 2 ^ Z.max e 0
  | _ => 0
  end.
Definition denominator (f : Float64) : Z :=
  match f with S754_finite _ _ e => 2 ^ Z.max (- e) 0 | _ => 1 end.

(** [f <= z] and [f >= z] for a finite [f] and an integer constant. *)
Definition at_most (f : Float64) (z : Z) : bool := numerator f <=? z * denominator f.
Definition at_least (f : Float64) (z : Z) : bool := z * denominator f <=? numerator f.

(** ** The shortest decimal

    [v], [low] and [up] are fractions over the same denominator [den]: the value
    and the ends of the interval that rounds to it. *)
Record Bounds := { bd_low : Z; bd_value : Z; bd_up : Z; bd_den : Z; bd_inclusive : bool }.

Definition bounds (m e : Z) : Bounds :=
  let scale := 2 ^ Z.max (e - 2) 0 in
  let below := if (m =? 2 ^ 52) && (-1074 <? e) then 1 else 2 in
  {| bd_low := (4 * m - below) * scale; bd_value := 4 * m * scale; bd_up := (4 * m + 2) * scale;
     bd_den := 2 ^ Z.max (2 - e) 0; bd_inclusive := Z.even m |}.

(** Rounding [v] to a multiple of 10^p, down and up, where it stays inside. *)
Definition rounded (b : Bounds) (p : Z) : option Z :=
  let unit := 10 ^ Z.max p 0 * bd_den b in
  let scaled z := z * 10 ^ Z.max (- p) 0 in
  let lo := scaled (bd_value b) / unit in
  let inside z :=
    let x := z * unit in
    ((scaled (bd_low b) <? x) && (x <? scaled (bd_up b)))
    || (bd_inclusive b && ((x =? scaled (bd_low b)) || (x =? scaled (bd_up b)))) in
  let twice := 2 * (scaled (bd_value b) - lo * unit) in
  match inside lo, inside (lo + 1) with
  | true, true => Some (if (twice <? unit) || ((twice =? unit) && Z.even lo) then lo else lo + 1)
  | true, false => Some lo
  | false, true => Some (lo + 1)
  | false, false => None
  end.

(** The largest exponent that has a rounding inside, from [p] downwards. *)
Fixpoint shortest (fuel : nat) (b : Bounds) (p : Z) : Z * Z :=
  match fuel with
  | O => (0, 0)
  | S n => match rounded b p with
           | Some d => (d, p)
           | None => shortest n b (p - 1)
           end
  end.

(** ** encoding/json *)

Fixpoint zeros (n : nat) : string := match n with O => EmptyString | S n' => "0" +:+ zeros n' end.

(** 'f': d * 10^p without an exponent. *)
Definition format_f (d p : Z) : string :=
  if 0 <=? p then pretty d +:+ zeros (Z.to_nat p)
  else
    let k := Z.to_nat (- p) in
    pretty (d / 10 ^ (- p)) +:+ "." +:+ digits k (d mod 10 ^ (- p)).

(** 'e': one digit before the point and a signed exponent. encoding/json drops
    the zero that pads a negative one-digit exponent. *)
Definition format_e (d p : Z) : string :=
  let s := pretty d in
  let x := p + Z.of_nat (String.length s) - 1 in
  let mantissa := match s with
    | String c EmptyString => s
    | String c rest => String c EmptyString +:+ "." +:+ rest
    | EmptyString => s
    end in
  mantissa +:+ "e" +:+ (if x <? 0 then "-" else "+") +:+ pretty (Z.abs x).

(** json.Marshal of a float64, which fails on a value that is not finite. 17
    digits identify every float64, the largest has 309 before the point. *)
Definition format_float (f : Float64) : option string :=
  match f with
  | S754_nan | S754_infinity _ => None
  | S754_zero s => Some (if s then "-0" else "0")
  | S754_finite s m e =>
      let top := Z.log2 (Z.pos m) + e in
      let start := top * 30103 / 100000 + 2 in
      let '(d, p) := shortest 24 (bounds (Z.pos m) e) start in
      let small := negb (at_least (S754_finite false m e) 1)
                   && (numerator (S754_finite false m e) * 1000000
                       <? denominator (S754_finite false m e)) in
      let large := at_least (S754_finite false m e) (10 ^ 21) in
      Some ((if s then "-" else EmptyString)
            +:+ (if small || large then format_e d p else format_f d p))
  end.

Definition float_json (f : Float64) : option json := JNumber <$> format_float f.

(** 1.2966, 0.1, 2, 1e-7, 5e-324 and the largest float64. *)
Example format_float_values :
  format_float <$> [S754_finite false 5839367276848585 (-52); S754_finite false 7205759403792794 (-56);
                    S754_finite true 4503599627370496 (-51); S754_finite false 7555786372591432 (-76);
                    S754_finite false 1 (-1074); S754_finite false 9007199254740991 971]
  = [Some "1.2966"; Some "0.1"; Some "-2"; Some "1e-7"; Some "5e-324"; Some "1.7976931348623157e+308"].
Proof. vm_compute. reflexivity. Qed.
