(* ===== verification/GoMail.v ===== *)
(** * Addresses and tokens in Go's standard library

    strings.ToLower, the bare addresses that net/mail parses, net.ParseIP for
    their domain literals, and base64.RawURLEncoding. The table of Unicode case
    mappings is a parameter. *)
From stdpp Require Import prelude strings.
From Stdlib Require Import ZArith Lia Ascii.
From S2P Require Import Prelude.
From S2P Require Import GoLib.
From S2P Require Import GoText.

Local Open Scope Z_scope.

(** ** Lower case *)

(** [unicode.ToLower] of a rune from U+0080, in UTF-8. *)
Class UnicodeLower := lower_rune : Z → string.

(** strings.ToLower: an invalid byte of a text that is not ASCII becomes U+FFFD. *)
Definition lower_segment `{UnicodeLower} (g : option Z * string) : string :=
  match g.1 with
  | Some r => if r <? 128 then of_bytes [if within 65 90 r then r + 32 else r] else lower_rune r
  | None => of_bytes [239; 191; 189]
  end.
Definition ToLower `{UnicodeLower} (s : string) : string := concat_map lower_segment (segments s).

(** ** Bytes of a string *)

Definition chars (s : string) : list Z := code <$> String.list_ascii_of_string s.

(** Everything before and after the last occurrence of a byte. *)
Fixpoint split_last (c : Z) (s : string) : option (string * string) :=
  match s with
  | EmptyString => None
  | String a s' =>
      match split_last c s' with
      | Some (before, after) => Some (String a before, after)
      | None => if code a =? c then Some (EmptyString, s') else None
      end
  end.

(** strings.Split at a byte: never empty. *)
Fixpoint split_at (c : Z) (l : list Z) : list (list Z) :=
  match l with
  | [] => [[]]
  | a :: l' => if a =? c then [] :: split_at c l'
               else match split_at c l' with
                    | f :: fs => (a :: f) :: fs
                    | [] => [[a]]
                    end
  end.

(** ** net.ParseIP *)

Definition digit (c : Z) : bool := within 48 57 c.
Definition hex (c : Z) : bool := digit c || within 97 102 c || within 65 70 c.

(** Four decimal fields of at most 255, without leading zeros. *)
Definition ipv4_field (f : list Z) : bool :=
  match f with
  | [] => false
  | d :: rest =>
      forallb digit f && negb ((d =? 48) && negb (bool_decide (rest = [])))
      && (foldl (λ n c, 10 * n + (c - 48)) 0 f <=? 255)
  end.
Definition is_ipv4 (s : list Z) : bool :=
  let fields := split_at 46 s in bool_decide (length fields = 4%nat) && forallb ipv4_field fields.

(** The leading hexadecimal digits of a text, and the rest. *)
Fixpoint hex_prefix (s : list Z) : list Z * list Z :=
  match s with
  | c :: s' => if hex c then let '(h, r) := hex_prefix s' in (c :: h, r) else ([], s)
  | [] => ([], [])
  end.

(** The loop over groups: [i] bytes are written, [ellipsis] whether "::" was
    seen. Its result is the number of bytes written, if all of the text was used. *)
Fixpoint ipv6_groups (fuel : nat) (i : Z) (ellipsis : bool) (s : list Z) : option (Z * bool) :=
  match fuel with
  | O => None
  | S n =>
      if 16 <=? i then match s with [] => Some (i, ellipsis) | _ => None end
      else
      let '(h, rest) := hex_prefix s in
      if (Nat.eqb (length h) 0) || Nat.ltb 4 (length h) then None
      else match rest with
      | [] => Some (i + 2, ellipsis)
      | c :: rest' =>
          if c =? 46 then
            if (negb ellipsis && negb (i =? 12)) || (16 <? i + 4) || negb (is_ipv4 s) then None
            else Some (i + 4, ellipsis)
          else if negb (c =? 58) then None
          else match rest' with
          | [] => None
          | c' :: rest'' =>
              if c' =? 58 then
                if ellipsis then None
                else match rest'' with
                     | [] => Some (i + 2, true)
                     | _ => ipv6_groups n (i + 2) true rest''
                     end
              else ipv6_groups n (i + 2) ellipsis rest'
          end
      end
  end.

Definition is_ipv6 (s : list Z) : bool :=
  let complete r := match r with
                    | Some (i, ellipsis) => if (i <? 16) then (ellipsis : bool) else negb ellipsis
                    | None => false
                    end in
  match s with
  | 58 :: 58 :: [] => true
  | 58 :: 58 :: s' => complete (ipv6_groups 9 0 true s')
  | _ => complete (ipv6_groups 9 0 false s)
  end.

(** The first dot or colon decides which; a zone is no IP. *)
Definition ParseIP (s : list Z) : bool :=
  match list_find (λ c, c = 46 ∨ c = 58 ∨ c = 37) s with
  | Some (_, 46) => is_ipv4 s
  | Some (_, 58) => bool_decide (37 ∉ s) && is_ipv6 s
  | _ => false
  end.

(** ** net/mail: bare addresses

    [ParseAddress s] succeeds with an address that is [s] itself when [s] is an
    addr-spec of a dot-atom and a domain: quotes, comments, names and groups are
    not part of the address they give. *)

(** A visible character other than the specials; runes from U+0080 are visible. *)
Definition vchar (r : Z) : bool := within 33 126 r || (128 <=? r).
Definition specials : list Z := [40; 41; 60; 62; 91; 93; 58; 59; 64; 92; 44; 34].
Definition atext (g : option Z * string) : bool :=
  match g.1 with Some r => vchar r && bool_decide (r ∉ specials) | None => false end.
Definition dtext (g : option Z * string) : bool :=
  match g.1 with Some r => vchar r && bool_decide (r ∉ [91; 92; 93]) | None => false end.

(** No empty atom between, before or after the dots. *)
Definition dot_atom (s : string) : bool :=
  forallb atext (segments s) && forallb (λ a, bool_decide (a ≠ [])) (split_at 46 (chars s)).

Definition domain_literal (s : string) : bool :=
  match s with
  | String a s' =>
      (code a =? 91) &&
      match split_last 93 s' with
      | Some (text, EmptyString) => forallb dtext (segments text) && ParseIP (chars text)
      | _ => false
      end
  | EmptyString => false
  end.

Definition bare_address (s : string) : bool :=
  match split_last 64 s with
  | Some (local, domain) => dot_atom local && (dot_atom domain || domain_literal domain)
  | None => false
  end.

(** ** base64.RawURLEncoding *)

(** The alphabet A-Z a-z 0-9 - _ . *)
Definition sextet_char (v : Z) : Z :=
  if v <? 26 then 65 + v else if v <? 52 then 71 + v else if v <? 62 then v - 4
  else if v =? 62 then 45 else 95.
Definition sextet (c : Z) : option Z :=
  if within 65 90 c then Some (c - 65) else if within 97 122 c then Some (c - 71)
  else if digit c then Some (c + 4) else if c =? 45 then Some 62 else if c =? 95 then Some 63
  else None.

Fixpoint EncodeToString (l : list Z) : list Z :=
  match l with
  | [] => []
  | [a] => [sextet_char (a / 4); sextet_char (a mod 4 * 16)]
  | [a; b] => [sextet_char (a / 4); sextet_char (a mod 4 * 16 + b / 16); sextet_char (b mod 16 * 4)]
  | a :: b :: c :: l' =>
      sextet_char (a / 4) :: sextet_char (a mod 4 * 16 + b / 16)
      :: sextet_char (b mod 16 * 4 + c / 64) :: sextet_char (c mod 64) :: EncodeToString l'
  end.

(** The decoder skips line breaks and drops the bits that fill no byte. *)
Fixpoint decode_sextets (l : list Z) : option (list Z) :=
  match l with
  | [] => Some []
  | [_] => None
  | [u; v] => Some [u * 4 + v / 16]
  | [u; v; w] => Some [u * 4 + v / 16; v mod 16 * 16 + w / 4]
  | u :: v :: w :: x :: l' =>
      rest ← decode_sextets l';
      Some (u * 4 + v / 16 :: v mod 16 * 16 + w / 4 :: w mod 4 * 64 + x :: rest)
  end.
Definition DecodeString (s : list Z) : option (list Z) :=
  sextets ← mapM sextet (filter (λ c, c ≠ 10 ∧ c ≠ 13) s);
  decode_sextets sextets.

Definition text_of (l : list Z) : string := of_bytes l.

(** Decoding an encoding gives the bytes back. *)

Definition is_byte (b : Z) : Prop := 0 <= b < 256.

Lemma sextet_sextet_char v : 0 <= v < 64 → sextet (sextet_char v) = Some v.
Proof.
  intros Hv. assert (∀ n : nat, (n < 64)%nat → sextet (sextet_char (Z.of_nat n)) = Some (Z.of_nat n)) as Hall.
  { intros n Hn. do 64 (destruct n as [|n]; [reflexivity|]). lia. }
  specialize (Hall (Z.to_nat v)). rewrite Z2Nat.id in Hall by lia. apply Hall. lia.
Qed.

Lemma sextet_char_line v : 0 <= v < 64 → sextet_char v ≠ 10 ∧ sextet_char v ≠ 13.
Proof.
  intros Hv. split; intros Hc; pose proof (sextet_sextet_char v Hv) as Hs; rewrite Hc in Hs; discriminate.
Qed.

(** The sextets of an encoding. *)
Fixpoint sextets_of (l : list Z) : list Z :=
  match l with
  | [] => []
  | [a] => [a / 4; a mod 4 * 16]
  | [a; b] => [a / 4; a mod 4 * 16 + b / 16; b mod 16 * 4]
  | a :: b :: c :: l' =>
      a / 4 :: a mod 4 * 16 + b / 16 :: b mod 16 * 4 + c / 64 :: c mod 64 :: sextets_of l'
  end.

(** Three bytes at a time. *)
Lemma bytes_ind (P : list Z → Prop) :
  P [] → (∀ a, P [a]) → (∀ a b, P [a; b]) → (∀ a b c l, P l → P (a :: b :: c :: l)) → ∀ l, P l.
Proof.
  intros H0 H1 H2 H3 l. enough (P l ∧ (∀ a, P (a :: l)) ∧ ∀ a b, P (a :: b :: l)) by tauto.
  induction l as [|x l (IH1 & IH2 & IH3)]; auto.
Qed.

Lemma sextets_of_range l : Forall is_byte l → Forall (λ v, 0 <= v < 64) (sextets_of l).
Proof.
  unfold is_byte. induction l as [|a|a b|a b c l IH] using bytes_ind; cbn [sextets_of];
    rewrite ?Forall_cons; intros Hb; repeat constructor; try apply IH; try tauto;
    Z.div_mod_to_equations; lia.
Qed.

Lemma encode_sextets l : EncodeToString l = sextet_char <$> sextets_of l.
Proof.
  induction l as [|a|a b|a b c l IH] using bytes_ind; cbn [EncodeToString sextets_of]; try done.
  rewrite IH. done.
Qed.

Lemma decode_sextets_of l : Forall is_byte l → decode_sextets (sextets_of l) = Some l.
Proof.
  unfold is_byte. induction l as [|a|a b|a b c l IH] using bytes_ind; cbn [decode_sextets sextets_of];
    rewrite ?Forall_cons; intros Hb; try done;
    [..|destruct Hb as (? & ? & ? & Hb); rewrite IH by done; cbn [mbind option_bind]];
    repeat f_equal; Z.div_mod_to_equations; lia.
Qed.

Lemma mapM_sextet_chars l : Forall (λ v, 0 <= v < 64) l → mapM sextet (sextet_char <$> l) = Some l.
Proof.
  induction 1 as [|v l Hv Hl IH]; [done|]. rewrite fmap_cons. cbn [mapM].
  by rewrite sextet_sextet_char, IH.
Qed.

Lemma no_line_breaks l :
  Forall (λ v, 0 <= v < 64) l → filter (λ c, c ≠ 10 ∧ c ≠ 13) (sextet_char <$> l) = sextet_char <$> l.
Proof.
  induction 1 as [|v l Hv Hl IH]; [done|]. rewrite fmap_cons, filter_cons_True by by apply sextet_char_line.
  by rewrite IH.
Qed.

Lemma DecodeString_EncodeToString l : Forall is_byte l → DecodeString (EncodeToString l) = Some l.
Proof.
  intros Hl. unfold DecodeString. rewrite encode_sextets.
  pose proof (sextets_of_range l Hl) as Hr.
  rewrite no_line_breaks, mapM_sextet_chars by done. simpl. by apply decode_sextets_of.
Qed.

(** A text is its bytes. *)
Lemma code_byte z : is_byte z → code (byte z) = z.
Proof. intros [??]. unfold code, byte. rewrite N_ascii_embedding; lia. Qed.

Lemma chars_text_of l : Forall is_byte l → chars (text_of l) = l.
Proof.
  induction 1 as [|b l Hb Hl IH]; [done|]. unfold chars in *. cbn. rewrite code_byte by done.
  f_equal. exact IH.
Qed.

Lemma sextet_char_byte v : 0 <= v < 64 → is_byte (sextet_char v).
Proof.
  unfold is_byte, sextet_char. intros. repeat match goal with |- context [if ?b then _ else _] => destruct b eqn:? end; lia.
Qed.

Lemma encoding_bytes l : Forall is_byte l → Forall is_byte (EncodeToString l).
Proof.
  intros Hl. rewrite encode_sextets. apply Forall_fmap. eapply Forall_impl; [by apply sextets_of_range|].
  intros v Hv. by apply sextet_char_byte.
Qed.
