(* ===== verification/CreditTypes.v ===== *)
(** * Credit: domain types

    The data of credit-service/internal/account and
    credit-service/internal/reservation. A Go string type with a closed set of
    constants is an inductive type; where the code uses the empty string as a
    value of such a type ([ReleaseReason], [OutcomeType]) the inductive has a
    constructor for it. Identifiers are strings, empty when unset. *)
From S2P Require Import Prelude.
From S2P Require Import GoLib.
From stdpp Require Import prelude countable strings.
From Stdlib Require Import ZArith.

Local Open Scope Z_scope.

(** ** account/types.go *)
Module account.

(** StartingCredits are granted once, when the account is opened. *)
Definition StartingCredits : Z := 100.
Definition DefaultPageSize : Z := 20.
Definition MaxPageSize : Z := 100.

Record Account := { UserID : string; Balance : Z; Reserved : Z }.

(** What a Go map returns for a key that is not there. *)
Definition zero_account : Account := {| UserID := EmptyString; Balance := 0; Reserved := 0 |}.

Definition Available (a : Account) : Z := sub64 (Balance a) (Reserved a).

Inductive Kind := Grant | Reserve | Adjust | Revert | Release | Payout | Refund.

#[global] Instance Kind_eq_dec : EqDecision Kind.
Proof. solve_decision. Defined.

Record LedgerEntry := {
  le_ID : Z;
  le_Kind : Kind;
  le_BalanceDelta : Z;
  le_ReservedDelta : Z;
  le_OrderID : string;
  le_AssignmentID : string;
  le_CreatedAt : Time;
}.

Record Page := { Number : Z; Size : Z }.
Record PageInfo := { pi_Page : Z; pi_PageSize : Z; TotalItems : Z; TotalPages : Z }.
Record LedgerPage := { lp_Entries : list LedgerEntry; lp_PageInfo : PageInfo }.

End account.

(** ** reservation/types.go *)

(** The errors of both packages. [Pg code] is a PostgreSQL error that reached
    the caller, [ErrNoRows] a row that a query required. *)
Inductive Error :=
| ErrInvalidArgument
| ErrInsufficientCredits
| ErrIdempotencyConflict
| ErrReservationNotFound
| ErrReservationReleased
| ErrReservationSettled
| ErrReservationNotAssigned
| ErrAdjustmentPending
| ErrAdjustmentReverted
| ErrOutcomeMismatch
| ErrAborted
| ErrAccountNotFound
| ErrNoRows
| ErrMissingAssignment
| Pg (code : string).

#[export] Instance Error_eq_dec : EqDecision Error.
Proof. solve_decision. Defined.

Inductive Status := Held | Assigned | Released | Settled.

#[export] Instance Status_eq_dec : EqDecision Status.
Proof. solve_decision. Defined.

Inductive ReleaseReason := NoReason | CancelledBeforePickup | Expired | Failed.

#[export] Instance ReleaseReason_eq_dec : EqDecision ReleaseReason.
Proof. solve_decision. Defined.

Definition valid (r : ReleaseReason) : bool :=
  bool_decide (r = CancelledBeforePickup) || bool_decide (r = Expired) || bool_decide (r = Failed).

Inductive SettlementOutcome :=
| OutcomeReleased | OutcomeCompleted | OutcomeCancelledAfterPickup.

#[export] Instance SettlementOutcome_eq_dec : EqDecision SettlementOutcome.
Proof. solve_decision. Defined.

Inductive AdjustmentStatus := Applied | Reverted.

#[export] Instance AdjustmentStatus_eq_dec : EqDecision AdjustmentStatus.
Proof. solve_decision. Defined.

Record Completion := {
  PickedUpAt : Time;
  DeliveredAt : Time;
  DeliveryDuration : Duration;
}.

Record Settlement := {
  Outcome : SettlementOutcome;
  PaidToCourier : Z;
  ReturnedToRequester : Z;
  SettledAt : Time;
  SettlementReason : ReleaseReason;
  SettlementCompletion : option Completion;
}.

Record Adjustment := {
  adj_AssignmentID : string;
  adj_CourierID : string;
  adj_PreviousAmount : Z;
  adj_OfferAmount : Z;
  adj_Status : AdjustmentStatus;
}.

(** A tombstone is a Released reservation with no requester. *)
Record Reservation := {
  OrderID : string;
  RequesterID : string;
  ResStatus : Status;
  OriginalAmount : Z;
  ReservedAmount : Z;
  AssignmentID : string;
  ResAdjustment : option Adjustment;
  ResSettlement : option Settlement;
  Revision : Z;
  CreatedAt : Time;
  UpdatedAt : Time;
}.

Record Assignment := {
  asg_OrderID : string;
  asg_AssignmentID : string;
  asg_CourierID : string;
  asg_OfferAmount : Z;
  asg_Status : AdjustmentStatus;
  asg_CreatedAt : Time;
  asg_RevertedAt : option Time;
}.

Inductive OutcomeType :=
| NoOutcome
| OrderCompleted
| OrderCancelledBeforePickup
| OrderCancelledAfterPickup
| OrderExpired
| OrderFailed.

#[export] Instance OutcomeType_eq_dec : EqDecision OutcomeType.
Proof. solve_decision. Defined.

Record OrderOutcome := {
  oo_OrderID : string;
  oo_Type : OutcomeType;
  oo_RequesterID : string;
  oo_CourierID : string;
  oo_PickedUpAt : Time;
  oo_DeliveredAt : Time;
  oo_DeliveryDuration : Duration;
}.

(** ** reservation/repository.go *)

Inductive OperationKind := OpReserve | OpAdjust | OpRevert | OpRelease.

#[export] Instance OperationKind_eq_dec : EqDecision OperationKind.
Proof. solve_decision. Defined.
#[export] Instance OperationKind_countable : Countable OperationKind.
Proof.
  refine (inj_countable'
    (λ k, match k with OpReserve => 0 | OpAdjust => 1 | OpRevert => 2 | OpRelease => 3 end)%nat
    (λ n, match n with 0 => OpReserve | 1 => OpAdjust | 2 => OpRevert | _ => OpRelease end)%nat _).
  by intros [].
Defined.

Record OperationKey := {
  key_Kind : OperationKind;
  key_OrderID : string;
  key_AssignmentID : string;
}.

Record Operation := {
  op_RequestHash : string;
  op_Revision : Z;
  op_Insufficient : bool;
  op_CreatedAt : Time;
}.

Record Entry := {
  ent_UserID : string;
  ent_Kind : account.Kind;
  ent_BalanceDelta : Z;
  ent_ReservedDelta : Z;
  ent_OrderID : string;
  ent_AssignmentID : string;
}.
