(* ===== verification/CreditDB.v ===== *)
(** * Credit: the database

    The tables of credit-service/database/schema and the queries of
    credit-service/internal/database/creditdb. A query runs inside a
    transaction: it sees and changes the transaction's state, and fails with
    the PostgreSQL error the schema raises: 23505 unique, 23503 foreign key,
    23514 check, P0001 a trigger's RAISE, 22003 BIGINT overflow. A [:one]
    query that may find nothing returns an option, [None] for pgx.ErrNoRows.
    uuid.UUID values are their canonical text. *)
From S2P Require Import Prelude.
From S2P Require Import GoLib.
From S2P Require Import CreditTypes.
From stdpp Require Import prelude gmap strings sorting.
From Stdlib Require Import ZArith.

Local Open Scope Z_scope.

(** ** Rows (models.go) *)

Record AccountRow := {
  ac_UserID : string;
  ac_Balance : Z;
  ac_Reserved : Z;
  ac_Revision : Z;
  ac_CreatedAt : Time;
  ac_UpdatedAt : Time;
}.

Record AssignmentRow := {
  as_OrderID : string;
  as_AssignmentID : string;
  as_CourierID : option string;
  as_OfferAmount : option Z;
  as_Status : AdjustmentStatus;
  as_CreatedAt : Time;
  as_RevertedAt : option Time;
}.

Record LedgerEntryRow := {
  lg_ID : Z;
  lg_UserID : string;
  lg_Kind : account.Kind;
  lg_BalanceDelta : Z;
  lg_ReservedDelta : Z;
  lg_OrderID : option string;
  lg_AssignmentID : option string;
  lg_CreatedAt : Time;
}.

(** pgtype.Interval; [None] in a column is Valid = false. *)
Record Interval := { Microseconds : Z; Days : Z; Months : Z }.

(** reservations and reservation_revisions have the same columns. *)
Record ReservationRow := {
  rr_OrderID : string;
  rr_RequesterID : option string;
  rr_Status : Status;
  rr_OriginalAmount : Z;
  rr_ReservedAmount : Z;
  rr_AssignmentID : option string;
  rr_ReleaseReason : option ReleaseReason;
  rr_SettlementOutcome : option SettlementOutcome;
  rr_PaidToCourier : option Z;
  rr_ReturnedToRequester : option Z;
  rr_PickedUpAt : option Time;
  rr_DeliveredAt : option Time;
  rr_DeliveryDuration : option Interval;
  rr_SettledAt : option Time;
  rr_Revision : Z;
  rr_CreatedAt : Time;
  rr_UpdatedAt : Time;
}.

Record OperationRow := {
  or_RequestHash : string;
  or_Revision : option Z;
  or_Insufficient : bool;  (* rejection_reason = 'INSUFFICIENT_CREDITS', else NULL *)
  or_CreatedAt : Time;
}.

(** (operation, order_id, assignment_id), UNIQUE NULLS NOT DISTINCT. *)
Definition OperationID : Type := OperationKind * string * option string.

Record DB := {
  accounts : gmap string AccountRow;
  reservations : gmap string ReservationRow;
  revisions : gmap (string * Z) ReservationRow;
  assignments : gmap (string * string) AssignmentRow;
  operations : gmap OperationID OperationRow;
  ledger : list LedgerEntryRow;  (* in insertion order *)
}.

Definition empty_db : DB := {|
  accounts := ∅; reservations := ∅; revisions := ∅; assignments := ∅;
  operations := ∅; ledger := [] |}.

Definition set_accounts (f : gmap string AccountRow → gmap string AccountRow) (db : DB) : DB :=
  {| accounts := f (accounts db); reservations := reservations db; revisions := revisions db;
     assignments := assignments db; operations := operations db; ledger := ledger db |}.
Definition set_reservations (f : gmap string ReservationRow → gmap string ReservationRow) (db : DB) : DB :=
  {| accounts := accounts db; reservations := f (reservations db); revisions := revisions db;
     assignments := assignments db; operations := operations db; ledger := ledger db |}.
Definition set_revisions (f : gmap (string * Z) ReservationRow → gmap (string * Z) ReservationRow)
    (db : DB) : DB :=
  {| accounts := accounts db; reservations := reservations db; revisions := f (revisions db);
     assignments := assignments db; operations := operations db; ledger := ledger db |}.
Definition set_assignments (f : gmap (string * string) AssignmentRow → gmap (string * string) AssignmentRow)
    (db : DB) : DB :=
  {| accounts := accounts db; reservations := reservations db; revisions := revisions db;
     assignments := f (assignments db); operations := operations db; ledger := ledger db |}.
Definition set_operations (f : gmap OperationID OperationRow → gmap OperationID OperationRow)
    (db : DB) : DB :=
  {| accounts := accounts db; reservations := reservations db; revisions := revisions db;
     assignments := assignments db; operations := f (operations db); ledger := ledger db |}.
Definition set_ledger (f : list LedgerEntryRow → list LedgerEntryRow) (db : DB) : DB :=
  {| accounts := accounts db; reservations := reservations db; revisions := revisions db;
     assignments := assignments db; operations := operations db; ledger := f (ledger db) |}.

(** What a transaction reads besides the tables: the service's clock and
    PostgreSQL's CURRENT_TIMESTAMP. *)
Record Clocks := { service_clock : Time; current_timestamp : Time }.

Definition Tx : Type → Type := ST Error Clocks DB.

Definition unique_violation : Error := Pg "23505".
Definition foreign_key_violation : Error := Pg "23503".
Definition check_violation : Error := Pg "23514".
Definition raise_exception : Error := Pg "P0001".
Definition numeric_out_of_range : Error := Pg "22003".

(** BIGINT addition. *)
Definition bigint_add (a b : Z) : Tx Z :=
  _ ← ensure (bool_decide (is_int64 (a + b))) numeric_out_of_range;
  mret (a + b).

(** ** CHECK constraints of the schema *)

(** A CHECK passes when its condition is true or NULL. *)
Definition accounts_check (a : AccountRow) : bool :=
  (0 <=? ac_Reserved a) && (ac_Reserved a <=? ac_Balance a) && (0 <? ac_Revision a).

Definition interval_us (i : Interval) : Z :=
  Microseconds i + (Days i + Months i * 30) * 24 * 3600 * 1000000.

Definition terminal (s : Status) : bool :=
  match s with Released | Settled => true | _ => false end.

Definition opt_ge0 (o : option Z) : bool := match o with Some v => 0 <=? v | None => false end.

Definition reservations_amounts_check (r : ReservationRow) : bool :=
  (0 <=? rr_OriginalAmount r) && (0 <=? rr_ReservedAmount r) && (0 <? rr_Revision r).

Definition reservations_tombstone_check (r : ReservationRow) : bool :=
  is_some (rr_RequesterID r) ||
  (bool_decide (rr_Status r = Released) && (rr_OriginalAmount r =? 0)).

Definition reservations_held_check (r : ReservationRow) : bool :=
  bool_decide (rr_Status r ≠ Held) ||
  ((0 <? rr_OriginalAmount r) && (rr_ReservedAmount r =? rr_OriginalAmount r)
   && negb (is_some (rr_AssignmentID r))).

Definition reservations_assigned_check (r : ReservationRow) : bool :=
  bool_decide (rr_Status r ≠ Assigned) ||
  ((0 <? rr_ReservedAmount r) && is_some (rr_AssignmentID r)).

Definition reservations_terminal_check (r : ReservationRow) : bool :=
  if terminal (rr_Status r) then
    (rr_ReservedAmount r =? 0) && is_some (rr_SettlementOutcome r)
    && opt_ge0 (rr_PaidToCourier r) && opt_ge0 (rr_ReturnedToRequester r)
    && is_some (rr_SettledAt r)
  else
    negb (is_some (rr_SettlementOutcome r)) && negb (is_some (rr_PaidToCourier r))
    && negb (is_some (rr_ReturnedToRequester r)) && negb (is_some (rr_SettledAt r)).

Definition reservations_released_check (r : ReservationRow) : bool :=
  eqb (bool_decide (rr_Status r = Released)) (is_some (rr_ReleaseReason r))
  && (bool_decide (rr_Status r ≠ Released) ||
      (bool_decide (rr_SettlementOutcome r = Some OutcomeReleased)
       && bool_decide (rr_PaidToCourier r = Some 0))).

Definition reservations_release_reason_check (r : ReservationRow) : bool :=
  match rr_ReleaseReason r with Some reason => valid reason | None => true end.

Definition reservations_settled_check (r : ReservationRow) : bool :=
  bool_decide (rr_Status r ≠ Settled) ||
  ((bool_decide (rr_SettlementOutcome r = Some OutcomeCompleted)
    || bool_decide (rr_SettlementOutcome r = Some OutcomeCancelledAfterPickup))
   && is_some (rr_AssignmentID r)).

Definition reservations_completion_check (r : ReservationRow) : bool :=
  if bool_decide (rr_SettlementOutcome r = Some OutcomeCompleted) then
    match rr_PickedUpAt r, rr_DeliveredAt r, rr_DeliveryDuration r with
    | Some p, Some d, Some i => (p <=? d) && (0 <? interval_us i)
    | _, _, _ => false
    end
  else negb (is_some (rr_PickedUpAt r)) && negb (is_some (rr_DeliveredAt r))
       && negb (is_some (rr_DeliveryDuration r)).

Definition reservations_check (r : ReservationRow) : bool :=
  reservations_amounts_check r && reservations_tombstone_check r && reservations_held_check r
  && reservations_assigned_check r && reservations_terminal_check r
  && reservations_released_check r && reservations_release_reason_check r
  && reservations_settled_check r && reservations_completion_check r.

Definition assignments_check (a : AssignmentRow) : bool :=
  eqb (bool_decide (as_Status a = Reverted)) (is_some (as_RevertedAt a))
  && match as_CourierID a, as_OfferAmount a with
     | None, None => bool_decide (as_Status a = Reverted)
     | Some _, Some offer => 0 <? offer
     | _, _ => false
     end.

Definition adjust_or_revert (k : OperationKind) : bool :=
  match k with OpAdjust | OpRevert => true | _ => false end.

(** The hash check, [request_hash ~ '^[0-9a-f]{64}$'], holds of every
    hexadecimal SHA-256 digest and is left to [sha256_hex]. *)
Definition operations_check (id : OperationID) (o : OperationRow) : bool :=
  eqb (is_some id.2) (adjust_or_revert id.1.1)
  && match or_Revision o, or_Insufficient o with
     | Some _, false => true
     | None, true => bool_decide (id.1.1 = OpReserve) || bool_decide (id.1.1 = OpAdjust)
     | _, _ => false
     end.

Definition ledger_deltas_check (e : LedgerEntryRow) : bool :=
  let b := lg_BalanceDelta e in
  let r := lg_ReservedDelta e in
  match lg_Kind e with
  | account.Grant => (0 <? b) && (r =? 0)
  | account.Reserve => (b =? 0) && (0 <? r)
  | account.Adjust | account.Revert => b =? 0
  | account.Release | account.Refund => (b =? 0) && (r <? 0)
  | account.Payout => ((b <? 0) && (r =? b)) || ((0 <? b) && (r =? 0))
  end.

Definition ledger_entries_check (e : LedgerEntryRow) : bool :=
  (negb (lg_BalanceDelta e =? 0) || negb (lg_ReservedDelta e =? 0))
  && eqb (negb (is_some (lg_OrderID e))) (bool_decide (lg_Kind e = account.Grant))
  && eqb (is_some (lg_AssignmentID e))
         (bool_decide (lg_Kind e = account.Adjust) || bool_decide (lg_Kind e = account.Revert))
  && ledger_deltas_check e.

(** ** Accounts and ledger (account.sql.go) *)

(** INSERT ... ON CONFLICT DO NOTHING; returns the rows affected. *)
Definition InsertAccount (user : string) (now : Time) : Tx Z :=
  a ← gets (λ db, accounts db !! user);
  match a with
  | Some _ => mret 0
  | None =>
      let row := {| ac_UserID := user; ac_Balance := 0; ac_Reserved := 0; ac_Revision := 1;
                    ac_CreatedAt := stored_time now; ac_UpdatedAt := stored_time now |} in
      _ ← modify (set_accounts (insert user row));
      mret 1
  end.

Definition LockAccount (user : string) : Tx (option AccountRow) :=
  gets (λ db, accounts db !! user).

Definition GetAccount (user : string) : Tx (option AccountRow) :=
  gets (λ db, accounts db !! user).

(** The bump_revision trigger sets revision and updated_at. *)
Definition ApplyAccountDelta (user : string) (balance_delta reserved_delta : Z)
    : Tx (option AccountRow) :=
  a ← gets (λ db, accounts db !! user);
  match a with
  | None => mret None
  | Some a =>
      balance ← bigint_add (ac_Balance a) balance_delta;
      reserved ← bigint_add (ac_Reserved a) reserved_delta;
      revision ← bigint_add (ac_Revision a) 1;
      clocks ← ask;
      let row := {| ac_UserID := ac_UserID a; ac_Balance := balance; ac_Reserved := reserved;
                    ac_Revision := revision; ac_CreatedAt := ac_CreatedAt a;
                    ac_UpdatedAt := stored_time (current_timestamp clocks) |} in
      _ ← ensure (accounts_check row) check_violation;
      _ ← modify (set_accounts (insert user row));
      mret (Some row)
  end.

(** INSERT INTO ledger_entries: primary key, at most one GRANT per user, and
    the foreign keys to the account, the reservation and the assignment. *)
Definition ledger_references_ok (db : DB) (e : LedgerEntryRow) : bool :=
  is_some (accounts db !! lg_UserID e)
  && match lg_OrderID e with
     | Some o => is_some (reservations db !! o)
     | None => true
     end
  && match lg_OrderID e, lg_AssignmentID e with
     | Some o, Some a => is_some (assignments db !! (o, a))
     | _, _ => true
     end.

Definition ledger_unique_ok (db : DB) (e : LedgerEntryRow) : bool :=
  forallb (λ e', negb (lg_ID e' =? lg_ID e)
    && negb (bool_decide (lg_Kind e = account.Grant) && bool_decide (lg_Kind e' = account.Grant)
             && bool_decide (lg_UserID e' = lg_UserID e))) (ledger db).

Definition InsertLedgerEntry (e : LedgerEntryRow) : Tx unit :=
  _ ← ensure (ledger_entries_check e) check_violation;
  unique ← gets (λ db, ledger_unique_ok db e);
  _ ← ensure unique unique_violation;
  refs ← gets (λ db, ledger_references_ok db e);
  _ ← ensure refs foreign_key_violation;
  modify (set_ledger (λ l, l ++ [e])).

(** ORDER BY created_at DESC, id DESC. *)
Definition newest_first (e e' : LedgerEntryRow) : Prop :=
  lg_CreatedAt e' < lg_CreatedAt e ∨ (lg_CreatedAt e' = lg_CreatedAt e ∧ lg_ID e' <= lg_ID e).
#[export] Instance newest_first_dec : RelDecision newest_first.
Proof. unfold RelDecision, newest_first. apply _. Defined.

Definition user_entries (db : DB) (user : string) : list LedgerEntryRow :=
  filter (λ e, lg_UserID e = user) (ledger db).

Definition ListLedgerEntries (user : string) (page_offset page_size : Z) : Tx (list LedgerEntryRow) :=
  gets (λ db, take (Z.to_nat page_size) (drop (Z.to_nat page_offset)
    (merge_sort newest_first (user_entries db user)))).

Definition CountLedgerEntries (user : string) : Tx Z :=
  gets (λ db, Z.of_nat (length (user_entries db user))).

(** ** Operations (reservation.sql.go) *)

Definition GetOperation (id : OperationID) : Tx (option OperationRow) :=
  gets (λ db, operations db !! id).

Definition InsertOperation (id : OperationID) (o : OperationRow) : Tx unit :=
  _ ← ensure (operations_check id o) check_violation;
  old ← gets (λ db, operations db !! id);
  _ ← ensure (negb (is_some old)) unique_violation;
  refs ← gets (λ db, match or_Revision o with
    | Some n => is_some (revisions db !! (id.1.2, n))
    | None => true
    end);
  _ ← ensure refs foreign_key_violation;
  modify (set_operations (insert id o)).

(** ** Reservations (reservation.sql.go) *)

(** SELECT ... FOR UPDATE. *)
Definition LockReservation (order : string) : Tx (option ReservationRow) :=
  gets (λ db, reservations db !! order).

Definition GetReservationRevision (order : string) (revision : Z) : Tx (option ReservationRow) :=
  gets (λ db, revisions db !! (order, revision)).

(** Foreign keys of a reservations row: the requester's account and the
    assignment (both MATCH SIMPLE, so NULL references nothing). *)
Definition reservation_references_ok (db : DB) (r : ReservationRow) : bool :=
  match rr_RequesterID r with Some u => is_some (accounts db !! u) | None => true end
  && match rr_AssignmentID r with
     | Some a => is_some (assignments db !! (rr_OrderID r, a))
     | None => true
     end.

(** The record_reservation_revision trigger, AFTER INSERT OR UPDATE. *)
Definition record_reservation_revision (r : ReservationRow) : Tx unit :=
  old ← gets (λ db, revisions db !! (rr_OrderID r, rr_Revision r));
  _ ← ensure (negb (is_some old)) unique_violation;
  modify (set_revisions (insert (rr_OrderID r, rr_Revision r) r)).

(** Store a row that passes the checks and foreign keys, and its revision. *)
Definition write_reservation (r : ReservationRow) : Tx ReservationRow :=
  _ ← ensure (reservations_check r) check_violation;
  refs ← gets (λ db, reservation_references_ok db r);
  _ ← ensure refs foreign_key_violation;
  _ ← modify (set_reservations (insert (rr_OrderID r) r));
  _ ← record_reservation_revision r;
  mret r.

(** The parameters of InsertReservation and UpdateReservation: a row whose
    timestamps PostgreSQL rounds to microseconds. *)
Definition store_times (r : ReservationRow) : ReservationRow := {|
  rr_OrderID := rr_OrderID r; rr_RequesterID := rr_RequesterID r; rr_Status := rr_Status r;
  rr_OriginalAmount := rr_OriginalAmount r; rr_ReservedAmount := rr_ReservedAmount r;
  rr_AssignmentID := rr_AssignmentID r; rr_ReleaseReason := rr_ReleaseReason r;
  rr_SettlementOutcome := rr_SettlementOutcome r; rr_PaidToCourier := rr_PaidToCourier r;
  rr_ReturnedToRequester := rr_ReturnedToRequester r;
  rr_PickedUpAt := stored_time <$> rr_PickedUpAt r;
  rr_DeliveredAt := stored_time <$> rr_DeliveredAt r;
  rr_DeliveryDuration := rr_DeliveryDuration r;
  rr_SettledAt := stored_time <$> rr_SettledAt r;
  rr_Revision := rr_Revision r;
  rr_CreatedAt := stored_time (rr_CreatedAt r); rr_UpdatedAt := stored_time (rr_UpdatedAt r) |}.

Definition InsertReservation (r : ReservationRow) : Tx ReservationRow :=
  old ← gets (λ db, reservations db !! rr_OrderID r);
  _ ← ensure (negb (is_some old)) unique_violation;
  write_reservation (store_times r).

(** The columns an UPDATE sets, from [r]; the row keeps the others. The
    bump_revision trigger sets revision and updated_at. *)
Definition updated_row (old r : ReservationRow) (revision : Z) (now : Time) : ReservationRow := {|
  rr_OrderID := rr_OrderID r; rr_RequesterID := rr_RequesterID old; rr_Status := rr_Status r;
  rr_OriginalAmount := rr_OriginalAmount old; rr_ReservedAmount := rr_ReservedAmount r;
  rr_AssignmentID := rr_AssignmentID r; rr_ReleaseReason := rr_ReleaseReason r;
  rr_SettlementOutcome := rr_SettlementOutcome r; rr_PaidToCourier := rr_PaidToCourier r;
  rr_ReturnedToRequester := rr_ReturnedToRequester r;
  rr_PickedUpAt := rr_PickedUpAt r; rr_DeliveredAt := rr_DeliveredAt r;
  rr_DeliveryDuration := rr_DeliveryDuration r; rr_SettledAt := rr_SettledAt r;
  rr_Revision := revision; rr_CreatedAt := rr_CreatedAt old; rr_UpdatedAt := now |}.

(** UPDATE ... WHERE order_id AND revision = expected, with the bump_revision
    and reject_terminal_reservation_change triggers; [None] when no row
    matches. *)
Definition UpdateReservation (r : ReservationRow) (expected : Z) : Tx (option ReservationRow) :=
  old ← gets (λ db, reservations db !! rr_OrderID r);
  match old with
  | None => mret None
  | Some old =>
      if rr_Revision old =? expected then
        revision ← bigint_add (rr_Revision old) 1;
        _ ← ensure (negb (terminal (rr_Status old))) raise_exception;
        clocks ← ask;
        row ← write_reservation
          (store_times (updated_row old r revision (current_timestamp clocks)));
        mret (Some row)
      else mret None
  end.

(** ** Assignments (reservation.sql.go) *)

Definition GetAssignment (order assignment : string) : Tx (option AssignmentRow) :=
  gets (λ db, assignments db !! (order, assignment)).

(** The partial unique index assignments_one_applied_idx. *)
Definition no_applied_assignment (db : DB) (order : string) : bool :=
  bool_decide (map_Forall (λ k a, k.1 = order → as_Status a ≠ Applied) (assignments db)).

Definition InsertAssignment (a : AssignmentRow) : Tx unit :=
  let row := {| as_OrderID := as_OrderID a; as_AssignmentID := as_AssignmentID a;
                as_CourierID := as_CourierID a; as_OfferAmount := as_OfferAmount a;
                as_Status := as_Status a; as_CreatedAt := stored_time (as_CreatedAt a);
                as_RevertedAt := stored_time <$> as_RevertedAt a |} in
  _ ← ensure (assignments_check row) check_violation;
  old ← gets (λ db, assignments db !! (as_OrderID a, as_AssignmentID a));
  _ ← ensure (negb (is_some old)) unique_violation;
  free ← gets (λ db, no_applied_assignment db (as_OrderID a));
  _ ← ensure (negb (bool_decide (as_Status a = Applied)) || free) unique_violation;
  parent ← gets (λ db, reservations db !! as_OrderID a);
  _ ← ensure (is_some parent) foreign_key_violation;
  modify (set_assignments (insert (as_OrderID a, as_AssignmentID a) row)).

(** UPDATE ... WHERE status = 'APPLIED'; returns the rows affected. *)
Definition RevertAssignment (order assignment : string) (now : Time) : Tx Z :=
  old ← gets (λ db, assignments db !! (order, assignment));
  match old with
  | None => mret 0
  | Some a =>
      if decide (as_Status a = Applied) then
        let row := {| as_OrderID := as_OrderID a; as_AssignmentID := as_AssignmentID a;
                      as_CourierID := as_CourierID a; as_OfferAmount := as_OfferAmount a;
                      as_Status := Reverted; as_CreatedAt := as_CreatedAt a;
                      as_RevertedAt := Some (stored_time now) |} in
        _ ← ensure (assignments_check row) check_violation;
        _ ← modify (set_assignments (insert (order, assignment) row));
        mret 1
      else mret 0
  end.
