(* ===== verification/CreditAccount.v ===== *)
(** * Credit: accounts and the ledger

    Package credit-service/internal/account: posting to the ledger, opening
    accounts, and the account service's reads. *)
From S2P Require Import Prelude.
From S2P Require Import GoLib.
From S2P Require Import CreditTypes.
From S2P Require Import CreditDB.
From stdpp Require Import prelude gmap strings.
From Stdlib Require Import ZArith.

Local Open Scope Z_scope.

(** One ledger entry with the account change it records. *)
Record Posting := {
  po_UserID : string;
  po_Kind : account.Kind;
  po_BalanceDelta : Z;
  po_ReservedDelta : Z;
  po_OrderID : option string;
  po_AssignmentID : option string;
}.

Definition idString (v : option string) : string :=
  match v with Some s => s | None => EmptyString end.

Section account_service.
  Context `{UUID, UUIDv7}.

Definition ledger_row (p : Posting) (id : Z) (now : Time) : LedgerEntryRow := {|
  lg_ID := id; lg_UserID := po_UserID p; lg_Kind := po_Kind p;
  lg_BalanceDelta := po_BalanceDelta p; lg_ReservedDelta := po_ReservedDelta p;
  lg_OrderID := po_OrderID p; lg_AssignmentID := po_AssignmentID p;
  lg_CreatedAt := stored_time now |}.

(** One iteration of [Post]'s loop. *)
Definition post_one (now : Time) (p : Posting) : Tx unit :=
  if (po_BalanceDelta p =? 0) && (po_ReservedDelta p =? 0) then mret tt
  else
    a ← ApplyAccountDelta (po_UserID p) (po_BalanceDelta p) (po_ReservedDelta p);
    _ ← require a ErrNoRows;
    n ← gets (λ db, length (ledger db));
    InsertLedgerEntry (ledger_row p (new_v7 n) now).

(** Post applies each posting to its account and appends its ledger entry.
    Postings that change nothing are skipped. *)
Definition Post (now : Time) (postings : list Posting) : Tx unit :=
  for_each (post_one now) postings.

Definition grant_posting (user : string) : Posting := {|
  po_UserID := user; po_Kind := account.Grant; po_BalanceDelta := account.StartingCredits;
  po_ReservedDelta := 0; po_OrderID := None; po_AssignmentID := None |}.

(** Open returns the user's account, first granting the starting credits to a
    user Credit has not seen. *)
Definition Open (now : Time) (user : string) : Tx AccountRow :=
  created ← InsertAccount user now;
  _ ← (if created =? 1 then Post now [grant_posting user] else mret tt);
  a ← LockAccount user;
  require a ErrNoRows.

Definition FromRow (a : AccountRow) : account.Account := {|
  account.UserID := ac_UserID a; account.Balance := ac_Balance a;
  account.Reserved := ac_Reserved a |}.

(** ** PostgresStore *)

Definition parse_user (user : string) : Tx string :=
  require (uuid_parse user) ErrInvalidArgument.

Definition PostgresStore_Account (user : string) : Tx account.Account :=
  id ← parse_user user;
  a ← GetAccount id;
  a ← require a ErrAccountNotFound;
  mret (FromRow a).

Definition ledger_entry (r : LedgerEntryRow) : account.LedgerEntry := {|
  account.le_ID := lg_ID r; account.le_Kind := lg_Kind r;
  account.le_BalanceDelta := lg_BalanceDelta r; account.le_ReservedDelta := lg_ReservedDelta r;
  account.le_OrderID := idString (lg_OrderID r);
  account.le_AssignmentID := idString (lg_AssignmentID r);
  account.le_CreatedAt := lg_CreatedAt r |}.

Definition PostgresStore_LedgerEntries (user : string) (limit offset : Z)
    : Tx (list account.LedgerEntry * Z) :=
  id ← parse_user user;
  rows ← ListLedgerEntries id offset limit;
  total ← CountLedgerEntries id;
  mret (ledger_entry <$> rows, total).

(** The body of the transaction that PostgresStore.Open runs. *)
Definition PostgresStore_Open (user : string) (at_ : Time) : Tx unit :=
  id ← parse_user user;
  _ ← Open at_ id;
  mret tt.

(** ** Service *)

Definition AccountService_GetAccount (user : string) : Tx account.Account :=
  id ← parse_user user;
  PostgresStore_Account id.

Definition normalize_page (p : account.Page) : option account.Page :=
  if (account.Number p <? 0) || (account.Size p <? 0) || (account.MaxPageSize <? account.Size p)
  then None
  else Some {|
    account.Number := if account.Number p =? 0 then 1 else account.Number p;
    account.Size := if account.Size p =? 0 then account.DefaultPageSize else account.Size p |}.

(** The user's entries, newest first, or ErrAccountNotFound. *)
Definition AccountService_ListLedgerEntries (user : string) (p : account.Page)
    : Tx account.LedgerPage :=
  id ← parse_user user;
  p ← require (normalize_page p) ErrInvalidArgument;
  _ ← PostgresStore_Account id;
  let size := account.Size p in
  '(entries, total) ← PostgresStore_LedgerEntries id size (wrap32 (account.Number p - 1) * size);
  mret {| account.lp_Entries := entries;
          account.lp_PageInfo := {|
            account.pi_Page := account.Number p;
            account.pi_PageSize := size;
            account.TotalItems := total;
            account.TotalPages := wrap32 (Z.quot (total + size - 1) size) |} |}.

End account_service.
