(* ===== verification/CreditReservation.v ===== *)
(** * Credit: reservations

    Package credit-service/internal/reservation: the repository over
    PostgreSQL, the reservation service's mutations and the settlement of an
    order outcome. Every function below runs inside one transaction; [Within]
    is the transaction boundary. *)
From S2P Require Import Prelude.
From S2P Require Import GoLib.
From S2P Require Import GoText.
From S2P Require Import CreditTypes.
From S2P Require Import CreditDB.
From S2P Require Import CreditAccount.
From stdpp Require Import prelude gmap strings sorting pretty.
From Stdlib Require Import ZArith.

Local Open Scope Z_scope.

(** ** Row conversion (postgresrepository.go) *)

Definition optionalID (v : string) : option string :=
  if decide (v = EmptyString) then None else Some v.

Record columns := {
  c_assignmentID : option string;
  c_releaseReason : option ReleaseReason;
  c_outcome : option SettlementOutcome;
  c_paid : option Z;
  c_returned : option Z;
  c_pickedUpAt : option Time;
  c_deliveredAt : option Time;
  c_settledAt : option Time;
  c_duration : option Interval;
}.

(** [Duration.Microseconds] divides toward zero. *)
Definition duration_us (d : Duration) : Z := Z.quot d Microsecond.

Definition toColumns (r : Reservation) : columns :=
  match ResSettlement r with
  | None => {| c_assignmentID := optionalID (AssignmentID r); c_releaseReason := None;
               c_outcome := None; c_paid := None; c_returned := None; c_pickedUpAt := None;
               c_deliveredAt := None; c_settledAt := None; c_duration := None |}
  | Some s => {|
      c_assignmentID := optionalID (AssignmentID r);
      c_releaseReason := if decide (SettlementReason s = NoReason) then None
                         else Some (SettlementReason s);
      c_outcome := Some (Outcome s);
      c_paid := Some (PaidToCourier s);
      c_returned := Some (ReturnedToRequester s);
      c_pickedUpAt := PickedUpAt <$> SettlementCompletion s;
      c_deliveredAt := DeliveredAt <$> SettlementCompletion s;
      c_settledAt := Some (SettledAt s);
      c_duration := (λ d, {| Microseconds := duration_us (DeliveryDuration d);
                             Days := 0; Months := 0 |}) <$> SettlementCompletion s |}
  end.

Definition interval_duration (i : Interval) : Duration :=
  add64 (add64 (mul64 (Microseconds i) Microsecond) (mul64 (mul64 (Days i) 24) Hour))
        (mul64 (mul64 (mul64 (Months i) 30) 24) Hour).

Definition opt_or {A} (o : option A) (d : A) : A := match o with Some a => a | None => d end.

(** A reservation or one of its revisions; both share columns. *)
Definition fromRow (row : ReservationRow) : Reservation := {|
  OrderID := rr_OrderID row;
  RequesterID := idString (rr_RequesterID row);
  ResStatus := rr_Status row;
  OriginalAmount := rr_OriginalAmount row;
  ReservedAmount := rr_ReservedAmount row;
  AssignmentID := idString (rr_AssignmentID row);
  ResAdjustment := None;
  ResSettlement :=
    match rr_SettlementOutcome row with
    | None => None
    | Some outcome => Some {|
        Outcome := outcome;
        PaidToCourier := opt_or (rr_PaidToCourier row) 0;
        ReturnedToRequester := opt_or (rr_ReturnedToRequester row) 0;
        SettledAt := opt_or (rr_SettledAt row) zero_time;
        SettlementReason := opt_or (rr_ReleaseReason row) NoReason;
        SettlementCompletion :=
          match rr_PickedUpAt row, rr_DeliveredAt row, rr_DeliveryDuration row with
          | Some p, Some d, Some i =>
              Some {| PickedUpAt := p; DeliveredAt := d; DeliveryDuration := interval_duration i |}
          | _, _, _ => None
          end |}
    end;
  Revision := rr_Revision row;
  CreatedAt := rr_CreatedAt row;
  UpdatedAt := rr_UpdatedAt row |}.

(** The row a statement writes for [r] at [now]. *)
Definition row_of (r : Reservation) (now : Time) : ReservationRow :=
  let c := toColumns r in {|
  rr_OrderID := OrderID r; rr_RequesterID := optionalID (RequesterID r);
  rr_Status := ResStatus r; rr_OriginalAmount := OriginalAmount r;
  rr_ReservedAmount := ReservedAmount r; rr_AssignmentID := c_assignmentID c;
  rr_ReleaseReason := c_releaseReason c; rr_SettlementOutcome := c_outcome c;
  rr_PaidToCourier := c_paid c; rr_ReturnedToRequester := c_returned c;
  rr_PickedUpAt := c_pickedUpAt c; rr_DeliveredAt := c_deliveredAt c;
  rr_DeliveryDuration := c_duration c; rr_SettledAt := c_settledAt c;
  rr_Revision := Revision r; rr_CreatedAt := now; rr_UpdatedAt := now |}.

(** ** The transaction (postgresrepository.go) *)

Section transaction.
  Context `{UUIDv7}.

Definition operation_id (key : OperationKey) : OperationID :=
  (key_Kind key, key_OrderID key, optionalID (key_AssignmentID key)).

Definition tx_Operation (key : OperationKey) : Tx (option Operation) :=
  row ← GetOperation (operation_id key);
  mret ((λ row, {| op_RequestHash := or_RequestHash row;
                   op_Revision := opt_or (or_Revision row) 0;
                   op_Insufficient := or_Insufficient row;
                   op_CreatedAt := or_CreatedAt row |}) <$> row).

Definition tx_SaveOperation (key : OperationKey) (op : Operation) : Tx unit :=
  InsertOperation (operation_id key) {|
    or_RequestHash := op_RequestHash op;
    or_Revision := if op_Insufficient op then None else Some (op_Revision op);
    or_Insufficient := op_Insufficient op;
    or_CreatedAt := stored_time (op_CreatedAt op) |}.

Definition tx_Reservation (order : string) : Tx (option Reservation) :=
  row ← LockReservation order;
  mret (fromRow <$> row).

Definition tx_Revision (order : string) (revision : Z) : Tx Reservation :=
  row ← GetReservationRevision order revision;
  row ← require row ErrNoRows;
  mret (fromRow row).

Definition tx_InsertReservation (r : Reservation) : Tx Reservation :=
  row ← InsertReservation (row_of r (UpdatedAt r));
  mret (fromRow row).

Definition tx_UpdateReservation (r : Reservation) (expected : Z) : Tx Reservation :=
  row ← UpdateReservation (row_of r (UpdatedAt r)) expected;
  row ← require row ErrAborted;
  mret (fromRow row).

Definition tx_Assignment (order assignment : string) : Tx (option Assignment) :=
  row ← GetAssignment order assignment;
  mret ((λ row, {| asg_OrderID := as_OrderID row;
                   asg_AssignmentID := as_AssignmentID row;
                   asg_CourierID := idString (as_CourierID row);
                   asg_OfferAmount := opt_or (as_OfferAmount row) 0;
                   asg_Status := as_Status row;
                   asg_CreatedAt := as_CreatedAt row;
                   asg_RevertedAt := as_RevertedAt row |}) <$> row).

Definition tx_InsertAssignment (a : Assignment) : Tx unit :=
  InsertAssignment {|
    as_OrderID := asg_OrderID a; as_AssignmentID := asg_AssignmentID a;
    as_CourierID := optionalID (asg_CourierID a);
    as_OfferAmount := if decide (asg_CourierID a = EmptyString) then None else Some (asg_OfferAmount a);
    as_Status := asg_Status a; as_CreatedAt := asg_CreatedAt a;
    as_RevertedAt := asg_RevertedAt a |}.

Definition tx_RevertAssignment (order assignment : string) (now : Time) : Tx unit :=
  n ← RevertAssignment order assignment now;
  ensure (n =? 1) ErrAborted.

(** slices.Compact drops consecutive repeats. *)
Fixpoint compact (ids : list string) : list string :=
  match ids with
  | x :: (y :: _) as rest => if decide (x = y) then compact rest else x :: compact rest
  | _ => ids
  end.

Fixpoint lock_each (now : Time) (ids : list string) (out : gmap string account.Account)
    : Tx (gmap string account.Account) :=
  match ids with
  | [] => mret out
  | id :: rest =>
      a ← Open now id;
      lock_each now rest (<[id := FromRow a]> out)
  end.

(** LockAccounts opens missing accounts with the starting credits and locks
    them in user ID order. *)
Definition tx_LockAccounts (now : Time) (users : list string)
    : Tx (gmap string account.Account) :=
  lock_each now (compact (merge_sort string_le users)) ∅.

Definition posting_of (e : Entry) : Posting := {|
  po_UserID := ent_UserID e; po_Kind := ent_Kind e; po_BalanceDelta := ent_BalanceDelta e;
  po_ReservedDelta := ent_ReservedDelta e; po_OrderID := optionalID (ent_OrderID e);
  po_AssignmentID := optionalID (ent_AssignmentID e) |}.

Definition tx_Post (now : Time) (entries : list Entry) : Tx unit :=
  Post now (posting_of <$> entries).

End transaction.

(** ** The transaction boundary (postgresrepository.go, Within)

    [Faults] is what the environment may do to one transaction: fail to begin,
    fail a statement (a deadlock victim, say), or fail the commit. A failed
    commit may nevertheless have been applied by the server. *)
Record Faults := {
  begin_fault : option string;
  body_fault : option string;
  commit_fault : option (string * bool);
}.
Definition no_faults : Faults :=
  {| begin_fault := None; body_fault := None; commit_fault := None |}.

(** mapError: a deadlock or serialization failure may be retried. *)
Definition mapError (e : Error) : Error :=
  match e with
  | Pg code => if decide (code = "40P01") then ErrAborted
               else if decide (code = "40001") then ErrAborted else Pg code
  | _ => e
  end.

(** One transaction: all of the body's effect, or none of it. *)
Definition transact {A} (clocks : Clocks) (fl : Faults) (f : Tx A) (db : DB)
    : result Error A * DB :=
  match begin_fault fl with
  | Some code => (Err (Pg code), db)
  | None =>
      match body_fault fl with
      | Some code => (Err (Pg code), db)
      | None =>
          match f clocks db with
          | Err e => (Err e, db)
          | Ok (a, db') =>
              match commit_fault fl with
              | Some (code, applied) => (Err (Pg code), if applied : bool then db' else db)
              | None => (Ok a, db')
              end
          end
      end
  end.

Definition map_error {A} (out : result Error A) : result Error A :=
  match out with Ok a => Ok a | Err e => Err (mapError e) end.

Definition Within {A} (clocks : Clocks) (fl : Faults) (f : Tx A) (db : DB) : result Error A * DB :=
  let '(out, db') := transact clocks fl f db in (map_error out, db').

(** ** The service (service.go) *)

(** result: a reservation revision, or an INSUFFICIENT_CREDITS rejection that
    must still be committed. *)
Inductive mutation_result :=
| RInsufficient
| RReservation (r : Reservation).

Section service.
  Context `{UUID, UUIDv7, Digest}.

Definition requestHash (json : string) : string := sha256_hex json.

Definition canonicalID (v : string) : result Error string :=
  from_option_ok (uuid_parse v) ErrInvalidArgument.

(** withAdjustment describes the applied offer of an Assigned reservation. *)
Definition withAdjustment (r : Reservation) : Tx Reservation :=
  let set (a : option Adjustment) : Reservation := {|
    OrderID := OrderID r; RequesterID := RequesterID r; ResStatus := ResStatus r;
    OriginalAmount := OriginalAmount r; ReservedAmount := ReservedAmount r;
    AssignmentID := AssignmentID r; ResAdjustment := a; ResSettlement := ResSettlement r;
    Revision := Revision r; CreatedAt := CreatedAt r; UpdatedAt := UpdatedAt r |} in
  if decide (ResStatus r = Assigned) then
    a ← tx_Assignment (OrderID r) (AssignmentID r);
    a ← require a ErrMissingAssignment;
    mret (set (Some {|
      adj_AssignmentID := asg_AssignmentID a; adj_CourierID := asg_CourierID a;
      adj_PreviousAmount := OriginalAmount r; adj_OfferAmount := asg_OfferAmount a;
      adj_Status := Applied |}))
  else mret (set None).

Definition GetReservation (order : string) : result Error (Tx Reservation) :=
  order ← canonicalID order;
  mret (
    r ← tx_Reservation order;
    r ← require r ErrReservationNotFound;
    withAdjustment r).

(** checkReplay fails a repeated call that a later transition prevents:
    Reserve or AdjustReservation after a release, and AdjustReservation for a
    reverted offer. *)
Definition checkReplay (key : OperationKey) : Tx unit :=
  if decide (key_Kind key ≠ OpReserve ∧ key_Kind key ≠ OpAdjust) then mret tt
  else
    r ← tx_Reservation (key_OrderID key);
    _ ← ensure (negb (match r with Some r => bool_decide (ResStatus r = Released) | None => false end))
               ErrReservationReleased;
    if decide (key_Kind key ≠ OpAdjust) then mret tt
    else
      a ← tx_Assignment (key_OrderID key) (key_AssignmentID key);
      ensure (negb (match a with Some a => bool_decide (asg_Status a = Reverted) | None => false end))
             ErrAdjustmentReverted.

(** The arguments of [mutate]: the operation key, the JSON payload and the
    mutation itself. *)
Record Mutation := {
  mut_key : OperationKey;
  mut_payload : string;
  mut_apply : Time → Tx mutation_result;
}.

(** The transaction that [mutate] runs: replay a recorded outcome, or apply
    the mutation and record its outcome. *)
Definition mutate_body (m : Mutation) : Tx mutation_result :=
  op ← tx_Operation (mut_key m);
  match op with
  | Some op =>
      _ ← ensure (bool_decide (op_RequestHash op = requestHash (mut_payload m)))
                 ErrIdempotencyConflict;
      _ ← checkReplay (mut_key m);
      if op_Insufficient op then mret RInsufficient
      else
        r ← tx_Revision (key_OrderID (mut_key m)) (op_Revision op);
        r ← withAdjustment r;
        mret (RReservation r)
  | None =>
      clocks ← ask;
      let now := service_clock clocks in
      out ← mut_apply m now;
      _ ← tx_SaveOperation (mut_key m) {|
            op_RequestHash := requestHash (mut_payload m);
            op_Revision := match out with RInsufficient => 0 | RReservation r => Revision r end;
            op_Insufficient := match out with RInsufficient => true | RReservation _ => false end;
            op_CreatedAt := now |};
      match out with
      | RInsufficient => mret RInsufficient
      | RReservation r => r ← withAdjustment r; mret (RReservation r)
      end
  end.

Definition mutation_outcome (out : result Error mutation_result) : result Error Reservation :=
  match out with
  | Err e => Err e
  | Ok RInsufficient => Err ErrInsufficientCredits
  | Ok (RReservation r) => Ok r
  end.

(** mutate runs a mutation at most once per operation key. *)
Definition mutate (clocks : Clocks) (fl : Faults) (m : result Error Mutation) (db : DB)
    : result Error Reservation * DB :=
  match m with
  | Err e => (Err e, db)
  | Ok m => let '(out, db') := Within clocks fl (mutate_body m) db in (mutation_outcome out, db')
  end.

(** update saves next as the revision after current. *)
Definition update (current next : Reservation) : Tx Reservation :=
  tx_UpdateReservation next (Revision current).

(** ** JSON payloads

    encoding/json of the payload structs. Their strings are canonical UUIDs or
    release reasons, which need no escaping. *)
Definition dquote : string := String (Ascii.ascii_of_nat 34) EmptyString.
Definition json_string (s : string) : string := dquote +:+ s +:+ dquote.
Definition json_field (name value : string) : string := json_string name +:+ ":" +:+ value.
Definition json_int (z : Z) : string := pretty z.

Definition reserve_payload (requester : string) (amount : Z) : string :=
  "{" +:+ json_field "RequesterID" (json_string requester) +:+ ","
  +:+ json_field "Amount" (json_int amount) +:+ "}".
Definition adjust_payload (courier : string) (offer : Z) : string :=
  "{" +:+ json_field "CourierID" (json_string courier) +:+ ","
  +:+ json_field "OfferAmount" (json_int offer) +:+ "}".
Definition revert_payload : string := "{}".
Definition reason_text (r : ReleaseReason) : string :=
  match r with
  | NoReason => EmptyString
  | CancelledBeforePickup => "CANCELLED_BEFORE_PICKUP"
  | Expired => "EXPIRED"
  | Failed => "FAILED"
  end.
Definition release_payload (reason : ReleaseReason) : string :=
  "{" +:+ json_field "Reason" (json_string (reason_text reason)) +:+ "}".

(** ** Operations (operations.go) *)

Definition set_state (r : Reservation) (status : Status) (reserved : Z) (assignment : string)
    (settlement : option Settlement) : Reservation := {|
  OrderID := OrderID r; RequesterID := RequesterID r; ResStatus := status;
  OriginalAmount := OriginalAmount r; ReservedAmount := reserved; AssignmentID := assignment;
  ResAdjustment := ResAdjustment r; ResSettlement := settlement; Revision := Revision r;
  CreatedAt := CreatedAt r; UpdatedAt := UpdatedAt r |}.

Definition available_of (locked : gmap string account.Account) (user : string) : Z :=
  account.Available (default account.zero_account (locked !! user)).

Definition entry (user : string) (kind : account.Kind) (balance reserved : Z)
    (order assignment : string) : Entry := {|
  ent_UserID := user; ent_Kind := kind; ent_BalanceDelta := balance;
  ent_ReservedDelta := reserved; ent_OrderID := order; ent_AssignmentID := assignment |}.

Definition reserve_apply (order requester : string) (amount : Z) (now : Time) : Tx mutation_result :=
  r ← tx_Reservation order;
  match r with
  | Some r =>
      throw (if decide (ResStatus r = Released) then ErrReservationReleased
             else ErrIdempotencyConflict)
  | None =>
      locked ← tx_LockAccounts now [requester];
      if available_of locked requester <? amount then mret RInsufficient
      else
        next ← tx_InsertReservation {|
          OrderID := order; RequesterID := requester; ResStatus := Held;
          OriginalAmount := amount; ReservedAmount := amount; AssignmentID := EmptyString;
          ResAdjustment := None; ResSettlement := None; Revision := 1;
          CreatedAt := now; UpdatedAt := now |};
        _ ← tx_Post now [entry requester account.Reserve 0 amount order EmptyString];
        mret (RReservation next)
  end.

(** Reserve holds amount from the requester's available credits. *)
Definition Reserve (order requester : string) (amount : Z) : result Error Mutation :=
  order ← canonicalID order;
  requester ← canonicalID requester;
  _ ← guard_ok (0 <? amount) ErrInvalidArgument;
  mret {| mut_key := {| key_Kind := OpReserve; key_OrderID := order; key_AssignmentID := EmptyString |};
          mut_payload := reserve_payload requester amount;
          mut_apply := reserve_apply order requester amount |}.

Definition requireOpen (r : option Reservation) : Tx Reservation :=
  match r with
  | None => throw ErrReservationNotFound
  | Some r =>
      match ResStatus r with
      | Released => throw ErrReservationReleased
      | Settled => throw ErrReservationSettled
      | Held | Assigned => mret r
      end
  end.

Definition adjust_apply (order assignment courier : string) (offer : Z) (now : Time)
    : Tx mutation_result :=
  r ← tx_Reservation order;
  r ← requireOpen r;
  _ ← ensure (OriginalAmount r <=? offer) ErrInvalidArgument;
  a ← tx_Assignment order assignment;
  _ ← ensure (negb (match a with Some a => bool_decide (asg_Status a = Reverted) | None => false end))
             ErrAdjustmentReverted;
  _ ← ensure (negb (is_some a || bool_decide (ResStatus r = Assigned))) ErrAdjustmentPending;
  let delta := sub64 offer (ReservedAmount r) in
  locked ← tx_LockAccounts now [RequesterID r];
  if available_of locked (RequesterID r) <? delta then mret RInsufficient
  else
    _ ← tx_InsertAssignment {|
      asg_OrderID := order; asg_AssignmentID := assignment; asg_CourierID := courier;
      asg_OfferAmount := offer; asg_Status := Applied; asg_CreatedAt := now;
      asg_RevertedAt := None |};
    next ← update r (set_state r Assigned offer assignment (ResSettlement r));
    _ ← tx_Post now [entry (RequesterID r) account.Adjust 0 delta order assignment];
    mret (RReservation next).

(** AdjustReservation applies an accepted offer to a Held reservation. *)
Definition AdjustReservation (order assignment courier : string) (offer : Z)
    : result Error Mutation :=
  order ← canonicalID order;
  assignment ← canonicalID assignment;
  courier ← canonicalID courier;
  _ ← guard_ok (0 <? offer) ErrInvalidArgument;
  mret {| mut_key := {| key_Kind := OpAdjust; key_OrderID := order; key_AssignmentID := assignment |};
          mut_payload := adjust_payload courier offer;
          mut_apply := adjust_apply order assignment courier offer |}.

Definition revert_apply (order assignment : string) (now : Time) : Tx mutation_result :=
  r ← tx_Reservation order;
  r ← require r ErrReservationNotFound;
  _ ← ensure (bool_decide (ResStatus r ≠ Settled)) ErrReservationSettled;
  a ← tx_Assignment order assignment;
  match a with
  | None =>
      _ ← tx_InsertAssignment {|
        asg_OrderID := order; asg_AssignmentID := assignment; asg_CourierID := EmptyString;
        asg_OfferAmount := 0; asg_Status := Reverted; asg_CreatedAt := now;
        asg_RevertedAt := Some now |};
      mret (RReservation r)
  | Some a =>
      if decide (asg_Status a = Reverted) then mret (RReservation r)
      else
        _ ← tx_RevertAssignment order assignment now;
        if decide (ResStatus r ≠ Assigned ∨ AssignmentID r ≠ assignment) then
          (* Released after the offer was applied: the hold is already back. *)
          mret (RReservation r)
        else
          next ← update r (set_state r Held (OriginalAmount r) EmptyString (ResSettlement r));
          _ ← tx_Post now [entry (RequesterID r) account.Revert 0
                             (sub64 (OriginalAmount r) (ReservedAmount r)) order assignment];
          mret (RReservation next)
  end.

(** RevertAdjustment undoes an applied offer. *)
Definition RevertAdjustment (order assignment : string) : result Error Mutation :=
  order ← canonicalID order;
  assignment ← canonicalID assignment;
  mret {| mut_key := {| key_Kind := OpRevert; key_OrderID := order; key_AssignmentID := assignment |};
          mut_payload := revert_payload;
          mut_apply := revert_apply order assignment |}.

Definition released_settlement (returned : Z) (now : Time) (reason : ReleaseReason) : Settlement := {|
  Outcome := OutcomeReleased; PaidToCourier := 0; ReturnedToRequester := returned;
  SettledAt := now; SettlementReason := reason; SettlementCompletion := None |}.

(** release returns r's hold to the requester, or records a tombstone when r
    is nil. It reports whether anything changed. *)
Definition release (order : string) (r : option Reservation) (reason : ReleaseReason) (now : Time)
    : Tx (Reservation * bool) :=
  match r with
  | None =>
      stored ← tx_InsertReservation {|
        OrderID := order; RequesterID := EmptyString; ResStatus := Released;
        OriginalAmount := 0; ReservedAmount := 0; AssignmentID := EmptyString;
        ResAdjustment := None; ResSettlement := Some (released_settlement 0 now reason);
        Revision := 1; CreatedAt := now; UpdatedAt := now |};
      mret (stored, true)
  | Some r =>
      match ResStatus r with
      | Settled => throw ErrReservationSettled
      | Released => mret (r, false)
      | Held | Assigned =>
          next ← update r (set_state r Released 0 (AssignmentID r)
                             (Some (released_settlement (ReservedAmount r) now reason)));
          _ ← tx_Post now [entry (RequesterID r) account.Release 0 (neg64 (ReservedAmount r))
                             order EmptyString];
          mret (next, true)
      end
  end.

Definition release_apply (order : string) (reason : ReleaseReason) (now : Time)
    : Tx mutation_result :=
  r ← tx_Reservation order;
  '(next, _) ← release order r reason now;
  mret (RReservation next).

(** ReleaseReservation returns the whole hold to the requester. *)
Definition ReleaseReservation (order : string) (reason : ReleaseReason) : result Error Mutation :=
  order ← canonicalID order;
  _ ← guard_ok (valid reason) ErrInvalidArgument;
  mret {| mut_key := {| key_Kind := OpRelease; key_OrderID := order; key_AssignmentID := EmptyString |};
          mut_payload := release_payload reason;
          mut_apply := release_apply order reason |}.

End service.
