(* ===== verification/CreditOutcome.v ===== *)
(** * Credit: settlement of order outcomes

    credit-service/internal/reservation lateness.go and outcome.go, the
    order.outcome and users.create consumers of credit-service/internal/events,
    and the error mapping of credit-service/internal/rpc/shared. *)
From S2P Require Import Prelude.
From S2P Require Import GoLib.
From S2P Require Import CreditTypes.
From S2P Require Import CreditDB.
From S2P Require Import CreditAccount.
From S2P Require Import CreditReservation.
From stdpp Require Import prelude gmap strings.
From Stdlib Require Import ZArith.

Local Open Scope Z_scope.

(** ** The payout rule (lateness.go) *)

Definition PayoutRule : Type := Z → OrderOutcome → Z.

(** Payable applies the lateness rule to a reward. [2*allowed] and
    [2*allowed-elapsed] are Duration (int64) arithmetic; the product and the
    quotient are big.Int, and [Int64] keeps the low 64 bits. *)
Definition Payable (reward : Z) (elapsed allowed : Duration) : Z :=
  if elapsed <=? allowed then reward
  else if mul64 2 allowed <=? elapsed then 0
  else wrap64 (Z.quot (reward * sub64 (mul64 2 allowed) elapsed) allowed).

(** LatenessPayout pays the whole offer, reduced by the lateness rule for
    completed orders. *)
Definition LatenessPayout : PayoutRule := λ offer o,
  if decide (oo_Type o ≠ OrderCompleted) then offer
  else Payable offer (time_sub (oo_DeliveredAt o) (oo_PickedUpAt o)) (oo_DeliveryDuration o).

(** ** Outcomes (outcome.go) *)

Definition releaseReason (o : OrderOutcome) : option ReleaseReason :=
  match oo_Type o with
  | OrderCancelledBeforePickup => Some CancelledBeforePickup
  | OrderExpired => Some Expired
  | OrderFailed => Some Failed
  | _ => None
  end.

Definition settlementOutcome (o : OrderOutcome) : SettlementOutcome :=
  if decide (oo_Type o = OrderCompleted) then OutcomeCompleted else OutcomeCancelledAfterPickup.

Section outcome.
  Context `{UUID, UUIDv7}.
  Context (payout : PayoutRule).

(** validate canonicalises the identifiers and truncates the lateness inputs
    to the microseconds PostgreSQL keeps. *)
Definition validate (o : OrderOutcome) : result Error OrderOutcome :=
  order ← canonicalID (oo_OrderID o);
  requester ← canonicalID (oo_RequesterID o);
  courier ← (if is_some (releaseReason o) then Ok (oo_CourierID o) else canonicalID (oo_CourierID o));
  match oo_Type o with
  | OrderCompleted =>
      let picked := time_truncate (oo_PickedUpAt o) Microsecond in
      let delivered := time_truncate (oo_DeliveredAt o) Microsecond in
      let duration := duration_truncate (oo_DeliveryDuration o) Microsecond in
      _ ← guard_ok (negb (IsZero picked || Before delivered picked || (duration <=? 0)))
                   ErrInvalidArgument;
      mret {| oo_OrderID := order; oo_Type := oo_Type o; oo_RequesterID := requester;
              oo_CourierID := courier; oo_PickedUpAt := picked; oo_DeliveredAt := delivered;
              oo_DeliveryDuration := duration |}
  | OrderCancelledAfterPickup | OrderCancelledBeforePickup | OrderExpired | OrderFailed =>
      mret {| oo_OrderID := order; oo_Type := oo_Type o; oo_RequesterID := requester;
              oo_CourierID := courier; oo_PickedUpAt := oo_PickedUpAt o;
              oo_DeliveredAt := oo_DeliveredAt o; oo_DeliveryDuration := oo_DeliveryDuration o |}
  | NoOutcome => Err ErrInvalidArgument
  end.

Definition payout_settlement (o : OrderOutcome) (hold payable : Z) (now : Time) : Settlement := {|
  Outcome := settlementOutcome o;
  PaidToCourier := payable;
  ReturnedToRequester := sub64 hold payable;
  SettledAt := now;
  SettlementReason := NoReason;
  SettlementCompletion :=
    if decide (oo_Type o = OrderCompleted) then
      Some {| PickedUpAt := oo_PickedUpAt o; DeliveredAt := oo_DeliveredAt o;
              DeliveryDuration := oo_DeliveryDuration o |}
    else None |}.

(** The ledger entries of a settlement. *)
Definition settlement_entries (r : Reservation) (courier : string) (payable returned : Z) : list Entry :=
  [ entry (RequesterID r) account.Payout (neg64 payable) (neg64 payable) (OrderID r) EmptyString;
    entry (RequesterID r) account.Refund 0 (neg64 returned) (OrderID r) EmptyString;
    entry courier account.Payout payable 0 (OrderID r) EmptyString ].

(** settle pays the courier and returns the rest of the hold to the
    requester. *)
Definition settle (r : Reservation) (o : OrderOutcome) (now : Time) : Tx Reservation :=
  a ← tx_Assignment (OrderID r) (AssignmentID r);
  a ← require a ErrReservationNotAssigned;
  _ ← ensure (bool_decide (asg_Status a = Applied)) ErrReservationNotAssigned;
  _ ← ensure (bool_decide (asg_CourierID a = oo_CourierID o)) ErrOutcomeMismatch;
  let payable := payout (asg_OfferAmount a) o in
  _ ← ensure (negb ((payable <? 0) || (ReservedAmount r <? payable))) ErrOutcomeMismatch;
  let settlement := payout_settlement o (ReservedAmount r) payable now in
  _ ← tx_LockAccounts now [RequesterID r; asg_CourierID a];
  next ← update r (set_state r Settled 0 (AssignmentID r) (Some settlement));
  _ ← tx_Post now (settlement_entries r (asg_CourierID a) payable (ReturnedToRequester settlement));
  mret next.

(** The transaction of ApplyOutcome, on a validated outcome: the reservation
    and whether this call changed it. *)
Definition apply_outcome_body (o : OrderOutcome) : Tx (Reservation * bool) :=
  r ← tx_Reservation (oo_OrderID o);
  _ ← ensure (negb (match r with
                    | Some r => bool_decide (RequesterID r ≠ EmptyString)
                                && bool_decide (RequesterID r ≠ oo_RequesterID o)
                    | None => false
                    end)) ErrOutcomeMismatch;
  clocks ← ask;
  let now := service_clock clocks in
  match releaseReason o with
  | Some reason =>
      _ ← ensure (negb (match r with
                        | Some r => bool_decide (ResStatus r = Settled)
                        | None => false
                        end)) ErrOutcomeMismatch;
      _ ← ensure (negb (match r with
                        | Some r => bool_decide (ResStatus r = Released)
                                    && negb (match ResSettlement r with
                                             | Some s => bool_decide (SettlementReason s = reason)
                                             | None => false
                                             end)
                        | None => false
                        end)) ErrOutcomeMismatch;
      release (oo_OrderID o) r reason now
  | None =>
      r ← require r ErrReservationNotFound;
      match ResStatus r with
      | Settled =>
          _ ← ensure (match ResSettlement r with
                      | Some s => bool_decide (Outcome s = settlementOutcome o)
                      | None => false
                      end) ErrOutcomeMismatch;
          a ← tx_Assignment (OrderID r) (AssignmentID r);
          _ ← ensure (match a with
                      | Some a => bool_decide (asg_CourierID a = oo_CourierID o)
                      | None => false
                      end) ErrOutcomeMismatch;
          mret (r, false)
      | Released => throw ErrOutcomeMismatch
      | Held => throw ErrReservationNotAssigned
      | Assigned => next ← settle r o now; mret (next, true)
      end
  end.

Definition ApplyOutcome (clocks : Clocks) (fl : Faults) (o : OrderOutcome) (db : DB)
    : result Error (Reservation * bool) * DB :=
  match validate o with
  | Err e => (Err e, db)
  | Ok o => Within clocks fl (apply_outcome_body o) db
  end.

(** ** The order.outcome consumer (events/outcome.go) *)

Definition abortedAttempts : nat := 3.

(** mismatches are outcomes that redelivery cannot fix. *)
Definition mismatch (e : Error) : bool :=
  match e with
  | ErrOutcomeMismatch | ErrReservationNotFound | ErrReservationNotAssigned
  | ErrInvalidArgument => true
  | _ => false
  end.

(** What the environment does to one delivery: the clocks and faults of each
    attempt, and whether the context ends during the wait after it. *)
Record Attempt := { at_clocks : Clocks; at_faults : Faults; at_cancelled : bool }.

(** What Handle returns to the subscription: nil acknowledges the event. *)
Inductive handled := Acknowledged | Interrupted | Redeliver (e : Error).

(** The retry loop: ErrAborted is retried until [abortedAttempts] attempts
    have been made. [remaining] counts the attempts after this one; a sleep
    that the context interrupts returns the context's error. *)
Fixpoint attempts (o : OrderOutcome) (env : nat → Attempt) (n remaining : nat) (db : DB)
    : option (result Error (Reservation * bool)) * DB :=
  let '(out, db') := ApplyOutcome (at_clocks (env n)) (at_faults (env n)) o db in
  match out, remaining with
  | Err ErrAborted, S remaining =>
      if at_cancelled (env n) then (None, db') else attempts o env (S n) remaining db'
  | _, _ => (Some out, db')
  end.

Definition Outcomes_Handle (o : OrderOutcome) (env : nat → Attempt) (db : DB) : handled * DB :=
  let '(out, db') := attempts o env 1 (abortedAttempts - 1) db in
  (match out with
   | None => Interrupted
   | Some (Ok _) => Acknowledged
   | Some (Err e) => if mismatch e then Acknowledged else Redeliver e
   end, db').

(** ** The users.create consumer (events/usercreated.go) *)

(** Service.Open over PostgresStore.Open: the identifier is checked before the
    transaction begins, and its errors are not mapped. *)
Definition open_account (clocks : Clocks) (fl : Faults) (user : string) (db : DB)
    : result Error unit * DB :=
  match uuid_parse user with
  | None => (Err ErrInvalidArgument, db)
  | Some id => transact clocks fl (PostgresStore_Open id (service_clock clocks)) db
  end.

Definition Users_Handle (clocks : Clocks) (fl : Faults) (user : string) (db : DB) : handled * DB :=
  let '(out, db') := open_account clocks fl user db in
  (match out with
   | Ok _ => Acknowledged
   | Err ErrInvalidArgument => Acknowledged
   | Err e => Redeliver e
   end, db').

End outcome.

(** ** The RPC error contract (rpc/shared/errors.go) *)

Inductive Code :=
| CodeFailedPrecondition | CodeAlreadyExists | CodeNotFound | CodeInvalidArgument
| CodeAborted | CodeInternal.

(** The domain errors a caller may see, with the contract's reason. *)
Definition errorMappings : list (Error * Code * string) := [
  (ErrInsufficientCredits, CodeFailedPrecondition, "INSUFFICIENT_CREDITS");
  (ErrIdempotencyConflict, CodeAlreadyExists, "IDEMPOTENCY_CONFLICT");
  (ErrReservationNotFound, CodeNotFound, "RESERVATION_NOT_FOUND");
  (ErrReservationReleased, CodeFailedPrecondition, "RESERVATION_RELEASED");
  (ErrReservationSettled, CodeFailedPrecondition, "RESERVATION_SETTLED");
  (ErrAdjustmentPending, CodeFailedPrecondition, "ADJUSTMENT_PENDING");
  (ErrAdjustmentReverted, CodeFailedPrecondition, "ADJUSTMENT_REVERTED");
  (ErrAccountNotFound, CodeNotFound, "ACCOUNT_NOT_FOUND");
  (ErrInvalidArgument, CodeInvalidArgument, EmptyString);
  (ErrAborted, CodeAborted, EmptyString)
]%string.

(** ConnectError exposes the first mapping that matches and hides everything
    else behind an internal error. *)
Definition ConnectError (e : Error) : Code * string :=
  match list_find (λ m, m.1.1 = e) errorMappings with
  | Some (_, (_, code, reason)) => (code, reason)
  | None => (CodeInternal, EmptyString)
  end.
