(* ===== verification/CreditHistory.v ===== *)
(** * Credit: what no transaction can undo

    Each statement only ever extends the history of the database: the ledger,
    the operations and the reservation revisions are append-only, a terminal
    reservation and a reverted assignment never change, and a reservation keeps
    its order, requester and original amount. The relation is proved for every
    statement and composed for the service's transactions. *)
From S2P Require Import Prelude.
From S2P Require Import GoLib.
From S2P Require Import CreditTypes.
From S2P Require Import CreditDB.
From S2P Require Import CreditAccount.
From S2P Require Import CreditReservation.
From S2P Require Import CreditOutcome.
From stdpp Require Import prelude gmap strings sorting.
From Stdlib Require Import ZArith.

Local Open Scope Z_scope.

(** How one reservation row may evolve. *)
Definition row_extends (r r' : ReservationRow) : Prop :=
  r' = r ∨ (terminal (rr_Status r) = false ∧ rr_Revision r < rr_Revision r'
            ∧ rr_RequesterID r' = rr_RequesterID r ∧ rr_OriginalAmount r' = rr_OriginalAmount r).

(** How one assignment row may evolve: only from Applied to Reverted. *)
Definition assignment_extends (a a' : AssignmentRow) : Prop :=
  a' = a ∨ (as_Status a = Applied ∧ as_Status a' = Reverted
            ∧ as_OrderID a' = as_OrderID a ∧ as_AssignmentID a' = as_AssignmentID a
            ∧ as_CourierID a' = as_CourierID a ∧ as_OfferAmount a' = as_OfferAmount a
            ∧ as_CreatedAt a' = as_CreatedAt a).

Definition account_extends (a a' : AccountRow) : Prop := ac_UserID a' = ac_UserID a.

Record extends (db db' : DB) : Prop := {
  ext_accounts : map_extends account_extends (accounts db) (accounts db');
  ext_reservations : map_extends row_extends (reservations db) (reservations db');
  ext_revisions : revisions db ⊆ revisions db';
  ext_assignments : map_extends assignment_extends (assignments db) (assignments db');
  ext_operations : operations db ⊆ operations db';
  ext_ledger : ledger db `prefix_of` ledger db';
}.

#[export] Instance row_extends_refl : Reflexive row_extends.
Proof. by left. Qed.
#[export] Instance row_extends_trans : Transitive row_extends.
Proof.
  intros r1 r2 r3 [->|H1] [->|H2]; unfold row_extends in *; [auto|auto|auto|right].
  destruct_and!. repeat split; try congruence; lia.
Qed.
#[export] Instance assignment_extends_refl : Reflexive assignment_extends.
Proof. by left. Qed.
#[export] Instance assignment_extends_trans : Transitive assignment_extends.
Proof.
  intros a1 a2 a3 [->|H1] [->|H2]; unfold assignment_extends in *; [auto|auto|auto|right].
  destruct_and!. repeat split; congruence.
Qed.
#[export] Instance account_same_refl : Reflexive account_extends.
Proof. by intros ?. Qed.
#[export] Instance account_same_trans : Transitive account_extends.
Proof. unfold account_extends. intros ???; congruence. Qed.

#[export] Instance extends_refl : Reflexive extends.
Proof. split; try done; apply map_extends_refl; apply _. Qed.
#[export] Instance extends_trans : Transitive extends.
Proof.
  intros db1 db2 db3 [] []. split;
    first [eapply map_extends_trans; [apply _|eassumption|eassumption] | by etrans].
Qed.

(** [monotone m]: every successful run of [m] extends the history. *)
Definition monotone {A} (m : Tx A) : Prop :=
  ∀ c db, wp m c db (λ _ db', extends db db') (λ _, True).

Create HintDb mono discriminated.

Lemma mono_ret {A} (a : A) : monotone (mret a).
Proof. intros c db. by apply wp_ret. Qed.
Lemma mono_throw {A} e : monotone (throw (A:=A) e).
Proof. intros c db. done. Qed.
Lemma mono_ask : monotone ask.
Proof. intros c db. by apply wp_ask. Qed.
Lemma mono_gets {A} (f : DB → A) : monotone (gets f).
Proof. intros c db. by apply wp_gets. Qed.
Lemma mono_ensure b e : monotone (ensure b e).
Proof. intros c db. apply wp_ensure; intros; [reflexivity|exact I]. Qed.
Lemma mono_require {A} (o : option A) e : monotone (require o e).
Proof. intros c db. apply wp_require; intros; [reflexivity|exact I]. Qed.
Lemma mono_bind {A B} (m : Tx A) (k : A → Tx B) :
  monotone m → (∀ a, monotone (k a)) → monotone (m ≫= k).
Proof.
  intros Hm Hk c db. apply wp_bind. eapply wp_mono; [apply Hm| |done].
  intros a db1 ?. eapply wp_mono; [apply Hk| |done]. intros b db2 ?; cbv beta in *. by transitivity db1.
Qed.
Lemma mono_for_each {A} (f : A → Tx unit) l : (∀ x, monotone (f x)) → monotone (for_each f l).
Proof. intros Hf. induction l; simpl; [apply mono_ret|]. by apply mono_bind. Qed.

#[export] Hint Resolve mono_ret mono_throw mono_ask mono_gets mono_ensure mono_require
  mono_for_each : mono.
#[export] Hint Extern 2 (monotone (mbind _ _)) => apply mono_bind; [|intros ?] : mono.
#[export] Hint Extern 3 (monotone (match ?x with _ => _ end)) => destruct x : mono.

Ltac mono := repeat first
  [ progress (intros; cbn beta iota zeta)
  | solve [auto with mono]
  | match goal with
    | |- monotone (mbind _ _) => apply mono_bind
    | |- monotone (for_each _ _) => apply mono_for_each
    | |- monotone (match ?x with _ => _ end) => destruct x
    end ].

(** ** The statements *)

Section statements.

Lemma mono_bigint_add a b : monotone (bigint_add a b).
Proof. unfold bigint_add. mono. Qed.
Hint Resolve mono_bigint_add : mono.

Lemma mono_InsertAccount u now : monotone (InsertAccount u now).
Proof.
  intros c db. unfold InsertAccount. repeat wp_step; [done|].
  split; simpl; try done; [|apply map_extends_refl; apply _..].
  apply map_extends_insert; [apply _|]. congruence.
Qed.

Lemma mono_ApplyAccountDelta u b r : monotone (ApplyAccountDelta u b r).
Proof.
  intros c db. unfold ApplyAccountDelta. apply wp_bind, wp_gets.
  destruct (accounts db !! u) as [a|] eqn:Ha; [|by apply wp_ret].
  unfold bigint_add. repeat wp_step; try done.
  split; simpl; try done; [|apply map_extends_refl; apply _..].
  apply map_extends_insert; [apply _|]. intros ? Hv. simpl. by simplify_eq.
Qed.

Lemma mono_InsertLedgerEntry e : monotone (InsertLedgerEntry e).
Proof.
  intros c db. unfold InsertLedgerEntry. repeat wp_step; try done.
  split; simpl; try done; try (apply map_extends_refl; apply _).
  by apply prefix_app_r.
Qed.

Lemma mono_InsertOperation id o : monotone (InsertOperation id o).
Proof.
  intros c db. unfold InsertOperation. repeat wp_step; try done.
  split; simpl; try done; try (apply map_extends_refl; apply _).
  apply insert_subseteq. destruct (operations db !! id); done.
Qed.

Lemma write_reservation_ok r c db r' db' :
  write_reservation r c db = Ok (r', db') →
  r' = r ∧ reservations_check r = true ∧ reservation_references_ok db r = true
  ∧ revisions db !! (rr_OrderID r, rr_Revision r) = None
  ∧ db' = set_revisions (insert (rr_OrderID r, rr_Revision r) r)
            (set_reservations (insert (rr_OrderID r) r) db).
Proof.
  unfold write_reservation, record_reservation_revision, ensure, gets, modify, mbind, st_mbind.
  simpl. destruct (reservations_check r); simpl; [|done].
  destruct (reservation_references_ok db r); simpl; [|done].
  destruct (revisions db !! (rr_OrderID r, rr_Revision r)); simpl; [done|].
  intros [= <- <-]. done.
Qed.

(** Writing a row extends the history when the old row, if any, may evolve
    into it. *)
Lemma extends_write r db :
  (∀ old, reservations db !! rr_OrderID r = Some old → row_extends old r) →
  revisions db !! (rr_OrderID r, rr_Revision r) = None →
  extends db (set_revisions (insert (rr_OrderID r, rr_Revision r) r)
                (set_reservations (insert (rr_OrderID r) r) db)).
Proof.
  intros Hold Hrev. split; simpl; try done; try (apply map_extends_refl; apply _).
  - apply map_extends_insert; [apply _|done].
  - by apply insert_subseteq.
Qed.

Lemma mono_InsertReservation r : monotone (InsertReservation r).
Proof.
  intros c db. unfold InsertReservation. repeat wp_step; [|done].
  apply wp_intro; [|done]. intros r' db' (-> & _ & _ & Hrev & ->)%write_reservation_ok.
  apply extends_write; [|done]. simpl. intros old Hold. by rewrite Hold in *.
Qed.

Lemma mono_UpdateReservation r n : monotone (UpdateReservation r n).
Proof.
  intros c db. unfold UpdateReservation. apply wp_bind, wp_gets.
  destruct (reservations db !! rr_OrderID r) as [old|] eqn:Hold; [|by apply wp_ret].
  wp_step; [|by apply wp_ret]. unfold bigint_add. repeat wp_step; try done.
  apply wp_intro; [|done]. intros r' db' (-> & _ & _ & Hrev & ->)%write_reservation_ok.
  apply wp_ret. apply extends_write; [|done]. simpl. intros old0 Hold0.
  rewrite Hold in Hold0. injection Hold0 as <-.
  right. simpl. destruct (terminal (rr_Status old)); [done|]. repeat split; lia.
Qed.

Lemma mono_InsertAssignment a : monotone (InsertAssignment a).
Proof.
  intros c db. unfold InsertAssignment. repeat wp_step; try done.
  split; simpl; try done; try (apply map_extends_refl; apply _).
  apply map_extends_insert; [apply _|]. intros old Hold. by rewrite Hold in *.
Qed.

Lemma mono_RevertAssignment o a now : monotone (RevertAssignment o a now).
Proof.
  intros c db. unfold RevertAssignment. apply wp_bind, wp_gets.
  destruct (assignments db !! (o, a)) as [old|] eqn:Hold; [|by apply wp_ret].
  destruct (decide (as_Status old = Applied)); [|by apply wp_ret].
  repeat wp_step; [|done].
  split; simpl; try done; try (apply map_extends_refl; apply _).
  apply map_extends_insert; [apply _|]. intros old0 Hold0. rewrite Hold in Hold0.
  injection Hold0 as <-. by right.
Qed.

End statements.

#[export] Hint Resolve mono_InsertAccount mono_ApplyAccountDelta mono_InsertLedgerEntry
  mono_InsertOperation mono_InsertReservation mono_UpdateReservation mono_InsertAssignment
  mono_RevertAssignment : mono.

(** Queries that only read. *)
Lemma mono_LockAccount u : monotone (LockAccount u).
Proof. apply mono_gets. Qed.
Lemma mono_GetOperation id : monotone (GetOperation id).
Proof. apply mono_gets. Qed.
Lemma mono_LockReservation o : monotone (LockReservation o).
Proof. apply mono_gets. Qed.
Lemma mono_GetReservationRevision o n : monotone (GetReservationRevision o n).
Proof. apply mono_gets. Qed.
Lemma mono_GetAssignment o a : monotone (GetAssignment o a).
Proof. apply mono_gets. Qed.
#[export] Hint Resolve mono_LockAccount mono_GetOperation mono_LockReservation
  mono_GetReservationRevision mono_GetAssignment : mono.

(** ** The service's transactions *)

Section transactions.
  Context `{UUID, UUIDv7, Digest}.

Lemma mono_Post now l : monotone (Post now l).
Proof. unfold Post, post_one. mono. Qed.
Hint Resolve mono_Post : mono.

Lemma mono_Open now u : monotone (Open now u).
Proof. unfold Open. mono. Qed.
Hint Resolve mono_Open : mono.

Lemma mono_lock_each now ids out : monotone (lock_each now ids out).
Proof. revert out. induction ids; intros; simpl; mono. Qed.
Hint Resolve mono_lock_each : mono.

Lemma mono_withAdjustment r : monotone (withAdjustment r).
Proof. unfold withAdjustment, tx_Assignment. mono. Qed.
Hint Resolve mono_withAdjustment : mono.

Lemma mono_update r r' : monotone (update r r').
Proof. unfold update, tx_UpdateReservation. mono. Qed.
Hint Resolve mono_update : mono.

Lemma mono_release o r reason now : monotone (release o r reason now).
Proof. unfold release, tx_InsertReservation, tx_Post. mono. Qed.
Hint Resolve mono_release : mono.

Lemma mono_settle payout r o now : monotone (settle payout r o now).
Proof. unfold settle, tx_Assignment, tx_LockAccounts, tx_Post. mono. Qed.
Hint Resolve mono_settle : mono.

Lemma mono_apply_outcome payout o : monotone (apply_outcome_body payout o).
Proof. unfold apply_outcome_body, tx_Reservation, tx_Assignment. mono. Qed.

(** A service mutation: what each operation passes to [mutate]. *)
Definition mutation_of (m : Mutation) : Prop :=
  (∃ o r n, Reserve o r n = Ok m) ∨ (∃ o a c n, AdjustReservation o a c n = Ok m)
  ∨ (∃ o a, RevertAdjustment o a = Ok m) ∨ (∃ o r, ReleaseReservation o r = Ok m).

Lemma mono_reserve_apply o r n now : monotone (reserve_apply o r n now).
Proof.
  unfold reserve_apply, tx_Reservation, tx_LockAccounts, tx_InsertReservation, tx_Post. mono.
Qed.
Lemma mono_adjust_apply o a c n now : monotone (adjust_apply o a c n now).
Proof.
  unfold adjust_apply, requireOpen, tx_Reservation, tx_Assignment, tx_LockAccounts,
    tx_InsertAssignment, tx_Post. mono.
Qed.
Lemma mono_revert_apply o a now : monotone (revert_apply o a now).
Proof.
  unfold revert_apply, tx_Reservation, tx_Assignment, tx_InsertAssignment,
    tx_RevertAssignment, tx_Post. mono.
Qed.
Lemma mono_release_apply o r now : monotone (release_apply o r now).
Proof. unfold release_apply, tx_Reservation. mono. Qed.
Hint Resolve mono_reserve_apply mono_adjust_apply mono_revert_apply mono_release_apply : mono.

(** Inverting the argument checks of an operation. *)
Lemma canonicalID_ok v t : canonicalID v = Ok t → uuid_parse v = Some t.
Proof. unfold canonicalID, from_option_ok. by destruct (uuid_parse v); intros [= ->]. Qed.

Lemma Reserve_ok o r n m :
  Reserve o r n = Ok m → ∃ o' r', uuid_parse o = Some o' ∧ uuid_parse r = Some r' ∧ 0 < n ∧
    m = {| mut_key := {| key_Kind := OpReserve; key_OrderID := o'; key_AssignmentID := EmptyString |};
           mut_payload := reserve_payload r' n; mut_apply := reserve_apply o' r' n |}.
Proof.
  unfold Reserve, guard_ok, mbind, result_mbind, mret, result_mret. intros Hm.
  repeat case_match; simplify_eq/=. repeat eexists; eauto using canonicalID_ok. lia.
Qed.

Lemma AdjustReservation_ok o a c n m :
  AdjustReservation o a c n = Ok m → ∃ o' a' c', uuid_parse o = Some o' ∧ uuid_parse a = Some a' ∧
    uuid_parse c = Some c' ∧ 0 < n ∧
    m = {| mut_key := {| key_Kind := OpAdjust; key_OrderID := o'; key_AssignmentID := a' |};
           mut_payload := adjust_payload c' n; mut_apply := adjust_apply o' a' c' n |}.
Proof.
  unfold AdjustReservation, guard_ok, mbind, result_mbind, mret, result_mret. intros Hm.
  repeat case_match; simplify_eq/=. repeat eexists; eauto using canonicalID_ok. lia.
Qed.

Lemma RevertAdjustment_ok o a m :
  RevertAdjustment o a = Ok m → ∃ o' a', uuid_parse o = Some o' ∧ uuid_parse a = Some a' ∧
    m = {| mut_key := {| key_Kind := OpRevert; key_OrderID := o'; key_AssignmentID := a' |};
           mut_payload := revert_payload; mut_apply := revert_apply o' a' |}.
Proof.
  unfold RevertAdjustment, mbind, result_mbind, mret, result_mret. intros Hm.
  repeat case_match; simplify_eq/=. repeat eexists; eauto using canonicalID_ok.
Qed.

Lemma ReleaseReservation_ok o r m :
  ReleaseReservation o r = Ok m → ∃ o', uuid_parse o = Some o' ∧ valid r = true ∧
    m = {| mut_key := {| key_Kind := OpRelease; key_OrderID := o'; key_AssignmentID := EmptyString |};
           mut_payload := release_payload r; mut_apply := release_apply o' r |}.
Proof.
  unfold ReleaseReservation, guard_ok, mbind, result_mbind, mret, result_mret. intros Hm.
  repeat case_match; simplify_eq/=. repeat eexists; eauto using canonicalID_ok.
Qed.

Lemma mutation_apply_mono m now : mutation_of m → monotone (mut_apply m now).
Proof.
  intros [(?&?&?&Hm)|[(?&?&?&?&Hm)|[(?&?&Hm)|(?&?&Hm)]]].
  - apply Reserve_ok in Hm as (?&?&_&_&_&->). simpl. auto with mono.
  - apply AdjustReservation_ok in Hm as (?&?&?&_&_&_&_&->). simpl. auto with mono.
  - apply RevertAdjustment_ok in Hm as (?&?&_&_&->). simpl. auto with mono.
  - apply ReleaseReservation_ok in Hm as (?&_&_&->). simpl. auto with mono.
Qed.

Lemma mono_mutate m : mutation_of m → monotone (mutate_body m).
Proof.
  intros Hm. pose proof (λ now, mutation_apply_mono m now Hm).
  unfold mutate_body, tx_Operation, checkReplay, tx_Reservation, tx_Assignment, tx_Revision,
    tx_SaveOperation. mono.
Qed.

(** A transaction commits all of its effect or none of it. *)
Lemma transact_cases {A} clocks fl (f : Tx A) db out db' :
  transact clocks fl f db = (out, db') →
  db' = db ∨ ∃ a, f clocks db = Ok (a, db').
Proof.
  unfold transact. destruct (begin_fault fl), (body_fault fl); try (intros [= <- <-]; auto).
  destruct (f clocks db) as [[a db1]|e]; [|intros [= <- <-]; auto].
  destruct (commit_fault fl) as [[code []]|]; intros [= <- <-]; eauto.
Qed.

Lemma Within_transact {A} clocks fl (f : Tx A) db out db' :
  Within clocks fl f db = (out, db') → ∃ out0, transact clocks fl f db = (out0, db').
Proof. unfold Within. destruct (transact clocks fl f db). intros [= <- <-]. eauto. Qed.

Lemma transact_monotone {A} clocks fl (f : Tx A) db out db' :
  monotone f → transact clocks fl f db = (out, db') → extends db db'.
Proof.
  intros Hf [->|(a & Ha)]%transact_cases; [done|]. specialize (Hf clocks db).
  unfold wp in Hf. by rewrite Ha in Hf.
Qed.

End transactions.
