(* ===== verification/CreditInvariant.v ===== *)
(** * Credit: the invariant of the database

    What holds of accounts, ledger, reservations and assignments after every
    transaction, stated with the changes a transaction still owes: inside a
    transaction the reservation changes before its credits move. *)
From S2P Require Import Prelude.
From S2P Require Import GoLib.
From S2P Require Import CreditTypes.
From S2P Require Import CreditDB.
From S2P Require Import CreditAccount.
From S2P Require Import CreditReservation.
From stdpp Require Import prelude gmap strings sorting.
From Stdlib Require Import ZArith Lia.

Local Open Scope Z_scope.

(** ** Quantities *)

Definition balance_of (db : DB) (u : string) : Z :=
  match accounts db !! u with Some a => ac_Balance a | None => 0 end.
Definition reserved_of (db : DB) (u : string) : Z :=
  match accounts db !! u with Some a => ac_Reserved a | None => 0 end.

(** What [r] holds of [u]'s credits; zero once terminal. *)
Definition hold_of (u : string) (r : ReservationRow) : Z :=
  if decide (rr_RequesterID r = Some u) then rr_ReservedAmount r else 0.
Definition holds (db : DB) (u : string) : Z := msum (λ _ r, hold_of u r) (reservations db).

(** All the credits in the economy. *)
Definition supply (db : DB) : Z := msum (λ _ a, ac_Balance a) (accounts db).

Definition entry_balance (u : string) (e : LedgerEntryRow) : Z :=
  if decide (lg_UserID e = u) then lg_BalanceDelta e else 0.
Definition entry_reserved (u : string) (e : LedgerEntryRow) : Z :=
  if decide (lg_UserID e = u) then lg_ReservedDelta e else 0.
Definition is_grant (u : string) (e : LedgerEntryRow) : Z :=
  if decide (lg_Kind e = account.Grant ∧ lg_UserID e = u) then 1 else 0.
Definition grants (db : DB) (u : string) : Z := lsum (is_grant u) (ledger db).

(** [at_user u d v]: the amount [d] of user [u], seen from user [v]. *)
Definition at_user (u : string) (d : Z) (v : string) : Z := if decide (v = u) then d else 0.

(** ** Row invariants *)

Definition account_ok (u : string) (a : AccountRow) : Prop :=
  ac_UserID a = u ∧ 0 <= ac_Reserved a <= ac_Balance a ∧ ac_Balance a <= max_int64
  ∧ 0 < ac_Revision a.

Definition reservation_ok (db : DB) (o : string) (r : ReservationRow) : Prop :=
  revisions db !! (o, rr_Revision r) = Some r
  ∧ ∀ u, rr_RequesterID r = Some u → u ≠ EmptyString ∧ is_Some (accounts db !! u).

Definition assignment_ok (db : DB) (k : string * string) (x : AssignmentRow) : Prop :=
  as_OrderID x = k.1 ∧ as_AssignmentID x = k.2 ∧ k.2 ≠ EmptyString
  ∧ assignments_check x = true
  ∧ (∀ c, as_CourierID x = Some c → c ≠ EmptyString)
  ∧ (∀ n, as_OfferAmount x = Some n → n <= max_int64)
  ∧ is_Some (reservations db !! k.1).

Definition revision_ok (db : DB) (k : string * Z) (r : ReservationRow) : Prop :=
  rr_OrderID r = k.1 ∧ rr_Revision r = k.2 ∧ reservations_check r = true
  ∧ rr_ReservedAmount r <= max_int64 ∧ rr_OriginalAmount r <= max_int64
  ∧ (∀ a, rr_AssignmentID r = Some a → a ≠ EmptyString ∧ is_Some (assignments db !! (k.1, a)))
  ∧ ∃ current, reservations db !! k.1 = Some current ∧ rr_Revision r <= rr_Revision current.

Definition operation_ok (db : DB) (id : OperationID) (x : OperationRow) : Prop :=
  operations_check id x = true
  ∧ ∀ n, or_Revision x = Some n → is_Some (revisions db !! (id.1.2, n)).

(** Reservations and the assignments applied to them. *)
Definition coupled_row (db : DB) (o : string) (r : ReservationRow) : Prop :=
  (∀ a x, assignments db !! (o, a) = Some x → as_Status x = Applied → rr_AssignmentID r = Some a)
  ∧ (rr_Status r = Assigned →
      ∃ a x, rr_AssignmentID r = Some a ∧ assignments db !! (o, a) = Some x
        ∧ as_Status x = Applied ∧ as_OfferAmount x = Some (rr_ReservedAmount r)
        ∧ 0 < rr_OriginalAmount r <= rr_ReservedAmount r)
  ∧ (rr_Status r = Settled →
      ∃ a x, rr_AssignmentID r = Some a ∧ assignments db !! (o, a) = Some x
        ∧ as_Status x = Applied).

Definition Coupled (db : DB) : Prop := map_Forall (coupled_row db) (reservations db).

Section invariant.
  Context `{UUIDv7}.

(** The invariant with pending changes: [d] credits of [u]'s reserved total
    and [b] credits of the supply are still to be posted. *)
Record Pending (u : string) (d b : Z) (db : DB) : Prop := {
  pn_accounts : map_Forall account_ok (accounts db);
  pn_ledger_balance v : lsum (entry_balance v) (ledger db) = balance_of db v;
  pn_ledger_reserved v : lsum (entry_reserved v) (ledger db) = reserved_of db v;
  pn_grants v : grants db v = if is_some (accounts db !! v) then 1 else 0;
  pn_ids i e : ledger db !! i = Some e → lg_ID e = new_v7 i;
  pn_holds v : holds db v = reserved_of db v + at_user u d v;
  pn_supply : supply db + b = account.StartingCredits * Z.of_nat (size (accounts db));
  pn_reservations : map_Forall (reservation_ok db) (reservations db);
  pn_assignments : map_Forall (assignment_ok db) (assignments db);
  pn_revisions : map_Forall (revision_ok db) (revisions db);
  pn_operations : map_Forall (operation_ok db) (operations db);
}.

Definition Inv (db : DB) : Prop := Pending EmptyString 0 0 db ∧ Coupled db.

Lemma at_user_0 u v : at_user u 0 v = 0.
Proof. unfold at_user. by case_decide. Qed.

(** With nothing pending the user is irrelevant. *)
Lemma Pending_rename u v db : Pending u 0 0 db → Pending v 0 0 db.
Proof.
  intros []. split; try done. intros w. rewrite at_user_0. rewrite <- (at_user_0 u w). done.
Qed.

Lemma empty_Inv : Inv empty_db.
Proof.
  split; [split|apply map_Forall_empty]; try done; try exact (map_Forall_empty _).
  intros. by rewrite at_user_0.
Qed.

(** ** Changes of single rows *)

Lemma balance_insert db u a v :
  balance_of (set_accounts (insert u a) db) v = if decide (v = u) then ac_Balance a else balance_of db v.
Proof.
  unfold balance_of, set_accounts. simpl. case_decide as Hv.
  - subst. by rewrite lookup_insert_eq.
  - by rewrite lookup_insert_ne.
Qed.

Lemma reserved_insert db u a v :
  reserved_of (set_accounts (insert u a) db) v = if decide (v = u) then ac_Reserved a else reserved_of db v.
Proof.
  unfold reserved_of, set_accounts. simpl. case_decide as Hv.
  - subst. by rewrite lookup_insert_eq.
  - by rewrite lookup_insert_ne.
Qed.

Lemma balance_set_ledger l db v : balance_of (set_ledger l db) v = balance_of db v.
Proof. done. Qed.
Lemma reserved_set_ledger l db v : reserved_of (set_ledger l db) v = reserved_of db v.
Proof. done. Qed.
Lemma supply_set_ledger l db : supply (set_ledger l db) = supply db.
Proof. done. Qed.

(** A hold never exceeds what the account has reserved, up to what is
    pending. *)
Lemma holds_nonneg u d b db v : Pending u d b db → 0 <= holds db v.
Proof.
  intros HP. apply msum_nonneg. intros o r Hr. unfold hold_of. case_decide; [|done].
  destruct (pn_reservations _ _ _ _ HP o r Hr) as [Hrev _].
  destruct (pn_revisions _ _ _ _ HP _ _ Hrev) as (_&_&Hcheck&_).
  unfold reservations_check, reservations_amounts_check in Hcheck. lia.
Qed.

Lemma account_of u d b db v a :
  Pending u d b db → accounts db !! v = Some a →
  balance_of db v = ac_Balance a ∧ reserved_of db v = ac_Reserved a ∧ account_ok v a.
Proof.
  intros HP Ha. unfold balance_of, reserved_of. rewrite Ha.
  split_and!; try done; by apply (pn_accounts _ _ _ _ HP).
Qed.

Lemma is_Some_insert {K V} `{Countable K} (m : gmap K V) i j x :
  is_Some (m !! i) → is_Some (<[j:=x]> m !! i).
Proof. intros. apply lookup_insert_is_Some'. by right. Qed.

(** The part of the invariant that an account update leaves alone. *)
Lemma reservation_ok_account db v row o r l :
  reservation_ok db o r → reservation_ok (set_ledger l (set_accounts (insert v row) db)) o r.
Proof.
  intros [? Hreq]. split; [done|]. intros w Hw. destruct (Hreq w Hw). split; [done|].
  by apply is_Some_insert.
Qed.

Lemma supply_insert_Some db v a row :
  accounts db !! v = Some a →
  supply (set_accounts (insert v row) db) = supply db - ac_Balance a + ac_Balance row.
Proof. intros Ha. unfold supply. simpl. by rewrite (msum_update _ _ _ a). Qed.

(** A posting: the account row changes and the ledger gains the entry. *)
Lemma Pending_posted u d b db v a row e :
  Pending u d b db → accounts db !! v = Some a → account_ok v row →
  lg_UserID e = v → lg_Kind e ≠ account.Grant → lg_ID e = new_v7 (length (ledger db)) →
  ac_Balance row = ac_Balance a + lg_BalanceDelta e →
  ac_Reserved row = ac_Reserved a + lg_ReservedDelta e →
  (lg_ReservedDelta e ≠ 0 → v = u) →
  Pending u (d - lg_ReservedDelta e) (b - lg_BalanceDelta e)
    (set_ledger (λ l, l ++ [e]) (set_accounts (insert v row) db)).
Proof.
  intros HP Ha Hrow Hv Hkind Hid Hb Hr Hu.
  destruct (account_of _ _ _ _ _ _ HP Ha) as (Hba & Hra & _). destruct HP.
  split; try done; simpl.
  - by apply map_Forall_insert_2.
  - intros w. rewrite lsum_snoc, pn_ledger_balance0, balance_set_ledger, balance_insert.
    unfold entry_balance. rewrite Hv. repeat case_decide; subst; try congruence; lia.
  - intros w. rewrite lsum_snoc, pn_ledger_reserved0, reserved_set_ledger, reserved_insert.
    unfold entry_reserved. rewrite Hv. repeat case_decide; subst; try congruence; lia.
  - intros w. unfold grants. simpl. rewrite lsum_snoc. unfold grants in pn_grants0.
    rewrite pn_grants0. unfold is_grant.
    rewrite (decide_False (P := lg_Kind e = _ ∧ _)) by (intros [? _]; congruence).
    destruct (decide (w = v)) as [->|]; [rewrite lookup_insert_eq, Ha|rewrite lookup_insert_ne by done];
      simpl; lia.
  - intros j e'. rewrite lookup_snoc_Some. intros [[??]|[-> <-]]; eauto.
  - intros w. unfold holds. simpl. unfold holds in pn_holds0. rewrite pn_holds0.
    rewrite reserved_set_ledger, reserved_insert. unfold at_user.
    destruct (decide (lg_ReservedDelta e = 0)).
    + repeat case_decide; subst; lia.
    + rewrite <- Hu by done. repeat case_decide; subst; lia.
  - rewrite supply_set_ledger, (supply_insert_Some _ _ a) by done.
    rewrite map_size_insert_Some by eauto. lia.
  - eapply map_Forall_impl; [done|]. intros. by apply reservation_ok_account.
Qed.

(** Opening an account: the row and its grant appear together. *)
Lemma Pending_opened u d b db v row e :
  Pending u d b db → accounts db !! v = None → account_ok v row →
  lg_UserID e = v → lg_Kind e = account.Grant → lg_ID e = new_v7 (length (ledger db)) →
  ac_Balance row = account.StartingCredits → ac_Reserved row = 0 →
  lg_BalanceDelta e = account.StartingCredits → lg_ReservedDelta e = 0 →
  Pending u d b (set_ledger (λ l, l ++ [e]) (set_accounts (insert v row) db)).
Proof.
  intros HP Hnone Hrow Hv Hkind Hid Hb Hr Heb Her.
  assert (balance_of db v = 0 ∧ reserved_of db v = 0) as [Hb0 Hr0].
  { unfold balance_of, reserved_of. by rewrite Hnone. }
  destruct HP. split; try done; simpl.
  - by apply map_Forall_insert_2.
  - intros w. rewrite lsum_snoc, pn_ledger_balance0, balance_set_ledger, balance_insert.
    unfold entry_balance. rewrite Hv. repeat case_decide; subst; try congruence; lia.
  - intros w. rewrite lsum_snoc, pn_ledger_reserved0, reserved_set_ledger, reserved_insert.
    unfold entry_reserved. rewrite Hv. repeat case_decide; subst; try congruence; lia.
  - intros w. unfold grants. simpl. rewrite lsum_snoc. unfold grants in pn_grants0.
    rewrite pn_grants0. unfold is_grant.
    destruct (decide (w = v)) as [->|].
    + rewrite lookup_insert_eq, Hnone, decide_True by done. done.
    + rewrite lookup_insert_ne by done. rewrite decide_False by (intros [_ ?]; congruence). lia.
  - intros j e'. rewrite lookup_snoc_Some. intros [[??]|[-> <-]]; eauto.
  - intros w. unfold holds. simpl. unfold holds in pn_holds0. rewrite pn_holds0.
    rewrite reserved_set_ledger, reserved_insert. case_decide; subst; lia.
  - rewrite supply_set_ledger. unfold supply in *. simpl. rewrite msum_insert, map_size_insert_None by done. lia.
  - eapply map_Forall_impl; [done|]. intros. by apply reservation_ok_account.
Qed.

(** The state after a reservation row is written. *)
Definition written (r : ReservationRow) (db : DB) : DB :=
  set_revisions (insert (rr_OrderID r, rr_Revision r) r)
    (set_reservations (insert (rr_OrderID r) r) db).

Definition old_hold (db : DB) (o v : string) : Z :=
  match reservations db !! o with Some r => hold_of v r | None => 0 end.

Lemma holds_written r db v :
  holds (written r db) v = holds db v - old_hold db (rr_OrderID r) v + hold_of v r.
Proof.
  unfold holds, old_hold, written. simpl.
  destruct (reservations db !! rr_OrderID r) as [old|] eqn:Hold.
  - by rewrite (msum_update _ _ _ old).
  - rewrite msum_insert by done. lia.
Qed.

(** No revision of the order reaches that of a newer row. *)
Lemma revision_free u d b db r :
  Pending u d b db →
  (∀ old, reservations db !! rr_OrderID r = Some old → rr_Revision old < rr_Revision r) →
  revisions db !! (rr_OrderID r, rr_Revision r) = None.
Proof.
  intros HP Hnew. destruct (revisions db !! _) as [r'|] eqn:Hr'; [exfalso|done].
  destruct (pn_revisions _ _ _ _ HP _ _ Hr') as (_&Hn&_&_&_&_&cur&Hcur&?). simpl in *.
  specialize (Hnew cur Hcur). lia.
Qed.

Lemma Pending_written u d b δ db r :
  Pending u d b db → reservations_check r = true →
  rr_ReservedAmount r <= max_int64 → rr_OriginalAmount r <= max_int64 →
  (∀ w, rr_RequesterID r = Some w → w ≠ EmptyString ∧ is_Some (accounts db !! w)) →
  (∀ a, rr_AssignmentID r = Some a →
    a ≠ EmptyString ∧ is_Some (assignments db !! (rr_OrderID r, a))) →
  (∀ old, reservations db !! rr_OrderID r = Some old → rr_Revision old < rr_Revision r) →
  (∀ v, hold_of v r = old_hold db (rr_OrderID r) v + at_user u δ v) →
  Pending u (d + δ) b (written r db).
Proof.
  intros HP Hcheck Hres Horig Hreq Hasg Hnew Hhold.
  pose proof (revision_free _ _ _ _ _ HP Hnew) as Hfree.
  pose proof (holds_written r db) as Hholds. destruct HP.
  split; try done.
  - intros v. change (reserved_of (written r db) v) with (reserved_of db v).
    rewrite Hholds, Hhold, pn_holds0. unfold at_user. case_decide; lia.
  - unfold written. simpl. intros o r'. destruct (decide (o = rr_OrderID r)) as [->|Hne].
    + rewrite lookup_insert_eq. intros [= <-]. split; [|done]. simpl. by rewrite lookup_insert_eq.
    + rewrite lookup_insert_ne by done. intros Hr'. destruct (pn_reservations0 o r' Hr').
      split; [|done]. simpl. rewrite lookup_insert_ne; [done|congruence].
  - intros k x Hx. destruct (pn_assignments0 k x Hx) as (?&?&?&?&?&?&?).
    split_and!; try done. by apply is_Some_insert.
  - unfold written. simpl. intros k r'. destruct (decide (k = (rr_OrderID r, rr_Revision r))) as [->|Hne].
    + rewrite lookup_insert_eq. intros [= <-]. split_and!; try done.
      exists r. simpl. by rewrite lookup_insert_eq.
    + rewrite lookup_insert_ne by done. intros Hr'.
      destruct (pn_revisions0 k r' Hr') as (?&?&?&?&?&?&cur&Hcur&?).
      split_and!; try done. simpl. destruct (decide (rr_OrderID r = k.1)) as [Heq|].
      * exists r. rewrite Heq, lookup_insert_eq. split; [done|].
        rewrite Heq in Hnew. specialize (Hnew cur Hcur). lia.
      * exists cur. by rewrite lookup_insert_ne.
  - intros id x Hx. destruct (pn_operations0 id x Hx) as [? Hrev]. split; [done|].
    intros n Hn. apply is_Some_insert. by apply Hrev.
Qed.

Lemma Pending_assignment u d b db k x :
  Pending u d b db → assignment_ok db k x → Pending u d b (set_assignments (insert k x) db).
Proof.
  intros [] Hx. split; try done; simpl.
  - by apply map_Forall_insert_2.
  - intros k' r Hr. destruct (pn_revisions0 k' r Hr) as (?&?&?&?&?&Hasg&?).
    split_and!; try done. intros a Ha. destruct (Hasg a Ha). split; [done|].
    by apply is_Some_insert.
Qed.

Lemma Pending_operation u d b db id x :
  Pending u d b db → operation_ok db id x → Pending u d b (set_operations (insert id x) db).
Proof. intros [] Hx. split; try done. simpl. by apply map_Forall_insert_2. Qed.

End invariant.
