(* ===== verification/CreditStatements.v ===== *)
(** * Credit: the statements under the invariant

    For every repository operation the service uses: it succeeds where the
    invariant and its caller's checks hold, up to BIGINT overflow, and its
    effect on the invariant. *)
From S2P Require Import Prelude.
From S2P Require Import GoLib.
From S2P Require Import CreditTypes.
From S2P Require Import CreditDB.
From S2P Require Import CreditAccount.
From S2P Require Import CreditReservation.
From S2P Require Import CreditInvariant.
From stdpp Require Import prelude gmap strings sorting.
From Stdlib Require Import ZArith Lia.

Local Open Scope Z_scope.

(** The one database error that the invariant does not rule out. *)
Definition overflow (e : Error) : Prop := e = numeric_out_of_range.

(** Tables that a ledger posting does not touch. *)
Definition same_orders (db db' : DB) : Prop :=
  reservations db' = reservations db ∧ revisions db' = revisions db
  ∧ assignments db' = assignments db ∧ operations db' = operations db.

Lemma same_orders_trans db1 db2 db3 :
  same_orders db1 db2 → same_orders db2 db3 → same_orders db1 db3.
Proof. intros (?&?&?&?) (?&?&?&?). split_and!; congruence. Qed.

Lemma same_orders_Coupled db db' : same_orders db db' → Coupled db → Coupled db'.
Proof.
  intros (Hr & _ & Ha & _) HC o r. rewrite Hr. intros Hor. specialize (HC o r Hor).
  unfold coupled_row in *. by rewrite Ha.
Qed.

(** The effect of a posting of [bd] and [rd] to account [v]. *)
Definition posted (db db' : DB) (v : string) (bd rd : Z) : Prop :=
  same_orders db db'
  ∧ (∀ w, balance_of db' w = balance_of db w + at_user v bd w)
  ∧ (∀ w, reserved_of db' w = reserved_of db w + at_user v rd w)
  ∧ (∀ w, is_Some (accounts db' !! w) ↔ is_Some (accounts db !! w)).

(** What a posting must satisfy to be accepted by the schema. *)
Definition posting_ok (db : DB) (p : Posting) : Prop :=
  ((po_BalanceDelta p = 0 ∧ po_ReservedDelta p = 0)
    ∨ ledger_deltas_check (ledger_row p 0 0) = true)
  ∧ po_Kind p ≠ account.Grant
  ∧ is_some (po_AssignmentID p)
    = orb (bool_decide (po_Kind p = account.Adjust)) (bool_decide (po_Kind p = account.Revert))
  ∧ ∃ o, po_OrderID p = Some o ∧ is_Some (reservations db !! o)
      ∧ ∀ a, po_AssignmentID p = Some a → is_Some (assignments db !! (o, a)).

Lemma is_some_true {A} (o : option A) : is_Some o → is_some o = true.
Proof. by intros [? ->]. Qed.

Section statements.
  Context `{UUIDv7, !UUIDv7Laws}.

Lemma new_v7_inj n m : new_v7 n = new_v7 m → n = m.
Proof.
  intros Heq. destruct (lt_eq_lt_dec n m) as [[Hlt|?]|Hlt]; [|done|];
    apply new_v7_mono in Hlt; lia.
Qed.

(** A fresh identifier collides with none in the ledger. *)
Lemma ledger_unique_fresh db e :
  (∀ i e', ledger db !! i = Some e' → lg_ID e' = new_v7 i) →
  lg_ID e = new_v7 (length (ledger db)) →
  (lg_Kind e = account.Grant → grants db (lg_UserID e) = 0) →
  ledger_unique_ok db e = true.
Proof.
  intros Hids Hid Hgrant. unfold ledger_unique_ok. apply forallb_forall. intros e' He'.
  apply list_elem_of_In, list_elem_of_lookup in He' as [i Hi].
  rewrite (Hids _ _ Hi), Hid.
  assert (i ≠ length (ledger db)) by (apply lookup_lt_Some in Hi; lia).
  assert ((new_v7 i =? new_v7 (length (ledger db))) = false) as ->.
  { apply Z.eqb_neq. by intros ?%new_v7_inj. }
  simpl. destruct (bool_decide (lg_Kind e = _)) eqn:Hk; [|done]. simpl.
  apply bool_decide_eq_true in Hk. specialize (Hgrant Hk).
  case_bool_decide as Hk'; [|done]. case_bool_decide as Hu; [|done].
  exfalso. unfold grants in Hgrant.
  apply list_elem_of_split_length in Hi as (l1 & l2 & Hl & _).
  rewrite Hl, lsum_app in Hgrant. simpl in Hgrant.
  assert (∀ l, 0 <= lsum (is_grant (lg_UserID e)) l) as Hpos.
  { induction l; simpl; [lia|]. unfold is_grant at 1. case_decide; lia. }
  pose proof (Hpos l1). pose proof (Hpos l2). unfold is_grant in Hgrant at 2.
  rewrite decide_True in Hgrant by done. lia.
Qed.

Lemma InsertLedgerEntry_ok e c db :
  ledger_entries_check e = true → ledger_unique_ok db e = true →
  ledger_references_ok db e = true →
  InsertLedgerEntry e c db = Ok (tt, set_ledger (λ l, l ++ [e]) db).
Proof.
  intros H1 H2 H3. unfold InsertLedgerEntry, ensure, gets, modify, mbind, st_mbind.
  rewrite H1. simpl. rewrite H2. simpl. by rewrite H3.
Qed.

(** The account half of a posting. *)
Lemma wp_ApplyAccountDelta c db v a bd rd Q :
  accounts db !! v = Some a → account_ok v a →
  0 <= ac_Reserved a + rd <= ac_Balance a + bd →
  (∀ row, account_ok v row → ac_Balance row = ac_Balance a + bd →
    ac_Reserved row = ac_Reserved a + rd → Q (Some row) (set_accounts (insert v row) db)) →
  wp (ApplyAccountDelta v bd rd) c db Q overflow.
Proof.
  intros Ha (Hid & ? & ? & ?) Hrange HQ.
  unfold ApplyAccountDelta. apply wp_bind, wp_gets. rewrite Ha.
  unfold bigint_add, is_int64. repeat wp_step; try done.
  - repeat match goal with Hb : bool_decide _ = true |- _ => apply bool_decide_eq_true in Hb end.
    apply HQ; [|done..]. unfold account_ok. simpl. lia || (split_and!; try done; lia).
  - exfalso. unfold accounts_check in *. simpl in *. lia.
Qed.

(** The ledger half of a posting, after the account row has changed. *)
Lemma posting_entry_ok u d b db p row now :
  Pending u d b db → is_Some (accounts db !! po_UserID p) → posting_ok db p →
  ledger_deltas_check (ledger_row p 0 0) = true →
  (po_BalanceDelta p =? 0) && (po_ReservedDelta p =? 0) = false →
  let db1 := set_accounts (insert (po_UserID p) row) db in
  let e := ledger_row p (new_v7 (length (ledger db))) now in
  ledger_entries_check e = true ∧ ledger_unique_ok db1 e = true ∧ ledger_references_ok db1 e = true.
Proof.
  intros HP Ha (_ & Hkind & Hasg & o & Ho & Hres & Has) Hcheck Hzero. simpl. split_and!.
  - unfold ledger_entries_check, ledger_deltas_check in *. simpl in *.
    rewrite Hcheck, Ho, Hasg, bool_decide_false, !eqb_reflx by done. simpl.
    by rewrite <- negb_andb, Hzero.
  - apply ledger_unique_fresh; [apply (pn_ids _ _ _ _ HP)|done|done].
  - unfold ledger_references_ok. simpl. rewrite Ho, lookup_insert_eq. simpl.
    rewrite is_some_true by done. simpl.
    destruct (po_AssignmentID p) as [a|]; [|done]. apply is_some_true. by apply Has.
Qed.

Lemma wp_post_one u d b c db now p :
  Pending u d b db → is_Some (accounts db !! po_UserID p) →
  0 <= reserved_of db (po_UserID p) + po_ReservedDelta p
    <= balance_of db (po_UserID p) + po_BalanceDelta p →
  (po_ReservedDelta p ≠ 0 → po_UserID p = u) →
  posting_ok db p →
  wp (post_one now p) c db
    (λ _ db', Pending u (d - po_ReservedDelta p) (b - po_BalanceDelta p) db'
              ∧ posted db db' (po_UserID p) (po_BalanceDelta p) (po_ReservedDelta p)) overflow.
Proof.
  intros HP [a Ha] Hrange Hu Hok.
  unfold post_one. destruct ((po_BalanceDelta p =? 0) && (po_ReservedDelta p =? 0)) eqn:Hzero.
  - apply wp_ret. assert (po_BalanceDelta p = 0) as -> by lia.
    assert (po_ReservedDelta p = 0) as -> by lia. rewrite !Z.sub_0_r.
    split; [done|]. split_and!; intros; try done; rewrite at_user_0; lia.
  - assert (ledger_deltas_check (ledger_row p 0 0) = true) as Hcheck.
    { destruct Hok as ([[??]|?]&_); [lia|done]. }
    destruct (account_of _ _ _ _ _ _ HP Ha) as (Hba & Hra & Haok).
    rewrite Hba, Hra in Hrange. apply wp_bind.
    eapply wp_ApplyAccountDelta; [done..|]. intros row Hrow Hrb Hrr.
    apply wp_bind, wp_ret, wp_bind, wp_gets.
    assert (is_Some (accounts db !! po_UserID p)) by eauto.
    destruct (posting_entry_ok u d b db p row now) as (He1 & He2 & He3); try done.
    unfold wp. simpl. rewrite InsertLedgerEntry_ok by done. split.
    + apply (Pending_posted u d b db (po_UserID p) a row
               (ledger_row p (new_v7 (length (ledger db))) now)); try done.
      by destruct Hok as (_&?&_).
    + split; [done|]. split_and!; intros w.
      * rewrite balance_set_ledger, balance_insert. unfold at_user. case_decide; subst; lia.
      * rewrite reserved_set_ledger, reserved_insert. unfold at_user. case_decide; subst; lia.
      * simpl. rewrite lookup_insert_is_Some'. split; [intros [<-|?]; eauto|eauto].
Qed.

(** ** Opening and locking accounts *)

Lemma set_accounts_twice v r1 r2 db :
  set_accounts (insert v r2) (set_accounts (insert v r1) db) = set_accounts (insert v r2) db.
Proof. unfold set_accounts. simpl. by rewrite insert_insert_eq. Qed.

(** Only accounts may have been opened. *)
Definition grown (db db' : DB) : Prop := same_orders db db' ∧ accounts db ⊆ accounts db'.

Lemma grown_refl db : grown db db.
Proof. done. Qed.
Lemma grown_trans db1 db2 db3 : grown db1 db2 → grown db2 db3 → grown db1 db3.
Proof. intros [??] [??]. split; [by eapply same_orders_trans|by etrans]. Qed.

Lemma grown_balances db db' v :
  grown db db' → is_Some (accounts db !! v) →
  balance_of db' v = balance_of db v ∧ reserved_of db' v = reserved_of db v.
Proof.
  intros [_ Hsub] [a Ha]. unfold balance_of, reserved_of.
  by rewrite Ha, (lookup_weaken _ _ _ _ Ha Hsub).
Qed.

(** The grant of a new account, run from the empty row. *)
Lemma grant_runs c db v now row1 :
  ac_UserID row1 = v → ac_Balance row1 = 0 → ac_Reserved row1 = 0 → ac_Revision row1 = 1 →
  (∀ i e, ledger db !! i = Some e → lg_ID e = new_v7 i) → grants db v = 0 →
  ∃ row2, account_ok v row2 ∧ ac_Balance row2 = account.StartingCredits ∧ ac_Reserved row2 = 0 ∧
    Post now [grant_posting v] c (set_accounts (insert v row1) db)
    = Ok (tt, set_ledger (λ l, l ++ [ledger_row (grant_posting v) (new_v7 (length (ledger db))) now])
                (set_accounts (insert v row2) db)).
Proof.
  intros Hid Hb Hr Hrev Hids Hgrants.
  exists {| ac_UserID := v; ac_Balance := account.StartingCredits; ac_Reserved := 0;
            ac_Revision := 2; ac_CreatedAt := ac_CreatedAt row1;
            ac_UpdatedAt := stored_time (current_timestamp c) |}.
  split; [unfold account_ok, account.StartingCredits; simpl; split_and!; done|].
  split; [done|]. split; [done|].
  unfold Post, for_each, post_one, grant_posting, ApplyAccountDelta, bigint_add, ensure, require,
    gets, modify, ask, mbind, st_mbind, mret, st_mret. simpl.
  rewrite lookup_insert_eq. simpl. rewrite Hb, Hr, Hrev, Hid. simpl.
  rewrite set_accounts_twice.
  rewrite InsertLedgerEntry_ok; [done|done| |].
  - apply ledger_unique_fresh; done.
  - unfold ledger_references_ok. simpl. by rewrite lookup_insert_eq.
Qed.

Lemma Open_existing c db now v a :
  accounts db !! v = Some a → Open now v c db = Ok (a, db).
Proof.
  intros Ha. unfold Open, InsertAccount, LockAccount, gets, require, mbind, st_mbind, mret, st_mret.
  rewrite Ha. simpl. by rewrite Ha.
Qed.

Lemma Open_new u d b c db now v :
  Pending u d b db → accounts db !! v = None →
  ∃ row, account_ok v row ∧ ac_Balance row = account.StartingCredits ∧ ac_Reserved row = 0 ∧
    Open now v c db
    = Ok (row, set_ledger (λ l, l ++ [ledger_row (grant_posting v) (new_v7 (length (ledger db))) now])
                 (set_accounts (insert v row) db)).
Proof.
  intros HP Ha. unfold Open, InsertAccount, LockAccount.
  set (row1 := {| ac_UserID := v |}).
  destruct (grant_runs c db v now row1) as (row2 & Hok & Hb & Hr & Hrun); try done.
  { apply (pn_ids _ _ _ _ HP). }
  { by rewrite (pn_grants _ _ _ _ HP), Ha. }
  exists row2. split_and!; try done.
  unfold gets, require, modify, mbind, st_mbind, mret, st_mret in *. rewrite Ha. simpl. fold row1.
  rewrite Hrun. simpl. by rewrite lookup_insert_eq.
Qed.

Lemma wp_Open u d b c db now v :
  Pending u d b db →
  wp (Open now v) c db
    (λ a db', Pending u d b db' ∧ grown db db' ∧ accounts db' !! v = Some a) (λ _, False).
Proof.
  intros HP. unfold wp. destruct (accounts db !! v) as [a|] eqn:Ha.
  - by rewrite (Open_existing _ _ _ _ a).
  - destruct (Open_new u d b c db now v HP Ha) as (row & Hok & Hb & Hr & ->). split; [|split].
    + by apply (Pending_opened u d b db v row
                 (ledger_row (grant_posting v) (new_v7 (length (ledger db))) now)).
    + split; [done|]. simpl. by apply insert_subseteq.
    + simpl. by rewrite lookup_insert_eq.
Qed.

Lemma elem_of_compact x l : x ∈ compact l ↔ x ∈ l.
Proof.
  induction l as [|y l IH]; [done|]. destruct l as [|z l]; [done|].
  change (compact (y :: z :: l)) with
    (if decide (y = z) then compact (z :: l) else y :: compact (z :: l)).
  case_decide; subst; rewrite ?(elem_of_cons (compact _)), IH, !elem_of_cons; tauto.
Qed.

(** The locked accounts are the rows of the database. *)
Definition locked_rows (out : gmap string account.Account) (db : DB) : Prop :=
  ∀ v A, out !! v = Some A → ∃ a, accounts db !! v = Some a ∧ A = FromRow a.

Lemma wp_lock_each u d b c now ids : ∀ out db,
  Pending u d b db → locked_rows out db →
  wp (lock_each now ids out) c db
    (λ out' db', Pending u d b db' ∧ grown db db' ∧ locked_rows out' db'
       ∧ ∀ v, v ∈ ids ∨ is_Some (out !! v) → is_Some (out' !! v)) (λ _, False).
Proof.
  induction ids as [|v ids IH]; intros out db HP Hout; simpl.
  - apply wp_ret. split_and!; try done. intros w [?|?]; [set_solver|done].
  - apply wp_bind. eapply wp_mono; [by apply wp_Open| |done].
    intros a db1 (HP1 & Hg1 & Ha). eapply wp_mono; [apply IH; [done|]| |done].
    + intros w A. destruct (decide (w = v)) as [->|].
      * rewrite lookup_insert_eq. intros [= <-]. eauto.
      * rewrite lookup_insert_ne by done. intros HA. destruct (Hout w A HA) as (a' & Ha' & ->).
        exists a'. split; [|done]. destruct Hg1 as [_ Hsub]. by eapply lookup_weaken.
    + intros out' db' (HP' & Hg' & Hout' & Hin). split_and!; try done.
      * by eapply grown_trans.
      * intros w Hw. apply Hin. rewrite elem_of_cons in Hw.
        destruct Hw as [[->|?]|?]; [right; by rewrite lookup_insert_eq|by left|].
        right. by apply lookup_insert_is_Some'; right.
Qed.

Lemma wp_LockAccounts u d b c db now users :
  Pending u d b db →
  wp (tx_LockAccounts now users) c db
    (λ out db', Pending u d b db' ∧ grown db db' ∧ ∀ v, v ∈ users →
       is_Some (accounts db' !! v)
       ∧ available_of out v = balance_of db' v - reserved_of db' v) (λ _, False).
Proof.
  intros HP. unfold tx_LockAccounts. eapply wp_mono; [apply wp_lock_each; [done|done]| |done].
  intros out db' (HP' & Hg & Hout & Hin). split_and!; try done. intros v Hv.
  destruct (Hin v) as [A HA].
  { left. rewrite elem_of_compact, merge_sort_Permutation. done. }
  destruct (Hout v A HA) as (a & Ha & ->). split; [by rewrite Ha|].
  destruct (account_of _ _ _ _ _ _ HP' Ha) as (-> & -> & _ & ? & ? & _).
  unfold available_of. rewrite HA. simpl. unfold account.Available. simpl.
  apply sub64_id. int64_lia.
Qed.

(** ** Writing reservations *)

Definition inserted_row (r : Reservation) : ReservationRow := store_times (row_of r (UpdatedAt r)).

Lemma tx_InsertReservation_ok u d b c db r :
  Pending u d b db → reservations db !! OrderID r = None →
  reservations_check (inserted_row r) = true →
  reservation_references_ok db (inserted_row r) = true →
  tx_InsertReservation r c db = Ok (fromRow (inserted_row r), written (inserted_row r) db).
Proof.
  intros HP Hnone Hcheck Hrefs.
  assert (revisions db !! (OrderID r, Revision r) = None) as Hfree.
  { apply (revision_free u d b db (inserted_row r)); [done|]. simpl. congruence. }
  unfold tx_InsertReservation, InsertReservation, write_reservation, record_reservation_revision,
    ensure, gets, modify, mbind, st_mbind, mret, st_mret. fold (inserted_row r).
  simpl. rewrite Hnone. simpl. rewrite Hcheck. simpl. rewrite Hrefs. simpl. by rewrite Hfree.
Qed.

(** The row an update writes over [old] at CURRENT_TIMESTAMP. *)
Definition next_row (c : Clocks) (old : ReservationRow) (next : Reservation) : ReservationRow :=
  store_times (updated_row old (row_of next (UpdatedAt next)) (rr_Revision old + 1)
                 (current_timestamp c)).

Lemma wp_update u d b c db old current next Q :
  Pending u d b db → reservations db !! OrderID next = Some old →
  Revision current = rr_Revision old → terminal (rr_Status old) = false →
  reservations_check (next_row c old next) = true →
  reservation_references_ok db (next_row c old next) = true →
  Q (fromRow (next_row c old next)) (written (next_row c old next) db) →
  wp (update current next) c db Q overflow.
Proof.
  intros HP Hold Hrev Hopen Hcheck Hrefs HQ.
  assert (revisions db !! (OrderID next, rr_Revision old + 1) = None) as Hfree.
  { apply (revision_free u d b db (next_row c old next)); [done|]. simpl. intros old'.
    rewrite Hold. intros [= <-]. lia. }
  unfold update, tx_UpdateReservation, UpdateReservation. rewrite Hrev.
  apply wp_bind, wp_bind, wp_gets. simpl. rewrite Hold, Z.eqb_refl.
  unfold bigint_add. wp_step. wp_step. wp_step; [|done]. wp_step. rewrite Hopen.
  apply wp_bind, wp_ret, wp_bind, wp_ask. fold (next_row c old next).
  unfold wp, write_reservation, record_reservation_revision, ensure, gets, modify, require,
    mbind, st_mbind, mret, st_mret. simpl.
  rewrite Hcheck. simpl. rewrite Hrefs. simpl. rewrite Hfree. simpl. done.
Qed.

(** ** Assignments and operations *)

Lemma tx_InsertAssignment_ok a c db parent :
  reservations db !! asg_OrderID a = Some parent →
  assignments db !! (asg_OrderID a, asg_AssignmentID a) = None →
  (asg_Status a = Applied → no_applied_assignment db (asg_OrderID a) = true) →
  let row := {| as_OrderID := asg_OrderID a; as_AssignmentID := asg_AssignmentID a;
                as_CourierID := optionalID (asg_CourierID a);
                as_OfferAmount := if decide (asg_CourierID a = EmptyString) then None else Some (asg_OfferAmount a);
                as_Status := asg_Status a; as_CreatedAt := stored_time (asg_CreatedAt a);
                as_RevertedAt := stored_time <$> asg_RevertedAt a |} in
  assignments_check row = true →
  tx_InsertAssignment a c db
  = Ok (tt, set_assignments (insert (asg_OrderID a, asg_AssignmentID a) row) db).
Proof.
  intros Hparent Hnone Hfree row Hcheck.
  unfold tx_InsertAssignment, InsertAssignment, ensure, gets, modify, mbind, st_mbind. simpl.
  fold row. rewrite Hcheck. simpl. rewrite Hnone. simpl.
  case_bool_decide as Hst; simpl; rewrite ?Hfree by done; simpl; by rewrite Hparent.
Qed.

Definition reverted_row (x : AssignmentRow) (now : Time) : AssignmentRow := {|
  as_OrderID := as_OrderID x; as_AssignmentID := as_AssignmentID x;
  as_CourierID := as_CourierID x; as_OfferAmount := as_OfferAmount x; as_Status := Reverted;
  as_CreatedAt := as_CreatedAt x; as_RevertedAt := Some (stored_time now) |}.

Lemma reverted_row_ok db k x now :
  assignment_ok db k x → as_Status x = Applied → assignment_ok db k (reverted_row x now).
Proof.
  intros (?&?&?&Hcheck&?&?&?) Happlied. split_and!; try done.
  unfold assignments_check in *. simpl in *. rewrite Happlied in Hcheck.
  by destruct (as_RevertedAt x), (as_CourierID x), (as_OfferAmount x).
Qed.

Lemma tx_RevertAssignment_ok o a x now c db :
  assignments db !! (o, a) = Some x → as_Status x = Applied →
  assignments_check (reverted_row x now) = true →
  tx_RevertAssignment o a now c db
  = Ok (tt, set_assignments (insert (o, a) (reverted_row x now)) db).
Proof.
  intros Hx Happlied Hcheck.
  unfold tx_RevertAssignment, RevertAssignment, ensure, gets, modify, mbind, st_mbind, mret,
    st_mret. rewrite Hx, decide_True by done. fold (reverted_row x now). by rewrite Hcheck.
Qed.

Lemma InsertOperation_ok id x c db :
  operations db !! id = None → operation_ok db id x →
  InsertOperation id x c db = Ok (tt, set_operations (insert id x) db).
Proof.
  intros Hnone [Hcheck Hrev]. unfold InsertOperation, ensure, gets, modify, mbind, st_mbind.
  rewrite Hcheck. simpl. rewrite Hnone. simpl.
  destruct (or_Revision x) as [n|]; [|done]. rewrite is_some_true by auto. done.
Qed.

End statements.
