(* ===== verification/CreditOperations.v ===== *)
(** * Credit: the reservation operations preserve the invariant

    Each mutation, the settlement and the opening of accounts, run from a state
    that satisfies the invariant, ends in such a state or fails with an error
    its contract documents (or BIGINT overflow): no constraint, foreign key,
    unique index or trigger of the schema ever rejects what the service
    writes. *)
From S2P Require Import Prelude.
From S2P Require Import GoLib.
From S2P Require Import CreditTypes.
From S2P Require Import CreditDB.
From S2P Require Import CreditAccount.
From S2P Require Import CreditReservation.
From S2P Require Import CreditOutcome.
From S2P Require Import CreditHistory.
From S2P Require Import CreditInvariant.
From S2P Require Import CreditStatements.
From stdpp Require Import prelude gmap strings sorting.
From Stdlib Require Import ZArith Lia.

Local Open Scope Z_scope.

(** ** What the CHECK constraints say of a row in each state *)

Lemma reservations_check_split r :
  reservations_check r = true ↔
  reservations_amounts_check r = true ∧ reservations_tombstone_check r = true
  ∧ reservations_held_check r = true ∧ reservations_assigned_check r = true
  ∧ reservations_terminal_check r = true ∧ reservations_released_check r = true
  ∧ reservations_release_reason_check r = true ∧ reservations_settled_check r = true
  ∧ reservations_completion_check r = true.
Proof. unfold reservations_check. rewrite !andb_true_iff. tauto. Qed.

(** Turn boolean conjunctions of hypotheses into propositions. *)
Ltac bool_hyps := repeat match goal with
  | Hb : (_ && _) = true |- _ => apply andb_true_iff in Hb as [??]
  | Hb : negb (is_some _) = true |- _ => apply negb_is_some in Hb
  | Hb : is_some _ = true |- _ => apply is_some_iff in Hb
  | Hb : (_ =? _) = true |- _ => apply Z.eqb_eq in Hb
  | Hb : (_ <? _) = true |- _ => apply Z.ltb_lt in Hb
  | Hb : (_ <=? _) = true |- _ => apply Z.leb_le in Hb
  | Hb : bool_decide _ = true |- _ => apply bool_decide_eq_true in Hb
  | Hb : eqb _ _ = true |- _ => apply eqb_prop in Hb
  end.

Lemma open_row_inv r :
  reservations_check r = true → terminal (rr_Status r) = false →
  rr_SettlementOutcome r = None ∧ is_Some (rr_RequesterID r) ∧ 0 < rr_ReservedAmount r
  ∧ 0 <= rr_OriginalAmount r ∧ 0 < rr_Revision r ∧ rr_ReleaseReason r = None
  ∧ (rr_Status r = Held → 0 < rr_OriginalAmount r ∧ rr_ReservedAmount r = rr_OriginalAmount r
      ∧ rr_AssignmentID r = None).
Proof.
  rewrite reservations_check_split. intros (Ham & Htomb & Hheld & Has & Hterm & Hrel & _) Ht.
  unfold reservations_amounts_check, reservations_tombstone_check, reservations_held_check,
    reservations_assigned_check, reservations_terminal_check, reservations_released_check in *.
  rewrite Ht in Hterm. bool_hyps. destruct (rr_Status r); try done; simpl in *; bool_hyps;
    rewrite ?orb_false_r in *; bool_hyps;
    (destruct (rr_ReleaseReason r); [done|]); split_and!; try done; lia.
Qed.

Lemma terminal_row_inv r :
  reservations_check r = true → terminal (rr_Status r) = true →
  rr_ReservedAmount r = 0 ∧ is_Some (rr_SettlementOutcome r) ∧ 0 < rr_Revision r
  ∧ (rr_Status r = Settled → is_Some (rr_AssignmentID r) ∧ is_Some (rr_RequesterID r)).
Proof.
  rewrite reservations_check_split. intros (Ham & Htomb & _ & _ & Hterm & _ & _ & Hset & _) Ht.
  unfold reservations_amounts_check, reservations_tombstone_check, reservations_terminal_check,
    reservations_settled_check in *.
  rewrite Ht in Hterm. bool_hyps. destruct (rr_Status r); try done; simpl in *; bool_hyps;
    rewrite ?orb_false_r in *; bool_hyps; split_and!; done.
Qed.

(** The row's settlement columns are all NULL. *)
Definition unsettled (r : ReservationRow) : Prop :=
  rr_ReleaseReason r = None ∧ rr_SettlementOutcome r = None ∧ rr_PaidToCourier r = None
  ∧ rr_ReturnedToRequester r = None ∧ rr_PickedUpAt r = None ∧ rr_DeliveredAt r = None
  ∧ rr_DeliveryDuration r = None ∧ rr_SettledAt r = None.

Ltac unfold_checks := unfold reservations_amounts_check, reservations_tombstone_check,
  reservations_held_check, reservations_assigned_check, reservations_terminal_check,
  reservations_released_check, reservations_release_reason_check, reservations_settled_check,
  reservations_completion_check, opt_ge0.

Lemma open_row_check r :
  unsettled r → is_Some (rr_RequesterID r) → 0 < rr_Revision r → 0 <= rr_OriginalAmount r →
  match rr_Status r with
  | Held => 0 < rr_OriginalAmount r ∧ rr_ReservedAmount r = rr_OriginalAmount r ∧ rr_AssignmentID r = None
  | Assigned => 0 < rr_ReservedAmount r ∧ is_Some (rr_AssignmentID r)
  | _ => False
  end → reservations_check r = true.
Proof.
  intros (Hu1 & Hu2 & Hu3 & Hu4 & Hu5 & Hu6 & Hu7 & Hu8) [req Hreq] Hrev Horig Hst.
  apply reservations_check_split. unfold_checks.
  rewrite ?Hu1, ?Hu2, ?Hu3, ?Hu4, ?Hu5, ?Hu6, ?Hu7, ?Hu8, Hreq.
  destruct (rr_Status r); try done; simpl.
  - destruct Hst as (?&->&->). split_and!; simpl; try done; lia.
  - destruct Hst as (?&[a ->]). split_and!; simpl; try done; lia.
Qed.

Lemma released_row_check r reason returned at_ :
  rr_Status r = Released → rr_ReleaseReason r = Some reason → valid reason = true →
  rr_SettlementOutcome r = Some OutcomeReleased → rr_PaidToCourier r = Some 0 →
  rr_ReturnedToRequester r = Some returned → 0 <= returned → rr_SettledAt r = Some at_ →
  rr_PickedUpAt r = None → rr_DeliveredAt r = None → rr_DeliveryDuration r = None →
  rr_ReservedAmount r = 0 → 0 <= rr_OriginalAmount r → 0 < rr_Revision r →
  is_Some (rr_RequesterID r) ∨ rr_OriginalAmount r = 0 →
  reservations_check r = true.
Proof.
  intros Hst Hre Hvalid Hout Hpaid Hret Hret0 Hat Hp Hd Hi Hres Horig Hrev Hreq.
  apply reservations_check_split. unfold_checks.
  rewrite ?Hst, ?Hre, ?Hout, ?Hpaid, ?Hret, ?Hat, ?Hp, ?Hd, ?Hi, ?Hres. simpl.
  split_and!; try done; try lia.
  destruct Hreq as [[req ->]| ->]; [done|]. by rewrite orb_true_r.
Qed.

Definition completion_ok (r : ReservationRow) (o : SettlementOutcome) : Prop :=
  match o with
  | OutcomeCompleted => ∃ p d i, rr_PickedUpAt r = Some p ∧ rr_DeliveredAt r = Some d
      ∧ rr_DeliveryDuration r = Some i ∧ p <= d ∧ 0 < interval_us i
  | OutcomeCancelledAfterPickup =>
      rr_PickedUpAt r = None ∧ rr_DeliveredAt r = None ∧ rr_DeliveryDuration r = None
  | OutcomeReleased => False
  end.

Lemma settled_row_check r o paid returned at_ :
  rr_Status r = Settled → rr_ReleaseReason r = None → rr_SettlementOutcome r = Some o →
  completion_ok r o → rr_PaidToCourier r = Some paid → 0 <= paid →
  rr_ReturnedToRequester r = Some returned → 0 <= returned → rr_SettledAt r = Some at_ →
  rr_ReservedAmount r = 0 → 0 <= rr_OriginalAmount r → 0 < rr_Revision r →
  is_Some (rr_RequesterID r) → is_Some (rr_AssignmentID r) → reservations_check r = true.
Proof.
  intros Hst Hre Hout Hcomp Hpaid ? Hret ? Hat Hres Horig Hrev [req Hreq] [a Ha].
  apply reservations_check_split. unfold_checks.
  rewrite ?Hst, ?Hre, ?Hout, ?Hpaid, ?Hret, ?Hat, ?Hres, ?Hreq, ?Ha. simpl.
  destruct o; simpl in Hcomp; [done| |].
  - destruct Hcomp as (p & d & i & -> & -> & -> & ? & ?). simpl. split_and!; try done; lia.
  - destruct Hcomp as (-> & -> & ->). simpl. split_and!; try done; lia.
Qed.

(** ** Shared steps *)

(** The error is one of the listed ones. *)
Ltac documented := left; repeat first [apply list_elem_of_here | apply list_elem_of_further].

Section operations.
  Context `{UUID, UUIDv7, !UUIDv7Laws, Digest}.

Lemma stored_row u d b db o r :
  Pending u d b db → reservations db !! o = Some r →
  rr_OrderID r = o ∧ reservations_check r = true ∧ rr_ReservedAmount r <= max_int64
  ∧ rr_OriginalAmount r <= max_int64
  ∧ (∀ a, rr_AssignmentID r = Some a → a ≠ EmptyString ∧ is_Some (assignments db !! (o, a)))
  ∧ (∀ v, rr_RequesterID r = Some v → v ≠ EmptyString ∧ is_Some (accounts db !! v)).
Proof.
  intros HP Hr. destruct (pn_reservations _ _ _ _ HP o r Hr) as [Hrev Hreq].
  destruct (pn_revisions _ _ _ _ HP _ _ Hrev) as (?&_&?&?&?&?&_). done.
Qed.

Lemma optionalID_some v : v ≠ EmptyString → optionalID v = Some v.
Proof. intros. unfold optionalID. by rewrite decide_False. Qed.

Lemma optionalID_idString o :
  (∀ v, o = Some v → v ≠ EmptyString) → optionalID (idString o) = o.
Proof. destruct o as [v|]; simpl; [|done]. intros Hv. apply optionalID_some. by apply Hv. Qed.

(** Posting a single entry. *)
Lemma wp_tx_Post_single u d b c db now e :
  let p := posting_of e in
  Pending u d b db → is_Some (accounts db !! ent_UserID e) →
  0 <= reserved_of db (ent_UserID e) + ent_ReservedDelta e
    <= balance_of db (ent_UserID e) + ent_BalanceDelta e →
  (ent_ReservedDelta e ≠ 0 → ent_UserID e = u) → posting_ok db p →
  wp (tx_Post now [e]) c db
    (λ _ db', Pending u (d - ent_ReservedDelta e) (b - ent_BalanceDelta e) db'
              ∧ posted db db' (ent_UserID e) (ent_BalanceDelta e) (ent_ReservedDelta e)) overflow.
Proof.
  intros p HP Ha Hrange Hu Hok. unfold tx_Post, Post. simpl. apply wp_bind.
  eapply wp_mono; [apply (wp_post_one u d b c db now p); done| |done].
  intros [] db' Hpost. apply wp_ret. done.
Qed.

(** Changing one order's row and assignments keeps the others coupled. *)
Lemma Coupled_change db db' o r :
  Coupled db → reservations db' = <[o := r]> (reservations db) →
  (∀ o' a, o' ≠ o → assignments db' !! (o', a) = assignments db !! (o', a)) →
  coupled_row db' o r → Coupled db'.
Proof.
  intros HC Hres Hasg Hrow o' r'. rewrite Hres. destruct (decide (o' = o)) as [->|Hne].
  - rewrite lookup_insert_eq. by intros [= <-].
  - rewrite lookup_insert_ne by done. intros Hr'. specialize (HC o' r' Hr').
    unfold coupled_row in *. setoid_rewrite Hasg; done.
Qed.

Lemma hold_of_requester v r : rr_RequesterID r = Some v → hold_of v r = rr_ReservedAmount r.
Proof. intros Hv. unfold hold_of. by rewrite decide_True. Qed.

(** A written row moves its requester's holds by the change of its amount. *)
Lemma hold_change db o old r v :
  reservations db !! o = Some old → rr_RequesterID old = Some v → rr_RequesterID r = Some v →
  ∀ w, hold_of w r = old_hold db o w + at_user v (rr_ReservedAmount r - rr_ReservedAmount old) w.
Proof.
  intros Hold Hv Hv' w. unfold old_hold, hold_of, at_user. rewrite Hold, Hv, Hv'.
  repeat case_decide; simplify_eq; lia.
Qed.

Lemma hold_insert db o r v :
  reservations db !! o = None → rr_RequesterID r = Some v →
  ∀ w, hold_of w r = old_hold db o w + at_user v (rr_ReservedAmount r) w.
Proof.
  intros Hold Hv w. unfold old_hold, hold_of, at_user. rewrite Hold, Hv.
  repeat case_decide; simplify_eq; lia.
Qed.

(** What a mutation leaves behind: the invariant, no recorded operation, and
    the returned reservation as the stored revision. *)
Definition applied (o : string) (db : DB) (out : mutation_result) (db' : DB) : Prop :=
  Inv db' ∧ operations db' = operations db
  ∧ match out with
    | RInsufficient => True
    | RReservation r => ∃ row, r = fromRow row ∧ revisions db' !! (o, rr_Revision row) = Some row
    end.

(** A single applied assignment per order. *)
Lemma no_applied_held db o r :
  Coupled db → reservations db !! o = Some r → rr_AssignmentID r = None →
  no_applied_assignment db o = true.
Proof.
  intros HC Hr Hnone. unfold no_applied_assignment. apply bool_decide_eq_true.
  intros [o' a] x Hx. simpl. intros -> Happlied.
  destruct (HC o r Hr) as [Hone _]. specialize (Hone a x Hx Happlied). congruence.
Qed.

(** ** Reserve *)

Lemma wp_reserve_apply o req n c db now :
  o ≠ EmptyString → req ≠ EmptyString → 0 < n <= max_int64 → Inv db →
  wp (reserve_apply o req n now) c db (applied o db)
    (λ e, e = ErrReservationReleased ∨ e = ErrIdempotencyConflict ∨ overflow e).
Proof.
  intros Ho Hreq Hn [HP HC]. unfold reserve_apply, tx_Reservation, LockReservation.
  apply wp_bind, wp_bind, wp_gets, wp_ret. destruct (reservations db !! o) as [old|] eqn:Hold; simpl.
  { apply wp_throw. case_decide; auto. }
  apply wp_bind. eapply wp_mono; [by apply (wp_LockAccounts EmptyString 0 0)| |done].
  intros locked db1 (HP1 & [Hsame Hsub] & Hlocked).
  destruct (Hlocked req) as [Hacc Havail]; [by apply list_elem_of_singleton|]. rewrite Havail.
  pose proof Hsame as (Hr & Hv & Has & Hops).
  pose proof (same_orders_Coupled _ _ Hsame HC) as HC1.
  wp_step; [by apply wp_ret|].
  set (r := {| OrderID := o |}). set (row := inserted_row r).
  assert (rr_RequesterID row = Some req) as Hrow by by apply optionalID_some.
  assert (reservations_check row = true) as Hcheck.
  { apply open_row_check; rewrite ?Hrow; try done; simpl; try lia. split_and!; done || lia. }
  apply wp_bind. unfold wp at 1.
  rewrite (tx_InsertReservation_ok EmptyString 0 0); [|done|by rewrite Hr|done|].
  2: { fold row. unfold reservation_references_ok. rewrite Hrow. simpl.
       by rewrite is_some_true. }
  fold row. apply wp_bind.
  assert (Pending req (0 + n) 0 (written row db1)) as HP2.
  { apply Pending_written; try done.
    - by apply (Pending_rename EmptyString).
    - simpl. lia.
    - simpl. lia.
    - rewrite Hrow. by intros w [= <-].
    - intros old'. simpl. rewrite Hr. congruence.
    - apply hold_insert; [by simpl; rewrite Hr|done]. }
  eapply wp_mono; [apply (wp_tx_Post_single req (0 + n) 0); try done| |auto].
  - simpl. change (reserved_of (written row db1) req) with (reserved_of db1 req).
    change (balance_of (written row db1) req) with (balance_of db1 req).
    destruct Hacc as [a Ha]. destruct (account_of _ _ _ _ _ _ HP1 Ha) as (?&?&_&?&_). lia.
  - split; [right; unfold ledger_deltas_check; simpl; lia|]. split; [done|]. split; [done|]. exists o. simpl.
    rewrite optionalID_some by done. split; [done|].
    split; [by rewrite lookup_insert_eq|done].
  - intros [] db' (HP' & (Hr' & Hv' & Has' & Hops') & _ & _ & _). apply wp_ret.
    simpl in HP'. replace (0 + n - n) with 0 in HP' by lia.
    split; [split|split].
    + by apply (Pending_rename req).
    + apply (Coupled_change db1 db' o row); try done.
      * by rewrite Has'.
      * split; [|done]. intros a x. rewrite Has'. intros Hx _. exfalso.
        destruct (pn_assignments _ _ _ _ HP1 _ _ Hx) as (_&_&_&_&_&_&Hpar).
        simpl in Hpar. rewrite Hr, Hold in Hpar. by destruct Hpar.
    + by rewrite Hops'.
    + exists row. split; [done|]. rewrite Hv'. simpl. by rewrite lookup_insert_eq.
Qed.

(** ** Moving a hold: an update and its posting *)

Lemma hold_le_reserved u b db o r v :
  Pending u 0 b db → reservations db !! o = Some r → rr_RequesterID r = Some v →
  rr_ReservedAmount r <= reserved_of db v.
Proof.
  intros HP Hr Hv. pose proof (pn_holds _ _ _ _ HP v) as Hh. rewrite at_user_0 in Hh.
  rewrite <- (hold_of_requester v r Hv).
  enough (hold_of v r <= holds db v) by lia.
  apply (msum_lookup_le (λ _ r, hold_of v r) (reservations db) o r Hr).
  intros o' r' Hr'. unfold hold_of. case_decide; [|done].
  destruct (stored_row _ _ _ _ _ _ HP Hr') as (_ & Hc & _).
  apply reservations_check_split in Hc as (Ha & _). unfold reservations_amounts_check in Ha. lia.
Qed.

Lemma reserved_le_balance u d b db v : Pending u d b db → 0 <= reserved_of db v <= balance_of db v.
Proof.
  intros HP. unfold reserved_of, balance_of.
  destruct (accounts db !! v) as [a|] eqn:Ha; [|lia]. apply (pn_accounts _ _ _ _ HP v a Ha).
Qed.

(** A posting that moves only the hold of an existing order. *)
Lemma posting_ok_order db v kind δ o asg row :
  o ≠ EmptyString → rr_OrderID row = o → kind ≠ account.Grant →
  ledger_deltas_check (ledger_row (posting_of (entry v kind 0 δ o asg)) 0 0) = true ∨ δ = 0 →
  is_some (optionalID asg) = orb (bool_decide (kind = account.Adjust)) (bool_decide (kind = account.Revert)) →
  (∀ a, optionalID asg = Some a → is_Some (assignments (written row db) !! (o, a))) →
  posting_ok (written row db) (posting_of (entry v kind 0 δ o asg)).
Proof.
  intros Ho Hro Hk Hd Hasg Hex. split; [destruct Hd as [|]; [by right|by left]|].
  split; [done|]. split; [done|]. exists o. simpl. rewrite optionalID_some by done.
  split; [done|]. split; [by rewrite Hro, lookup_insert_eq|done].
Qed.

(** The database after an order's row has become [row] and the change of its
    hold has been posted to [v]. *)
Record moved (db db' : DB) (o : string) (row : ReservationRow) (v : string) (bd rd : Z) : Prop := {
  mv_reservations : reservations db' = <[o := row]> (reservations db);
  mv_revisions : revisions db' = <[(o, rr_Revision row) := row]> (revisions db);
  mv_assignments : assignments db' = assignments db;
  mv_operations : operations db' = operations db;
  mv_balance w : balance_of db' w = balance_of db w + at_user v bd w;
  mv_reserved w : reserved_of db' w = reserved_of db w + at_user v rd w;
}.

Section move_hold.
  Context (c : Clocks) (db : DB) (o : string) (old : ReservationRow) (current next : Reservation).
  Context (v : string) (δ : Z) (row : ReservationRow) (Hrow : row = next_row c old next).
  Context (HP : Pending EmptyString 0 0 db) (Hold : reservations db !! o = Some old)
    (Ho : OrderID next = o) (Hrev : Revision current = rr_Revision old)
    (Hopen : terminal (rr_Status old) = false) (Hv : rr_RequesterID old = Some v)
    (Hcheck : reservations_check row = true)
    (Hasg : ∀ a, rr_AssignmentID row = Some a → a ≠ EmptyString ∧ is_Some (assignments db !! (o, a)))
    (Hδ : δ = ReservedAmount next - rr_ReservedAmount old)
    (Hmax : ReservedAmount next <= max_int64).

Lemma move_hold_pending :
  Pending v δ 0 (written row db) ∧ is_Some (accounts db !! v)
  ∧ reservation_references_ok db row = true ∧ 0 <= reserved_of db v + δ.
Proof using All.
  destruct (stored_row _ _ _ _ _ _ HP Hold) as (_ & Hc & ? & ? & _ & Hreq).
  destruct (Hreq v Hv) as [Hne Hacc].
  pose proof (hold_le_reserved _ _ _ _ _ _ HP Hold Hv).
  assert (0 <= rr_ReservedAmount row).
  { apply reservations_check_split in Hcheck as (Ha & _). unfold reservations_amounts_check in Ha. lia. }
  assert (rr_OrderID row = o ∧ rr_RequesterID row = Some v ∧ rr_Revision row = rr_Revision old + 1
    ∧ rr_ReservedAmount row = ReservedAmount next ∧ rr_OriginalAmount row = rr_OriginalAmount old)
    as (Hro & Hrv & Hrr & Hra & Hrg) by (by rewrite Hrow).
  split; [|split; [done|split; [|lia]]].
  - replace δ with (0 + δ) by lia. apply Pending_written; rewrite ?Hro, ?Hrv, ?Hrr, ?Hra, ?Hrg; try done.
    + by apply (Pending_rename EmptyString).
    + by intros w [= <-].
    + rewrite Hold. intros old' [= <-]. lia.
    + rewrite Hδ, <- Hra. by apply (hold_change db o old row v).
  - unfold reservation_references_ok. rewrite Hrv, Hro, (is_some_true (accounts db !! v)) by done. simpl.
    destruct (rr_AssignmentID row) as [a|] eqn:Ha; [|done]. apply is_some_true. by apply Hasg.
Qed.

Lemma wp_update_hold Q :
  (Pending v δ 0 (written row db) → is_Some (accounts db !! v) → 0 <= reserved_of db v + δ →
    Q (fromRow row) (written row db)) →
  wp (update current next) c db Q overflow.
Proof using All.
  intros HQ. destruct move_hold_pending as (HP' & Hacc & Hrefs & Hpos).
  apply (wp_update EmptyString 0 0 c db old); rewrite <- ?Hrow; try done; [by rewrite Ho|by apply HQ].
Qed.

(** The update followed by a posting that keeps the balance. *)
Lemma wp_move_hold {A} (k : Reservation → Tx A) kind asg now Q X :
  reserved_of db v + δ <= balance_of db v →
  posting_ok (written row db) (posting_of (entry v kind 0 δ o asg)) →
  (∀ e, overflow e → X e) →
  (∀ db', Pending EmptyString 0 0 db' → moved db db' o row v 0 δ → wp (k (fromRow row)) c db' Q X) →
  wp (next ← update current next; _ ← tx_Post now [entry v kind 0 δ o asg]; k next) c db Q X.
Proof using All.
  intros Hbal Hok HX Hk. apply wp_bind. eapply wp_mono; [apply (wp_update_hold (λ r db1,
    r = fromRow row ∧ db1 = written row db ∧ Pending v δ 0 db1 ∧ is_Some (accounts db !! v)
    ∧ 0 <= reserved_of db v + δ)); done| |exact HX].
  intros r' db1 (-> & -> & HP' & Hacc & Hpos).
  apply wp_bind. eapply wp_mono; [apply (wp_tx_Post_single v δ 0); try done| |exact HX].
  - simpl. change (reserved_of (written row db) v) with (reserved_of db v).
    change (balance_of (written row db) v) with (balance_of db v). lia.
  - intros [] db' (HPd & (Hr & Hv' & Has & Hops) & Hb & Hres & _).
    simpl in HPd. replace (δ - δ) with 0 in HPd by lia.
    apply Hk; [by apply (Pending_rename v)|].
    assert (rr_OrderID row = o) as Hro by (by rewrite Hrow).
    split; [by rewrite Hr; simpl; rewrite Hro|by rewrite Hv'; simpl; rewrite Hro|done..].
Qed.

End move_hold.

(** The row an open reservation becomes when its status, hold and assignment
    change. *)
Lemma open_next_row c old st n a :
  reservations_check old = true → terminal (rr_Status old) = false →
  let row := next_row c old (set_state (fromRow old) st n a (ResSettlement (fromRow old))) in
  unsettled row ∧ rr_AssignmentID row = optionalID a.
Proof.
  intros Hc Ht. destruct (open_row_inv old Hc Ht) as (Hs & _).
  unfold unsettled, next_row, fromRow, set_state. simpl. unfold toColumns. simpl. by rewrite Hs.
Qed.

(** ** AdjustReservation *)

Definition adjust_error (e : Error) : Prop :=
  e ∈ [ErrReservationNotFound; ErrReservationReleased; ErrReservationSettled; ErrInvalidArgument;
       ErrAdjustmentReverted; ErrAdjustmentPending] ∨ overflow e.

Lemma wp_requireOpen o c db (Q : Reservation → DB → Prop) (X : Error → Prop) :
  (∀ r, reservations db !! o = Some r → terminal (rr_Status r) = false → Q (fromRow r) db) →
  X ErrReservationNotFound → X ErrReservationReleased → X ErrReservationSettled →
  wp (requireOpen (fromRow <$> reservations db !! o)) c db Q X.
Proof.
  intros HQ. destruct (reservations db !! o) as [r|]; simpl; [|done].
  specialize (HQ r eq_refl). destruct (rr_Status r); unfold wp; simpl; intros; auto.
Qed.

Lemma coupled_assigned db db' o row a x :
  rr_Status row = Assigned → rr_AssignmentID row = Some a → as_Status x = Applied →
  as_OfferAmount x = Some (rr_ReservedAmount row) → 0 < rr_OriginalAmount row <= rr_ReservedAmount row →
  assignments db' = <[(o, a) := x]> (assignments db) → no_applied_assignment db o = true →
  coupled_row db' o row.
Proof.
  intros Hst Ha Hx Hoffer Hle Hasg Hnone. unfold no_applied_assignment in Hnone.
  apply bool_decide_eq_true in Hnone. split; [|split].
  - intros a' x'. rewrite Hasg. destruct (decide (a' = a)) as [->|Hne]; [done|].
    rewrite lookup_insert_ne by congruence. intros Hx' Happ.
    by destruct (Hnone (o, a') x' Hx' eq_refl).
  - intros _. exists a, x. by rewrite Hasg, lookup_insert_eq.
  - by rewrite Hst.
Qed.

Lemma wp_adjust_apply o a courier offer c db now :
  o ≠ EmptyString → a ≠ EmptyString → courier ≠ EmptyString → 0 < offer <= max_int64 → Inv db →
  wp (adjust_apply o a courier offer now) c db (applied o db) adjust_error.
Proof.
  intros Hone Hane Hcne Hoffer [HP HC]. unfold adjust_apply, tx_Reservation, LockReservation.
  assert (∀ e, overflow e → adjust_error e) as Hover by by right.
  apply wp_bind, wp_bind, wp_gets, wp_ret, wp_bind.
  apply wp_requireOpen; [|documented..]. intros old Hold Hopen.
  destruct (stored_row _ _ _ _ _ _ HP Hold) as (Hoid & Hc & Hmax & Hmaxo & _ & Hreq).
  destruct (open_row_inv old Hc Hopen) as (Hso & [v Hv] & Hpos & Horig & Hrpos & _ & Hheld).
  apply wp_bind, wp_ensure; [|documented]. simpl. intros Hle%Z.leb_le.
  unfold tx_Assignment, GetAssignment. apply wp_bind, wp_bind, wp_gets, wp_ret.
  apply wp_bind, wp_ensure; [|documented]. intros _.
  apply wp_bind, wp_ensure; [|documented]. intros Hfree.
  destruct (assignments db !! (o, a)) as [|] eqn:Ha; [done|]. simpl in Hfree.
  apply negb_true_iff, bool_decide_eq_false in Hfree.
  assert (rr_Status old = Held) as Hst by (destruct (rr_Status old); done).
  destruct (Hheld Hst) as (Hopos & Heq & Hnoasg).
  rewrite Hv. simpl. rewrite sub64_id by int64_lia.
  apply wp_bind. eapply wp_mono; [by apply (wp_LockAccounts EmptyString 0 0)| |done].
  intros locked db1 (HP1 & [Hsame Hsub] & Hlocked).
  destruct (Hlocked v) as [Hacc Havail]; [by apply list_elem_of_singleton|]. rewrite Havail.
  pose proof Hsame as (Hr & Hrv & Has & Hops).
  pose proof (same_orders_Coupled _ _ Hsame HC) as HC1.
  destruct (_ <? _) eqn:Hlt; [by apply wp_ret|]. apply Z.ltb_ge in Hlt.
  assert (reservations db1 !! o = Some old) as Hold1 by by rewrite Hr.
  pose proof (no_applied_held db1 o old HC1 Hold1 Hnoasg) as Hnone.
  apply wp_bind. unfold wp at 1. erewrite tx_InsertAssignment_ok; [|done|by rewrite Has|done|].
  2: { simpl. rewrite optionalID_some, decide_False by done. unfold assignments_check. simpl. lia. }
  simpl. rewrite optionalID_some, decide_False by done. set (x := {| as_OrderID := o |}).
  set (db2 := set_assignments _ db1).
  assert (Pending EmptyString 0 0 db2) as HP2.
  { apply Pending_assignment; [done|]. split_and!; try done; simpl; try congruence.
    - unfold assignments_check. simpl. lia.
    - intros n [= <-]. lia. }
  destruct (open_next_row c old Assigned offer a Hc Hopen) as [Huns Hasg]. set (row := next_row _ _ _) in *.
  rewrite optionalID_some in Hasg by done.
  apply (wp_move_hold c db2 o old (fromRow old) _ v (offer - rr_ReservedAmount old) row); try done.
  - apply open_row_check; [done|by eexists|change (0 < rr_Revision old + 1); lia|done|].
    change (0 < offer ∧ is_Some (rr_AssignmentID row)). rewrite Hasg. split; [lia|done].
  - rewrite Hasg. intros ? [= <-]. split; [done|]. simpl. by rewrite lookup_insert_eq.
  - simpl. lia.
  - change (reserved_of db2 v) with (reserved_of db1 v). change (balance_of db2 v) with (balance_of db1 v). lia.
  - apply posting_ok_order; rewrite ?optionalID_some by done; try done; [by left|].
    intros ? [= <-]. simpl. by rewrite lookup_insert_eq.
  - intros db' HP' Hmoved. apply wp_ret. destruct Hmoved.
    assert (Coupled db') as HC'.
    { apply (Coupled_change db1 db' o row); try done.
      - intros o' a' ?. rewrite mv_assignments0. simpl. rewrite lookup_insert_ne by congruence. done.
      - apply (coupled_assigned db1 db' o row a x); done. }
    split; [done|]. split; [by rewrite mv_operations0|].
    exists row. split; [done|]. by rewrite mv_revisions0, lookup_insert_eq.
Qed.

(** ** RevertAdjustment *)

Definition revert_error (o : string) (db : DB) (e : Error) : Prop :=
  (e = ErrReservationNotFound ∧ reservations db !! o = None
   ∨ e = ErrReservationSettled ∧ ∃ r, reservations db !! o = Some r ∧ rr_Status r = Settled)
  ∨ overflow e.

(** A reverted assignment may replace one that no open or settled row needs. *)
Lemma Coupled_reverted db k x :
  Coupled db → as_Status x = Reverted →
  (∀ r, reservations db !! k.1 = Some r → rr_AssignmentID r = Some k.2 →
     rr_Status r = Assigned ∨ rr_Status r = Settled → False) →
  Coupled (set_assignments (insert k x) db).
Proof.
  intros HC Hx Hfree o r Hr. destruct k as [o' a']. simpl in *.
  destruct (HC o r Hr) as (Hone & Has & Hset). split; [|split].
  - simpl. intros a y. destruct (decide ((o', a') = (o, a))) as [Heq|].
    + rewrite Heq, lookup_insert_eq. intros [= <-]. congruence.
    + rewrite lookup_insert_ne by done. apply Hone.
  - intros Hst. destruct (Has Hst) as (a & y & Ha & Hy & ?). exists a, y. simpl.
    split; [done|]. rewrite lookup_insert_ne; [done|]. intros [= -> ->]. by eapply Hfree; eauto.
  - intros Hst. destruct (Hset Hst) as (a & y & Ha & Hy & ?). exists a, y. simpl.
    split; [done|]. rewrite lookup_insert_ne; [done|]. intros [= -> ->]. by eapply Hfree; eauto.
Qed.

(** Returning the stored reservation unchanged. *)
Lemma applied_unchanged o db db' r :
  Inv db' → operations db' = operations db → reservations db' !! o = Some r →
  applied o db (RReservation (fromRow r)) db'.
Proof.
  intros [HP HC] Hops Hr. split; [done|]. split; [done|]. exists r. split; [done|].
  apply (pn_reservations _ _ _ _ HP o r Hr).
Qed.

(** The hold of an order is back at its original amount. *)
Definition hold_restored (o : string) (old : ReservationRow) (db : DB) (out : mutation_result)
    (db' : DB) : Prop :=
  ∃ row v, out = RReservation (fromRow row) ∧ rr_Status row = Held
    ∧ rr_ReservedAmount row = rr_OriginalAmount old ∧ rr_RequesterID old = Some v
    ∧ reservations db' = <[o := row]> (reservations db)
    ∧ (∀ w, balance_of db' w = balance_of db w)
    ∧ (∀ w, reserved_of db' w
         = reserved_of db w + at_user v (rr_OriginalAmount old - rr_ReservedAmount old) w).

(** Undoing the applied offer of an Assigned reservation. *)
Lemma wp_revert_assigned o a c db now old x :
  o ≠ EmptyString → a ≠ EmptyString → Inv db → reservations db !! o = Some old →
  rr_Status old = Assigned → rr_AssignmentID old = Some a →
  assignments db !! (o, a) = Some x → as_Status x = Applied →
  let r := fromRow old in let δ := rr_OriginalAmount old - rr_ReservedAmount old in
  wp (next ← update r (set_state r Held (rr_OriginalAmount old) EmptyString (ResSettlement r));
      _ ← tx_Post now [entry (idString (rr_RequesterID old)) account.Revert 0 δ o a];
      mret (RReservation next)) c (set_assignments (insert (o, a) (reverted_row x now)) db)
    (λ out db', applied o db out db' ∧ hold_restored o old db out db') overflow.
Proof.
  intros Hone Hane [HP HC] Hold Hst Hasg Hx Happ r δ. set (db1 := set_assignments _ db).
  assert (terminal (rr_Status old) = false) as Hopen by by rewrite Hst.
  destruct (stored_row _ _ _ _ _ _ HP Hold) as (Hoid & Hc & Hmax & Hmaxo & _ & Hreq).
  destruct (open_row_inv old Hc Hopen) as (Hso & [v Hv] & Hpos & Horig & Hrpos & _).
  destruct (HC o old Hold) as (Hone_applied & Hass & _).
  destruct (Hass Hst) as (_ & _ & _ & _ & _ & _ & Hle).
  pose proof (pn_assignments _ _ _ _ HP _ _ Hx) as Hxok.
  assert (Pending EmptyString 0 0 db1) as HP1 by (apply Pending_assignment; [done|by apply reverted_row_ok]).
  destruct (open_next_row c old Held (rr_OriginalAmount old) EmptyString Hc Hopen) as [Huns Hnone].
  set (row := next_row _ _ _) in *.
  rewrite Hv. apply (wp_move_hold c db1 o old r _ v δ row); try done.
  - apply open_row_check; [done|by eexists|change (0 < rr_Revision old + 1); lia|done|].
    split; [|split; [done|by rewrite Hnone]]. apply Hle.
  - by rewrite Hnone.
  - destruct (reserved_le_balance _ _ _ _ v HP). unfold δ.
    change (reserved_of db1 v) with (reserved_of db v). change (balance_of db1 v) with (balance_of db v). lia.
  - apply posting_ok_order; rewrite ?optionalID_some by done; try done; [by left|].
    intros ? [= <-]. simpl. by rewrite lookup_insert_eq.
  - intros db' HP' []. apply wp_ret.
    assert (Coupled db') as HC'.
    { apply (Coupled_change db db' o row); try done.
      - intros o' a' ?. rewrite mv_assignments0. simpl. by rewrite lookup_insert_ne by congruence.
      - split; [|done]. intros a' y. rewrite mv_assignments0. simpl.
        destruct (decide (a' = a)) as [->|].
        + rewrite lookup_insert_eq. intros [= <-]. done.
        + rewrite lookup_insert_ne by congruence. intros Hy Hya.
          specialize (Hone_applied a' y Hy Hya). congruence. }
    split; [split; [done|]; split; [by rewrite mv_operations0|]|].
    + exists row. split; [done|]. by rewrite mv_revisions0, lookup_insert_eq.
    + exists row, v. split_and!; try done. intros w. rewrite mv_balance0, at_user_0.
      change (balance_of db1 w) with (balance_of db w). lia.
Qed.

Lemma wp_revert_apply o a c db now :
  o ≠ EmptyString → a ≠ EmptyString → Inv db →
  wp (revert_apply o a now) c db
    (λ out db', applied o db out db' ∧ ∀ old, reservations db !! o = Some old →
       rr_Status old = Assigned → rr_AssignmentID old = Some a → hold_restored o old db out db')
    (revert_error o db).
Proof.
  intros Hone Hane [HP HC]. unfold revert_apply, tx_Reservation, LockReservation.
  apply wp_bind, wp_bind, wp_gets, wp_ret, wp_bind, wp_require; [|intros Hn%fmap_None; by left; left].
  intros r Hr. apply fmap_Some in Hr as (old & Hold & ->).
  destruct (stored_row _ _ _ _ _ _ HP Hold) as (Hoid & Hc & Hmax & Hmaxo & Hasg & Hreq).
  destruct (HC o old Hold) as (Happlied & Hass & _).
  apply wp_bind, wp_ensure; [|intros Hs%bool_decide_eq_false; left; right; split; [done|];
    exists old; split; [done|by apply dec_stable]].
  intros Hns%bool_decide_eq_true. simpl in Hns.
  unfold tx_Assignment, GetAssignment. apply wp_bind, wp_bind, wp_gets, wp_ret.
  destruct (assignments db !! (o, a)) as [x|] eqn:Hx; simpl.
  - destruct (decide (as_Status x = Reverted)) as [Hrev|].
    { apply wp_ret. split; [by apply applied_unchanged|]. intros old' Hold' Hst Ha. rewrite Hold in Hold'. injection Hold' as <-.
      destruct (Hass Hst) as (a' & y & Ha' & Hy & ? & _). congruence. }
    assert (as_Status x = Applied) as Happ by (by destruct (as_Status x)).
    pose proof (reverted_row_ok db (o, a) x now (pn_assignments _ _ _ _ HP _ _ Hx) Happ) as Hxr.
    apply wp_bind. unfold wp at 1. rewrite (tx_RevertAssignment_ok o a x) by (done || apply Hxr).
    rewrite (Happlied a x) by done. simpl. destruct (decide _) as [Hd|Hd].
    + apply wp_ret. split; [apply applied_unchanged; [split|done|done]|].
      * by apply Pending_assignment.
      * apply Coupled_reverted; [done|done|]. simpl. rewrite Hold. intros ? [= <-].
        rewrite (Happlied a x) by done. intros _ [?|?]; [|done]. by destruct Hd.
      * intros old' Hold' Hst Ha. rewrite Hold in Hold'. injection Hold' as <-. exfalso. destruct Hd as [?|Hne]; [done|].
        by apply Hne.
    + assert (rr_Status old = Assigned) as Hst.
      { destruct (decide (rr_Status old = Assigned)); [done|]. destruct Hd. by left. }
      rewrite sub64_id.
      * eapply wp_mono; [apply wp_revert_assigned; try done; by apply (Happlied a x)| |by right].
        intros out db' [? ?]. split; [done|]. intros old' Hold' _ _. rewrite Hold in Hold'. by injection Hold' as <-.
      * apply reservations_check_split in Hc as (Ham & _). unfold reservations_amounts_check in Ham.
        int64_lia.
  - apply wp_bind. unfold wp at 1. erewrite tx_InsertAssignment_ok; [|done|done|done|done].
    simpl. apply wp_ret. split; [apply applied_unchanged; [split|done|done]|].
    + apply Pending_assignment; [done|]. by split_and!.
    + apply Coupled_reverted; [done|done|]. simpl. rewrite Hold. intros ? [= <-] Ha [Hst|?]; [|done].
      destruct (Hass Hst) as (a' & y & Ha' & Hy & _). congruence.
    + intros old' Hold' Hst Ha. rewrite Hold in Hold'. injection Hold' as <-. destruct (Hass Hst) as (a' & y & Ha' & Hy & _). congruence.
Qed.

(** ** ReleaseReservation *)

Definition release_error (e : Error) : Prop := e ∈ [ErrReservationSettled] ∨ overflow e.

(** The row an open reservation becomes when it is released. *)
Lemma released_next_row c old reason now :
  reservations_check old = true → terminal (rr_Status old) = false → valid reason = true →
  rr_ReservedAmount old <= max_int64 →
  (∀ a, rr_AssignmentID old = Some a → a ≠ EmptyString) →
  let r := fromRow old in
  let row := next_row c old (set_state r Released 0 (AssignmentID r)
               (Some (released_settlement (ReservedAmount r) now reason))) in
  reservations_check row = true ∧ rr_AssignmentID row = rr_AssignmentID old.
Proof.
  intros Hc Ht Hvalid Hmax Hasg r row.
  destruct (open_row_inv old Hc Ht) as (_ & Hreq & Hpos & Horig & Hrpos & _).
  split; [|by apply optionalID_idString].
  apply (released_row_check row reason (rr_ReservedAmount old) (stored_time now)); try done;
    try (by destruct reason).
  - lia.
  - change (0 < rr_Revision old + 1). lia.
  - by left.
Qed.

Lemma coupled_released db o row old :
  coupled_row db o old → rr_Status row = Released → rr_AssignmentID row = rr_AssignmentID old →
  coupled_row db o row.
Proof.
  intros (Hone & _) Hst Ha. split; [|by rewrite Hst]. intros a x. rewrite Ha. apply Hone.
Qed.

(** What a release leaves: the invariant, the stored reservation, and the whole
    hold back with the requester. *)
Definition released (o : string) (reason : ReleaseReason) (db : DB) (out : Reservation * bool)
    (db' : DB) : Prop :=
  applied o db (RReservation out.1) db'
  ∧ (∀ w, balance_of db' w = balance_of db w)
  ∧ (∀ w, reserved_of db' w = reserved_of db w - old_hold db o w)
  ∧ ∃ row, out.1 = fromRow row ∧ reservations db' !! o = Some row ∧ rr_Status row = Released
    ∧ rr_RequesterID row = reservations db !! o ≫= rr_RequesterID
    ∧ if out.2 then
        rr_ReleaseReason row = Some reason ∧ rr_SettlementOutcome row = Some OutcomeReleased
        ∧ rr_ReturnedToRequester row
          = Some (match reservations db !! o with Some r => rr_ReservedAmount r | None => 0 end)
      else db' = db.

Lemma wp_release_open o reason c db now old :
  o ≠ EmptyString → valid reason = true → Inv db → reservations db !! o = Some old →
  terminal (rr_Status old) = false →
  let r := fromRow old in
  wp (next ← update r (set_state r Released 0 (AssignmentID r)
                             (Some (released_settlement (ReservedAmount r) now reason)));
      _ ← tx_Post now [entry (RequesterID r) account.Release 0 (neg64 (ReservedAmount r)) o EmptyString];
      mret (next, true)) c db (released o reason db) overflow.
Proof.
  intros Hone Hvalid [HP HC] Hold Hopen r.
  destruct (stored_row _ _ _ _ _ _ HP Hold) as (Hoid & Hc & Hmax & Hmaxo & Hasg & Hreq).
  destruct (open_row_inv old Hc Hopen) as (_ & [v Hv] & Hpos & _).
  destruct (released_next_row c old reason now) as [Hcheck Hra]; try done.
  { intros a Ha. by apply Hasg. }
  subst r. set (row := next_row _ _ _) in *.
  change (RequesterID (fromRow old)) with (idString (rr_RequesterID old)). rewrite Hv.
  change (ReservedAmount (fromRow old)) with (rr_ReservedAmount old).
  simpl idString. rewrite neg64_id by int64_lia.
  apply (wp_move_hold c db o old (fromRow old) _ v (- rr_ReservedAmount old) row); try done.
  - rewrite Hra. done.
  - destruct (reserved_le_balance _ _ _ _ v HP). lia.
  - apply posting_ok_order; try done. left. unfold ledger_deltas_check. simpl. lia.
  - intros db' HP' []. apply wp_ret. split; [split; [split; [done|]|split; [done|]]|split_and!].
    + apply (Coupled_change db db' o row); try done; [by rewrite mv_assignments0|].
      apply (coupled_released db' o row old); try done. specialize (HC o old Hold).
      unfold coupled_row in *. by rewrite mv_assignments0.
    + exists row. split; [done|]. by rewrite mv_revisions0, lookup_insert_eq.
    + intros w. rewrite mv_balance0, at_user_0. lia.
    + intros w. rewrite mv_reserved0. unfold old_hold, hold_of, at_user. rewrite Hold, Hv.
      repeat case_decide; simplify_eq; lia.
    + exists row. rewrite mv_reservations0, lookup_insert_eq, Hold. by destruct reason.
Qed.

Lemma wp_release o reason c db now :
  o ≠ EmptyString → valid reason = true → Inv db →
  wp (release o (fromRow <$> reservations db !! o) reason now) c db (released o reason db)
    (λ e, (e = ErrReservationSettled ∧ ∃ r, reservations db !! o = Some r ∧ rr_Status r = Settled)
          ∨ overflow e).
Proof.
  intros Hone Hvalid HI. pose proof HI as [HP HC]. unfold release.
  destruct (reservations db !! o) as [old|] eqn:Hold; simpl.
  - destruct (rr_Status old) eqn:Hst.
    1,2: eapply wp_mono; [apply wp_release_open; rewrite ?Hst; done|done|by right].
    + apply wp_ret. split; [by apply applied_unchanged|split_and!].
      * done.
      * intros w. destruct (stored_row _ _ _ _ _ _ HP Hold) as (_ & Hc & _).
        destruct (terminal_row_inv old Hc) as (Hz & _); [by rewrite Hst|].
        unfold old_hold, hold_of. rewrite Hold, Hz. case_decide; lia.
      * exists old. by rewrite Hold.
    + apply wp_throw. left. eauto.
  - apply wp_bind. unfold wp. set (r := {| OrderID := o |}). set (row := inserted_row r).
    assert (reservations_check row = true) as Hcheck.
    { apply (released_row_check row reason 0 (stored_time now)); try done; try (by destruct reason).
      by right. }
    rewrite (tx_InsertReservation_ok EmptyString 0 0) by done. fold row. simpl.
    split; [split; [split|split; [done|]]|split_and!; [done| |]].
    + replace 0 with (0 + 0) by done. apply Pending_written; try done.
      * simpl. by rewrite Hold.
      * intros w. rewrite at_user_0. unfold old_hold. simpl. by rewrite Hold.
    + apply (Coupled_change db _ o row); try done. split; [|done]. intros a x Hx _. exfalso.
      destruct (pn_assignments _ _ _ _ HP _ _ Hx) as (_&_&_&_&_&_&Hpar).
      simpl in Hpar. rewrite Hold in Hpar. by destruct Hpar.
    + exists row. split; [done|]. simpl. by rewrite lookup_insert_eq.
    + intros w. unfold old_hold. rewrite Hold. change (reserved_of (written row db) w) with (reserved_of db w). lia.
    + exists row. simpl. rewrite lookup_insert_eq, Hold. by destruct reason.
Qed.

Lemma wp_release_apply o reason c db now :
  o ≠ EmptyString → valid reason = true → Inv db →
  wp (release_apply o reason now) c db (applied o db) release_error.
Proof.
  intros Hone Hvalid HI. unfold release_apply, tx_Reservation, LockReservation.
  apply wp_bind, wp_bind, wp_gets, wp_ret, wp_bind.
  eapply wp_mono; [by apply wp_release|by intros [next changed] db' [? _]|].
  intros e [[-> _]|?]; [documented|by right].
Qed.

End operations.
