(* ===== verification/CreditSettlement.v ===== *)
(** * Credit: settlement preserves the invariant

    ApplyOutcome's transaction, run from a state that satisfies the invariant:
    the postings of a settlement move exactly the held credits, and the only
    failures are the contract's errors. *)
From S2P Require Import Prelude.
From S2P Require Import GoLib.
From S2P Require Import CreditTypes.
From S2P Require Import CreditDB.
From S2P Require Import CreditAccount.
From S2P Require Import CreditReservation.
From S2P Require Import CreditOutcome.
From S2P Require Import CreditHistory.
From S2P Require Import CreditInvariant.
From S2P Require Import CreditStatements.
From S2P Require Import CreditOperations.
From stdpp Require Import prelude gmap strings.
From Stdlib Require Import ZArith Lia.

Local Open Scope Z_scope.

Section settlement.
  Context `{UUID, UUIDv7, !UUIDv7Laws, Digest}.

(** ** The postings *)

(** How the settlement of a hold of [R] credits changes every user's totals:
    [pay] leaves the requester [v] for the courier [w], and the whole hold is
    lifted. *)
Definition settled_totals (v courier : string) (R pay : Z) (db db' : DB) : Prop :=
  (∀ w, balance_of db' w = balance_of db w + at_user v (- pay) w + at_user courier pay w)
  ∧ (∀ w, reserved_of db' w = reserved_of db w + at_user v (- R) w).

Lemma posting_ok_settle db v kind b δ o :
  o ≠ EmptyString → is_Some (reservations db !! o) →
  kind = account.Payout ∨ kind = account.Refund →
  (b = 0 ∧ δ = 0) ∨ ledger_deltas_check (ledger_row (posting_of (entry v kind b δ o EmptyString)) 0 0) = true →
  posting_ok db (posting_of (entry v kind b δ o EmptyString)).
Proof.
  intros Ho Hres Hk Hd. split; [done|]. split; [by destruct Hk as [-> | ->]|].
  split; [by destruct Hk as [-> | ->]|]. exists o. simpl. by rewrite optionalID_some.
Qed.

Lemma Pending_eq u d b d' b' db : Pending u d b db → d = d' → b = b' → Pending u d' b' db.
Proof. by intros ? -> ->. Qed.

Lemma wp_settlement_postings c db now r v courier R pay :
  OrderID r ≠ EmptyString → RequesterID r = v → is_Some (reservations db !! OrderID r) →
  Pending v (- R) 0 db → is_Some (accounts db !! v) → is_Some (accounts db !! courier) →
  0 <= pay <= R → R <= max_int64 → R <= reserved_of db v →
  wp (tx_Post now (settlement_entries r courier pay (R - pay))) c db
    (λ _ db', Pending v 0 0 db' ∧ same_orders db db' ∧ settled_totals v courier R pay db db') overflow.
Proof.
  intros Ho Hv Hres HP Hacc Hcour Hpay Hmax HR. unfold tx_Post, settlement_entries. rewrite Hv.
  rewrite !neg64_id by int64_lia. destruct (reserved_le_balance _ _ _ _ v HP) as [Hr0 Hrb].
  unfold Post. simpl fmap. simpl for_each. apply wp_bind.
  eapply wp_mono; [apply (wp_post_one v (- R) 0); try done| |done].
  - simpl. lia.
  - apply posting_ok_settle; [done..|by left|]. unfold ledger_deltas_check. simpl. lia.
  - intros _ db1 (HP1 & Hs1 & Hb1 & Hr1 & Ha1). simpl in *.
    apply wp_bind. eapply wp_mono; [apply (wp_post_one v (- R - - pay) (0 - - pay)); try done| |done].
    + by apply Ha1.
    + simpl. rewrite Hr1, Hb1. unfold at_user. rewrite decide_True by done. lia.
    + apply posting_ok_settle; [done|by destruct Hs1 as (-> & _)|by right|].
      unfold ledger_deltas_check. simpl. lia.
    + intros _ db2 (HP2 & Hs2 & Hb2 & Hr2 & Ha2). simpl in *.
      apply wp_bind. eapply wp_mono; [apply (wp_post_one v 0 pay); try done| |done].
      * eapply Pending_eq; [done|lia..].
      * by apply Ha2, Ha1.
      * simpl. destruct (reserved_le_balance _ _ _ _ courier HP2). lia.
      * apply posting_ok_settle; [done| |by left|].
        -- destruct Hs2 as (-> & _). by destruct Hs1 as (-> & _).
        -- unfold ledger_deltas_check. simpl. lia.
      * intros _ db3 (HP3 & Hs3 & Hb3 & Hr3 & Ha3). simpl in *. apply wp_ret.
        split; [eapply Pending_eq; [done|lia..]|].
        split; [eapply same_orders_trans; [done|]; by eapply same_orders_trans|].
        split; intros w; rewrite ?Hb3, ?Hb2, ?Hb1, ?Hr3, ?Hr2, ?Hr1; unfold at_user; repeat case_decide; lia.
Qed.

(** ** The settlement *)

(** What [validate] guarantees. *)
Definition validated (o : OrderOutcome) : Prop :=
  oo_OrderID o ≠ EmptyString ∧ oo_Type o ≠ NoOutcome
  ∧ (oo_Type o = OrderCompleted →
      oo_PickedUpAt o <= oo_DeliveredAt o ∧ Microsecond <= oo_DeliveryDuration o).

Lemma duration_truncate_pos d : 0 < duration_truncate d Microsecond → Microsecond <= duration_truncate d Microsecond.
Proof.
  unfold duration_truncate, Microsecond. simpl. intros.
  pose proof (Z.quot_rem d 1000). destruct (Z.le_gt_cases d 0).
  - pose proof (Z.rem_nonpos d 1000). pose proof (Z.rem_bound_neg_pos d 1000). lia.
  - pose proof (Z.rem_bound_pos d 1000). lia.
Qed.

Lemma validate_ok `{!UUIDLaws} o o' : validate o = Ok o' → validated o'.
Proof.
  unfold validate, mbind, result_mbind, mret, result_mret, guard_ok, canonicalID, from_option_ok.
  destruct (uuid_parse (oo_OrderID o)) as [oid|] eqn:Hoid; [|done].
  apply uuid_parse_nonempty in Hoid. intros Hval.
  repeat case_match; simplify_eq/=; (split; [done|]; split; [done|]); intros; simplify_eq/=.
  all: match goal with Hb : negb _ = true |- _ => apply negb_true_iff in Hb end.
  all: rewrite !orb_false_iff in *; destruct_and!; unfold Before, IsZero in *.
  all: split; [lia|apply duration_truncate_pos; lia].
Qed.

(** The row a settled reservation becomes. *)
Lemma settled_next_row c old o pay now :
  reservations_check old = true → rr_Status old = Assigned → validated o → releaseReason o = None →
  0 <= pay <= rr_ReservedAmount old → rr_ReservedAmount old <= max_int64 →
  (∀ a, rr_AssignmentID old = Some a → a ≠ EmptyString) → is_Some (rr_AssignmentID old) →
  let r := fromRow old in
  let row := next_row c old (set_state r Settled 0 (AssignmentID r)
               (Some (payout_settlement o (rr_ReservedAmount old) pay now))) in
  reservations_check row = true ∧ rr_AssignmentID row = rr_AssignmentID old
  ∧ rr_ReturnedToRequester row = Some (rr_ReservedAmount old - pay).
Proof.
  intros Hc Hst (_ & Hty & Hcompleted) Hreason Hpay Hmax Hne Hasg r row.
  assert (terminal (rr_Status old) = false) as Hopen by by rewrite Hst.
  destruct (open_row_inv old Hc Hopen) as (_ & Hreq & Hpos & Horig & Hrpos & _).
  assert (rr_AssignmentID row = rr_AssignmentID old) as Ha by by apply optionalID_idString.
  assert (rr_ReturnedToRequester row = Some (rr_ReservedAmount old - pay)) as Hret.
  { change (Some (sub64 (rr_ReservedAmount old) pay) = Some (rr_ReservedAmount old - pay)).
    rewrite sub64_id; [done|int64_lia]. }
  split; [|done].
  apply (settled_row_check row (settlementOutcome o) pay (rr_ReservedAmount old - pay) (stored_time now));
    try done; [|lia..|change (0 < rr_Revision old + 1); lia|by rewrite Ha].
  unfold row, next_row, set_state, payout_settlement, settlementOutcome. unfold updated_row, row_of, toColumns.
  destruct (oo_Type o); try done; simpl.
  destruct (Hcompleted eq_refl) as [Hle Hd]. do 3 eexists. split_and!; try done.
  - by apply time_truncate_mono.
  - unfold interval_us, duration_us, Microsecond in *. simpl.
    assert (1 <= Z.quot (oo_DeliveryDuration o) 1000); [|lia].
    apply Z.quot_le_lower_bound; lia.
Qed.

(** What a settlement of the order of [old] leaves: the row, and the totals of
    the requester and of the courier whose offer was applied. *)
Record settles (payout : PayoutRule) (o : OrderOutcome) (old row : ReservationRow) (db db' : DB)
    : Prop := {
  st_status : rr_Status row = Settled;
  st_requester : rr_RequesterID row = rr_RequesterID old;
  st_courier : ∃ a x, rr_AssignmentID row = Some a ∧ assignments db' !! (oo_OrderID o, a) = Some x
    ∧ idString (as_CourierID x) = oo_CourierID o;
  st_reserved : rr_ReservedAmount row = 0;
  st_outcome : rr_SettlementOutcome row = Some (settlementOutcome o);
  st_paid : rr_PaidToCourier row = Some (payout (rr_ReservedAmount old) o);
  st_returned :
    rr_ReturnedToRequester row = Some (rr_ReservedAmount old - payout (rr_ReservedAmount old) o);
  st_bounds : 0 <= payout (rr_ReservedAmount old) o <= rr_ReservedAmount old;
  st_totals : ∃ v db1, rr_RequesterID old = Some v ∧ grown db db1
    ∧ is_Some (accounts db1 !! v) ∧ is_Some (accounts db1 !! oo_CourierID o)
    ∧ settled_totals v (oo_CourierID o) (rr_ReservedAmount old) (payout (rr_ReservedAmount old) o) db1 db';
}.

Definition settle_error (e : Error) : Prop :=
  e ∈ [ErrOutcomeMismatch; ErrReservationNotFound; ErrReservationNotAssigned] ∨ overflow e.

Lemma wp_settle payout o c db now old :
  validated o → releaseReason o = None → Inv db → reservations db !! oo_OrderID o = Some old →
  rr_Status old = Assigned →
  wp (settle payout (fromRow old) o now) c db
    (λ r db', applied (oo_OrderID o) db (RReservation r) db'
       ∧ ∃ row, r = fromRow row ∧ reservations db' !! oo_OrderID o = Some row
           ∧ settles payout o old row db db') settle_error.
Proof.
  intros Hval Hreason [HP HC] Hold Hst. destruct (Hval) as (Hone & Hty & Hcompleted).
  assert (∀ e, overflow e → settle_error e) as Hover by by right.
  assert (terminal (rr_Status old) = false) as Hopen by by rewrite Hst.
  destruct (stored_row _ _ _ _ _ _ HP Hold) as (Hoid & Hc & Hmax & Hmaxo & Hasg & Hreq).
  destruct (open_row_inv old Hc Hopen) as (_ & [v Hv] & Hpos & _).
  destruct (HC _ _ Hold) as (Happlied & Hass & _).
  destruct (Hass Hst) as (a & x & Ha & Hx & Happ & Hoffer & _).
  unfold settle, tx_Assignment, GetAssignment. apply wp_bind, wp_bind, wp_gets, wp_ret.
  change (OrderID (fromRow old)) with (rr_OrderID old). change (AssignmentID (fromRow old)) with (idString (rr_AssignmentID old)).
  rewrite Hoid, Ha. simpl idString. rewrite Hx. simpl.
  apply wp_bind, wp_ret, wp_bind, wp_ensure; [simpl; intros _|intros; documented].
  apply wp_bind, wp_ensure; [simpl; intros Hcid%bool_decide_eq_true|intros; documented]. rewrite Hoffer, Hcid. simpl.
  set (pay := payout (rr_ReservedAmount old) o).
  apply wp_bind, wp_ensure; [intros Hrange|intros; documented].
  assert (0 <= pay <= rr_ReservedAmount old) as Hpay by lia.
  change (RequesterID (fromRow old)) with (idString (rr_RequesterID old)).
  change (ReservedAmount (fromRow old)) with (rr_ReservedAmount old).
  rewrite Hv. simpl idString. apply wp_bind.
  eapply wp_mono; [by apply (wp_LockAccounts EmptyString 0 0)| |done].
  intros locked db1 (HP1 & [Hsame Hsub] & Hlocked).
  destruct (Hlocked v) as [Hacc _]; [apply list_elem_of_here|].
  destruct (Hlocked (oo_CourierID o)) as [Hcour _]; [apply list_elem_of_further, list_elem_of_here|].
  pose proof Hsame as (Hr & Hrv & Has & Hops).
  pose proof (same_orders_Coupled _ _ Hsame HC) as HC1.
  assert (is_Some (rr_AssignmentID old)) as Hsome by by rewrite Ha.
  destruct (settled_next_row c old o pay now) as (Hcheck & Hra & Hret); try done.
  { intros a' Ha'. by apply Hasg. }
  change (OrderID (fromRow old)) with (rr_OrderID old) in *.
  change (AssignmentID (fromRow old)) with (idString (rr_AssignmentID old)) in *.
  rewrite Ha in *. cbn [idString] in *. set (row := next_row _ _ _) in *.
  apply wp_bind. eapply wp_mono; [apply (wp_update_hold c db1 (oo_OrderID o) old (fromRow old) _ v
    (- rr_ReservedAmount old) row) with (Q := λ r db2, r = fromRow row ∧ db2 = written row db1
      ∧ Pending v (- rr_ReservedAmount old) 0 db2 ∧ 0 <= reserved_of db1 v - rr_ReservedAmount old);
    try done| |exact Hover].
  { by rewrite Hr. }
  { rewrite Hra. intros a' [= <-]. rewrite Has. by apply Hasg. }
  intros r' db2 (-> & -> & HP2 & HR). apply wp_bind.
  change (ReturnedToRequester _) with (sub64 (rr_ReservedAmount old) pay).
  rewrite sub64_id by int64_lia.
  eapply wp_mono; [apply (wp_settlement_postings c _ now _ v _ (rr_ReservedAmount old) pay); try done| |exact Hover].
  - change (rr_OrderID old ≠ EmptyString). by rewrite Hoid.
  - change (idString (rr_RequesterID old) = v). by rewrite Hv.
  - change (is_Some (reservations (written row db1) !! rr_OrderID old)). rewrite Hoid.
    rewrite <- Hoid. change (rr_OrderID old) with (rr_OrderID row). simpl. by rewrite lookup_insert_eq.
  - change (rr_ReservedAmount old <= reserved_of db1 v). lia.
  - intros _ db' (HP' & (Hr' & Hrv' & Has' & Hops') & Htot). apply wp_ret.
    change (settled_totals v (oo_CourierID o) (rr_ReservedAmount old) pay db1 db') in Htot.
    assert (rr_OrderID row = oo_OrderID o) as Hro by done.
    assert (reservations db' = <[oo_OrderID o := row]> (reservations db1)) as Hr2
      by (rewrite Hr', <- Hro; done).
    split; [split; [split; [by apply (Pending_rename v)|]|split]|].
    + apply (Coupled_change db1 db' (oo_OrderID o) row); try done; [by rewrite Has'|].
      split; [intros a' y; rewrite Has', Hra; simpl; rewrite Has; apply Happlied|split; [done|]].
      intros _. exists a, x. by rewrite Has'; simpl; rewrite Has.
    + by rewrite Hops'.
    + exists row. split; [done|]. rewrite Hrv', <- Hro. apply lookup_insert_eq.
    + exists row. split; [done|]. rewrite Hr2, lookup_insert_eq. split; [done|].
      split; try done; [exists a, x; by rewrite Has'; simpl; rewrite Has|by exists v, db1].
Qed.

(** ** ApplyOutcome *)

(** The order's reservation is terminal the way [o] says. *)
Definition concluded (o : OrderOutcome) (db : DB) (row : ReservationRow) : Prop :=
  reservations db !! oo_OrderID o = Some row
  ∧ (rr_RequesterID row = None ∨ rr_RequesterID row = Some (oo_RequesterID o))
  ∧ match releaseReason o with
    | Some reason =>
        rr_Status row = Released ∧ rr_ReleaseReason row = Some reason
        ∧ rr_SettlementOutcome row = Some OutcomeReleased
    | None =>
        rr_Status row = Settled ∧ rr_SettlementOutcome row = Some (settlementOutcome o)
        ∧ ∃ a x, rr_AssignmentID row = Some a ∧ assignments db !! (oo_OrderID o, a) = Some x
            ∧ idString (as_CourierID x) = oo_CourierID o
    end.

(** Delivering an outcome that has been applied changes nothing. *)
Lemma apply_concluded payout o c db row :
  rr_OrderID row = oo_OrderID o → concluded o db row →
  apply_outcome_body payout o c db = Ok ((fromRow row, false), db).
Proof.
  intros Hid (Hrow & Hreq & Hcon).
  unfold apply_outcome_body, tx_Reservation, LockReservation, tx_Assignment, GetAssignment, release,
    ensure, require, gets, ask, mbind, st_mbind, mret, st_mret.
  rewrite Hrow. simpl. unfold fromRow at 1 2. simpl.
  replace (bool_decide (idString (rr_RequesterID row) ≠ EmptyString)
           && bool_decide (idString (rr_RequesterID row) ≠ oo_RequesterID o)) with false.
  2: { destruct Hreq as [-> | ->]; simpl; [done|]. rewrite (bool_decide_false (oo_RequesterID o ≠ oo_RequesterID o)) by (intros Hne; by apply Hne).
       by rewrite andb_false_r. }
  simpl. destruct (releaseReason o) as [reason|] eqn:Hreason.
  - destruct Hcon as (Hst & Hrr & Hso). rewrite Hst, Hrr, Hso. simpl.
    by rewrite bool_decide_true.
  - destruct Hcon as (Hst & Hso & a & x & Ha & Hx & Hcid). rewrite Hst, Hso. simpl.
    rewrite bool_decide_true by done. simpl. rewrite Hid, Ha. simpl. rewrite Hx. simpl.
    by rewrite Hcid, bool_decide_true.
Qed.

(** An ended order stays ended the same way. *)
Lemma concluded_extends o db db' row : extends db db' → concluded o db row → concluded o db' row.
Proof.
  intros Hext (Hrow & Hreq & Hcon).
  destruct (ext_reservations _ _ Hext _ _ Hrow) as (row' & Hrow' & [->|(Ht & _)]).
  - split; [done|]. split; [done|]. destruct (releaseReason o); [done|].
    destruct Hcon as (Hst & Hso & a & x & Ha & Hx & Hcid). split; [done|]. split; [done|].
    destruct (ext_assignments _ _ Hext _ _ Hx) as (x' & Hx' & Hext'). exists a, x'.
    split; [done|]. split; [done|]. destruct Hext' as [->|(_&_&_&_&Hc&_)]; [done|]. by rewrite Hc.
  - exfalso. destruct (releaseReason o); destruct Hcon as (Hst & _); by rewrite Hst in Ht.
Qed.

(** What applying an outcome leaves. *)
Record outcome_applied (payout : PayoutRule) (o : OrderOutcome) (db : DB)
    (out : Reservation * bool) (db' : DB) : Prop := {
  oa_inv : Inv db';
  oa_operations : operations db' = operations db;
  oa_concluded : ∃ row, out.1 = fromRow row ∧ concluded o db' row;
  oa_unchanged : out.2 = false → db' = db;
  oa_released : ∀ reason, releaseReason o = Some reason →
    released (oo_OrderID o) reason db out db';
  oa_settled : releaseReason o = None → out.2 = true →
    ∃ old row, reservations db !! oo_OrderID o = Some old
      ∧ reservations db' !! oo_OrderID o = Some row ∧ settles payout o old row db db';
}.

(** The guard against another requester's outcome. *)
Lemma requester_guard old o :
  (∀ v, rr_RequesterID old = Some v → v ≠ EmptyString) →
  bool_decide (RequesterID (fromRow old) ≠ EmptyString)
    && bool_decide (RequesterID (fromRow old) ≠ oo_RequesterID o) = false →
  rr_RequesterID old = None ∨ rr_RequesterID old = Some (oo_RequesterID o).
Proof.
  unfold fromRow. simpl. destruct (rr_RequesterID old) as [v|]; [|by left]. simpl.
  intros Hne. rewrite bool_decide_true by (by apply Hne). simpl.
  intros Hb%bool_decide_eq_false. right. f_equal. by apply dec_stable.
Qed.

Lemma released_row_inv r :
  reservations_check r = true → rr_Status r = Released → rr_SettlementOutcome r = Some OutcomeReleased.
Proof.
  rewrite reservations_check_split. intros (_&_&_&_&_&Hrel&_) Hst.
  unfold reservations_released_check in Hrel. rewrite Hst in Hrel. simpl in Hrel. by bool_hyps.
Qed.

Lemma wp_apply_release payout o reason c db :
  validated o → releaseReason o = Some reason → Inv db →
  wp (apply_outcome_body payout o) c db (outcome_applied payout o db) settle_error.
Proof.
  intros (Hone & Hty & _) Hreason HI. pose proof HI as [HP HC].
  assert (valid reason = true) as Hvalid.
  { unfold releaseReason in Hreason. by destruct (oo_Type o); simplify_eq. }
  unfold apply_outcome_body, tx_Reservation, LockReservation.
  apply wp_bind, wp_bind, wp_gets, wp_ret, wp_bind, wp_ensure; [|intros; documented].
  intros Hguard%negb_true_iff. apply wp_bind, wp_ask. rewrite Hreason.
  apply wp_bind, wp_ensure; [|intros; documented]. intros Hns%negb_true_iff.
  apply wp_bind, wp_ensure; [|intros; documented]. intros Hre%negb_true_iff.
  eapply wp_mono; [by apply wp_release| |].
  - intros [r changed] db' Hrel. pose proof Hrel as ((HI' & Hops & _) & _ & _ & row & Hrow & Hdb' & Hst & Hreq & Hch).
    simpl in *. split; try done.
    + exists row. split; [done|]. split; [done|]. rewrite Hreason, Hst. split.
      * rewrite Hreq. destruct (reservations db !! oo_OrderID o) as [old|] eqn:Hold; [|by left].
        apply requester_guard; [|done]. intros v Hv.
        destruct (stored_row _ _ _ _ _ _ HP Hold) as (_&_&_&_&_&Hne). by apply Hne.
      * destruct changed; [by destruct_and!|]. subst db'. rewrite Hdb' in Hre. simpl in Hre.
        destruct (stored_row _ _ _ _ _ _ HP Hdb') as (_&Hc&_).
        pose proof (released_row_inv row Hc Hst) as Hso. split; [done|]. split; [|done].
        rewrite Hst, Hso in Hre. simpl in Hre. apply negb_false_iff, bool_decide_eq_true in Hre.
        apply reservations_check_split in Hc as (_&_&_&_&_&Hrc&_).
        unfold reservations_released_check in Hrc. rewrite Hst in Hrc. simpl in Hrc. bool_hyps.
        destruct (rr_ReleaseReason row); simpl in *; congruence.
    + by destruct changed.
    + congruence.
    + congruence.
  - intros e [[-> (r & Hr & Hst)]|?]; [|by right]. exfalso. rewrite Hr in Hns. simpl in Hns.
    by rewrite Hst in Hns.
Qed.

Lemma terminal_settled r : rr_Status r = Settled → terminal (rr_Status r) = true.
Proof. by intros ->. Qed.

(** The redelivery branch of a settled order. *)
Lemma wp_apply_settled payout o c db old :
  Inv db → releaseReason o = None → reservations db !! oo_OrderID o = Some old →
  rr_Status old = Settled →
  rr_RequesterID old = None ∨ rr_RequesterID old = Some (oo_RequesterID o) →
  let r := fromRow old in
  wp (_ ← ensure (match ResSettlement r with
                  | Some s => bool_decide (Outcome s = settlementOutcome o)
                  | None => false
                  end) ErrOutcomeMismatch;
      a ← tx_Assignment (OrderID r) (AssignmentID r);
      _ ← ensure (match a with
                  | Some a => bool_decide (asg_CourierID a = oo_CourierID o)
                  | None => false
                  end) ErrOutcomeMismatch;
      mret (r, false)) c db (outcome_applied payout o db) settle_error.
Proof.
  intros HI Hreason Hold Hst Hreq r. pose proof HI as [HP HC].
  destruct (stored_row _ _ _ _ _ _ HP Hold) as (Hoid & Hc & _).
  destruct (terminal_row_inv old Hc (terminal_settled _ Hst)) as (_ & [so Hso] & _ & Hs).
  destruct (Hs Hst) as [[a Ha] _].
  apply wp_bind, wp_ensure; [|intros; documented]. unfold r, fromRow. simpl. rewrite Hso, Ha, Hoid.
  intros Hout%bool_decide_eq_true. simpl in Hout. unfold tx_Assignment, GetAssignment.
  apply wp_bind, wp_bind, wp_gets, wp_ret, wp_bind, wp_ensure; [|intros; documented].
  destruct (assignments db !! _) as [x|] eqn:Hx; simpl; [|done].
  intros Hcid%bool_decide_eq_true. apply wp_ret. split; try done; [|congruence].
  exists old. split; [by unfold fromRow; rewrite Hso, Ha, Hoid|].
  split; [done|]. split; [done|]. rewrite Hreason. split; [done|].
  split; [by rewrite Hso, Hout|]. by exists a, x.
Qed.

Lemma wp_apply_settle payout o c db :
  validated o → releaseReason o = None → Inv db →
  wp (apply_outcome_body payout o) c db (outcome_applied payout o db) settle_error.
Proof.
  intros Hval Hreason HI. pose proof HI as [HP HC].
  unfold apply_outcome_body, tx_Reservation, LockReservation.
  apply wp_bind, wp_bind, wp_gets, wp_ret, wp_bind, wp_ensure; [|intros; documented].
  intros Hguard%negb_true_iff. apply wp_bind, wp_ask. rewrite Hreason.
  apply wp_bind, wp_require; [|intros; documented].
  intros r Hr. apply fmap_Some in Hr as (old & Hold & ->). rewrite Hold in Hguard. simpl in Hguard.
  apply requester_guard in Hguard; [|intros v Hv; destruct (stored_row _ _ _ _ _ _ HP Hold)
    as (_&_&_&_&_&Hne); by apply Hne].
  change (ResStatus (fromRow old)) with (rr_Status old). destruct (rr_Status old) eqn:Hst.
  - apply wp_throw. documented.
  - apply wp_bind. eapply wp_mono; [by apply wp_settle| |done].
    intros r db' [(HI' & Hops & _) (row & -> & Hrow & Hset)]. apply wp_ret.
    split; try done; [|congruence|eauto]. exists row. split; [done|]. split; [done|]. split.
    + by rewrite (st_requester _ _ _ _ _ _ Hset).
    + rewrite Hreason. destruct Hset. done.
  - apply wp_throw. documented.
  - by apply wp_apply_settled.
Qed.

Lemma wp_apply_outcome payout o c db :
  validated o → Inv db →
  wp (apply_outcome_body payout o) c db (outcome_applied payout o db) settle_error.
Proof.
  intros. destruct (releaseReason o) eqn:Hreason; [by eapply wp_apply_release|by apply wp_apply_settle].
Qed.

End settlement.
