(* ===== verification/CreditService.v ===== *)
(** * Credit: the service's calls and the states they reach

    Every call of the service and of its consumers, under any clock and any
    fault of the transaction, as a step of the database; the invariant holds in
    every reachable state, and the only errors a call returns are those of its
    contract. *)
From S2P Require Import Prelude.
From S2P Require Import GoLib.
From S2P Require Import CreditTypes.
From S2P Require Import CreditDB.
From S2P Require Import CreditAccount.
From S2P Require Import CreditReservation.
From S2P Require Import CreditOutcome.
From S2P Require Import CreditHistory.
From S2P Require Import CreditInvariant.
From S2P Require Import CreditStatements.
From S2P Require Import CreditOperations.
From S2P Require Import CreditSettlement.
From stdpp Require Import prelude gmap strings.
From Stdlib Require Import ZArith Lia.

Local Open Scope Z_scope.

Section service.
  Context `{UUID, !UUIDLaws, UUIDv7, !UUIDv7Laws, Digest}.

(** ** Describing the returned reservation *)

Definition with_adjustment (r : Reservation) (a : option Adjustment) : Reservation := {|
  OrderID := OrderID r; RequesterID := RequesterID r; ResStatus := ResStatus r;
  OriginalAmount := OriginalAmount r; ReservedAmount := ReservedAmount r;
  AssignmentID := AssignmentID r; ResAdjustment := a; ResSettlement := ResSettlement r;
  Revision := Revision r; CreatedAt := CreatedAt r; UpdatedAt := UpdatedAt r |}.

(** The adjustment that [withAdjustment] reads for a stored revision. *)
Definition adjustment_of (db : DB) (row : ReservationRow) : option Adjustment :=
  if decide (rr_Status row = Assigned) then
    x ← rr_AssignmentID row ≫= λ a, assignments db !! (rr_OrderID row, a);
    Some {| adj_AssignmentID := as_AssignmentID x; adj_CourierID := idString (as_CourierID x);
            adj_PreviousAmount := rr_OriginalAmount row;
            adj_OfferAmount := opt_or (as_OfferAmount x) 0; adj_Status := Applied |}
  else None.

(** A revision as the caller sees it. *)
Definition described (db : DB) (row : ReservationRow) : Reservation :=
  with_adjustment (fromRow row) (adjustment_of db row).

(** An Assigned revision names an assignment that exists. *)
Definition describable (db : DB) (row : ReservationRow) : Prop :=
  rr_Status row = Assigned →
  ∃ a, rr_AssignmentID row = Some a ∧ is_Some (assignments db !! (rr_OrderID row, a)).

Lemma stored_describable u d b db k row :
  Pending u d b db → revisions db !! k = Some row → describable db row.
Proof.
  intros HP Hrow Hst. destruct (pn_revisions _ _ _ _ HP _ _ Hrow) as (Hid&_&Hc&_&_&Hasg&_).
  apply reservations_check_split in Hc as (_&_&_&Ha&_). unfold reservations_assigned_check in Ha.
  rewrite Hst in Ha. simpl in Ha.
  destruct (rr_AssignmentID row) as [a|] eqn:Hra; [|by rewrite andb_false_r in Ha].
  exists a. split; [done|]. rewrite Hid. by apply Hasg.
Qed.

Lemma withAdjustment_described db row c :
  describable db row → withAdjustment (fromRow row) c db = Ok (described db row, db).
Proof.
  intros Hd. unfold withAdjustment, described, adjustment_of.
  change (ResStatus (fromRow row)) with (rr_Status row).
  destruct (decide (rr_Status row = Assigned)) as [Hst|]; [|done].
  destruct (Hd Hst) as (a & Ha & [x Hx]).
  change (OrderID (fromRow row)) with (rr_OrderID row).
  change (AssignmentID (fromRow row)) with (idString (rr_AssignmentID row)).
  unfold tx_Assignment, GetAssignment, gets, require, mbind, st_mbind. rewrite Ha. simpl.
  rewrite Hx. simpl. unfold with_adjustment. simpl. by rewrite Ha.
Qed.

(** Later states describe a revision the same way. *)
Lemma described_extends db db' row :
  extends db db' → describable db row → described db' row = described db row.
Proof.
  intros Hext Hd. unfold described, adjustment_of.
  destruct (decide (rr_Status row = Assigned)) as [Hst|]; [|done].
  destruct (Hd Hst) as (a & Ha & [x Hx]). rewrite Ha. simpl. rewrite Hx. simpl.
  destruct (ext_assignments _ _ Hext _ _ Hx) as (x' & -> & Hx'). simpl.
  destruct Hx' as [->|(_ & _ & _ & -> & -> & -> & _)]; done.
Qed.

(** ** The service's mutations *)

(** What a mutation needs of its arguments, checked by its operation. *)
Inductive service_mutation : Mutation → Prop :=
| sm_reserve o r n m : is_int64 n → Reserve o r n = Ok m → service_mutation m
| sm_adjust o a courier n m : is_int64 n → AdjustReservation o a courier n = Ok m → service_mutation m
| sm_revert o a m : RevertAdjustment o a = Ok m → service_mutation m
| sm_release o reason m : ReleaseReservation o reason = Ok m → service_mutation m.

Lemma service_mutation_of m : service_mutation m → mutation_of m.
Proof. unfold mutation_of. intros []; naive_solver. Qed.

(** The refusals of each mutation; overflow of a BIGINT column is the only
    database error that remains. *)
Definition refusals (k : OperationKind) : list Error :=
  match k with
  | OpReserve => [ErrReservationReleased; ErrIdempotencyConflict]
  | OpAdjust => [ErrReservationNotFound; ErrReservationReleased; ErrReservationSettled;
                 ErrInvalidArgument; ErrAdjustmentReverted; ErrAdjustmentPending; ErrIdempotencyConflict]
  | OpRevert => [ErrReservationNotFound; ErrReservationSettled; ErrIdempotencyConflict]
  | OpRelease => [ErrReservationSettled; ErrIdempotencyConflict]
  end.

Definition mutation_error (k : OperationKind) (e : Error) : Prop := e ∈ refusals k ∨ overflow e.

(** A mutation's key names an order, and an assignment where it has one. *)
Definition key_ok (k : OperationKey) : Prop :=
  key_OrderID k ≠ EmptyString
  ∧ is_some (optionalID (key_AssignmentID k)) = adjust_or_revert (key_Kind k).

(** Only Reserve and AdjustReservation may find the credits insufficient. *)
Definition sufficient (k : OperationKind) (out : mutation_result) : Prop :=
  out = RInsufficient → k = OpReserve ∨ k = OpAdjust.

Lemma revert_sufficient o a now c db :
  wp (revert_apply o a now) c db (λ out _, sufficient OpRevert out) (λ _, True).
Proof.
  unfold revert_apply. repeat first
    [ apply wp_ret; by intros ? | apply wp_bind, wp_intro; [intros ?? _|done]
    | match goal with |- wp (match ?x with _ => _ end) _ _ _ _ => destruct x end ].
Qed.

Lemma release_sufficient o reason now c db :
  wp (release_apply o reason now) c db (λ out _, sufficient OpRelease out) (λ _, True).
Proof.
  unfold release_apply. apply wp_bind, wp_intro; [|done]. intros r db1 _.
  apply wp_bind, wp_intro; [|done]. intros [next ?] db2 _. by apply wp_ret.
Qed.

Lemma wp_conj {A} (m : Tx A) c db Q Q' (X : Error → Prop) :
  wp m c db Q X → wp m c db Q' (λ _, True) → wp m c db (λ a s, Q a s ∧ Q' a s) X.
Proof. unfold wp. by destruct (m c db) as [[??]|]. Qed.

Lemma wp_both {A} (m : Tx A) c db Q Q' (X X' : Error → Prop) :
  wp m c db Q X → wp m c db Q' X' → wp m c db (λ a s, Q a s ∧ Q' a s) (λ e, X e ∧ X' e).
Proof. unfold wp. by destruct (m c db) as [[??]|]. Qed.

(** The mutation itself, from a state that satisfies the invariant. *)
Lemma wp_service_mutation m now c db :
  service_mutation m → Inv db →
  wp (mut_apply m now) c db
    (λ out db', applied (key_OrderID (mut_key m)) db out db' ∧ sufficient (key_Kind (mut_key m)) out)
    (mutation_error (key_Kind (mut_key m))) ∧ key_ok (mut_key m).
Proof.
  assert (∀ l l' : list Error, l ⊆ l' → ∀ e, e ∈ l ∨ overflow e → e ∈ l' ∨ overflow e) as Hsub
    by (intros l l' Hl e [?|?]; [left; by apply Hl|by right]).
  intros [o r n m' Hn Hm|o a courier n m' Hn Hm|o a m' Hm|o reason m' Hm] HI.
  - apply Reserve_ok in Hm as (o' & r' & Ho & Hr & Hpos & ->). simpl.
    apply uuid_parse_nonempty in Ho, Hr. split; [|done].
    eapply wp_mono; [apply wp_reserve_apply; [done..|int64_lia|done]|by split; [|left]|].
    intros e [->|[->|?]]; [by left; repeat constructor..|by right].
  - apply AdjustReservation_ok in Hm as (o' & a' & c' & Ho & Ha & Hc & Hpos & ->). simpl.
    apply uuid_parse_nonempty in Ho, Ha, Hc. split; [|by split; [|simpl; rewrite optionalID_some]].
    eapply wp_mono; [apply wp_adjust_apply; [done..|int64_lia|done]|by split; [|right]|].
    apply Hsub. intros e'. unfold refusals. rewrite !elem_of_cons. tauto.
  - apply RevertAdjustment_ok in Hm as (o' & a' & Ho & Ha & ->). simpl.
    apply uuid_parse_nonempty in Ho, Ha. split; [|by split; [|simpl; rewrite optionalID_some]].
    apply wp_conj; [|apply revert_sufficient].
    eapply wp_mono; [by apply wp_revert_apply|by intros ?? [? _]|].
    intros e [[[-> _]|[-> _]]|?]; [by left; repeat constructor..|by right].
  - apply ReleaseReservation_ok in Hm as (o' & Ho & Hv & ->). simpl.
    apply uuid_parse_nonempty in Ho. split; [|done].
    apply wp_conj; [|apply release_sufficient].
    eapply wp_mono; [by apply wp_release_apply|done|]. apply Hsub. intros e'. unfold refusals. rewrite !elem_of_cons. tauto.
Qed.

(** ** mutate *)

(** The outcome of a recorded operation, as a replay reports it. *)
Inductive recorded (db : DB) (k : OperationKey) : mutation_result → Prop :=
| recorded_insufficient x :
    operations db !! operation_id k = Some x → or_Insufficient x = true →
    recorded db k RInsufficient
| recorded_revision x n row :
    operations db !! operation_id k = Some x → or_Insufficient x = false →
    or_Revision x = Some n → revisions db !! (key_OrderID k, n) = Some row →
    recorded db k (RReservation (described db row)).

(** What a call of a mutation leaves: the invariant, and its outcome recorded
    under its key with the hash of its payload. *)
Definition performed (m : Mutation) (out : mutation_result) (db' : DB) : Prop :=
  Inv db' ∧ recorded db' (mut_key m) out
  ∧ ∃ x, operations db' !! operation_id (mut_key m) = Some x
       ∧ or_RequestHash x = requestHash (mut_payload m).

(** What fences a repeated call off: the release of the order's reservation, also
    by a tombstone, from reserving and adjusting; the reversion of the offer from
    adjusting. *)
Definition is_released (order : string) (db : DB) : Prop :=
  ∃ row, reservations db !! order = Some row ∧ rr_Status row = Released.
Definition is_reverted (order offer : string) (db : DB) : Prop :=
  ∃ x, assignments db !! (order, offer) = Some x ∧ as_Status x = Reverted.
Definition fenced (k : OperationKey) (db : DB) (e : Error) : Prop :=
  let released := is_released (key_OrderID k) db in
  match key_Kind k with
  | OpReserve => released ∧ e = ErrReservationReleased
  | OpAdjust => released ∧ e = ErrReservationReleased
                ∨ ¬ released ∧ is_reverted (key_OrderID k) (key_AssignmentID k) db ∧ e = ErrAdjustmentReverted
  | _ => False
  end.

Lemma fenced_error k db e :
  fenced k db e → e = ErrReservationReleased ∧ (key_Kind k = OpReserve ∨ key_Kind k = OpAdjust)
                  ∨ e = ErrAdjustmentReverted ∧ key_Kind k = OpAdjust.
Proof. unfold fenced. destruct (key_Kind k); naive_solver. Qed.

Lemma wp_checkReplay k c db :
  wp (checkReplay k) c db (λ _ db', db' = db ∧ ∀ e, ¬ fenced k db e) (fenced k db).
Proof.
  unfold checkReplay. destruct (decide _) as [Hk|Hk].
  { apply wp_ret. split; [done|]. intros e. unfold fenced. destruct Hk, (key_Kind k); naive_solver. }
  unfold tx_Reservation, LockReservation. apply wp_bind, wp_bind, wp_gets, wp_ret.
  assert (match fromRow <$> reservations db !! key_OrderID k with
          | Some r => bool_decide (ResStatus r = Released) | None => false end = true
          ↔ is_released (key_OrderID k) db) as Hrel.
  { unfold is_released. destruct (reservations db !! key_OrderID k) as [row|]; cbn.
    - rewrite bool_decide_eq_true. split; [by exists row|]. by intros (? & [= <-] & ?).
    - split; [done|]. by intros (? & ? & _). }
  apply wp_bind, wp_ensure.
  2: { intros Hr%negb_false_iff. apply Hrel in Hr. unfold fenced. destruct (key_Kind k); naive_solver. }
  intros Hr%negb_true_iff.
  assert (¬ is_released (key_OrderID k) db) as Hn by (rewrite <- Hrel; by rewrite Hr).
  destruct (decide (key_Kind k ≠ OpAdjust)) as [Hadj|Hadj%dec_stable].
  { apply wp_ret. split; [done|]. intros e. unfold fenced. destruct (key_Kind k); naive_solver. }
  unfold tx_Assignment, GetAssignment. apply wp_bind, wp_bind, wp_gets, wp_ret.
  unfold fenced, is_reverted. rewrite Hadj.
  destruct (assignments db !! (key_OrderID k, key_AssignmentID k)) as [x|] eqn:Hx.
  - apply wp_ensure.
    + intros Hx2%negb_true_iff%bool_decide_eq_false. split; [done|]. intros e [[? _]|(_ & (y & [= <-] & Hy) & _)]; [done|].
      by apply Hx2.
    + intros Hx2%negb_false_iff%bool_decide_eq_true. right. split_and!; [done|by exists x|done].
  - apply wp_ensure; [|done]. intros _. split; [done|]. intros e [[? _]|(_ & (y & Hy & _) & _)]; congruence.
Qed.

(** Replaying a recorded operation reads the database and reports the recorded
    outcome, or the transition that fenced it off. *)
Lemma wp_replay m c db x :
  Inv db → operations db !! operation_id (mut_key m) = Some x →
  wp (mutate_body m) c db (λ out db', db' = db ∧ performed m out db ∧ ∀ e, ¬ fenced (mut_key m) db e)
    (λ e, e = ErrIdempotencyConflict ∧ or_RequestHash x ≠ requestHash (mut_payload m)
       ∨ fenced (mut_key m) db e).
Proof.
  intros HI Hx. pose proof HI as [HP HC].
  destruct (pn_operations _ _ _ _ HP _ _ Hx) as [Hcheck Hrev].
  unfold mutate_body, tx_Operation, GetOperation. apply wp_bind, wp_bind, wp_gets. rewrite Hx.
  apply wp_ret. simpl. apply wp_bind, wp_ensure.
  2: { intros Hh%bool_decide_eq_false. by left. }
  intros Hh%bool_decide_eq_true. apply wp_bind.
  eapply wp_mono; [apply wp_checkReplay| |by auto]. simpl in Hh.
  intros _ db' [-> Hfree]. destruct (or_Insufficient x) eqn:Hins.
  - apply wp_ret. split; [done|]. split; [|done]. split; [done|]. split; [by eapply recorded_insufficient|by exists x].
  - destruct (or_Revision x) as [n|] eqn:Hn.
    2: { unfold operations_check in Hcheck. by rewrite Hins, Hn, andb_false_r in Hcheck. }
    destruct (Hrev n eq_refl) as [row Hrow]. unfold operation_id in Hrow. simpl in *.
    unfold tx_Revision, GetReservationRevision. apply wp_bind, wp_bind, wp_gets. rewrite Hrow.
    apply wp_bind, wp_ret, wp_ret, wp_bind. unfold wp.
    rewrite withAdjustment_described by (by eapply stored_describable).
    split; [done|]. split; [|done]. split; [done|]. split; [by eapply recorded_revision|by exists x].
Qed.

Lemma saved_operation_ok o db db1 k out hash now :
  applied o db out db1 → key_OrderID k = o → key_ok k → sufficient (key_Kind k) out →
  operation_ok db1 (operation_id k) {|
    or_RequestHash := hash;
    or_Revision := if match out with RInsufficient => true | RReservation _ => false end then None
                   else Some (match out with RInsufficient => 0 | RReservation r => Revision r end);
    or_Insufficient := match out with RInsufficient => true | RReservation _ => false end;
    or_CreatedAt := now |}.
Proof.
  intros (_ & _ & Hout) <- [Ho Hkey] Hsuf. split.
  - unfold operations_check. simpl. rewrite Hkey, eqb_reflx.
    destruct out; [|done]. simpl. by destruct (Hsuf eq_refl) as [-> | ->].
  - simpl. destruct out as [|r]; [done|]. destruct Hout as (row & -> & Hrow).
    intros n [= <-]. by eexists.
Qed.

(** The first call records what its mutation did: the mutation's own
    postcondition [Q] holds of the state before the record. *)
Lemma wp_first_call m c db Q X :
  service_mutation m → Inv db → operations db !! operation_id (mut_key m) = None →
  wp (mut_apply m (service_clock c)) c db Q X →
  wp (mutate_body m) c db
    (λ out db', performed m out db' ∧ ∃ out0 db1 x,
       Q out0 db1 ∧ db' = set_operations (insert (operation_id (mut_key m)) x) db1
       ∧ match out0 with
         | RInsufficient => out = RInsufficient
         | RReservation r => ∃ adj, out = RReservation (with_adjustment r adj)
         end)
    (λ e, mutation_error (key_Kind (mut_key m)) e ∧ X e).
Proof.
  intros Hm HI Hnone HQ.
  destruct (wp_service_mutation m (service_clock c) c db Hm HI) as [Happly [Ho Hkey]].
  unfold mutate_body, tx_Operation, GetOperation. apply wp_bind, wp_bind, wp_gets. rewrite Hnone.
  apply wp_ret. simpl. apply wp_bind, wp_ask, wp_bind.
  eapply wp_mono; [exact (wp_both _ _ _ _ _ _ _ Happly HQ)| |done].
  intros out db1 [[Happ Hsuf] HQ1]. pose proof Happ as ([HP HC] & Hops & Hout).
  unfold tx_SaveOperation. simpl. apply wp_bind. unfold wp at 1.
  rewrite InsertOperation_ok; [|by rewrite Hops|by eapply saved_operation_ok].
  set (x := {| or_RequestHash := requestHash (mut_payload m) |}). set (db2 := set_operations _ db1).
  assert (operations db2 !! operation_id (mut_key m) = Some x) as Hx by by apply lookup_insert_eq.
  assert (Inv db2) as HI2.
  { split; [|done]. apply Pending_operation; [done|]. by eapply saved_operation_ok. }
  destruct out as [|r].
  - apply wp_ret. split; [|by exists RInsufficient, db1, x].
    split; [done|]. split; [by eapply recorded_insufficient|by exists x].
  - destruct Hout as (row & -> & Hrow). apply wp_bind. unfold wp.
    rewrite withAdjustment_described by (by eapply (stored_describable EmptyString 0 0); [apply HI2|]).
    split; [|exists (RReservation (fromRow row)), db1, x; split_and!; try done; by eexists].
    split; [done|]. split; [by eapply (recorded_revision db2 _ x (rr_Revision row) row)|by exists x].
Qed.

Lemma wp_mutate m c db :
  service_mutation m → Inv db →
  wp (mutate_body m) c db (performed m) (mutation_error (key_Kind (mut_key m))).
Proof.
  intros Hm HI. destruct (operations db !! operation_id (mut_key m)) as [x|] eqn:Hx.
  - eapply wp_mono; [by apply (wp_replay m c db x)|by intros ?? (-> & ? & _)|]. intros e He. left.
    assert (e = ErrIdempotencyConflict ∨ e = ErrReservationReleased ∧ (key_Kind (mut_key m) = OpReserve ∨ key_Kind (mut_key m) = OpAdjust)
            ∨ e = ErrAdjustmentReverted ∧ key_Kind (mut_key m) = OpAdjust) as Hcases
      by (destruct He as [[-> _]|He]; [by left|right; by eapply fenced_error]).
    revert Hcases. destruct (key_Kind (mut_key m)); simpl; intros [->|[[-> Hk]|[-> Hk]]];
      try (by destruct Hk as [|]); try done;
      repeat first [apply list_elem_of_here | apply list_elem_of_further].
  - eapply wp_mono; [apply (wp_first_call m c db (λ _ _, True) (λ _, True)); try done|by intros ?? [? _]|by intros ? [? _]].
    by apply wp_intro.
Qed.

(** ** Accounts *)

Lemma wp_open_account user now c db :
  Inv db → uuid_parse user = Some user →
  wp (PostgresStore_Open user now) c db
    (λ _ db', Inv db' ∧ grown db db' ∧ is_Some (accounts db' !! user)) (λ _, False).
Proof.
  intros [HP HC] Hu. unfold PostgresStore_Open, parse_user. rewrite Hu. simpl.
  apply wp_bind, wp_ret, wp_bind. eapply wp_mono; [by apply (wp_Open EmptyString 0 0)| |done].
  intros a db' (HP' & Hg & Ha). apply wp_ret. split; [split; [done|]|by split; [|eexists]].
  destruct Hg. by eapply same_orders_Coupled.
Qed.

(** ** Reachable states *)

Section reachability.
  Context (payout : PayoutRule).

(** One call, under any clock and any fault. *)
Inductive step (db db' : DB) : Prop :=
| step_mutate c fl m out :
    service_mutation m → mutate c fl (Ok m) db = (out, db') → step db db'
| step_outcome c fl o out : ApplyOutcome payout c fl o db = (out, db') → step db db'
| step_open c fl user out : open_account c fl user db = (out, db') → step db db'.

Definition reachable (db : DB) : Prop := rtc step empty_db db.

(** A transaction body that preserves the invariant preserves it through its
    commit. *)
Lemma transact_Inv {A} c fl (f : Tx A) db out db' (X : Error → Prop) :
  Inv db → wp f c db (λ _, Inv) X → transact c fl f db = (out, db') → Inv db'.
Proof.
  intros HI Hf [->|(a & Ha)]%transact_cases; [done|]. unfold wp in Hf. by rewrite Ha in Hf.
Qed.

(** The transaction that a call runs. *)
Lemma mutate_transact c fl m out db db' :
  mutate c fl (Ok m) db = (out, db') → ∃ out0, transact c fl (mutate_body m) db = (out0, db').
Proof.
  unfold mutate. destruct (Within _ _ _ _) as [out0 db0] eqn:HW. intros [= <- <-].
  by eapply Within_transact.
Qed.

Lemma step_Inv db db' : Inv db → step db db' → Inv db'.
Proof.
  intros HI [c fl m out Hm Hrun|c fl o out Hrun|c fl user out Hrun].
  - apply mutate_transact in Hrun as [out0 HW]. eapply transact_Inv; [exact HI| |exact HW].
    eapply wp_mono; [by apply wp_mutate|by intros ?? [? _]|done].
  - unfold ApplyOutcome in Hrun. destruct (validate o) as [o'|] eqn:Hval; [|by simplify_eq].
    apply Within_transact in Hrun as [out0 HW]. eapply transact_Inv; [exact HI| |exact HW].
    eapply wp_mono; [apply wp_apply_outcome; [by eapply validate_ok|done]|by intros ?? []|done].
  - unfold open_account in Hrun. destruct (uuid_parse user) as [id|] eqn:Hid; [|by simplify_eq].
    eapply transact_Inv; [exact HI| |exact Hrun].
    eapply wp_mono; [apply wp_open_account; [done|by eapply uuid_parse_canonical]|by intros ?? [? _]|done].
Qed.

Lemma step_extends db db' : step db db' → extends db db'.
Proof.
  intros [c fl m out Hm Hrun|c fl o out Hrun|c fl user out Hrun].
  - apply mutate_transact in Hrun as [out0 HW]. eapply transact_monotone; [|exact HW].
    by apply mono_mutate, service_mutation_of.
  - unfold ApplyOutcome in Hrun. destruct (validate o) as [o'|]; [|by simplify_eq].
    apply Within_transact in Hrun as [out0 HW]. eapply transact_monotone; [|exact HW].
    apply mono_apply_outcome.
  - unfold open_account in Hrun. destruct (uuid_parse user) as [id|]; [|by simplify_eq].
    eapply transact_monotone; [|exact Hrun]. unfold PostgresStore_Open, parse_user. mono. apply mono_Open.
Qed.

Lemma steps_Inv db db' : Inv db → rtc step db db' → Inv db'.
Proof. intros HI Hs. revert HI. induction Hs; eauto using step_Inv. Qed.

Lemma reachable_Inv db : reachable db → Inv db.
Proof. apply steps_Inv, empty_Inv. Qed.

Lemma steps_extends db db' : rtc step db db' → extends db db'.
Proof. induction 1; [done|]. etrans; [by apply step_extends|done]. Qed.

End reachability.

End service.
