(* ===== verification/CreditExamples.v ===== *)
(** * Credit: a concrete run

    One order from registration to settlement, evaluated step by step: the
    inputs at which the theorems about reachable states are exercised. The
    parameters are instantiated by the example parser, the identity digest and
    consecutive ledger identifiers. *)
From S2P Require Import Prelude.
From S2P Require Import GoLib.
From S2P Require Import CreditTypes.
From S2P Require Import CreditDB.
From S2P Require Import CreditAccount.
From S2P Require Import CreditReservation.
From S2P Require Import CreditOutcome.
From S2P Require Import CreditInvariant.
From S2P Require Import CreditService.
From stdpp Require Import prelude gmap strings.
From Stdlib Require Import ZArith.

Local Open Scope Z_scope.

#[export] Instance ex_uuid : UUID := example_uuid.
#[export] Instance ex_uuid_laws : UUIDLaws := example_uuid_laws.
#[export] Instance ex_digest : Digest := λ s, s.
#[export] Instance ex_v7 : UUIDv7 := Z.of_nat.
#[export] Instance ex_v7_laws : UUIDv7Laws.
Proof. intros n m ?. unfold new_v7, ex_v7. lia. Qed.

(** The order, its requester, two couriers and two assignments. *)
Definition order_1 : string := "00000000-0000-4000-8000-000000000001".
Definition alice : string := "00000000-0000-4000-8000-00000000000a".
Definition bob : string := "00000000-0000-4000-8000-00000000000b".
Definition offer_1 : string := "00000000-0000-4000-8000-0000000000a1".

Definition ex_clocks (n : Z) : Clocks :=
  {| service_clock := n * Second; current_timestamp := n * Second |}.

(** A mutation of the service, and the database it leaves. *)
Definition run (m : result Error Mutation) (n : Z) (db : DB) : DB :=
  (mutate (ex_clocks n) no_faults m db).2.

Definition ex_completed : OrderOutcome := {|
  oo_OrderID := order_1; oo_Type := OrderCompleted; oo_RequesterID := alice; oo_CourierID := bob;
  oo_PickedUpAt := 100 * Second; oo_DeliveredAt := 190 * Second; oo_DeliveryDuration := 60 * Second |}.

Definition ex_expired : OrderOutcome := {|
  oo_OrderID := order_1; oo_Type := OrderExpired; oo_RequesterID := alice; oo_CourierID := EmptyString;
  oo_PickedUpAt := 0; oo_DeliveredAt := 0; oo_DeliveryDuration := 0 |}.

Definition reserve_m : Mutation := {|
  mut_key := {| key_Kind := OpReserve; key_OrderID := order_1; key_AssignmentID := EmptyString |};
  mut_payload := reserve_payload alice 40; mut_apply := reserve_apply order_1 alice 40 |}.
Definition adjust_m : Mutation := {|
  mut_key := {| key_Kind := OpAdjust; key_OrderID := order_1; key_AssignmentID := offer_1 |};
  mut_payload := adjust_payload bob 50; mut_apply := adjust_apply order_1 offer_1 bob 50 |}.
Definition revert_m : Mutation := {|
  mut_key := {| key_Kind := OpRevert; key_OrderID := order_1; key_AssignmentID := offer_1 |};
  mut_payload := revert_payload; mut_apply := revert_apply order_1 offer_1 |}.

Lemma reserve_m_ok : service_mutation reserve_m.
Proof. by apply (sm_reserve order_1 alice 40). Qed.
Lemma adjust_m_ok : service_mutation adjust_m.
Proof. by apply (sm_adjust order_1 offer_1 bob 50). Qed.
Lemma revert_m_ok : service_mutation revert_m.
Proof. by apply (sm_revert order_1 offer_1). Qed.

(** The run: Alice registers, reserves 40, accepts Bob's offer of 50, and the
    order is delivered 90 s after a pickup that allowed 60 s. *)
Definition db_opened : DB := (open_account (ex_clocks 1) no_faults alice empty_db).2.
Definition db_held : DB := run (Ok reserve_m) 2 db_opened.
Definition db_assigned : DB := run (Ok adjust_m) 3 db_held.
Definition db_settled : DB :=
  (ApplyOutcome LatenessPayout (ex_clocks 200) no_faults ex_completed db_assigned).2.

(** Two other endings. *)
Definition db_expired : DB :=
  (ApplyOutcome LatenessPayout (ex_clocks 200) no_faults ex_expired db_held).2.
Definition db_reverted : DB := run (Ok revert_m) 4 db_assigned.

Lemma reach_mutate db m n :
  reachable LatenessPayout db → service_mutation m → reachable LatenessPayout (run (Ok m) n db).
Proof.
  intros Hdb Hm. eapply rtc_r; [exact Hdb|]. unfold run.
  by eapply step_mutate, surjective_pairing.
Qed.

Lemma reach_outcome db o n :
  reachable LatenessPayout db →
  reachable LatenessPayout (ApplyOutcome LatenessPayout (ex_clocks n) no_faults o db).2.
Proof. intros Hdb. eapply rtc_r; [exact Hdb|]. by eapply step_outcome, surjective_pairing. Qed.

Lemma db_opened_reachable : reachable LatenessPayout db_opened.
Proof. eapply rtc_once, step_open, surjective_pairing. Qed.
Lemma db_held_reachable : reachable LatenessPayout db_held.
Proof. apply reach_mutate; [apply db_opened_reachable|apply reserve_m_ok]. Qed.
Lemma db_assigned_reachable : reachable LatenessPayout db_assigned.
Proof. apply reach_mutate; [apply db_held_reachable|apply adjust_m_ok]. Qed.
Lemma db_settled_reachable : reachable LatenessPayout db_settled.
Proof. apply reach_outcome, db_assigned_reachable. Qed.
Lemma db_expired_reachable : reachable LatenessPayout db_expired.
Proof. apply reach_outcome, db_held_reachable. Qed.
Lemma db_reverted_reachable : reachable LatenessPayout db_reverted.
Proof. apply reach_mutate; [apply db_assigned_reachable|apply revert_m_ok]. Qed.
