(* ===== verification/CreditReads.v ===== *)
(** * Credit: the account service's reads and the error contract

    Functional properties that need no database invariant: the pages of the
    ledger, the mapping of domain errors to RPC errors, and at the end the rule of
    lateness. *)
From S2P Require Import Prelude.
From S2P Require Import GoLib.
From S2P Require Import CreditTypes.
From S2P Require Import CreditDB.
From S2P Require Import CreditAccount.
From S2P Require Import CreditReservation.
From S2P Require Import CreditOutcome.
From S2P Require Import CreditExamples.
From stdpp Require Import prelude gmap strings sorting.
From Stdlib Require Import ZArith Lia.

Local Open Scope Z_scope.

(** ** Pages of the ledger *)

#[export] Instance newest_first_total : Total newest_first.
Proof. intros e e'. unfold newest_first. lia. Qed.

Section reads.
  Context `{UUID, UUIDv7}.

Definition ledger_of (db : DB) (id : string) : list LedgerEntryRow :=
  merge_sort newest_first (user_entries db id).

(** The i-th page (from 0) of [size] entries. *)
Definition ledger_page (db : DB) (id : string) (size : nat) (i : nat) : account.LedgerPage :=
  let total := Z.of_nat (length (user_entries db id)) in {|
  account.lp_Entries := ledger_entry <$> take size (drop (i * size) (ledger_of db id));
  account.lp_PageInfo := {|
    account.pi_Page := Z.of_nat i + 1; account.pi_PageSize := Z.of_nat size;
    account.TotalItems := total;
    account.TotalPages := wrap32 (Z.quot (total + Z.of_nat size - 1) (Z.of_nat size)) |} |}.

Lemma list_page user id a db c (size i : nat) :
  uuid_parse user = Some id → uuid_parse id = Some id → accounts db !! id = Some a →
  (0 < size)%nat → Z.of_nat size <= account.MaxPageSize → Z.of_nat i < 2 ^ 31 - 1 →
  AccountService_ListLedgerEntries user
    {| account.Number := Z.of_nat i + 1; account.Size := Z.of_nat size |} c db
  = Ok (ledger_page db id size i, db).
Proof.
  intros Hu Hid Ha Hs Hmax Hi. unfold account.MaxPageSize in Hmax.
  unfold AccountService_ListLedgerEntries, parse_user, require, mbind, st_mbind. rewrite Hu. simpl.
  unfold normalize_page. simpl.
  replace ((Z.of_nat i + 1 <? 0) || (Z.of_nat size <? 0) || (account.MaxPageSize <? Z.of_nat size))
    with false by (unfold account.MaxPageSize; lia).
  unfold PostgresStore_Account, parse_user, GetAccount, require, gets, mbind, st_mbind. simpl.
  rewrite Hid. simpl. rewrite Ha. simpl.
  destruct (Z.eqb_spec (Z.of_nat size) 0) as [|_]; [lia|].
  destruct (Z.eqb_spec (Z.of_nat i + 1) 0) as [|_]; [lia|].
  unfold PostgresStore_LedgerEntries, parse_user, ListLedgerEntries, CountLedgerEntries, require,
    gets, mbind, st_mbind. rewrite Hid. simpl.
  rewrite wrap32_id by lia.
  replace (Z.to_nat (Z.of_nat size)) with size by lia.
  replace (Z.to_nat ((Z.of_nat i + 1 - 1) * Z.of_nat size)) with (i * size)%nat by lia. done.
Qed.

(** The pages of a user's ledger are complete. For any page size up to the
    maximum, pages 1 to TotalPages together list each of the user's entries
    exactly once, newest first. *)
Theorem ledger_pages_complete user id a db c (size : nat) :
  uuid_parse user = Some id → uuid_parse id = Some id → accounts db !! id = Some a →
  (0 < size)%nat → Z.of_nat size <= account.MaxPageSize →
  Z.of_nat (length (user_entries db id)) < 2 ^ 31 - account.MaxPageSize →
  ∃ pages : list account.LedgerPage,
    (∀ i page, pages !! i = Some page →
       AccountService_ListLedgerEntries user
         {| account.Number := Z.of_nat i + 1; account.Size := Z.of_nat size |} c db = Ok (page, db)
       ∧ account.TotalPages (account.lp_PageInfo page) = Z.of_nat (length pages))
    ∧ concat (account.lp_Entries <$> pages) = ledger_entry <$> ledger_of db id
    ∧ ledger_of db id ≡ₚ user_entries db id ∧ Sorted newest_first (ledger_of db id).
Proof.
  intros Hu Hid Ha Hs Hmax Hlen. unfold account.MaxPageSize in *.
  set (total := length (user_entries db id)) in *.
  set (n := Z.to_nat (Z.quot (Z.of_nat total + Z.of_nat size - 1) (Z.of_nat size))).
  assert (Z.of_nat n = (Z.of_nat total + Z.of_nat size - 1) / Z.of_nat size) as Hn.
  { unfold n. rewrite Z.quot_div_nonneg by lia. apply Z2Nat.id, Z.div_pos; lia. }
  destruct (pages_cover (Z.of_nat total) (Z.of_nat size)) as [Hcover Hle]; [lia..|]. rewrite <- Hn in Hcover, Hle.
  exists (ledger_page db id size <$> seq 0 n). split; [|split_and!].
  - intros i page Hpage. apply list_lookup_fmap_Some in Hpage as (j & -> & Hj).
    apply lookup_seq in Hj as [-> Hj]. simpl. rewrite length_fmap, length_seq.
    split; [by eapply list_page; unfold account.MaxPageSize; eauto; lia|]. fold total.
    rewrite Z.quot_div_nonneg by lia. rewrite <- Hn. apply wrap32_id. lia.
  - rewrite <- list_fmap_compose.
    change (account.lp_Entries ∘ ledger_page db id size)
      with (fmap ledger_entry ∘ λ i, take size (drop (i * size) (ledger_of db id))).
    rewrite list_fmap_compose. etrans; [symmetry; apply concat_map|].
    rewrite concat_chunks, take_ge; [done|].
    unfold ledger_of. rewrite merge_sort_Permutation. fold total. lia.
  - apply merge_sort_Permutation.
  - apply Sorted_merge_sort. apply _.
Qed.

End reads.

Lemma ledger_pages_complete_witness :
  ∃ pages : list account.LedgerPage,
    concat (account.lp_Entries <$> pages) = ledger_entry <$> ledger_of db_settled alice
    ∧ length (ledger_of db_settled alice) = 5%nat.
Proof.
  destruct (accounts db_settled !! alice) as [a|] eqn:Ha; [|vm_compute in Ha; discriminate].
  destruct (ledger_pages_complete alice alice a db_settled (ex_clocks 300) 2) as (pages & _ & Hc & _);
    [by vm_compute|by vm_compute|done|lia|by vm_compute|by vm_compute|].
  exists pages. split; [done|by vm_compute].
Defined.

(** ** The error contract *)

Definition mapped_errors : list Error := (λ m, m.1.1) <$> errorMappings.

(** RPC errors are faithful. Each error of the contract is reported with a
    code and reason of its own, never as internal, and every other error, a
    database error in particular, is hidden behind the internal code. *)
Theorem connect_error_faithful e :
  (e ∈ mapped_errors → (ConnectError e).1 ≠ CodeInternal
    ∧ ∀ e', ConnectError e' = ConnectError e → e' = e)
  ∧ (e ∉ mapped_errors → ConnectError e = (CodeInternal, EmptyString)).
Proof.
  assert (∀ e, e ∉ mapped_errors → ConnectError e = (CodeInternal, EmptyString)) as Hother.
  { intros e0 He. unfold ConnectError. rewrite (proj2 (list_find_None _ errorMappings)); [done|].
    apply Forall_forall. intros m Hm Heq. apply He, list_elem_of_fmap. eauto. }
  split; [|apply Hother]. intros He.
  assert (∀ e1, e1 ∈ mapped_errors → ∀ e2, e2 ∈ mapped_errors →
    (ConnectError e1).1 ≠ CodeInternal ∧ (ConnectError e2 = ConnectError e1 → e2 = e1)) as Hin.
  { intros e1 He1 e2 He2. unfold mapped_errors in *. simpl in *.
    repeat (apply elem_of_cons in He1 as [->|He1]; [
      split; [by vm_compute|];
      repeat (apply elem_of_cons in He2 as [->|He2]; [by vm_compute|]);
      by apply not_elem_of_nil in He2|]).
    by apply not_elem_of_nil in He1. }
  split; [by apply (Hin e He e)|]. intros e' Heq.
  destruct (decide (e' ∈ mapped_errors)) as [He'|He']; [by apply (Hin e He e' He')|].
  exfalso. rewrite (Hother e' He') in Heq. apply (Hin e He e He). by rewrite <- Heq.
Qed.

(** * The lateness rule

    Payable, the payout rule of completed orders, against its specification
    over the integers. *)

(** ** The lateness rule *)

(** A deadline whose double fits in an int64 of nanoseconds: about 146 years. *)
Definition deadline_ok (allowed : Duration) : Prop := 0 < allowed ∧ 2 * allowed <= max_int64.

(** The rule of the specification, without machine arithmetic. *)
Definition lateness_spec (reward elapsed allowed : Z) : Z :=
  if elapsed <=? allowed then reward
  else if 2 * allowed <=? elapsed then 0
  else reward * (2 * allowed - elapsed) / allowed.

Lemma lateness_spec_bounds reward elapsed allowed :
  0 <= reward → 0 < allowed → 0 <= lateness_spec reward elapsed allowed <= reward.
Proof.
  intros HR HT. unfold lateness_spec.
  destruct (Z.leb_spec elapsed allowed); [lia|]. destruct (Z.leb_spec (2 * allowed) elapsed); [lia|].
  split; [apply Z.div_pos; nia|]. apply Z.div_le_upper_bound; nia.
Qed.

(** C27: Payable computes the lateness rule exactly. For any reward and elapsed
    time, and an allowed time up to 146 years, the int64 and big.Int arithmetic
    yields the specified amount, which lies between 0 and the reward. *)
Theorem payable_exact reward elapsed allowed :
  0 <= reward <= max_int64 → deadline_ok allowed →
  Payable reward elapsed allowed = lateness_spec reward elapsed allowed
  ∧ 0 <= Payable reward elapsed allowed <= reward.
Proof.
  intros HR [HT H2]. pose proof (lateness_spec_bounds reward elapsed allowed ltac:(lia) HT) as Hb.
  assert (Payable reward elapsed allowed = lateness_spec reward elapsed allowed) as ->; [|done].
  unfold Payable, lateness_spec in *. rewrite mul64_id by int64_lia.
  destruct (Z.leb_spec elapsed allowed); [done|]. destruct (Z.leb_spec (2 * allowed) elapsed); [done|].
  rewrite sub64_id by int64_lia. rewrite Z.quot_div_nonneg by nia. apply wrap64_id. int64_lia.
Qed.

(** Being later never pays more. *)
Theorem payable_antitone reward early late allowed :
  0 <= reward <= max_int64 → deadline_ok allowed → early <= late →
  Payable reward late allowed <= Payable reward early allowed.
Proof.
  intros HR HT Hle. destruct (payable_exact reward early allowed HR HT) as [He Hbe].
  destruct (payable_exact reward late allowed HR HT) as [Hl Hbl]. destruct HT as [HT _].
  rewrite He in Hbe. rewrite Hl in Hbl. rewrite He, Hl. unfold lateness_spec in *.
  destruct (Z.leb_spec late allowed), (Z.leb_spec early allowed); try lia.
  destruct (Z.leb_spec (2 * allowed) late), (Z.leb_spec (2 * allowed) early); try lia.
  apply Z.div_le_mono; nia.
Qed.

(** Beyond that bound [2*allowed] wraps, and any delivery after the deadline
    pays nothing, however small the delay. *)
Theorem payable_wraps reward elapsed allowed :
  2 ^ 62 <= allowed <= max_int64 → allowed < elapsed <= max_int64 →
  Payable reward elapsed allowed = 0.
Proof.
  intros HT He. unfold Payable. destruct (Z.leb_spec elapsed allowed); [lia|].
  assert (mul64 2 allowed = 2 * allowed - 2 ^ 64) as ->.
  { unfold mul64, wrap64, max_int64 in *.
    rewrite <- (Z.mod_unique (2 * allowed + 2 ^ 63) (2 ^ 64) 1 (2 * allowed + 2 ^ 63 - 2 ^ 64)); lia. }
  destruct (Z.leb_spec (2 * allowed - 2 ^ 64) elapsed); [done|unfold max_int64 in *; lia].
Qed.

Lemma payable_exact_witness : Payable 100 90 60 = 50 ∧ lateness_spec 100 90 60 = 50.
Proof.
  destruct (payable_exact 100 90 60) as [-> _]; [unfold max_int64; lia| |done].
  unfold deadline_ok, max_int64. lia.
Defined.

Lemma payable_antitone_witness : Payable 100 100 60 <= Payable 100 90 60.
Proof.
  apply payable_antitone; unfold deadline_ok, max_int64; lia.
Defined.

Lemma payable_wraps_witness :
  Payable 100 (2 ^ 62 + 1) (2 ^ 62) = 0 ∧ lateness_spec 100 (2 ^ 62 + 1) (2 ^ 62) = 99.
Proof. split; [apply payable_wraps; unfold max_int64; lia|done]. Defined.
