(* ===== verification/CreditProperties.v ===== *)
(** * Credit: what the service guarantees

    The properties of credit-service, each about the states its calls reach.
    A witness evaluates the run of CreditExamples. *)
From S2P Require Import Prelude.
From S2P Require Import GoLib.
From S2P Require Import CreditTypes.
From S2P Require Import CreditDB.
From S2P Require Import CreditAccount.
From S2P Require Import CreditReservation.
From S2P Require Import CreditOutcome.
From S2P Require Import CreditHistory.
From S2P Require Import CreditInvariant.
From S2P Require Import CreditStatements.
From S2P Require Import CreditOperations.
From S2P Require Import CreditSettlement.
From S2P Require Import CreditService.
From S2P Require Import CreditExamples.
From stdpp Require Import prelude gmap strings.
From Stdlib Require Import ZArith Lia.

Local Open Scope Z_scope.

(** Split the membership of an element in a concrete list. *)
Ltac elem_cases He :=
  simpl in He; repeat (apply elem_of_cons in He as [He|He]; [try discriminate He; subst; try done|]);
  try (by apply not_elem_of_nil in He).

Ltac documented' :=
  unfold wp; simpl; repeat first [apply list_elem_of_here | apply list_elem_of_further].

Section properties.
  Context `{UUID, !UUIDLaws, UUIDv7, !UUIDv7Laws, Digest} (payout : PayoutRule).

(** ** Credits, holds and the ledger *)

(** C1: credits are neither created nor destroyed. In every reachable state the
    balances add up to the starting credits of the accounts that exist. *)
Theorem credits_conserved db :
  reachable payout db → supply db = account.StartingCredits * Z.of_nat (size (accounts db)).
Proof. intros [HP _]%reachable_Inv. pose proof (pn_supply _ _ _ _ HP). lia. Qed.

(** C2: holds are always covered: an account's reserved credits lie between 0
    and its balance, so its available credits, computed in int64, do not wrap
    and are not negative. *)
Theorem holds_covered db u a :
  reachable payout db → accounts db !! u = Some a →
  let A := FromRow a in
  account.UserID A = u ∧ 0 <= account.Reserved A <= account.Balance A
  ∧ account.Available A = account.Balance A - account.Reserved A ∧ 0 <= account.Available A.
Proof.
  intros [HP _]%reachable_Inv Ha A. destruct (pn_accounts _ _ _ _ HP u a Ha) as (? & ? & ? & ?).
  assert (account.Available A = account.Balance A - account.Reserved A) as Hav.
  { apply sub64_id. unfold A. simpl. int64_lia. }
  rewrite Hav. unfold A. simpl. split_and!; try done; lia.
Qed.

(** C24: the ledger explains the accounts: a user's entries add up to the
    user's balance and reserved credits. *)
Theorem ledger_explains_accounts db u :
  reachable payout db →
  lsum (entry_balance u) (ledger db) = balance_of db u
  ∧ lsum (entry_reserved u) (ledger db) = reserved_of db u.
Proof.
  intros [HP _]%reachable_Inv.
  exact (conj (pn_ledger_balance _ _ _ _ HP u) (pn_ledger_reserved _ _ _ _ HP u)).
Qed.

(** What an order that has not ended holds of [u]'s credits. *)
Definition active_hold (u : string) (r : ReservationRow) : Z :=
  if decide (rr_RequesterID r = Some u ∧ terminal (rr_Status r) = false)
  then rr_ReservedAmount r else 0.

(** An account's reserved credits are exactly the holds of its open
    reservations. *)
Theorem reserved_is_active_holds db u :
  reachable payout db → reserved_of db u = msum (λ _ r, active_hold u r) (reservations db).
Proof.
  intros [HP _]%reachable_Inv. pose proof (pn_holds _ _ _ _ HP u) as Hh. rewrite at_user_0 in Hh.
  replace (reserved_of db u) with (holds db u) by lia. apply msum_ext. intros o r Hr.
  unfold hold_of, active_hold. destruct (terminal (rr_Status r)) eqn:Ht.
  - destruct (stored_row _ _ _ _ _ _ HP Hr) as (_ & Hc & _).
    destruct (terminal_row_inv r Hc Ht) as (-> & _). repeat case_decide; done.
  - repeat case_decide; tauto || done.
Qed.

(** Nothing recorded is undone: across any sequence of calls the ledger, the
    operations and the revisions only grow, an ended reservation never changes
    again, an applied offer can only become reverted, and a reservation keeps
    its requester and original amount. *)
Theorem history_append_only db db' : rtc (step payout) db db' → extends db db'.
Proof. induction 1; [done|]. etrans; [by eapply step_extends|done]. Qed.

(** ** Idempotency and errors *)

Lemma Within_no_faults {A} c (f : Tx A) db :
  Within c no_faults f db =
  match f c db with Ok (a, db') => (Ok a, db') | Err e => (Err (mapError e), db) end.
Proof. unfold Within, transact. simpl. by destruct (f c db) as [[??]|]. Qed.

Lemma transact_no_faults {A} c (f : Tx A) db :
  transact c no_faults f db =
  match f c db with Ok (a, db') => (Ok a, db') | Err e => (Err e, db) end.
Proof. unfold transact. simpl. by destruct (f c db) as [[??]|]. Qed.

(** A call without faults returns the outcome its transaction performed, or
    the transaction's error with nothing changed. *)
Lemma mutate_cases c m db :
  service_mutation m → Inv db →
  (∃ res db', mutate c no_faults (Ok m) db = (mutation_outcome (Ok res), db') ∧ performed m res db')
  ∨ (∃ e, mutate c no_faults (Ok m) db = (Err e, db) ∧ mutation_error (key_Kind (mut_key m)) e).
Proof.
  intros Hm HI. pose proof (wp_mutate m c db Hm HI) as Hwp. unfold mutate, wp in *.
  rewrite Within_no_faults. destruct (mutate_body m c db) as [[res db']|e].
  - left. by exists res, db'.
  - right. exists (mapError e). split; [done|].
    assert (mapError e = e) as ->; [|done]. destruct Hwp as [He| ->]; [|done].
    destruct (key_Kind (mut_key m)); by elem_cases He.
Qed.

(** C15: without faults, a mutation succeeds or fails the way its contract says:
    the schema's checks, keys and triggers never reject what the service
    writes (BIGINT overflow apart), and only Reserve and AdjustReservation may
    find the credits insufficient. A failed call changes nothing, except that
    an insufficient one is recorded. *)
Theorem mutation_contract c m db :
  reachable payout db → service_mutation m →
  let k := key_Kind (mut_key m) in
  match mutate c no_faults (Ok m) db with
  | (Ok r, db') => True
  | (Err e, db') =>
      (e = ErrInsufficientCredits ∧ (k = OpReserve ∨ k = OpAdjust))
      ∨ (db' = db ∧ (e ∈ refusals k ∨ e = numeric_out_of_range))
  end.
Proof.
  intros HI%reachable_Inv Hm k.
  destruct (mutate_cases c m db Hm HI) as [(res & db' & -> & HI' & Hrec & _)|(e & -> & He)].
  - destruct res as [|r]; [|done]. left. split; [done|]. simpl.
    inversion Hrec as [x Hx Hins|]; subst. destruct HI' as [HP' _].
    destruct (pn_operations _ _ _ _ HP' _ _ Hx) as [Hcheck _]. unfold operations_check in Hcheck.
    rewrite Hins in Hcheck. simpl in Hcheck. apply andb_true_iff in Hcheck as [_ Hcheck].
    destruct (or_Revision x); [done|]. apply orb_true_iff in Hcheck as [Hk|Hk];
      apply bool_decide_eq_true in Hk; auto.
  - by right.
Qed.

(** What a recorded operation reports does not change. *)
Lemma recorded_extends db db' k out :
  Inv db → extends db db' → recorded db k out → recorded db' k out.
Proof.
  intros [HP _] Hext [x Hx Hins|x n row Hx Hins Hn Hrow].
  - eapply recorded_insufficient; [|done]. by eapply lookup_weaken, ext_operations.
  - rewrite <- (described_extends db db') by (done || by eapply stored_describable).
    eapply recorded_revision; [|done..|]; eapply lookup_weaken; eauto using ext_operations, ext_revisions.
Qed.

Lemma recorded_functional db k out out' : recorded db k out → recorded db k out' → out = out'.
Proof. intros [] []; simplify_eq; congruence. Qed.

(** A call whose outcome is recorded, repeated later. *)
Lemma repeat_performed c m res db1 db2 :
  performed m res db1 → rtc (step payout) db1 db2 →
  ∃ out, mutate c no_faults (Ok m) db2 = (out, db2)
    ∧ ((∃ e, fenced (mut_key m) db2 e ∧ out = Err e)
       ∨ (∀ e, ¬ fenced (mut_key m) db2 e) ∧ out = mutation_outcome (Ok res)).
Proof.
  intros (HI & Hrec & x & Hx & Hhash) Hsteps.
  pose proof (steps_Inv _ _ _ HI Hsteps) as HI2. pose proof (steps_extends _ _ _ Hsteps) as Hext.
  assert (operations db2 !! operation_id (mut_key m) = Some x) as Hx2
    by by eapply lookup_weaken, ext_operations.
  pose proof (wp_replay m c db2 x HI2 Hx2) as Hwp. unfold mutate, wp in *. rewrite Within_no_faults.
  destruct (mutate_body m c db2) as [[res' db2']|e].
  - destruct Hwp as (-> & (_ & Hrec' & _) & Hfree). exists (mutation_outcome (Ok res')). split; [done|]. right.
    by rewrite (recorded_functional db2 _ res' res Hrec' (recorded_extends _ _ _ _ HI Hext Hrec)).
  - exists (Err (mapError e)). split; [done|]. left.
    destruct Hwp as [[-> ?]|Hf]; [congruence|]. exists e. split; [done|]. f_equal.
    by apply fenced_error in Hf as [[-> _]|[-> _]].
Qed.

(** C9: a mutation takes effect at most once. After a call that succeeded or was
    refused for lack of credits, the same call at any later state changes
    nothing and reports the first outcome again; except that once the order's
    reservation is Released, reserving and adjusting report that, and once the
    offer is Reverted, adjusting reports that, and they report it only then. *)
Theorem replay_same_outcome c c' m db out db1 db2 :
  reachable payout db → service_mutation m →
  mutate c no_faults (Ok m) db = (out, db1) → is_ok out = true ∨ out = Err ErrInsufficientCredits →
  rtc (step payout) db1 db2 →
  ∃ out', mutate c' no_faults (Ok m) db2 = (out', db2)
    ∧ ((∃ e, fenced (mut_key m) db2 e ∧ out' = Err e)
       ∨ (∀ e, ¬ fenced (mut_key m) db2 e) ∧ out' = out).
Proof.
  intros HI%reachable_Inv Hm Hrun Hok Hsteps.
  destruct (mutate_cases c m db Hm HI) as [(res & db' & Hrun' & Hperf)|(e & Hrun' & He)];
    rewrite Hrun in Hrun'; simplify_eq.
  - by eapply repeat_performed.
  - exfalso. destruct Hok as [|[= ->]]; [done|]. destruct He as [He|?]; [|done].
    destruct (key_Kind (mut_key m)); by elem_cases He.
Qed.

(** A call whose reply was lost is safe to repeat. When the commit of a call
    is applied but reported as failed, repeating the call returns what the lost
    reply would have said and changes nothing more. *)
Theorem lost_reply_recovered c c' fl code m db e db1 :
  reachable payout db → service_mutation m →
  begin_fault fl = None → body_fault fl = None → commit_fault fl = Some (code, true) →
  is_ok (mutate c no_faults (Ok m) db).1 = true →
  mutate c fl (Ok m) db = (Err e, db1) →
  ∃ out, mutate c' no_faults (Ok m) db1 = (out, db1)
    ∧ (out = (mutate c no_faults (Ok m) db).1
       ∨ out = Err ErrReservationReleased ∨ out = Err ErrAdjustmentReverted).
Proof.
  intros HI%reachable_Inv Hm Hb Hf Hc Hok Hrun.
  pose proof (wp_mutate m c db Hm HI) as Hwp. unfold mutate, Within, transact, wp in *.
  rewrite Hb, Hf, Hc in Hrun. simpl in *.
  destruct (mutate_body m c db) as [[res db']|]; [|done]. simpl in *. simplify_eq.
  destruct (repeat_performed c' m res db1 db1 Hwp) as (out & Hout & Hcase); [done|].
  exists out. split; [exact Hout|].
  destruct Hcase as [(e' & [[-> _]|[-> _]]%fenced_error & ->)|[_ ->]]; auto.
Qed.

(** An operation key belongs to one payload: a call whose key was recorded
    with another payload is a conflict and changes nothing. *)
Theorem other_payload_conflicts c m db x :
  operations db !! operation_id (mut_key m) = Some x →
  or_RequestHash x ≠ requestHash (mut_payload m) →
  mutate c no_faults (Ok m) db = (Err ErrIdempotencyConflict, db).
Proof.
  intros Hx Hh. unfold mutate. rewrite Within_no_faults.
  unfold mutate_body, tx_Operation, GetOperation, gets, mbind, st_mbind. simpl. rewrite Hx. simpl.
  by rewrite bool_decide_false.
Qed.

(** A release fences the order off. Once an order's reservation is Released,
    also by a tombstone for an order Credit never held, Reserve and
    AdjustReservation for it fail and change nothing. *)
Theorem released_fences c m db row :
  service_mutation m →
  key_Kind (mut_key m) = OpReserve ∨ key_Kind (mut_key m) = OpAdjust →
  reservations db !! key_OrderID (mut_key m) = Some row → rr_Status row = Released →
  ∃ e, mutate c no_faults (Ok m) db = (Err e, db)
    ∧ (e = ErrReservationReleased ∨ e = ErrIdempotencyConflict).
Proof.
  intros Hm Hk Hrow Hst. unfold mutate. rewrite Within_no_faults.
  unfold mutate_body, tx_Operation, GetOperation, gets, mbind, st_mbind, ask. simpl.
  destruct (operations db !! operation_id (mut_key m)) as [x|]; simpl.
  - case_bool_decide; simpl; [|eauto]. unfold checkReplay. rewrite decide_False by tauto.
    unfold tx_Reservation, LockReservation, gets, mbind, st_mbind, ensure. simpl. rewrite Hrow. simpl.
    rewrite bool_decide_true by done. simpl. eauto.
  - destruct Hm as [o r n m Hn Hm|o a courier n m Hn Hm|o a m Hm|o reason m Hm].
    + apply Reserve_ok in Hm as (o' & r' & _ & _ & _ & ->). simpl in *.
      unfold reserve_apply, tx_Reservation, LockReservation, gets, mbind, st_mbind. rewrite Hrow. simpl.
      rewrite decide_True by done. simpl. eauto.
    + apply AdjustReservation_ok in Hm as (o' & a' & c' & _ & _ & _ & _ & ->). simpl in *.
      unfold adjust_apply, tx_Reservation, LockReservation, gets, mbind, st_mbind. rewrite Hrow. simpl.
      rewrite Hst. simpl. eauto.
    + apply RevertAdjustment_ok in Hm as (o' & a' & _ & _ & ->). by destruct Hk.
    + apply ReleaseReservation_ok in Hm as (o' & _ & _ & ->). by destruct Hk.
Qed.

Lemma wp_adjust_reverted o a courier n c db x :
  assignments db !! (o, a) = Some x → as_Status x = Reverted →
  wp (mutate_body {| mut_key := {| key_Kind := OpAdjust; key_OrderID := o; key_AssignmentID := a |};
                     mut_payload := adjust_payload courier n; mut_apply := adjust_apply o a courier n |})
    c db (λ _ _, False) (λ e, e ∈ refusals OpAdjust).
Proof.
  intros Hx Hst. unfold mutate_body, tx_Operation, GetOperation.
  apply wp_bind, wp_bind, wp_gets, wp_ret.
  destruct (operations db !! _) as [y|]; simpl.
  - apply wp_bind, wp_ensure; [intros _|intros; documented']. unfold checkReplay. simpl.
    apply wp_bind. unfold tx_Reservation, LockReservation. apply wp_bind, wp_bind, wp_gets, wp_ret.
    apply wp_bind, wp_ensure; [intros _|intros; documented'].
    unfold tx_Assignment, GetAssignment. apply wp_bind, wp_bind, wp_gets, wp_ret.
    rewrite Hx. simpl. rewrite bool_decide_true by done. documented'.
  - apply wp_bind, wp_ask, wp_bind. unfold adjust_apply, tx_Reservation, LockReservation.
    apply wp_bind, wp_bind, wp_gets, wp_ret, wp_bind. apply wp_requireOpen; try documented'.
    intros r Hr _. apply wp_bind, wp_ensure; [intros _|intros; documented'].
    unfold tx_Assignment, GetAssignment. apply wp_bind, wp_bind, wp_gets, wp_ret. rewrite Hx. simpl.
    rewrite bool_decide_true by done. documented'.
Qed.

(** A reverted offer never applies. Once an offer is reverted, also when the
    revert came first, AdjustReservation for it fails and changes nothing. *)
Theorem reverted_offer_never_applies c o a courier n m db x :
  AdjustReservation o a courier n = Ok m →
  assignments db !! (key_OrderID (mut_key m), key_AssignmentID (mut_key m)) = Some x →
  as_Status x = Reverted →
  ∃ e, mutate c no_faults (Ok m) db = (Err e, db) ∧ e ∈ refusals OpAdjust.
Proof.
  intros Hm Hx Hst.
  apply AdjustReservation_ok in Hm as (o' & a' & c' & _ & _ & _ & _ & ->). simpl in *.
  pose proof (wp_adjust_reverted o' a' c' n c db x Hx Hst) as Hwp.
  unfold mutate, wp in *. rewrite Within_no_faults.
  destruct (mutate_body _ c db) as [[??]|e]; [done|]. exists e. split; [|done]. simpl.
  by replace (mapError e) with e by (by elem_cases Hwp).
Qed.

(** Reverting an applied offer always has the credits it needs. On the
    first RevertAdjustment of the assignment a reservation carries, the call
    returns the reservation Held at its original amount, and of all accounts
    only the requester's reserved credits change, by the offer's increase. *)
Theorem revert_restores_hold c o a m db old :
  reachable payout db → RevertAdjustment o a = Ok m →
  let order := key_OrderID (mut_key m) in
  operations db !! operation_id (mut_key m) = None →
  reservations db !! order = Some old → rr_Status old = Assigned →
  rr_AssignmentID old = Some (key_AssignmentID (mut_key m)) →
  match mutate c no_faults (Ok m) db with
  | (Err e, db') => e = numeric_out_of_range ∧ db' = db
  | (Ok r, db') =>
      ResStatus r = Held ∧ ReservedAmount r = rr_OriginalAmount old
      ∧ ∃ v, rr_RequesterID old = Some v
        ∧ (∀ w, balance_of db' w = balance_of db w)
        ∧ (∀ w, reserved_of db' w
             = reserved_of db w + at_user v (rr_OriginalAmount old - rr_ReservedAmount old) w)
  end.
Proof.
  intros HI%reachable_Inv Hm order Hop Hold Hst Ha. pose proof (sm_revert _ _ _ Hm) as Hsm.
  apply RevertAdjustment_ok in Hm as (o' & a' & Ho & Ha' & ->). simpl in *. subst order.
  apply uuid_parse_nonempty in Ho, Ha'.
  pose proof (wp_revert_apply o' a' c db (service_clock c) Ho Ha' HI) as Hwp.
  set (m := {| mut_apply := revert_apply o' a' |}) in *.
  pose proof (wp_first_call m c db _ _ Hsm HI Hop Hwp) as Hfirst.
  unfold mutate, wp in Hfirst |- *. rewrite Within_no_faults.
  destruct (mutate_body m c db) as [[out db']|e].
  - destruct Hfirst as (_ & out0 & db1 & x & (_ & Heff) & -> & Hout).
    destruct (Heff old Hold Hst Ha) as (row & v & -> & Hrst & Hres & Hv & _ & Hb & Hr).
    destruct Hout as [adj ->]. simpl. split; [done|]. split; [done|]. by exists v.
  - destruct Hfirst as [_ [[[_ Hn]|[_ (r & Hr & Hs)]]| ->]]; [| |done]; simplify_eq; congruence.
Qed.


(** ** Outcomes of orders *)

Lemma validate_fields o o' :
  validate o = Ok o' → oo_Type o' = oo_Type o ∧ uuid_parse (oo_OrderID o) = Some (oo_OrderID o').
Proof.
  unfold validate, mbind, result_mbind, mret, result_mret, guard_ok, canonicalID, from_option_ok.
  intros Hval. repeat case_match; simplify_eq/=; done.
Qed.

Lemma validate_error o e : validate o = Err e → e = ErrInvalidArgument.
Proof.
  unfold validate, mbind, result_mbind, mret, result_mret, guard_ok, canonicalID, from_option_ok.
  intros Hval. repeat (case_match; simplify_eq/=; try done).
Qed.

Lemma releaseReason_type o o' : oo_Type o' = oo_Type o → releaseReason o' = releaseReason o.
Proof. unfold releaseReason. by intros ->. Qed.

(** A delivery without faults. *)
Lemma apply_cases c o db :
  Inv db →
  (ApplyOutcome payout c no_faults o db = (Err ErrInvalidArgument, db) ∧ ∃ e, validate o = Err e)
  ∨ ∃ o', validate o = Ok o' ∧
    ((∃ out db', ApplyOutcome payout c no_faults o db = (Ok out, db')
        ∧ outcome_applied payout o' db out db')
     ∨ ∃ e, ApplyOutcome payout c no_faults o db = (Err e, db) ∧ settle_error e).
Proof.
  intros HI. unfold ApplyOutcome. destruct (validate o) as [o'|e] eqn:Hval; [|left].
  2: { apply validate_error in Hval as ->. eauto. }
  right. exists o'. split; [done|]. pose proof (wp_apply_outcome payout o' c db (validate_ok _ _ Hval) HI) as Hwp.
  rewrite Within_no_faults. unfold wp in Hwp. destruct (apply_outcome_body payout o' c db) as [[out db']|e].
  - left. eauto.
  - right. exists (mapError e). split; [done|].
    replace (mapError e) with e; [done|]. destruct Hwp as [He| ->]; [|done]. by elem_cases He.
Qed.

(** Settling a delivered order, or one cancelled after pickup, splits its
    hold exactly. The payout is between 0 and the hold, the rest returns to the
    requester, the courier's balance grows by the payout and the requester's
    shrinks by it, the whole hold is lifted, and no other account changes
    (accounts opened for the occasion apart). *)
Theorem settlement_splits_hold c o db r db' :
  reachable payout db → releaseReason o = None →
  ApplyOutcome payout c no_faults o db = (Ok (r, true), db') →
  ∃ o' old s v db1, validate o = Ok o' ∧ reservations db !! oo_OrderID o' = Some old
    ∧ ResStatus r = Settled ∧ ReservedAmount r = 0 ∧ ResSettlement r = Some s
    ∧ let hold := rr_ReservedAmount old in
      PaidToCourier s = payout hold o'
      ∧ 0 <= PaidToCourier s <= hold
      ∧ PaidToCourier s + ReturnedToRequester s = hold
      ∧ rr_RequesterID old = Some v ∧ grown db db1
      ∧ is_Some (accounts db1 !! v) ∧ is_Some (accounts db1 !! oo_CourierID o')
      ∧ settled_totals v (oo_CourierID o') hold (PaidToCourier s) db1 db'.
Proof.
  intros HI%reachable_Inv Hreason Hrun.
  destruct (apply_cases c o db HI) as [[Hrun' _]|(o' & Hval & [(out & db2 & Hrun' & Happ)|(e & Hrun' & _)])];
    rewrite Hrun in Hrun'; simplify_eq.
  destruct (validate_fields _ _ Hval) as [Hty _].
  destruct (oa_settled _ _ _ _ _ Happ) as (old & row & Hold & Hrow & Hset); [|done|].
  { by rewrite (releaseReason_type o). }
  destruct (oa_concluded _ _ _ _ _ Happ) as (row' & Hr & Hrow' & _). simpl in Hr.
  rewrite Hrow in Hrow'. injection Hrow' as <-. subst r.
  destruct Hset as [Hst _ _ Hz Hout Hpaid Hret Hb (v & db1 & Hv & Hg & Ha1 & Ha2 & Htot)].
  exists o', old. unfold fromRow at 3. simpl. rewrite Hout, Hpaid, Hret. simpl.
  eexists _, v, db1. split_and!; try done; simpl; lia.
Qed.

(** An order that never reaches a payout returns its whole hold. When an
    order is cancelled before pickup, expires or fails, the requester's
    reserved credits drop by what the order held, no balance changes, and the
    reservation ends Released for that reason; an order Credit never held
    leaves a tombstone. *)
Theorem release_returns_hold c o reason db r db' :
  reachable payout db → releaseReason o = Some reason →
  ApplyOutcome payout c no_faults o db = (Ok (r, true), db') →
  ∃ o' s, validate o = Ok o' ∧ ResStatus r = Released ∧ ResSettlement r = Some s
    ∧ SettlementReason s = reason
    ∧ ReturnedToRequester s
      = match reservations db !! oo_OrderID o' with Some old => rr_ReservedAmount old | None => 0 end
    ∧ (∀ w, balance_of db' w = balance_of db w)
    ∧ (∀ w, reserved_of db' w = reserved_of db w - old_hold db (oo_OrderID o') w).
Proof.
  intros HI%reachable_Inv Hreason Hrun.
  destruct (apply_cases c o db HI) as [[Hrun' _]|(o' & Hval & [(out & db2 & Hrun' & Happ)|(e & Hrun' & _)])];
    rewrite Hrun in Hrun'; simplify_eq.
  destruct (validate_fields _ _ Hval) as [Hty _].
  destruct (oa_released _ _ _ _ _ Happ reason) as (_ & Hb & Hr & row & Hrow & _ & Hst & _ & Hre & Hso & Hret).
  { by rewrite (releaseReason_type o). }
  simpl in Hrow. subst r. exists o'. unfold fromRow at 2. simpl. rewrite Hso, Hre, Hret. simpl.
  eexists. by split_and!.
Qed.

(** Delivering an outcome again is harmless. After an outcome was applied,
    or found applied, the same outcome at any later state returns the same
    reservation, reports that nothing changed, and changes nothing. *)
Theorem outcome_redelivery c c' o db r b db1 db2 :
  reachable payout db → ApplyOutcome payout c no_faults o db = (Ok (r, b), db1) →
  rtc (step payout) db1 db2 →
  ApplyOutcome payout c' no_faults o db2 = (Ok (r, false), db2).
Proof.
  intros HI%reachable_Inv Hrun Hsteps.
  destruct (apply_cases c o db HI) as [[Hrun' _]|(o' & Hval & [(out & db' & Hrun' & Happ)|(e & Hrun' & _)])];
    rewrite Hrun in Hrun'; simplify_eq.
  destruct (oa_concluded _ _ _ _ _ Happ) as (row & Hr & Hcon). simpl in Hr. subst r.
  pose proof (oa_inv _ _ _ _ _ Happ) as [HP _]. pose proof Hcon as (Hrow & _).
  destruct (stored_row _ _ _ _ _ _ HP Hrow) as (Hid & _).
  unfold ApplyOutcome. rewrite Hval, Within_no_faults, (apply_concluded payout o' c' db2 row); try done.
  eapply concluded_extends; [by eapply steps_extends|done].
Qed.

(** ** The consumers *)

(** A run of the retry loop that returns: its last attempt, and the calls
    before it. *)
Lemma attempts_last o env remaining : ∀ n db res db',
  attempts payout o env n remaining db = (Some res, db') →
  ∃ k db0, (n <= k <= n + remaining)%nat ∧ rtc (step payout) db db0
    ∧ ApplyOutcome payout (at_clocks (env k)) (at_faults (env k)) o db0 = (res, db').
Proof.
  induction remaining as [|remaining IH]; intros n db res db'; simpl;
    destruct (ApplyOutcome payout _ _ o db) as [out db1] eqn:Hrun.
  - intros Hres. exists n, db. split; [lia|]. split; [done|]. rewrite Hrun.
    destruct out as [|[]]; by simplify_eq.
  - destruct out as [out|e]; [intros; simplify_eq; exists n, db; split_and!; try done; lia|].
    destruct (decide (e = ErrAborted)) as [->|Hne].
    + destruct (at_cancelled (env n)); [done|]. intros (k & db0 & Hk & Hs & Happ)%IH.
      exists k, db0. split; [lia|]. split; [|done]. eapply rtc_l; [|done]. by eapply step_outcome.
    + intros Hres. exists n, db. split; [lia|]. split; [done|]. rewrite Hrun.
      destruct e; by simplify_eq.
Qed.

Lemma attempts_interrupted o env remaining : ∀ n db db',
  attempts payout o env n remaining db = (None, db') →
  ∃ k, (n <= k < n + remaining)%nat ∧ at_cancelled (env k) = true.
Proof.
  induction remaining as [|remaining IH]; intros n db db'; simpl;
    destruct (ApplyOutcome payout _ _ o db) as [[out|e] db1]; try done; [by destruct e|].
  destruct e; try done. destruct (at_cancelled (env n)) eqn:Hc; [intros; exists n; split; [lia|done]|].
  intros (k & Hk & ?)%IH. exists k. split; [lia|done].
Qed.

(** An attempt under any faults. *)
Lemma attempt_cases c fl o db res db' :
  Inv db → ApplyOutcome payout c fl o db = (res, db') →
  match res with
  | Ok _ => ∃ o' row, validate o = Ok o' ∧ concluded o' db' row
  | Err e => (mismatch e = true → db' = db) ∧ (fl = no_faults → settle_error e ∨ e = ErrInvalidArgument)
  end.
Proof.
  intros HI. unfold ApplyOutcome. destruct (validate o) as [o'|e] eqn:Hval.
  2: { apply validate_error in Hval as ->. intros [= <- <-]. by split; [|right]. }
  pose proof (wp_apply_outcome payout o' c db (validate_ok _ _ Hval) HI) as Hwp.
  assert (∀ code, mismatch (mapError (Pg code)) = false) as Hpg
    by (intros code; simpl; repeat case_decide; done).
  unfold Within, transact, wp in *. intros Hrun. destruct (begin_fault fl) eqn:Hb; [simplify_eq; split; [by rewrite Hpg|by intros ->]|].
  destruct (body_fault fl) eqn:Hf; [simplify_eq; split; [by rewrite Hpg|by intros ->]|].
  destruct (apply_outcome_body payout o' c db) as [[out db1]|e].
  - destruct (commit_fault fl) as [[code applied]|] eqn:Hc; simplify_eq.
    + split; [by rewrite Hpg|by intros ->].
    + simpl. destruct (oa_concluded _ _ _ _ _ Hwp) as (row & _ & Hcon). eauto.
  - simplify_eq. split; [done|]. intros _. left. replace (mapError e) with e; [done|].
    destruct Hwp as [He| ->]; [|done]. by elem_cases He.
Qed.

(** C26: the order.outcome consumer never loses an outcome. Whatever faults its
    at most three attempts meet: when it acknowledges the event, either the
    reservation has ended as the event says, or the last attempt found a
    mismatch that redelivery cannot fix and changed nothing; it asks for
    redelivery only after a fault or BIGINT overflow; and it stops early only
    when its context ends. *)
Theorem outcome_handled o env db h db' :
  reachable payout db → Outcomes_Handle payout o env db = (h, db') →
  match h with
  | Acknowledged =>
      (∃ o' row, validate o = Ok o' ∧ concluded o' db' row)
      ∨ ∃ k e, (1 <= k <= abortedAttempts)%nat ∧ mismatch e = true
          ∧ ApplyOutcome payout (at_clocks (env k)) (at_faults (env k)) o db' = (Err e, db')
  | Redeliver e =>
      mismatch e = false ∧ ∃ k, (1 <= k <= abortedAttempts)%nat
        ∧ (e = numeric_out_of_range ∨ at_faults (env k) ≠ no_faults)
  | Interrupted => ∃ k, (1 <= k < abortedAttempts)%nat ∧ at_cancelled (env k) = true
  end.
Proof.
  intros HI%reachable_Inv. unfold Outcomes_Handle.
  destruct (attempts payout o env 1 (abortedAttempts - 1) db) as [[res|] db1] eqn:Hatt.
  2: { intros [= <- <-]. by apply attempts_interrupted in Hatt. }
  apply attempts_last in Hatt as (k & db0 & Hk & Hs & Hrun).
  pose proof (steps_Inv _ _ _ HI Hs) as HI0. pose proof (attempt_cases _ _ _ _ _ _ HI0 Hrun) as Hc.
  change (1 + (abortedAttempts - 1))%nat with abortedAttempts in Hk.
  destruct res as [out|e]; [intros [= <- <-]; by left|].
  destruct Hc as [Hsame Hnf]. destruct (mismatch e) eqn:Hm; intros [= <- <-].
  - right. exists k, e. specialize (Hsame eq_refl). subst db1. done.
  - split; [done|]. exists k. split; [done|].
    destruct (decide (e = numeric_out_of_range)); [by left|right]. intros Hno.
    destruct (Hnf Hno) as [[He|He]| ->]; [|done|done]. by elem_cases He; simpl in *.
Qed.

(** The users.create consumer opens an account that does not exist. *)
Lemma Users_Handle_opens c user id db :
  reachable payout db → uuid_parse user = Some id →
  ∃ db', Users_Handle c no_faults user db = (Acknowledged, db')
    ∧ match accounts db !! id with
      | Some _ => db' = db
      | None => ∃ a, accounts db' = <[id := a]> (accounts db)
          ∧ ac_Balance a = account.StartingCredits ∧ ac_Reserved a = 0
      end.
Proof.
  intros [HP _]%reachable_Inv Hid. unfold Users_Handle, open_account. rewrite Hid, transact_no_faults.
  unfold PostgresStore_Open, parse_user, require, mbind, st_mbind.
  rewrite (uuid_parse_canonical _ _ Hid). simpl.
  destruct (accounts db !! id) as [a|] eqn:Ha.
  - rewrite (Open_existing _ _ _ _ a Ha). simpl. by exists db.
  - destruct (Open_new EmptyString 0 0 c db (service_clock c) id HP Ha) as (row & _ & Hb & Hr & ->).
    simpl. eexists. split; [done|]. by exists row.
Qed.

(** An account is opened once. Every account of a reachable state has
    received exactly one grant. The users.create consumer opens a new user's
    account with the starting credits and touches no other account; for a user
    that has one it acknowledges the event and changes nothing. *)
Theorem account_opened_once c user id db :
  reachable payout db → uuid_parse user = Some id →
  (∀ u, grants db u = if is_some (accounts db !! u) then 1 else 0)
  ∧ ∃ db', Users_Handle c no_faults user db = (Acknowledged, db')
      ∧ match accounts db !! id with
        | Some _ => db' = db
        | None => ∃ a, accounts db' = <[id := a]> (accounts db)
            ∧ ac_Balance a = account.StartingCredits ∧ ac_Reserved a = 0
        end.
Proof.
  intros Hr Hid. split; [|by apply Users_Handle_opens].
  apply reachable_Inv in Hr as [HP _]. apply (pn_grants _ _ _ _ HP).
Qed.

End properties.

Lemma credits_conserved_witness :
  supply db_settled = account.StartingCredits * Z.of_nat (size (accounts db_settled)).
Proof. exact (credits_conserved LatenessPayout db_settled db_settled_reachable). Defined.

Lemma holds_covered_witness :
  ∃ a, accounts db_held !! alice = Some a ∧ account.Available (FromRow a) = 60.
Proof.
  destruct (accounts db_held !! alice) as [a|] eqn:Ha; [|vm_compute in Ha; discriminate].
  exists a. split; [done|].
  destruct (holds_covered LatenessPayout db_held alice a db_held_reachable Ha) as (_ & _ & -> & _).
  revert a Ha. 
  by vm_compute; intros a [= <-].
Defined.

Lemma ledger_explains_accounts_witness :
  lsum (entry_balance alice) (ledger db_settled) = 75.
Proof.
  destruct (ledger_explains_accounts LatenessPayout db_settled alice db_settled_reachable) as [-> _].
  by vm_compute.
Defined.

Lemma reserved_is_active_holds_witness :
  msum (λ _ r, active_hold alice r) (reservations db_assigned) = 50.
Proof.
  rewrite <- (reserved_is_active_holds LatenessPayout db_assigned alice db_assigned_reachable).
  by vm_compute.
Defined.

Lemma history_append_only_witness : extends db_held db_assigned.
Proof.
  apply (history_append_only LatenessPayout). apply rtc_once.
  eapply (step_mutate _ _ _ (ex_clocks 3) no_faults adjust_m); [apply adjust_m_ok|].
  apply surjective_pairing.
Defined.

(** ** Witnesses for the calls *)

Definition reserve_other : Mutation := {|
  mut_key := mut_key reserve_m; mut_payload := reserve_payload alice 70;
  mut_apply := reserve_apply order_1 alice 70 |}.

(** A second order of Alice's, for more credits than she has left. *)
Definition reserve_too_much : Mutation := {|
  mut_key := {| key_Kind := OpReserve; key_OrderID := offer_1; key_AssignmentID := EmptyString |};
  mut_payload := reserve_payload alice 61; mut_apply := reserve_apply offer_1 alice 61 |}.

Lemma mutation_contract_witness :
  (mutate (ex_clocks 5) no_faults (Ok reserve_too_much) db_held).1 = Err ErrInsufficientCredits.
Proof.
  assert (service_mutation reserve_too_much) as Hm by by apply (sm_reserve offer_1 alice 61).
  pose proof (mutation_contract LatenessPayout (ex_clocks 5) reserve_too_much db_held
    db_held_reachable Hm) as Hc.
  destruct (mutate (ex_clocks 5) no_faults (Ok reserve_too_much) db_held) as [out db'] eqn:Hrun.
  apply (f_equal fst) in Hrun. vm_compute in Hrun. by subst.
Defined.

(** After the settlement the reservation repeats its outcome. *)
Lemma replay_same_outcome_witness :
  mutate (ex_clocks 9) no_faults (Ok reserve_m) db_settled
    = ((mutate (ex_clocks 2) no_faults (Ok reserve_m) db_opened).1, db_settled).
Proof.
  destruct (replay_same_outcome LatenessPayout (ex_clocks 2) (ex_clocks 9) reserve_m db_opened
    (mutate (ex_clocks 2) no_faults (Ok reserve_m) db_opened).1 db_held db_settled)
    as (out' & -> & Hout).
  - apply db_opened_reachable.
  - apply reserve_m_ok.
  - apply surjective_pairing.
  - left. by vm_compute.
  - eapply rtc_l; [eapply step_mutate; [apply adjust_m_ok|]; apply surjective_pairing|].
    apply rtc_once. eapply step_outcome, surjective_pairing.
  - destruct Hout as [(e & [(row & Hrow & Hst) _] & _)|[_ ->]]; [exfalso|reflexivity].
    assert (rr_Status <$> reservations db_settled !! key_OrderID (mut_key reserve_m) ≠ Some Released) as Hs
      by (vm_compute; discriminate).
    apply Hs. by rewrite Hrow, <- Hst.
Defined.

Definition lost_commit : Faults :=
  {| begin_fault := None; body_fault := None; commit_fault := Some ("08006"%string, true) |}.

Lemma lost_reply_recovered_witness :
  let db1 := (mutate (ex_clocks 2) lost_commit (Ok reserve_m) db_opened).2 in
  ∃ out, mutate (ex_clocks 3) no_faults (Ok reserve_m) db1 = (out, db1).
Proof.
  destruct (lost_reply_recovered LatenessPayout (ex_clocks 2) (ex_clocks 3) lost_commit "08006"
    reserve_m db_opened (Pg "08006") (mutate (ex_clocks 2) lost_commit (Ok reserve_m) db_opened).2)
    as (out & Hout & _).
  - apply db_opened_reachable.
  - apply reserve_m_ok.
  - done.
  - done.
  - done.
  - by vm_compute.
  - assert ((mutate (ex_clocks 2) lost_commit (Ok reserve_m) db_opened).1 = Err (Pg "08006")) as <-
      by by vm_compute.
    apply surjective_pairing.
  - by exists out.
Defined.

Lemma other_payload_conflicts_witness :
  mutate (ex_clocks 3) no_faults (Ok reserve_other) db_held = (Err ErrIdempotencyConflict, db_held).
Proof.
  destruct (operations db_held !! operation_id (mut_key reserve_other)) as [x|] eqn:Hx;
    [|vm_compute in Hx; discriminate].
  apply (other_payload_conflicts (ex_clocks 3) reserve_other db_held x Hx).
  assert (or_RequestHash <$> operations db_held !! operation_id (mut_key reserve_other)
    = Some (reserve_payload alice 40)) as Hh by by vm_compute.
  rewrite Hx in Hh. injection Hh as ->. by vm_compute.
Defined.

Lemma released_fences_witness :
  ∃ e, mutate (ex_clocks 300) no_faults (Ok reserve_m) db_expired = (Err e, db_expired).
Proof.
  destruct (reservations db_expired !! order_1) as [row|] eqn:Hrow; [|vm_compute in Hrow; discriminate].
  destruct (released_fences (ex_clocks 300) reserve_m db_expired row) as (e & He & _).
  - apply reserve_m_ok.
  - by left.
  - exact Hrow.
  - assert (rr_Status <$> reservations db_expired !! order_1 = Some Released) as Hs by by vm_compute.
    rewrite Hrow in Hs. by injection Hs.
  - by exists e.
Defined.

Lemma reverted_offer_never_applies_witness :
  ∃ e, mutate (ex_clocks 5) no_faults (Ok adjust_m) db_reverted = (Err e, db_reverted).
Proof.
  destruct (assignments db_reverted !! (order_1, offer_1)) as [x|] eqn:Hx;
    [|vm_compute in Hx; discriminate].
  destruct (reverted_offer_never_applies (ex_clocks 5) order_1 offer_1 bob 50 adjust_m db_reverted x)
    as (e & He & _).
  - done.
  - exact Hx.
  - assert (as_Status <$> assignments db_reverted !! (order_1, offer_1) = Some Reverted) as Hs
      by by vm_compute.
    rewrite Hx in Hs. by injection Hs.
  - by exists e.
Defined.

Lemma revert_restores_hold_witness :
  match mutate (ex_clocks 4) no_faults (Ok revert_m) db_assigned with
  | (Ok r, _) => ResStatus r = Held
  | (Err _, _) => False
  end.
Proof.
  assert (∃ old, reservations db_assigned !! order_1 = Some old) as [old Hold]
    by (eexists; vm_compute; reflexivity).
  assert (RevertAdjustment order_1 offer_1 = Ok revert_m) as Hm by reflexivity.
  pose proof (revert_restores_hold LatenessPayout (ex_clocks 4) order_1 offer_1 revert_m db_assigned old
    db_assigned_reachable Hm) as Hrev.
  destruct (mutate (ex_clocks 4) no_faults (Ok revert_m) db_assigned) as [[r|e] db'] eqn:Hrun.
  - assert ((λ r, (rr_Status r, rr_AssignmentID r)) <$> reservations db_assigned !! order_1
      = Some (Assigned, Some offer_1)) as Hs by by vm_compute.
    rewrite Hold in Hs. injection Hs as Hst Ha. apply Hrev; [by vm_compute|exact Hold|exact Hst|exact Ha].
  - apply (f_equal (is_ok ∘ fst)) in Hrun. by vm_compute in Hrun.
Defined.

Lemma settlement_splits_hold_witness :
  ∃ r db', ApplyOutcome LatenessPayout (ex_clocks 200) no_faults ex_completed db_assigned = (Ok (r, true), db')
    ∧ ∃ s, ResSettlement r = Some s.
Proof.
  destruct (ApplyOutcome LatenessPayout (ex_clocks 200) no_faults ex_completed db_assigned)
    as [out db'] eqn:Hrun.
  assert (∃ r, out = Ok (r, true)) as [r ->].
  { apply (f_equal fst) in Hrun. vm_compute in Hrun. subst. by eexists. }
  destruct (settlement_splits_hold LatenessPayout (ex_clocks 200) ex_completed db_assigned r db'
    db_assigned_reachable eq_refl Hrun) as (o' & old & s & v & db1 & _ & _ & _ & _ & Hs & _).
  exists r, db'. split; [done|]. by exists s.
Defined.

Lemma release_returns_hold_witness :
  ∃ r db', ApplyOutcome LatenessPayout (ex_clocks 200) no_faults ex_expired db_held = (Ok (r, true), db')
    ∧ ResStatus r = Released ∧ ∀ w, balance_of db' w = balance_of db_held w.
Proof.
  destruct (ApplyOutcome LatenessPayout (ex_clocks 200) no_faults ex_expired db_held)
    as [out db'] eqn:Hrun.
  assert (∃ r, out = Ok (r, true)) as [r ->].
  { apply (f_equal fst) in Hrun. vm_compute in Hrun. subst. by eexists. }
  destruct (release_returns_hold LatenessPayout (ex_clocks 200) ex_expired Expired db_held r db'
    db_held_reachable eq_refl Hrun) as (o' & s & _ & Hst & _ & _ & _ & Hb & _).
  exists r, db'. exact (conj eq_refl (conj Hst Hb)).
Defined.

Lemma outcome_redelivery_witness :
  ∃ r, ApplyOutcome LatenessPayout (ex_clocks 201) no_faults ex_completed db_settled = (Ok (r, false), db_settled).
Proof.
  assert (∃ r, (ApplyOutcome LatenessPayout (ex_clocks 200) no_faults ex_completed db_assigned).1 = Ok (r, true))
    as [r Hr].
  { eexists. vm_compute. reflexivity. }
  exists r. apply (outcome_redelivery LatenessPayout (ex_clocks 200) (ex_clocks 201) ex_completed
    db_assigned r true db_settled db_settled).
  - apply db_assigned_reachable.
  - rewrite <- Hr. apply surjective_pairing.
  - apply rtc_refl.
Defined.

(** The first attempt is the victim of a deadlock. *)
Definition ex_env (k : nat) : Attempt := {|
  at_clocks := ex_clocks (200 + Z.of_nat k);
  at_faults := if decide (k = 1%nat) then
      {| begin_fault := None; body_fault := Some "40P01"%string; commit_fault := None |}
    else no_faults;
  at_cancelled := false |}.

Lemma outcome_handled_witness :
  (Outcomes_Handle LatenessPayout ex_completed ex_env db_assigned).1 = Acknowledged
  ∧ ∃ o', validate ex_completed = Ok o'.
Proof.
  destruct (Outcomes_Handle LatenessPayout ex_completed ex_env db_assigned) as [h db'] eqn:Hrun.
  pose proof (outcome_handled LatenessPayout ex_completed ex_env db_assigned h db'
    db_assigned_reachable Hrun) as Hh.
  apply (f_equal fst) in Hrun. vm_compute in Hrun. subst h. split; [done|].
  destruct Hh as [(o' & row & Ho & _)|_]; [by exists o'|]. eexists. vm_compute. reflexivity.
Defined.

Lemma account_opened_once_witness :
  grants db_settled alice = 1
  ∧ Users_Handle (ex_clocks 300) no_faults alice db_settled = (Acknowledged, db_settled).
Proof.
  destruct (account_opened_once LatenessPayout (ex_clocks 300) alice alice db_settled
    db_settled_reachable) as (Hg & db' & -> & Hdb'); [by vm_compute|].
  split; [rewrite Hg; by vm_compute|].
  destruct (accounts db_settled !! alice) eqn:Ha; [by subst|vm_compute in Ha; discriminate].
Defined.
