(* ===== verification/OrderTypes.v ===== *)
(** * Order: domain types

    The data of order-service/internal/order (types.go, assignmenttypes.go,
    cancellationtypes.go, repository.go, events.go, idempotency.go). Field names
    carry the letter the code uses for such a value: [o_] an order, [f_] an
    offer, [w_] an assignment attempt, [k_] a cancellation, [c_] a change. *)
From S2P Require Import Prelude.
From S2P Require Import GoLib.
From S2P Require Import GoText.
From stdpp Require Import prelude strings.
From Stdlib Require Import ZArith.

Local Open Scope Z_scope.
Local Open Scope foc_scope.

(** ** Errors (types.go, creationtypes.go, idempotency.go) *)

(** Why a creation was rejected; the empty text is no rejection. *)
Inductive CreationRejection :=
| NoRejection
| InsufficientCredits
| CreationExpired
| ReservationReleased.
#[export] Instance CreationRejection_eq_dec : EqDecision CreationRejection.
Proof. solve_decision. Defined.

Inductive Error :=
| ErrNotFound
| ErrForbidden
| ErrInvalid
| ErrPrecondition
| ErrConflict
| ErrAlreadyExists
| ErrIdempotencyIntegrity
| ErrUnavailable
| ErrRateLimited
(** A rejection returned as an error; it unwraps to ErrPrecondition. *)
| ErrRejected (r : CreationRejection)
(** A time that JSON cannot represent. *)
| ErrMarshal
(** An error that no code tests for. *)
| ErrOther (message : string)
(** Any other database error, by SQLSTATE. *)
| Pg (sqlstate : string).
#[export] Instance Error_eq_dec : EqDecision Error.
Proof. solve_decision. Defined.

(** ** Order lifecycle (types.go)

    A Go string type is its closed set of constants and the texts outside it;
    the zero value is the empty text. *)
Inductive Status :=
| PendingReservation
| AwaitingCourier
| AwaitingPickup
| Delivering
| Delivered
| Completed
| Cancelled
| Expired
| Failed
| Rejected
| OtherStatus (s : string).
#[export] Instance Status_eq_dec : EqDecision Status.
Proof. solve_decision. Defined.
Abbreviation NoStatus := (OtherStatus EmptyString).

Definition IsValid (s : Status) : bool := match s with OtherStatus _ => false | _ => true end.

Definition IsTerminal (s : Status) : bool :=
  match s with Completed | Cancelled | Expired | Failed | Rejected => true | _ => false end.

Record LocationSnapshot := {
  LocationID : string;
  Name : string;
  BuildingName : string;
  Floor : option string;
}.
#[export] Instance LocationSnapshot_eq_dec : EqDecision LocationSnapshot.
Proof. solve_decision. Defined.

Record Order := mkOrder {
  o_PendingCancellationID : option string;
  o_ID : string;
  o_RequesterID : string;
  o_CourierID : option string;
  o_Status : Status;
  o_Pickup : LocationSnapshot;
  o_Delivery : LocationSnapshot;
  o_DeliveryInstructions : option string;
  o_ItemDescription : string;
  o_RewardCredits : Z;
  o_ReservedCredits : Z;
  o_DeliveryDuration : Duration;
  o_ExpiresAt : Time;
  o_AssignedAt : option Time;
  o_PickedUpAt : option Time;
  o_DeliveredAt : option Time;
  o_CompletedAt : option Time;
  o_ClosedAt : option Time;
  o_CloseReason : option string;
  o_ItemLocation : option string;
  o_UnattendedDelivery : bool;
  o_Revision : Z;
  o_CreatedAt : Time;
  o_UpdatedAt : Time;
}.
#[export] Instance Order_eq_dec : EqDecision Order.
Proof. solve_decision. Defined.
#[export] Instance Order_eta : Eta Order := λ o,
  mkOrder (o_PendingCancellationID o) (o_ID o) (o_RequesterID o) (o_CourierID o) (o_Status o)
    (o_Pickup o) (o_Delivery o) (o_DeliveryInstructions o) (o_ItemDescription o)
    (o_RewardCredits o) (o_ReservedCredits o) (o_DeliveryDuration o) (o_ExpiresAt o)
    (o_AssignedAt o) (o_PickedUpAt o) (o_DeliveredAt o) (o_CompletedAt o) (o_ClosedAt o)
    (o_CloseReason o) (o_ItemLocation o) (o_UnattendedDelivery o) (o_Revision o)
    (o_CreatedAt o) (o_UpdatedAt o).
#[export] Instance set_o_PendingCancellationID : Setter o_PendingCancellationID :=
  ltac:(build_setter o_PendingCancellationID).
#[export] Instance set_o_CourierID : Setter o_CourierID := ltac:(build_setter o_CourierID).
#[export] Instance set_o_Status : Setter o_Status := ltac:(build_setter o_Status).
#[export] Instance set_o_Delivery : Setter o_Delivery := ltac:(build_setter o_Delivery).
#[export] Instance set_o_DeliveryInstructions : Setter o_DeliveryInstructions :=
  ltac:(build_setter o_DeliveryInstructions).
#[export] Instance set_o_RewardCredits : Setter o_RewardCredits := ltac:(build_setter o_RewardCredits).
#[export] Instance set_o_ReservedCredits : Setter o_ReservedCredits :=
  ltac:(build_setter o_ReservedCredits).
#[export] Instance set_o_AssignedAt : Setter o_AssignedAt := ltac:(build_setter o_AssignedAt).
#[export] Instance set_o_PickedUpAt : Setter o_PickedUpAt := ltac:(build_setter o_PickedUpAt).
#[export] Instance set_o_DeliveredAt : Setter o_DeliveredAt := ltac:(build_setter o_DeliveredAt).
#[export] Instance set_o_CompletedAt : Setter o_CompletedAt := ltac:(build_setter o_CompletedAt).
#[export] Instance set_o_ClosedAt : Setter o_ClosedAt := ltac:(build_setter o_ClosedAt).
#[export] Instance set_o_CloseReason : Setter o_CloseReason := ltac:(build_setter o_CloseReason).
#[export] Instance set_o_ItemLocation : Setter o_ItemLocation := ltac:(build_setter o_ItemLocation).
#[export] Instance set_o_UnattendedDelivery : Setter o_UnattendedDelivery :=
  ltac:(build_setter o_UnattendedDelivery).
#[export] Instance set_o_Revision : Setter o_Revision := ltac:(build_setter o_Revision).
#[export] Instance set_o_UpdatedAt : Setter o_UpdatedAt := ltac:(build_setter o_UpdatedAt).

Inductive OfferStatus :=
| OfferOpen
| OfferAccepting
| OfferAccepted
| OfferVoid
| OtherOfferStatus (s : string).
#[export] Instance OfferStatus_eq_dec : EqDecision OfferStatus.
Proof. solve_decision. Defined.
Abbreviation NoOfferStatus := (OtherOfferStatus EmptyString).

Record Offer := mkOffer {
  f_ID : string;
  f_OrderID : string;
  f_CourierID : string;
  f_Credits : Z;
  f_Status : OfferStatus;
  f_CreatedAt : Time;
  f_UpdatedAt : Time;
}.
#[export] Instance Offer_eq_dec : EqDecision Offer.
Proof. solve_decision. Defined.
#[export] Instance Offer_eta : Eta Offer := λ f,
  mkOffer (f_ID f) (f_OrderID f) (f_CourierID f) (f_Credits f) (f_Status f) (f_CreatedAt f)
    (f_UpdatedAt f).
#[export] Instance set_f_Status : Setter f_Status := ltac:(build_setter f_Status).
#[export] Instance set_f_UpdatedAt : Setter f_UpdatedAt := ltac:(build_setter f_UpdatedAt).

(** ** Actors and callers (types.go) *)

Inductive ActorKind :=
| User
| Admin
| System
| OtherActor (s : string).
#[export] Instance ActorKind_eq_dec : EqDecision ActorKind.
Proof. solve_decision. Defined.

Record Actor := {
  a_Kind : ActorKind;
  a_ID : string;
}.
#[export] Instance Actor_eq_dec : EqDecision Actor.
Proof. solve_decision. Defined.

Record Caller := {
  cl_ID : string;
  cl_Admin : bool;
  cl_Suspended : bool;
}.

Definition IsRequestedBy (o : Order) (userID : string) : bool :=
  nonempty userID && EqualFold (o_RequesterID o) userID.

Definition IsAssignedTo (o : Order) (userID : string) : bool :=
  nonempty userID && match o_CourierID o with
                     | Some courier => EqualFold courier userID
                     | None => false
                     end.

Definition HasParticipant (o : Order) (userID : string) : bool :=
  IsRequestedBy o userID || IsAssignedTo o userID.

(** ** Actions (types.go, assignmenttypes.go, cancellationtypes.go) *)

Inductive Action :=
| Create
| ConfirmReservation
| RefuseReservation
| Assign
| Cancel
| Expire
| Pickup
| Withdraw
| Unassign
| Deliver
| Timeout
| ConfirmReceipt
| RecordItemLocation
| ProposeOffer
| BeginAssignment
| ResolveAssignment
| AcceptCounteroffer
| BeginWithdrawal.
#[export] Instance Action_eq_dec : EqDecision Action.
Proof. solve_decision. Defined.

(** ** Listings (types.go) *)

Inductive Role :=
| AnyRole
| RequesterRole
| CourierRole
| OtherRole (s : string).
#[export] Instance Role_eq_dec : EqDecision Role.
Proof. solve_decision. Defined.

Record Page := { Number : Z; Size : Z }.

Definition Normalize (p : Page) : result Error Page :=
  if (Number p <? 0) || (Size p <? 0) || (100 <? Size p) then Err ErrInvalid
  else Ok {| Number := if Number p =? 0 then 1 else Number p;
             Size := if Size p =? 0 then 20 else Size p |}.

Record PageInfo := { pi_Page : Page; Total : Z }.

Definition TotalPages (p : PageInfo) : Z :=
  if Total p =? 0 then 0
  else wrap32 (add64 (Z.quot (sub64 (Total p) 1) (Size (pi_Page p))) 1).

Record ListRequest := {
  lr_Page : Page;
  lr_Status : Status;
  lr_Role : Role;
  lr_PickupID : string;
  lr_DeliveryID : string;
  lr_DeliveryBuildingName : string;
}.

Record OrderPage := {
  op_Orders : list Order;
  op_PageInfo : PageInfo;
}.

(** ** Assignment attempts (assignmenttypes.go) *)

Definition AcceptOrderMethod : string := "/order.v1.OrderService/AcceptOrder".
Definition AcceptOfferMethod : string := "/order.v1.OrderService/AcceptOffer".
Definition MakeOfferMethod : string := "/order.v1.OrderService/MakeOffer".
Definition CancelOrderMethod : string := "/order.v1.OrderService/CancelOrder".

Inductive AssignmentPhase :=
| AdjustmentPending
| RevertPending
| AssignmentSucceeded
| AssignmentRejected.
#[export] Instance AssignmentPhase_eq_dec : EqDecision AssignmentPhase.
Proof. solve_decision. Defined.

Record AssignmentAttempt := mkAttempt {
  w_ID : string;
  w_OrderID : string;
  w_OfferID : string;
  w_CallerID : string;
  w_CourierID : string;
  w_Method : string;
  w_Key : string;
  w_RequestHash : string;
  w_Amount : Z;
  w_OriginalAmount : Z;
  w_Phase : AssignmentPhase;
  w_Generation : Z;
  w_Attempts : Z;
  w_LeaseUntil : Time;
  w_NextAttemptAt : Time;
  w_Rejection : string;
  w_CreatedAt : Time;
  w_UpdatedAt : Time;
}.
#[export] Instance AssignmentAttempt_eq_dec : EqDecision AssignmentAttempt.
Proof. solve_decision. Defined.
#[export] Instance AssignmentAttempt_eta : Eta AssignmentAttempt := λ w,
  mkAttempt (w_ID w) (w_OrderID w) (w_OfferID w) (w_CallerID w) (w_CourierID w) (w_Method w)
    (w_Key w) (w_RequestHash w) (w_Amount w) (w_OriginalAmount w) (w_Phase w) (w_Generation w)
    (w_Attempts w) (w_LeaseUntil w) (w_NextAttemptAt w) (w_Rejection w) (w_CreatedAt w)
    (w_UpdatedAt w).
#[export] Instance set_w_Phase : Setter w_Phase := ltac:(build_setter w_Phase).
#[export] Instance set_w_Generation : Setter w_Generation := ltac:(build_setter w_Generation).
#[export] Instance set_w_Attempts : Setter w_Attempts := ltac:(build_setter w_Attempts).
#[export] Instance set_w_LeaseUntil : Setter w_LeaseUntil := ltac:(build_setter w_LeaseUntil).
#[export] Instance set_w_NextAttemptAt : Setter w_NextAttemptAt := ltac:(build_setter w_NextAttemptAt).
#[export] Instance set_w_Rejection : Setter w_Rejection := ltac:(build_setter w_Rejection).
#[export] Instance set_w_UpdatedAt : Setter w_UpdatedAt := ltac:(build_setter w_UpdatedAt).

Definition IsResolved (w : AssignmentAttempt) : bool :=
  match w_Phase w with AssignmentSucceeded | AssignmentRejected => true | _ => false end.

Record AssignmentResult := {
  ar_Order : Order;
  ar_Offer : option Offer;
  ar_AttemptID : string;
  ar_Phase : AssignmentPhase;
  ar_Rejection : string;
}.

Record AdjustmentIntent := {
  ai_OrderID : string;
  ai_OfferID : string;
  ai_CourierID : string;
  ai_Amount : Z;
}.

(** Credit's view of a reservation, as the assignment client reports it. *)
Record AssignmentReservation := {
  v_OrderID : string;
  v_RequesterID : string;
  v_OriginalAmount : Z;
  v_ReservedAmount : Z;
  v_State : string;
  v_OfferID : string;
  v_CourierID : string;
}.

(** ** Cancellations (cancellationtypes.go) *)

Inductive CancellationStatus :=
| CancellationPending
| CancellationSucceeded
| CancellationSuperseded.
#[export] Instance CancellationStatus_eq_dec : EqDecision CancellationStatus.
Proof. solve_decision. Defined.

Record Cancellation := mkCancellation {
  k_ID : string;
  k_OrderID : string;
  k_CallerID : string;
  k_Reason : string;
  k_Status : CancellationStatus;
  k_AssignmentID : string;
  k_CourierID : string;
  k_AssignedAt : option Time;
  k_OriginalAmount : Z;
  k_Generation : Z;
  k_Attempts : Z;
  k_LeaseUntil : Time;
  k_NextAttemptAt : Time;
  k_CreatedAt : Time;
  k_UpdatedAt : Time;
}.
#[export] Instance Cancellation_eq_dec : EqDecision Cancellation.
Proof. solve_decision. Defined.
#[export] Instance Cancellation_eta : Eta Cancellation := λ k,
  mkCancellation (k_ID k) (k_OrderID k) (k_CallerID k) (k_Reason k) (k_Status k)
    (k_AssignmentID k) (k_CourierID k) (k_AssignedAt k) (k_OriginalAmount k) (k_Generation k)
    (k_Attempts k) (k_LeaseUntil k) (k_NextAttemptAt k) (k_CreatedAt k) (k_UpdatedAt k).
#[export] Instance set_k_Status : Setter k_Status := ltac:(build_setter k_Status).
#[export] Instance set_k_AssignmentID : Setter k_AssignmentID := ltac:(build_setter k_AssignmentID).
#[export] Instance set_k_CourierID : Setter k_CourierID := ltac:(build_setter k_CourierID).
#[export] Instance set_k_AssignedAt : Setter k_AssignedAt := ltac:(build_setter k_AssignedAt).
#[export] Instance set_k_OriginalAmount : Setter k_OriginalAmount := ltac:(build_setter k_OriginalAmount).
#[export] Instance set_k_Generation : Setter k_Generation := ltac:(build_setter k_Generation).
#[export] Instance set_k_Attempts : Setter k_Attempts := ltac:(build_setter k_Attempts).
#[export] Instance set_k_LeaseUntil : Setter k_LeaseUntil := ltac:(build_setter k_LeaseUntil).
#[export] Instance set_k_NextAttemptAt : Setter k_NextAttemptAt := ltac:(build_setter k_NextAttemptAt).
#[export] Instance set_k_UpdatedAt : Setter k_UpdatedAt := ltac:(build_setter k_UpdatedAt).

Record CancellationResult := {
  cr_Order : Order;
  cr_OperationID : string;
  cr_Status : CancellationStatus;
}.

(** ** Idempotency keys (idempotency.go) *)

Record IdempotencyScope := {
  CallerID : string;
  Method : string;
}.
#[export] Instance IdempotencyScope_eq_dec : EqDecision IdempotencyScope.
Proof. solve_decision. Defined.

Record IdempotencyKey := {
  ik_Scope : IdempotencyScope;
  ik_Key : string;
  ik_ResourceID : string;
  ik_RequestHash : string;
  ik_ExpiresAt : Time;
}.

Definition CheckRequestHash (k : IdempotencyKey) (hash : string) : result Error unit :=
  guard_ok (bool_decide (ik_RequestHash k = hash)) ErrAlreadyExists.

(** ** Creation workflows (creationtypes.go, idempotency.go)

    [cw_] a workflow. Its result is kept as the order its JSON encodes. *)

Definition CreateOrderMethod : string := "/order.v1.OrderService/CreateOrder".

(** CreationRejection.Error. *)
Definition rejection_text (r : CreationRejection) : string :=
  match r with
  | InsufficientCredits => "insufficient credits"
  | CreationExpired => "order creation expired"
  | ReservationReleased => "credit reservation was released"
  | NoRejection => "order creation rejected"
  end.

Record CreateInput := {
  in_Key : string;
  in_PickupID : string;
  in_DeliveryID : string;
  in_Instructions : option string;
  in_ItemDescription : string;
  in_ImageIDs : list string;
  in_RewardCredits : Z;
  in_DeliveryDuration : Duration;
  in_ExpiresAt : Time;
}.

Record SelectableLocation := {
  sl_Snapshot : LocationSnapshot;
  sl_Archived : bool;
}.

Record ReservationIntent := {
  ri_OrderID : string;
  ri_RequesterID : string;
  ri_Amount : Z;
}.

Inductive ReservationState :=
| ReservationHeld
| ReservationIsReleased
| OtherReservationState (s : string).
#[export] Instance ReservationState_eq_dec : EqDecision ReservationState.
Proof. solve_decision. Defined.

Record ReservationView := {
  vw_OrderID : string;
  vw_RequesterID : string;
  vw_State : ReservationState;
  vw_OriginalAmount : Z;
  vw_ReservedAmount : Z;
}.

Inductive CreationPhase :=
| ReservePending
| AbortPending
| CreationOpened
| CreationRejected.
#[export] Instance CreationPhase_eq_dec : EqDecision CreationPhase.
Proof. solve_decision. Defined.

Record CreationWorkflow := mkWorkflow {
  cw_ID : string;
  cw_OrderID : string;
  cw_RequesterID : string;
  cw_Hash : string;
  cw_Canonical : json;
  cw_Amount : Z;
  cw_ExpiresAt : Time;
  cw_Phase : CreationPhase;
  cw_Generation : Z;
  cw_Attempts : Z;
  cw_LeaseUntil : Time;
  cw_NextAttemptAt : Time;
  cw_LastError : string;
  cw_Rejection : CreationRejection;
  cw_Result : option Order;
  cw_CreatedAt : Time;
  cw_UpdatedAt : Time;
}.
#[export] Instance CreationWorkflow_eta : Eta CreationWorkflow := λ w,
  mkWorkflow (cw_ID w) (cw_OrderID w) (cw_RequesterID w) (cw_Hash w) (cw_Canonical w) (cw_Amount w)
    (cw_ExpiresAt w) (cw_Phase w) (cw_Generation w) (cw_Attempts w) (cw_LeaseUntil w)
    (cw_NextAttemptAt w) (cw_LastError w) (cw_Rejection w) (cw_Result w) (cw_CreatedAt w)
    (cw_UpdatedAt w).
#[export] Instance set_cw_Phase : Setter cw_Phase := ltac:(build_setter cw_Phase).
#[export] Instance set_cw_Generation : Setter cw_Generation := ltac:(build_setter cw_Generation).
#[export] Instance set_cw_Attempts : Setter cw_Attempts := ltac:(build_setter cw_Attempts).
#[export] Instance set_cw_LeaseUntil : Setter cw_LeaseUntil := ltac:(build_setter cw_LeaseUntil).
#[export] Instance set_cw_NextAttemptAt : Setter cw_NextAttemptAt :=
  ltac:(build_setter cw_NextAttemptAt).
#[export] Instance set_cw_LastError : Setter cw_LastError := ltac:(build_setter cw_LastError).
#[export] Instance set_cw_Rejection : Setter cw_Rejection := ltac:(build_setter cw_Rejection).
#[export] Instance set_cw_Result : Setter cw_Result := ltac:(build_setter cw_Result).
#[export] Instance set_cw_UpdatedAt : Setter cw_UpdatedAt := ltac:(build_setter cw_UpdatedAt).

(** CreationWorkflow.IsResolved. *)
Definition creation_resolved (w : CreationWorkflow) : bool :=
  match cw_Phase w with CreationOpened | CreationRejected => true | _ => false end.

Definition Intent (w : CreationWorkflow) : ReservationIntent :=
  {| ri_OrderID := cw_OrderID w; ri_RequesterID := cw_RequesterID w; ri_Amount := cw_Amount w |}.

Record CreationReplay := {
  rp_Key : IdempotencyKey;
  rp_Workflow : CreationWorkflow;
}.

Definition creationIdempotencyKey (w : CreationWorkflow) (key : string) : IdempotencyKey := {|
  ik_Scope := {| CallerID := cw_RequesterID w; Method := CreateOrderMethod |};
  ik_Key := key; ik_ResourceID := cw_ID w; ik_RequestHash := cw_Hash w;
  ik_ExpiresAt := cw_CreatedAt w + 24 * Hour |}.

(** ** Item images (itemimages.go) *)

Inductive ImageState :=
| ImageUploading
| ImageAttached
| ImageDeleting.
#[export] Instance ImageState_eq_dec : EqDecision ImageState.
Proof. solve_decision. Defined.

Record ItemImageUpload := {
  ii_ID : string;
  ii_OwnerID : string;
  ii_Key : string;
  ii_ContentType : string;
  ii_State : ImageState;
  ii_SizeBytes : Z;
  ii_CreatedAt : Time;
  ii_UploadExpiresAt : Time;
}.

Definition MaxImageBytes : Z := 10000000.
Definition ImageUploadLifetime : Duration := 10 * Minute.

Definition image_types : list string :=
  ["image/jpeg"; "image/png"; "image/webp"; "image/heic"; "image/heif"].
Definition validImageType (value : string) : bool := bool_decide (value ∈ image_types).

(** ** Delivery proofs (prooftypes.go, proofreceipts.go)

    [pu_] an upload, [pc_] a confirmation, [dr_] a delivery receipt, [po_] an
    outage. *)

Inductive ProofState :=
| ProofUploading
| ProofAccepted
| ProofDeleting.
#[export] Instance ProofState_eq_dec : EqDecision ProofState.
Proof. solve_decision. Defined.

Record ProofUpload := mkUpload {
  pu_State : ProofState;
  pu_ID : string;
  pu_OrderID : string;
  pu_CourierID : string;
  pu_UploadID : string;
  pu_Key : string;
  pu_ContentType : string;
  pu_SigningEpoch : string;
  pu_UploadScope : string;
  pu_VerifiedAt : option Time;
  pu_SizeBytes : Z;
  pu_Generation : Z;
  pu_GrantedAt : Time;
  pu_ExpiresAt : Time;
  pu_CreatedAt : Time;
}.
#[export] Instance ProofUpload_eta : Eta ProofUpload := λ u,
  mkUpload (pu_State u) (pu_ID u) (pu_OrderID u) (pu_CourierID u) (pu_UploadID u) (pu_Key u)
    (pu_ContentType u) (pu_SigningEpoch u) (pu_UploadScope u) (pu_VerifiedAt u) (pu_SizeBytes u)
    (pu_Generation u) (pu_GrantedAt u) (pu_ExpiresAt u) (pu_CreatedAt u).
#[export] Instance set_pu_SigningEpoch : Setter pu_SigningEpoch := ltac:(build_setter pu_SigningEpoch).
#[export] Instance set_pu_Generation : Setter pu_Generation := ltac:(build_setter pu_Generation).
#[export] Instance set_pu_GrantedAt : Setter pu_GrantedAt := ltac:(build_setter pu_GrantedAt).
#[export] Instance set_pu_ExpiresAt : Setter pu_ExpiresAt := ltac:(build_setter pu_ExpiresAt).

Record ProofUploadInput := {
  pi_OrderID : string;
  pi_UploadID : string;
  pi_ContentType : string;
  pi_SizeBytes : Z;
}.

Record ProofOutage := {
  po_Reason : string;
  po_EvidenceID : string;
  po_UploadScope : string;
  po_Generation : Z;
  po_ObservedAt : Time;
  po_ValidUntil : Time;
}.
#[export] Instance ProofOutage_eq_dec : EqDecision ProofOutage.
Proof. solve_decision. Defined.

Record ProofConfirmation := {
  pc_OrderID : string;
  pc_CourierID : string;
  pc_ProofIDs : list string;
  pc_Unattended : bool;
  pc_OutageReason : string;
  pc_Outage : option ProofOutage;
  pc_ConfirmedAt : Time;
}.

Record ConfirmDeliveryInput := {
  cd_OrderID : string;
  cd_ProofIDs : list string;
  cd_Unattended : bool;
  cd_WithoutProof : bool;
}.

Inductive ReceiptState :=
| ReceiptPending
| ReceiptAccepted
| ReceiptRejected
| ReceiptSuperseded.
#[export] Instance ReceiptState_eq_dec : EqDecision ReceiptState.
Proof. solve_decision. Defined.

Record DeliveryReceipt := {
  dr_ID : string;
  dr_OrderID : string;
  dr_CourierID : string;
  dr_ProofIDs : list string;
  dr_Unattended : bool;
  dr_WithoutProof : bool;
  dr_ReceivedAt : Time;
  dr_ProcessedAt : option Time;
  dr_State : ReceiptState;
  dr_Outage : option ProofOutage;
  dr_AttemptCount : Z;
}.

Definition MaxStagedProofs : Z := 20.
Definition MaxNewProofIdentitiesPerHour : Z := 200.

(** ** Changes and facts (repository.go, events.go)

    A payload is kept as the struct its JSON encodes. *)
Record AuditEntry := {
  au_PreviousStatus : Status;
  au_Status : Status;
  au_At : Time;
  au_Details : json;
}.

Inductive FactKind :=
| StatusChanged
| Outcome
| CourierWarning.
#[export] Instance FactKind_eq_dec : EqDecision FactKind.
Proof. solve_decision. Defined.

Record FactsPayload := {
  p_PreviousCourierID : option string;
  p_OrderID : string;
  p_Revision : Z;
  p_RequesterID : string;
  p_CourierID : option string;
  p_PreviousStatus : Status;
  p_Status : Status;
  p_Action : Action;
  p_ReservedCredits : Z;
  p_DeliveryDurationNS : Z;
  p_PickedUpAt : option Time;
  p_DeliveredAt : option Time;
  p_AfterPickup : bool;
  p_At : Time;
}.
#[export] Instance FactsPayload_eq_dec : EqDecision FactsPayload.
Proof. solve_decision. Defined.

Record Fact := {
  fc_ID : string;
  fc_Kind : FactKind;
  fc_Version : Z;
  fc_Payload : FactsPayload;
}.

Record OfferChange := {
  oc_Offer : Offer;
  oc_ExpectedStatus : OfferStatus;
}.

Record Change := mkChange {
  c_ExpectedRevision : Z;
  c_Order : Order;
  c_Offers : list OfferChange;
  c_Actor : Actor;
  c_Action : Action;
  c_Audit : AuditEntry;
  c_Facts : list Fact;
}.
#[export] Instance Change_eta : Eta Change := λ c,
  mkChange (c_ExpectedRevision c) (c_Order c) (c_Offers c) (c_Actor c) (c_Action c) (c_Audit c)
    (c_Facts c).
#[export] Instance set_c_Offers : Setter c_Offers := ltac:(build_setter c_Offers).

(** ** Identifiers (postgres.go) *)

Definition uuid_nil : string := "00000000-0000-0000-0000-000000000000".

(** [parseID id] followed by [String]: the canonical text of a non-nil UUID. *)
Definition parseID `{UUID} (id : string) : result Error string :=
  match uuid_parse id with
  | Some v => if decide (v = uuid_nil) then Err ErrInvalid else Ok v
  | None => Err ErrInvalid
  end.
