(* ===== verification/OrderPolicy.v ===== *)
(** * Order: the lifecycle policy

    transitions.go, changefields.go, events.go, assignmentpolicy.go and
    validateChange of postgres.go: which actor may take an order from which
    status to which, the fields each action owns, and the audit record and the
    facts that every change carries. *)
From stdpp Require Import prelude strings list.
From Stdlib Require Import ZArith.
From S2P Require Import Prelude.
From S2P Require Import GoLib.
From S2P Require Import GoText.
From S2P Require Import OrderTypes.

Local Open Scope Z_scope.
Local Open Scope foc_scope.

(** ** Lifecycle transitions (transitions.go) *)

(** isActionAllowed reports whether the actor may perform the action in this
    state. *)
Definition isActionAllowed (s : Status) (a : Action) (k : ActorKind)
    (requester courier : bool) : bool :=
  match s with
  | PendingReservation => same k System && (same a ConfirmReservation || same a RefuseReservation)
  | AwaitingCourier =>
      (same a Assign && same k User && negb requester) || (same a AcceptCounteroffer && requester)
      || (same a Cancel && (requester || same k Admin)) || (same a Expire && same k System)
  | AwaitingPickup =>
      (same a Pickup && courier) || (same a Cancel && (requester || same k Admin))
      || (same a Withdraw && courier) || (same a Unassign && same k Admin)
  | Delivering =>
      (same a Deliver && courier) || (same a Cancel && (requester || courier))
      || (same a Timeout && same k System)
  | Delivered => same a ConfirmReceipt && requester
  | _ => false
  end.

(** The destinations map; a missing entry is the zero status. *)
Definition destinations (a : Action) : Status :=
  match a with
  | ConfirmReservation => AwaitingCourier
  | RefuseReservation => Rejected
  | Assign => AwaitingPickup
  | AcceptCounteroffer => AwaitingPickup
  | Cancel => Cancelled
  | Expire => Expired
  | Pickup => Delivering
  | Withdraw => AwaitingCourier
  | Unassign => AwaitingCourier
  | Deliver => Delivered
  | Timeout => Failed
  | ConfirmReceipt => Completed
  | _ => NoStatus
  end.

(** The check of an actor that Transition and NewChange share. *)
Definition invalid_actor (actor : Actor) : bool :=
  negb (same (a_Kind actor) System)
  && ((negb (same (a_Kind actor) User) && negb (same (a_Kind actor) Admin))
      || negb (nonempty (a_ID actor))).

(** Would another actor have been allowed? *)
Definition wrong_actor (o : Order) (action : Action) : bool :=
  existsb (λ k, isActionAllowed (o_Status o) action (a_Kind k)
                  (IsRequestedBy o (a_ID k)) (IsAssignedTo o (a_ID k)))
    [{| a_Kind := System; a_ID := EmptyString |}; {| a_Kind := Admin; a_ID := "admin" |};
     {| a_Kind := User; a_ID := o_RequesterID o |}]
  || isActionAllowed (o_Status o) action User false true.

(** The next status, and whether the call repeats a success that the stored
    state proves. *)
Definition Transition (o : Order) (action : Action) (actor : Actor) : result Error (Status * bool) :=
  if negb (IsValid (o_Status o)) then Err ErrPrecondition
  else if invalid_actor actor then Err ErrForbidden
  else if same action Pickup && is_some (o_PendingCancellationID o) then Err ErrPrecondition
  else
    let requester := same (a_Kind actor) User && IsRequestedBy o (a_ID actor) in
    let courier := same (a_Kind actor) User && IsAssignedTo o (a_ID actor) in
    if same action Assign && same (a_Kind actor) User && IsRequestedBy o (a_ID actor) then
      Err ErrForbidden
    else if same action Assign && same (o_Status o) AwaitingPickup && courier then
      Ok (o_Status o, true)
    else if same action Pickup && same (o_Status o) Delivering && courier then
      Ok (o_Status o, true)
    else if same action ConfirmReceipt && same (o_Status o) Completed && requester then
      Ok (o_Status o, true)
    else if IsTerminal (o_Status o) then Err ErrPrecondition
    else if isActionAllowed (o_Status o) action (a_Kind actor) requester courier then
      if same action Cancel && courier then Ok (Failed, false)
      else Ok (destinations action, false)
    else if wrong_actor o action then Err ErrForbidden
    else Err ErrPrecondition.

(** ** Field ownership (changefields.go) *)

(** [owned before after action] is [before] with the fields that the action
    may change taken from [after]. *)
Definition owned (before after : Order) (action : Action) : result Error Order :=
  let e := before <| o_Status := o_Status after |> <| o_Revision := o_Revision after |>
                  <| o_UpdatedAt := o_UpdatedAt after |> in
  match action with
  | Assign | AcceptCounteroffer =>
      Ok (e <| o_CourierID := o_CourierID after |> <| o_AssignedAt := o_AssignedAt after |>
            <| o_RewardCredits := o_RewardCredits after |>
            <| o_ReservedCredits := o_ReservedCredits after |>)
  | ConfirmReservation => Ok (e <| o_ReservedCredits := o_ReservedCredits after |>)
  | Pickup => Ok (e <| o_PickedUpAt := o_PickedUpAt after |>)
  | Deliver => Ok (e <| o_DeliveredAt := o_DeliveredAt after |>
                     <| o_UnattendedDelivery := o_UnattendedDelivery after |>)
  | ConfirmReceipt => Ok (e <| o_CompletedAt := o_CompletedAt after |>)
  | Cancel | Expire | Timeout | RefuseReservation =>
      Ok (e <| o_PendingCancellationID := o_PendingCancellationID after |>
            <| o_ClosedAt := o_ClosedAt after |> <| o_CloseReason := o_CloseReason after |>)
  | Withdraw | Unassign =>
      let e := e <| o_PendingCancellationID := o_PendingCancellationID after |> in
      let e := if same action Withdraw then
                 e <| o_RewardCredits := o_RewardCredits after |>
                   <| o_ReservedCredits := o_ReservedCredits after |>
               else e in
      if is_some (o_CourierID after) || is_some (o_AssignedAt after) then Err ErrInvalid
      else Ok (e <| o_CourierID := None |> <| o_AssignedAt := None |>)
  | BeginWithdrawal => Ok (e <| o_PendingCancellationID := o_PendingCancellationID after |>)
  | ProposeOffer | BeginAssignment | ResolveAssignment => Ok e
  | RecordItemLocation => Ok (e <| o_ItemLocation := o_ItemLocation after |>)
  | Create => Err ErrInvalid
  end.

Definition validateFields (before after : Order) (action : Action) : result Error unit :=
  expected ← owned before after action;
  guard_ok (same expected after) ErrInvalid.

(** ** Changes and facts (events.go) *)

Definition max_details : nat := 4096.

(** The lifecycle rules of a change that moves the order to another status. *)
Definition check_transition (before after : Order) (actor : Actor) (action : Action)
    : result Error unit :=
  '(next, repeat) ← Transition before action actor;
  _ ← guard_ok (negb (repeat || negb (same next (o_Status after)))) ErrPrecondition;
  _ ← guard_ok (negb (same action Assign && negb (IsAssignedTo after (a_ID actor)))) ErrInvalid;
  guard_ok (negb (same action AcceptCounteroffer
    && (match o_CourierID after with Some c => negb (nonempty c) | None => true end
        || IsAssignedTo after (o_RequesterID before)))) ErrInvalid.

(** The rules of a change that keeps the status. *)
Definition check_metadata (before after : Order) (actor : Actor) (action : Action)
    : result Error unit :=
  let user := same (a_Kind actor) User in
  match action with
  | BeginWithdrawal =>
      guard_ok (user && same (o_Status before) AwaitingPickup && IsAssignedTo before (a_ID actor)
                && negb (is_some (o_PendingCancellationID before))
                && is_some (o_PendingCancellationID after)) ErrPrecondition
  | RecordItemLocation =>
      guard_ok (user && IsAssignedTo before (a_ID actor) && is_some (o_PickedUpAt before)
                && (same (o_Status before) Cancelled || same (o_Status before) Failed)) ErrPrecondition
  | ProposeOffer =>
      guard_ok (user && same (o_Status before) AwaitingCourier
                && negb (IsRequestedBy before (a_ID actor))) ErrForbidden
  | BeginAssignment => guard_ok (user && same (o_Status before) AwaitingCourier) ErrForbidden
  | ResolveAssignment => guard_ok user ErrForbidden
  | _ => Err ErrPrecondition
  end.

(** Which facts a status change emits. *)
Definition fact_kinds (previous : Status) (after : Order) (actor : Actor) (action : Action)
    : list FactKind :=
  [StatusChanged]
  ++ (match o_Status after with
      | Completed | Cancelled | Expired | Failed => [Outcome]
      | _ => []
      end)
  ++ (if same previous Delivering
         && ((same action Cancel && same (a_Kind actor) User && IsAssignedTo after (a_ID actor))
             || (same action Timeout && same (a_Kind actor) System && is_some (o_PickedUpAt after)
                 && is_some (o_CourierID after)))
      then [CourierWarning] else []).

(** json.Marshal of the payload fails only on a time it cannot write. *)
Definition time_ok (t : Time) : bool := is_some (format_time t).
Definition payload_ok (p : FactsPayload) : bool :=
  time_ok (p_At p)
  && match p_PickedUpAt p with Some t => time_ok t | None => true end
  && match p_DeliveredAt p with Some t => time_ok t | None => true end.

Definition payload_of (before : option Order) (after : Order) (action : Action) : FactsPayload := {|
  p_PreviousCourierID := before ≫= o_CourierID;
  p_OrderID := o_ID after;
  p_Revision := o_Revision after;
  p_RequesterID := o_RequesterID after;
  p_CourierID := o_CourierID after;
  p_PreviousStatus := match before with Some b => o_Status b | None => NoStatus end;
  p_Status := o_Status after;
  p_Action := action;
  p_ReservedCredits := o_ReservedCredits after;
  p_DeliveryDurationNS := o_DeliveryDuration after;
  p_PickedUpAt := o_PickedUpAt after;
  p_DeliveredAt := o_DeliveredAt after;
  p_AfterPickup := is_some (o_PickedUpAt after);
  p_At := o_UpdatedAt after |}.

(** NewChange builds the audit entry and the facts of a change. The n-th fact
    takes the n-th identifier of [newID]. *)
Definition NewChange (before : option Order) (after : Order) (actor : Actor) (action : Action)
    (details : option json) (newID : nat → string) : result Error Change :=
  let expected := match before with Some b => o_Revision b | None => 0 end in
  let previous := match before with Some b => o_Status b | None => NoStatus end in
  _ ← guard_ok (match before with Some b => same (o_ID b) (o_ID after) | None => true end) ErrInvalid;
  _ ← guard_ok (negb ((o_Revision after <=? 0) || negb (o_Revision after =? add64 expected 1)
                 || negb (IsValid (o_Status after))
                 || (negb (is_some before)
                     && (negb (same (o_Status after) PendingReservation) || negb (same action Create)))))
               ErrInvalid;
  _ ← guard_ok (negb (invalid_actor actor)) ErrForbidden;
  _ ← match before with
      | None => guard_ok (same (a_Kind actor) User && IsRequestedBy after (a_ID actor)) ErrForbidden
      | Some b =>
          if decide (previous = o_Status after) then check_metadata b after actor action
          else check_transition b after actor action
      end;
  _ ← match before with Some b => validateFields b after action | None => Ok tt end;
  let details := match details with Some d => d | None => JObject [] end in
  _ ← guard_ok (Nat.leb (String.length (Marshal details)) max_details) ErrInvalid;
  let c := {|
    c_ExpectedRevision := expected; c_Order := after; c_Offers := []; c_Actor := actor;
    c_Action := action;
    c_Audit := {| au_PreviousStatus := previous; au_Status := o_Status after;
                  au_At := o_UpdatedAt after; au_Details := details |};
    c_Facts := [] |} in
  if decide (previous = o_Status after) then mret c
  else
    let payload := payload_of before after action in
    _ ← guard_ok (payload_ok payload) ErrMarshal;
    mret {|
      c_ExpectedRevision := expected; c_Order := after; c_Offers := []; c_Actor := actor;
      c_Action := action; c_Audit := c_Audit c;
      c_Facts := imap (λ i k, {| fc_ID := newID i; fc_Kind := k; fc_Version := 1;
                                 fc_Payload := payload |})
                      (fact_kinds previous after actor action) |}.

(** ** The change that is about to be written (postgres.go) *)

Section validate.
  Context `{UUID}.

(** The facts of the change, against those NewChange would build. *)
Fixpoint check_facts (seen : list string) (facts expected : list Fact) : result Error unit :=
  match facts, expected with
  | f :: facts', x :: expected' =>
      _ ← parseID (fc_ID f);
      _ ← guard_ok (bool_decide (fc_ID f ∉ seen)) ErrInvalid;
      _ ← guard_ok (same (fc_Kind f) (fc_Kind x) && (fc_Version f =? fc_Version x)
                    && same (fc_Payload f) (fc_Payload x)) ErrInvalid;
      check_facts (fc_ID f :: seen) facts' expected'
  | [], [] => Ok tt
  | _, _ => Err ErrInvalid
  end.

Definition validateChange (before : option Order) (c : Change) : result Error unit :=
  _ ← guard_ok (match before with
                | Some b => same (o_RequesterID b) (o_RequesterID (c_Order c))
                            && (o_CreatedAt b =? o_CreatedAt (c_Order c))
                | None => true
                end) ErrInvalid;
  expected ← NewChange before (c_Order c) (c_Actor c) (c_Action c)
               (Some (au_Details (c_Audit c))) (λ _, EmptyString);
  _ ← guard_ok ((c_ExpectedRevision expected =? c_ExpectedRevision c)
                && same (au_PreviousStatus (c_Audit expected)) (au_PreviousStatus (c_Audit c))
                && same (au_Status (c_Audit expected)) (au_Status (c_Audit c))
                && (au_At (c_Audit expected) =? au_At (c_Audit c))
                && Nat.eqb (length (c_Facts expected)) (length (c_Facts c))) ErrInvalid;
  check_facts [] (c_Facts c) (c_Facts expected).

End validate.

(** ** Offers of a change (assignmentpolicy.go) *)

(** The attempt belongs to this order and this actor. *)
Definition matchesAttempt (attempt : option AssignmentAttempt) (before : Order) (actor : Actor) : bool :=
  match attempt with
  | Some w => same (w_OrderID w) (o_ID before) && same (w_CallerID w) (a_ID actor)
              && same (a_Kind actor) User
  | None => false
  end.

(** The last stored offer with this identifier, as a map filled in order. *)
Definition byID (stored : list Offer) (id : string) : option Offer :=
  snd <$> list_find (λ f, f_ID f = id) (rev stored).

(** The rule of each action for one offer of the change. *)
Definition offer_allowed (before : Order) (change : Change) (attempt : option AssignmentAttempt)
    (old : option Offer) (f : Offer) : bool :=
  let exists_ := is_some old in
  let old_is s := match old with Some o => same (f_Status o) s | None => false end in
  match c_Action change with
  | ProposeOffer =>
      same (o_Status before) AwaitingCourier && negb (IsRequestedBy before (a_ID (c_Actor change)))
      && same (f_CourierID f) (a_ID (c_Actor change))
      && (exists_ || (same (f_Status f) OfferOpen && (o_RewardCredits before <? f_Credits f)))
      && (negb exists_ || (old_is OfferOpen && same (f_Status f) OfferVoid))
  | BeginAssignment =>
      match attempt with
      | None => false
      | Some w =>
          matchesAttempt attempt before (c_Actor change) && same (f_ID f) (w_OfferID w)
          && same (f_CourierID f) (w_CourierID w) && (f_Credits f =? w_Amount w)
          && same (f_Status f) OfferAccepting
          && (if decide (w_Method w = AcceptOrderMethod) then
                negb exists_ && same (f_CourierID f) (a_ID (c_Actor change))
                && (f_Credits f =? o_RewardCredits before)
              else IsRequestedBy before (a_ID (c_Actor change)) && old_is OfferOpen)
      end
  | ResolveAssignment =>
      match attempt with
      | None => false
      | Some w =>
          matchesAttempt attempt before (c_Actor change) && same (f_ID f) (w_OfferID w) && exists_
          && (old_is OfferAccepting || old_is OfferVoid)
          && (same (f_Status f) OfferOpen || same (f_Status f) OfferVoid)
          && negb (old_is OfferVoid && negb (same (f_Status f) OfferVoid))
          && negb (same (f_Status f) OfferOpen
                   && (same (w_Method w) AcceptOrderMethod
                       || negb (same (w_Rejection w) "insufficient_credits")))
      end
  | Assign | AcceptCounteroffer =>
      match attempt with
      | None => false
      | Some w =>
          matchesAttempt attempt before (c_Actor change) && exists_
          && (if decide (f_ID f = w_OfferID w) then
                old_is OfferAccepting && same (f_Status f) OfferAccepted
                && same (f_CourierID f) (w_CourierID w) && (f_Credits f =? w_Amount w)
              else old_is OfferOpen && same (f_Status f) OfferVoid)
      end
  | _ => true
  end.

Fixpoint check_offers (before : Order) (stored : list Offer) (change : Change)
    (attempt : option AssignmentAttempt) (seen : list string) (updates : list OfferChange)
    : result Error unit :=
  match updates with
  | [] => Ok tt
  | u :: rest =>
      let f := oc_Offer u in
      _ ← guard_ok (same (f_OrderID f) (o_ID before) && negb (same (f_CourierID f) (o_RequesterID before))
                    && (0 <? f_Credits f) && bool_decide (f_ID f ∉ seen)) ErrInvalid;
      let old := byID stored (f_ID f) in
      _ ← guard_ok (match old with
                    | Some old => same (oc_ExpectedStatus u) (f_Status old)
                                  && same (f_CourierID old) (f_CourierID f)
                                  && (f_Credits old =? f_Credits f)
                                  && (f_CreatedAt old =? f_CreatedAt f)
                    | None => same (oc_ExpectedStatus u) NoOfferStatus
                    end) ErrConflict;
      _ ← guard_ok (offer_allowed before change attempt old f) ErrForbidden;
      check_offers before stored change attempt (f_ID f :: seen) rest
  end.

Definition validateAssignmentOffers (before : Order) (stored : list Offer) (change : Change)
    (attempt : option AssignmentAttempt) : result Error unit :=
  match c_Action change with
  | ProposeOffer | BeginAssignment | ResolveAssignment | Assign | AcceptCounteroffer =>
      _ ← guard_ok (same (a_Kind (c_Actor change)) User && nonempty (a_ID (c_Actor change)))
                   ErrForbidden;
      check_offers before stored change attempt [] (c_Offers change)
  | _ => Ok tt
  end.
