(* ===== verification/OrderDB.v ===== *)
(** * Order: the database

    order-service/database: the tables, CHECK constraints, keys and indexes of
    the schema, and the queries of the mutation paths. uuid columns are kept as
    canonical text, timestamptz columns as UTC times in whole microseconds,
    jsonb columns as the JSON value, and an enumerated text column as the value
    of its type. A failing statement returns the SQLSTATE it fails with. *)
From stdpp Require Import prelude gmap strings list sorting.
From Stdlib Require Import ZArith.
From S2P Require Import Prelude.
From S2P Require Import GoLib.
From S2P Require Import GoText.
From S2P Require Import OrderTypes.
From S2P Require Import OrderPolicy.

Local Open Scope Z_scope.
Local Open Scope foc_scope.

(** ** Rows (orderdb/models.go) *)

Record OrderRow := mkOrderRow {
  r_ID : string;
  r_RequesterID : string;
  r_CourierID : option string;
  r_Status : Status;
  r_Pickup : json;
  r_Delivery : json;
  r_DeliveryInstructions : option string;
  r_ItemDescription : string;
  r_RewardCredits : Z;
  r_ReservedCredits : Z;
  r_DeliveryDurationNs : Z;
  r_ExpiresAt : Time;
  r_AssignedAt : option Time;
  r_PickedUpAt : option Time;
  r_DeliveredAt : option Time;
  r_CompletedAt : option Time;
  r_ClosedAt : option Time;
  r_CloseReason : option string;
  r_ItemLocation : option string;
  r_UnattendedDelivery : bool;
  r_Revision : Z;
  r_CreatedAt : Time;
  r_UpdatedAt : Time;
  r_PendingCancellationID : option string;
}.

Record AuditRow := {
  ad_OrderID : string;
  ad_Revision : Z;
  ad_Action : Action;
  ad_ActorKind : ActorKind;
  ad_ActorID : option string;
  ad_PreviousStatus : Status;
  ad_ResultingStatus : Status;
  ad_OccurredAt : Time;
  ad_Details : json;
}.

Record FactRow := mkFactRow {
  fr_EventID : string;
  fr_OrderID : string;
  fr_Revision : Z;
  fr_Ordinal : Z;
  fr_Kind : FactKind;
  fr_PayloadVersion : Z;
  fr_Payload : FactsPayload;
  fr_CreatedAt : Time;
  fr_PublishedAt : option Time;
  fr_LeaseToken : option string;
  fr_LeaseUntil : option Time;
}.
#[export] Instance FactRow_eta : Eta FactRow := λ f,
  mkFactRow (fr_EventID f) (fr_OrderID f) (fr_Revision f) (fr_Ordinal f) (fr_Kind f)
    (fr_PayloadVersion f) (fr_Payload f) (fr_CreatedAt f) (fr_PublishedAt f) (fr_LeaseToken f)
    (fr_LeaseUntil f).
#[export] Instance set_fr_PublishedAt : Setter fr_PublishedAt := ltac:(build_setter fr_PublishedAt).
#[export] Instance set_fr_LeaseToken : Setter fr_LeaseToken := ltac:(build_setter fr_LeaseToken).
#[export] Instance set_fr_LeaseUntil : Setter fr_LeaseUntil := ltac:(build_setter fr_LeaseUntil).

Record HistoryRow := {
  hs_OrderID : string;
  hs_CourierID : string;
  hs_AssignedRevision : option Z;
  hs_AssignedAt : option Time;
  hs_EndedRevision : option Z;
  hs_EndedAt : option Time;
  hs_EndReason : option Action;
  hs_IsCurrent : bool;
}.

Record AttemptRow := {
  at_ID : string;
  at_OrderID : string;
  at_OfferID : option string;
  at_CallerID : string;
  at_CourierID : string;
  at_Method : string;
  at_IdempotencyKey : option string;
  at_RequestHash : string;
  at_Amount : Z;
  at_OriginalAmount : Z;
  at_Phase : AssignmentPhase;
  at_Generation : Z;
  at_Attempts : Z;
  at_LeaseUntil : Time;
  at_NextAttemptAt : Time;
  at_Rejection : string;
  at_CreatedAt : Time;
  at_UpdatedAt : Time;
}.

Record CancellationRow := {
  kr_ID : string;
  kr_OrderID : string;
  kr_CallerID : string;
  kr_Reason : string;
  kr_Status : CancellationStatus;
  kr_AssignmentID : option string;
  kr_CourierID : option string;
  kr_AssignedAt : option Time;
  kr_OriginalAmount : Z;
  kr_Generation : Z;
  kr_Attempts : Z;
  kr_LeaseUntil : Time;
  kr_NextAttemptAt : Time;
  kr_CreatedAt : Time;
  kr_UpdatedAt : Time;
}.

Record KeyRow := {
  ky_ResourceID : string;
  ky_RequestHash : string;
  ky_ExpiresAt : Time;
}.

Record WorkflowRow := {
  wf_ID : string;
  wf_OrderID : string;
  wf_RequesterID : string;
  wf_CanonicalVersion : Z;
  wf_CanonicalRequest : json;
  wf_RequestHash : string;
  wf_ReservationAmount : Z;
  wf_ExpiresAt : Time;
  wf_Phase : CreationPhase;
  wf_Generation : Z;
  wf_Attempts : Z;
  wf_LeaseUntil : Time;
  wf_NextAttemptAt : Time;
  wf_LastError : string;
  wf_Rejection : CreationRejection;
  wf_Result : option Order;
  wf_CreatedAt : Time;
  wf_UpdatedAt : Time;
}.

Record ImageRow := {
  im_ID : string;
  im_OwnerID : string;
  im_ObjectKey : string;
  im_ContentType : string;
  im_SizeBytes : Z;
  im_State : ImageState;
  im_OrderID : option string;
  im_Ordinal : option Z;
  im_CreatedAt : Time;
  im_UploadExpiresAt : Time;
}.

Record UploadRow := mkUploadRow {
  up_ID : string;
  up_OrderID : string;
  up_CourierID : string;
  up_UploadID : string;
  up_ObjectKey : string;
  up_ContentType : string;
  up_SizeBytes : Z;
  up_State : ProofState;
  up_Generation : Z;
  up_SigningEpoch : string;
  up_UploadScope : string;
  up_GrantedAt : Time;
  up_ExpiresAt : Time;
  up_CreatedAt : Time;
  up_VerifiedAt : option Time;
  up_CleanupAfter : Time;
}.
#[export] Instance UploadRow_eta : Eta UploadRow := λ u,
  mkUploadRow (up_ID u) (up_OrderID u) (up_CourierID u) (up_UploadID u) (up_ObjectKey u)
    (up_ContentType u) (up_SizeBytes u) (up_State u) (up_Generation u) (up_SigningEpoch u)
    (up_UploadScope u) (up_GrantedAt u) (up_ExpiresAt u) (up_CreatedAt u) (up_VerifiedAt u)
    (up_CleanupAfter u).
#[export] Instance set_up_State : Setter up_State := ltac:(build_setter up_State).
#[export] Instance set_up_Generation : Setter up_Generation := ltac:(build_setter up_Generation).
#[export] Instance set_up_SigningEpoch : Setter up_SigningEpoch := ltac:(build_setter up_SigningEpoch).
#[export] Instance set_up_GrantedAt : Setter up_GrantedAt := ltac:(build_setter up_GrantedAt).
#[export] Instance set_up_ExpiresAt : Setter up_ExpiresAt := ltac:(build_setter up_ExpiresAt).
#[export] Instance set_up_VerifiedAt : Setter up_VerifiedAt := ltac:(build_setter up_VerifiedAt).
#[export] Instance set_up_CleanupAfter : Setter up_CleanupAfter := ltac:(build_setter up_CleanupAfter).

(** The outage column is SQL NULL, JSON null or the struct its JSON encodes. *)
Record ReceiptRow := mkReceiptRow {
  rc_ID : string;
  rc_OrderID : string;
  rc_CourierID : string;
  rc_ProofIDs : list string;
  rc_Unattended : bool;
  rc_WithoutProof : bool;
  rc_ReceivedAt : Time;
  rc_ProcessedAt : option Time;
  rc_NextAttemptAt : Time;
  rc_AttemptCount : Z;
  rc_AlertedAt : option Time;
  rc_State : ReceiptState;
  rc_Outage : option (option ProofOutage);
}.
#[export] Instance ReceiptRow_eta : Eta ReceiptRow := λ r,
  mkReceiptRow (rc_ID r) (rc_OrderID r) (rc_CourierID r) (rc_ProofIDs r) (rc_Unattended r)
    (rc_WithoutProof r) (rc_ReceivedAt r) (rc_ProcessedAt r) (rc_NextAttemptAt r)
    (rc_AttemptCount r) (rc_AlertedAt r) (rc_State r) (rc_Outage r).
#[export] Instance set_rc_ProcessedAt : Setter rc_ProcessedAt := ltac:(build_setter rc_ProcessedAt).
#[export] Instance set_rc_NextAttemptAt : Setter rc_NextAttemptAt :=
  ltac:(build_setter rc_NextAttemptAt).
#[export] Instance set_rc_AttemptCount : Setter rc_AttemptCount := ltac:(build_setter rc_AttemptCount).
#[export] Instance set_rc_AlertedAt : Setter rc_AlertedAt := ltac:(build_setter rc_AlertedAt).
#[export] Instance set_rc_State : Setter rc_State := ltac:(build_setter rc_State).

Record OutageRow := {
  og_EvidenceID : string;
  og_Generation : Z;
  og_ObservedAt : Time;
  og_ValidUntil : Time;
  og_Reason : string;
  og_Active : bool;
}.

Record ODB := mkODB {
  orders : gmap string OrderRow;
  offers : gmap string Offer;
  audit : gmap (string * Z) AuditRow;
  outbox : list FactRow;
  history : list HistoryRow;
  (** In the order of the IDENTITY column [sequence]. *)
  attempts : list AttemptRow;
  cancellations : gmap string CancellationRow;
  idempotency : gmap (string * string * string) KeyRow;
  workflows : list WorkflowRow;
  images : gmap string ImageRow;
  receipts : list ReceiptRow;
  uploads : gmap string UploadRow;
  (** By order, courier and client upload. *)
  fences : gmap (string * string * string) Time;
  (** By order; the payload is kept as the struct its JSON encodes. *)
  confirmations : gmap string ProofConfirmation;
  (** By scope. *)
  outages : gmap string OutageRow;
}.
#[export] Instance ODB_eta : Eta ODB := λ d,
  mkODB (orders d) (offers d) (audit d) (outbox d) (history d) (attempts d) (cancellations d)
    (idempotency d) (workflows d) (images d) (receipts d) (uploads d) (fences d) (confirmations d)
    (outages d).
#[export] Instance set_orders : Setter orders := ltac:(build_setter orders).
#[export] Instance set_offers : Setter offers := ltac:(build_setter offers).
#[export] Instance set_audit : Setter audit := ltac:(build_setter audit).
#[export] Instance set_outbox : Setter outbox := ltac:(build_setter outbox).
#[export] Instance set_history : Setter history := ltac:(build_setter history).
#[export] Instance set_attempts : Setter attempts := ltac:(build_setter attempts).
#[export] Instance set_cancellations : Setter cancellations := ltac:(build_setter cancellations).
#[export] Instance set_idempotency : Setter idempotency := ltac:(build_setter idempotency).
#[export] Instance set_workflows : Setter workflows := ltac:(build_setter workflows).
#[export] Instance set_images : Setter images := ltac:(build_setter images).
#[export] Instance set_receipts : Setter receipts := ltac:(build_setter receipts).
#[export] Instance set_uploads : Setter uploads := ltac:(build_setter uploads).
#[export] Instance set_fences : Setter fences := ltac:(build_setter fences).
#[export] Instance set_confirmations : Setter confirmations := ltac:(build_setter confirmations).
#[export] Instance set_outages : Setter outages := ltac:(build_setter outages).

Definition empty_odb : ODB := mkODB ∅ ∅ ∅ [] [] [] ∅ ∅ [] ∅ [] ∅ ∅ ∅ ∅.

(** ** Statement errors *)

Definition check_violation : Error := Pg "23514".
Definition unique_violation : Error := Pg "23505".
Definition foreign_key_violation : Error := Pg "23503".
Definition invalid_text : Error := Pg "22021".
Definition untranslatable_character : Error := Pg "22P05".

Abbreviation check b := (guard_ok b check_violation).
Abbreviation unique b := (guard_ok b unique_violation).
Abbreviation references b := (guard_ok b foreign_key_violation).

Fixpoint json_no_nul (v : json) : bool :=
  match v with
  | JString s => no_nul s
  | JArray vs =>
      (fix items vs := match vs with
       | [] => true
       | v :: vs' => json_no_nul v && items vs'
       end) vs
  | JObject ms =>
      (fix members ms := match ms with
       | [] => true
       | (k, v) :: ms' => no_nul k && json_no_nul v && members ms'
       end) ms
  | _ => true
  end.

(** ** orders *)

Definition orders_status_check (r : OrderRow) : bool :=
  IsValid (r_Status r)
  && (match r_Status r with
      | AwaitingPickup | Delivering | Delivered | Completed => is_some (r_CourierID r)
      | _ => true
      end)
  && match r_CourierID r with Some c => negb (same c (r_RequesterID r)) | None => true end
  && (negb (is_some (r_PendingCancellationID r)) || same (r_Status r) AwaitingPickup).

Definition orders_values_check (r : OrderRow) : bool :=
  opt_length_le 500 (r_DeliveryInstructions r)
  && within 1 1000 (RuneCountInString (r_ItemDescription r))
  && (0 <? r_RewardCredits r) && (0 <=? r_ReservedCredits r)
  && within 300000000000 86400000000000 (r_DeliveryDurationNs r)
  && opt_length_le 500 (r_CloseReason r)
  && opt_length_le 500 (r_ItemLocation r)
  && match r_ItemLocation r with Some s => 1 <=? RuneCountInString s | None => true end
  && (0 <? r_Revision r) && (r_CreatedAt r <=? r_UpdatedAt r).

Definition orders_text_ok (r : OrderRow) : bool :=
  no_nul (r_ItemDescription r) && opt_text_ok (r_DeliveryInstructions r)
  && opt_text_ok (r_CloseReason r) && opt_text_ok (r_ItemLocation r).

(** What the columns hold of a row: times are rounded to microseconds. *)
Definition stored_order (r : OrderRow) : OrderRow := {|
  r_ID := r_ID r; r_RequesterID := r_RequesterID r; r_CourierID := r_CourierID r;
  r_Status := r_Status r; r_Pickup := r_Pickup r; r_Delivery := r_Delivery r;
  r_DeliveryInstructions := r_DeliveryInstructions r; r_ItemDescription := r_ItemDescription r;
  r_RewardCredits := r_RewardCredits r; r_ReservedCredits := r_ReservedCredits r;
  r_DeliveryDurationNs := r_DeliveryDurationNs r; r_ExpiresAt := stored_time (r_ExpiresAt r);
  r_AssignedAt := stored_times (r_AssignedAt r); r_PickedUpAt := stored_times (r_PickedUpAt r);
  r_DeliveredAt := stored_times (r_DeliveredAt r);
  r_CompletedAt := stored_times (r_CompletedAt r); r_ClosedAt := stored_times (r_ClosedAt r);
  r_CloseReason := r_CloseReason r; r_ItemLocation := r_ItemLocation r;
  r_UnattendedDelivery := r_UnattendedDelivery r; r_Revision := r_Revision r;
  r_CreatedAt := stored_time (r_CreatedAt r); r_UpdatedAt := stored_time (r_UpdatedAt r);
  r_PendingCancellationID := r_PendingCancellationID r |}.

Definition write_order (r : OrderRow) (db : ODB) : result Error ODB :=
  _ ← guard_ok (orders_text_ok r) invalid_text;
  _ ← guard_ok (json_no_nul (r_Pickup r) && json_no_nul (r_Delivery r)) untranslatable_character;
  _ ← check (orders_status_check (stored_order r) && orders_values_check (stored_order r));
  mret (db <| orders := <[r_ID r := stored_order r]> (orders db) |>).

Definition LockOrder (id : string) (db : ODB) : option OrderRow := orders db !! id.

Definition InsertOrder (r : OrderRow) (db : ODB) : result Error ODB :=
  _ ← unique (negb (is_some (orders db !! r_ID r)));
  write_order r db.

(** The row that UpdateOrder writes: it never sets the identifier, the
    requester or the creation time. *)
Definition updated_order (old r : OrderRow) : OrderRow := {|
  r_ID := r_ID old; r_RequesterID := r_RequesterID old; r_CourierID := r_CourierID r;
  r_Status := r_Status r; r_Pickup := r_Pickup r; r_Delivery := r_Delivery r;
  r_DeliveryInstructions := r_DeliveryInstructions r; r_ItemDescription := r_ItemDescription r;
  r_RewardCredits := r_RewardCredits r; r_ReservedCredits := r_ReservedCredits r;
  r_DeliveryDurationNs := r_DeliveryDurationNs r; r_ExpiresAt := r_ExpiresAt r;
  r_AssignedAt := r_AssignedAt r; r_PickedUpAt := r_PickedUpAt r;
  r_DeliveredAt := r_DeliveredAt r; r_CompletedAt := r_CompletedAt r;
  r_ClosedAt := r_ClosedAt r; r_CloseReason := r_CloseReason r;
  r_ItemLocation := r_ItemLocation r; r_UnattendedDelivery := r_UnattendedDelivery r;
  r_Revision := r_Revision r; r_CreatedAt := r_CreatedAt old; r_UpdatedAt := r_UpdatedAt r;
  r_PendingCancellationID := r_PendingCancellationID r |}.

(** UPDATE ... WHERE id AND revision = expected; returns the rows affected. *)
Definition UpdateOrder (r : OrderRow) (expected : Z) (db : ODB) : result Error (ODB * Z) :=
  match orders db !! r_ID r with
  | Some old =>
      if r_Revision old =? expected then
        db ← write_order (updated_order old r) db; mret (db, 1)
      else mret (db, 0)
  | None => mret (db, 0)
  end.

(** ** offers *)

Definition offers_check (f : Offer) : bool :=
  (0 <? f_Credits f) && (f_CreatedAt f <=? f_UpdatedAt f)
  && match f_Status f with OtherOfferStatus _ => false | _ => true end.

(** The partial unique index offers_one_open_per_courier. *)
Definition open_clash (f f' : Offer) : bool :=
  same (f_Status f) OfferOpen && same (f_Status f') OfferOpen
  && same (f_OrderID f) (f_OrderID f') && same (f_CourierID f) (f_CourierID f')
  && negb (same (f_ID f) (f_ID f')).
Definition offers_one_open (f : Offer) (db : ODB) : bool :=
  bool_decide (map_Forall (λ _ f', open_clash f f' = false) (offers db)).

Definition stored_offer (f : Offer) : Offer :=
  mkOffer (f_ID f) (f_OrderID f) (f_CourierID f) (f_Credits f) (f_Status f)
    (stored_time (f_CreatedAt f)) (stored_time (f_UpdatedAt f)).

(** ORDER BY created_at DESC, id DESC. *)
Definition offer_order (f f' : Offer) : Prop :=
  f_CreatedAt f' < f_CreatedAt f
  ∨ (f_CreatedAt f' = f_CreatedAt f ∧ String.leb (f_ID f') (f_ID f) = true).
#[export] Instance offer_order_dec : RelDecision offer_order.
Proof. unfold RelDecision, offer_order. apply _. Defined.

Definition OrderOffers (order : string) (db : ODB) : list Offer :=
  merge_sort offer_order (snd <$> filter (λ kv, f_OrderID kv.2 = order) (map_to_list (offers db))).

Definition InsertOffer (f : Offer) (db : ODB) : result Error ODB :=
  let f := stored_offer f in
  _ ← check (offers_check f);
  _ ← unique (negb (is_some (offers db !! f_ID f)) && offers_one_open f db);
  _ ← references (is_some (orders db !! f_OrderID f));
  mret (db <| offers := <[f_ID f := f]> (offers db) |>).

(** UPDATE ... WHERE id AND order_id AND courier_id AND status = expected. *)
Definition UpdateOffer (f : Offer) (expected : OfferStatus) (db : ODB) : result Error (ODB * Z) :=
  match offers db !! f_ID f with
  | Some old =>
      if decide (f_OrderID old = f_OrderID f ∧ f_CourierID old = f_CourierID f
                 ∧ f_Status old = expected) then
        let f' := mkOffer (f_ID old) (f_OrderID old) (f_CourierID old) (f_Credits f) (f_Status f)
                    (f_CreatedAt old) (stored_time (f_UpdatedAt f)) in
        _ ← check (offers_check f');
        _ ← unique (offers_one_open f' db);
        mret (db <| offers := <[f_ID f := f']> (offers db) |>, 1)
      else mret (db, 0)
  | None => mret (db, 0)
  end.

(** ** order_audit and order_outbox *)

Definition audit_check (a : AuditRow) : bool :=
  (0 <? ad_Revision a) && Nat.leb (String.length (jsonb_text (ad_Details a))) max_details
  && (match ad_ActorKind a with OtherActor _ => false | _ => true end)
  && (same (ad_ActorKind a) System || is_some (ad_ActorID a)).

Definition InsertAudit (a : AuditRow) (db : ODB) : result Error ODB :=
  _ ← guard_ok (json_no_nul (ad_Details a)) untranslatable_character;
  _ ← check (audit_check a);
  _ ← unique (negb (is_some (audit db !! (ad_OrderID a, ad_Revision a))));
  _ ← references (is_some (orders db !! ad_OrderID a));
  mret (db <| audit := <[(ad_OrderID a, ad_Revision a) := a]> (audit db) |>).

(** Primary key, one row per ordinal and per kind of a revision, and the
    partial unique index order_terminal_outcome. *)
Definition fact_clash (f f' : FactRow) : bool :=
  same (fr_EventID f) (fr_EventID f')
  || (same (fr_OrderID f) (fr_OrderID f') && (fr_Revision f =? fr_Revision f')
      && ((fr_Ordinal f =? fr_Ordinal f') || same (fr_Kind f) (fr_Kind f')))
  || (same (fr_OrderID f) (fr_OrderID f') && same (fr_Kind f) Outcome && same (fr_Kind f') Outcome).

Definition InsertFact (f : FactRow) (db : ODB) : result Error ODB :=
  _ ← check ((0 <? fr_Revision f) && (0 <=? fr_Ordinal f) && (0 <? fr_PayloadVersion f));
  _ ← unique (forallb (λ f', negb (fact_clash f f')) (outbox db));
  _ ← references (is_some (orders db !! fr_OrderID f));
  mret (db <| outbox := outbox db ++ [f] |>).

(** ** order_assignment_history *)

Definition history_check (h : HistoryRow) : bool :=
  match hs_EndedRevision h, hs_AssignedRevision h with Some e, Some a => a <? e | _, _ => true end
  && match hs_EndedAt h, hs_AssignedAt h with Some e, Some a => a <=? e | _, _ => true end
  && (negb (hs_IsCurrent h)
      || (negb (is_some (hs_EndedRevision h)) && negb (is_some (hs_EndedAt h))
          && negb (is_some (hs_EndReason h)))).

Definition current_of (order : string) (h : HistoryRow) : bool :=
  same (hs_OrderID h) order && hs_IsCurrent h.

Definition OpenAssignmentHistory (order courier : string) (revision : Z) (at_ : option Time)
    (db : ODB) : result Error ODB :=
  let h := {| hs_OrderID := order; hs_CourierID := courier; hs_AssignedRevision := Some revision;
              hs_AssignedAt := stored_times at_; hs_EndedRevision := None; hs_EndedAt := None;
              hs_EndReason := None; hs_IsCurrent := true |} in
  _ ← check (0 <? revision);
  _ ← unique (forallb (λ h', negb (current_of order h')
       && negb (same (hs_OrderID h') order && same (hs_AssignedRevision h') (Some revision)))
       (history db));
  _ ← references (is_some (orders db !! order));
  mret (db <| history := history db ++ [h] |>).

Definition closed_episode (revision : Z) (at_ : Time) (reason : Action) (h : HistoryRow) : HistoryRow := {|
  hs_OrderID := hs_OrderID h; hs_CourierID := hs_CourierID h;
  hs_AssignedRevision := hs_AssignedRevision h; hs_AssignedAt := hs_AssignedAt h;
  hs_EndedRevision := Some revision; hs_EndedAt := Some (stored_time at_);
  hs_EndReason := Some reason; hs_IsCurrent := false |}.

Definition CloseAssignmentHistory (order courier : string) (revision : Z) (at_ : Time)
    (reason : Action) (db : ODB) : result Error (ODB * Z) :=
  let matching h := current_of order h && same (hs_CourierID h) courier in
  let close h := if matching h then closed_episode revision at_ reason h else h in
  let affected := filter (λ h, matching h = true) (history db) in
  _ ← check (forallb (λ h, history_check (close h)) affected);
  mret (db <| history := close <$> history db |>, Z.of_nat (length affected)).

Definition HasAssignmentHistory (order courier : string) (db : ODB) : bool :=
  existsb (λ h, same (hs_OrderID h) order && same (hs_CourierID h) courier) (history db).

(** ** order_assignment_attempts *)

Definition pending (p : AssignmentPhase) : bool :=
  match p with AdjustmentPending | RevertPending => true | _ => false end.

Definition attempts_check (a : AttemptRow) : bool :=
  (same (at_Method a) AcceptOrderMethod || same (at_Method a) AcceptOfferMethod)
  && (0 <? at_Amount a) && (0 <? at_OriginalAmount a) && (0 <=? at_Generation a)
  && (0 <=? at_Attempts a) && (at_CreatedAt a <=? at_UpdatedAt a)
  && (if decide (at_Method a = AcceptOrderMethod) then
        is_some (at_IdempotencyKey a) && (RuneCountInString (at_RequestHash a) =? 64)
      else negb (is_some (at_IdempotencyKey a)) && negb (nonempty (at_RequestHash a)))
  && (is_some (at_OfferID a) || same (at_Phase a) AssignmentRejected).

(** Primary key, order_assignment_active and order_assignment_retry. *)
Definition attempt_clash (a b : AttemptRow) : bool :=
  same (at_ID a) (at_ID b)
  || (same (at_OrderID a) (at_OrderID b) && pending (at_Phase a) && pending (at_Phase b))
  || (same (at_CallerID a) (at_CallerID b) && same (at_Method a) (at_Method b)
      && is_some (at_IdempotencyKey a) && same (at_IdempotencyKey a) (at_IdempotencyKey b)).

Definition stored_attempt (a : AttemptRow) : AttemptRow := {|
  at_ID := at_ID a; at_OrderID := at_OrderID a; at_OfferID := at_OfferID a;
  at_CallerID := at_CallerID a; at_CourierID := at_CourierID a; at_Method := at_Method a;
  at_IdempotencyKey := at_IdempotencyKey a; at_RequestHash := at_RequestHash a;
  at_Amount := at_Amount a; at_OriginalAmount := at_OriginalAmount a; at_Phase := at_Phase a;
  at_Generation := at_Generation a; at_Attempts := at_Attempts a;
  at_LeaseUntil := stored_time (at_LeaseUntil a);
  at_NextAttemptAt := stored_time (at_NextAttemptAt a); at_Rejection := at_Rejection a;
  at_CreatedAt := stored_time (at_CreatedAt a); at_UpdatedAt := stored_time (at_UpdatedAt a) |}.

Definition GetAssignmentAttempt (id : string) (db : ODB) : option AttemptRow :=
  find_first (λ a, same (at_ID a) id) (attempts db).

Definition ActiveAssignmentAttempt (order : string) (db : ODB) : option AttemptRow :=
  find_first (λ a, same (at_OrderID a) order && pending (at_Phase a)) (attempts db).

Definition LatestOfferAssignment (offer : string) (db : ODB) : option AttemptRow :=
  find_last (λ a, same (at_OfferID a) (Some offer)) (attempts db).

Definition AssignmentOfferOrder (offer : string) (db : ODB) : option string :=
  f_OrderID <$> offers db !! offer.

Definition HasRejectedAcceptance (order caller : string) (db : ODB) : bool :=
  existsb (λ a, same (at_OrderID a) order && same (at_CallerID a) caller
    && same (at_Method a) AcceptOrderMethod && same (at_Phase a) AssignmentRejected
    && negb (is_some (at_OfferID a))) (attempts db).

Definition InsertAssignmentAttempt (a : AttemptRow) (db : ODB) : result Error ODB :=
  let a := stored_attempt a in
  _ ← check (attempts_check a);
  _ ← unique (forallb (λ b, negb (attempt_clash a b)) (attempts db));
  _ ← references (is_some (orders db !! at_OrderID a));
  mret (db <| attempts := attempts db ++ [a] |>).

(** The columns UpdateAssignmentAttempt sets, from [a]. *)
Definition updated_attempt (old a : AttemptRow) : AttemptRow := {|
  at_ID := at_ID old; at_OrderID := at_OrderID old; at_OfferID := at_OfferID old;
  at_CallerID := at_CallerID old; at_CourierID := at_CourierID old; at_Method := at_Method old;
  at_IdempotencyKey := at_IdempotencyKey old; at_RequestHash := at_RequestHash old;
  at_Amount := at_Amount old; at_OriginalAmount := at_OriginalAmount old; at_Phase := at_Phase a;
  at_Generation := at_Generation a; at_Attempts := at_Attempts a;
  at_LeaseUntil := at_LeaseUntil a; at_NextAttemptAt := at_NextAttemptAt a;
  at_Rejection := at_Rejection a; at_CreatedAt := at_CreatedAt old;
  at_UpdatedAt := at_UpdatedAt a |}.

(** UPDATE ... WHERE id AND generation = expected AND the phase is pending. *)
Definition UpdateAssignmentAttempt (a : AttemptRow) (expected : Z) (db : ODB)
    : result Error (ODB * Z) :=
  let matching b := same (at_ID b) (at_ID a) && (at_Generation b =? expected) && pending (at_Phase b) in
  let set b := if matching b then stored_attempt (updated_attempt b a) else b in
  let affected := filter (λ b, matching b = true) (attempts db) in
  _ ← check (forallb (λ b, attempts_check (set b)) affected);
  mret (db <| attempts := set <$> attempts db |>, Z.of_nat (length affected)).

(** ORDER BY next_attempt_at, id. *)
Definition due_order (x y : Time * string) : Prop :=
  x.1 < y.1 ∨ (x.1 = y.1 ∧ String.leb x.2 y.2 = true).
#[export] Instance due_order_dec : RelDecision due_order.
Proof. unfold RelDecision, due_order. apply _. Defined.

Definition attempt_due (db : ODB) (now : Time) (a : AttemptRow) : bool :=
  match orders db !! at_OrderID a with
  | Some o =>
      pending (at_Phase a) && (at_LeaseUntil a <=? now)
      && ((at_NextAttemptAt a <=? now)
          || (same (at_Phase a) AdjustmentPending
              && (negb (same (r_Status o) AwaitingCourier) || (r_ExpiresAt o <=? now))))
  | None => false
  end.

Definition DueAssignmentAttempts (now : Time) (limit : Z) (db : ODB) : list string :=
  take (Z.to_nat limit) (snd <$> merge_sort due_order
    ((λ a, (at_NextAttemptAt a, at_ID a)) <$> filter (λ a, attempt_due db now a = true) (attempts db))).

(** a.updated_at = o.assigned_at holds of no NULL. *)
Definition CurrentSuccessfulAssignment (order : string) (db : ODB) : option AttemptRow :=
  match orders db !! order with
  | Some o =>
      find_last (λ a, same (at_OrderID a) order && same (at_Phase a) AssignmentSucceeded
                  && same (Some (at_CourierID a)) (r_CourierID o)
                  && same (Some (at_UpdatedAt a)) (r_AssignedAt o)) (attempts db)
  | None => None
  end.

(** ** order_cancellations *)

Definition cancellations_check (k : CancellationRow) : bool :=
  (RuneCountInString (kr_Reason k) <=? 500) && (0 <=? kr_OriginalAmount k)
  && (0 <=? kr_Generation k) && (0 <=? kr_Attempts k) && (kr_CreatedAt k <=? kr_UpdatedAt k).

Definition stored_cancellation (k : CancellationRow) : CancellationRow := {|
  kr_ID := kr_ID k; kr_OrderID := kr_OrderID k; kr_CallerID := kr_CallerID k;
  kr_Reason := kr_Reason k; kr_Status := kr_Status k; kr_AssignmentID := kr_AssignmentID k;
  kr_CourierID := kr_CourierID k; kr_AssignedAt := stored_times (kr_AssignedAt k);
  kr_OriginalAmount := kr_OriginalAmount k; kr_Generation := kr_Generation k;
  kr_Attempts := kr_Attempts k; kr_LeaseUntil := stored_time (kr_LeaseUntil k);
  kr_NextAttemptAt := stored_time (kr_NextAttemptAt k);
  kr_CreatedAt := stored_time (kr_CreatedAt k); kr_UpdatedAt := stored_time (kr_UpdatedAt k) |}.

(** The partial unique index order_cancellation_pending. *)
Definition cancellation_clash (k k' : CancellationRow) : bool :=
  same (kr_OrderID k) (kr_OrderID k') && same (kr_Status k) CancellationPending
  && same (kr_Status k') CancellationPending.

Definition GetCancellation (id : string) (db : ODB) : option CancellationRow :=
  cancellations db !! id.

Definition InsertCancellation (k : CancellationRow) (db : ODB) : result Error ODB :=
  let k := stored_cancellation k in
  _ ← guard_ok (no_nul (kr_Reason k)) invalid_text;
  _ ← check (cancellations_check k);
  _ ← unique (negb (is_some (cancellations db !! kr_ID k))
      && bool_decide (map_Forall (λ _ k', cancellation_clash k k' = false) (cancellations db)));
  _ ← references (is_some (orders db !! kr_OrderID k)
      && match kr_AssignmentID k with
         | Some a => is_some (GetAssignmentAttempt a db)
         | None => true
         end);
  mret (db <| cancellations := <[kr_ID k := k]> (cancellations db) |>).

Definition updated_cancellation (old k : CancellationRow) : CancellationRow := {|
  kr_ID := kr_ID old; kr_OrderID := kr_OrderID old; kr_CallerID := kr_CallerID old;
  kr_Reason := kr_Reason old; kr_Status := kr_Status k; kr_AssignmentID := kr_AssignmentID old;
  kr_CourierID := kr_CourierID old; kr_AssignedAt := kr_AssignedAt old;
  kr_OriginalAmount := kr_OriginalAmount old; kr_Generation := kr_Generation k;
  kr_Attempts := kr_Attempts k; kr_LeaseUntil := kr_LeaseUntil k;
  kr_NextAttemptAt := kr_NextAttemptAt k; kr_CreatedAt := kr_CreatedAt old;
  kr_UpdatedAt := kr_UpdatedAt k |}.

(** UPDATE ... WHERE id AND generation = expected AND status = 'pending'. *)
Definition UpdateCancellation (k : CancellationRow) (expected : Z) (db : ODB)
    : result Error (ODB * Z) :=
  match cancellations db !! kr_ID k with
  | Some old =>
      if (kr_Generation old =? expected) && same (kr_Status old) CancellationPending then
        let row := stored_cancellation (updated_cancellation old k) in
        _ ← check (cancellations_check row);
        mret (db <| cancellations := <[kr_ID k := row]> (cancellations db) |>, 1)
      else mret (db, 0)
  | None => mret (db, 0)
  end.

Definition DueCancellations (now : Time) (limit : Z) (db : ODB) : list string :=
  take (Z.to_nat limit) (snd <$> merge_sort due_order
    ((λ k, (kr_NextAttemptAt k, kr_ID k)) <$>
      filter (λ k, kr_Status k = CancellationPending ∧ kr_LeaseUntil k ≤ now ∧ kr_NextAttemptAt k ≤ now)
        (snd <$> map_to_list (cancellations db)))).

(** ** order_idempotency_keys *)

Definition key_id (caller method key : string) : string * string * string := (caller, method, key).

Definition GetOrderIdempotencyKey (caller method key : string) (db : ODB) : option KeyRow :=
  idempotency db !! key_id caller method key.

Definition InsertOrderIdempotencyKey (caller method key : string) (row : KeyRow) (db : ODB)
    : result Error ODB :=
  _ ← check (RuneCountInString (ky_RequestHash row) =? 64);
  _ ← unique (negb (is_some (idempotency db !! key_id caller method key)));
  mret (db <| idempotency := <[key_id caller method key :=
    {| ky_ResourceID := ky_ResourceID row; ky_RequestHash := ky_RequestHash row;
       ky_ExpiresAt := stored_time (ky_ExpiresAt row) |}]> (idempotency db) |>).

Definition DeleteOrderIdempotencyKey (caller method key : string) (db : ODB) : result Error ODB :=
  mret (db <| idempotency := delete (key_id caller method key) (idempotency db) |>).

(** ** Timers (expirytimers.sql, deliverytimers.sql, proofs.sql) *)

Definition id_le (x y : string) : Prop := String.leb x y = true.
#[export] Instance id_le_dec : RelDecision id_le.
Proof. unfold RelDecision, id_le. apply _. Defined.

Definition page_of_ids (after : string) (limit : Z) (p : OrderRow → bool) (db : ODB) : list string :=
  take (Z.to_nat limit) (merge_sort id_le
    (fst <$> filter (λ kv, p kv.2 = true ∧ String.ltb after kv.1 = true) (map_to_list (orders db)))).

Definition DueExpiryTimers (now : Time) (after : string) (limit : Z) (db : ODB) : list string :=
  page_of_ids after limit
    (λ o, same (r_Status o) AwaitingCourier && (r_ExpiresAt o <=? now)) db.

(** The comparison is exact: numeric nanoseconds of microsecond times. *)
Definition DueDeliveryTimers (now : Time) (after : string) (limit : Z) (db : ODB) : list string :=
  page_of_ids after limit
    (λ o, same (r_Status o) Delivering
          && match r_PickedUpAt o with
             | Some p => r_DeliveryDurationNs o * 2 <=? stored_time now - p
             | None => false
             end) db.

(** picked_up_at + ((delivery_duration_ns * 2 + 999) / 1000) * interval '1 microsecond';
    the division of a positive BIGINT. *)
Definition delivery_deadline (o : OrderRow) (picked_up : Time) : Time :=
  picked_up + ((r_DeliveryDurationNs o * 2 + 999) / 1000) * Microsecond.

(** A listed proof that still stands as verified evidence of the receipt. *)
Definition evidence_stands (db : ODB) (rc : ReceiptRow) (id : string) : bool :=
  match uploads db !! id with
  | Some u => same (up_OrderID u) (rc_OrderID rc) && same (up_CourierID u) (rc_CourierID rc)
              && same (up_State u) ProofUploading
              && match up_VerifiedAt u with Some v => v <=? rc_ReceivedAt rc | None => false end
  | None => false
  end.

Definition receipt_pending (db : ODB) (o : OrderRow) (rc : ReceiptRow) : bool :=
  same (rc_State rc) ReceiptPending && same (r_Status o) Delivering
  && same (r_CourierID o) (Some (rc_CourierID rc))
  && match r_PickedUpAt o with Some p => rc_ReceivedAt rc <? delivery_deadline o p | None => false end
  && ((rc_WithoutProof rc && is_some (rc_Outage rc))
      || (negb (rc_WithoutProof rc) && forallb (evidence_stands db rc) (rc_ProofIDs rc))).

Definition HasPendingDelivery (order : string) (db : ODB) : bool :=
  match orders db !! order with
  | Some o => existsb (λ rc, same (rc_OrderID rc) order && receipt_pending db o rc) (receipts db)
  | None => false
  end.

(** ** Constraints checked at commit

    The foreign keys declared DEFERRABLE INITIALLY DEFERRED: an attempt's
    offer, and the pending cancellation of an order. *)
Definition pending_known (db : ODB) (id : string) (o : OrderRow) : bool :=
  match r_PendingCancellationID o with
  | Some k => match cancellations db !! k with
              | Some row => same (kr_OrderID row) id
              | None => false
              end
  | None => true
  end.

Definition deferred_ok (db : ODB) : bool :=
  forallb (λ a, match at_OfferID a with
                | Some f => is_some (offers db !! f)
                | None => true
                end) (attempts db)
  && bool_decide (map_Forall (λ id o, pending_known db id o = true) (orders db)).
