(* ===== verification/OrderStore.v ===== *)
(** * Order: the transaction

    postgres.go, postgresconversion.go, postgresassignmenthistory.go,
    postgresassignment.go, postgrescancellation.go, postgresidempotency.go and
    mutation.go: one database transaction as the callbacks see it. A failing
    call leaves the session as it is, so that what was remembered of it (the
    poison of a failed write) still decides the commit. *)
From stdpp Require Import prelude gmap strings list.
From Stdlib Require Import ZArith.
From S2P Require Import Prelude.
From S2P Require Import GoLib.
From S2P Require Import GoText.
From S2P Require Import OrderTypes.
From S2P Require Import OrderPolicy.
From S2P Require Import OrderDB.

Local Open Scope Z_scope.
Local Open Scope foc_scope.

(** ** The session

    The struct postgresTx with its assignment and cancellation wrappers, and
    the state of the database transaction: its working copy of the tables and
    whether a failed statement has aborted it. *)
Record Session := mkSession {
  db : ODB;
  aborted : bool;
  locked : gmap string Order;
  related : gset string;
  applied : gset string;
  failed : option Error;
  idempotencyCallers : list IdempotencyScope;
  baselines : gmap string AssignmentAttempt;
  written : gmap string AssignmentAttempt;
  cancelled : gmap string Cancellation;
  changed : gset string;
  creationBaselines : gmap string CreationWorkflow;
}.
#[export] Instance Session_eta : Eta Session := λ s,
  mkSession (db s) (aborted s) (locked s) (related s) (applied s) (failed s)
    (idempotencyCallers s) (baselines s) (written s) (cancelled s) (changed s)
    (creationBaselines s).
#[export] Instance set_db : Setter db := ltac:(build_setter db).
#[export] Instance set_aborted : Setter aborted := ltac:(build_setter aborted).
#[export] Instance set_locked : Setter locked := ltac:(build_setter locked).
#[export] Instance set_related : Setter related := ltac:(build_setter related).
#[export] Instance set_applied : Setter applied := ltac:(build_setter applied).
#[export] Instance set_failed : Setter failed := ltac:(build_setter failed).
#[export] Instance set_idempotencyCallers : Setter idempotencyCallers :=
  ltac:(build_setter idempotencyCallers).
#[export] Instance set_baselines : Setter baselines := ltac:(build_setter baselines).
#[export] Instance set_written : Setter written := ltac:(build_setter written).
#[export] Instance set_cancelled : Setter cancelled := ltac:(build_setter cancelled).
#[export] Instance set_changed : Setter changed := ltac:(build_setter changed).
#[export] Instance set_creationBaselines : Setter creationBaselines :=
  ltac:(build_setter creationBaselines).

(** What a call reads from its surroundings: its clock, the identifiers it
    draws, the database server's clock, and the jitter that it draws for a base
    delay, which is between 0 and a quarter of it. *)
Record Env := {
  now_ : Time;
  newID : nat → string;
  server_time : Time;
  jitter : Duration → Duration;
}.

(** Computations of a transaction: failures carry the session. *)
Definition TX (A : Type) : Type := ST (Error * Session) Env Session A.

Definition fail {A} (e : Error) : TX A := λ _ s, Err (e, s).
Definition ensure_tx (b : bool) (e : Error) : TX unit := if b then mret tt else fail e.
Definition lift {A} (r : result Error A) : TX A :=
  match r with Ok a => mret a | Err e => fail e end.

(** [catch m h] runs [h] on the error of [m], from the session [m] left. *)
Definition catch {A} (m : TX A) (h : Error → TX A) : TX A := λ env s,
  match m env s with
  | Ok out => Ok out
  | Err (e, s') => h e env s'
  end.

(** A statement fails once an earlier one has aborted the transaction. *)
Definition in_failed_transaction : Error := Pg "25P02".

Definition query {A} (f : ODB → A) : TX A := λ _ s,
  if aborted s then Err (in_failed_transaction, s) else Ok (f (db s), s).

Definition exec {A} (f : ODB → result Error (ODB * A)) : TX A := λ _ s,
  if aborted s then Err (in_failed_transaction, s)
  else match f (db s) with
       | Ok (db', a) => Ok (a, s <| db := db' |>)
       | Err e => Err (e, s <| aborted := true |>)
       end.

Definition exec_unit (f : ODB → result Error ODB) : TX unit :=
  exec (λ d, d' ← f d; mret (d', tt)).

(** persistenceError: a unique violation is a conflict. *)
Definition persistenceError (e : Error) : Error :=
  if decide (e = unique_violation) then ErrConflict else e.
Definition persisted {A} (m : TX A) : TX A := catch m (λ e, fail (persistenceError e)).

(** writeResult poisons the shared transaction after a failed write. *)
Definition poison {A} (e : Error) : TX A := λ _ s, Err (e, s <| failed := Some e |>).
Definition writeResult {A} (m : TX A) : TX A := catch m (λ e, poison (persistenceError e)).
Definition refuse {A} (e : Error) : TX A := writeResult (fail e).

(** ** Conversion (postgresconversion.go) *)

Section conversion.
  Context `{UUID}.

Definition parse_opt (o : option string) : result Error (option string) :=
  match o with
  | Some id => v ← parseID id; mret (Some v)
  | None => mret None
  end.

(** The JSON of a LocationSnapshot: floor is omitted when unset. *)
Definition marshal_snapshot (l : LocationSnapshot) : json := JObject (
  [("location_id", JString (LocationID l)); ("name", JString (Name l));
   ("building_name", JString (BuildingName l))]
  ++ match Floor l with Some fl => [("floor", JString fl)] | None => [] end).

Fixpoint member (k : string) (ms : list (string * json)) : option json :=
  match ms with
  | [] => None
  | (k', v) :: ms' => if decide (k = k') then Some v else member k ms'
  end.

(** A missing or null member leaves the zero value; another kind fails. *)
Definition string_member (k : string) (ms : list (string * json)) : result Error (option string) :=
  match member k ms with
  | None | Some JNull => mret None
  | Some (JString s) => mret (Some s)
  | Some _ => Err ErrMarshal
  end.
Definition or_empty (o : option string) : string := match o with Some s => s | None => EmptyString end.

Definition unmarshal_snapshot (v : json) : result Error LocationSnapshot :=
  match v with
  | JObject ms =>
      id ← string_member "location_id" ms;
      name ← string_member "name" ms;
      building ← string_member "building_name" ms;
      floor ← string_member "floor" ms;
      mret {| LocationID := or_empty id; Name := or_empty name; BuildingName := or_empty building;
              Floor := floor |}
  | JNull => mret {| LocationID := EmptyString; Name := EmptyString; BuildingName := EmptyString;
                     Floor := None |}
  | _ => Err ErrMarshal
  end.

Definition with_location_id (l : LocationSnapshot) (id : string) : LocationSnapshot :=
  {| LocationID := id; Name := Name l; BuildingName := BuildingName l; Floor := Floor l |}.

Definition toOrder (o : Order) : result Error OrderRow :=
  id ← parseID (o_ID o);
  requester ← parseID (o_RequesterID o);
  courier ← parse_opt (o_CourierID o);
  pendingCancellation ← parse_opt (o_PendingCancellationID o);
  pickupID ← parseID (LocationID (o_Pickup o));
  deliveryID ← parseID (LocationID (o_Delivery o));
  _ ← guard_ok (negb (same pickupID deliveryID)) ErrInvalid;
  mret {|
    r_ID := id; r_RequesterID := requester; r_CourierID := courier; r_Status := o_Status o;
    r_Pickup := marshal_snapshot (with_location_id (o_Pickup o) pickupID);
    r_Delivery := marshal_snapshot (with_location_id (o_Delivery o) deliveryID);
    r_DeliveryInstructions := o_DeliveryInstructions o; r_ItemDescription := o_ItemDescription o;
    r_RewardCredits := o_RewardCredits o; r_ReservedCredits := o_ReservedCredits o;
    r_DeliveryDurationNs := o_DeliveryDuration o; r_ExpiresAt := o_ExpiresAt o;
    r_AssignedAt := o_AssignedAt o; r_PickedUpAt := o_PickedUpAt o;
    r_DeliveredAt := o_DeliveredAt o; r_CompletedAt := o_CompletedAt o; r_ClosedAt := o_ClosedAt o;
    r_CloseReason := o_CloseReason o; r_ItemLocation := o_ItemLocation o;
    r_UnattendedDelivery := o_UnattendedDelivery o; r_Revision := o_Revision o;
    r_CreatedAt := o_CreatedAt o; r_UpdatedAt := o_UpdatedAt o;
    r_PendingCancellationID := pendingCancellation |}.

Definition fromOrder (row : OrderRow) : result Error Order :=
  pickup ← unmarshal_snapshot (r_Pickup row);
  delivery ← unmarshal_snapshot (r_Delivery row);
  mret {|
    o_PendingCancellationID := r_PendingCancellationID row; o_ID := r_ID row;
    o_RequesterID := r_RequesterID row; o_CourierID := r_CourierID row; o_Status := r_Status row;
    o_Pickup := pickup; o_Delivery := delivery;
    o_DeliveryInstructions := r_DeliveryInstructions row;
    o_ItemDescription := r_ItemDescription row; o_RewardCredits := r_RewardCredits row;
    o_ReservedCredits := r_ReservedCredits row; o_DeliveryDuration := r_DeliveryDurationNs row;
    o_ExpiresAt := r_ExpiresAt row; o_AssignedAt := r_AssignedAt row;
    o_PickedUpAt := r_PickedUpAt row; o_DeliveredAt := r_DeliveredAt row;
    o_CompletedAt := r_CompletedAt row; o_ClosedAt := r_ClosedAt row;
    o_CloseReason := r_CloseReason row; o_ItemLocation := r_ItemLocation row;
    o_UnattendedDelivery := r_UnattendedDelivery row; o_Revision := r_Revision row;
    o_CreatedAt := r_CreatedAt row; o_UpdatedAt := r_UpdatedAt row |}.

(** ** The aggregate (postgres.go) *)

Definition tx_LockOrder (id : string) : TX Order :=
  uid ← lift (parseID id);
  row ← query (LockOrder uid);
  row ← lift (from_option_ok row ErrNotFound);
  o ← lift (fromOrder row);
  _ ← modify (λ s, s <| locked := <[o_ID o := o]> (locked s) |>);
  mret o.

Definition is_locked (id : string) : TX bool := gets (λ s, is_some (locked s !! id)).
Definition is_related (id : string) : TX bool := gets (λ s, bool_decide (id ∈ related s)).

(** Locked, with its offers read in a later statement. *)
Definition require_aggregate (id : string) : TX unit :=
  l ← is_locked id;
  r ← is_related id;
  ensure_tx (l && r) ErrPrecondition.

Definition tx_Relationships (id : string) : TX (list Offer) :=
  uid ← lift (parseID id);
  l ← is_locked uid;
  _ ← ensure_tx l ErrPrecondition;
  rows ← persisted (query (OrderOffers uid));
  _ ← modify (λ s, s <| related := {[uid]} ∪ related s |>);
  mret rows.

(** applyAssignmentHistory: no writer can commit an assignment without its
    episode. *)
Definition applyAssignmentHistory (before : option Order) (c : Change) : TX unit :=
  let previous := or_empty (before ≫= o_CourierID) in
  let next := or_empty (o_CourierID (c_Order c)) in
  if decide (previous = next) then mret tt
  else
    orderID ← lift (parseID (o_ID (c_Order c)));
    _ ← (if nonempty previous then
           courierID ← lift (parseID previous);
           n ← persisted (exec (CloseAssignmentHistory orderID courierID (o_Revision (c_Order c))
                                  (au_At (c_Audit c)) (c_Action c)));
           ensure_tx (n =? 1) ErrConflict
         else mret tt);
    if nonempty next then
      _ ← ensure_tx (is_some (o_AssignedAt (c_Order c))) ErrInvalid;
      courierID ← lift (parseID next);
      persisted (exec_unit (OpenAssignmentHistory orderID courierID (o_Revision (c_Order c))
                              (o_AssignedAt (c_Order c))))
    else mret tt.

Definition with_ids (f : Offer) (id order courier : string) : Offer :=
  mkOffer id order courier (f_Credits f) (f_Status f) (f_CreatedAt f) (f_UpdatedAt f).

(** Each offer of the change, against its expected status. *)
Fixpoint apply_offers (o : Order) (orderID : string) (updates : list OfferChange) : TX unit :=
  match updates with
  | [] => mret tt
  | u :: rest =>
      let f := oc_Offer u in
      _ ← ensure_tx (same (f_OrderID f) (o_ID o)) ErrInvalid;
      fid ← lift (parseID (f_ID f));
      courier ← lift (parseID (f_CourierID f));
      let f := with_ids f fid orderID courier in
      _ ← (if decide (oc_ExpectedStatus u = NoOfferStatus) then
             persisted (exec_unit (InsertOffer f))
           else
             n ← persisted (exec (UpdateOffer f (oc_ExpectedStatus u)));
             ensure_tx (n =? 1) ErrConflict);
      apply_offers o orderID rest
  end.

Fixpoint apply_facts (orderID : string) (revision : Z) (at_ : Time) (i : Z) (facts : list Fact)
    : TX unit :=
  match facts with
  | [] => mret tt
  | f :: rest =>
      fid ← lift (parseID (fc_ID f));
      _ ← persisted (exec_unit (InsertFact {|
            fr_EventID := fid; fr_OrderID := orderID; fr_Revision := revision; fr_Ordinal := i;
            fr_Kind := fc_Kind f; fr_PayloadVersion := fc_Version f; fr_Payload := fc_Payload f;
            fr_CreatedAt := stored_time at_; fr_PublishedAt := None; fr_LeaseToken := None;
            fr_LeaseUntil := None |}));
      apply_facts orderID revision at_ (i + 1) rest
  end.

(** Apply, before its deferred poisoning. *)
Definition apply_body (c : Change) : TX unit :=
  let o := c_Order c in
  s ← get;
  _ ← (match failed s with Some e => fail e | None => mret tt end);
  _ ← ensure_tx (bool_decide (o_ID o ∉ applied s)) ErrConflict;
  before ← (if decide (c_ExpectedRevision c = 0) then mret None
            else match locked s !! o_ID o with
                 | Some current =>
                     _ ← ensure_tx (bool_decide (o_ID o ∈ related s)) ErrPrecondition;
                     _ ← ensure_tx (o_Revision current =? c_ExpectedRevision c) ErrConflict;
                     mret (Some current)
                 | None => fail ErrPrecondition
                 end);
  _ ← lift (validateChange before c);
  row ← lift (toOrder o);
  _ ← (if decide (c_ExpectedRevision c = 0) then persisted (exec_unit (InsertOrder row))
       else n ← persisted (exec (UpdateOrder row (c_ExpectedRevision c)));
            ensure_tx (n =? 1) ErrConflict);
  _ ← applyAssignmentHistory before c;
  _ ← apply_offers o (r_ID row) (c_Offers c);
  actorID ← (if nonempty (a_ID (c_Actor c)) then
               v ← lift (parseID (a_ID (c_Actor c))); mret (Some v)
             else mret None);
  _ ← persisted (exec_unit (InsertAudit {|
        ad_OrderID := r_ID row; ad_Revision := o_Revision o; ad_Action := c_Action c;
        ad_ActorKind := a_Kind (c_Actor c); ad_ActorID := actorID;
        ad_PreviousStatus := au_PreviousStatus (c_Audit c); ad_ResultingStatus := o_Status o;
        ad_OccurredAt := stored_time (au_At (c_Audit c)); ad_Details := au_Details (c_Audit c) |}));
  _ ← apply_facts (r_ID row) (o_Revision o) (au_At (c_Audit c)) 0 (c_Facts c);
  modify (λ s, s <| applied := {[o_ID o]} ∪ applied s |>).

Definition Apply (c : Change) : TX unit := catch (apply_body c) poison.

(** ** Idempotency keys (postgresidempotency.go) *)

Definition canonicalIdempotencyScope (scope : IdempotencyScope) : result Error IdempotencyScope :=
  match parseID (CallerID scope) with
  | Ok caller =>
      if nonempty (TrimSpace (Method scope)) then Ok {| CallerID := caller; Method := Method scope |}
      else Err ErrInvalid
  | Err _ => Err ErrInvalid
  end.

(** The advisory lock is held until the transaction ends; transactions are
    atomic steps here, so only its bookkeeping remains. *)
Definition LockIdempotencyCaller (scope : IdempotencyScope) : TX unit :=
  scope ← lift (canonicalIdempotencyScope scope);
  _ ← writeResult (query (λ _, tt));
  modify (λ s, s <| idempotencyCallers := scope :: idempotencyCallers s |>).

Definition caller_locked (scope : IdempotencyScope) : TX bool :=
  gets (λ s, bool_decide (scope ∈ idempotencyCallers s)).

Definition FindIdempotencyKey (scope : IdempotencyScope) (key : string) : TX (option IdempotencyKey) :=
  scope ← lift (canonicalIdempotencyScope scope);
  id ← lift (parseID key);
  held ← caller_locked scope;
  _ ← ensure_tx held ErrPrecondition;
  row ← query (GetOrderIdempotencyKey (CallerID scope) (Method scope) id);
  mret ((λ row, {| ik_Scope := scope; ik_Key := id; ik_ResourceID := ky_ResourceID row;
                   ik_RequestHash := ky_RequestHash row; ik_ExpiresAt := ky_ExpiresAt row |}) <$> row).

Definition InsertIdempotencyKey (key : IdempotencyKey) : TX unit :=
  scope ← writeResult (lift (canonicalIdempotencyScope (ik_Scope key)));
  id ← writeResult (lift (parseID (ik_Key key)));
  resource ← writeResult (lift (parseID (ik_ResourceID key)));
  held ← caller_locked scope;
  if negb held || negb (Nat.eqb (String.length (ik_RequestHash key)) 64) then refuse ErrPrecondition
  else writeResult (exec_unit (InsertOrderIdempotencyKey (CallerID scope) (Method scope) id
         {| ky_ResourceID := resource; ky_RequestHash := ik_RequestHash key;
            ky_ExpiresAt := ik_ExpiresAt key |})).

Definition DeleteIdempotencyKey (scope : IdempotencyScope) (key : string) : TX unit :=
  scope ← writeResult (lift (canonicalIdempotencyScope scope));
  id ← writeResult (lift (parseID key));
  held ← caller_locked scope;
  if negb held then refuse ErrPrecondition
  else writeResult (exec_unit (DeleteOrderIdempotencyKey (CallerID scope) (Method scope) id)).

(** ** Assignment attempts (postgresassignment.go) *)

Definition fromAssignment (row : AttemptRow) : AssignmentAttempt := {|
  w_ID := at_ID row; w_OrderID := at_OrderID row; w_OfferID := or_empty (at_OfferID row);
  w_CallerID := at_CallerID row; w_CourierID := at_CourierID row; w_Method := at_Method row;
  w_Key := or_empty (at_IdempotencyKey row); w_RequestHash := at_RequestHash row;
  w_Amount := at_Amount row; w_OriginalAmount := at_OriginalAmount row; w_Phase := at_Phase row;
  w_Generation := at_Generation row; w_Attempts := at_Attempts row;
  w_LeaseUntil := at_LeaseUntil row; w_NextAttemptAt := at_NextAttemptAt row;
  w_Rejection := at_Rejection row; w_CreatedAt := at_CreatedAt row; w_UpdatedAt := at_UpdatedAt row |}.

(** remember keeps the first reading of an attempt as its baseline. *)
Definition remember (row : AttemptRow) : TX AssignmentAttempt :=
  let w := fromAssignment row in
  _ ← require_aggregate (w_OrderID w);
  _ ← modify (λ s, if is_some (baselines s !! w_ID w) then s
                   else s <| baselines := <[w_ID w := w]> (baselines s) |>);
  mret w.

Definition remember_opt (row : option AttemptRow) : TX (option AssignmentAttempt) :=
  match row with
  | Some row => w ← remember row; mret (Some w)
  | None => mret None
  end.

Definition tx_HasRejectedAcceptance (orderID callerID : string) : TX bool :=
  _ ← require_aggregate orderID;
  query (HasRejectedAcceptance orderID callerID).

Definition FindAssignment (attemptID : string) : TX AssignmentAttempt :=
  id ← lift (parseID attemptID);
  row ← query (GetAssignmentAttempt id);
  row ← lift (from_option_ok row ErrNotFound);
  remember row.

Definition ActiveAssignment (orderID : string) : TX (option AssignmentAttempt) :=
  id ← lift (parseID orderID);
  _ ← require_aggregate id;
  row ← query (ActiveAssignmentAttempt id);
  remember_opt row.

Definition OfferAssignment (offerID : string) : TX (option AssignmentAttempt) :=
  id ← lift (parseID offerID);
  row ← query (LatestOfferAssignment id);
  remember_opt row.

Definition attempt_row (w : AssignmentAttempt) (offer key : option string) : AttemptRow := {|
  at_ID := w_ID w; at_OrderID := w_OrderID w; at_OfferID := offer; at_CallerID := w_CallerID w;
  at_CourierID := w_CourierID w; at_Method := w_Method w; at_IdempotencyKey := key;
  at_RequestHash := w_RequestHash w; at_Amount := w_Amount w;
  at_OriginalAmount := w_OriginalAmount w; at_Phase := w_Phase w;
  at_Generation := w_Generation w; at_Attempts := w_Attempts w; at_LeaseUntil := w_LeaseUntil w;
  at_NextAttemptAt := w_NextAttemptAt w; at_Rejection := w_Rejection w;
  at_CreatedAt := w_CreatedAt w; at_UpdatedAt := w_UpdatedAt w |}.

(** The identifiers replaced by their canonical text. *)
Definition canonical_attempt (w : AssignmentAttempt) (id caller courier : string) : AssignmentAttempt :=
  mkAttempt id (w_OrderID w) (w_OfferID w) caller courier (w_Method w) (w_Key w) (w_RequestHash w)
    (w_Amount w) (w_OriginalAmount w) (w_Phase w) (w_Generation w) (w_Attempts w) (w_LeaseUntil w)
    (w_NextAttemptAt w) (w_Rejection w) (w_CreatedAt w) (w_UpdatedAt w).

Definition insertable (o : Order) (w : AssignmentAttempt) : bool :=
  (w_Generation w =? 0) && (w_Attempts w =? 0)
  && (same (w_Phase w) AdjustmentPending
      || (same (w_Phase w) AssignmentRejected && negb (nonempty (w_OfferID w))))
  && negb (same (w_CourierID w) (o_RequesterID o))
  && (0 <? w_Amount w) && (0 <? w_OriginalAmount w) && (w_OriginalAmount w =? o_ReservedCredits o).

Definition record_attempt (w : AssignmentAttempt) : TX unit :=
  modify (λ s, s <| baselines := <[w_ID w := w]> (baselines s) |>
                 <| written := <[w_ID w := w]> (written s) |>).

Definition InsertAssignment (w : AssignmentAttempt) : TX unit :=
  s ← get;
  match locked s !! w_OrderID w with
  | None => refuse ErrPrecondition
  | Some o =>
      if negb (bool_decide (w_OrderID w ∈ related s)) || negb (insertable o w)
      then refuse ErrPrecondition
      else
        id ← writeResult (lift (parseID (w_ID w)));
        caller ← writeResult (lift (parseID (w_CallerID w)));
        courier ← writeResult (lift (parseID (w_CourierID w)));
        offer ← (if nonempty (w_OfferID w) then
                   v ← writeResult (lift (parseID (w_OfferID w))); mret (Some v)
                 else mret None);
        key ← (if decide (w_Method w = AcceptOrderMethod) then
                 held ← caller_locked {| CallerID := w_CallerID w; Method := w_Method w |};
                 match parseID (w_Key w) with
                 | Ok v => if same caller courier && held then mret (Some v) else refuse ErrPrecondition
                 | Err _ => refuse ErrPrecondition
                 end
               else if same (w_Method w) AcceptOfferMethod && IsRequestedBy o (w_CallerID w)
               then mret None
               else refuse ErrForbidden);
        _ ← writeResult (exec_unit (InsertAssignmentAttempt
              (attempt_row (canonical_attempt w id caller courier) offer key)));
        record_attempt w
  end.

(** [immutable] is [w] with the columns that SaveAssignment may change taken
    from [before]. *)
Definition immutable (before w : AssignmentAttempt) : AssignmentAttempt :=
  w <| w_Phase := w_Phase before |> <| w_Generation := w_Generation before |>
    <| w_Attempts := w_Attempts before |> <| w_LeaseUntil := w_LeaseUntil before |>
    <| w_NextAttemptAt := w_NextAttemptAt before |> <| w_Rejection := w_Rejection before |>
    <| w_UpdatedAt := w_UpdatedAt before |>.

Definition saveable (before w : AssignmentAttempt) (expected : Z) : bool :=
  negb (IsResolved before) && (w_Generation before =? expected)
  && same (immutable before w) before
  && (expected <=? w_Generation w) && (w_Generation w <=? add64 expected 1)
  && (w_Attempts before <=? w_Attempts w) && (w_Attempts w <=? wrap32 (w_Attempts before + 1))
  && negb (same (w_Phase before) RevertPending && negb (same (w_Phase w) RevertPending)
           && negb (same (w_Phase w) AssignmentRejected)).

Definition SaveAssignment (w : AssignmentAttempt) (expected : Z) : TX unit :=
  s ← get;
  match baselines s !! w_ID w with
  | None => refuse ErrConflict
  | Some before =>
      if negb (saveable before w expected) then refuse ErrConflict
      else
        _ ← writeResult (n ← exec (UpdateAssignmentAttempt (attempt_row w None None) expected);
                         ensure_tx (n =? 1) ErrConflict);
        record_attempt w
  end.

(** The attempt that authorises the offers of a change, read once. *)
Fixpoint change_attempt (action : Action) (updates : list OfferChange)
    : TX (option AssignmentAttempt) :=
  match updates with
  | [] => mret None
  | u :: rest =>
      if same action ResolveAssignment || same (oc_ExpectedStatus u) OfferAccepting
         || same (f_Status (oc_Offer u)) OfferAccepting
      then OfferAssignment (f_ID (oc_Offer u))
      else change_attempt action rest
  end.

Definition attempt_of (c : Change) : TX (option AssignmentAttempt) :=
  if decide (c_Action c = ProposeOffer) then mret None
  else change_attempt (c_Action c) (c_Offers c).

(** Apply of the assignment transaction revalidates the offers. *)
Definition assignment_Apply (c : Change) : TX unit :=
  s ← get;
  match locked s !! o_ID (c_Order c) with
  | None => refuse ErrPrecondition
  | Some before =>
      if negb (bool_decide (o_ID (c_Order c) ∈ related s)) then refuse ErrPrecondition
      else
        stored ← writeResult (query (OrderOffers (o_ID before)));
        attempt ← writeResult (attempt_of c);
        match c_Offers c with
        | [] => refuse ErrInvalid
        | _ :: _ =>
            _ ← writeResult (lift (validateAssignmentOffers before stored c attempt));
            Apply c
        end
  end.

(** ** Cancellations (postgrescancellation.go) *)

Definition fromCancellation (row : CancellationRow) : Cancellation := {|
  k_ID := kr_ID row; k_OrderID := kr_OrderID row; k_CallerID := kr_CallerID row;
  k_Reason := kr_Reason row; k_Status := kr_Status row;
  k_AssignmentID := or_empty (kr_AssignmentID row); k_CourierID := or_empty (kr_CourierID row);
  k_AssignedAt := kr_AssignedAt row; k_OriginalAmount := kr_OriginalAmount row;
  k_Generation := kr_Generation row; k_Attempts := kr_Attempts row;
  k_LeaseUntil := kr_LeaseUntil row; k_NextAttemptAt := kr_NextAttemptAt row;
  k_CreatedAt := kr_CreatedAt row; k_UpdatedAt := kr_UpdatedAt row |}.

Definition FindCancellation (operationID : string) : TX Cancellation :=
  id ← lift (parseID operationID);
  row ← query (GetCancellation id);
  row ← lift (from_option_ok row ErrNotFound);
  let w := fromCancellation row in
  _ ← require_aggregate (k_OrderID w);
  _ ← modify (λ s, s <| cancelled := <[k_ID w := w]> (cancelled s) |>);
  mret w.

Definition tx_CurrentSuccessfulAssignment (orderID : string) : TX (option AssignmentAttempt) :=
  id ← lift (parseID orderID);
  _ ← require_aggregate orderID;
  row ← query (CurrentSuccessfulAssignment id);
  remember_opt row.

Definition optionalCancellationID (id : string) : option string :=
  if nonempty id then Some id else None.

Definition cancellation_row (w : Cancellation) : CancellationRow := {|
  kr_ID := k_ID w; kr_OrderID := k_OrderID w; kr_CallerID := k_CallerID w; kr_Reason := k_Reason w;
  kr_Status := k_Status w; kr_AssignmentID := optionalCancellationID (k_AssignmentID w);
  kr_CourierID := optionalCancellationID (k_CourierID w); kr_AssignedAt := k_AssignedAt w;
  kr_OriginalAmount := k_OriginalAmount w; kr_Generation := k_Generation w;
  kr_Attempts := k_Attempts w; kr_LeaseUntil := k_LeaseUntil w;
  kr_NextAttemptAt := k_NextAttemptAt w; kr_CreatedAt := k_CreatedAt w;
  kr_UpdatedAt := k_UpdatedAt w |}.

Definition tx_InsertCancellation (w : Cancellation) : TX unit :=
  s ← get;
  match locked s !! k_OrderID w with
  | None => refuse ErrPrecondition
  | Some o =>
      if negb (bool_decide (k_OrderID w ∈ related s)) || negb (HasParticipant o (k_CallerID w))
         || negb (k_Generation w =? 0) || negb (k_Attempts w =? 0)
         || (negb (same (k_Status w) CancellationPending) && negb (same (k_Status w) CancellationSucceeded))
      then refuse ErrPrecondition
      else
        _ ← writeResult (exec_unit (InsertCancellation (cancellation_row w)));
        modify (λ s, s <| cancelled := <[k_ID w := w]> (cancelled s) |>
                       <| changed := {[k_OrderID w]} ∪ changed s |>)
  end.

Definition immutable_cancellation (before w : Cancellation) : Cancellation :=
  w <| k_Status := k_Status before |> <| k_Generation := k_Generation before |>
    <| k_Attempts := k_Attempts before |> <| k_LeaseUntil := k_LeaseUntil before |>
    <| k_NextAttemptAt := k_NextAttemptAt before |> <| k_UpdatedAt := k_UpdatedAt before |>.

Definition SaveCancellation (w : Cancellation) (expected : Z) : TX unit :=
  s ← get;
  match cancelled s !! k_ID w with
  | None => refuse ErrConflict
  | Some before =>
      if negb (same (k_Status before) CancellationPending) || negb (k_Generation before =? expected)
         || negb (same (immutable_cancellation before w) before)
         || (k_Generation w <? expected) || (add64 expected 1 <? k_Generation w)
         || (k_Attempts w <? k_Attempts before) || (wrap32 (k_Attempts before + 1) <? k_Attempts w)
      then refuse ErrConflict
      else
        _ ← writeResult (n ← exec (UpdateCancellation (cancellation_row w) expected);
                         ensure_tx (n =? 1) ErrConflict);
        _ ← modify (λ s, s <| cancelled := <[k_ID w := w]> (cancelled s) |>);
        if same (k_Status w) CancellationPending then mret tt
        else modify (λ s, s <| changed := {[k_OrderID w]} ∪ changed s |>)
  end.

(** ** Timers (postgresproofs.go) *)

(** clock_timestamp() has microseconds. *)
Definition ProofServerTime : TX Time := λ env s,
  if decide (locked s = ∅) then Err (ErrPrecondition, s)
  else if aborted s then Err (in_failed_transaction, s)
  else Ok (stored_time (server_time env), s).

Definition tx_HasPendingDelivery (orderID : string) : TX bool :=
  l ← is_locked orderID;
  _ ← ensure_tx l ErrPrecondition;
  query (HasPendingDelivery orderID).

(** ** The mutation boundary (mutation.go)

    Lock the aggregate, read its offers, build the change, apply it; a nil
    change is a recognised repeat. *)
Definition Mutate {A} (apply : Change → TX unit) (id : string)
    (build : Order → list Offer → TX (A * option Change)) : TX A :=
  current ← tx_LockOrder id;
  offers ← tx_Relationships id;
  '(result, change) ← build current offers;
  match change with
  | None => mret result
  | Some c =>
      _ ← ensure_tx (EqualFold (o_ID (c_Order c)) id
                     && (c_ExpectedRevision c =? o_Revision current)) ErrConflict;
      _ ← apply c;
      mret result
  end.

End conversion.

(** ** The transaction boundary (postgres.go)

    [commit_fault] is what may happen to a commit that the database would
    accept: the reply is lost, with the transaction applied or not. *)
Record Faults := {
  begin_fault : option string;
  commit_fault : option (string * bool);
}.
Definition no_faults : Faults := {| begin_fault := None; commit_fault := None |}.

Definition start (d : ODB) : Session :=
  mkSession d false ∅ ∅ ∅ None [] ∅ ∅ ∅ ∅ ∅.

(** Commit checks the deferred constraints; a transaction that a failed
    statement aborted rolls back. *)
Definition commit (d : ODB) (s : Session) (fl : Faults) : result Error unit * ODB :=
  if aborted s then (Err in_failed_transaction, d)
  else if negb (deferred_ok (db s)) then (Err foreign_key_violation, d)
  else match commit_fault fl with
       | Some (code, true) => (Err (Pg code), db s)
       | Some (code, false) => (Err (Pg code), d)
       | None => (Ok tt, db s)
       end.

Definition within_tx {A} (env : Env) (fl : Faults) (fn : TX A) (d : ODB) : result Error A * ODB :=
  match begin_fault fl with
  | Some code => (Err (Pg code), d)
  | None =>
      match fn env (start d) with
      | Err (e, _) => (Err e, d)
      | Ok (a, s) =>
          match failed s with
          | Some e => (Err e, d)
          | None =>
              let '(out, d') := commit d s fl in
              (match out with Ok _ => Ok a | Err e => Err (persistenceError e) end, d')
          end
      end
  end.

(** WithinAssignment: a financial outcome and its offer or audit change cannot
    commit separately. *)
Definition with_attempt_check (s : Session) : bool :=
  bool_decide (map_Forall (λ _ w,
    nonempty (w_OfferID w) && (IsResolved w || (w_Generation w =? 0)) = false
    ∨ w_OrderID w ∈ applied s) (written s)).

Definition WithinAssignment {A} (fn : TX A) : TX A :=
  a ← fn;
  s ← get;
  _ ← ensure_tx (with_attempt_check s) ErrPrecondition;
  mret a.

(** WithinCancellation: nor can a cancellation or any attempt it touches. *)
Definition with_cancellation_check (s : Session) : bool :=
  bool_decide (changed s ⊆ applied s)
  && bool_decide (map_Forall (λ _ w, w_OrderID w ∈ applied s) (written s)).

Definition WithinCancellation {A} (fn : TX A) : TX A :=
  a ← fn;
  s ← get;
  _ ← ensure_tx (with_cancellation_check s) ErrPrecondition;
  mret a.
