(* ===== verification/OrderReads.v ===== *)
(** * Order: reads

    service.go, readprojection.go and postgresreader.go: which orders and offers
    a caller may see, and what of them. Every read runs on one snapshot. *)
From stdpp Require Import prelude gmap strings list sorting.
From Stdlib Require Import ZArith.
From S2P Require Import Prelude.
From S2P Require Import GoLib.
From S2P Require Import GoText.
From S2P Require Import OrderTypes.
From S2P Require Import OrderPolicy.
From S2P Require Import OrderDB.
From S2P Require Import OrderStore.

Local Open Scope Z_scope.
Local Open Scope foc_scope.

(** Admins and participants always; other active users while the order is open
    for couriers. *)
Definition visibleTo (o : Order) (c : Caller) (now : Time) : bool :=
  cl_Admin c || HasParticipant o (cl_ID c)
  || (negb (cl_Suspended c) && same (o_Status o) AwaitingCourier && After (o_ExpiresAt o) now).

(** ProjectForCaller returns a response-only copy: only participants receive
    exact delivery information. *)
Definition ProjectForCaller (c : Caller) (original : Order) : Order :=
  if HasParticipant original (cl_ID c) then original
  else original
    <| o_Delivery := {| LocationID := EmptyString; Name := EmptyString;
                        BuildingName := BuildingName (o_Delivery original); Floor := None |} |>
    <| o_DeliveryInstructions := None |> <| o_ItemLocation := None |> <| o_CloseReason := None |>.

Section reads.
  Context `{UUID}.

Definition canonicalReadCaller (c : Caller) : Caller :=
  match uuid_parse (cl_ID c) with
  | Some id => {| cl_ID := id; cl_Admin := cl_Admin c; cl_Suspended := cl_Suspended c |}
  | None => c
  end.

(** ** One order *)

Definition GetWithParticipation (id callerID : string) (d : ODB) : result Error (Order * bool) :=
  uid ← parseID id;
  caller ← parseID callerID;
  row ← from_option_ok (LockOrder uid d) ErrNotFound;
  o ← fromOrder row;
  mret (o, HasAssignmentHistory uid caller d).

Definition GetOrder (now : Time) (c : Caller) (id : string) (d : ODB) : result Error Order :=
  _ ← guard_ok (nonempty (cl_ID c)) ErrForbidden;
  let c := canonicalReadCaller c in
  '(o, historical) ← GetWithParticipation id (cl_ID c) d;
  _ ← guard_ok (negb (negb (cl_Admin c) && negb (HasParticipant o (cl_ID c)) && negb historical
                 && (cl_Suspended c || negb (same (o_Status o) AwaitingCourier)
                     || negb (After (o_ExpiresAt o) now)))) ErrNotFound;
  mret (ProjectForCaller c o).

(** ** Offers of an order *)

Definition offer_status_known (s : OfferStatus) : bool :=
  match s with OtherOfferStatus t => negb (nonempty t) | _ => true end.

Definition Offers (now : Time) (c : Caller) (id : string) (status : OfferStatus) (d : ODB)
    : result Error (list Offer) :=
  uid ← parseID id;
  caller ← parseID (cl_ID c);
  row ← from_option_ok (LockOrder uid d) ErrNotFound;
  o ← fromOrder row;
  let rows := OrderOffers uid d in
  let own := existsb (λ f, same (f_CourierID f) caller) rows in
  _ ← guard_ok (negb (negb (cl_Admin c) && negb (HasParticipant o caller) && negb own
                 && (cl_Suspended c || negb (same (o_Status o) AwaitingCourier)
                     || negb (After (o_ExpiresAt o) now)))) ErrNotFound;
  mret (filter (λ f, (same status NoOfferStatus || same (f_Status f) status)
                     && (cl_Admin c || IsRequestedBy o caller || same (f_CourierID f) caller) = true)
          rows).

Definition ListOffers (now : Time) (c : Caller) (id : string) (status : OfferStatus) (d : ODB)
    : result Error (list Offer) :=
  _ ← guard_ok (nonempty (cl_ID c)) ErrForbidden;
  _ ← guard_ok (offer_status_known status) ErrInvalid;
  Offers now c id status d.

(** ** Listings *)

Record ReadQuery := {
  rq_Caller : Caller;
  rq_UserID : string;
  rq_Open : bool;
  rq_Request : ListRequest;
}.

Definition snapshot_member (k : string) (v : json) : option string :=
  match v with
  | JObject ms => match member k ms with Some (JString s) => Some s | _ => None end
  | _ => None
  end.

(** The WHERE clause that ListOrders and CountOrders share. *)
Definition order_selected (d : ODB) (caller : string) (now : Time) (q : ReadQuery)
    (user pickup : string) (r : OrderRow) : bool :=
  let req := rq_Request q in
  (negb (rq_Open q)
   || (same (r_Status r) AwaitingCourier && negb (same (r_RequesterID r) caller)
       && (stored_time now <? r_ExpiresAt r)))
  && (negb (nonempty user)
      || ((same (lr_Role req) AnyRole || same (lr_Role req) RequesterRole) && same (r_RequesterID r) user)
      || ((same (lr_Role req) AnyRole || same (lr_Role req) CourierRole)
          && (same (r_CourierID r) (Some user) || HasAssignmentHistory (r_ID r) user d)))
  && (same (lr_Status req) NoStatus || same (r_Status r) (lr_Status req))
  && (negb (nonempty pickup) || same (snapshot_member "location_id" (r_Pickup r)) (Some pickup))
  && (negb (nonempty (lr_DeliveryBuildingName req))
      || same (snapshot_member "building_name" (r_Delivery r)) (Some (lr_DeliveryBuildingName req))).

(** ORDER BY created_at DESC, id DESC. *)
Definition newest_order (r r' : OrderRow) : Prop :=
  r_CreatedAt r' < r_CreatedAt r
  ∨ (r_CreatedAt r' = r_CreatedAt r ∧ String.leb (r_ID r') (r_ID r) = true).
#[local] Instance newest_order_dec : RelDecision newest_order.
Proof. unfold RelDecision, newest_order. apply _. Defined.

Definition ListOrders (p : OrderRow → bool) (page_size page_offset : Z) (d : ODB) : list OrderRow :=
  take (Z.to_nat page_size) (drop (Z.to_nat page_offset)
    (merge_sort newest_order (filter (λ r, p r = true) (snd <$> map_to_list (orders d))))).

Definition CountOrders (p : OrderRow → bool) (d : ODB) : Z :=
  Z.of_nat (length (filter (λ r, p r = true) (snd <$> map_to_list (orders d)))).

Definition canonical_filter (id : string) : result Error string :=
  if nonempty id then parseID id else mret EmptyString.

Fixpoint fromOrders (rows : list OrderRow) : result Error (list Order) :=
  match rows with
  | [] => mret []
  | r :: rest => o ← fromOrder r; os ← fromOrders rest; mret (o :: os)
  end.

Definition List_ (now : Time) (q : ReadQuery) (d : ODB) : result Error OrderPage :=
  p ← Normalize (lr_Page (rq_Request q));
  caller ← parseID (cl_ID (rq_Caller q));
  user ← canonical_filter (rq_UserID q);
  pickup ← canonical_filter (lr_PickupID (rq_Request q));
  let sel := order_selected d caller now q user pickup in
  os ← fromOrders (ListOrders sel (Size p) (mul64 (wrap32 (Number p - 1)) (Size p)) d);
  mret {| op_Orders := os; op_PageInfo := {| pi_Page := p; Total := CountOrders sel d |} |}.

Definition with_page (q : ReadQuery) (p : Page) : ReadQuery :=
  let r := rq_Request q in {|
  rq_Caller := rq_Caller q; rq_UserID := rq_UserID q; rq_Open := rq_Open q;
  rq_Request := {| lr_Page := p; lr_Status := lr_Status r; lr_Role := lr_Role r;
                   lr_PickupID := lr_PickupID r; lr_DeliveryID := lr_DeliveryID r;
                   lr_DeliveryBuildingName := lr_DeliveryBuildingName r |} |}.

(** list validates filters and applies the same projection to every scope. *)
Definition list_ (now : Time) (q : ReadQuery) (d : ODB) : result Error OrderPage :=
  let r := rq_Request q in
  _ ← guard_ok (nonempty (cl_ID (rq_Caller q))) ErrForbidden;
  p ← Normalize (lr_Page r);
  _ ← guard_ok (same (lr_Status r) NoStatus || IsValid (lr_Status r)) ErrInvalid;
  _ ← guard_ok (same (lr_Role r) AnyRole || same (lr_Role r) RequesterRole
                || same (lr_Role r) CourierRole) ErrInvalid;
  _ ← guard_ok (negb (nonempty (lr_DeliveryID r))
                && (RuneCountInString (lr_DeliveryBuildingName r) <=? 200)) ErrInvalid;
  out ← List_ now (with_page q p) d;
  mret {| op_Orders := ProjectForCaller (rq_Caller q) <$> op_Orders out;
          op_PageInfo := op_PageInfo out |}.

Definition ListOpenOrders (now : Time) (c : Caller) (r : ListRequest) (d : ODB)
    : result Error OrderPage :=
  _ ← guard_ok (negb (cl_Suspended c)) ErrForbidden;
  list_ now {| rq_Caller := canonicalReadCaller c; rq_UserID := EmptyString; rq_Open := true;
               rq_Request := r |} d.

Definition ListMyOrders (now : Time) (c : Caller) (r : ListRequest) (d : ODB)
    : result Error OrderPage :=
  list_ now {| rq_Caller := canonicalReadCaller c; rq_UserID := cl_ID c; rq_Open := false;
               rq_Request := r |} d.

Definition ListUserOrders (now : Time) (c : Caller) (id : string) (r : ListRequest) (d : ODB)
    : result Error OrderPage :=
  _ ← guard_ok (cl_Admin c) ErrForbidden;
  _ ← guard_ok (nonempty id) ErrInvalid;
  list_ now {| rq_Caller := canonicalReadCaller c; rq_UserID := id; rq_Open := false;
               rq_Request := r |} d.

End reads.
