(* ===== verification/OrderProgress.v ===== *)
(** * Order: participants' actions and timers

    progress.go, disposition.go, deliverytimers.go, expirytimers.go and
    lifecycletimers.go: pickup, receipt, the final item location, the delivery
    timeout and the expiry, and the scanner that drives the two timers. *)
From stdpp Require Import prelude gmap strings list.
From Stdlib Require Import ZArith.
From S2P Require Import Prelude.
From S2P Require Import GoLib.
From S2P Require Import GoText.
From S2P Require Import OrderTypes.
From S2P Require Import OrderPolicy.
From S2P Require Import OrderDB.
From S2P Require Import OrderStore.
From S2P Require Import OrderReads.

Local Open Scope Z_scope.
Local Open Scope foc_scope.

Section progress.
  Context `{UUID}.

Definition user_actor (c : Caller) : Actor := {| a_Kind := User; a_ID := cl_ID c |}.
Definition system_actor : Actor := {| a_Kind := System; a_ID := EmptyString |}.
Definition micros (t : Time) : Time := time_truncate t Microsecond.
Definition next_revision (o : Order) : Order := o <| o_Revision := add64 (o_Revision o) 1 |>.

(** ** Pickup and receipt (progress.go) *)

Definition advance_build (c : Caller) (action : Action) (stamp : Order → Time → Order)
    (current : Order) (_ : list Offer) : TX (Order * option Change) :=
  env ← ask;
  let now := micros (now_ env) in
  _ ← ensure_tx (visibleTo current c now) ErrNotFound;
  '(next, repeat) ← lift (Transition current action (user_actor c));
  if repeat : bool then mret (current, None)
  else
    let after := stamp (next_revision (current <| o_Status := next |>) <| o_UpdatedAt := now |>) now in
    change ← lift (NewChange (Some current) after (user_actor c) action None (newID env));
    mret (after, Some change).

Definition advance (c : Caller) (id : string) (action : Action) (stamp : Order → Time → Order)
    : TX Order :=
  _ ← ensure_tx (nonempty (cl_ID c)) ErrForbidden;
  _ ← lift (parseID id);
  Mutate Apply id (advance_build c action stamp).

Definition ConfirmPickup (c : Caller) (id : string) : TX Order :=
  advance c id Pickup (λ o now, o <| o_PickedUpAt := Some now |>).

(** Progress.ConfirmReceipt. *)
Definition ConfirmReceipt_ (c : Caller) (id : string) : TX Order :=
  advance c id ConfirmReceipt (λ o now, o <| o_CompletedAt := Some now |>).

(** ** Final item location (disposition.go) *)

Definition location_details (location : string) : json :=
  JObject [("item_location", JString location)].

Definition location_build (c : Caller) (location : string) (current : Order) (_ : list Offer)
    : TX (Order * option Change) :=
  _ ← ensure_tx (HasParticipant current (cl_ID c)) ErrNotFound;
  _ ← ensure_tx (IsAssignedTo current (cl_ID c)) ErrForbidden;
  _ ← ensure_tx (is_some (o_PickedUpAt current)
                 && (same (o_Status current) Cancelled || same (o_Status current) Failed)) ErrPrecondition;
  if decide (o_ItemLocation current = Some location) then mret (current, None)
  else
    env ← ask;
    let after := next_revision (current <| o_ItemLocation := Some location |>
                                        <| o_UpdatedAt := micros (now_ env) |>) in
    change ← lift (NewChange (Some current) after (user_actor c) RecordItemLocation
                     (Some (location_details location)) (newID env));
    mret (after, Some change).

Definition location_ok (location : string) : bool :=
  ValidString location && (1 <=? RuneCountInString location) && (RuneCountInString location <=? 500).

(** Disposition.RecordItemLocation. *)
Definition RecordItemLocation_ (c : Caller) (orderID location : string) : TX Order :=
  _ ← ensure_tx (nonempty (cl_ID c)) ErrForbidden;
  id ← lift (parseID orderID);
  let location := TrimSpace location in
  _ ← ensure_tx (location_ok location) ErrInvalid;
  Mutate Apply id (location_build c location).

(** ** Timers (deliverytimers.go, expirytimers.go) *)

(** lockedLifecycleTime; [testNow] overrides the server's clock in tests. *)
Definition lockedLifecycleTime (testNow : option Time) : TX Time :=
  match testNow with
  | Some t => mret (micros t)
  | None => now ← ProofServerTime; mret (micros now)
  end.

Definition deliveryTimeoutDeadline (o : Order) : result Error Time :=
  match o_PickedUpAt o, o_CourierID o with
  | Some picked_up, Some _ =>
      if (o_DeliveryDuration o <=? 0) || (Z.quot max_int64 2 <? o_DeliveryDuration o)
      then Err ErrPrecondition
      else Ok (picked_up + mul64 2 (o_DeliveryDuration o))
  | _, _ => Err ErrPrecondition
  end.

Definition deadline_details (deadline : Time) : result Error json :=
  text ← from_option_ok (format_time deadline) ErrMarshal;
  mret (JObject [("deadline", JString text)]).

(** The order as a timer closes it. *)
Definition closed (before : Order) (next : Status) (now : Time) (reason : string) : Order :=
  next_revision (before <| o_Status := next |> <| o_UpdatedAt := now |>
    <| o_ClosedAt := Some now |> <| o_CloseReason := Some reason |>).

Definition timeout_build (testNow : option Time) (id : string) (before : Order) (_ : list Offer)
    : TX (unit * option Change) :=
  if negb (same (o_Status before) Delivering) then mret (tt, None)
  else
    deadline ← lift (deliveryTimeoutDeadline before);
    now ← lockedLifecycleTime testNow;
    if Before now deadline then mret (tt, None)
    else
      pending ← tx_HasPendingDelivery id;
      if pending : bool then mret (tt, None)
      else
        '(next, _) ← lift (Transition before Timeout system_actor);
        details ← lift (deadline_details deadline);
        env ← ask;
        change ← lift (NewChange (Some before) (closed before next now "delivery_timed_out")
                         system_actor Timeout (Some details) (newID env));
        mret (tt, Some change).

(** DeliveryTimers.Timeout; an order that is gone is no failure. *)
Definition not_found_ok (out : result Error unit * ODB) : result Error unit * ODB :=
  match out with
  | (Err ErrNotFound, d) => (Ok tt, d)
  | _ => out
  end.

Definition Timeout_ (testNow : option Time) (env : Env) (fl : Faults) (id : string) (d : ODB)
    : result Error unit * ODB :=
  not_found_ok (within_tx env fl (Mutate Apply id (timeout_build testNow id)) d).

(** Open and accepting offers are void once the order closes. *)
Definition void_offer (now : Time) (f : Offer) : OfferChange :=
  {| oc_Offer := f <| f_Status := OfferVoid |> <| f_UpdatedAt := now |>;
     oc_ExpectedStatus := f_Status f |}.
Definition closable (f : Offer) : bool := same (f_Status f) OfferOpen || same (f_Status f) OfferAccepting.
Definition void_offers (now : Time) (offers : list Offer) : list OfferChange :=
  void_offer now <$> filter (λ f, closable f = true) offers.

Definition expire_build (testNow : option Time) (before : Order) (offers : list Offer)
    : TX (unit * option Change) :=
  if negb (same (o_Status before) AwaitingCourier) then mret (tt, None)
  else
    now ← lockedLifecycleTime testNow;
    if After (o_ExpiresAt before) now then mret (tt, None)
    else
      '(next, _) ← lift (Transition before Expire system_actor);
      details ← lift (deadline_details (o_ExpiresAt before));
      env ← ask;
      change ← lift (NewChange (Some before) (closed before next now "request_expired")
                       system_actor Expire (Some details) (newID env));
      mret (tt, Some (change <| c_Offers := void_offers now offers |>)).

(** ExpiryTimers.Expire. *)
Definition Expire_ (testNow : option Time) (env : Env) (fl : Faults) (id : string) (d : ODB)
    : result Error unit * ODB :=
  not_found_ok (within_tx env fl (Mutate Apply id (expire_build testNow)) d).

(** ** The scanner (lifecycletimers.go)

    One scan of the candidates after the cursor. [attempt] tells whether the
    attempt on an order succeeded; the workers' attempts are independent, and
    the clock readings of a scan are one reading. *)
Definition lifecycleTimerBatchSize : Z := 50.

Record lifecycleTimerRetry := {
  nextAttempt : Time;
  delay : Duration;
  seen : bool;
}.

Record lifecycleTimerScanner := {
  after : string;
  retries : gmap string lifecycleTimerRetry;
}.

(** Marks the retry as seen, and tells whether its delay is still running. *)
Definition deferred (now : Time) (rs : gmap string lifecycleTimerRetry) (id : string) : bool :=
  match rs !! id with Some r => After (nextAttempt r) now | None => false end.

Definition mark_seen (r : lifecycleTimerRetry) (b : bool) : lifecycleTimerRetry :=
  {| nextAttempt := nextAttempt r; delay := delay r; seen := b |}.

Definition next_delay (d : Duration) : Duration := Z.min (30 * Second) (Z.max Second (mul64 2 d)).

(** What the result of an attempt leaves in the retries. *)
Definition settle_retry (now : Time) (attempt : string → bool)
    (rs : gmap string lifecycleTimerRetry) (id : string) : gmap string lifecycleTimerRetry :=
  if attempt id then delete id rs
  else
    let d := next_delay (match rs !! id with Some r => delay r | None => 0 end) in
    <[id := {| nextAttempt := now + d; delay := d; seen := true |}]> rs.

Definition ScanOnce (now : Time) (discover : string → Z → result Error (list string))
    (attempt : string → bool) (s : lifecycleTimerScanner)
    : result Error unit * lifecycleTimerScanner :=
  match discover (after s) lifecycleTimerBatchSize with
  | Err e => (Err e, s)
  | Ok ids =>
      let seen_ := foldl (λ rs id, alter (λ r, mark_seen r true) id rs) (retries s) ids in
      let attempted := filter (λ id, deferred now (retries s) id = false) ids in
      let rs := foldl (settle_retry now attempt) seen_ attempted in
      (Ok tt,
       if Z.of_nat (length ids) =? lifecycleTimerBatchSize then
         {| after := match last ids with Some id => id | None => after s end; retries := rs |}
       else
         {| after := uuid_nil;
            retries := (λ r, mark_seen r false) <$> filter (λ kv, seen kv.2 = true) rs |})
  end.

End progress.
