(* ===== verification/OrderAssignment.v ===== *)
(** * Order: offers and assignment

    assignment.go and assignmentrecovery.go: couriers propose offers, the
    requester accepts one or a courier accepts the order at its reward, and the
    attempt that follows moves Credit's hold to the courier before the order is
    assigned. Remote replies are an argument; what other transactions do
    between the two transactions of a step is one too. *)
From stdpp Require Import prelude gmap strings list.
From Stdlib Require Import ZArith.
From S2P Require Import Prelude.
From S2P Require Import GoLib.
From S2P Require Import GoText.
From S2P Require Import OrderTypes.
From S2P Require Import OrderPolicy.
From S2P Require Import OrderDB.
From S2P Require Import OrderStore.
From S2P Require Import OrderProgress.

Local Open Scope Z_scope.
Local Open Scope foc_scope.

(** ** Credit, as the sagas see it (assignmenttypes.go) *)

Inductive Reply :=
| Acknowledged
| CreditInsufficient
| CallFailed.
#[export] Instance Reply_eq_dec : EqDecision Reply.
Proof. solve_decision. Defined.

(** AssignmentCredit: the replies one step receives. A failed call may have
    taken effect. *)
Record AssignmentCredit := {
  Adjust : AdjustmentIntent → Reply;
  Revert : string → string → Reply;
  GetAssignmentReservation : string → option AssignmentReservation;
}.

Record assignmentObservation := {
  ob_reservation : option AssignmentReservation;
  ob_refused : bool;
}.

Definition observeAssignment (credit : AssignmentCredit) (w : AssignmentAttempt)
    : assignmentObservation :=
  let reply :=
    if decide (w_Phase w = RevertPending) then Revert credit (w_OrderID w) (w_ID w)
    else Adjust credit {| ai_OrderID := w_OrderID w; ai_OfferID := w_ID w;
                          ai_CourierID := w_CourierID w; ai_Amount := w_Amount w |} in
  if same (w_Phase w) AdjustmentPending && same reply CreditInsufficient
  then {| ob_reservation := None; ob_refused := true |}
  else if same (w_Phase w) RevertPending && negb (same reply Acknowledged)
  then {| ob_reservation := None; ob_refused := false |}
  else {| ob_reservation := GetAssignmentReservation credit (w_OrderID w); ob_refused := false |}.

Definition confirmsAdjustment (v : option AssignmentReservation) (w : AssignmentAttempt) (o : Order)
    : bool :=
  match v with
  | None => false
  | Some v =>
      same (v_OrderID v) (w_OrderID w) && same (v_RequesterID v) (o_RequesterID o)
      && same (v_State v) "assigned" && same (v_OfferID v) (w_ID w)
      && same (v_CourierID v) (w_CourierID w) && (v_ReservedAmount v =? w_Amount w)
      && (v_OriginalAmount v =? w_OriginalAmount w)
  end.

Definition confirmsRevert (v : option AssignmentReservation) (w : AssignmentAttempt) (o : Order) : bool :=
  match v with
  | None => false
  | Some v =>
      same (v_OrderID v) (w_OrderID w) && same (v_RequesterID v) (o_RequesterID o)
      && (v_OriginalAmount v =? w_OriginalAmount w)
      && negb (nonempty (v_OfferID v)) && negb (nonempty (v_CourierID v))
      && ((same (v_State v) "held" && (v_ReservedAmount v =? w_OriginalAmount w)
           && (v_OriginalAmount v =? w_OriginalAmount w))
          || (same (v_State v) "released" && (v_ReservedAmount v =? 0)))
  end.

(** ** Retry pacing (creationrecovery.go) *)

Definition creationRetryDelay (jitter : Duration → Duration) (attempt : Z) : Duration :=
  let shift := Z.max 0 (Z.min (wrap32 (attempt - 1)) 5) in
  let base := mul64 Second (2 ^ shift) in
  Z.min (30 * Second) (add64 base (jitter base)).

Section assignment.
  Context `{UUID, Digest}.

(** ** The mutation of an assignment transaction *)

Definition lock_scope (scope : option IdempotencyScope) : TX unit :=
  match scope with
  | Some scope => LockIdempotencyCaller scope
  | None => mret tt
  end.

Definition validated_build {A} (build : Order → list Offer → TX (A * option Change))
    (o : Order) (offers : list Offer) : TX (A * option Change) :=
  '(result, change) ← build o offers;
  match change with
  | None => mret (result, None)
  | Some c =>
      attempt ← attempt_of c;
      _ ← lift (validateAssignmentOffers o offers c attempt);
      mret (result, Some c)
  end.

(** Assigner.mutate. *)
Definition assign_mutate {A} (orderID : string) (scope : option IdempotencyScope)
    (build : Order → list Offer → TX (A * option Change)) : TX A :=
  WithinAssignment (
    _ ← lock_scope scope;
    Mutate assignment_Apply orderID (validated_build build)).

Definition assignmentCaller (c : Caller) : result Error Caller :=
  match parseID (cl_ID c) with
  | Ok id => if cl_Suspended c then Err ErrForbidden
             else Ok {| cl_ID := id; cl_Admin := cl_Admin c; cl_Suspended := cl_Suspended c |}
  | Err _ => Err ErrForbidden
  end.

Definition assignmentHash (orderID : string) (amount : Z) : string :=
  sha256_hex (Marshal (JObject [("OrderID", JString orderID); ("Amount", JInt amount)])).

(** ** Building blocks *)

Definition canPropose (o : Order) (now : Time) : TX unit :=
  _ ← ensure_tx (same (o_Status o) AwaitingCourier && After (o_ExpiresAt o) now) ErrPrecondition;
  active ← ActiveAssignment (o_ID o);
  ensure_tx (negb (is_some active)) ErrConflict.

(** A change of offers only; it emits no facts. *)
Definition metadata (o : Order) (callerID : string) (action : Action) (now : Time) : TX Change :=
  env ← ask;
  lift (NewChange (Some o) (next_revision o <| o_UpdatedAt := now |>)
          {| a_Kind := User; a_ID := callerID |} action None (newID env)).

Definition new_attempt (id : string) (o : Order) (f : Offer) (caller : Caller)
    (method key hash : string) (now : Time) : AssignmentAttempt := {|
  w_ID := id; w_OrderID := o_ID o; w_OfferID := f_ID f; w_CallerID := cl_ID caller;
  w_CourierID := f_CourierID f; w_Method := method; w_Key := key; w_RequestHash := hash;
  w_Amount := f_Credits f; w_OriginalAmount := o_ReservedCredits o; w_Phase := AdjustmentPending;
  w_Generation := 0; w_Attempts := 0; w_LeaseUntil := now; w_NextAttemptAt := now;
  w_Rejection := EmptyString; w_CreatedAt := now; w_UpdatedAt := now |}.

(** time.Date(9999, 12, 31, 0, 0, 0, 0, time.UTC). *)
Definition never_expires : Time := 3652058 * nanos_per_day.

Definition acceptanceKey (scope : IdempotencyScope) (key hash attemptID : string) : IdempotencyKey := {|
  ik_Scope := scope; ik_Key := key; ik_ResourceID := attemptID; ik_RequestHash := hash;
  ik_ExpiresAt := never_expires |}.

(** ** Proposals *)

Definition new_offer (id orderID courier : string) (credits : Z) (status : OfferStatus) (now : Time)
    : Offer := mkOffer id orderID courier credits status now now.

(** The retained proposal of a repeated key. *)
Definition retained_offer (stored : IdempotencyKey) (courier : string) (offers : list Offer)
    : result Error Offer :=
  from_option_ok (find_last (λ f, same (f_ID f) (ik_ResourceID stored) && same (f_CourierID f) courier)
                    offers) ErrIdempotencyIntegrity.

Definition propose (caller : Caller) (orderID : string) (credits : Z) (scope : IdempotencyScope)
    (key hash : string) (now : Time) (o : Order) (offers : list Offer) : TX (Offer * option Change) :=
  _ ← canPropose o now;
  _ ← ensure_tx (o_RewardCredits o <? credits) ErrInvalid;
  env ← ask;
  let result := new_offer (newID env 0%nat) orderID (cl_ID caller) credits OfferOpen now in
  change ← metadata o (cl_ID caller) ProposeOffer now;
  let voided := void_offer now <$>
    filter (λ f, f_CourierID f = cl_ID caller ∧ f_Status f = OfferOpen) offers in
  _ ← InsertIdempotencyKey {| ik_Scope := scope; ik_Key := key; ik_ResourceID := f_ID result;
        ik_RequestHash := hash; ik_ExpiresAt := now + 24 * Hour |};
  mret (result, Some (change <| c_Offers :=
    voided ++ [{| oc_Offer := result; oc_ExpectedStatus := NoOfferStatus |}] |>)).

Definition make_offer_build (caller : Caller) (orderID : string) (credits : Z)
    (scope : IdempotencyScope) (key hash : string) (o : Order) (offers : list Offer)
    : TX (Offer * option Change) :=
  _ ← ensure_tx (negb (IsRequestedBy o (cl_ID caller))) ErrForbidden;
  env ← ask;
  let now := now_ env in
  stored ← FindIdempotencyKey scope key;
  match stored with
  | None => propose caller orderID credits scope key hash now o offers
  | Some stored =>
      _ ← lift (CheckRequestHash stored hash);
      result ← lift (retained_offer stored (cl_ID caller) offers);
      if After (ik_ExpiresAt stored) now || same (f_Status result) OfferAccepting
      then mret (result, None)
      else
        _ ← DeleteIdempotencyKey scope key;
        propose caller orderID credits scope key hash now o offers
  end.

Definition MakeOffer (caller : Caller) (orderID : string) (credits : Z) (key : string) : TX Offer :=
  caller ← lift (assignmentCaller caller);
  id ← lift (parseID orderID);
  kid ← lift (parseID key);
  _ ← ensure_tx (0 <? credits) ErrInvalid;
  let scope := {| CallerID := cl_ID caller; Method := MakeOfferMethod |} in
  let hash := assignmentHash id credits in
  assign_mutate id (Some scope) (make_offer_build caller id credits scope kid hash).

(** ** Accepting the order at its reward *)

(** A repeated acceptance returns its attempt. *)
Definition replay_acceptance (caller : Caller) (orderID : string) (key hash : string)
    (stored : IdempotencyKey) : TX AssignmentAttempt :=
  _ ← lift (CheckRequestHash stored hash);
  attempt ← catch (FindAssignment (ik_ResourceID stored))
              (λ e, fail (if decide (e = ErrNotFound) then ErrIdempotencyIntegrity else e));
  _ ← ensure_tx (same (w_CallerID attempt) (cl_ID caller) && same (w_Method attempt) AcceptOrderMethod
        && same (w_Key attempt) key && same (w_RequestHash attempt) hash
        && same (w_OrderID attempt) orderID) ErrIdempotencyIntegrity;
  mret attempt.

(** A contended acceptance keeps a permanent identity, so that an old retry
    never becomes a new assignment. *)
Definition reject_acceptance (caller : Caller) (orderID : string) (scope : IdempotencyScope)
    (key hash : string) (now : Time) (o : Order) (cause : Error) : TX AssignmentAttempt :=
  rejected ← tx_HasRejectedAcceptance orderID (cl_ID caller);
  _ ← ensure_tx (negb rejected) ErrPrecondition;
  env ← ask;
  let attempt := {|
    w_ID := newID env 0%nat; w_OrderID := orderID; w_OfferID := EmptyString;
    w_CallerID := cl_ID caller; w_CourierID := cl_ID caller; w_Method := AcceptOrderMethod;
    w_Key := key; w_RequestHash := hash; w_Amount := o_RewardCredits o;
    w_OriginalAmount := o_ReservedCredits o; w_Phase := AssignmentRejected; w_Generation := 0;
    w_Attempts := 0; w_LeaseUntil := now; w_NextAttemptAt := now;
    w_Rejection := if decide (cause = ErrConflict) then "assignment_in_progress"
                   else "order_unavailable";
    w_CreatedAt := now; w_UpdatedAt := now |} in
  _ ← InsertAssignment attempt;
  _ ← InsertIdempotencyKey (acceptanceKey scope key hash (w_ID attempt));
  mret attempt.

Definition begin_acceptance (caller : Caller) (orderID : string) (scope : IdempotencyScope)
    (key hash : string) (now : Time) (o : Order) : TX (AssignmentAttempt * option Change) :=
  env ← ask;
  let f := new_offer (newID env 0%nat) orderID (cl_ID caller) (o_RewardCredits o) OfferAccepting now in
  let attempt := new_attempt (newID env 1%nat) o f caller AcceptOrderMethod key hash now in
  _ ← InsertAssignment attempt;
  _ ← InsertIdempotencyKey (acceptanceKey scope key hash (w_ID attempt));
  change ← metadata o (cl_ID caller) BeginAssignment now;
  mret (attempt, Some (change <| c_Offers := [{| oc_Offer := f; oc_ExpectedStatus := NoOfferStatus |}] |>)).

(** What canPropose refuses, other than by an unexpected error. *)
Definition admission (o : Order) (now : Time) : TX (option Error) :=
  catch (_ ← canPropose o now; mret None)
        (λ e, if decide (e = ErrPrecondition ∨ e = ErrConflict) then mret (Some e) else fail e).

Definition accept_order_build (configured : bool) (caller : Caller) (orderID : string)
    (scope : IdempotencyScope) (key hash : string) (o : Order) (_ : list Offer)
    : TX (AssignmentAttempt * option Change) :=
  _ ← ensure_tx (negb (IsRequestedBy o (cl_ID caller))) ErrForbidden;
  stored ← FindIdempotencyKey scope key;
  match stored with
  | Some stored =>
      attempt ← replay_acceptance caller orderID key hash stored;
      mret (attempt, None)
  | None =>
      env ← ask;
      let now := now_ env in
      _ ← ensure_tx (same (o_Status o) AwaitingCourier && After (o_ExpiresAt o) now
                     && (0 <? o_ReservedCredits o)) ErrNotFound;
      _ ← ensure_tx configured ErrUnavailable;
      cause ← admission o now;
      match cause with
      | Some cause =>
          attempt ← reject_acceptance caller orderID scope key hash now o cause;
          mret (attempt, None)
      | None => begin_acceptance caller orderID scope key hash now o
      end
  end.

(** The admission transaction of AcceptOrder. *)
Definition accept_order_tx (configured : bool) (caller : Caller) (orderID key : string)
    : TX AssignmentAttempt :=
  caller ← lift (assignmentCaller caller);
  id ← lift (parseID orderID);
  kid ← lift (parseID key);
  let scope := {| CallerID := cl_ID caller; Method := AcceptOrderMethod |} in
  let hash := assignmentHash id 0 in
  assign_mutate id (Some scope) (accept_order_build configured caller id scope kid hash).

(** ** Accepting a counteroffer *)

Definition begin_counteroffer (configured : bool) (caller : Caller) (offerID : string)
    (o : Order) (offers : list Offer) : TX (AssignmentAttempt * option Change) :=
  selected ← lift (from_option_ok (find_last (λ f, same (f_ID f) offerID) offers) ErrNotFound);
  _ ← ensure_tx configured ErrUnavailable;
  env ← ask;
  let now := now_ env in
  _ ← canPropose o now;
  _ ← ensure_tx (same (f_Status selected) OfferOpen
                 && negb (same (f_CourierID selected) (o_RequesterID o))
                 && (o_RewardCredits o <? f_Credits selected)) ErrPrecondition;
  let attempt := new_attempt (newID env 0%nat) o selected caller AcceptOfferMethod
                   EmptyString EmptyString now in
  _ ← InsertAssignment attempt;
  change ← metadata o (cl_ID caller) BeginAssignment now;
  mret (attempt, Some (change <| c_Offers :=
    [{| oc_Offer := selected <| f_Status := OfferAccepting |> <| f_UpdatedAt := now |>;
        oc_ExpectedStatus := OfferOpen |}] |>)).

(** An attempt that lacked credits may be tried again; any other answers the
    call. *)
Definition accept_offer_build (configured : bool) (caller : Caller) (offerID : string)
    (o : Order) (offers : list Offer) : TX (AssignmentAttempt * option Change) :=
  _ ← ensure_tx (IsRequestedBy o (cl_ID caller)) ErrNotFound;
  previous ← OfferAssignment offerID;
  let again := match previous with
               | Some w => same (w_Phase w) AssignmentRejected
                           && same (w_Rejection w) "insufficient_credits"
               | None => true
               end in
  match previous with
  | Some w => if again then begin_counteroffer configured caller offerID o offers
              else mret (w, None)
  | None => begin_counteroffer configured caller offerID o offers
  end.

(** Reads outside a transaction (OfferOrderID, AssignmentOrderID). *)
Definition OfferOrderID (offerID : string) (d : ODB) : result Error string :=
  id ← parseID offerID;
  from_option_ok (AssignmentOfferOrder id d) ErrNotFound.

Definition AssignmentOrderID (attemptID : string) (d : ODB) : result Error string :=
  id ← parseID attemptID;
  from_option_ok (at_OrderID <$> GetAssignmentAttempt id d) ErrNotFound.

Definition accept_offer_tx (configured : bool) (caller : Caller) (offerID orderID : string)
    : TX AssignmentAttempt :=
  assign_mutate orderID None (accept_offer_build configured caller offerID).

(** ** Processing an attempt (assignmentrecovery.go) *)

Definition assignmentLease : Duration := 15 * Second.

(** The order can still be assigned. *)
Definition available (o : Order) (now : Time) : bool :=
  same (o_Status o) AwaitingCourier && After (o_ExpiresAt o) now.

(** Nothing to claim: resolved, leased, or not due. *)
Definition not_due (w : AssignmentAttempt) (o : Order) (now : Time) : bool :=
  IsResolved w || After (w_LeaseUntil w) now
  || (After (w_NextAttemptAt w) now
      && (negb (same (w_Phase w) AdjustmentPending) || available o now)).

(** The claim of one financial step, with its lease and generation. *)
Definition claim_of (w : AssignmentAttempt) (o : Order) (now : Time) : AssignmentAttempt :=
  let w := if available o now then w
           else w <| w_Phase := RevertPending |> <| w_Rejection := "order_unavailable" |> in
  w <| w_Generation := add64 (w_Generation w) 1 |> <| w_Attempts := wrap32 (w_Attempts w + 1) |>
    <| w_LeaseUntil := now + assignmentLease |> <| w_UpdatedAt := now |>.

Definition claim_build (attemptID : string) (orderID : string) (o : Order) (_ : list Offer)
    : TX (option AssignmentAttempt * option Change) :=
  w ← FindAssignment attemptID;
  env ← ask;
  let now := now_ env in
  if not_due w o now then mret (None, None)
  else
    active ← ActiveAssignment orderID;
    _ ← ensure_tx (match active with Some a => same (w_ID a) (w_ID w) | None => false end) ErrConflict;
    let claimed := claim_of w o now in
    _ ← SaveAssignment claimed (w_Generation w);
    mret (Some claimed, None).

(** resolveOffer never reactivates an offer that another action has voided. *)
Definition resolveOffer (o : Order) (offers : list Offer) (w : AssignmentAttempt)
    (status : OfferStatus) (now : Time) : TX Change :=
  change ← metadata o (w_CallerID w) ResolveAssignment now;
  match find_first (λ f, same (f_ID f) (w_OfferID w)) offers with
  | None => fail ErrIdempotencyIntegrity
  | Some f =>
      _ ← ensure_tx (same (f_Status f) OfferAccepting || same (f_Status f) OfferVoid) ErrConflict;
      let status := if decide (f_Status f = OfferVoid) then OfferVoid else status in
      mret (change <| c_Offers :=
        [{| oc_Offer := f <| f_Status := status |> <| f_UpdatedAt := now |>;
            oc_ExpectedStatus := f_Status f |}] |>)
  end.

(** The offers of an assignment: the accepted one, and every open one void. *)
Fixpoint assign_offers (w : AssignmentAttempt) (now : Time) (offers : list Offer)
    : result Error (list OfferChange * bool) :=
  match offers with
  | [] => mret ([], false)
  | f :: rest =>
      if decide (f_ID f = w_OfferID w) then
        _ ← guard_ok (same (f_Status f) OfferAccepting && same (f_CourierID f) (w_CourierID w)
                      && (f_Credits f =? w_Amount w)) ErrConflict;
        '(changes, _) ← assign_offers w now rest;
        mret ({| oc_Offer := f <| f_Status := OfferAccepted |> <| f_UpdatedAt := now |>;
                 oc_ExpectedStatus := OfferAccepting |} :: changes, true)
      else if decide (f_Status f = OfferOpen) then
        '(changes, found) ← assign_offers w now rest;
        mret (void_offer now f :: changes, found)
      else assign_offers w now rest
  end.

(** The order as an assignment leaves it. *)
Definition assigned (o : Order) (w : AssignmentAttempt) (next : Status) (now : Time) : Order :=
  next_revision (o <| o_Status := next |> <| o_CourierID := Some (w_CourierID w) |>
    <| o_RewardCredits := w_Amount w |> <| o_ReservedCredits := w_Amount w |>
    <| o_AssignedAt := Some now |> <| o_UpdatedAt := now |>).

Definition assignChange (ids : nat → string) (o : Order) (offers : list Offer)
    (w : AssignmentAttempt) (now : Time) : result Error Change :=
  _ ← guard_ok (negb (same (w_CourierID w) (o_RequesterID o))) ErrForbidden;
  let action := if decide (w_Method w = AcceptOrderMethod) then Assign else AcceptCounteroffer in
  let actor := {| a_Kind := User; a_ID := w_CallerID w |} in
  '(next, repeat) ← Transition o action actor;
  _ ← guard_ok (negb repeat) ErrConflict;
  change ← NewChange (Some o) (assigned o w next now) actor action None ids;
  '(changes, found) ← assign_offers w now offers;
  _ ← guard_ok found ErrIdempotencyIntegrity;
  mret (change <| c_Offers := changes |>).

(** What the observation means for the claimed attempt: its next state, the
    change that goes with it, and whether a revert should follow at once. *)
Definition resolve (w : AssignmentAttempt) (observation : assignmentObservation) (o : Order)
    (offers : list Offer) (now : Time) : TX (AssignmentAttempt * option Change * bool) :=
  if decide (w_Phase w = RevertPending) then
    if confirmsRevert (ob_reservation observation) w o then
      let status := if negb (same (w_Method w) AcceptOrderMethod)
                       && same (w_Rejection w) "insufficient_credits" && available o now
                    then OfferOpen else OfferVoid in
      change ← resolveOffer o offers w status now;
      mret (w <| w_Phase := AssignmentRejected |>, Some change, false)
    else mret (w, None, false)
  else if negb (available o now) then
    mret (w <| w_Phase := RevertPending |> <| w_Rejection := "order_unavailable" |>, None, true)
  else if ob_refused observation then
    mret (w <| w_Phase := RevertPending |> <| w_Rejection := "insufficient_credits" |>, None, true)
  else if confirmsAdjustment (ob_reservation observation) w o then
    env ← ask;
    change ← lift (assignChange (newID env) o offers w now);
    mret (w <| w_Phase := AssignmentSucceeded |>, Some change, false)
  else mret (w, None, false).

(** The pacing of the next step. *)
Definition paced (env : Env) (o : Order) (revertReady : bool) (w : AssignmentAttempt)
    : AssignmentAttempt :=
  let now := now_ env in
  let next := now + creationRetryDelay (jitter env) (w_Attempts w) in
  let next := if same (w_Phase w) AdjustmentPending && Before (o_ExpiresAt o) next
              then o_ExpiresAt o else next in
  w <| w_LeaseUntil := now |> <| w_UpdatedAt := now |>
    <| w_NextAttemptAt := if revertReady then now else next |>.

(** The claim is still this step's: same generation and phase, lease running. *)
Definition still_claimed (w claimed : AssignmentAttempt) (now : Time) : bool :=
  negb (IsResolved w) && (w_Generation w =? w_Generation claimed)
  && same (w_Phase w) (w_Phase claimed) && After (w_LeaseUntil w) now.

Definition finish_build (attemptID : string) (claimed : AssignmentAttempt)
    (observation : assignmentObservation) (o : Order) (offers : list Offer)
    : TX (bool * option Change) :=
  w ← FindAssignment attemptID;
  env ← ask;
  let now := now_ env in
  if negb (still_claimed w claimed now) then mret (false, None)
  else
    '(next, change, revertReady) ← resolve w observation o offers now;
    let next := paced env o revertReady next in
    _ ← SaveAssignment next (w_Generation next);
    mret (revertReady, change).

(** One financial step: the surroundings of its two transactions, Credit's
    replies, and what other transactions do in between. *)
Record Round := {
  rd_claim : Env * Faults;
  rd_credit : AssignmentCredit;
  rd_meanwhile : ODB → ODB;
  rd_finish : Env * Faults;
}.

Definition claim_step (r : Round) (orderID attemptID : string)
    : ODB → result Error (option AssignmentAttempt) * ODB :=
  within_tx (rd_claim r).1 (rd_claim r).2 (assign_mutate orderID None (claim_build attemptID orderID)).

Definition finish_step (r : Round) (orderID attemptID : string) (claimed : AssignmentAttempt)
    : ODB → result Error bool * ODB :=
  within_tx (rd_finish r).1 (rd_finish r).2
    (assign_mutate orderID None
       (finish_build attemptID claimed (observeAssignment (rd_credit r) claimed))).

(** ProcessAssignment; [None] when the rounds run out. *)
Fixpoint ProcessAssignment (rounds : list Round) (attemptID : string) (d : ODB)
    : option (result Error unit) * ODB :=
  match AssignmentOrderID attemptID d with
  | Err e => (Some (Err e), d)
  | Ok orderID =>
      match rounds with
      | [] => (None, d)
      | r :: rest =>
          match claim_step r orderID attemptID d with
          | (Err e, d1) => (Some (Err e), d1)
          | (Ok None, d1) => (Some (Ok tt), d1)
          | (Ok (Some claimed), d1) =>
              match finish_step r orderID attemptID claimed (rd_meanwhile r d1) with
              | (Err e, d2) => (Some (Err e), d2)
              | (Ok false, d2) => (Some (Ok tt), d2)
              | (Ok true, d2) => ProcessAssignment rest attemptID d2
              end
          end
      end
  end.

(** ** The result of an acceptance *)

Definition result_build (caller : Caller) (attemptID : string) (o : Order) (offers : list Offer)
    : TX (AssignmentResult * option Change) :=
  current ← FindAssignment attemptID;
  _ ← ensure_tx (same (w_CallerID current) (cl_ID caller)) ErrNotFound;
  let offer := find_last (λ f, same (f_ID f) (w_OfferID current)) offers in
  _ ← ensure_tx (is_some offer || (same (w_Phase current) AssignmentRejected
                                   && negb (nonempty (w_OfferID current)))) ErrIdempotencyIntegrity;
  mret ({| ar_Order := o; ar_Offer := offer; ar_AttemptID := w_ID current;
           ar_Phase := w_Phase current; ar_Rejection := w_Rejection current |}, None).

(** resumeAssignment, once its inline processing has returned [processed]. *)
Definition resumed (caller : Caller) (a : AssignmentAttempt) (processed : result Error unit)
    (env : Env) (fl : Faults) (d : ODB) : result Error AssignmentResult * ODB :=
  match processed with
  | Err _ => (Err ErrUnavailable, d)
  | Ok _ => within_tx env fl (assign_mutate (w_OrderID a) None (result_build caller (w_ID a))) d
  end.

Definition resumeAssignment (configured : bool) (rounds : list Round) (caller : Caller)
    (a : AssignmentAttempt) (env : Env) (fl : Faults) (d : ODB)
    : option (result Error AssignmentResult) * ODB :=
  if negb (IsResolved a) && configured then
    match ProcessAssignment rounds (w_ID a) d with
    | (None, d1) => (None, d1)
    | (Some processed, d1) =>
        let '(out, d2) := resumed caller a processed env fl d1 in (Some out, d2)
    end
  else let '(out, d2) := resumed caller a (Ok tt) env fl d in (Some out, d2).

(** The admission, then the processing of the admitted attempt. *)
Definition AcceptOrder (configured : bool) (rounds : list Round) (caller : Caller)
    (orderID key : string) (env env' : Env) (fl fl' : Faults) (d : ODB)
    : option (result Error AssignmentResult) * ODB :=
  match assignmentCaller caller, within_tx env fl (accept_order_tx configured caller orderID key) d with
  | Ok caller, (Ok attempt, d1) => resumeAssignment configured rounds caller attempt env' fl' d1
  | Ok _, (Err e, d1) => (Some (Err e), d1)
  | Err e, _ => (Some (Err e), d)
  end.

Definition AcceptOffer (configured : bool) (rounds : list Round) (caller : Caller)
    (offerID : string) (env env' : Env) (fl fl' : Faults) (d : ODB)
    : option (result Error AssignmentResult) * ODB :=
  match (c ← assignmentCaller caller; id ← parseID offerID; o ← OfferOrderID id d; mret (c, id, o)) with
  | Err e => (Some (Err e), d)
  | Ok (caller, id, orderID) =>
      match within_tx env fl (accept_offer_tx configured caller id orderID) d with
      | (Ok attempt, d1) => resumeAssignment configured rounds caller attempt env' fl' d1
      | (Err e, d1) => (Some (Err e), d1)
      end
  end.

End assignment.
