(* ===== verification/OrderCancellation.v ===== *)
(** * Order: cancellation and withdrawal

    cancellation.go and cancellationrecovery.go: a participant cancels, or the
    assigned courier withdraws before pickup. A withdrawal first records its
    intent, then reverts the courier's hold at Credit, and only reopens the
    order once Credit confirms that the original hold is back. *)
From stdpp Require Import prelude gmap strings list pretty.
From Stdlib Require Import ZArith.
From S2P Require Import Prelude.
From S2P Require Import GoLib.
From S2P Require Import GoText.
From S2P Require Import OrderTypes.
From S2P Require Import OrderPolicy.
From S2P Require Import OrderDB.
From S2P Require Import OrderStore.
From S2P Require Import OrderProgress.
From S2P Require Import OrderAssignment.

Local Open Scope Z_scope.
Local Open Scope foc_scope.

Section cancellation.
  Context `{UUID, Digest}.

(** ** Request keys *)

Record cancellationRequestKey := {
  rk_Scope : IdempotencyScope;
  rk_Key : string;
  rk_RequestHash : string;
  rk_legacyHash : string;
}.

(** A legacy hash is accepted only of an already retained key. *)
Definition checkRetainedHash (k : cancellationRequestKey) (stored : IdempotencyKey)
    : result Error unit :=
  if decide (ik_RequestHash stored = rk_legacyHash k) then Ok tt
  else CheckRequestHash stored (rk_RequestHash k).

(** json.Marshal of a list of two strings. *)
Definition marshal_pair (a b : string) : string :=
  "[" +:+ Marshal (JString a) +:+ "," +:+ Marshal (JString b) +:+ "]".

Definition cancellationHash (id reason : string) (revision : option Z) : string :=
  sha256_hex (match revision with
    | None => marshal_pair id reason
    | Some n => Marshal (JObject [("ID", JString id); ("Reason", JString reason); ("Revision", JInt n)])
    end).

(** ** The mutation of a cancellation transaction *)

(** The retained payload is compared before the requested order is loaded. *)
Definition check_retained (requestKey : option cancellationRequestKey) : TX unit :=
  match requestKey with
  | None => mret tt
  | Some k =>
      _ ← LockIdempotencyCaller (rk_Scope k);
      stored ← FindIdempotencyKey (rk_Scope k) (rk_Key k);
      match stored with
      | Some stored => lift (checkRetainedHash k stored)
      | None => mret tt
      end
  end.

(** Canceller.mutate. *)
Definition cancel_mutate {A} (id : string) (requestKey : option cancellationRequestKey)
    (build : Order → list Offer → TX (A * option Change)) : TX A :=
  WithinCancellation (
    _ ← check_retained requestKey;
    Mutate Apply id build).

(** ** Admission *)

(** A retained operation answers its repeated call. *)
Definition replay_cancellation (k : cancellationRequestKey) (callerID orderID reason : string)
    (stored : IdempotencyKey) : TX Cancellation :=
  _ ← lift (checkRetainedHash k stored);
  operation ← catch (FindCancellation (ik_ResourceID stored)) (λ _, fail ErrIdempotencyIntegrity);
  _ ← ensure_tx (same (k_CallerID operation) callerID && same (k_OrderID operation) orderID
                 && same (k_Reason operation) reason) ErrIdempotencyIntegrity;
  mret operation.

(** Keep the operation under the request key. *)
Definition retain (requestKey : option cancellationRequestKey) (operation : Cancellation) : TX unit :=
  match requestKey with
  | None => mret tt
  | Some k => InsertIdempotencyKey
                (acceptanceKey (rk_Scope k) (rk_Key k) (rk_RequestHash k) (k_ID operation))
  end.

(** The courier's withdrawal is already pending: join it. *)
Definition join_pending (requestKey : option cancellationRequestKey) (callerID reason : string)
    (pendingID : string) : TX (Cancellation * option Change) :=
  operation ← FindCancellation pendingID;
  _ ← ensure_tx (same (k_Status operation) CancellationPending && same (k_CallerID operation) callerID)
                ErrIdempotencyIntegrity;
  _ ← ensure_tx (same (k_Reason operation) reason) ErrConflict;
  _ ← retain requestKey operation;
  mret (operation, None).

Definition new_cancellation (id : string) (o : Order) (callerID reason : string) (now : Time)
    : Cancellation :=
  mkCancellation id (o_ID o) callerID reason CancellationSucceeded EmptyString EmptyString None 0 0 0
    now now now now.

(** A withdrawal keeps the assignment that it will revert. *)
Definition begin_withdrawal (configured : bool) (callerID : string) (o : Order)
    (operation : Cancellation) (after : Order) : TX (Cancellation * Order) :=
  _ ← ensure_tx configured ErrPrecondition;
  let operation := operation <| k_Status := CancellationPending |> <| k_CourierID := callerID |>
                             <| k_AssignedAt := o_AssignedAt o |> in
  assignment ← tx_CurrentSuccessfulAssignment (o_ID o);
  let operation := match assignment with
    | Some w => operation <| k_AssignmentID := w_ID w |> <| k_OriginalAmount := w_OriginalAmount w |>
    | None => operation
    end in
  mret (operation, after <| o_PendingCancellationID := Some (k_ID operation) |>).

(** A cancellation supersedes a pending withdrawal. *)
Definition supersede (now : Time) (pendingID : option string) : TX unit :=
  match pendingID with
  | None => mret tt
  | Some id =>
      pending ← FindCancellation id;
      SaveCancellation (pending <| k_Status := CancellationSuperseded |> <| k_UpdatedAt := now |>
                          <| k_Generation := add64 (k_Generation pending) 1 |>) (k_Generation pending)
  end.

(** An in-flight adjustment is fenced, its compensation persisted. *)
Definition fence_active (now : Time) (orderID : string) : TX unit :=
  active ← ActiveAssignment orderID;
  match active with
  | None => mret tt
  | Some w =>
      SaveAssignment (w <| w_Generation := add64 (w_Generation w) 1 |> <| w_Phase := RevertPending |>
                        <| w_Rejection := "order_unavailable" |> <| w_LeaseUntil := now |>
                        <| w_NextAttemptAt := now |> <| w_UpdatedAt := now |>) (w_Generation w)
  end.

(** The order as a cancellation closes it. *)
Definition cancelled_order (o : Order) (next : Status) (reason : string) (now : Time) : Order :=
  next_revision (o <| o_UpdatedAt := now |> <| o_Status := next |> <| o_ClosedAt := Some now |>
    <| o_CloseReason := if nonempty reason then Some reason else None |>
    <| o_PendingCancellationID := None |>).

Definition begin_cancellation (o : Order) (next : Status) (reason : string) (now : Time)
    (operation : Cancellation) : TX (Cancellation * Order) :=
  _ ← supersede now (o_PendingCancellationID o);
  _ ← fence_active now (o_ID o);
  mret (operation, cancelled_order o next reason now).

(** The map's keys are sorted. *)
Definition cancel_details (operationID reason : string) (holds_item : bool) : json :=
  JObject [("courier_holds_item", JBool holds_item); ("operation_id", JString operationID);
           ("reason", JString reason)].

(** New intent, authorised against the locked aggregate. *)
Definition admit_cancellation (configured : bool) (requestKey : option cancellationRequestKey)
    (callerID reason : string) (now : Time) (o : Order) (offers : list Offer)
    : TX (Cancellation * option Change) :=
  let withdraw := same (o_Status o) AwaitingPickup && IsAssignedTo o callerID in
  let actor := {| a_Kind := User; a_ID := callerID |} in
  '(next, _) ← lift (Transition o (if withdraw then Withdraw else Cancel) actor);
  env ← ask;
  let operation := new_cancellation (newID env 0%nat) o callerID reason now in
  '(operation, after) ←
    (if withdraw
     then begin_withdrawal configured callerID o operation (next_revision o <| o_UpdatedAt := now |>)
     else begin_cancellation o next reason now operation);
  _ ← tx_InsertCancellation operation;
  _ ← retain requestKey operation;
  change ← lift (NewChange (Some o) after actor (if withdraw then BeginWithdrawal else Cancel)
                   (Some (cancel_details (k_ID operation) reason (is_some (o_PickedUpAt o))))
                   (λ i, newID env (S i)));
  mret (operation, Some (if withdraw then change else change <| c_Offers := void_offers now offers |>)).

Definition cancel_build (configured : bool) (requestKey : option cancellationRequestKey)
    (callerID orderID reason : string) (revision : option Z) (o : Order) (offers : list Offer)
    : TX (Cancellation * option Change) :=
  stored ← (match requestKey with
            | Some k => stored ← FindIdempotencyKey (rk_Scope k) (rk_Key k);
                        mret ((λ s, (k, s)) <$> stored)
            | None => mret None
            end);
  match stored with
  | Some (k, stored) =>
      operation ← replay_cancellation k callerID orderID reason stored;
      mret (operation, None)
  | None =>
      _ ← ensure_tx (HasParticipant o callerID) ErrForbidden;
      _ ← ensure_tx (match revision with Some n => o_Revision o =? n | None => true end) ErrConflict;
      env ← ask;
      let now := now_ env in
      match o_PendingCancellationID o with
      | Some pendingID =>
          if IsAssignedTo o callerID then join_pending requestKey callerID reason pendingID
          else admit_cancellation configured requestKey callerID reason now o offers
      | None => admit_cancellation configured requestKey callerID reason now o offers
      end
  end.

(** The validated arguments of a cancellation. *)
Record cancel_request := {
  cq_CallerID : string;
  cq_OrderID : string;
  cq_Reason : string;
  cq_Key : option cancellationRequestKey;
}.

Definition reason_ok (reason : string) : bool :=
  ValidString reason && (RuneCountInString reason <=? 500).

Definition cancel_args (caller : Caller) (orderID reason key : string) (revision : option Z)
    : result Error cancel_request :=
  cid ← match parseID (cl_ID caller) with Ok v => Ok v | Err _ => Err ErrForbidden end;
  oid ← parseID orderID;
  let reason := TrimSpace reason in
  _ ← guard_ok (reason_ok reason) ErrInvalid;
  requestKey ← (if nonempty key then
                  kid ← parseID key;
                  mret (Some {| rk_Scope := {| CallerID := cid; Method := CancelOrderMethod |};
                                rk_Key := kid; rk_RequestHash := cancellationHash oid reason revision;
                                rk_legacyHash := cancellationHash oid reason None |})
                else mret None);
  mret {| cq_CallerID := cid; cq_OrderID := oid; cq_Reason := reason; cq_Key := requestKey |}.

(** The admission transaction of cancel. *)
Definition cancel_tx (configured : bool) (q : cancel_request) (revision : option Z) : TX Cancellation :=
  cancel_mutate (cq_OrderID q) (cq_Key q)
    (cancel_build configured (cq_Key q) (cq_CallerID q) (cq_OrderID q) (cq_Reason q) revision).

(** ** Processing a withdrawal (cancellationrecovery.go) *)

Definition matchesWithdrawal (o : Order) (w : Cancellation) : bool :=
  same (o_Status o) AwaitingPickup && same (o_PendingCancellationID o) (Some (k_ID w))
  && IsAssignedTo o (k_CourierID w)
  && match o_AssignedAt o, k_AssignedAt w with Some t, Some u => t =? u | _, _ => false end
  && negb (is_some (o_PickedUpAt o)).

Definition confirmsWithdrawal (v : option AssignmentReservation) (w : Cancellation) (o : Order) : bool :=
  match v with
  | None => false
  | Some v =>
      nonempty (k_AssignmentID w) && (0 <? k_OriginalAmount w)
      && same (v_OrderID v) (k_OrderID w) && same (v_RequesterID v) (o_RequesterID o)
      && same (v_State v) "held" && (v_OriginalAmount v =? k_OriginalAmount w)
      && (v_ReservedAmount v =? k_OriginalAmount w)
      && negb (nonempty (v_OfferID v)) && negb (nonempty (v_CourierID v))
  end.

Definition claim_cancellation_build (operationID : string) (o : Order) (_ : list Offer)
    : TX (option Cancellation * option Change) :=
  w ← FindCancellation operationID;
  env ← ask;
  let now := now_ env in
  if negb (same (k_Status w) CancellationPending) || After (k_LeaseUntil w) now
     || After (k_NextAttemptAt w) now
  then mret (None, None)
  else
    _ ← ensure_tx (matchesWithdrawal o w) ErrConflict;
    let claimed := w <| k_Generation := add64 (k_Generation w) 1 |>
                     <| k_Attempts := wrap32 (k_Attempts w + 1) |>
                     <| k_LeaseUntil := now + assignmentLease |> <| k_UpdatedAt := now |> in
    _ ← SaveCancellation claimed (k_Generation w);
    mret (Some claimed, None).

(** Without a durable adjustment identity nothing may be observed; otherwise
    the revert must be acknowledged first. *)
Definition observeCancellation (credit : AssignmentCredit) (w : Cancellation)
    : option AssignmentReservation :=
  if nonempty (k_AssignmentID w) && (0 <? k_OriginalAmount w)
     && same (Revert credit (k_OrderID w) (k_AssignmentID w)) Acknowledged
  then GetAssignmentReservation credit (k_OrderID w)
  else None.

(** The order as a confirmed withdrawal reopens it. *)
Definition reopened (o : Order) (w : Cancellation) (now : Time) : Order :=
  next_revision (o <| o_Status := AwaitingCourier |> <| o_CourierID := None |>
    <| o_AssignedAt := None |> <| o_PendingCancellationID := None |>
    <| o_RewardCredits := k_OriginalAmount w |> <| o_ReservedCredits := k_OriginalAmount w |>
    <| o_UpdatedAt := now |>).

Definition finish_cancellation_build (operationID : string) (claimed : Cancellation)
    (view : option AssignmentReservation) (o : Order) (_ : list Offer)
    : TX (unit * option Change) :=
  w ← FindCancellation operationID;
  env ← ask;
  let now := now_ env in
  if negb (same (k_Status w) CancellationPending) || negb (k_Generation w =? k_Generation claimed)
     || negb (After (k_LeaseUntil w) now)
  then mret (tt, None)
  else
    _ ← ensure_tx (matchesWithdrawal o w) ErrConflict;
    '(next, change) ← (if confirmsWithdrawal view w o then
        c ← lift (NewChange (Some o) (reopened o w now) {| a_Kind := User; a_ID := k_CallerID w |}
                    Withdraw None (newID env));
        mret (w <| k_Status := CancellationSucceeded |>, Some c)
      else mret (w, None));
    _ ← SaveCancellation (next <| k_LeaseUntil := now |> <| k_UpdatedAt := now |>
          <| k_NextAttemptAt := now + creationRetryDelay (jitter env) (k_Attempts w) |>)
          (k_Generation w);
    mret (tt, change).

Definition CancellationOrderID (operationID : string) (d : ODB) : result Error string :=
  id ← parseID operationID;
  from_option_ok (kr_OrderID <$> GetCancellation id d) ErrNotFound.

(** ProcessCancellation leases one reversal. *)
Definition ProcessCancellation (r : Round) (operationID : string) (d : ODB)
    : result Error unit * ODB :=
  match CancellationOrderID operationID d with
  | Err e => (Err e, d)
  | Ok orderID =>
      match within_tx (rd_claim r).1 (rd_claim r).2
              (cancel_mutate orderID None (claim_cancellation_build operationID)) d with
      | (Err e, d1) => (Err e, d1)
      | (Ok None, d1) => (Ok tt, d1)
      | (Ok (Some claimed), d1) =>
          within_tx (rd_finish r).1 (rd_finish r).2
            (cancel_mutate orderID None
               (finish_cancellation_build operationID claimed
                  (observeCancellation (rd_credit r) claimed))) (rd_meanwhile r d1)
      end
  end.

Definition cancellation_result_build (operationID : string) (o : Order) (_ : list Offer)
    : TX (CancellationResult * option Change) :=
  current ← FindCancellation operationID;
  mret ({| cr_Order := o; cr_OperationID := k_ID current; cr_Status := k_Status current |}, None).

(** cancel: the admission, the inline reversal, and the current result. *)
Definition cancel (configured : bool) (r : Round) (caller : Caller) (orderID reason key : string)
    (revision : option Z) (env env' : Env) (fl fl' : Faults) (d : ODB)
    : result Error CancellationResult * ODB :=
  match cancel_args caller orderID reason key revision with
  | Err e => (Err e, d)
  | Ok q =>
      match within_tx env fl (cancel_tx configured q revision) d with
      | (Err e, d1) => (Err e, d1)
      | (Ok operation, d1) =>
          let '(processed, d2) :=
            if same (k_Status operation) CancellationPending && configured
            then ProcessCancellation r (k_ID operation) d1 else (Ok tt, d1) in
          match processed with
          | Err _ => (Err ErrUnavailable, d2)
          | Ok _ => within_tx env' fl' (cancel_mutate (cq_OrderID q) None
                      (cancellation_result_build (k_ID operation))) d2
          end
      end
  end.

(** Canceller.Cancel and CancelConfirmed. *)
Definition Cancel_ (configured : bool) (r : Round) (caller : Caller) (orderID reason key : string) :=
  cancel configured r caller orderID reason key None.

Definition CancelConfirmed (configured : bool) (r : Round) (caller : Caller)
    (orderID reason key : string) (revision : Z) (env env' : Env) (fl fl' : Faults) (d : ODB)
    : result Error CancellationResult * ODB :=
  if revision <=? 0 then (Err ErrInvalid, d)
  else cancel configured r caller orderID reason key (Some revision) env env' fl fl' d.

End cancellation.
