(* ===== verification/OrderCreationStore.v ===== *)
(** * Order: creation workflows and item images, stored

    order-service/database/query/creation.sql and images.sql, and the
    transaction's share of postgrescreation.go and postgresimages.go; then
    itemimages.go. *)
From stdpp Require Import prelude gmap strings list sorting.
From Stdlib Require Import ZArith.
From S2P Require Import Prelude.
From S2P Require Import GoLib.
From S2P Require Import GoText.
From S2P Require Import OrderTypes.
From S2P Require Import OrderPolicy.
From S2P Require Import OrderDB.
From S2P Require Import OrderStore.

Local Open Scope Z_scope.
Local Open Scope foc_scope.

(** ** order_creation_workflows *)

Definition workflow_pending (p : CreationPhase) : bool :=
  match p with ReservePending | AbortPending => true | _ => false end.

(** An object, as jsonb_typeof says. *)
Definition is_object (v : json) : bool := match v with JObject _ => true | _ => false end.

Definition workflows_check (w : WorkflowRow) : bool :=
  (wf_CanonicalVersion w =? 1) && is_object (wf_CanonicalRequest w)
  && (RuneCountInString (wf_RequestHash w) =? 64) && (0 <? wf_ReservationAmount w)
  && (0 <=? wf_Generation w) && (0 <=? wf_Attempts w)
  && (RuneCountInString (wf_LastError w) <=? 128)
  && Bool.eqb (same (wf_Phase w) CreationOpened) (is_some (wf_Result w))
  && Bool.eqb (same (wf_Phase w) CreationRejected) (negb (same (wf_Rejection w) NoRejection)).

Definition stored_workflow (w : WorkflowRow) : WorkflowRow := {|
  wf_ID := wf_ID w; wf_OrderID := wf_OrderID w; wf_RequesterID := wf_RequesterID w;
  wf_CanonicalVersion := wf_CanonicalVersion w; wf_CanonicalRequest := wf_CanonicalRequest w;
  wf_RequestHash := wf_RequestHash w; wf_ReservationAmount := wf_ReservationAmount w;
  wf_ExpiresAt := stored_time (wf_ExpiresAt w); wf_Phase := wf_Phase w;
  wf_Generation := wf_Generation w; wf_Attempts := wf_Attempts w;
  wf_LeaseUntil := stored_time (wf_LeaseUntil w);
  wf_NextAttemptAt := stored_time (wf_NextAttemptAt w); wf_LastError := wf_LastError w;
  wf_Rejection := wf_Rejection w; wf_Result := wf_Result w;
  wf_CreatedAt := stored_time (wf_CreatedAt w); wf_UpdatedAt := stored_time (wf_UpdatedAt w) |}.

Definition GetCreationWorkflow (order : string) (db : ODB) : option WorkflowRow :=
  find_first (λ w, same (wf_OrderID w) order) (workflows db).
Definition GetCreationWorkflowByID (id : string) (db : ODB) : option WorkflowRow :=
  find_first (λ w, same (wf_ID w) id) (workflows db).
Definition LockCreationWorkflow : string → ODB → option WorkflowRow := GetCreationWorkflow.

Definition CountRecentCreations (requester : string) (since : Time) (db : ODB) : Z :=
  Z.of_nat (length (filter (λ kv, r_RequesterID kv.2 = requester ∧ stored_time since < r_CreatedAt kv.2)
    (map_to_list (orders db)))).

Definition InsertCreationWorkflow (w : WorkflowRow) (db : ODB) : result Error ODB :=
  let w := stored_workflow w in
  _ ← guard_ok (json_no_nul (wf_CanonicalRequest w)) untranslatable_character;
  _ ← check (workflows_check w);
  _ ← unique (forallb (λ v, negb (same (wf_ID v) (wf_ID w)) && negb (same (wf_OrderID v) (wf_OrderID w)))
                (workflows db));
  _ ← references (is_some (orders db !! wf_OrderID w));
  mret (db <| workflows := workflows db ++ [w] |>).

(** The columns UpdateCreationWorkflow sets, from [w]. *)
Definition updated_workflow (old w : WorkflowRow) : WorkflowRow := {|
  wf_ID := wf_ID old; wf_OrderID := wf_OrderID old; wf_RequesterID := wf_RequesterID old;
  wf_CanonicalVersion := wf_CanonicalVersion old; wf_CanonicalRequest := wf_CanonicalRequest old;
  wf_RequestHash := wf_RequestHash old; wf_ReservationAmount := wf_ReservationAmount old;
  wf_ExpiresAt := wf_ExpiresAt old; wf_Phase := wf_Phase w; wf_Generation := wf_Generation w;
  wf_Attempts := wf_Attempts w; wf_LeaseUntil := stored_time (wf_LeaseUntil w);
  wf_NextAttemptAt := stored_time (wf_NextAttemptAt w); wf_LastError := wf_LastError w;
  wf_Rejection := wf_Rejection w; wf_Result := wf_Result w; wf_CreatedAt := wf_CreatedAt old;
  wf_UpdatedAt := stored_time (wf_UpdatedAt w) |}.

(** UPDATE ... WHERE id AND generation = expected. *)
Definition UpdateCreationWorkflow (w : WorkflowRow) (expected : Z) (db : ODB)
    : result Error (ODB * Z) :=
  let matching v := same (wf_ID v) (wf_ID w) && (wf_Generation v =? expected) in
  let set v := if matching v then updated_workflow v w else v in
  let affected := filter (λ v, matching v = true) (workflows db) in
  _ ← check (forallb (λ v, workflows_check (set v)) affected);
  mret (db <| workflows := set <$> workflows db |>, Z.of_nat (length affected)).

Definition workflow_due (now : Time) (w : WorkflowRow) : bool :=
  workflow_pending (wf_Phase w) && (wf_LeaseUntil w <=? now)
  && ((wf_NextAttemptAt w <=? now)
      || (same (wf_Phase w) ReservePending && (wf_ExpiresAt w <=? now))).

Definition DueCreations (now : Time) (limit : Z) (db : ODB) : list string :=
  take (Z.to_nat limit) (snd <$> merge_sort due_order
    ((λ w, (wf_NextAttemptAt w, wf_OrderID w))
      <$> filter (λ w, workflow_due (stored_time now) w = true) (workflows db))).

Definition HasPendingCreations (db : ODB) : bool :=
  existsb (λ w, workflow_pending (wf_Phase w)) (workflows db).

(** ** order_item_images *)

Definition images_check (i : ImageRow) : bool :=
  validImageType (im_ContentType i) && within 1 10000000 (im_SizeBytes i)
  && match im_Ordinal i with Some n => within 0 4 n | None => true end
  && Bool.eqb (same (im_State i) ImageAttached) (is_some (im_OrderID i))
  && Bool.eqb (is_some (im_OrderID i)) (is_some (im_Ordinal i)).

(** UNIQUE(order_id, ordinal), where neither is NULL. *)
Definition image_clash (i j : ImageRow) : bool :=
  same (im_ObjectKey i) (im_ObjectKey j)
  || (is_some (im_OrderID i) && same (im_OrderID i) (im_OrderID j) && same (im_Ordinal i) (im_Ordinal j)).
Definition images_unique (i : ImageRow) (db : ODB) : bool :=
  bool_decide (map_Forall (λ id j, id = im_ID i ∨ image_clash i j = false) (images db)).

Definition stored_image (i : ImageRow) : ImageRow := {|
  im_ID := im_ID i; im_OwnerID := im_OwnerID i; im_ObjectKey := im_ObjectKey i;
  im_ContentType := im_ContentType i; im_SizeBytes := im_SizeBytes i; im_State := im_State i;
  im_OrderID := im_OrderID i; im_Ordinal := im_Ordinal i;
  im_CreatedAt := stored_time (im_CreatedAt i);
  im_UploadExpiresAt := stored_time (im_UploadExpiresAt i) |}.

Definition InsertItemImage (i : ImageRow) (db : ODB) : result Error ODB :=
  let i := stored_image i in
  _ ← check (images_check i);
  _ ← unique (negb (is_some (images db !! im_ID i)) && images_unique i db);
  mret (db <| images := <[im_ID i := i]> (images db) |>).

Definition GetItemImage (id owner : string) (db : ODB) : option ImageRow :=
  match images db !! id with
  | Some i => if decide (im_OwnerID i = owner) then Some i else None
  | None => None
  end.

Definition attached_image (i : ImageRow) (order : string) (ordinal : Z) : ImageRow := {|
  im_ID := im_ID i; im_OwnerID := im_OwnerID i; im_ObjectKey := im_ObjectKey i;
  im_ContentType := im_ContentType i; im_SizeBytes := im_SizeBytes i; im_State := ImageAttached;
  im_OrderID := Some order; im_Ordinal := Some ordinal; im_CreatedAt := im_CreatedAt i;
  im_UploadExpiresAt := im_UploadExpiresAt i |}.

(** UPDATE ... WHERE the row is still the upload that was inspected. *)
Definition AttachItemImage (id owner order : string) (ordinal : Z) (key : string) (size : Z)
    (content_type : string) (db : ODB) : result Error (ODB * Z) :=
  match images db !! id with
  | Some i =>
      if same (im_OwnerID i) owner && same (im_State i) ImageUploading && same (im_ObjectKey i) key
         && (im_SizeBytes i =? size) && same (im_ContentType i) content_type then
        let j := attached_image i order ordinal in
        _ ← check (images_check j);
        _ ← unique (images_unique j db);
        _ ← references (is_some (orders db !! order));
        mret (db <| images := <[id := j]> (images db) |>, 1)
      else mret (db, 0)
  | None => mret (db, 0)
  end.

Definition ordinal_le (i j : ImageRow) : Prop := default 0 (im_Ordinal i) ≤ default 0 (im_Ordinal j).
#[export] Instance ordinal_le_dec : RelDecision ordinal_le.
Proof. unfold RelDecision, ordinal_le. apply _. Defined.

Definition OrderItemImages (order : string) (db : ODB) : list ImageRow :=
  merge_sort ordinal_le (filter (λ i, im_OrderID i = Some order) (snd <$> map_to_list (images db))).

Definition deleting_image (i : ImageRow) : ImageRow := {|
  im_ID := im_ID i; im_OwnerID := im_OwnerID i; im_ObjectKey := im_ObjectKey i;
  im_ContentType := im_ContentType i; im_SizeBytes := im_SizeBytes i; im_State := ImageDeleting;
  im_OrderID := im_OrderID i; im_Ordinal := im_Ordinal i; im_CreatedAt := im_CreatedAt i;
  im_UploadExpiresAt := im_UploadExpiresAt i |}.

Definition orphan (before now : Time) (i : ImageRow) : bool :=
  negb (same (im_State i) ImageAttached) && (im_CreatedAt i <=? stored_time before)
  && (im_UploadExpiresAt i <=? stored_time now).

Definition ClaimOrphanImages (before now : Time) (db : ODB) : ODB * list ImageRow :=
  let due := (λ kv, (im_CreatedAt kv.2, kv.1))
               <$> filter (λ kv, orphan before now kv.2 = true) (map_to_list (images db)) in
  let ids := take 50 (snd <$> merge_sort due_order due) in
  let claimed := filter (λ kv, kv.1 ∈ ids) (images db) in
  (db <| images := (deleting_image <$> claimed) ∪ images db |>,
   deleting_image <$> (snd <$> map_to_list claimed)).

Definition DeleteOrphanImage (id : string) (db : ODB) : ODB :=
  match images db !! id with
  | Some i => if decide (im_State i = ImageDeleting) then db <| images := delete id (images db) |> else db
  | None => db
  end.

(** ** The transaction (postgrescreation.go) *)

Section store.
  Context `{UUID}.

Definition fromCreation (row : WorkflowRow) : result Error CreationWorkflow :=
  _ ← guard_ok (wf_CanonicalVersion row =? 1) (ErrOther "unknown creation payload version");
  mret {|
    cw_ID := wf_ID row; cw_OrderID := wf_OrderID row; cw_RequesterID := wf_RequesterID row;
    cw_Hash := wf_RequestHash row; cw_Canonical := wf_CanonicalRequest row;
    cw_Amount := wf_ReservationAmount row; cw_ExpiresAt := wf_ExpiresAt row;
    cw_Phase := wf_Phase row; cw_Generation := wf_Generation row; cw_Attempts := wf_Attempts row;
    cw_LeaseUntil := wf_LeaseUntil row; cw_NextAttemptAt := wf_NextAttemptAt row;
    cw_LastError := wf_LastError row; cw_Rejection := wf_Rejection row; cw_Result := wf_Result row;
    cw_CreatedAt := wf_CreatedAt row; cw_UpdatedAt := wf_UpdatedAt row |}.

Definition workflow_row (w : CreationWorkflow) (id order requester : string) : WorkflowRow := {|
  wf_ID := id; wf_OrderID := order; wf_RequesterID := requester; wf_CanonicalVersion := 1;
  wf_CanonicalRequest := cw_Canonical w; wf_RequestHash := cw_Hash w;
  wf_ReservationAmount := cw_Amount w; wf_ExpiresAt := cw_ExpiresAt w; wf_Phase := cw_Phase w;
  wf_Generation := cw_Generation w; wf_Attempts := cw_Attempts w;
  wf_LeaseUntil := cw_LeaseUntil w; wf_NextAttemptAt := cw_NextAttemptAt w;
  wf_LastError := cw_LastError w; wf_Rejection := cw_Rejection w; wf_Result := cw_Result w;
  wf_CreatedAt := cw_CreatedAt w; wf_UpdatedAt := cw_UpdatedAt w |}.

(** Resolve the resource before considering expiry: an unresolved workflow
    keeps its key, and a dangling one is an integrity failure. *)
Definition FindCreationKey (caller key : string) (now : Time) : TX (option CreationReplay) :=
  let scope := {| CallerID := caller; Method := CreateOrderMethod |} in
  stored ← FindIdempotencyKey scope key;
  match stored with
  | None => mret None
  | Some stored =>
      row ← query (GetCreationWorkflowByID (ik_ResourceID stored));
      match row with
      | None => refuse ErrIdempotencyIntegrity
      | Some row =>
          match fromCreation row with
          | Err _ => refuse ErrIdempotencyIntegrity
          | Ok w =>
              if negb (same (cw_RequesterID w) (CallerID (ik_Scope stored)))
                 || negb (same (cw_Hash w) (ik_RequestHash stored))
              then refuse ErrIdempotencyIntegrity
              else if creation_resolved w && negb (After (ik_ExpiresAt stored) now)
              then _ ← DeleteIdempotencyKey (ik_Scope stored) (ik_Key stored); mret None
              else mret (Some {| rp_Key := stored; rp_Workflow := w |})
          end
      end
  end.

Definition tx_CountRecentCreations (caller : string) (since : Time) : TX Z :=
  id ← lift (parseID caller);
  held ← caller_locked {| CallerID := id; Method := CreateOrderMethod |};
  _ ← ensure_tx held ErrPrecondition;
  query (CountRecentCreations id since).

(** The INSERT names no phase, generation, attempts, error, rejection or
    result: the columns' defaults. *)
Definition inserted_row (w : CreationWorkflow) (id order requester : string) : WorkflowRow :=
  workflow_row (w <| cw_Phase := ReservePending |> <| cw_Generation := 0 |> <| cw_Attempts := 0 |>
                  <| cw_LastError := EmptyString |> <| cw_Rejection := NoRejection |>
                  <| cw_Result := None |>) id order requester.

Definition InsertCreation (w : CreationWorkflow) (key : string) : TX unit :=
  id ← lift (parseID (cw_ID w));
  orderID ← lift (parseID (cw_OrderID w));
  caller ← lift (parseID (cw_RequesterID w));
  kid ← lift (parseID key);
  held ← caller_locked {| CallerID := caller; Method := CreateOrderMethod |};
  s ← get;
  if negb held || negb (bool_decide (orderID ∈ applied s)) || negb (same (cw_Phase w) ReservePending)
  then refuse ErrPrecondition
  else
    _ ← writeResult (exec_unit (InsertCreationWorkflow (inserted_row w id orderID caller)));
    InsertIdempotencyKey (creationIdempotencyKey w kid).

(** SKIP LOCKED: [busy] says that another transaction holds the row. *)
Definition TryLockCreationOrder (busy : bool) (orderID : string) : TX Order :=
  id ← lift (parseID orderID);
  row ← query (LockOrder id);
  row ← lift (from_option_ok (if busy then None else row) ErrNotFound);
  o ← lift (fromOrder row);
  _ ← modify (λ s, s <| locked := <[o_ID o := o]> (locked s) |>);
  mret o.

Definition LockCreation (orderID : string) : TX CreationWorkflow :=
  id ← lift (parseID orderID);
  l ← is_locked id;
  _ ← ensure_tx l ErrPrecondition;
  row ← query (LockCreationWorkflow id);
  row ← lift (from_option_ok row ErrNotFound);
  w ← lift (fromCreation row);
  _ ← modify (λ s, s <| creationBaselines := <[cw_ID w := w]> (creationBaselines s) |>);
  mret w.

(** What SaveCreation never lets a step change. *)
Definition creation_saveable (before w : CreationWorkflow) (expected : Z) : bool :=
  negb (creation_resolved before) && (cw_Generation before =? expected)
  && same (cw_OrderID w) (cw_OrderID before) && same (cw_RequesterID w) (cw_RequesterID before)
  && same (cw_Hash w) (cw_Hash before) && same (cw_Canonical w) (cw_Canonical before)
  && (cw_Amount w =? cw_Amount before) && (cw_ExpiresAt w =? cw_ExpiresAt before)
  && (cw_CreatedAt w =? cw_CreatedAt before)
  && (expected <=? cw_Generation w) && (cw_Generation w <=? add64 expected 1)
  && negb (same (cw_Phase before) AbortPending && negb (same (cw_Phase w) AbortPending)
           && negb (same (cw_Phase w) CreationRejected)).

(** json.Marshal of an order fails only on a time outside the years 0 to 9999. *)
Definition order_marshals (o : Order) : bool :=
  let ok t := is_some (format_time t) in
  let ok_opt t := match t with Some t => ok t | None => true end in
  ok (o_ExpiresAt o) && ok_opt (o_AssignedAt o) && ok_opt (o_PickedUpAt o)
  && ok_opt (o_DeliveredAt o) && ok_opt (o_CompletedAt o) && ok_opt (o_ClosedAt o)
  && ok (o_CreatedAt o) && ok (o_UpdatedAt o).

Definition SaveCreation (w : CreationWorkflow) (expected : Z) : TX unit :=
  s ← get;
  match creationBaselines s !! cw_ID w with
  | None => refuse ErrConflict
  | Some before =>
      if negb (creation_saveable before w expected) then refuse ErrConflict
      else if creation_resolved w && negb (bool_decide (cw_OrderID w ∈ applied s))
      then refuse ErrPrecondition
      else if negb (match cw_Result w with Some o => order_marshals o | None => true end)
      then refuse ErrMarshal
      else writeResult (
             n ← exec (UpdateCreationWorkflow
                         (workflow_row w (cw_ID w) (cw_OrderID w) (cw_RequesterID w)) expected);
             ensure_tx (n =? 1) ErrConflict)
  end.

(** ** Item images (postgresimages.go) *)

Definition fromItemImage (row : ImageRow) : ItemImageUpload := {|
  ii_ID := im_ID row; ii_OwnerID := im_OwnerID row; ii_Key := im_ObjectKey row;
  ii_ContentType := im_ContentType row; ii_State := im_State row; ii_SizeBytes := im_SizeBytes row;
  ii_CreatedAt := im_CreatedAt row; ii_UploadExpiresAt := im_UploadExpiresAt row |}.

Definition image_row (i : ItemImageUpload) : ImageRow := {|
  im_ID := ii_ID i; im_OwnerID := ii_OwnerID i; im_ObjectKey := ii_Key i;
  im_ContentType := ii_ContentType i; im_SizeBytes := ii_SizeBytes i; im_State := ImageUploading;
  im_OrderID := None; im_Ordinal := None; im_CreatedAt := ii_CreatedAt i;
  im_UploadExpiresAt := ii_UploadExpiresAt i |}.

Definition ItemImage (owner id : string) (d : ODB) : result Error ItemImageUpload :=
  oid ← parseID owner;
  iid ← parseID id;
  row ← from_option_ok (GetItemImage iid oid d) ErrNotFound;
  mret (fromItemImage row).

Fixpoint attach_images (owner orderID : string) (ordinal : Z) (items : list ItemImageUpload)
    : TX unit :=
  match items with
  | [] => mret tt
  | i :: rest =>
      if negb (same (ii_OwnerID i) owner) || negb (same (ii_State i) ImageUploading)
      then refuse ErrPrecondition
      else
        _ ← writeResult (
              n ← exec (AttachItemImage (ii_ID i) owner orderID ordinal (ii_Key i) (ii_SizeBytes i)
                          (ii_ContentType i));
              ensure_tx (n =? 1) ErrPrecondition);
        attach_images owner orderID (ordinal + 1) rest
  end.

Definition AttachCreationImages (owner orderID : string) (items : list ItemImageUpload) : TX unit :=
  held ← caller_locked {| CallerID := owner; Method := CreateOrderMethod |};
  s ← get;
  if (5 <? Z.of_nat (length items)) || negb held || negb (bool_decide (orderID ∈ applied s))
  then refuse ErrPrecondition
  else attach_images owner orderID 0 items.

End store.

(** * Item images

    itemimages.go: uploads of a requester's photos, their inspection before an
    order is admitted, their views and the cleanup of orphans. Object storage
    is an argument. *)

(** ** Object storage (internal/images/storage.go) *)

Record ObjectInfo := {
  oi_Exists : bool;
  oi_Size : Z;
  oi_ContentType : string;
}.

Inductive Inspection :=
| ObjectNotFound
| InspectionFailed
| Inspected (info : ObjectInfo).

(** The object is the one that was announced. *)
Definition object_matches (info : ObjectInfo) (size : Z) (content_type : string) : bool :=
  oi_Exists info && (oi_Size info =? size) && (1 <=? oi_Size info) && (oi_Size info <=? MaxImageBytes)
  && same (oi_ContentType info) content_type.

Section images.
  Context `{UUID}.

(** ** Uploads *)

Definition new_image (id owner contentType : string) (size : Z) (now : Time) : ItemImageUpload := {|
  ii_ID := id; ii_OwnerID := owner; ii_Key := "order/item/" +:+ id; ii_ContentType := contentType;
  ii_State := ImageUploading; ii_SizeBytes := size; ii_CreatedAt := now;
  ii_UploadExpiresAt := now + ImageUploadLifetime |}.

(** CreateUpload; [granted] says that storage signed the upload. The row is
    kept when signing fails: cleanup collects it. *)
Definition image_CreateUpload (stored granted : bool) (caller : Caller) (contentType : string)
    (size : Z) (env : Env) (d : ODB) : result Error ItemImageUpload * ODB :=
  if negb (nonempty (cl_ID caller)) || cl_Suspended caller then (Err ErrForbidden, d)
  else match parseID (cl_ID caller) with
  | Err _ => (Err ErrForbidden, d)
  | Ok owner =>
      if (size <? 1) || (MaxImageBytes <? size) || negb (validImageType contentType)
      then (Err ErrInvalid, d)
      else if negb stored then (Err ErrUnavailable, d)
      else
        let image := new_image (newID env 0%nat) owner contentType size (now_ env) in
        match InsertItemImage (image_row image) d with
        | Err e => (Err (persistenceError e), d)
        | Ok d' => (if granted then Ok image else Err ErrUnavailable, d')
        end
  end.

(** ** Inspection before admission *)

Fixpoint prepare_images (inspect : string → Inspection) (owner : string) (seen : list string)
    (ids : list string) (d : ODB) : result Error (list ItemImageUpload) :=
  match ids with
  | [] => mret []
  | id :: rest =>
      match parseID id with
      | Err _ => Err ErrInvalid
      | Ok id =>
          _ ← guard_ok (bool_decide (id ∉ seen)) ErrInvalid;
          item ← ItemImage owner id d;
          _ ← guard_ok (same (ii_State item) ImageUploading) ErrPrecondition;
          _ ← match inspect (ii_Key item) with
              | ObjectNotFound => Err ErrPrecondition
              | InspectionFailed => Err ErrUnavailable
              | Inspected info => guard_ok (object_matches info (ii_SizeBytes item) (ii_ContentType item))
                                           ErrPrecondition
              end;
          items ← prepare_images inspect owner (id :: seen) rest d;
          mret (item :: items)
      end
  end.

Definition Prepare (storage : option (string → Inspection)) (caller : Caller) (ids : list string)
    (d : ODB) : result Error (list ItemImageUpload) :=
  _ ← guard_ok (nonempty (cl_ID caller) && negb (cl_Suspended caller)) ErrForbidden;
  _ ← guard_ok (Z.of_nat (length ids) <=? 5) ErrInvalid;
  inspect ← from_option_ok storage ErrUnavailable;
  prepare_images inspect (cl_ID caller) [] ids d.

(** ** Views *)

(** The download of a key, when storage signs it. *)
Fixpoint image_views (download : option (string → option string)) (rows : list ItemImageUpload)
    : result Error (list (string * string)) :=
  match rows with
  | [] => mret []
  | i :: rest =>
      sign ← from_option_ok download ErrUnavailable;
      url ← from_option_ok (sign (ii_Key i)) ErrUnavailable;
      views ← image_views download rest;
      mret ((ii_ID i, url) :: views)
  end.

(** ForOrder: browsing an order does not grant access to its images. *)
Definition image_ForOrder (download : option (string → option string)) (c : Caller) (o : Order)
    (d : ODB) : result Error (list (string * string)) :=
  _ ← guard_ok (nonempty (cl_ID c)) ErrForbidden;
  if negb (cl_Admin c) && negb (HasParticipant o (cl_ID c)) then mret []
  else
    id ← parseID (o_ID o);
    image_views download (fromItemImage <$> OrderItemImages id d).

(** ** Cleanup *)

(** Each claimed row is dropped once its object is deleted; the first failed
    deletion ends the scan. *)
Fixpoint delete_orphans (deleted : string → bool) (rows : list ImageRow) (d : ODB)
    : result Error unit * ODB :=
  match rows with
  | [] => (Ok tt, d)
  | i :: rest =>
      if deleted (im_ObjectKey i)
      then match parseID (im_ID i) with
           | Ok id => delete_orphans deleted rest (DeleteOrphanImage id d)
           | Err e => (Err e, d)
           end
      else (Err (ErrOther "delete object"), d)
  end.

Definition image_CleanupOnce (deleted : option (string → bool)) (now : Time) (d : ODB)
    : result Error unit * ODB :=
  match deleted with
  | None => (Ok tt, d)
  | Some deleted =>
      let '(d', rows) := ClaimOrphanImages (now - 24 * Hour) now d in
      delete_orphans deleted rows d'
  end.

End images.
