(* ===== verification/OrderCreation.v ===== *)
(** * Order: creation

    creation.go and creationrecovery.go: an order is admitted once per key,
    with snapshots of its locations, and waits for Credit to reserve its
    reward; a leased workflow reserves, confirms by reading the reservation,
    and opens or rejects the order. Remote replies are an argument; what other
    transactions do between two transactions is one too. *)
From stdpp Require Import prelude gmap strings list.
From Stdlib Require Import ZArith.
From S2P Require Import Prelude.
From S2P Require Import GoLib.
From S2P Require Import GoText.
From S2P Require Import OrderTypes.
From S2P Require Import OrderPolicy.
From S2P Require Import OrderDB.
From S2P Require Import OrderStore.
From S2P Require Import OrderCreationStore.
From S2P Require Import OrderProgress.
From S2P Require Import OrderAssignment.

Local Open Scope Z_scope.
Local Open Scope foc_scope.

(** ** The canonical request *)

Definition year (t : Time) : Z := (civil (t / nanos_per_day)).1.1.

Definition json_opt (o : option string) : json :=
  match o with Some s => JString s | None => JNull end.

(** append to a nil slice of nothing is nil. *)
Definition json_strings (l : list string) : json :=
  match l with [] => JNull | _ => JArray (JString <$> l) end.

(** json.Marshal of a CreateInput; the key is left out. *)
Definition input_json (i : CreateInput) (expires : string) : json := JObject
  [("pickup_id", JString (in_PickupID i)); ("delivery_id", JString (in_DeliveryID i));
   ("instructions", json_opt (in_Instructions i)); ("item_description", JString (in_ItemDescription i));
   ("item_image_ids", json_strings (in_ImageIDs i)); ("reward_credits", JInt (in_RewardCredits i));
   ("delivery_duration_ns", JInt (in_DeliveryDuration i)); ("expires_at", JString expires)].

Section creation.
  Context `{UUID, Digest}.

Fixpoint canonical_images (seen ids : list string) : result Error (list string) :=
  match ids with
  | [] => mret []
  | value :: rest =>
      match parseID value with
      | Ok id => _ ← guard_ok (bool_decide (id ∉ seen)) ErrInvalid;
                 out ← canonical_images (id :: seen) rest;
                 mret (id :: out)
      | Err _ => Err ErrInvalid
      end
  end.

(** parseID, its failure reported as ErrInvalid. *)
Definition canonical_id (id : string) : result Error string :=
  match parseID id with Ok v => Ok v | Err _ => Err ErrInvalid end.

Definition canonicalCreation (i : CreateInput) : result Error (CreateInput * json * string) :=
  key ← canonical_id (in_Key i);
  pickup ← canonical_id (in_PickupID i);
  delivery ← canonical_id (in_DeliveryID i);
  _ ← guard_ok (Z.of_nat (length (in_ImageIDs i)) <=? 5) ErrInvalid;
  ids ← canonical_images [] (in_ImageIDs i);
  let description := TrimSpace (in_ItemDescription i) in
  let instructions := TrimSpace <$> in_Instructions i in
  _ ← guard_ok (negb (same pickup delivery) && (0 <? in_RewardCredits i)) ErrInvalid;
  _ ← guard_ok (within 1 1000 (RuneCountInString description) && opt_length_le 500 instructions)
               ErrInvalid;
  _ ← guard_ok (within (5 * Minute) (24 * Hour) (in_DeliveryDuration i)
                && negb (in_ExpiresAt i =? 0) && within 1 9999 (year (in_ExpiresAt i))) ErrInvalid;
  expires ← from_option_ok (format_time (in_ExpiresAt i)) ErrMarshal;
  let out := {| in_Key := key; in_PickupID := pickup; in_DeliveryID := delivery;
                in_Instructions := instructions; in_ItemDescription := description;
                in_ImageIDs := ids; in_RewardCredits := in_RewardCredits i;
                in_DeliveryDuration := in_DeliveryDuration i; in_ExpiresAt := in_ExpiresAt i |} in
  let canonical := input_json out expires in
  mret (out, canonical, sha256_hex (Marshal canonical)).

(** ** Credit, as the creation saga sees it (creationtypes.go) *)

(** CreationCredit: the replies one step receives. A failed call may have
    taken effect. *)
Record CreationCredit := {
  cc_Reserve : ReservationIntent → Reply;
  cc_GetReservation : string → option ReservationView;
  cc_ReleaseExpired : string → Reply;
}.

Record creationObservation := {
  co_view : option ReservationView;
  co_refused : bool;
  co_diagnostic : string;
}.

Definition isMatchingHold (v : ReservationView) (w : CreationWorkflow) : bool :=
  same (vw_State v) ReservationHeld && same (vw_OrderID v) (cw_OrderID w)
  && same (vw_RequesterID v) (cw_RequesterID w) && (vw_OriginalAmount v =? cw_Amount w)
  && (vw_ReservedAmount v =? cw_Amount w).

Definition isReleased (v : ReservationView) (id : string) : bool :=
  same (vw_OrderID v) id && same (vw_State v) ReservationIsReleased && (vw_ReservedAmount v =? 0).

(** Only the current-state read may confirm a hold. *)
Definition observeCreation (credit : CreationCredit) (w : CreationWorkflow) : creationObservation :=
  let reply := if decide (cw_Phase w = AbortPending) then cc_ReleaseExpired credit (cw_OrderID w)
               else cc_Reserve credit (Intent w) in
  if same (cw_Phase w) ReservePending && same reply CreditInsufficient
  then {| co_view := None; co_refused := true; co_diagnostic := EmptyString |}
  else match cc_GetReservation credit (cw_OrderID w) with
  | None => {| co_view := None; co_refused := false; co_diagnostic := "reservation_state_unknown" |}
  | Some v =>
      if same (cw_Phase w) AbortPending && negb (isReleased v (cw_OrderID w))
      then {| co_view := None; co_refused := false; co_diagnostic := "release_unconfirmed" |}
      else {| co_view := Some v; co_refused := false; co_diagnostic := EmptyString |}
  end.

(** ** Processing a workflow (creationrecovery.go) *)

Definition creationLease : Duration := 15 * Second.

(** Nothing to claim: resolved, leased, or not due. *)
Definition creation_not_due (w : CreationWorkflow) (now : Time) : bool :=
  creation_resolved w || After (cw_LeaseUntil w) now
  || (After (cw_NextAttemptAt w) now
      && (negb (same (cw_Phase w) ReservePending) || After (cw_ExpiresAt w) now)).

(** An expired request is aborted before it is reserved. *)
Definition creation_claim (w : CreationWorkflow) (now : Time) : CreationWorkflow :=
  let w := if same (cw_Phase w) ReservePending && negb (After (cw_ExpiresAt w) now)
           then w <| cw_Phase := AbortPending |> else w in
  w <| cw_Generation := add64 (cw_Generation w) 1 |> <| cw_Attempts := wrap32 (cw_Attempts w + 1) |>
    <| cw_LeaseUntil := now + creationLease |> <| cw_UpdatedAt := now |>.

Definition claim_creation (busy : bool) (orderID : string) : TX (option CreationWorkflow) :=
  o ← catch (o ← TryLockCreationOrder busy orderID; mret (Some o))
        (λ e, if decide (e = ErrNotFound) then mret None else fail e);
  match o with
  | None => mret None
  | Some o =>
      w ← LockCreation orderID;
      env ← ask;
      let now := now_ env in
      if creation_not_due w now then mret None
      else
        _ ← ensure_tx (same (o_Status o) PendingReservation) ErrConflict;
        let claimed := creation_claim w now in
        _ ← SaveCreation claimed (cw_Generation w);
        mret (Some claimed)
  end.

(** What the observation decides. *)
Inductive verdict :=
| Wait
| Abort_
| Refuse (r : CreationRejection)
| Open_.

Definition creation_verdict (w : CreationWorkflow) (ob : creationObservation) (now : Time) : verdict :=
  let released := match co_view ob with Some v => isReleased v (cw_OrderID w) | None => false end in
  let held := match co_view ob with Some v => isMatchingHold v w | None => false end in
  if decide (cw_Phase w = AbortPending) then if released then Refuse CreationExpired else Wait
  else if co_refused ob then Refuse InsufficientCredits
  else if negb (After (cw_ExpiresAt w) now) then Abort_
  else if released then Refuse ReservationReleased
  else if held then Open_
  else Wait.

(** The order as an opening or a rejection leaves it. *)
Definition opened_order (o : Order) (w : CreationWorkflow) (now : Time) : Order :=
  next_revision (o <| o_Status := AwaitingCourier |> <| o_ReservedCredits := cw_Amount w |>
                   <| o_UpdatedAt := now |>).
Definition rejected_order (o : Order) (r : CreationRejection) (now : Time) : Order :=
  next_revision (o <| o_Status := Rejected |> <| o_UpdatedAt := now |> <| o_ClosedAt := Some now |>
                   <| o_CloseReason := Some (rejection_text r) |>).

Definition apply_verdict (v : verdict) (o : Order) (w : CreationWorkflow) (now : Time)
    : TX CreationWorkflow :=
  env ← ask;
  match v with
  | Wait => mret w
  | Abort_ => mret (w <| cw_Phase := AbortPending |>)
  | Open_ =>
      let after := opened_order o w now in
      change ← lift (NewChange (Some o) after system_actor ConfirmReservation None (newID env));
      _ ← Apply change;
      mret (w <| cw_Phase := CreationOpened |> <| cw_Result := Some after |>)
  | Refuse r =>
      change ← lift (NewChange (Some o) (rejected_order o r now) system_actor RefuseReservation None
                       (newID env));
      _ ← Apply change;
      mret (w <| cw_Phase := CreationRejected |> <| cw_Rejection := r |>)
  end.

(** The diagnostic that is recorded with the step. *)
Definition creation_error (w : CreationWorkflow) (ob : creationObservation) : string :=
  if creation_resolved w then EmptyString
  else match co_view ob with
  | Some v => if negb (isMatchingHold v w) && negb (isReleased v (cw_OrderID w))
              then "reservation_mismatch" else co_diagnostic ob
  | None => co_diagnostic ob
  end.

(** The pacing of the next step. *)
Definition creation_paced (env : Env) (abortReady : bool) (w : CreationWorkflow) : CreationWorkflow :=
  let now := now_ env in
  let next := now + creationRetryDelay (jitter env) (cw_Attempts w) in
  let next := if same (cw_Phase w) ReservePending && Before (cw_ExpiresAt w) next
              then cw_ExpiresAt w else next in
  w <| cw_NextAttemptAt := if abortReady then now else next |>.

Definition creation_still_claimed (w claimed : CreationWorkflow) (now : Time) : bool :=
  same (cw_ID w) (cw_ID claimed) && (cw_Generation w =? cw_Generation claimed)
  && same (cw_Phase w) (cw_Phase claimed) && negb (creation_resolved w) && After (cw_LeaseUntil w) now.

Definition is_abort (v : verdict) : bool := match v with Abort_ => true | _ => false end.

(** The second transaction of a step; it asks for another step when an expired
    hold has to be released at once. *)
Definition finish_creation (orderID : string) (claimed : CreationWorkflow)
    (ob : creationObservation) : TX bool :=
  o ← tx_LockOrder orderID;
  _ ← tx_Relationships orderID;
  w ← LockCreation orderID;
  env ← ask;
  let now := now_ env in
  if negb (creation_still_claimed w claimed now) then mret false
  else
    _ ← ensure_tx (same (o_Status o) PendingReservation) ErrConflict;
    let v := creation_verdict w ob now in
    w ← apply_verdict v o w now;
    let w := w <| cw_LeaseUntil := now |> <| cw_UpdatedAt := now |>
               <| cw_LastError := creation_error w ob |> in
    let w := creation_paced env (is_abort v) w in
    _ ← SaveCreation w (cw_Generation w);
    mret (is_abort v).

(** One financial step: the surroundings of its two transactions, whether the
    claim finds the order locked, Credit's replies, and what other transactions
    do in between. *)
Record CreationRound := {
  cn_busy : bool;
  cn_claim : Env * Faults;
  cn_credit : CreationCredit;
  cn_meanwhile : ODB → ODB;
  cn_finish : Env * Faults;
}.

Definition creation_claim_step (r : CreationRound) (orderID : string)
    : ODB → result Error (option CreationWorkflow) * ODB :=
  within_tx (cn_claim r).1 (cn_claim r).2 (claim_creation (cn_busy r) orderID).

Definition creation_finish_step (r : CreationRound) (orderID : string) (claimed : CreationWorkflow)
    : ODB → result Error bool * ODB :=
  within_tx (cn_finish r).1 (cn_finish r).2
    (finish_creation orderID claimed (observeCreation (cn_credit r) claimed)).

(** ProcessCreation; [None] when the rounds run out. *)
Fixpoint ProcessCreation (rounds : list CreationRound) (orderID : string) (d : ODB)
    : option (result Error unit) * ODB :=
  match rounds with
  | [] => (None, d)
  | r :: rest =>
      match creation_claim_step r orderID d with
      | (Err e, d1) => (Some (Err e), d1)
      | (Ok None, d1) => (Some (Ok tt), d1)
      | (Ok (Some claimed), d1) =>
          match creation_finish_step r orderID claimed (cn_meanwhile r d1) with
          | (Err e, d2) => (Some (Err e), d2)
          | (Ok false, d2) => (Some (Ok tt), d2)
          | (Ok true, d2) => ProcessCreation rest orderID d2
          end
      end
  end.

(** RecoverCreationsOnce: every due workflow on its own, a failed attempt is left
    to a later scan. What the other workers do in between is part of the rounds. *)
Fixpoint recover_creations (at_ : string → list CreationRound) (ids : list string) (d : ODB) : ODB :=
  match ids with
  | [] => d
  | id :: rest => recover_creations at_ rest (ProcessCreation (at_ id) id d).2
  end.
Definition RecoverCreationsOnce (at_ : string → list CreationRound) (now : Time) (d : ODB) : ODB :=
  recover_creations at_ (DueCreations now 50 d) d.

(** ** Replay *)

Definition creationReplayError (e : Error) : Error :=
  if decide (e = ErrNotFound) then ErrIdempotencyIntegrity else e.

(** The transaction that reads the outcome of a workflow. *)
Definition creation_outcome (orderID : string) : TX Order :=
  current ← catch (tx_LockOrder orderID) (λ e, fail (creationReplayError e));
  w ← catch (LockCreation orderID) (λ e, fail (creationReplayError e));
  match cw_Phase w with
  | CreationRejected => fail (ErrRejected (cw_Rejection w))
  | CreationOpened => match cw_Result w with Some o => mret o | None => fail ErrConflict end
  | _ => mret current
  end.

(** What a resumed workflow meets: its financial steps, and the transaction
    that reads its outcome. *)
Record Resumption := {
  rs_rounds : list CreationRound;
  rs_outcome : Env * Faults;
}.

Definition resume (configured : bool) (rs : Resumption) (replay : CreationReplay) (hash : string)
    (d : ODB) : option (result Error Order) * ODB :=
  let w := rp_Workflow replay in
  let outcome d :=
    let '(out, d') := within_tx (rs_outcome rs).1 (rs_outcome rs).2 (creation_outcome (cw_OrderID w)) d in
    (Some out, d') in
  match CheckRequestHash (rp_Key replay) hash with
  | Err e => (Some (Err e), d)
  | Ok _ =>
      if negb (creation_resolved w) && configured then
        match ProcessCreation (rs_rounds rs) (cw_OrderID w) d with
        | (None, d1) => (None, d1)
        | (Some (Err e), d1) => (Some (Err (creationReplayError e)), d1)
        | (Some (Ok _), d1) => outcome d1
        end
      else outcome d
  end.

(** ** Admission *)

Definition creation_scope (caller : string) : IdempotencyScope :=
  {| CallerID := caller; Method := CreateOrderMethod |}.

Definition find_creation (caller key : string) : TX (option CreationReplay) :=
  _ ← LockIdempotencyCaller (creation_scope caller);
  env ← ask;
  FindCreationKey caller key (now_ env).

Definition new_order (id caller : string) (i : CreateInput) (pickup delivery : LocationSnapshot)
    (now : Time) : Order :=
  mkOrder None id caller None PendingReservation pickup delivery (in_Instructions i)
    (in_ItemDescription i) (in_RewardCredits i) 0 (in_DeliveryDuration i) (in_ExpiresAt i)
    None None None None None None None false 1 now now.

Definition new_workflow (id : string) (o : Order) (i : CreateInput) (canonical : json)
    (hash : string) (now : Time) : CreationWorkflow :=
  mkWorkflow id (o_ID o) (o_RequesterID o) hash canonical (in_RewardCredits i) (in_ExpiresAt i)
    ReservePending 0 0 now now EmptyString NoRejection None now now.

(** The admission transaction; a key that was admitted meanwhile is replayed. *)
Definition admit_creation (caller : string) (i : CreateInput) (canonical : json) (hash : string)
    (pickup delivery : LocationSnapshot) (items : list ItemImageUpload) : TX CreationReplay :=
  _ ← LockIdempotencyCaller (creation_scope caller);
  env ← ask;
  let now := now_ env in
  existing ← FindCreationKey caller (in_Key i) now;
  match existing with
  | Some replay => mret replay
  | None =>
      _ ← ensure_tx (After (in_ExpiresAt i) now) ErrInvalid;
      count ← tx_CountRecentCreations caller (now - Minute);
      _ ← ensure_tx (count <? 10) ErrRateLimited;
      let o := new_order (newID env 0%nat) caller i pickup delivery now in
      change ← lift (NewChange None o {| a_Kind := User; a_ID := caller |} Create None
                       (λ n, newID env (S n)));
      _ ← Apply change;
      let w := new_workflow (newID env (S (length (c_Facts change)))) o i canonical hash now in
      _ ← AttachCreationImages caller (o_ID o) items;
      _ ← InsertCreation w (in_Key i);
      mret {| rp_Key := creationIdempotencyKey w (in_Key i); rp_Workflow := w |}
  end.

(** The dependencies of Create, absent where none is configured. *)
Record Creator := {
  ct_enabled : bool;
  ct_locations : option (string → result Error SelectableLocation);
  ct_credit : bool;
  ct_images : option (option (string → Inspection));
}.

(** What one call of Create meets. *)
Record Creation := {
  cx_find : Env * Faults;
  cx_clock : Time;
  cx_recheck : Env * Faults;
  cx_meanwhile : ODB → ODB;
  cx_admit : Env * Faults;
  cx_resume : Resumption;
}.

(** Recognise a request that was admitted meanwhile before reporting [cause]. *)
Definition recheckCreation (s : Creator) (x : Creation) (caller key hash : string) (cause : Error)
    (d : ODB) : option (result Error Order) * ODB :=
  match within_tx (cx_recheck x).1 (cx_recheck x).2 (find_creation caller key) d with
  | (Err e, d1) => (Some (Err e), d1)
  | (Ok (Some replay), d1) => resume (ct_credit s) (cx_resume x) replay hash d1
  | (Ok None, d1) => (Some (Err cause), d1)
  end.

(** The remote lookups that precede admission: what they found, or the error
    with which the call ends; [true] when the key is looked up once more first. *)
Definition preflight (s : Creator) (x : Creation) (caller : Caller) (i : CreateInput) (d : ODB)
    : LocationSnapshot * LocationSnapshot * list ItemImageUpload + bool * Error :=
  match ct_locations s with
  | None => inr (false, ErrUnavailable)
  | Some locations =>
      if negb (ct_enabled s) || negb (ct_credit s) then inr (false, ErrUnavailable)
      else if negb (After (in_ExpiresAt i) (cx_clock x)) then inr (true, ErrInvalid)
      else match locations (in_PickupID i) with
      | Err e => inr (true, e)
      | Ok pickup =>
          match locations (in_DeliveryID i) with
          | Err e => inr (true, e)
          | Ok delivery =>
              if sl_Archived pickup || sl_Archived delivery then inr (true, ErrPrecondition)
              else if negb (same (LocationID (sl_Snapshot pickup)) (in_PickupID i))
                      || negb (same (LocationID (sl_Snapshot delivery)) (in_DeliveryID i))
              then inr (false, ErrUnavailable)
              else match in_ImageIDs i with
              | [] => inl (sl_Snapshot pickup, sl_Snapshot delivery, [])
              | ids =>
                  match ct_images s with
                  | None => inr (false, ErrUnavailable)
                  | Some storage =>
                      match Prepare storage caller ids d with
                      | Err e => inr (true, e)
                      | Ok items => inl (sl_Snapshot pickup, sl_Snapshot delivery, items)
                      end
                  end
              end
          end
      end
  end.

Definition Create_ (s : Creator) (x : Creation) (caller : Caller) (input : CreateInput) (d : ODB)
    : option (result Error Order) * ODB :=
  if negb (nonempty (cl_ID caller)) || cl_Suspended caller then (Some (Err ErrForbidden), d)
  else match parseID (cl_ID caller) with
  | Err _ => (Some (Err ErrForbidden), d)
  | Ok uid =>
      let caller := {| cl_ID := uid; cl_Admin := cl_Admin caller; cl_Suspended := cl_Suspended caller |} in
      match canonicalCreation input with
      | Err e => (Some (Err e), d)
      | Ok (i, canonical, hash) =>
          match within_tx (cx_find x).1 (cx_find x).2 (find_creation uid (in_Key i)) d with
          | (Err e, d1) => (Some (Err e), d1)
          | (Ok (Some replay), d1) => resume (ct_credit s) (cx_resume x) replay hash d1
          | (Ok None, d1) =>
              match preflight s x caller i d1 with
              | inr (true, cause) => recheckCreation s x uid (in_Key i) hash cause (cx_meanwhile x d1)
              | inr (false, cause) => (Some (Err cause), d1)
              | inl (pickup, delivery, items) =>
                  match within_tx (cx_admit x).1 (cx_admit x).2
                          (admit_creation uid i canonical hash pickup delivery items)
                          (cx_meanwhile x d1) with
                  | (Err e, d2) => (Some (Err e), d2)
                  | (Ok replay, d2) => resume (ct_credit s) (cx_resume x) replay hash d2
                  end
              end
          end
      end
  end.

End creation.
