(* ===== verification/OrderProofStore.v ===== *)
(** * Order: delivery proofs, stored

    order-service/database/query/proofs.sql, and the transaction's share of
    postgresproofs.go, proofoutages.go and proofcleanup.go. A statement that
    reads clock_timestamp() takes the server's time as an argument. *)
From stdpp Require Import prelude gmap strings list sorting.
From Stdlib Require Import ZArith.
From S2P Require Import Prelude.
From S2P Require Import GoLib.
From S2P Require Import GoText.
From S2P Require Import OrderTypes.
From S2P Require Import OrderPolicy.
From S2P Require Import OrderDB.
From S2P Require Import OrderStore.

Local Open Scope Z_scope.
Local Open Scope foc_scope.

(** ** order_proof_uploads and order_proof_fences *)

Definition uploads_check (u : UploadRow) : bool :=
  within 1 10000000 (up_SizeBytes u) && (0 <? up_Generation u).

(** The upload of a client identity. *)
Definition identity_of (order courier upload : string) (u : UploadRow) : bool :=
  same (up_OrderID u) order && same (up_CourierID u) courier && same (up_UploadID u) upload.

(** UNIQUE(object_key) and UNIQUE(order_id, courier_id, upload_id). *)
Definition upload_clash (u v : UploadRow) : bool :=
  same (up_ObjectKey u) (up_ObjectKey v)
  || identity_of (up_OrderID u) (up_CourierID u) (up_UploadID u) v.

Definition FindUpload (order courier upload : string) (db : ODB) : option UploadRow :=
  find_first (identity_of order courier upload) (snd <$> map_to_list (uploads db)).

Definition GetUpload (id : string) (db : ODB) : option UploadRow := uploads db !! id.

Definition ProofIdentityFenced (order courier upload : string) (db : ODB) : bool :=
  is_some (fences db !! (order, courier, upload)).

Definition CountUploading (order courier : string) (db : ODB) : Z :=
  Z.of_nat (length (filter (λ kv, same (up_OrderID kv.2) order && same (up_CourierID kv.2) courier
      && same (up_State kv.2) ProofUploading = true) (map_to_list (uploads db)))).

Definition stored_upload (u : UploadRow) : UploadRow :=
  mkUploadRow (up_ID u) (up_OrderID u) (up_CourierID u) (up_UploadID u) (up_ObjectKey u)
    (up_ContentType u) (up_SizeBytes u) (up_State u) (up_Generation u) (up_SigningEpoch u)
    (up_UploadScope u) (stored_time (up_GrantedAt u)) (stored_time (up_ExpiresAt u))
    (stored_time (up_CreatedAt u)) (stored_times (up_VerifiedAt u)) (stored_time (up_CleanupAfter u)).

(** The upload keeps its identity; only an uploading one is granted again. *)
Definition regrantable (old u : UploadRow) : bool :=
  same (up_State old) ProofUploading && same (up_State u) ProofUploading
  && identity_of (up_OrderID u) (up_CourierID u) (up_UploadID u) old
  && same (up_UploadScope old) (up_UploadScope u) && same (up_ObjectKey old) (up_ObjectKey u)
  && same (up_ContentType old) (up_ContentType u) && (up_SizeBytes old =? up_SizeBytes u).

(** INSERT ... ON CONFLICT(id) DO UPDATE. *)
Definition SaveUpload (u : UploadRow) (db : ODB) : result Error (ODB * Z) :=
  let u := stored_upload u in
  _ ← check (uploads_check u);
  match uploads db !! up_ID u with
  | None =>
      _ ← unique (bool_decide (map_Forall (λ _ v, upload_clash u v = false) (uploads db)));
      _ ← references (is_some (orders db !! up_OrderID u));
      mret (db <| uploads := <[up_ID u := u]> (uploads db) |>, 1)
  | Some old =>
      if regrantable old u then
        let v := old <| up_Generation := up_Generation u |> <| up_SigningEpoch := up_SigningEpoch u |>
                     <| up_GrantedAt := up_GrantedAt u |> <| up_ExpiresAt := up_ExpiresAt u |> in
        mret (db <| uploads := <[up_ID u := v]> (uploads db) |>, 1)
      else mret (db, 0)
  end.

Definition FenceProofIdentity (order courier upload : string) (at_ : Time) (db : ODB)
    : result Error ODB :=
  match fences db !! (order, courier, upload) with
  | Some _ => mret db
  | None =>
      _ ← references (is_some (orders db !! order));
      mret (db <| fences := <[(order, courier, upload) := stored_time at_]> (fences db) |>)
  end.

Definition retired (order courier upload : string) (u : UploadRow) : UploadRow :=
  if identity_of order courier upload u && same (up_State u) ProofUploading
  then u <| up_State := ProofDeleting |> else u.
Definition RetireProofUpload (order courier upload : string) (db : ODB) : ODB :=
  db <| uploads := retired order courier upload <$> uploads db |>.

(** UPDATE ... WHERE id AND state = [from]. *)
Definition update_upload (id : string) (from : ProofState) (set : UploadRow → UploadRow) (db : ODB)
    : ODB * Z :=
  match uploads db !! id with
  | Some u => if decide (up_State u = from)
              then (db <| uploads := <[id := set u]> (uploads db) |>, 1) else (db, 0)
  | None => (db, 0)
  end.

Definition VerifyProofUpload (server : Time) (id : string) : ODB → ODB * Z :=
  update_upload id ProofUploading (λ u, u <| up_VerifiedAt :=
    Some (match up_VerifiedAt u with Some v => v | None => server end) |>).

Definition AcceptProofUpload (id : string) : ODB → ODB * Z :=
  update_upload id ProofUploading (λ u, u <| up_State := ProofAccepted |>).

(** The identities of a courier that are new since [since], fenced or not. *)
Definition CountRecentProofIdentities (order courier : string) (since : Time) (db : ODB) : Z :=
  Z.of_nat (length (remove_dups (
    (up_UploadID ∘ snd <$> filter (λ kv, same (up_OrderID kv.2) order && same (up_CourierID kv.2) courier
       && (stored_time since <=? up_CreatedAt kv.2) = true) (map_to_list (uploads db)))
    ++ ((λ kv, kv.1.2) <$> filter (λ kv, same kv.1.1.1 order && same kv.1.1.2 courier
       && (stored_time since <=? kv.2) = true) (map_to_list (fences db)))))).

Definition ScheduleCleanup (server : Time) (id : string) (next : Time) (db : ODB) : ODB * Z :=
  match uploads db !! id with
  | Some u => if same (up_State u) ProofDeleting && (up_CleanupAfter u <=? server)
              then (db <| uploads := <[id := u <| up_CleanupAfter := stored_time next |>]> (uploads db) |>, 1)
              else (db, 0)
  | None => (db, 0)
  end.

Definition cleanup_candidate (server now : Time) (scope : string) (db : ODB) (u : UploadRow) : bool :=
  same (up_UploadScope u) scope && negb (same (up_State u) ProofAccepted)
  && (up_ExpiresAt u <=? stored_time now) && (up_CleanupAfter u <=? stored_time now)
  && match orders db !! up_OrderID u with
     | Some o => same (up_State u) ProofDeleting || negb (same (r_Status o) Delivering)
                 || match r_PickedUpAt o with Some p => delivery_deadline o p <=? server | None => false end
     | None => false
     end
  && negb (existsb (λ r, same (rc_OrderID r) (up_OrderID u) && same (rc_State r) ReceiptPending) (receipts db)).

Definition ProofCleanupCandidates (server now : Time) (scope : string) (limit : Z) (db : ODB)
    : list string :=
  take (Z.to_nat limit) (snd <$> merge_sort due_order
    ((λ u, (up_CleanupAfter u, up_ID u))
       <$> filter (λ u, cleanup_candidate server now scope db u = true) (snd <$> map_to_list (uploads db)))).

(** ** order_delivery_receipts *)

Definition is_outage_object (o : option (option ProofOutage)) : bool :=
  match o with Some (Some _) => true | _ => false end.

Definition receipts_check (r : ReceiptRow) : bool :=
  (negb (rc_WithoutProof r) || is_outage_object (rc_Outage r))
  && (if rc_WithoutProof r then Z.of_nat (length (rc_ProofIDs r)) =? 0
      else within 1 5 (Z.of_nat (length (rc_ProofIDs r)))).

Definition GetPendingReceipt (order : string) (db : ODB) : option ReceiptRow :=
  find_first (λ r, same (rc_OrderID r) order && same (rc_State r) ReceiptPending) (receipts db).
Definition GetReceipt (id : string) (db : ODB) : option ReceiptRow :=
  find_first (λ r, same (rc_ID r) id) (receipts db).

(** Primary key, and order_delivery_one_pending for a pending receipt. *)
Definition receipt_clash (r q : ReceiptRow) : bool :=
  same (rc_ID r) (rc_ID q) || (same (rc_OrderID r) (rc_OrderID q) && same (rc_State q) ReceiptPending).

Definition InsertReceipt (r : ReceiptRow) (db : ODB) : result Error ODB :=
  _ ← check (receipts_check r);
  _ ← unique (forallb (λ q, negb (receipt_clash r q)) (receipts db));
  _ ← references (is_some (orders db !! rc_OrderID r));
  mret (db <| receipts := receipts db ++ [r] |>).

(** UPDATE ... WHERE id AND state = 'pending'. *)
Definition update_receipt (id : string) (p : ReceiptRow → bool) (set : ReceiptRow → ReceiptRow)
    (db : ODB) : ODB * Z :=
  let matching r := same (rc_ID r) id && same (rc_State r) ReceiptPending && p r in
  (db <| receipts := (λ r, if matching r then set r else r) <$> receipts db |>,
   Z.of_nat (length (filter (λ r, matching r = true) (receipts db)))).

Definition FinishReceipt (id : string) (state : ReceiptState) (at_ : Time) : ODB → ODB * Z :=
  update_receipt id (λ _, true)
    (λ r, r <| rc_State := state |> <| rc_ProcessedAt := Some (stored_time at_) |>).

Definition ProofReservedByReceipt (order id : string) (db : ODB) : bool :=
  existsb (λ r, same (rc_OrderID r) order && same (rc_State r) ReceiptPending
                && bool_decide (id ∈ rc_ProofIDs r)) (receipts db).

(** ORDER BY next_attempt_at, received_at, id. *)
Definition receipt_order (x y : Time * (Time * string)) : Prop :=
  x.1 < y.1 ∨ (x.1 = y.1 ∧ due_order x.2 y.2).
#[export] Instance receipt_order_dec : RelDecision receipt_order.
Proof. unfold RelDecision, receipt_order. apply _. Defined.

Definition DueReceipts (server : Time) (limit : Z) (db : ODB) : list string :=
  take (Z.to_nat limit) ((snd ∘ snd) <$> merge_sort receipt_order
    ((λ r, (rc_NextAttemptAt r, (rc_ReceivedAt r, rc_ID r)))
       <$> filter (λ r, same (rc_State r) ReceiptPending && (rc_NextAttemptAt r <=? server) = true)
             (receipts db))).

Definition RetryReceipt (server : Time) (id : string) (db : ODB) : ODB :=
  (update_receipt id (λ _, true)
     (λ r, r <| rc_NextAttemptAt := server + Z.min (rc_AttemptCount r + 1) 30 * (2 * Second) |>
             <| rc_AttemptCount := rc_AttemptCount r + 1 |>) db).1.

Definition AlertReceipt (server : Time) (id : string) : ODB → ODB * Z :=
  update_receipt id
    (λ r, (rc_ReceivedAt r <=? server - 5 * Minute)
          && match rc_AlertedAt r with Some a => a <? server - Hour | None => true end)
    (λ r, r <| rc_AlertedAt := Some server |>).

(** ** order_proof_confirmations and order_proof_outage_state *)

Definition GetConfirmation (order : string) (db : ODB) : option ProofConfirmation :=
  confirmations db !! order.

Definition InsertConfirmation (c : ProofConfirmation) (db : ODB) : result Error ODB :=
  _ ← guard_ok (no_nul (pc_OutageReason c)) untranslatable_character;
  _ ← unique (negb (is_some (confirmations db !! pc_OrderID c)));
  _ ← references (is_some (orders db !! pc_OrderID c));
  mret (db <| confirmations := <[pc_OrderID c := c]> (confirmations db) |>).

Definition GetOutage (scope : string) (db : ODB) : option OutageRow := outages db !! scope.

Definition PublishOutage (scope evidence : string) (observed until : Time) (reason : string)
    (active : bool) (db : ODB) : ODB :=
  let generation := match outages db !! scope with Some o => og_Generation o + 1 | None => 1 end in
  db <| outages := <[scope := {| og_EvidenceID := evidence; og_Generation := generation;
                                 og_ObservedAt := stored_time observed; og_ValidUntil := stored_time until;
                                 og_Reason := reason; og_Active := active |}]> (outages db) |>.

(** ** The transaction (postgresproofs.go) *)

Section store.
  Context `{UUID}.

(** Statements that read the server's clock. *)
Definition exec_at {A} (f : Time → ODB → ODB * A) : TX A :=
  λ env s, exec (λ d, mret (f (stored_time (server_time env)) d)) env s.

Definition proofLocked (orderID : string) : TX unit :=
  l ← is_locked orderID;
  ensure_tx l ErrPrecondition.

(** Some order is locked. *)
Definition any_locked : TX unit :=
  s ← get;
  ensure_tx (negb (bool_decide (locked s = ∅))) ErrPrecondition.

Definition fromProofUpload (row : UploadRow) : ProofUpload :=
  mkUpload (up_State row) (up_ID row) (up_OrderID row) (up_CourierID row) (up_UploadID row)
    (up_ObjectKey row) (up_ContentType row) (up_SigningEpoch row) (up_UploadScope row)
    (up_VerifiedAt row) (up_SizeBytes row) (up_Generation row) (up_GrantedAt row)
    (up_ExpiresAt row) (up_CreatedAt row).

(** The row of an upload; cleanup_after defaults to the server's clock. *)
Definition upload_row (server : Time) (u : ProofUpload) : UploadRow :=
  mkUploadRow (pu_ID u) (pu_OrderID u) (pu_CourierID u) (pu_UploadID u) (pu_Key u)
    (pu_ContentType u) (pu_SizeBytes u) (pu_State u) (pu_Generation u) (pu_SigningEpoch u)
    (pu_UploadScope u) (pu_GrantedAt u) (pu_ExpiresAt u) (pu_CreatedAt u) None server.

(** A fenced identity reads as one that is being deleted. *)
Definition fenced_upload (orderID courierID uploadID : string) : ProofUpload :=
  mkUpload ProofDeleting EmptyString orderID courierID uploadID EmptyString EmptyString EmptyString
    EmptyString None 0 0 0 0 0.

Definition FindProofUpload (orderID courierID uploadID : string) : TX ProofUpload :=
  _ ← proofLocked orderID;
  fenced ← query (ProofIdentityFenced orderID courierID uploadID);
  if fenced : bool then mret (fenced_upload orderID courierID uploadID)
  else
    row ← query (FindUpload orderID courierID uploadID);
    row ← lift (from_option_ok row ErrNotFound);
    mret (fromProofUpload row).

Definition CountStagedProofs (orderID courierID : string) : TX Z :=
  _ ← proofLocked orderID;
  query (CountUploading orderID courierID).

Definition GetProofUpload (id : string) : TX ProofUpload :=
  _ ← any_locked;
  uid ← lift (parseID id);
  row ← query (GetUpload uid);
  row ← lift (from_option_ok row ErrNotFound);
  l ← is_locked (up_OrderID row);
  _ ← ensure_tx l ErrNotFound;
  mret (fromProofUpload row).

(** Known identities may be refreshed and retired at the limit. *)
Definition proofIdentityBudget (orderID courierID : string) : TX unit :=
  now ← ProofServerTime;
  count ← query (CountRecentProofIdentities orderID courierID (now - Hour));
  ensure_tx (count <? MaxNewProofIdentitiesPerHour) ErrRateLimited.

Definition one_row (m : TX Z) : TX unit :=
  writeResult (n ← m; ensure_tx (n =? 1) ErrConflict).

Definition SaveProofUpload (u : ProofUpload) : TX unit :=
  _ ← writeResult (proofLocked (pu_OrderID u));
  existing ← writeResult (query (GetUpload (pu_ID u)));
  _ ← (if is_some existing then mret tt
       else writeResult (proofIdentityBudget (pu_OrderID u) (pu_CourierID u)));
  fenced ← writeResult (query (ProofIdentityFenced (pu_OrderID u) (pu_CourierID u) (pu_UploadID u)));
  if fenced : bool then refuse ErrPrecondition
  else
    env ← ask;
    one_row (exec (SaveUpload (upload_row (stored_time (server_time env)) u))).

Definition MarkProofVerified (id : string) : TX unit :=
  row ← writeResult (GetProofUpload id);
  if negb (same (pu_State row) ProofUploading) then refuse ErrPrecondition
  else one_row (exec_at (λ server, VerifyProofUpload server id)).

Definition AbandonProofUpload (orderID courierID uploadID : string) (at_ : Time) : TX unit :=
  _ ← writeResult (proofLocked orderID);
  row ← writeResult (catch (u ← FindProofUpload orderID courierID uploadID; mret (Some u))
                       (λ e, if decide (e = ErrNotFound) then mret None else fail e));
  _ ← (match row with
       | Some u =>
           if nonempty (pu_ID u) then
             reserved ← writeResult (query (ProofReservedByReceipt orderID (pu_ID u)));
             if same (pu_State u) ProofAccepted || reserved then refuse ErrPrecondition else mret tt
           else mret tt
       | None => writeResult (proofIdentityBudget orderID courierID)
       end);
  _ ← writeResult (exec_unit (FenceProofIdentity orderID courierID uploadID at_));
  writeResult (exec_unit (λ d, mret (RetireProofUpload orderID courierID uploadID d))).

Definition GetProofConfirmation (orderID : string) : TX ProofConfirmation :=
  _ ← proofLocked orderID;
  row ← query (GetConfirmation orderID);
  lift (from_option_ok row ErrNotFound).

Definition fromDeliveryReceipt (r : ReceiptRow) : DeliveryReceipt := {|
  dr_ID := rc_ID r; dr_OrderID := rc_OrderID r; dr_CourierID := rc_CourierID r;
  dr_ProofIDs := rc_ProofIDs r; dr_Unattended := rc_Unattended r;
  dr_WithoutProof := rc_WithoutProof r; dr_ReceivedAt := rc_ReceivedAt r;
  dr_ProcessedAt := rc_ProcessedAt r; dr_State := rc_State r; dr_Outage := mjoin (rc_Outage r);
  dr_AttemptCount := rc_AttemptCount r |}.

Definition GetPendingDeliveryReceipt (orderID : string) : TX DeliveryReceipt :=
  _ ← proofLocked orderID;
  row ← query (GetPendingReceipt orderID);
  row ← lift (from_option_ok row ErrNotFound);
  mret (fromDeliveryReceipt row).

Definition GetDeliveryReceipt (id : string) : TX DeliveryReceipt :=
  row ← query (GetReceipt id);
  row ← lift (from_option_ok row ErrNotFound);
  _ ← proofLocked (rc_OrderID row);
  mret (fromDeliveryReceipt row).

(** json.Marshal of an outage, which fails on a time beyond year 9999. *)
Definition outage_json (o : ProofOutage) : option json :=
  observed ← format_time (po_ObservedAt o);
  until ← format_time (po_ValidUntil o);
  Some (JObject [("Reason", JString (po_Reason o)); ("EvidenceID", JString (po_EvidenceID o));
                 ("UploadScope", JString (po_UploadScope o)); ("Generation", JInt (po_Generation o));
                 ("ObservedAt", JString observed); ("ValidUntil", JString until)]).
Definition opt_outage_json (o : option ProofOutage) : option json :=
  match o with Some o => outage_json o | None => Some JNull end.

Definition receipt_row (server : Time) (r : DeliveryReceipt) : ReceiptRow :=
  mkReceiptRow (dr_ID r) (dr_OrderID r) (dr_CourierID r) (dr_ProofIDs r) (dr_Unattended r)
    (dr_WithoutProof r) (stored_time (dr_ReceivedAt r)) None server 0 None ReceiptPending
    (Some (dr_Outage r)).

Definition InsertDeliveryReceipt (r : DeliveryReceipt) : TX unit :=
  _ ← writeResult (proofLocked (dr_OrderID r));
  _ ← writeResult (lift (from_option_ok (opt_outage_json (dr_Outage r)) ErrMarshal));
  env ← ask;
  writeResult (exec_unit (InsertReceipt (receipt_row (stored_time (server_time env)) r))).

Definition FinishDeliveryReceipt (id : string) (state : ReceiptState) (at_ : Time) : TX unit :=
  _ ← writeResult (GetDeliveryReceipt id);
  one_row (exec_at (λ _, FinishReceipt id state at_)).

(** proofEvidenceMatches: all but the renewable grant. *)
Definition proofEvidenceMatches (u v : ProofUpload) : bool :=
  same (pu_State u) (pu_State v) && same (pu_ID u) (pu_ID v) && same (pu_OrderID u) (pu_OrderID v)
  && same (pu_CourierID u) (pu_CourierID v) && same (pu_UploadID u) (pu_UploadID v)
  && same (pu_Key u) (pu_Key v) && same (pu_ContentType u) (pu_ContentType v)
  && (pu_SizeBytes u =? pu_SizeBytes v) && same (pu_UploadScope u) (pu_UploadScope v)
  && (pu_CreatedAt u =? pu_CreatedAt v).

Definition proofBelongsTo (u : ProofUpload) (orderID courierID : string) : bool :=
  same (pu_OrderID u) orderID && EqualFold (pu_CourierID u) courierID.

(** The stored upload is the verified one the confirmation was built from. *)
Definition evidence_ok (c : ProofConfirmation) (receipt : DeliveryReceipt)
    (stored expected : ProofUpload) : bool :=
  proofEvidenceMatches stored expected && same (pu_State stored) ProofUploading
  && proofBelongsTo stored (pc_OrderID c) (pc_CourierID c)
  && match pu_VerifiedAt stored, pu_VerifiedAt expected with
     | Some v, Some v' => (v =? v') && (v <=? dr_ReceivedAt receipt)
     | _, _ => false
     end.

Fixpoint accept_uploads (c : ProofConfirmation) (receipt : DeliveryReceipt)
    (expected : list ProofUpload) : TX unit :=
  match expected with
  | [] => mret tt
  | e :: rest =>
      stored ← writeResult (GetProofUpload (pu_ID e));
      if negb (evidence_ok c receipt stored e) then refuse ErrPrecondition
      else
        _ ← one_row (exec (λ d, mret (AcceptProofUpload (pu_ID stored) d)));
        accept_uploads c receipt rest
  end.

(** json.Marshal of a confirmation. *)
Definition confirmation_json (c : ProofConfirmation) : option json :=
  outage ← opt_outage_json (pc_Outage c);
  confirmed ← format_time (pc_ConfirmedAt c);
  Some (JObject [("OrderID", JString (pc_OrderID c)); ("CourierID", JString (pc_CourierID c));
                 ("ProofIDs", JArray (JString <$> pc_ProofIDs c)); ("Unattended", JBool (pc_Unattended c));
                 ("OutageReason", JString (pc_OutageReason c)); ("Outage", outage);
                 ("ConfirmedAt", JString confirmed)]).

(** The confirmation is what its pending receipt was admitted for. *)
Definition receipt_confirms (receipt : DeliveryReceipt) (c : ProofConfirmation) : bool :=
  same (dr_CourierID receipt) (pc_CourierID c) && (dr_ReceivedAt receipt =? pc_ConfirmedAt c)
  && same (dr_ProofIDs receipt) (pc_ProofIDs c) && Bool.eqb (dr_Unattended receipt) (pc_Unattended c)
  && Bool.eqb (dr_WithoutProof receipt) (nonempty (pc_OutageReason c)).

Definition SaveProofConfirmation (c : ProofConfirmation) (expected : list ProofUpload) : TX unit :=
  _ ← writeResult (proofLocked (pc_OrderID c));
  receipt ← writeResult (GetPendingDeliveryReceipt (pc_OrderID c));
  if negb (receipt_confirms receipt c) || negb (Nat.eqb (length expected) (length (pc_ProofIDs c)))
  then refuse ErrPrecondition
  else
    _ ← accept_uploads c receipt expected;
    _ ← writeResult (lift (from_option_ok (confirmation_json c) ErrMarshal));
    _ ← writeResult (exec_unit (InsertConfirmation c));
    now ← writeResult ProofServerTime;
    FinishDeliveryReceipt (dr_ID receipt) ReceiptAccepted now.

(** The outage is still the published one; its row stays locked. *)
Definition IsProofOutageCurrent (o : ProofOutage) : TX bool :=
  _ ← any_locked;
  row ← query (GetOutage (po_UploadScope o));
  mret (match row with
        | Some g => og_Active g && same (og_EvidenceID g) (po_EvidenceID o)
                    && (og_Generation g =? po_Generation o) && (og_ObservedAt g =? po_ObservedAt o)
                    && (og_ValidUntil g =? po_ValidUntil o) && same (og_Reason g) (po_Reason o)
        | None => false
        end).

(** ScheduleProofCleanup of proofcleanup.go. *)
Definition ScheduleProofCleanup (id : string) (next : Time) : TX bool :=
  _ ← writeResult (GetProofUpload id);
  n ← writeResult (exec_at (λ server, ScheduleCleanup server id next));
  mret (n =? 1).

(** CurrentProofOutage of proofoutages.go. *)
Definition CurrentProofOutage (scope : string) (d : ODB) : option (ProofOutage * bool) :=
  (λ g, ({| po_Reason := og_Reason g; po_EvidenceID := og_EvidenceID g; po_UploadScope := scope;
            po_Generation := og_Generation g; po_ObservedAt := og_ObservedAt g;
            po_ValidUntil := og_ValidUntil g |}, og_Active g)) <$> GetOutage scope d.

Definition PublishProofOutage (scope evidence : string) (active : bool) (env : Env) (d : ODB) : ODB :=
  let now := stored_time (server_time env) in
  PublishOutage scope evidence now (now + 30 * Second) "storage_service_unavailable" active d.

End store.
