(* ===== verification/OrderProofs.v ===== *)
(** * Order: delivery proofs

    proofs.go, proofreceipts.go, proofoutages.go and proofcleanup.go: a courier
    uploads photos under a bounded set of identities, a delivery is admitted as
    a durable receipt, and the receipt is then confirmed against the verified
    objects. Object storage, decoding and signing are arguments; what other
    transactions do between two transactions is one too. *)
From stdpp Require Import prelude gmap strings list sorting.
From Stdlib Require Import ZArith Ascii.
From S2P Require Import Prelude.
From S2P Require Import GoLib.
From S2P Require Import GoText.
From S2P Require Import OrderTypes.
From S2P Require Import OrderPolicy.
From S2P Require Import OrderDB.
From S2P Require Import OrderStore.
From S2P Require Import OrderCreationStore.
From S2P Require Import OrderProofStore.
From S2P Require Import OrderProgress.

Local Open Scope Z_scope.
Local Open Scope foc_scope.

(** ** The surroundings *)

Record UploadGrant := {
  ug_URL : string;
  ug_Method : string;
  ug_ExpiresAt : Time;
}.

(** ProofGrantIssuer: the signing epoch with its expiry, and the grants. *)
Record ProofGrantIssuer := {
  ProofSigningEpoch : option (string * Time);
  CreateProofGrant : ProofUpload → option UploadGrant;
}.

Inductive ObjectRead :=
| ReadNotFound
| ReadFailed
| ReadBody (data : string).

(** ProofObjects. *)
Record ProofObjects := {
  Inspect : string → Inspection;
  ReadProof : string → ObjectRead;
  CreateDownload : string → option (string * Time);
}.

(** The struct Proofs; [ps_testNow] overrides the clock in tests, and
    [ps_slot] tells whether an upload finds a free verification slot. *)
Record Proofs := {
  ps_grants : option ProofGrantIssuer;
  ps_objects : option ProofObjects;
  ps_validator : option (string → string → result Error unit);
  ps_outages : bool;
  ps_uploadScope : string;
  ps_outageScope : string;
  ps_testNow : option Time;
  ps_slot : string → bool;
}.

Definition maxProofOutageAge : Duration := 30 * Second.

(** io.LimitReader. *)
Fixpoint limit_reader (n : Z) (s : string) : string :=
  match s with
  | EmptyString => EmptyString
  | String c s' => if n <=? 0 then EmptyString else String c (limit_reader (n - 1) s')
  end.

Section proofs.
  Context `{UUID}.

(** ** Callers, identifiers and clocks *)

Definition proofCaller (c : Caller) (orderID : string) : result Error (Caller * string) :=
  match parseID (cl_ID c) with
  | Err _ => Err ErrForbidden
  | Ok id =>
      match parseID orderID with
      | Err _ => Err ErrInvalid
      | Ok order => Ok ({| cl_ID := id; cl_Admin := cl_Admin c; cl_Suspended := cl_Suspended c |}, order)
      end
  end.

Fixpoint parse_all (ids : list string) : result Error (list string) :=
  match ids with
  | [] => mret []
  | id :: rest => v ← parseID id; vs ← parse_all rest; mret (v :: vs)
  end.

(** Sorted and without repetition. *)
Definition normalizedProofIDs (ids : list string) : result Error (list string) :=
  _ ← guard_ok (Z.of_nat (length ids) <=? 5) ErrInvalid;
  out ← parse_all ids;
  let out := merge_sort id_le out in
  _ ← guard_ok (bool_decide (NoDup out)) ErrInvalid;
  mret out.

Definition canUploadProof (o : Order) (c : Caller) (now : Time) : result Error unit :=
  _ ← guard_ok (IsAssignedTo o (cl_ID c)) ErrNotFound;
  guard_ok (same (o_Status o) Delivering
            && match o_PickedUpAt o with
               | Some p => (0 <? o_DeliveryDuration o)
                           && Before now (p + mul64 2 (o_DeliveryDuration o))
               | None => false
               end) ErrPrecondition.

Definition isCurrentProofOutage (s : Proofs) (o : ProofOutage) (now : Time) : bool :=
  same (po_Reason o) "storage_service_unavailable"
  && nonempty (po_EvidenceID o) && Nat.leb (String.length (po_EvidenceID o)) 200
  && (0 <? po_Generation o) && nonempty (ps_uploadScope s)
  && same (po_UploadScope o) (ps_outageScope s)
  && negb (After (po_ObservedAt o) now) && (time_sub now (po_ObservedAt o) <=? maxProofOutageAge)
  && After (po_ValidUntil o) now
  && negb (After (po_ValidUntil o) (po_ObservedAt o + maxProofOutageAge)).

Definition proof_timestamp (s : Proofs) (env : Env) : Time :=
  micros (match ps_testNow s with Some t => t | None => now_ env end).

Definition proofTime (s : Proofs) : TX Time :=
  match ps_testNow s with
  | Some t => mret (micros t)
  | None => ProofServerTime
  end.

(** locked: the shared mutation, over one order. *)
Definition proofs_locked {A} (id : string) (build : Order → TX (A * option Change)) : TX A :=
  Mutate Apply id (λ o _, build o).

(** A read that may find nothing. *)
Definition optional {A} (m : TX A) : TX (option A) :=
  catch (a ← m; mret (Some a)) (λ e, if decide (e = ErrNotFound) then mret None else fail e).
Definition precondition_if_missing {A} (m : TX A) : TX A :=
  catch m (λ e, fail (if decide (e = ErrNotFound) then ErrPrecondition else e)).

(** ** Uploads *)

Definition new_proof (id orderID courierID : string) (i : ProofUploadInput) (scope : string)
    (now : Time) : ProofUpload :=
  mkUpload ProofUploading id orderID courierID (pi_UploadID i) ("order/proof/" +:+ id)
    (pi_ContentType i) EmptyString scope None (pi_SizeBytes i) 0 0 0 now.

(** The identity of an upload: the stored one, or a new one within the limit. *)
Definition staged_proof (s : Proofs) (o : Order) (c : Caller) (i : ProofUploadInput) (now : Time)
    : TX ProofUpload :=
  stored ← optional (FindProofUpload (o_ID o) (cl_ID c) (pi_UploadID i));
  match stored with
  | None =>
      count ← CountStagedProofs (o_ID o) (cl_ID c);
      _ ← ensure_tx (count <? MaxStagedProofs) ErrPrecondition;
      env ← ask;
      mret (new_proof (newID env 0%nat) (o_ID o) (cl_ID c) i (ps_uploadScope s) now)
  | Some u =>
      _ ← ensure_tx (same (pu_State u) ProofUploading && same (pu_UploadScope u) (ps_uploadScope s))
                    ErrPrecondition;
      _ ← ensure_tx (same (pu_ContentType u) (pi_ContentType i) && (pu_SizeBytes u =? pi_SizeBytes i))
                    ErrAlreadyExists;
      mret u
  end.

(** A new generation of the grant. *)
Definition regranted (u : ProofUpload) (epoch : string) (credentialExpiry now : Time) : ProofUpload :=
  let granted := time_truncate now Second in
  let expires := granted + ImageUploadLifetime in
  let expires := if negb (IsZero credentialExpiry) && Before credentialExpiry expires
                 then credentialExpiry else expires in
  u <| pu_Generation := add64 (pu_Generation u) 1 |> <| pu_GrantedAt := granted |>
    <| pu_SigningEpoch := epoch |> <| pu_ExpiresAt := expires |>.

Definition upload_build (s : Proofs) (c : Caller) (i : ProofUploadInput) (epoch : string)
    (credentialExpiry : Time) (o : Order) : TX (ProofUpload * option Change) :=
  now ← proofTime s;
  _ ← lift (canUploadProof o c now);
  u ← staged_proof s o c i now;
  if (pu_Generation u =? 0) || negb (After (pu_ExpiresAt u) now) || negb (same (pu_SigningEpoch u) epoch)
  then
    let u := regranted u epoch credentialExpiry now in
    _ ← ensure_tx (After (pu_ExpiresAt u) now) ErrUnavailable;
    _ ← SaveProofUpload u;
    mret (u, None)
  else mret (u, None).

(** proofUploadMatches: the identity and the grant. *)
Definition proofUploadMatches (u v : ProofUpload) : bool :=
  proofEvidenceMatches u v && (pu_Generation u =? pu_Generation v)
  && same (pu_SigningEpoch u) (pu_SigningEpoch v) && (pu_GrantedAt u =? pu_GrantedAt v)
  && (pu_ExpiresAt u =? pu_ExpiresAt v).

Definition granted_build (s : Proofs) (c : Caller) (u : ProofUpload) (g : UploadGrant) (o : Order)
    : TX (unit * option Change) :=
  now ← proofTime s;
  _ ← lift (canUploadProof o c now);
  stored ← GetProofUpload (pu_ID u);
  _ ← ensure_tx (proofUploadMatches stored u && After (ug_ExpiresAt g) now) ErrConflict;
  mret (tt, None).

(** What a call of two transactions meets. *)
Record TwoSteps := {
  ts_first : Env * Faults;
  ts_meanwhile : ODB → ODB;
  ts_second : Env * Faults;
}.

(** The identity is persisted before it is signed, and checked again after. *)
Definition proof_CreateUpload (s : Proofs) (x : TwoSteps) (c : Caller) (i : ProofUploadInput) (d : ODB)
    : result Error (ProofUpload * UploadGrant) * ODB :=
  match (co ← proofCaller c (pi_OrderID i);
         id ← match parseID (pi_UploadID i) with Ok v => Ok v | Err _ => Err ErrInvalid end;
         _ ← guard_ok (validImageType (pi_ContentType i) && (1 <=? pi_SizeBytes i)
                       && (pi_SizeBytes i <=? MaxImageBytes)) ErrInvalid;
         grants ← from_option_ok (ps_grants s) ErrUnavailable;
         epoch ← from_option_ok (ProofSigningEpoch grants) ErrUnavailable;
         _ ← guard_ok (nonempty epoch.1) ErrUnavailable;
         mret (co, id, grants, epoch)) with
  | Err e => (Err e, d)
  | Ok (c, orderID, id, grants, (epoch, expiry)) =>
      let i := {| pi_OrderID := orderID; pi_UploadID := id; pi_ContentType := pi_ContentType i;
                  pi_SizeBytes := pi_SizeBytes i |} in
      match within_tx (ts_first x).1 (ts_first x).2
              (proofs_locked orderID (upload_build s c i epoch expiry)) d with
      | (Err e, d1) => (Err e, d1)
      | (Ok u, d1) =>
          match CreateProofGrant grants u with
          | Some g =>
              if nonempty (ug_URL g) && same (ug_Method g) "PUT" && (ug_ExpiresAt g =? pu_ExpiresAt u)
              then match within_tx (ts_second x).1 (ts_second x).2
                           (proofs_locked orderID (granted_build s c u g)) (ts_meanwhile x d1) with
                   | (Err e, d2) => (Err e, d2)
                   | (Ok _, d2) => (Ok (u, g), d2)
                   end
              else (Err ErrUnavailable, d1)
          | None => (Err ErrUnavailable, d1)
          end
      end
  end.

Definition abandon_build (s : Proofs) (c : Caller) (orderID uploadID : string) (o : Order)
    : TX (unit * option Change) :=
  _ ← ensure_tx (IsAssignedTo o (cl_ID c)) ErrNotFound;
  row ← optional (FindProofUpload orderID (cl_ID c) uploadID);
  _ ← ensure_tx (match row with Some u => negb (same (pu_State u) ProofAccepted) | None => true end)
                ErrPrecondition;
  now ← proofTime s;
  _ ← AbandonProofUpload orderID (cl_ID c) uploadID now;
  mret (tt, None).

Definition AbandonUpload (s : Proofs) (at_ : Env * Faults) (c : Caller) (orderID uploadID : string)
    (d : ODB) : result Error unit * ODB :=
  match (co ← proofCaller c orderID;
         id ← match parseID uploadID with Ok v => Ok v | Err _ => Err ErrInvalid end;
         mret (co, id)) with
  | Err e => (Err e, d)
  | Ok (c, orderID, id) => within_tx at_.1 at_.2 (proofs_locked orderID (abandon_build s c orderID id)) d
  end.

(** ** Verification *)

(** verifyObject fetches and decodes the stored object. *)
Definition verifyObject (s : Proofs) (u : ProofUpload) : result Error unit :=
  _ ← guard_ok (same (pu_UploadScope u) (ps_uploadScope s)) ErrUnavailable;
  _ ← guard_ok (ps_slot s (pu_ID u)) ErrUnavailable;
  objects ← from_option_ok (ps_objects s) ErrUnavailable;
  validate ← from_option_ok (ps_validator s) ErrUnavailable;
  _ ← match Inspect objects (pu_Key u) with
      | ObjectNotFound => Err ErrPrecondition
      | InspectionFailed => Err ErrUnavailable
      | Inspected info => guard_ok (object_matches info (pu_SizeBytes u) (pu_ContentType u)) ErrPrecondition
      end;
  match ReadProof objects (pu_Key u) with
  | ReadNotFound => Err ErrPrecondition
  | ReadFailed => Err ErrUnavailable
  | ReadBody body =>
      let data := limit_reader (MaxImageBytes + 1) body in
      _ ← guard_ok (Z.of_nat (String.length data) =? pu_SizeBytes u) ErrPrecondition;
      validate (pu_ContentType u) data
  end.

Fixpoint verify_all (s : Proofs) (us : list ProofUpload) : result Error unit :=
  match us with
  | [] => Ok tt
  | u :: rest => _ ← verifyObject s u; verify_all s rest
  end.

(** recheckProofs: the uploads are still the ones that were verified. *)
Fixpoint recheckProofs (o : Order) (c : Caller) (rows : list ProofUpload) : TX unit :=
  match rows with
  | [] => mret tt
  | e :: rest =>
      u ← GetProofUpload (pu_ID e);
      _ ← ensure_tx (same (pu_State u) ProofUploading && proofBelongsTo u (o_ID o) (cl_ID c)
                     && same (pu_ID u) (pu_ID e) && same (pu_Key u) (pu_Key e)
                     && same (pu_ContentType u) (pu_ContentType e) && (pu_SizeBytes u =? pu_SizeBytes e))
                    ErrPrecondition;
      recheckProofs o c rest
  end.

Definition verify_build (s : Proofs) (c : Caller) (id : string) (o : Order)
    : TX (ProofUpload * option Change) :=
  now ← proofTime s;
  _ ← lift (canUploadProof o c now);
  u ← GetProofUpload id;
  _ ← ensure_tx (same (pu_State u) ProofUploading && proofBelongsTo u (o_ID o) (cl_ID c)) ErrNotFound;
  mret (u, None).

Definition verified_build (s : Proofs) (c : Caller) (u : ProofUpload) (o : Order)
    : TX (unit * option Change) :=
  now ← proofTime s;
  _ ← lift (canUploadProof o c now);
  _ ← recheckProofs o c [u];
  _ ← MarkProofVerified (pu_ID u);
  mret (tt, None).

Definition VerifyUpload (s : Proofs) (x : TwoSteps) (c : Caller) (orderID proofID : string) (d : ODB)
    : result Error unit * ODB :=
  match (co ← proofCaller c orderID; id ← parseID proofID; mret (co, id)) with
  | Err e => (Err e, d)
  | Ok (c, orderID, id) =>
      match within_tx (ts_first x).1 (ts_first x).2 (proofs_locked orderID (verify_build s c id)) d with
      | (Err e, d1) => (Err e, d1)
      | (Ok u, d1) =>
          match verifyObject s u with
          | Err e => (Err e, d1)
          | Ok _ => within_tx (ts_second x).1 (ts_second x).2
                      (proofs_locked orderID (verified_build s c u)) (ts_meanwhile x d1)
          end
      end
  end.

(** ** Confirmation of a delivery *)

(** DeliveryReceipt.matches. *)
Definition receipt_matches (r : DeliveryReceipt) (c : Caller) (i : ConfirmDeliveryInput) : bool :=
  EqualFold (dr_CourierID r) (cl_ID c) && same (dr_OrderID r) (cd_OrderID i)
  && same (dr_ProofIDs r) (cd_ProofIDs i) && Bool.eqb (dr_Unattended r) (cd_Unattended i)
  && Bool.eqb (dr_WithoutProof r) (cd_WithoutProof i).

(** The time of a confirmation: that of its durable receipt, read again. *)
Definition receiptTime (s : Proofs) (c : Caller) (i : ConfirmDeliveryInput)
    (expected : option DeliveryReceipt) : TX Time :=
  match expected with
  | None => proofTime s
  | Some r =>
      stored ← GetDeliveryReceipt (dr_ID r);
      _ ← ensure_tx ((same (dr_State stored) ReceiptPending || same (dr_State stored) ReceiptAccepted)
                     && receipt_matches stored c i && (dr_ReceivedAt stored =? dr_ReceivedAt r))
                    ErrPrecondition;
      mret (dr_ReceivedAt stored)
  end.

(** The stored confirmation is the one that is asked for. *)
Definition confirms_input (p : ProofConfirmation) (courier_ok : bool) (i : ConfirmDeliveryInput) : bool :=
  courier_ok && Bool.eqb (pc_Unattended p) (cd_Unattended i) && same (pc_ProofIDs p) (cd_ProofIDs i)
  && Bool.eqb (nonempty (pc_OutageReason p)) (cd_WithoutProof i).

(** Only a durable confirmation is a repeat; it is recognised before status
    and deadline. *)
Definition confirmationState (o : Order) (c : Caller) (i : ConfirmDeliveryInput) (now : Time)
    : TX bool :=
  _ ← ensure_tx (IsAssignedTo o (cl_ID c)) ErrNotFound;
  accepted ← optional (GetProofConfirmation (o_ID o));
  match accepted with
  | Some p =>
      _ ← ensure_tx (confirms_input p (EqualFold (pc_CourierID p) (cl_ID c)) i) ErrPrecondition;
      _ ← ensure_tx (same (o_Status o) Delivered || same (o_Status o) Completed) ErrPrecondition;
      mret true
  | None => _ ← lift (canUploadProof o c now); mret false
  end.

Fixpoint load_proofs (o : Order) (c : Caller) (ids : list string) : TX (list ProofUpload) :=
  match ids with
  | [] => mret []
  | id :: rest =>
      u ← precondition_if_missing (GetProofUpload id);
      _ ← ensure_tx (same (pu_State u) ProofUploading && proofBelongsTo u (o_ID o) (cl_ID c))
                    ErrPrecondition;
      us ← load_proofs o c rest;
      mret (u :: us)
  end.

(** The first transaction: the repeated order, or the uploads to verify. *)
Definition confirm_first (s : Proofs) (c : Caller) (i : ConfirmDeliveryInput)
    (receipt : option DeliveryReceipt) (o : Order) : TX ((Order + list ProofUpload) * option Change) :=
  at_ ← receiptTime s c i receipt;
  repeat ← confirmationState o c i at_;
  if repeat : bool then mret (inl o, None)
  else us ← load_proofs o c (cd_ProofIDs i); mret (inr us, None).

(** The evidence of an exception: the receipt's, or what the authority says. *)
Definition delivery_evidence (s : Proofs) (authority : result Error ProofOutage)
    (timestamp : Time) (i : ConfirmDeliveryInput) (receipt : option DeliveryReceipt)
    (us : list ProofUpload) : result Error (option ProofOutage) :=
  if cd_WithoutProof i then
    match receipt ≫= dr_Outage with
    | Some outage => Ok (Some outage)
    | None =>
        _ ← guard_ok (ps_outages s) ErrPrecondition;
        outage ← match authority with Ok o => Ok o | Err _ => Err ErrUnavailable end;
        _ ← guard_ok (is_some receipt || isCurrentProofOutage s outage timestamp) ErrPrecondition;
        mret (Some outage)
    end
  else _ ← verify_all s us; mret None.

Definition delivered_order (o : Order) (next : Status) (i : ConfirmDeliveryInput)
    (at_ processed : Time) : Order :=
  next_revision (o <| o_Status := next |> <| o_DeliveredAt := Some at_ |>
    <| o_UnattendedDelivery := cd_Unattended i |> <| o_UpdatedAt := processed |>).

Definition confirmation_of (o : Order) (c : Caller) (i : ConfirmDeliveryInput)
    (outage : option ProofOutage) (at_ : Time) : ProofConfirmation := {|
  pc_OrderID := o_ID o; pc_CourierID := cl_ID c; pc_ProofIDs := cd_ProofIDs i;
  pc_Unattended := cd_Unattended i;
  pc_OutageReason := match outage with Some g => po_Reason g | None => EmptyString end;
  pc_Outage := outage; pc_ConfirmedAt := at_ |}.

(** Without a receipt, an exception still needs the outage to be current. *)
Definition exception_current (s : Proofs) (i : ConfirmDeliveryInput) (receipt : option DeliveryReceipt)
    (outage : option ProofOutage) (now : Time) : TX unit :=
  match receipt, outage with
  | None, Some g =>
      if cd_WithoutProof i then
        _ ← ensure_tx (isCurrentProofOutage s g now) ErrPrecondition;
        current ← IsProofOutageCurrent g;
        ensure_tx current ErrPrecondition
      else mret tt
  | _, _ => mret tt
  end.

(** The second transaction: confirmation, receipt and order together. *)
Definition confirm_second (s : Proofs) (c : Caller) (i : ConfirmDeliveryInput)
    (receipt : option DeliveryReceipt) (outage : option ProofOutage) (us : list ProofUpload) (o : Order)
    : TX (Order * option Change) :=
  now ← receiptTime s c i receipt;
  processed ← (if is_some receipt then ProofServerTime else proofTime s);
  repeat ← confirmationState o c i now;
  if repeat : bool then mret (o, None)
  else
    _ ← exception_current s i receipt outage now;
    _ ← recheckProofs o c us;
    let actor := user_actor c in
    '(next, _) ← lift (Transition o Deliver actor);
    let after := delivered_order o next i now processed in
    let confirmation := confirmation_of o c i outage now in
    details ← lift (from_option_ok (confirmation_json confirmation) ErrMarshal);
    env ← ask;
    change ← lift (NewChange (Some o) after actor Deliver (Some details) (newID env));
    _ ← SaveProofConfirmation confirmation us;
    mret (after, Some change).

(** The input, canonical. *)
Definition normalized_input (c : Caller) (i : ConfirmDeliveryInput)
    : result Error (Caller * ConfirmDeliveryInput) :=
  co ← proofCaller c (cd_OrderID i);
  ids ← match normalizedProofIDs (cd_ProofIDs i) with Ok v => Ok v | Err _ => Err ErrInvalid end;
  _ ← guard_ok (Bool.eqb (bool_decide (ids = [])) (cd_WithoutProof i)) ErrInvalid;
  mret (co.1, {| cd_OrderID := co.2; cd_ProofIDs := ids; cd_Unattended := cd_Unattended i;
                 cd_WithoutProof := cd_WithoutProof i |}).

Definition confirmReceipt (s : Proofs) (x : TwoSteps) (authority : result Error ProofOutage)
    (c : Caller) (i : ConfirmDeliveryInput) (receipt : option DeliveryReceipt) (d : ODB)
    : result Error Order * ODB :=
  match normalized_input c i with
  | Err e => (Err e, d)
  | Ok (c, i) =>
      match within_tx (ts_first x).1 (ts_first x).2
              (proofs_locked (cd_OrderID i) (confirm_first s c i receipt)) d with
      | (Err e, d1) => (Err e, d1)
      | (Ok (inl o), d1) => (Ok o, d1)
      | (Ok (inr us), d1) =>
          match delivery_evidence s authority (proof_timestamp s (ts_first x).1) i receipt us with
          | Err e => (Err e, d1)
          | Ok outage =>
              within_tx (ts_second x).1 (ts_second x).2
                (proofs_locked (cd_OrderID i) (confirm_second s c i receipt outage us))
                (ts_meanwhile x d1)
          end
      end
  end.

(** ** Receipts (proofreceipts.go) *)

(** Every listed photo is a verified upload of this courier. *)
Fixpoint admissible_proofs (s : Proofs) (o : Order) (c : Caller) (now : Time) (ids : list string)
    : TX unit :=
  match ids with
  | [] => mret tt
  | id :: rest =>
      u ← precondition_if_missing (GetProofUpload id);
      _ ← ensure_tx (proofBelongsTo u (o_ID o) (cl_ID c)
                     && same (pu_UploadScope u) (ps_uploadScope s) && same (pu_State u) ProofUploading
                     && match pu_VerifiedAt u with Some v => v <=? now | None => false end) ErrPrecondition;
      admissible_proofs s o c now rest
  end.

(** What the authority said before the transaction: nothing was asked, an
    outage, or an error. *)
Definition admissible_outage (s : Proofs) (asked : option (result Error ProofOutage)) (now : Time)
    : TX (option ProofOutage) :=
  match asked with
  | Some (Err e) => fail (if decide (e = ErrPrecondition) then ErrPrecondition else ErrUnavailable)
  | None => fail ErrPrecondition
  | Some (Ok g) =>
      _ ← ensure_tx (isCurrentProofOutage s g now) ErrPrecondition;
      current ← IsProofOutageCurrent g;
      _ ← ensure_tx current ErrPrecondition;
      mret (Some g)
  end.

Definition new_receipt (id : string) (o : Order) (c : Caller) (i : ConfirmDeliveryInput)
    (outage : option ProofOutage) (now : Time) : DeliveryReceipt := {|
  dr_ID := id; dr_OrderID := o_ID o; dr_CourierID := cl_ID c; dr_ProofIDs := cd_ProofIDs i;
  dr_Unattended := cd_Unattended i; dr_WithoutProof := cd_WithoutProof i; dr_ReceivedAt := now;
  dr_ProcessedAt := None; dr_State := ReceiptPending; dr_Outage := outage; dr_AttemptCount := 0 |}.

(** The admission: the accepted order, or the receipt to process. *)
Definition admit_delivery (s : Proofs) (c : Caller) (i : ConfirmDeliveryInput)
    (asked : option (result Error ProofOutage)) (o : Order)
    : TX ((Order + DeliveryReceipt) * option Change) :=
  _ ← ensure_tx (IsAssignedTo o (cl_ID c)) ErrNotFound;
  existing ← optional (GetProofConfirmation (o_ID o));
  match existing with
  | Some p =>
      _ ← ensure_tx (confirms_input p (same (pc_CourierID p) (cl_ID c)) i) ErrPrecondition;
      mret (inl o, None)
  | None =>
      pending ← optional (GetPendingDeliveryReceipt (o_ID o));
      match pending with
      | Some r =>
          _ ← ensure_tx (receipt_matches r c i) ErrPrecondition;
          mret (inr r, None)
      | None =>
          now ← ProofServerTime;
          _ ← lift (canUploadProof o c now);
          _ ← admissible_proofs s o c now (cd_ProofIDs i);
          outage ← (if cd_WithoutProof i then admissible_outage s asked now else mret None);
          env ← ask;
          let r := new_receipt (newID env 0%nat) o c i outage now in
          _ ← InsertDeliveryReceipt r;
          mret (inr r, None)
      end
  end.

(** What ends a receipt that cannot be confirmed. *)
Definition finish_build_receipt (r : DeliveryReceipt) (o : Order) : TX (unit * option Change) :=
  current ← GetDeliveryReceipt (dr_ID r);
  if negb (same (dr_State current) ReceiptPending) then mret (tt, None)
  else
    let state := if negb (same (o_Status o) Delivering) || negb (IsAssignedTo o (dr_CourierID r))
                 then ReceiptSuperseded else ReceiptRejected in
    now ← ProofServerTime;
    _ ← FinishDeliveryReceipt (dr_ID r) state now;
    mret (tt, None).

(** The errors that end a receipt; any other is retried later. *)
Definition refuses_receipt (e : Error) : bool :=
  match e with
  | ErrPrecondition | ErrRejected _ | ErrNotFound | ErrInvalid | ErrForbidden => true
  | _ => false
  end.

Definition receipt_input (r : DeliveryReceipt) : ConfirmDeliveryInput := {|
  cd_OrderID := dr_OrderID r; cd_ProofIDs := dr_ProofIDs r; cd_Unattended := dr_Unattended r;
  cd_WithoutProof := dr_WithoutProof r |}.

(** process; [fin] surrounds what follows a failure. *)
Definition process (s : Proofs) (x : TwoSteps) (fin : Env * Faults) (authority : result Error ProofOutage)
    (r : DeliveryReceipt) (d : ODB) : result Error Order * ODB :=
  let courier := {| cl_ID := dr_CourierID r; cl_Admin := false; cl_Suspended := false |} in
  match confirmReceipt s x authority courier (receipt_input r) (Some r) d with
  | (Ok o, d1) => (Ok o, d1)
  | (Err e, d1) =>
      if refuses_receipt e then
        match within_tx fin.1 fin.2 (proofs_locked (dr_OrderID r) (finish_build_receipt r)) d1 with
        | (Ok _, d2) => (Err e, d2)
        | (Err e', d2) => (Err e', d2)
        end
      else
        match begin_fault fin.2 with
        | Some code => (Err (Pg code), d1)
        | None =>
            let server := stored_time (server_time fin.1) in
            (Err e, (AlertReceipt server (dr_ID r) (RetryReceipt server (dr_ID r) d1)).1)
        end
  end.

(** ConfirmDelivery: admission commits before remote validation. *)
Definition ConfirmDelivery (s : Proofs) (admit_ : Env * Faults) (x : TwoSteps) (fin : Env * Faults)
    (authority : result Error ProofOutage) (c : Caller) (i : ConfirmDeliveryInput) (d : ODB)
    : result Error Order * ODB :=
  match normalized_input c i with
  | Err e => (Err e, d)
  | Ok (c, i) =>
      let asked := if cd_WithoutProof i && ps_outages s then Some authority else None in
      match within_tx admit_.1 admit_.2 (proofs_locked (cd_OrderID i) (admit_delivery s c i asked)) d with
      | (Err e, d1) => (Err e, d1)
      | (Ok (inl o), d1) => (Ok o, d1)
      | (Ok (inr r), d1) => process s x fin authority r d1
      end
  end.

(** Each listed receipt in turn, with its surroundings; the scan ends early when
    a receipt cannot be read. *)
Fixpoint recover_receipts (s : Proofs) (authority : result Error ProofOutage)
    (at_ : string → TwoSteps * (Env * Faults)) (ids : list string) (d : ODB)
    : result Error unit * ODB :=
  match ids with
  | [] => (Ok tt, d)
  | id :: rest =>
      match (uid ← parseID id; from_option_ok (GetReceipt uid d) ErrNotFound) with
      | Err e => (Err e, d)
      | Ok row =>
          if same (rc_State row) ReceiptPending
          then let d' := (process s (at_ id).1 (at_ id).2 authority (fromDeliveryReceipt row) d).2 in
               recover_receipts s authority at_ rest d'
          else recover_receipts s authority at_ rest d
      end
  end.

Definition RecoverOnce (s : Proofs) (authority : result Error ProofOutage)
    (at_ : string → TwoSteps * (Env * Faults)) (server : Time) (d : ODB) : result Error unit * ODB :=
  recover_receipts s authority at_ (DueReceipts server 20 d) d.

(** ** Views *)

Definition pending_view (o : Order) (c : Caller) : TX (option DeliveryReceipt) :=
  if IsAssignedTo o (cl_ID c) then
    pending ← optional (GetPendingDeliveryReceipt (o_ID o));
    mret (match pending with
          | Some r => if EqualFold (dr_CourierID r) (cl_ID c) then Some r else None
          | None => None
          end)
  else mret None.

Fixpoint accepted_proofs (s : Proofs) (orderID courierID : string) (ids : list string)
    : TX (list ProofUpload) :=
  match ids with
  | [] => mret []
  | id :: rest =>
      u ← GetProofUpload id;
      _ ← ensure_tx (same (pu_State u) ProofAccepted && proofBelongsTo u orderID courierID) ErrPrecondition;
      _ ← ensure_tx (same (pu_UploadScope u) (ps_uploadScope s)) ErrUnavailable;
      us ← accepted_proofs s orderID courierID rest;
      mret (u :: us)
  end.

(** ForOrder's transaction: participants only. *)
Definition proofs_view (s : Proofs) (c : Caller) (orderID : string) (o : Order)
    : TX ((option DeliveryReceipt * option ProofConfirmation * list ProofUpload) * option Change) :=
  _ ← ensure_tx (HasParticipant o (cl_ID c)) ErrNotFound;
  stored ← optional (GetProofConfirmation orderID);
  match stored with
  | None => pending ← pending_view o c; mret ((pending, None, []), None)
  | Some p =>
      us ← accepted_proofs s orderID (pc_CourierID p) (pc_ProofIDs p);
      mret ((None, Some p, us), None)
  end.

Record ProofView := {
  pv_ID : string;
  pv_DownloadURL : string;
  pv_ContentType : string;
  pv_ExpiresAt : Time;
}.
Record DeliveryProofView := {
  dv_Pending : option DeliveryReceipt;
  dv_Proofs : list ProofView;
  dv_OutageReason : string;
}.

Fixpoint proof_downloads (s : Proofs) (us : list ProofUpload) : result Error (list ProofView) :=
  match us with
  | [] => mret []
  | u :: rest =>
      objects ← from_option_ok (ps_objects s) ErrUnavailable;
      grant ← from_option_ok (CreateDownload objects (pu_Key u)) ErrUnavailable;
      views ← proof_downloads s rest;
      mret ({| pv_ID := pu_ID u; pv_DownloadURL := grant.1; pv_ContentType := pu_ContentType u;
               pv_ExpiresAt := grant.2 |} :: views)
  end.

Definition ForOrder (s : Proofs) (at_ : Env * Faults) (c : Caller) (orderID : string) (d : ODB)
    : result Error DeliveryProofView * ODB :=
  match proofCaller c orderID with
  | Err e => (Err e, d)
  | Ok (c, orderID) =>
      match within_tx at_.1 at_.2 (proofs_locked orderID (proofs_view s c orderID)) d with
      | (Err e, d1) => (Err e, d1)
      | (Ok (pending, confirmation, us), d1) =>
          (views ← proof_downloads s us;
           mret {| dv_Pending := pending; dv_Proofs := views;
                   dv_OutageReason := match confirmation with
                                      | Some p => pc_OutageReason p
                                      | None => EmptyString
                                      end |}, d1)
      end
  end.

(** ** Cleanup (proofcleanup.go) *)

(** An upload that no delivery can use any more; its key, once it may be
    deleted. *)
Definition cleanup_build (s : Proofs) (id : string) (o : Order) : TX (option string * option Change) :=
  u ← GetProofUpload id;
  if same (pu_State u) ProofAccepted || negb (same (pu_UploadScope u) (ps_uploadScope s))
  then mret (None, None)
  else
    now ← ProofServerTime;
    if After (pu_ExpiresAt u) now then mret (None, None)
    else
      pending ← tx_HasPendingDelivery (o_ID o);
      if pending : bool then mret (None, None)
      else if same (pu_State u) ProofUploading && same (o_Status o) Delivering
              && match o_PickedUpAt o with
                 | Some p => Before now (p + mul64 2 (o_DeliveryDuration o))
                 | None => false
                 end
      then mret (None, None)
      else
        _ ← AbandonProofUpload (o_ID o) (pu_CourierID u) (pu_UploadID u) now;
        claimed ← ScheduleProofCleanup (pu_ID u) (now + Hour);
        mret (if claimed : bool then Some (pu_Key u) else None, None).

(** The first failed transaction ends the scan, a failed deletion does not. *)
Fixpoint clean_all (s : Proofs) (at_ : string → Env * Faults) (ids : list string) (d : ODB)
    : result Error unit * ODB :=
  match ids with
  | [] => (Ok tt, d)
  | id :: rest =>
      match GetUpload id d with
      | None => (Err ErrNotFound, d)
      | Some row =>
          match within_tx (at_ id).1 (at_ id).2 (proofs_locked (up_OrderID row) (cleanup_build s id)) d with
          | (Err e, d1) => (Err e, d1)
          | (Ok _, d1) => clean_all s at_ rest d1
          end
      end
  end.

Definition CleanOnce (s : Proofs) (at_ : string → Env * Faults) (server now : Time) (d : ODB)
    : result Error unit * ODB :=
  clean_all s at_ (ProofCleanupCandidates server now (ps_uploadScope s) 50 d) d.

(** ** Outages (proofoutages.go) *)

(** The prober's own state. *)
Record ProofOutages := {
  og_failures : Z;
  og_cleanup : string;
}.

Inductive Probe :=
| ProbeOk
| ProbeUnavailable
| ProbeFailed.

(** ConfirmProofOutage: expiry is checked with the database's clock. *)
Definition ConfirmProofOutage (scope : string) (d : ODB) : result Error ProofOutage :=
  match CurrentProofOutage scope d with
  | Some (g, true) => Ok g
  | _ => Err ErrPrecondition
  end.

(** ProbeOnce: two failures in a row certify an outage, anything else revokes
    it. [probe] is the result of the upload with the key it leaves to delete,
    [deleted] whether the last such key could be deleted. *)
Definition ProbeOnce (scope evidence : string) (deleted : bool) (probe : Probe * string) (env : Env)
    (st : ProofOutages) (d : ODB) : result Error unit * ProofOutages * ODB :=
  if nonempty (og_cleanup st) && negb deleted
  then (Err (ErrOther "proof probe cleanup remains pending"), st, d)
  else
    let failures := match probe.1 with ProbeUnavailable => og_failures st + 1 | _ => 0 end in
    (match probe.1 with ProbeFailed => Err (ErrOther "proof probe") | _ => Ok tt end,
     {| og_failures := failures; og_cleanup := probe.2 |},
     PublishProofOutage scope evidence (2 <=? failures) env d).

End proofs.
