(* ===== verification/OrderOutbox.v ===== *)
(** * Order: publication of facts

    order-service/internal/outbox: a committed fact becomes an event, and the
    relay publishes the facts of an order in the order of their revisions. A
    timestamp or duration of protobuf is kept as the time it denotes. *)
From stdpp Require Import prelude gmap strings list sorting.
From Stdlib Require Import ZArith.
From S2P Require Import Prelude.
From S2P Require Import GoLib.
From S2P Require Import GoText.
From S2P Require Import OrderTypes.
From S2P Require Import OrderPolicy.
From S2P Require Import OrderDB.
From S2P Require Import OrderStore.

Local Open Scope Z_scope.
Local Open Scope foc_scope.

(** ** Events (order/events/v1) *)

Inductive OrderOutcomeType :=
| OUTCOME_UNSPECIFIED
| OUTCOME_COMPLETED
| OUTCOME_CANCELLED_BEFORE_PICKUP
| OUTCOME_CANCELLED_AFTER_PICKUP
| OUTCOME_EXPIRED
| OUTCOME_FAILED.
#[export] Instance OrderOutcomeType_eq_dec : EqDecision OrderOutcomeType.
Proof. solve_decision. Defined.

Record OrderOutcome := {
  ev_EventId : string;
  ev_OrderId : string;
  ev_Outcome : OrderOutcomeType;
  ev_RequesterId : string;
  ev_CourierId : option string;
  ev_ReservedCredits : Z;
  ev_DeliveryDuration : option Duration;
  ev_PickedUpAt : option Time;
  ev_DeliveredAt : option Time;
  ev_OccurredAt : Time;
}.

Record OrderStatusChanged := {
  sc_EventId : string;
  sc_OrderId : string;
  sc_Revision : Z;
  sc_PreviousStatus : Status;
  sc_Status : Status;
  sc_ActorKind : ActorKind;
  sc_ActorId : option string;
  sc_RequesterId : string;
  sc_CourierId : option string;
  sc_PreviousCourierId : option string;
  sc_PickupLocationName : string;
  sc_OccurredAt : Time;
}.

Inductive CourierWarningReason := CANCELLED_AFTER_PICKUP | ZERO_PAYABLE_REWARD.

Record CourierWarningRequested := {
  cw_EventId : string;
  cw_OrderId : string;
  cw_CourierId : string;
  cw_Reason : CourierWarningReason;
  cw_OccurredAt : Time;
}.

Inductive Message :=
| MStatusChanged (m : OrderStatusChanged)
| MOutcome (m : OrderOutcome)
| MCourierWarning (m : CourierWarningRequested).

(** ** Encoding (encode.go) *)

Inductive EncodeError :=
| UnsupportedVersion
| InvalidIdentity
| InvalidStatus
| InvalidPreviousStatus
| InvalidActor
| InvalidOutcome
| InvalidWarning
| UnsupportedWarningAction.

(** A claimed fact, with what the relay reads of its audit row and its order. *)
Record Fact := {
  ft_ID : string;
  ft_OrderID : string;
  ft_Kind : FactKind;
  ft_LeaseToken : string;
  ft_ActorKind : ActorKind;
  ft_PickupName : string;
  ft_ActorID : option string;
  ft_Revision : Z;
  ft_Version : Z;
  ft_Payload : FactsPayload;
}.

Definition outcomeType (p : FactsPayload) : result EncodeError OrderOutcomeType :=
  match p_Status p with
  | Completed =>
      match p_CourierID p, p_PickedUpAt p, p_DeliveredAt p with
      | Some _, Some picked_up, Some delivered =>
          if Before delivered picked_up || (p_DeliveryDurationNS p <=? 0) then Err InvalidOutcome
          else Ok OUTCOME_COMPLETED
      | _, _, _ => Err InvalidOutcome
      end
  | Cancelled =>
      if p_AfterPickup p then
        match p_CourierID p, p_PickedUpAt p with
        | Some _, Some _ => Ok OUTCOME_CANCELLED_AFTER_PICKUP
        | _, _ => Err InvalidOutcome
        end
      else Ok OUTCOME_CANCELLED_BEFORE_PICKUP
  | Expired => Ok OUTCOME_EXPIRED
  | Failed => Ok OUTCOME_FAILED
  | _ => Err InvalidOutcome
  end.

(** The keys of the eventStatuses map: every status and the empty one. *)
Definition event_status (s : Status) : bool := IsValid s || same s NoStatus.
Definition event_actor (k : ActorKind) : bool := match k with OtherActor _ => false | _ => true end.

Definition encode (f : Fact) : result EncodeError Message :=
  let p := ft_Payload f in
  _ ← guard_ok (ft_Version f =? 1) UnsupportedVersion;
  _ ← guard_ok (same (p_OrderID p) (ft_OrderID f) && (p_Revision p =? ft_Revision f)
                && nonempty (p_RequesterID p) && negb (IsZero (p_At p))) InvalidIdentity;
  match ft_Kind f with
  | StatusChanged =>
      _ ← guard_ok (event_status (p_Status p)) InvalidStatus;
      _ ← guard_ok (event_status (p_PreviousStatus p)) InvalidPreviousStatus;
      _ ← guard_ok (event_actor (ft_ActorKind f)) InvalidActor;
      mret (MStatusChanged {|
        sc_EventId := ft_ID f; sc_OrderId := ft_OrderID f; sc_Revision := ft_Revision f;
        sc_PreviousStatus := p_PreviousStatus p; sc_Status := p_Status p;
        sc_ActorKind := ft_ActorKind f; sc_ActorId := ft_ActorID f;
        sc_RequesterId := p_RequesterID p; sc_CourierId := p_CourierID p;
        sc_PreviousCourierId := p_PreviousCourierID p;
        sc_PickupLocationName := ft_PickupName f; sc_OccurredAt := p_At p |})
  | Outcome =>
      outcome ← outcomeType p;
      mret (MOutcome {|
        ev_EventId := ft_ID f; ev_OrderId := ft_OrderID f; ev_Outcome := outcome;
        ev_RequesterId := p_RequesterID p; ev_CourierId := p_CourierID p;
        ev_ReservedCredits := p_ReservedCredits p;
        ev_DeliveryDuration := Some (p_DeliveryDurationNS p);
        ev_PickedUpAt := p_PickedUpAt p; ev_DeliveredAt := p_DeliveredAt p;
        ev_OccurredAt := p_At p |})
  | CourierWarning =>
      match p_CourierID p with
      | None => Err InvalidWarning
      | Some courier =>
          _ ← guard_ok (p_AfterPickup p && same (p_Status p) Failed) InvalidWarning;
          reason ← match p_Action p with
                   | Timeout => Ok ZERO_PAYABLE_REWARD
                   | Cancel => Ok CANCELLED_AFTER_PICKUP
                   | _ => Err UnsupportedWarningAction
                   end;
          mret (MCourierWarning {|
            cw_EventId := ft_ID f; cw_OrderId := ft_OrderID f; cw_CourierId := courier;
            cw_Reason := reason; cw_OccurredAt := p_At p |})
      end
  end.

(** ** The relay's queries (relay.sql) *)

(** (earlier.revision, earlier.ordinal) < (candidate.revision, candidate.ordinal) *)
Definition earlier (f g : FactRow) : bool :=
  (fr_Revision f <? fr_Revision g)
  || ((fr_Revision f =? fr_Revision g) && (fr_Ordinal f <? fr_Ordinal g)).

Definition unpublished (f : FactRow) : bool := negb (is_some (fr_PublishedAt f)).

Definition claimable (now : Time) (facts : list FactRow) (f : FactRow) : bool :=
  unpublished f
  && match fr_LeaseUntil f with Some t => t <=? stored_time now | None => true end
  && negb (existsb (λ g, same (fr_OrderID g) (fr_OrderID f) && unpublished g && earlier g f) facts).

(** ORDER BY created_at, order_id, revision, ordinal. *)
Definition claim_order (f g : FactRow) : Prop :=
  fr_CreatedAt f < fr_CreatedAt g
  ∨ (fr_CreatedAt f = fr_CreatedAt g ∧
     (String.ltb (fr_OrderID f) (fr_OrderID g) = true
      ∨ (fr_OrderID f = fr_OrderID g ∧ earlier g f = false))).
#[export] Instance claim_order_dec : RelDecision claim_order.
Proof. unfold RelDecision, claim_order. apply _. Defined.

Definition update_fact (id : string) (g : FactRow → FactRow) (facts : list FactRow) : list FactRow :=
  (λ f, if decide (fr_EventID f = id) then g f else f) <$> facts.

Definition ClaimOrderFact (token : string) (until now : Time) (d : ODB)
    : option (FactRow * ODB) :=
  match merge_sort claim_order (filter (λ f, claimable now (outbox d) f = true) (outbox d)) with
  | [] => None
  | f :: _ =>
      let lease g := g <| fr_LeaseToken := Some token |> <| fr_LeaseUntil := Some (stored_time until) |> in
      Some (lease f, d <| outbox := update_fact (fr_EventID f) lease (outbox d) |>)
  end.

Definition lease_held (id token : string) (now : Time) (f : FactRow) : bool :=
  same (fr_EventID f) id && same (fr_LeaseToken f) (Some token)
  && match fr_LeaseUntil f with Some t => stored_time now <? t | None => false end && unpublished f.

Definition MarkOrderFactPublished (id token : string) (now : Time) (d : ODB) : ODB * Z :=
  let set f := if lease_held id token now f then
      f <| fr_PublishedAt := Some (stored_time now) |> <| fr_LeaseToken := None |>
        <| fr_LeaseUntil := None |>
    else f in
  (d <| outbox := set <$> outbox d |>,
   Z.of_nat (length (filter (λ f, lease_held id token now f = true) (outbox d)))).

Definition RetryOrderFact (id token : string) (until : Time) (d : ODB) : ODB :=
  d <| outbox := (λ f,
    if same (fr_EventID f) id && same (fr_LeaseToken f) (Some token) && unpublished f
    then f <| fr_LeaseUntil := Some (stored_time until) |> else f) <$> outbox d |>.

(** ** The repository (outbox/postgres.go) *)

Inductive RelayError :=
| NotFoundError
| LeaseLost
| Encode (e : EncodeError)
| PublishFailed
| Unreachable.

Definition Claim (token : string) (now until : Time) (d : ODB)
    : result RelayError (option Fact) * ODB :=
  match ClaimOrderFact token until now d with
  | None => (Ok None, d)
  | Some (row, d') =>
      (match audit d' !! (fr_OrderID row, fr_Revision row), orders d' !! fr_OrderID row with
       | Some actor, Some order =>
           match unmarshal_snapshot (r_Pickup order) with
           | Ok pickup => Ok (Some {|
               ft_ID := fr_EventID row; ft_OrderID := fr_OrderID row; ft_Kind := fr_Kind row;
               ft_LeaseToken := token; ft_ActorKind := ad_ActorKind actor;
               ft_PickupName := Name pickup; ft_ActorID := ad_ActorID actor;
               ft_Revision := fr_Revision row; ft_Version := fr_PayloadVersion row;
               ft_Payload := fr_Payload row |})
           | Err _ => Err NotFoundError
           end
       | _, _ => Err NotFoundError
       end, d')
  end.

Definition Published (f : Fact) (now : Time) (d : ODB) : result RelayError unit * ODB :=
  let '(d', n) := MarkOrderFactPublished (ft_ID f) (ft_LeaseToken f) now d in
  (if n =? 1 then Ok tt else Err LeaseLost, d').

Definition Retry (f : Fact) (next : Time) (d : ODB) : ODB :=
  RetryOrderFact (ft_ID f) (ft_LeaseToken f) next d.

(** ** The relay (relay.go)

    What one iteration meets: its clock, its lease token, whether the broker
    accepted the message and replied, and whether the acknowledgement reached
    the database. *)
Record Turn := {
  tn_now : Time;
  tn_token : string;
  tn_accepted : bool;
  tn_replied : bool;
  tn_acked : bool;
}.

(** The messages the broker accepted, oldest first. *)
Definition Log : Type := list (string * Message).

(** One iteration of Drain: [true] when the batch may go on. *)
Definition drain_one (eligibleAt : Time) (t : Turn) (d : ODB) (log : Log)
    : bool * ODB * Log :=
  match Claim (tn_token t) eligibleAt (tn_now t + 30 * Second) d with
  | (Err _, d1) => (false, d1, log)
  | (Ok None, d1) => (false, d1, log)
  | (Ok (Some f), d1) =>
      match encode f with
      | Err _ => (true, Retry f (tn_now t + 2 * Second) d1, log)
      | Ok message =>
          let log' := if tn_accepted t then log ++ [(ft_OrderID f, message)] else log in
          if tn_accepted t && tn_replied t then
            if tn_acked t then
              match Published f (tn_now t) d1 with
              | (Ok _, d2) => (true, d2, log')
              | (Err _, d2) => (false, d2, log')
              end
            else (false, d1, log')
          else (true, Retry f (tn_now t + 2 * Second) d1, log')
      end
  end.

(** Drain publishes at most one fact per turn; eligibility is frozen. *)
Fixpoint Drain (eligibleAt : Time) (turns : list Turn) (d : ODB) (log : Log) : ODB * Log :=
  match turns with
  | [] => (d, log)
  | t :: rest =>
      let '(more, d', log') := drain_one eligibleAt t d log in
      if more : bool then Drain eligibleAt rest d' log' else (d', log')
  end.
