(* ===== verification/OrderFacts.v ===== *)
(** * Order: what the lifecycle policy guarantees

    A relational specification of the lifecycle, and what a change that passes
    NewChange and validateChange looks like. *)
From stdpp Require Import prelude gmap strings list.
From Stdlib Require Import ZArith Lia.
From S2P Require Import Prelude.
From S2P Require Import GoLib.
From S2P Require Import GoText.
From S2P Require Import OrderTypes.
From S2P Require Import OrderPolicy.

Local Open Scope Z_scope.
Local Open Scope foc_scope.

(** ** The lifecycle as a relation *)

Definition by_system (a : Actor) : Prop := a_Kind a = System.
Definition by_admin (a : Actor) : Prop := a_Kind a = Admin ∧ a_ID a ≠ EmptyString.
Definition by_requester (o : Order) (a : Actor) : Prop :=
  a_Kind a = User ∧ IsRequestedBy o (a_ID a) = true.
Definition by_courier (o : Order) (a : Actor) : Prop :=
  a_Kind a = User ∧ IsAssignedTo o (a_ID a) = true.
(** A user who is not the requester. *)
Definition by_other (o : Order) (a : Actor) : Prop :=
  a_Kind a = User ∧ a_ID a ≠ EmptyString ∧ IsRequestedBy o (a_ID a) = false.

(** [lifecycle o action actor s]: the actor may move the order to [s]. *)
Inductive lifecycle (o : Order) : Action → Actor → Status → Prop :=
| lc_confirm a : o_Status o = PendingReservation → by_system a →
    lifecycle o ConfirmReservation a AwaitingCourier
| lc_refuse a : o_Status o = PendingReservation → by_system a →
    lifecycle o RefuseReservation a Rejected
| lc_assign a : o_Status o = AwaitingCourier → by_other o a →
    lifecycle o Assign a AwaitingPickup
| lc_accept a : o_Status o = AwaitingCourier → by_requester o a →
    lifecycle o AcceptCounteroffer a AwaitingPickup
| lc_expire a : o_Status o = AwaitingCourier → by_system a → lifecycle o Expire a Expired
| lc_cancel a : o_Status o = AwaitingCourier ∨ o_Status o = AwaitingPickup →
    by_requester o a ∨ by_admin a → lifecycle o Cancel a Cancelled
| lc_pickup a : o_Status o = AwaitingPickup → o_PendingCancellationID o = None →
    by_courier o a → lifecycle o Pickup a Delivering
| lc_withdraw a : o_Status o = AwaitingPickup → by_courier o a →
    lifecycle o Withdraw a AwaitingCourier
| lc_unassign a : o_Status o = AwaitingPickup → by_admin a →
    lifecycle o Unassign a AwaitingCourier
| lc_deliver a : o_Status o = Delivering → by_courier o a → lifecycle o Deliver a Delivered
| lc_cancel_late a : o_Status o = Delivering → by_requester o a → lifecycle o Cancel a Cancelled
| lc_abandon a : o_Status o = Delivering → by_courier o a → lifecycle o Cancel a Failed
| lc_timeout a : o_Status o = Delivering → by_system a → lifecycle o Timeout a Failed
| lc_receipt a : o_Status o = Delivered → by_requester o a →
    lifecycle o ConfirmReceipt a Completed.

(** The calls that repeat a success the stored state proves. *)
Inductive repeats (o : Order) : Action → Actor → Prop :=
| rp_assign a : o_Status o = AwaitingPickup → by_courier o a → repeats o Assign a
| rp_pickup a : o_Status o = Delivering → o_PendingCancellationID o = None → by_courier o a →
    repeats o Pickup a
| rp_receipt a : o_Status o = Completed → by_requester o a → repeats o ConfirmReceipt a.

(** Nobody is both requester and courier; the schema checks it. *)
Definition two_parties (o : Order) : Prop :=
  ∀ u, IsRequestedBy o u = true → IsAssignedTo o u = false.

Lemma requested_nonempty o u : IsRequestedBy o u = true → u ≠ EmptyString.
Proof. unfold IsRequestedBy, nonempty. intros Hr ->. done. Qed.
Lemma assigned_nonempty o u : IsAssignedTo o u = true → u ≠ EmptyString.
Proof. unfold IsAssignedTo, nonempty. intros Hr ->. done. Qed.

Definition valid_actor (a : Actor) : Prop :=
  a_Kind a = System ∨ ((a_Kind a = User ∨ a_Kind a = Admin) ∧ a_ID a ≠ EmptyString).

Lemma invalid_actor_false a : invalid_actor a = false ↔ valid_actor a.
Proof.
  unfold invalid_actor, valid_actor, nonempty, same.
  destruct (a_Kind a); repeat case_bool_decide; simpl; intuition congruence.
Qed.

(** What an allowed action says of its status, with the two relationships as
    booleans. *)
Lemma allowed_lifecycle o action actor (req cour : bool) :
  valid_actor actor →
  req = same (a_Kind actor) User && IsRequestedBy o (a_ID actor) →
  cour = same (a_Kind actor) User && IsAssignedTo o (a_ID actor) →
  (action = Pickup → o_PendingCancellationID o = None) →
  two_parties o →
  isActionAllowed (o_Status o) action (a_Kind actor) req cour = true →
  lifecycle o action actor
    (if same action Cancel && cour then Failed else destinations action).
Proof.
  intros Hvalid -> -> Hpend Htwo Hal.
  assert (Hu : ∀ P, same (a_Kind actor) User && P = true → a_Kind actor = User ∧ P = true).
  { intros P [?%same_eq ?]%andb_prop. by split. }
  assert (Ha : same (a_Kind actor) Admin = true → by_admin actor).
  { intros Hk%same_eq. split; [done|]. destruct Hvalid as [?|[_ ?]]; congruence. }
  assert (Hreq : same (a_Kind actor) User && IsRequestedBy o (a_ID actor) = true → by_requester o actor)
    by apply Hu.
  assert (Hcour : same (a_Kind actor) User && IsAssignedTo o (a_ID actor) = true → by_courier o actor)
    by apply Hu.
  assert (Hnot : by_requester o actor ∨ by_admin actor →
                 same (a_Kind actor) User && IsAssignedTo o (a_ID actor) = false).
  { intros [[-> Hr]|[-> _]]; [|done]. by rewrite (Htwo _ Hr), andb_false_r. }
  destruct (o_Status o) eqn:Hst, action; try discriminate Hal; simpl in Hal |- *;
    rewrite ?andb_false_r, ?orb_false_r, ?andb_true_r in Hal; try discriminate Hal.
  - apply lc_confirm; [done|]. by apply same_eq.
  - apply lc_refuse; [done|]. by apply same_eq.
  - apply andb_prop in Hal as [Hk%same_eq Hr%negb_true_iff]. apply lc_assign; [done|].
    destruct Hvalid as [?|[_ Hid]]; [congruence|]. split; [done|]. split; [done|].
    by rewrite Hk in Hr.
  - rewrite Hnot; [apply lc_cancel; auto|]; apply orb_prop in Hal as [?|?]; auto.
  - apply lc_expire; [done|]. by apply same_eq.
  - apply lc_accept; auto.
  - rewrite Hnot; [apply lc_cancel; auto|]; apply orb_prop in Hal as [?|?]; auto.
  - apply lc_pickup; auto.
  - apply lc_withdraw; auto.
  - apply lc_unassign; auto.
  - destruct (same (a_Kind actor) User && IsAssignedTo o (a_ID actor)) eqn:Hc.
    + apply lc_abandon; auto.
    + rewrite orb_false_r in Hal. apply lc_cancel_late; auto.
  - apply lc_deliver; auto.
  - apply lc_timeout; [done|]. by apply same_eq.
  - apply lc_receipt; auto.
Qed.

Lemma not_invalid actor : invalid_actor actor = false → valid_actor actor.
Proof. apply invalid_actor_false. Qed.

(** Transition, read as a relation: the moves of the lifecycle and the
    recognised repeats, and nothing else. *)
Lemma transition_sound o action actor s r :
  two_parties o → Transition o action actor = Ok (s, r) →
  if r : bool then repeats o action actor ∧ s = o_Status o else lifecycle o action actor s.
Proof.
  intros Htwo. unfold Transition.
  destruct (negb (IsValid (o_Status o))); [done|].
  destruct (invalid_actor actor) eqn:Hinv; [done|]. apply not_invalid in Hinv.
  destruct (same action Pickup && is_some (o_PendingCancellationID o)) eqn:Hpick; [done|].
  assert (Hpend : action = Pickup → o_PendingCancellationID o = None).
  { intros ->. rewrite same_refl in Hpick. by destruct (o_PendingCancellationID o). }
  destruct (same action Assign && same (a_Kind actor) User && IsRequestedBy o (a_ID actor)); [done|].
  destruct (same action Assign && same (o_Status o) AwaitingPickup && _) eqn:Hr1.
  { intros [= <- <-]. apply andb_prop in Hr1 as [[->%same_eq ?%same_eq]%andb_prop [? ?]%andb_prop].
    split; [|done]. apply rp_assign; [done|]. split; [by apply same_eq|done]. }
  destruct (same action Pickup && same (o_Status o) Delivering && _) eqn:Hr2.
  { intros [= <- <-]. apply andb_prop in Hr2 as [[->%same_eq ?%same_eq]%andb_prop [? ?]%andb_prop].
    split; [|done]. apply rp_pickup; auto. split; [by apply same_eq|done]. }
  destruct (same action ConfirmReceipt && same (o_Status o) Completed && _) eqn:Hr3.
  { intros [= <- <-]. apply andb_prop in Hr3 as [[->%same_eq ?%same_eq]%andb_prop [? ?]%andb_prop].
    split; [|done]. apply rp_receipt; [done|]. split; [by apply same_eq|done]. }
  destruct (IsTerminal (o_Status o)); [done|].
  destruct (isActionAllowed _ _ _ _ _) eqn:Hal; [|by destruct (wrong_actor o action)].
  pose proof (allowed_lifecycle o action actor _ _ Hinv eq_refl eq_refl Hpend Htwo Hal) as Hlc.
  destruct (same action Cancel && _); intros [= <- <-]; exact Hlc.
Qed.

Lemma by_valid o actor :
  by_system actor ∨ by_admin actor ∨ by_requester o actor ∨ by_courier o actor ∨ by_other o actor →
  invalid_actor actor = false.
Proof.
  intros Hby. apply invalid_actor_false. unfold valid_actor.
  destruct Hby as [?|[[??]|[[? ?%requested_nonempty]|[[? ?%assigned_nonempty]|(?&?&?)]]]]; auto.
Qed.

(** Every move of the lifecycle is allowed. *)
Lemma transition_complete o action actor s :
  two_parties o → lifecycle o action actor s → Transition o action actor = Ok (s, false).
Proof.
  intros Htwo Hlc. unfold Transition.
  assert (Hinv : invalid_actor actor = false).
  { apply (by_valid o). destruct Hlc; try tauto. }
  rewrite Hinv.
  destruct Hlc as [a Hst Hby|a Hst Hby|a Hst (Hk & Hid & Hr)|a Hst [Hk Hr]|a Hst Hby|a Hst Hby
    |a Hst Hp [Hk Hc]|a Hst [Hk Hc]|a Hst [Hk Hid]|a Hst [Hk Hc]|a Hst [Hk Hr]|a Hst [Hk Hc]
    |a Hst Hby|a Hst [Hk Hr]]; rewrite ?Hst; unfold by_system in *;
    rewrite ?Hby, ?Hk, ?Hr, ?Hc, ?Hp; simpl; try done.
  - destruct Hst as [->| ->]; simpl; destruct Hby as [[-> Hr]|[-> _]]; simpl;
      rewrite ?Hr, ?(Htwo _ Hr); done.
  - by rewrite (Htwo _ Hr).
  - by rewrite orb_true_r.
Qed.

(** Every repeat is recognised. *)
Lemma repeats_complete o action actor :
  two_parties o → repeats o action actor → Transition o action actor = Ok (o_Status o, true).
Proof.
  intros Htwo Hr. unfold Transition.
  assert (Hinv : invalid_actor actor = false).
  { apply (by_valid o). destruct Hr; auto. }
  rewrite Hinv. destruct Hr as [a Hst [Hk Hc]|a Hst Hp [Hk Hc]|a Hst [Hk Hc]];
    rewrite ?Hst, ?Hk, ?Hc, ?Hp; simpl; try done.
  assert (IsRequestedBy o (a_ID a) = false) as ->; [|done].
  destruct (IsRequestedBy o (a_ID a)) eqn:Hreq; [|done]. by rewrite (Htwo _ Hreq) in Hc.
Qed.

(** A refusal for the state means that nobody may do it. *)
Lemma wrong_actor_complete o action actor s :
  two_parties o → lifecycle o action actor s → wrong_actor o action = true.
Proof.
  intros Htwo Hlc.
  assert (Hreq : ∀ a, by_requester o a → IsRequestedBy o (o_RequesterID o) = true).
  { intros a [_ Hr]. unfold IsRequestedBy in *. apply andb_prop in Hr as [Hne Hf].
    unfold nonempty in *. destruct (o_RequesterID o); [by destruct (a_ID a)|]. simpl.
    clear Hf. generalize s0. intros t. rewrite Z.eqb_refl. simpl.
    induction t; simpl; [done|]. by rewrite Z.eqb_refl. }
  unfold wrong_actor, existsb.
  destruct Hlc as [a Hst Hby|a Hst Hby|a Hst Hby|a Hst Hby|a Hst Hby|a Hst Hby
    |a Hst Hp Hby|a Hst Hby|a Hst Hby|a Hst Hby|a Hst Hby|a Hst Hby|a Hst Hby|a Hst Hby];
    rewrite ?Hst; simpl; rewrite ?andb_false_r, ?orb_true_r; simpl; try done;
    try (rewrite (Hreq _ Hby); simpl; rewrite ?orb_true_r; done).
  all: try (destruct Hst as [->| ->]; simpl; rewrite ?orb_true_r; done).
Qed.

Lemma transition_precondition o action actor :
  two_parties o → Transition o action actor = Err ErrPrecondition →
  ∀ actor' s, ¬ lifecycle o action actor' s.
Proof.
  intros Htwo Herr actor' s Hlc. unfold Transition in Herr.
  pose proof (wrong_actor_complete _ _ _ _ Htwo Hlc) as Hw. rewrite Hw in Herr.
  assert (Hst : IsValid (o_Status o) = true ∧ IsTerminal (o_Status o) = false).
  { destruct Hlc as [? Hst|? Hst|? Hst|? Hst|? Hst|? Hst|? Hst|? Hst|? Hst|? Hst|? Hst|? Hst
      |? Hst|? Hst]; try destruct Hst as [Hst|Hst]; rewrite Hst; done. }
  destruct Hst as [Hv Ht]. rewrite Hv, Ht in Herr. simpl in Herr.
  assert (Hp : same action Pickup && is_some (o_PendingCancellationID o) = false).
  { destruct Hlc as [| | | | | |? ? Hp| | | | | | |]; try done. by rewrite Hp. }
  rewrite Hp in Herr. repeat case_match; discriminate.
Qed.

(** ** Field ownership *)

Lemma validateFields_owned b after action u :
  validateFields b after action = Ok u → owned b after action = Ok after.
Proof.
  unfold validateFields. intros Hv. inv_ok Hv. apply same_eq in Hv. by subst.
Qed.

(** What no action changes. *)
Record same_terms (b o : Order) : Prop := {
  st_ID : o_ID o = o_ID b;
  st_RequesterID : o_RequesterID o = o_RequesterID b;
  st_Pickup : o_Pickup o = o_Pickup b;
  st_Delivery : o_Delivery o = o_Delivery b;
  st_Instructions : o_DeliveryInstructions o = o_DeliveryInstructions b;
  st_Item : o_ItemDescription o = o_ItemDescription b;
  st_Duration : o_DeliveryDuration o = o_DeliveryDuration b;
  st_ExpiresAt : o_ExpiresAt o = o_ExpiresAt b;
  st_CreatedAt : o_CreatedAt o = o_CreatedAt b;
}.

Lemma owned_terms b after action : owned b after action = Ok after → same_terms b after.
Proof.
  unfold owned. intros Hown. destruct action; try destruct (is_some _ || is_some _);
    try discriminate Hown; apply Ok_inj in Hown; rewrite <- Hown; split; reflexivity.
Qed.

(** The courier changes only with an assignment or its end; the reward and the
    hold only with those and the confirmation of the reservation; pickup and
    delivery times only with pickup and delivery. *)
Definition moves_courier (a : Action) : bool :=
  match a with Assign | AcceptCounteroffer | Withdraw | Unassign => true | _ => false end.
Definition moves_credits (a : Action) : bool :=
  match a with Assign | AcceptCounteroffer | Withdraw | ConfirmReservation => true | _ => false end.

Lemma owned_courier b after action :
  owned b after action = Ok after → moves_courier action = false →
  o_CourierID after = o_CourierID b ∧ o_AssignedAt after = o_AssignedAt b.
Proof.
  unfold owned. intros Hown Hm. destruct action; try discriminate Hm; try discriminate Hown;
    apply Ok_inj in Hown; rewrite <- Hown; split; reflexivity.
Qed.

Lemma owned_credits b after action :
  owned b after action = Ok after → moves_credits action = false →
  o_RewardCredits after = o_RewardCredits b ∧ o_ReservedCredits after = o_ReservedCredits b.
Proof.
  unfold owned. intros Hown Hm. destruct action; try destruct (is_some _ || is_some _);
    try discriminate Hm; try discriminate Hown; apply Ok_inj in Hown; rewrite <- Hown;
    split; reflexivity.
Qed.

Lemma owned_pickup b after action :
  owned b after action = Ok after → action ≠ Pickup → o_PickedUpAt after = o_PickedUpAt b.
Proof.
  unfold owned. intros Hown Hm.
  destruct action; try (by destruct Hm); try destruct (is_some _ || is_some _);
    try discriminate Hown; apply Ok_inj in Hown; rewrite <- Hown; reflexivity.
Qed.

Lemma owned_delivered b after action :
  owned b after action = Ok after → action ≠ Deliver → o_DeliveredAt after = o_DeliveredAt b.
Proof.
  unfold owned. intros Hown Hm.
  destruct action; try (by destruct Hm); try destruct (is_some _ || is_some _);
    try discriminate Hown; apply Ok_inj in Hown; rewrite <- Hown; reflexivity.
Qed.

(** ** Changes *)

(** Exactly these statuses end an order with an outcome. *)
Definition has_outcome (s : Status) : bool :=
  match s with Completed | Cancelled | Expired | Failed => true | _ => false end.

Lemma fact_kinds_status previous after actor action :
  length (filter (λ k, k = StatusChanged) (fact_kinds previous after actor action)) = 1%nat.
Proof.
  unfold fact_kinds. destruct (o_Status after); destruct (_ && _); reflexivity.
Qed.

Lemma fact_kinds_outcome previous after actor action :
  length (filter (λ k, k = Outcome) (fact_kinds previous after actor action))
  = if has_outcome (o_Status after) then 1%nat else 0%nat.
Proof.
  unfold fact_kinds. destruct (o_Status after); destruct (_ && _); reflexivity.
Qed.

(** The audit entry and the facts of a change. *)
Definition audit_of (before : option Order) (after : Order) (details : json) : AuditEntry := {|
  au_PreviousStatus := match before with Some b => o_Status b | None => NoStatus end;
  au_Status := o_Status after; au_At := o_UpdatedAt after; au_Details := details |}.

Definition facts_of (before : option Order) (after : Order) (actor : Actor) (action : Action)
    (ids : nat → string) : list Fact :=
  let previous := match before with Some b => o_Status b | None => NoStatus end in
  if decide (previous = o_Status after) then []
  else imap (λ i k, {| fc_ID := ids i; fc_Kind := k; fc_Version := 1;
                       fc_Payload := payload_of before after action |})
            (fact_kinds previous after actor action).

(** A change NewChange accepts. *)
Record accepted (before : option Order) (after : Order) (actor : Actor) (action : Action)
    (details : option json) (ids : nat → string) (c : Change) : Prop := {
  ac_expected : c_ExpectedRevision c = match before with Some b => o_Revision b | None => 0 end;
  ac_order : c_Order c = after;
  ac_offers : c_Offers c = [];
  ac_actor : c_Actor c = actor;
  ac_action : c_Action c = action;
  ac_audit : c_Audit c = audit_of before after (match details with Some d => d | None => JObject [] end);
  ac_facts : c_Facts c = facts_of before after actor action ids;
  ac_revision : o_Revision after = add64 (c_ExpectedRevision c) 1 ∧ 0 < o_Revision after;
  ac_status : IsValid (o_Status after) = true;
  ac_valid_actor : valid_actor actor;
  ac_details : (String.length (Marshal (match details with Some d => d | None => JObject [] end))
                ≤ max_details)%nat;
  ac_rule : match before with
            | None => o_Status after = PendingReservation ∧ action = Create
                      ∧ a_Kind actor = User ∧ IsRequestedBy after (a_ID actor) = true
            | Some b =>
                o_ID b = o_ID after ∧ owned b after action = Ok after
                ∧ if decide (o_Status b = o_Status after) then check_metadata b after actor action = Ok tt
                  else check_transition b after actor action = Ok tt
            end;
}.

Lemma NewChange_accepted before after actor action details ids c :
  NewChange before after actor action details ids = Ok c →
  accepted before after actor action details ids c.
Proof.
  intros HN. unfold NewChange in HN. inv_ok HN.
  apply negb_true_iff, orb_false_elim in Hok0 as [Hrev Hnew].
  apply orb_false_elim in Hrev as [Hrev Hst%negb_false_iff].
  apply orb_false_elim in Hrev as [Hpos%Z.leb_gt Hnext%negb_false_iff%Z.eqb_eq].
  apply negb_true_iff, not_invalid in Hok1.
  apply Nat.leb_le in Hok4.
  assert (Hc : c_ExpectedRevision c = match before with Some b => o_Revision b | None => 0 end
    ∧ c_Order c = after ∧ c_Offers c = [] ∧ c_Actor c = actor ∧ c_Action c = action
    ∧ c_Audit c = audit_of before after (match details with Some d => d | None => JObject [] end)
    ∧ c_Facts c = facts_of before after actor action ids).
  { unfold facts_of. destruct (decide _); inv_ok HN; by subst c. }
  destruct Hc as (H1&H2&H3&H4&H5&H6&H7). split; try done.
  - by rewrite H1.
  - destruct before as [b|].
    + apply same_eq in Hok. destruct a3, a2. split; [done|].
      split; [by eapply validateFields_owned|]. by destruct (decide _).
    + simpl in Hnew. apply orb_false_elim in Hnew as [?%negb_false_iff%same_eq ?%negb_false_iff%same_eq].
      apply guard_ok_Ok, andb_prop in Hok2 as [?%same_eq ?]. done.
Qed.

(** ** Changes that pass the persistence boundary *)

Section validated.
  Context `{UUID}.

(** A fact of the change carries what NewChange would give it. *)
Definition fact_as (f x : Fact) : Prop :=
  fc_Kind f = fc_Kind x ∧ fc_Version f = fc_Version x ∧ fc_Payload f = fc_Payload x
  ∧ is_ok (parseID (fc_ID f)) = true.

Lemma check_facts_Forall2 seen facts expected u :
  check_facts seen facts expected = Ok u → Forall2 fact_as facts expected.
Proof.
  revert seen expected. induction facts as [|f facts IH]; intros seen [|x expected] Hc;
    simpl in Hc; try discriminate; [constructor|].
  inv_ok Hc. apply andb_prop in Hok1 as [Hk ?%same_eq].
  apply andb_prop in Hk as [?%same_eq ?%Z.eqb_eq].
  constructor; [|by eapply IH]. split; [done|]. split; [done|]. split; [done|]. by rewrite Hok.
Qed.

Record validated (before : option Order) (c : Change) : Prop := {
  vc_change : ∃ c', accepted before (c_Order c) (c_Actor c) (c_Action c)
                      (Some (au_Details (c_Audit c))) (λ _, EmptyString) c'
                    ∧ c_ExpectedRevision c' = c_ExpectedRevision c;
  vc_audit : c_Audit c = audit_of before (c_Order c) (au_Details (c_Audit c));
  vc_facts : Forall2 fact_as (c_Facts c)
               (facts_of before (c_Order c) (c_Actor c) (c_Action c) (λ _, EmptyString));
}.

Lemma validateChange_validated before c u :
  validateChange before c = Ok u → validated before c.
Proof.
  intros Hv. unfold validateChange in Hv. inv_ok Hv.
  pose proof (NewChange_accepted _ _ _ _ _ _ _ Hok0) as Hacc. clear Hok Hok0.
  repeat match goal with H : _ && _ = true |- _ => apply andb_prop in H as [? ?] end.
  repeat match goal with H : same _ _ = true |- _ => apply same_eq in H
    | H : (_ =? _) = true |- _ => apply Z.eqb_eq in H end.
  split.
  - eauto.
  - rewrite (ac_audit _ _ _ _ _ _ _ Hacc) in *. unfold audit_of in *.
    destruct (c_Audit c). simpl in *. congruence.
  - rewrite <- (ac_facts _ _ _ _ _ _ _ Hacc). by eapply check_facts_Forall2.
Qed.

(** What the boundary knows of an update. *)
Lemma validated_update b c :
  validated (Some b) c →
  let o := c_Order c in
  c_ExpectedRevision c = o_Revision b ∧ o_Revision o = add64 (o_Revision b) 1 ∧ 0 < o_Revision o
  ∧ IsValid (o_Status o) = true ∧ o_ID b = o_ID o ∧ owned b o (c_Action c) = Ok o
  ∧ valid_actor (c_Actor c)
  ∧ (o_Status b ≠ o_Status o → check_transition b o (c_Actor c) (c_Action c) = Ok tt)
  ∧ (o_Status b = o_Status o → check_metadata b o (c_Actor c) (c_Action c) = Ok tt).
Proof.
  intros [(c' & Hacc & He) _ _]. simpl.
  pose proof (ac_expected _ _ _ _ _ _ _ Hacc) as H1. pose proof (ac_revision _ _ _ _ _ _ _ Hacc) as [H2 H3].
  pose proof (ac_rule _ _ _ _ _ _ _ Hacc) as (H4 & H5 & H6). simpl in *.
  rewrite H1 in H2. rewrite <- He.
  repeat (split; [first [done|exact (ac_status _ _ _ _ _ _ _ Hacc)
                         |exact (ac_valid_actor _ _ _ _ _ _ _ Hacc)]|]).
  destruct (decide _); split; congruence.
Qed.

Lemma validated_create c :
  validated None c →
  let o := c_Order c in
  c_ExpectedRevision c = 0 ∧ o_Revision o = 1 ∧ o_Status o = PendingReservation
  ∧ c_Action c = Create ∧ a_Kind (c_Actor c) = User ∧ IsRequestedBy o (a_ID (c_Actor c)) = true.
Proof.
  intros [(c' & Hacc & He) _ _]. simpl.
  pose proof (ac_expected _ _ _ _ _ _ _ Hacc) as H1. pose proof (ac_revision _ _ _ _ _ _ _ Hacc) as [H2 H3].
  pose proof (ac_rule _ _ _ _ _ _ _ Hacc) as (H4 & H5 & H6 & H7). simpl in *.
  rewrite H1 in H2. rewrite <- He. repeat (split; [first [done|exact H2]|]); done.
Qed.

End validated.

(** A change of status is a move of the lifecycle. *)
Lemma check_transition_lifecycle b o actor action u :
  two_parties b → check_transition b o actor action = Ok u → lifecycle b action actor (o_Status o).
Proof.
  intros Htwo Hc. unfold check_transition in Hc. inv_ok Hc.
  apply negb_true_iff, orb_false_elim in Hok0 as [-> Hs%negb_false_iff%same_eq]. subst.
  by apply (transition_sound _ _ _ _ false).
Qed.

(** Terminal orders never change status again. *)
Lemma lifecycle_not_terminal o action actor s :
  lifecycle o action actor s → IsTerminal (o_Status o) = false.
Proof.
  destruct 1 as [? Hst|? Hst|? Hst|? Hst|? Hst|? Hst|? Hst|? Hst|? Hst|? Hst|? Hst|? Hst|? Hst|? Hst];
    try destruct Hst as [Hst|Hst]; by rewrite Hst.
Qed.

Lemma check_transition_not_terminal b o actor action u :
  check_transition b o actor action = Ok u → IsTerminal (o_Status b) = false.
Proof.
  intros Hc. unfold check_transition in Hc. inv_ok Hc.
  apply negb_true_iff, orb_false_elim in Hok0 as [-> _].
  unfold Transition in Hok. repeat case_match; simplify_eq; done.
Qed.
