(* ===== verification/OrderLogic.v ===== *)
(** * Order: reasoning about transactions

    The effect of each primitive of a transaction, and the frame for
    invariants: a session stays sound unless a failed write has poisoned it,
    and a poisoned session never commits. *)
From stdpp Require Import prelude gmap strings list.
From Stdlib Require Import ZArith Lia.
From S2P Require Import Prelude.
From S2P Require Import GoLib.
From S2P Require Import GoText.
From S2P Require Import OrderTypes.
From S2P Require Import OrderPolicy.
From S2P Require Import OrderDB.
From S2P Require Import OrderStore.
From S2P Require Import OrderFacts.

Local Open Scope Z_scope.
Local Open Scope foc_scope.

(** ** Successful runs *)

Lemma run_lift {A} (r : result Error A) env s a s' :
  lift r env s = Ok (a, s') → r = Ok a ∧ s' = s.
Proof. destruct r; simpl; intros Hr; [apply Ok_inj in Hr; by simplify_eq|discriminate]. Qed.

Lemma run_ensure b e env s u s' :
  ensure_tx b e env s = Ok (u, s') → b = true ∧ s' = s.
Proof. destruct b; simpl; intros Hr; [apply Ok_inj in Hr; by simplify_eq|discriminate]. Qed.

Lemma run_ret {A} (a b : A) (env : Env) (s s' : Session) :
  (mret a : TX A) env s = Ok (b, s') → a = b ∧ s' = s.
Proof. intros Hr. apply Ok_inj in Hr. by simplify_eq. Qed.

Lemma run_get (env : Env) s a s' : (get : TX Session) env s = Ok (a, s') → a = s ∧ s' = s.
Proof. intros Hr. apply Ok_inj in Hr. by simplify_eq. Qed.

Lemma run_ask (env : Env) (s : Session) a s' : (ask : TX Env) env s = Ok (a, s') → a = env ∧ s' = s.
Proof. intros Hr. apply Ok_inj in Hr. by simplify_eq. Qed.

Lemma run_gets {A} (f : Session → A) (env : Env) s a s' :
  (gets f : TX A) env s = Ok (a, s') → a = f s ∧ s' = s.
Proof. intros Hr. apply Ok_inj in Hr. by simplify_eq. Qed.

Lemma run_modify (f : Session → Session) (env : Env) s u s' :
  (modify f : TX unit) env s = Ok (u, s') → s' = f s.
Proof. intros Hr. apply Ok_inj in Hr. by simplify_eq. Qed.

Lemma run_fail {A} e (env : Env) s (a : A) s' : (fail e : TX A) env s = Ok (a, s') → False.
Proof. done. Qed.

Lemma run_query {A} (f : ODB → A) env s a s' :
  query f env s = Ok (a, s') → a = f (db s) ∧ s' = s ∧ aborted s = false.
Proof.
  unfold query. destruct (aborted s); [done|]. intros Hr. apply Ok_inj in Hr. by simplify_eq.
Qed.

Lemma run_exec {A} (f : ODB → result Error (ODB * A)) env s a s' :
  exec f env s = Ok (a, s') → aborted s = false ∧ ∃ d, f (db s) = Ok (d, a) ∧ s' = s <| db := d |>.
Proof.
  unfold exec. destruct (aborted s); [done|]. destruct (f (db s)) as [[d b]|e] eqn:Hf; [|done].
  intros Hr. apply Ok_inj in Hr. simplify_eq. eauto.
Qed.

Lemma run_exec_unit f env s u s' :
  exec_unit f env s = Ok (u, s') → aborted s = false ∧ ∃ d, f (db s) = Ok d ∧ s' = s <| db := d |>.
Proof.
  unfold exec_unit. intros (Hab & d & Hf & ->)%run_exec. split; [done|]. exists d. split; [|done].
  destruct (f (db s)) as [d'|e]; simpl in Hf; [|done].
  apply Ok_inj in Hf. by injection Hf as -> _.
Qed.

Lemma run_catch_fail {A} (m : TX A) (h : Error → TX A) env s a s' :
  (∀ e r r', h e env r ≠ Ok r') → catch m h env s = Ok (a, s') → m env s = Ok (a, s').
Proof.
  intros Hh. unfold catch. destruct (m env s) as [[b r]|[e r]]; [done|]. by intros ?%Hh.
Qed.

Lemma run_persisted {A} (m : TX A) env s a s' :
  persisted m env s = Ok (a, s') → m env s = Ok (a, s').
Proof. apply run_catch_fail. done. Qed.

Lemma run_writeResult {A} (m : TX A) env s a s' :
  writeResult m env s = Ok (a, s') → m env s = Ok (a, s').
Proof. apply run_catch_fail. done. Qed.

(** [inv_run H] splits a successful run into the runs of its parts. *)
Ltac inv_run H :=
  lazymatch type of H with
  | (_ ≫= _) _ _ = Ok (_, _) =>
      let a := fresh "a" in let s := fresh "s" in let H1 := fresh "Hrun" in
      apply bind_ok in H as (a & s & H1 & H); cbn beta iota in H;
      inv_run H1; inv_run H
  | lift _ _ _ = Ok _ => let E := fresh "Es" in apply run_lift in H as [H E]; try subst
  | ensure_tx _ _ _ _ = Ok _ => let E := fresh "Es" in apply run_ensure in H as [H E]; try subst
  | mret _ _ _ = Ok _ => let E := fresh "Es" in apply run_ret in H as [H E]; try subst
  | get _ _ = Ok _ => let E := fresh "Es" in apply run_get in H as [H E]; subst
  | ask _ _ = Ok _ => let E := fresh "Es" in apply run_ask in H as [H E]; subst
  | gets _ _ _ = Ok _ => let E := fresh "Es" in apply run_gets in H as [H E]; subst
  | modify _ _ _ = Ok _ => apply run_modify in H; subst
  | fail _ _ _ = Ok _ => exfalso; exact (run_fail _ _ _ _ _ H)
  | persisted _ _ _ = Ok _ => apply run_persisted in H; inv_run H
  | writeResult _ _ _ = Ok _ => apply run_writeResult in H; inv_run H
  | query _ _ _ = Ok _ =>
      let E := fresh "Es" in let Ha := fresh "Hab" in
      apply run_query in H as (H & E & Ha); try subst
  | exec _ _ _ = Ok _ =>
      let Ha := fresh "Hab" in let d := fresh "d" in let E := fresh "Es" in
      apply run_exec in H as (Ha & d & H & E); try subst
  | exec_unit _ _ _ = Ok _ =>
      let Ha := fresh "Hab" in let d := fresh "d" in let E := fresh "Es" in
      apply run_exec_unit in H as (Ha & d & H & E); try subst
  | (let '(_, _) := ?p in _) _ _ = Ok _ => destruct p; cbn beta iota in H; inv_run H
  | (if ?b then _ else _) _ _ = Ok _ => let E := fresh "Hb" in destruct b eqn:E; inv_run H
  | (match ?x with _ => _ end) _ _ = Ok _ => let E := fresh "Hm" in destruct x eqn:E; inv_run H
  | _ => idtac
  end.

(** ** Sessions that keep an invariant *)

Section preserves.
  Context (P : Session → Prop).

(** [P] holds of every session that can still commit. *)
Definition sound (s : Session) : Prop := failed s = None → P s.

Definition preserves {A} (m : TX A) : Prop := ∀ env s,
  sound s → wp m env s (λ _ s', sound s') (λ es, sound es.2).

Lemma preserves_ret {A} (a : A) : preserves (mret a).
Proof. by intros env s Hs. Qed.
Lemma preserves_fail {A} e : preserves (fail e : TX A).
Proof. by intros env s Hs. Qed.
Lemma preserves_ensure b e : preserves (ensure_tx b e).
Proof. destruct b; [apply preserves_ret|apply preserves_fail]. Qed.
Lemma preserves_lift {A} (r : result Error A) : preserves (lift r).
Proof. destruct r; [apply preserves_ret|apply preserves_fail]. Qed.
Lemma preserves_get : preserves (get : TX Session).
Proof. by intros env s Hs. Qed.
Lemma preserves_ask : preserves (ask : TX Env).
Proof. by intros env s Hs. Qed.
Lemma preserves_gets {A} (f : Session → A) : preserves (gets f : TX A).
Proof. by intros env s Hs. Qed.

Lemma preserves_bind {A B} (m : TX A) (k : A → TX B) :
  preserves m → (∀ a, preserves (k a)) → preserves (m ≫= k).
Proof.
  intros Hm Hk env s Hs. apply wp_bind. eapply wp_mono; [by apply Hm| |done].
  intros a s' Hs'. by apply Hk.
Qed.

Lemma preserves_catch {A} (m : TX A) h :
  preserves m → (∀ e, preserves (h e)) → preserves (catch m h).
Proof.
  intros Hm Hh env s Hs. specialize (Hm env s Hs). unfold wp, catch in *.
  destruct (m env s) as [[a s']|[e s']]; [done|]. by apply Hh.
Qed.

Lemma preserves_poison {A} e : preserves (poison e : TX A).
Proof. by intros env s Hs. Qed.

Lemma preserves_persisted {A} (m : TX A) : preserves m → preserves (persisted m).
Proof. intros Hm. apply preserves_catch; [done|]. intros. apply preserves_fail. Qed.
Lemma preserves_writeResult {A} (m : TX A) : preserves m → preserves (writeResult m).
Proof. intros Hm. apply preserves_catch; [done|]. intros. apply preserves_poison. Qed.

(** The bookkeeping of a session and its tables, where [P] does not depend on
    them. *)
Lemma preserves_modify (f : Session → Session) :
  (∀ s, sound s → sound (f s)) → preserves (modify f : TX unit).
Proof. intros Hf env s Hs. by apply Hf. Qed.

Lemma preserves_query {A} (f : ODB → A) : preserves (query f).
Proof. intros env s Hs. unfold wp, query. by destruct (aborted s). Qed.

Lemma preserves_exec {A} (f : ODB → result Error (ODB * A)) :
  (∀ s d a, P s → f (db s) = Ok (d, a) → P (s <| db := d |>)) →
  (∀ s b, P s → P (s <| aborted := b |>)) → preserves (exec f).
Proof.
  intros Hf Hab env s Hs. unfold wp, exec. destruct (aborted s); [done|].
  destruct (f (db s)) as [[d a]|e] eqn:Hd; simpl; intros Hfail.
  - eapply Hf; [by apply Hs|done].
  - apply Hab. by apply Hs.
Qed.

(** A write whose failure poisons the session only has to keep [P] when it
    succeeds. *)
Lemma preserves_poisoned {A} (m : TX A) :
  (∀ env s a s', failed s = None → P s → m env s = Ok (a, s') → P s') →
  (∀ env s a s', failed s ≠ None → m env s = Ok (a, s') → failed s' ≠ None) →
  preserves (catch m poison).
Proof.
  intros Hm Hf env s Hs. unfold wp, catch. destruct (m env s) as [[a s']|[e s']] eqn:Hrun; simpl; [|done].
  intros Hnone. destruct (failed s) eqn:Hfs.
  - exfalso. eapply (Hf env s); [congruence|done|done].
  - eapply Hm; [done|by apply Hs|done].
Qed.

(** A sound session commits only tables that satisfy [P]. *)
Lemma preserves_within {A} (fn : TX A) env fl d out d' :
  preserves fn → sound (start d) → within_tx env fl fn d = (out, d') →
  d' = d ∨ ∃ s, P s ∧ db s = d'.
Proof.
  intros Hfn Hstart. unfold within_tx. destruct (begin_fault fl); [intros [= _ <-]; auto|].
  specialize (Hfn env (start d) Hstart). unfold wp in Hfn.
  destruct (fn env (start d)) as [[a s]|[e s]]; [|intros [= _ <-]; auto].
  destruct (failed s) eqn:Hfail; [intros [= _ <-]; auto|].
  unfold commit. destruct (aborted s); [intros [= _ <-]; auto|].
  destruct (negb (deferred_ok (db s))); [intros [= _ <-]; auto|].
  destruct (commit_fault fl) as [[code []]|]; intros [= _ <-]; auto; right; exists s; auto.
Qed.

End preserves.

Create HintDb preserves discriminated.
#[export] Hint Resolve preserves_ret preserves_fail preserves_ensure preserves_lift preserves_get
  preserves_ask preserves_gets preserves_poison preserves_query preserves_persisted
  preserves_writeResult : preserves.

(** [preserve] walks a transaction; registered lemmas close its leaves. *)
Ltac preserve := repeat first
  [ solve [auto 2 with preserves nocore]
  | progress intros
  | apply preserves_bind
  | apply preserves_persisted
  | apply preserves_writeResult
  | apply preserves_catch
  | lazymatch goal with |- preserves _ (match ?x with _ => _ end) => destruct x end ].

(** ** The poison *)

(** A transaction in which a write has failed never commits, even when its
    callback ignores the failure. *)
Lemma poisoned_rolls_back {A} (fn : TX A) env fl d a s :
  fn env (start d) = Ok (a, s) → failed s ≠ None → (within_tx env fl fn d).2 = d.
Proof.
  intros Hrun Hf. unfold within_tx. destruct (begin_fault fl); [done|]. rewrite Hrun.
  by destruct (failed s).
Qed.
