(* ===== verification/OrderInvariant.v ===== *)
(** * Order: the invariant of the aggregate

    What every committed state of the order tables satisfies, whoever writes
    through the shared boundary: each order has a complete audit trail that
    walks the lifecycle, every change of status is announced once, an order
    has exactly one outcome fact when it has ended with one, and its current
    courier is its one open assignment episode. *)
From stdpp Require Import prelude gmap strings list.
From Stdlib Require Import ZArith Lia.
From S2P Require Import Prelude.
From S2P Require Import GoLib.
From S2P Require Import GoText.
From S2P Require Import OrderTypes.
From S2P Require Import OrderPolicy.
From S2P Require Import OrderDB.
From S2P Require Import OrderStore.
From S2P Require Import OrderFacts.
From S2P Require Import OrderLogic.

Local Open Scope Z_scope.
Local Open Scope foc_scope.

(** The moves of the lifecycle, without their actors. *)
Inductive moves : Status → Action → Status → Prop :=
| mv_confirm : moves PendingReservation ConfirmReservation AwaitingCourier
| mv_refuse : moves PendingReservation RefuseReservation Rejected
| mv_assign : moves AwaitingCourier Assign AwaitingPickup
| mv_accept : moves AwaitingCourier AcceptCounteroffer AwaitingPickup
| mv_expire : moves AwaitingCourier Expire Expired
| mv_cancel s : s = AwaitingCourier ∨ s = AwaitingPickup ∨ s = Delivering → moves s Cancel Cancelled
| mv_pickup : moves AwaitingPickup Pickup Delivering
| mv_withdraw : moves AwaitingPickup Withdraw AwaitingCourier
| mv_unassign : moves AwaitingPickup Unassign AwaitingCourier
| mv_deliver : moves Delivering Deliver Delivered
| mv_abandon : moves Delivering Cancel Failed
| mv_timeout : moves Delivering Timeout Failed
| mv_receipt : moves Delivered ConfirmReceipt Completed.

Lemma lifecycle_moves o action actor s : lifecycle o action actor s → moves (o_Status o) action s.
Proof.
  destruct 1 as [? Hst|? Hst|? Hst|? Hst|? Hst|? Hst|? Hst|? Hst|? Hst|? Hst|? Hst|? Hst|? Hst|? Hst];
    try (rewrite Hst; constructor; tauto). constructor. tauto.
Qed.

Lemma moves_not_terminal s a s' : moves s a s' → IsTerminal s = false.
Proof. destruct 1 as [| | | | |? [->|[->| ->]]| | | | | | |]; done. Qed.
Lemma moves_valid s a s' : moves s a s' → IsValid s' = true ∧ s' ≠ PendingReservation.
Proof. by destruct 1. Qed.

Section invariant.
  Context `{UUID, !UUIDLaws, !UUIDFold}.

Definition canonical (id : string) : Prop := parseID id = Ok id.

Lemma parseID_canonical s t : parseID s = Ok t → canonical t.
Proof.
  unfold parseID, canonical, parseID. destruct (uuid_parse s) as [v|] eqn:Hp; [|done].
  destruct (decide (v = uuid_nil)); [done|]. intros [= <-].
  rewrite (uuid_parse_canonical s v Hp). by rewrite decide_False.
Qed.

Lemma canonical_fold s t : canonical s → canonical t → EqualFold s t = true → s = t.
Proof.
  unfold canonical, parseID. intros Hs Ht Hf.
  destruct (uuid_parse s) eqn:E1; [|done]. destruct (uuid_parse t) eqn:E2; [|done].
  repeat case_decide; try done. simplify_eq. by eapply uuid_fold.
Qed.

Lemma parse_opt_canonical o o' c : parse_opt o = Ok o' → o' = Some c → canonical c.
Proof.
  unfold parse_opt. destruct o as [id|]; intros Hp Hc.
  - inv_ok Hp. simplify_eq. by eapply parseID_canonical.
  - inv_ok Hp. congruence.
Qed.

(** ** Rows *)

(** A location as the code writes it. *)
Definition snapshot_ok (v : json) : Prop := ∃ l, v = marshal_snapshot l ∧ canonical (LocationID l).

Record places_ok (r : OrderRow) : Prop := {
  pl_pickup : snapshot_ok (r_Pickup r);
  pl_delivery : snapshot_ok (r_Delivery r);
  pl_distinct p q : r_Pickup r = marshal_snapshot p → r_Delivery r = marshal_snapshot q →
    LocationID p ≠ LocationID q;
}.

Record row_ok (id : string) (r : OrderRow) : Prop := {
  ro_ID : r_ID r = id;
  ro_canonical : canonical id;
  ro_requester : canonical (r_RequesterID r);
  ro_courier c : r_CourierID r = Some c → canonical c;
  ro_pending k : r_PendingCancellationID r = Some k → canonical k;
  ro_places : places_ok r;
  ro_status : orders_status_check r = true;
  ro_values : orders_values_check r = true;
  ro_revision : is_int64 (r_Revision r);
  ro_stored : stored_order r = r;
}.

Lemma unmarshal_marshal l : unmarshal_snapshot (marshal_snapshot l) = Ok l.
Proof. destruct l as [id name building [fl|]]; reflexivity. Qed.

Lemma marshal_inj p q : marshal_snapshot p = marshal_snapshot q → p = q.
Proof.
  intros Heq. pose proof (unmarshal_marshal p) as Hp. rewrite Heq, unmarshal_marshal in Hp.
  by apply Ok_inj in Hp.
Qed.

(** The fields an order shares with its row. *)
Lemma fromOrder_fields r o :
  fromOrder r = Ok o →
  o_ID o = r_ID r ∧ o_RequesterID o = r_RequesterID r ∧ o_CourierID o = r_CourierID r
  ∧ o_Status o = r_Status r ∧ o_Revision o = r_Revision r ∧ o_CreatedAt o = r_CreatedAt r
  ∧ o_PendingCancellationID o = r_PendingCancellationID r ∧ o_ExpiresAt o = r_ExpiresAt r
  ∧ o_AssignedAt o = r_AssignedAt r ∧ o_PickedUpAt o = r_PickedUpAt r
  ∧ o_DeliveredAt o = r_DeliveredAt r ∧ o_DeliveryDuration o = r_DeliveryDurationNs r
  ∧ o_ReservedCredits o = r_ReservedCredits r ∧ o_RewardCredits o = r_RewardCredits r.
Proof. unfold fromOrder. intros Hf. inv_ok Hf. subst o. repeat split; reflexivity. Qed.

Lemma toOrder_fields o r :
  toOrder o = Ok r →
  parseID (o_ID o) = Ok (r_ID r) ∧ parseID (o_RequesterID o) = Ok (r_RequesterID r)
  ∧ parse_opt (o_CourierID o) = Ok (r_CourierID r) ∧ r_Status r = o_Status o
  ∧ r_Revision r = o_Revision o
  ∧ parse_opt (o_PendingCancellationID o) = Ok (r_PendingCancellationID r)
  ∧ places_ok r
  ∧ r_RewardCredits r = o_RewardCredits o ∧ r_ReservedCredits r = o_ReservedCredits o.
Proof.
  unfold toOrder. intros Ht. inv_ok Ht. subst r.
  repeat (split; [first [assumption|reflexivity]|]).
  split; [|done]. apply negb_true_iff, same_ne in Hok5. split.
  - eexists. split; [reflexivity|]. by eapply parseID_canonical.
  - eexists. split; [reflexivity|]. by eapply parseID_canonical.
  - cbn. intros p q Hp%marshal_inj Hq%marshal_inj. subst. exact Hok5.
Qed.

Lemma toOrder_delivered o r : toOrder o = Ok r → r_DeliveredAt r = o_DeliveredAt o.
Proof. unfold toOrder. intros Ht. inv_ok Ht. by subst r. Qed.

Lemma row_decodes id r : row_ok id r → ∃ o, fromOrder r = Ok o.
Proof.
  intros Hr. destruct (pl_pickup _ (ro_places _ _ Hr)) as (p & Hp & _).
  destruct (pl_delivery _ (ro_places _ _ Hr)) as (d & Hd & _).
  unfold fromOrder. rewrite Hp, Hd, !unmarshal_marshal. simpl. eauto.
Qed.

(** What is stored is unchanged by storing it again. *)
#[local] Arguments stored_time : simpl never.
Lemma stored_order_idemp r : stored_order (stored_order r) = stored_order r.
Proof.
  unfold stored_order. cbn. rewrite !stored_time_idemp.
  assert (∀ o : option Time, stored_times (stored_times o) = stored_times o) as Ho.
  { intros [t|]; [|done]. cbn. by rewrite stored_time_idemp. }
  by rewrite !Ho.
Qed.

(** The part of a row that no revision changes. *)
Record same_request (r r' : OrderRow) : Prop := {
  sr_ID : r_ID r' = r_ID r;
  sr_RequesterID : r_RequesterID r' = r_RequesterID r;
  sr_Pickup : r_Pickup r' = r_Pickup r;
  sr_Delivery : r_Delivery r' = r_Delivery r;
  sr_Instructions : r_DeliveryInstructions r' = r_DeliveryInstructions r;
  sr_Item : r_ItemDescription r' = r_ItemDescription r;
  sr_Duration : r_DeliveryDurationNs r' = r_DeliveryDurationNs r;
  sr_ExpiresAt : r_ExpiresAt r' = r_ExpiresAt r;
  sr_CreatedAt : r_CreatedAt r' = r_CreatedAt r;
}.

Lemma same_request_refl r : same_request r r.
Proof. done. Qed.
Lemma same_request_trans r1 r2 r3 : same_request r1 r2 → same_request r2 r3 → same_request r1 r3.
Proof. intros [] []. split; congruence. Qed.

(** A location that was read back is written back as it was. *)
Lemma snapshot_written v l id :
  snapshot_ok v → unmarshal_snapshot v = Ok l → parseID (LocationID l) = Ok id →
  marshal_snapshot (with_location_id l id) = v.
Proof.
  intros (l' & -> & Hc). rewrite unmarshal_marshal. intros Hl%Ok_inj. subst l'. rewrite Hc.
  intros Hid%Ok_inj. subst id. by destruct l.
Qed.

Lemma updated_request id old b o row :
  row_ok id old → fromOrder old = Ok b → toOrder o = Ok row → same_terms b o →
  same_request old (stored_order (updated_order old row)).
Proof.
  intros Hok Hb Ho Hterms. pose proof (ro_stored _ _ Hok) as Hst.
  unfold fromOrder in Hb. inv_ok Hb. unfold toOrder in Ho. inv_ok Ho.
  destruct Hterms as [T1 T2 T3 T4 T5 T6 T7 T8 T9]. subst b row. cbn in T1, T2, T3, T4, T5, T6, T7, T8, T9.
  split; cbn; try congruence.
  - rewrite T3. eapply snapshot_written; [apply (ro_places _ _ Hok)|done|]. by rewrite <- T3.
  - rewrite T4. eapply snapshot_written; [apply (ro_places _ _ Hok)|done|]. by rewrite <- T4.
  - rewrite T8. exact (f_equal r_ExpiresAt Hst).
  - exact (f_equal r_CreatedAt Hst).
Qed.

Lemma row_two_parties id r o : row_ok id r → fromOrder r = Ok o → two_parties o.
Proof.
  intros Hrow (_ & Hr & Hc & _)%fromOrder_fields u Hu. unfold IsRequestedBy, IsAssignedTo in *.
  rewrite Hr in Hu. rewrite Hc. apply andb_prop in Hu as [-> Hu]. simpl.
  destruct (r_CourierID r) as [c|] eqn:Hcr; [|done].
  destruct (EqualFold c u) eqn:Hfold; [|done]. exfalso.
  assert (r_RequesterID r = c) as Heq.
  { apply canonical_fold; [apply Hrow|by apply (ro_courier id r Hrow)|]. by eapply EqualFold_trans. }
  pose proof (ro_status id r Hrow) as Hst. unfold orders_status_check in Hst.
  rewrite Hcr, Heq, same_refl in Hst. simpl in Hst. by rewrite andb_false_r in Hst.
Qed.

Lemma write_order_ok r d d' :
  write_order r d = Ok d' →
  d' = d <| orders := <[r_ID r := stored_order r]> (orders d) |>
  ∧ orders_status_check (stored_order r) = true ∧ orders_values_check (stored_order r) = true.
Proof.
  unfold write_order. intros Hw. inv_ok Hw. apply andb_prop in Hok1 as [? ?].
  repeat split; [|done..]. by subst d'.
Qed.

Lemma InsertOrder_ok r d d' :
  InsertOrder r d = Ok d' → orders d !! r_ID r = None ∧ write_order r d = Ok d'.
Proof.
  unfold InsertOrder. intros Hi. inv_ok Hi. split; [|done].
  by destruct (orders d !! r_ID r).
Qed.

Lemma UpdateOrder_ok r expected d d' :
  UpdateOrder r expected d = Ok (d', 1) →
  ∃ old, orders d !! r_ID r = Some old ∧ r_Revision old = expected
    ∧ write_order (updated_order old r) d = Ok d'.
Proof.
  unfold UpdateOrder. destruct (orders d !! r_ID r) as [old|] eqn:Hold; [|done].
  destruct (r_Revision old =? expected) eqn:Hrev; [|done]. apply Z.eqb_eq in Hrev.
  intros Hu. inv_ok Hu. simplify_eq. eauto.
Qed.

(** ** The effect of Apply *)

(** Only the database of the session changed. *)
Definition only_db (s s' : Session) : Prop := s' = s <| db := db s' |>.

Lemma only_db_refl s : only_db s s.
Proof. by destruct s. Qed.
Lemma only_db_trans s1 s2 s3 : only_db s1 s2 → only_db s2 s3 → only_db s1 s3.
Proof. unfold only_db. intros -> ->. reflexivity. Qed.
Lemma only_db_set s d : only_db s (s <| db := d |>).
Proof. reflexivity. Qed.

(** The order tables other than the offers. *)
Definition same_core (d d' : ODB) : Prop :=
  orders d' = orders d ∧ audit d' = audit d ∧ outbox d' = outbox d ∧ history d' = history d.

Lemma same_core_refl d : same_core d d.
Proof. done. Qed.
Lemma same_core_trans d1 d2 d3 : same_core d1 d2 → same_core d2 d3 → same_core d1 d3.
Proof. unfold same_core. intuition congruence. Qed.

Lemma InsertOffer_core f d d' : InsertOffer f d = Ok d' → same_core d d'.
Proof. unfold InsertOffer. intros Hi. inv_ok Hi. by subst d'. Qed.

Lemma UpdateOffer_core f e d d' n : UpdateOffer f e d = Ok (d', n) → same_core d d'.
Proof.
  unfold UpdateOffer. destruct (offers d !! f_ID f); [|intros Hu; inv_ok Hu; by simplify_eq].
  destruct (decide _); intros Hu; inv_ok Hu; by simplify_eq.
Qed.

Lemma apply_offers_run o id updates env s u s' :
  apply_offers o id updates env s = Ok (u, s') → only_db s s' ∧ same_core (db s) (db s').
Proof.
  revert s. induction updates as [|x updates IH]; intros s Hrun; cbn [apply_offers] in Hrun.
  - inv_run Hrun. split; [apply only_db_refl|done].
  - inv_run Hrun.
    + apply IH in Hrun as [Hdb Hcore].
      split; [exact (only_db_trans _ _ _ (only_db_set _ _) Hdb)|].
      eapply same_core_trans; [|exact Hcore]. by eapply InsertOffer_core.
    + apply IH in Hrun as [Hdb Hcore].
      split; [exact (only_db_trans _ _ _ (only_db_set _ _) Hdb)|].
      eapply same_core_trans; [|exact Hcore]. by eapply UpdateOffer_core.
Qed.

(** *** Facts *)

Definition fact_row (id : string) (revision : Z) (at_ : Time) (i : Z) (f : Fact) (fid : string) : FactRow := {|
  fr_EventID := fid; fr_OrderID := id; fr_Revision := revision; fr_Ordinal := i;
  fr_Kind := fc_Kind f; fr_PayloadVersion := fc_Version f; fr_Payload := fc_Payload f;
  fr_CreatedAt := stored_time at_; fr_PublishedAt := None; fr_LeaseToken := None;
  fr_LeaseUntil := None |}.

(** The rows written for a list of facts, from ordinal [i]. *)
Inductive fact_rows (id : string) (revision : Z) (at_ : Time) : Z → list Fact → list FactRow → Prop :=
| frs_nil i : fact_rows id revision at_ i [] []
| frs_cons i f fid facts rows :
    parseID (fc_ID f) = Ok fid → fact_rows id revision at_ (i + 1) facts rows →
    fact_rows id revision at_ i (f :: facts) (fact_row id revision at_ i f fid :: rows).

Lemma InsertFact_ok f d d' :
  InsertFact f d = Ok d' →
  d' = d <| outbox := outbox d ++ [f] |> ∧ Forall (λ f', fact_clash f f' = false) (outbox d).
Proof.
  unfold InsertFact. intros Hi. inv_ok Hi. split; [by subst|].
  apply Forall_forall. intros f' Hin%list_elem_of_In. apply negb_true_iff.
  by apply (proj1 (forallb_forall _ _) Hok0).
Qed.

Lemma apply_facts_run id revision at_ i facts env s u s' :
  apply_facts id revision at_ i facts env s = Ok (u, s') →
  ∃ rows, fact_rows id revision at_ i facts rows
    ∧ only_db s s' ∧ db s' = (db s) <| outbox := outbox (db s) ++ rows |>.
Proof.
  revert i s. induction facts as [|f facts IH]; intros i s Hrun; cbn [apply_facts] in Hrun.
  - inv_run Hrun. exists []. split; [constructor|]. split; [apply only_db_refl|].
    rewrite app_nil_r. by destruct (db s).
  - inv_run Hrun. apply InsertFact_ok in Hrun1 as [-> _].
    apply IH in Hrun as (rows & Hrows & Hdb & Hdb').
    exists (fact_row id revision at_ i f a :: rows). split; [by constructor|].
    split; [exact (only_db_trans _ _ _ (only_db_set _ _) Hdb)|].
    rewrite Hdb'. simpl. by rewrite <- app_assoc.
Qed.

(** *** The assignment history *)

(** What a change of courier does to the episodes of an order. *)
Definition current_couriers (id : string) (h : list HistoryRow) : list string :=
  flat_map (λ x, if current_of id x then [hs_CourierID x] else []) h.
Arguments current_couriers : simpl never.

Lemma current_app id h x :
  current_couriers id (h ++ [x])
  = current_couriers id h ++ (if current_of id x then [hs_CourierID x] else []).
Proof.
  unfold current_couriers. rewrite flat_map_app. simpl. by rewrite app_nil_r.
Qed.

Lemma OpenAssignmentHistory_ok order courier revision at_ d d' :
  OpenAssignmentHistory order courier revision at_ d = Ok d' →
  ∃ x, d' = d <| history := history d ++ [x] |> ∧ hs_OrderID x = order ∧ hs_CourierID x = courier
    ∧ hs_IsCurrent x = true ∧ hs_AssignedRevision x = Some revision ∧ is_some (orders d !! order) = true.
Proof.
  unfold OpenAssignmentHistory. intros Ho. inv_ok Ho. eexists. split; [by subst d'|done].
Qed.

Definition ended (order courier : string) (h : HistoryRow) : bool :=
  current_of order h && same (hs_CourierID h) courier.

Lemma CloseAssignmentHistory_ok order courier revision at_ reason d d' n :
  CloseAssignmentHistory order courier revision at_ reason d = Ok (d', n) →
  d' = d <| history := (λ h, if ended order courier h then closed_episode revision at_ reason h else h)
                         <$> history d |>.
Proof.
  unfold CloseAssignmentHistory. intros Hc. inv_ok Hc. by simplify_eq.
Qed.

Lemma current_close id order courier revision at_ reason h :
  current_couriers id ((λ x, if ended order courier x then closed_episode revision at_ reason x else x) <$> h)
  = if decide (id = order) then filter (λ c, c ≠ courier) (current_couriers id h)
    else current_couriers id h.
Proof.
  induction h as [|x h IH]; [by destruct (decide _)|].
  rewrite fmap_cons. unfold current_couriers in *. cbn [flat_map]. rewrite IH. clear IH.
  destruct (ended order courier x) eqn:He; unfold ended in He.
  - apply andb_prop in He as [Hcur Hc%same_eq]. unfold current_of in *. simpl.
    rewrite andb_false_r. simpl. apply andb_prop in Hcur as [Ho%same_eq Hic]. rewrite Hic, Ho.
    destruct (decide (id = order)) as [->|Hne].
    + rewrite same_refl. simpl. rewrite filter_cons_False by tauto. done.
    + replace (same order id) with false by (symmetry; apply same_false; congruence). done.
  - destruct (decide (id = order)) as [->|Hne]; [|done].
    destruct (current_of order x) eqn:Hcur; [|done]. simpl in *. apply same_ne in He.
    by rewrite filter_cons_True.
Qed.

Lemma parseID_empty : parseID EmptyString = Err ErrInvalid.
Proof. unfold parseID. by rewrite uuid_parse_empty. Qed.

Lemma canonical_nonempty id : canonical id → id ≠ EmptyString.
Proof. unfold canonical. intros Hid ->. by rewrite parseID_empty in Hid. Qed.

(** The courier as the empty text or its identifier, on both sides. *)
Lemma or_empty_option (o : option string) :
  (∀ x, o = Some x → x ≠ EmptyString) →
  if nonempty (or_empty o) then o = Some (or_empty o) else o = None.
Proof.
  destruct o as [x|]; simpl; [|done]. intros Hx. unfold nonempty.
  by rewrite bool_decide_eq_false_2 by auto.
Qed.

Lemma parse_opt_nonempty o o' x : parse_opt o = Ok o' → o = Some x → x ≠ EmptyString.
Proof. unfold parse_opt. intros Hp -> ->. rewrite parseID_empty in Hp. discriminate. Qed.

Definition history_known (d : ODB) : Prop :=
  ∀ x, x ∈ history d → is_Some (orders d !! hs_OrderID x).

Record history_effect (id : string) (rc : option string) (d d' : ODB) : Prop := {
  he_orders : orders d' = orders d;
  he_audit : audit d' = audit d;
  he_outbox : outbox d' = outbox d;
  he_current : current_couriers id (history d') = option_list rc;
  he_others id' : id' ≠ id → current_couriers id' (history d') = current_couriers id' (history d);
  he_known : history_known d → history_known d';
}.

Lemma close_known order courier revision at_ reason d :
  history_known d →
  history_known (d <| history := (λ h, if ended order courier h then closed_episode revision at_ reason h else h)
                                   <$> history d |>).
Proof.
  intros Hk x Hin. simpl in *. apply list_elem_of_fmap in Hin as (y & -> & Hy).
  destruct (ended order courier y); exact (Hk y Hy).
Qed.

Lemma open_known d x :
  history_known d → is_some (orders d !! hs_OrderID x) = true →
  history_known (d <| history := history d ++ [x] |>).
Proof.
  intros Hk Hx y [Hy| ->%list_elem_of_singleton]%elem_of_app; simpl; [by apply Hk|].
  by destruct (orders d !! hs_OrderID x).
Qed.

Lemma history_run before c env s u s' id rc :
  applyAssignmentHistory before c env s = Ok (u, s') →
  parseID (o_ID (c_Order c)) = Ok id → parse_opt (o_CourierID (c_Order c)) = Ok rc →
  (∀ x, before ≫= o_CourierID = Some x → canonical x) →
  current_couriers id (history (db s)) = option_list (before ≫= o_CourierID) →
  only_db s s' ∧ history_effect id rc (db s) (db s').
Proof.
  intros Hrun Hid Hrc Hcan Hcur. unfold applyAssignmentHistory in Hrun.
  set (prev := before ≫= o_CourierID) in *. set (next := o_CourierID (c_Order c)) in *.
  assert (Hp : if nonempty (or_empty prev) then prev = Some (or_empty prev) else prev = None).
  { apply or_empty_option. intros x Hx. by apply canonical_nonempty, Hcan. }
  assert (Hn : if nonempty (or_empty next) then next = Some (or_empty next) else next = None).
  { apply or_empty_option. intros x Hx. by eapply parse_opt_nonempty. }
  destruct (decide (or_empty prev = or_empty next)) as [Heq|Hne].
  { inv_run Hrun. split; [apply only_db_refl|]. split; try done.
    rewrite Hcur. rewrite Heq in Hp. destruct (nonempty (or_empty next)).
    - rewrite Hn in Hrc. unfold parse_opt in Hrc. inv_ok Hrc. subst rc.
      rewrite Hp. simpl. specialize (Hcan _ Hp). unfold canonical in Hcan. rewrite Hcan in Hok.
      by simplify_eq.
    - rewrite Hn in Hrc. apply Ok_inj in Hrc as <-. by rewrite Hp. }
  assert (Hclosed : ∀ d n at_ reason, (if nonempty (or_empty prev) then
      CloseAssignmentHistory id (or_empty prev) n at_ reason (db s) = Ok (d, 1) else d = db s) →
      current_couriers id (history d) = [] ∧ orders d = orders (db s) ∧ audit d = audit (db s)
      ∧ outbox d = outbox (db s) ∧ (history_known (db s) → history_known d)
      ∧ ∀ id', id' ≠ id → current_couriers id' (history d) = current_couriers id' (history (db s))).
  { intros d n at_ reason Hd. destruct (nonempty (or_empty prev)).
    - apply CloseAssignmentHistory_ok in Hd as ->. simpl. rewrite current_close, decide_True by done.
      rewrite Hcur, Hp. simpl. rewrite filter_cons_False by tauto.
      repeat split; try done; [by apply close_known|]. intros id' Hid'.
      by rewrite current_close, decide_False.
    - subst d. rewrite Hcur, Hp. done. }
  assert (Hrun' : ∃ d, (if nonempty (or_empty prev) then
      CloseAssignmentHistory id (or_empty prev) (o_Revision (c_Order c)) (au_At (c_Audit c))
        (c_Action c) (db s) = Ok (d, 1) else d = db s)
      ∧ (if nonempty (or_empty next) then
           courierID ← lift (parseID (or_empty next));
           persisted (exec_unit (OpenAssignmentHistory id courierID (o_Revision (c_Order c))
                                   (o_AssignedAt (c_Order c)))) else mret tt) env (s <| db := d |>)
        = Ok (u, s')).
  { apply bind_ok in Hrun as (? & s1 & Hr1 & Hrun). apply run_lift in Hr1 as [Hr1 ->].
    rewrite Hid in Hr1. apply Ok_inj in Hr1 as <-.
    apply bind_ok in Hrun as (? & s1 & Hr1 & Hrun).
    assert (∃ d, s1 = s <| db := d |> ∧ (if nonempty (or_empty prev) then
      CloseAssignmentHistory id (or_empty prev) (o_Revision (c_Order c)) (au_At (c_Audit c))
        (c_Action c) (db s) = Ok (d, 1) else d = db s)) as (d & -> & Hd).
    { destruct (nonempty (or_empty prev)).
      - inv_run Hr1. apply Z.eqb_eq in Hr1 as ->. eexists. split; [reflexivity|].
        rewrite (Hcan _ Hp) in Hrun0. by apply Ok_inj in Hrun0 as <-.
      - inv_run Hr1. exists (db s). split; [by destruct s|done]. }
    exists d. split; [done|]. destruct (nonempty (or_empty next)); [|done].
    apply bind_ok in Hrun as (? & s1 & Hr2 & Hrun). by apply run_ensure in Hr2 as [_ ->]. }
  destruct Hrun' as (d & Hd & Hrun'). destruct (Hclosed d _ _ _ Hd) as (Hc1&Hc2&Hc3&Hc4&Hc5&Hc6).
  destruct (nonempty (or_empty next)).
  - inv_run Hrun'. apply OpenAssignmentHistory_ok in Hrun' as (x & -> & Hx1 & Hx2 & Hx3 & _ & Hx4).
    split; [reflexivity|]. rewrite Hn in Hrc. unfold parse_opt in Hrc. inv_ok Hrc. subst rc.
    rewrite Hrun0 in Hok. apply Ok_inj in Hok as <-. simpl in Hx4.
    split; simpl; try done.
    + rewrite current_app, Hc1. unfold current_of. by rewrite Hx1, Hx3, same_refl, Hx2.
    + intros id' Hid'. rewrite current_app, Hc6 by done. unfold current_of.
      replace (same (hs_OrderID x) id') with false by (symmetry; apply same_false; congruence).
      by rewrite app_nil_r.
    + intros Hk. apply open_known; [auto|]. by rewrite Hx1.
  - inv_run Hrun'. split; [reflexivity|]. rewrite Hn in Hrc. apply Ok_inj in Hrc as <-.
    split; simpl; auto.
Qed.

(** ** The invariant *)

Definition count (p : FactRow → bool) (l : list FactRow) : nat := length (List.filter p l).
Arguments count : simpl never.
Definition fact_at (id : string) (n : Z) (k : FactKind) (f : FactRow) : bool :=
  same (fr_OrderID f) id && (fr_Revision f =? n) && same (fr_Kind f) k.
Definition outcome_of (id : string) (f : FactRow) : bool :=
  same (fr_OrderID f) id && same (fr_Kind f) Outcome.

Lemma count_app p l1 l2 : count p (l1 ++ l2) = (count p l1 + count p l2)%nat.
Proof. unfold count. by rewrite List.filter_app, length_app. Qed.

Lemma count_none p l : (∀ f, f ∈ l → p f = false) → count p l = 0%nat.
Proof.
  unfold count. induction l as [|f l IH]; intros Hl; simpl; [done|].
  rewrite (Hl f) by apply list_elem_of_here. apply IH. intros g Hg. apply Hl. by apply list_elem_of_further.
Qed.

(** The revision changed the status. *)
Definition changes_status (a : AuditRow) : Prop := ad_PreviousStatus a ≠ ad_ResultingStatus a.

(** The first revision creates the order; a later one starts from the status
    the one before left, and changes it only by a move of the lifecycle. *)
Definition created (a : AuditRow) : Prop :=
  ad_Action a = Create ∧ ad_PreviousStatus a = NoStatus ∧ ad_ResultingStatus a = PendingReservation.
Definition step_of (s : Status) (a : AuditRow) : Prop :=
  ad_PreviousStatus a = s ∧
  (ad_ResultingStatus a = s ∨ moves s (ad_Action a) (ad_ResultingStatus a)).

(** A fact repeats what the audit says of its revision. *)
Record announces (f : FactRow) (a : AuditRow) : Prop := {
  an_order : fr_OrderID f = ad_OrderID a ∧ parseID (p_OrderID (fr_Payload f)) = Ok (ad_OrderID a);
  an_revision : fr_Revision f = ad_Revision a ∧ p_Revision (fr_Payload f) = ad_Revision a;
  an_status : p_Status (fr_Payload f) = ad_ResultingStatus a;
  an_previous : p_PreviousStatus (fr_Payload f) = ad_PreviousStatus a;
  an_action : p_Action (fr_Payload f) = ad_Action a;
  an_version : fr_PayloadVersion f = 1;
  an_changes : changes_status a;
  an_outcome : fr_Kind f = Outcome → has_outcome (ad_ResultingStatus a) = true;
}.

Record order_ok (d : ODB) (id : string) (r : OrderRow) : Prop := {
  oi_row : row_ok id r;
  oi_audit n : is_Some (audit d !! (id, n)) ↔ 1 ≤ n ≤ r_Revision r;
  oi_first a : audit d !! (id, 1) = Some a → created a;
  oi_chain n a a' : audit d !! (id, n) = Some a → audit d !! (id, n + 1) = Some a' →
    step_of (ad_ResultingStatus a) a';
  oi_latest a : audit d !! (id, r_Revision r) = Some a → ad_ResultingStatus a = r_Status r;
  oi_announced n a : audit d !! (id, n) = Some a → changes_status a →
    count (fact_at id n StatusChanged) (outbox d) = 1%nat;
  oi_outcome : count (outcome_of id) (outbox d)
    = if has_outcome (r_Status r) then 1%nat else 0%nat;
  oi_courier : current_couriers id (history d) = option_list (r_CourierID r);
}.

Record Inv (d : ODB) : Prop := {
  inv_orders id r : orders d !! id = Some r → order_ok d id r;
  inv_audit id n a : audit d !! (id, n) = Some a →
    is_Some (orders d !! id) ∧ ad_OrderID a = id ∧ ad_Revision a = n;
  inv_facts f : f ∈ outbox d → ∃ a, audit d !! (fr_OrderID f, fr_Revision f) = Some a ∧ announces f a;
  inv_history : history_known d;
}.

Lemma Inv_empty : Inv empty_odb.
Proof. split; try done; intros f Hf; by apply elem_of_nil in Hf. Qed.

Lemma Inv_core d d' : same_core d d' → Inv d → Inv d'.
Proof.
  intros (Ho & Ha & Hf & Hh) [H1' H2' H3' H4']. split.
  - intros id r. rewrite Ho. intros [P1 P2 P3 P4 P5 P6 P7 P8]%H1'.
    split; rewrite ?Ha, ?Hf, ?Hh; auto.
  - intros id n a. rewrite Ha, Ho. apply H2'.
  - intros f. rewrite Hf, Ha. apply H3'.
  - unfold history_known. by rewrite Hh, Ho.
Qed.

(** ** What no step undoes *)

(** The relay changes only the publication columns of a fact. *)
Definition publication_only (f g : FactRow) : Prop :=
  g = f <| fr_PublishedAt := fr_PublishedAt g |> <| fr_LeaseToken := fr_LeaseToken g |>
        <| fr_LeaseUntil := fr_LeaseUntil g |>.

Lemma publication_refl f : publication_only f f.
Proof. by destruct f. Qed.

Lemma publication_fields f g :
  publication_only f g →
  fr_OrderID g = fr_OrderID f ∧ fr_Revision g = fr_Revision f ∧ fr_Kind g = fr_Kind f
  ∧ fr_PayloadVersion g = fr_PayloadVersion f ∧ fr_Payload g = fr_Payload f.
Proof. unfold publication_only. intros ->. done. Qed.

Lemma publication_trans f g h : publication_only f g → publication_only g h → publication_only f h.
Proof. unfold publication_only. intros -> ->. done. Qed.

#[export] Instance publication_preorder : PreOrder publication_only.
Proof. split; [intros f; apply publication_refl|intros f g h; apply publication_trans]. Qed.
#[export] Instance same_request_preorder : PreOrder same_request.
Proof. split; [intros r; apply same_request_refl|intros r1 r2 r3; apply same_request_trans]. Qed.

(** A later state of the tables: the orders are the same requests, the audit
    trail and the facts only grew. *)
Record extends (d d' : ODB) : Prop := {
  ex_orders id r : orders d !! id = Some r →
    ∃ r', orders d' !! id = Some r' ∧ same_request r r' ∧ r_Revision r ≤ r_Revision r';
  ex_audit : audit d ⊆ audit d';
  ex_facts : ∃ old new, outbox d' = old ++ new ∧ Forall2 publication_only (outbox d) old;
}.

Lemma extends_refl d : extends d d.
Proof.
  split; [|done|exists (outbox d), []; by rewrite app_nil_r].
  intros id r Hr. exists r. by repeat split.
Qed.

Lemma extends_trans d1 d2 d3 : extends d1 d2 → extends d2 d3 → extends d1 d3.
Proof.
  intros [O1 A1 (old1 & new1 & F1 & P1)] [O2 A2 (old2 & new2 & F2 & P2)]. split.
  - intros id r (r2 & Hr2 & Hs & Hle)%O1. destruct (O2 _ _ Hr2) as (r3 & Hr3 & Hs' & Hle').
    exists r3. split; [done|]. split; [by etransitivity|lia].
  - by etransitivity.
  - rewrite F1 in P2. apply Forall2_app_inv_l in P2 as (o1 & o2 & Ho1 & Ho2 & ->).
    exists o1, (o2 ++ new2). rewrite F2, app_assoc. split; [done|].
    by etransitivity.
Qed.

#[export] Instance extends_preorder : PreOrder extends.
Proof. split; [intros d; apply extends_refl|intros d1 d2 d3; apply extends_trans]. Qed.

Lemma extends_core d d1 d2 : same_core d1 d2 → extends d d1 → extends d d2.
Proof.
  intros (Ho & Ha & Hf & _) [O1 A1 F1]. split; rewrite ?Ho, ?Ha, ?Hf; done.
Qed.

(** ** One more revision

    The tables gain revision [n] of order [id]: its row, its audit entry [a]
    and its facts. *)
Record revised (d d' : ODB) (id : string) (old : option OrderRow) (r : OrderRow) (a : AuditRow)
    (rows : list FactRow) : Prop := {
  rv_old : orders d !! id = old;
  rv_orders : orders d' = <[id := r]> (orders d);
  rv_audit : audit d' = <[(id, r_Revision r) := a]> (audit d);
  rv_outbox : outbox d' = outbox d ++ rows;
  rv_row : row_ok id r;
  rv_revision : r_Revision r = match old with Some o => r_Revision o + 1 | None => 1 end;
  rv_entry : ad_OrderID a = id ∧ ad_Revision a = r_Revision r ∧ ad_ResultingStatus a = r_Status r;
  rv_step : match old with Some o => step_of (r_Status o) a | None => created a end;
  rv_facts f : f ∈ rows → announces f a;
  rv_announced : changes_status a → count (fact_at id (r_Revision r) StatusChanged) rows = 1%nat;
  rv_outcome : changes_status a → count (outcome_of id) rows
                 = if has_outcome (r_Status r) then 1%nat else 0%nat;
  rv_current : current_couriers id (history d') = option_list (r_CourierID r);
  rv_others id' : id' ≠ id → current_couriers id' (history d') = current_couriers id' (history d);
  rv_known : history_known d';
}.

Section revised.
  Context (d d' : ODB) (id : string) (old : option OrderRow) (r : OrderRow) (a : AuditRow)
    (rows : list FactRow).
  Context (HI : Inv d) (HR : revised d d' id old r a rows).

Lemma revised_new : audit d !! (id, r_Revision r) = None.
Proof.
  destruct (audit d !! (id, r_Revision r)) as [a0|] eqn:Ha; [|done].
  destruct (inv_audit d HI _ _ _ Ha) as ([o Ho] & _). destruct HR as [Hold _ _ _ _ Hrev _ _ _ _ _ _ _ _].
  rewrite Ho in Hold. subst old. assert (is_Some (audit d !! (id, r_Revision r))) as Hs by eauto.
  apply (oi_audit _ _ _ (inv_orders d HI _ _ Ho)) in Hs. lia.
Qed.

Lemma revised_positive : 1 ≤ r_Revision r.
Proof.
  destruct HR as [Hold _ _ _ _ Hrev _ _ _ _ _ _ _ _]. rewrite Hrev. destruct old as [o|]; [|lia].
  pose proof (inv_orders d HI _ _ Hold) as Ho. pose proof (ro_values _ _ (oi_row _ _ _ Ho)) as Hv.
  unfold orders_values_check in Hv. apply andb_prop in Hv as [[_ Hv]%andb_prop _].
  apply Z.ltb_lt in Hv. lia.
Qed.

Lemma revised_lookup n : n ≠ r_Revision r → audit d' !! (id, n) = audit d !! (id, n).
Proof. intros Hn. rewrite (rv_audit _ _ _ _ _ _ _ HR). by rewrite lookup_insert_ne by congruence. Qed.

(** No fact of the new revision was there before. *)
Lemma revised_no_facts k : count (fact_at id (r_Revision r) k) (outbox d) = 0%nat.
Proof.
  apply count_none. intros f Hf. destruct (inv_facts d HI f Hf) as (a0 & Ha & _).
  unfold fact_at. destruct (same (fr_OrderID f) id) eqn:Hid; [|done].
  destruct (fr_Revision f =? r_Revision r) eqn:Hn; [|done].
  apply same_eq in Hid. apply Z.eqb_eq in Hn. rewrite Hid, Hn, revised_new in Ha. done.
Qed.

(** The new facts are of the new revision. *)
Lemma revised_rows n k : n ≠ r_Revision r → count (fact_at id n k) rows = 0%nat.
Proof.
  intros Hn. apply count_none. intros f Hf. pose proof (rv_facts _ _ _ _ _ _ _ HR f Hf) as Han.
  destruct (an_revision _ _ Han) as [Hr _]. destruct (rv_entry _ _ _ _ _ _ _ HR) as (_ & He & _).
  unfold fact_at. replace (fr_Revision f =? n) with false by (symmetry; apply Z.eqb_neq; congruence).
  by rewrite andb_false_r.
Qed.

Lemma revised_outcomes : count (outcome_of id) (outbox d') = if has_outcome (r_Status r) then 1%nat else 0%nat.
Proof.
  rewrite (rv_outbox _ _ _ _ _ _ _ HR), count_app.
  destruct (rv_entry _ _ _ _ _ _ _ HR) as (Hid & _ & Hs).
  destruct (decide (ad_PreviousStatus a = ad_ResultingStatus a)) as [Hsame|Hch].
  - assert (count (outcome_of id) rows = 0%nat) as ->.
    { apply count_none. intros f Hf. exfalso. by destruct (an_changes _ _ (rv_facts _ _ _ _ _ _ _ HR f Hf)). }
    pose proof (rv_step _ _ _ _ _ _ _ HR) as Hstep. pose proof (rv_old _ _ _ _ _ _ _ HR) as Hold.
    destruct old as [o|].
    + destruct Hstep as [Hp _]. rewrite (oi_outcome _ _ _ (inv_orders d HI _ _ Hold)).
      rewrite <- Hs, <- Hsame, Hp. lia.
    + destruct Hstep as (_ & Hp & Hr). congruence.
  - rewrite (rv_outcome _ _ _ _ _ _ _ HR Hch).
    assert (count (outcome_of id) (outbox d) = 0%nat) as ->; [|done].
    pose proof (rv_step _ _ _ _ _ _ _ HR) as Hstep. pose proof (rv_old _ _ _ _ _ _ _ HR) as Hold.
    destruct old as [o|].
    + rewrite (oi_outcome _ _ _ (inv_orders d HI _ _ Hold)). destruct Hstep as [Hp [Hr|Hm]]; [congruence|].
      apply moves_not_terminal in Hm. by destruct (r_Status o).
    + apply count_none. intros f Hf. destruct (inv_facts d HI f Hf) as (a0 & Ha & _).
      apply (inv_audit d HI) in Ha as ([o Ho] & _). unfold outcome_of.
      destruct (same (fr_OrderID f) id) eqn:Hfid; [|done]. apply same_eq in Hfid. congruence.
Qed.

Lemma revised_order : order_ok d' id r.
Proof.
  pose proof revised_positive as Hpos. pose proof revised_new as Hnew.
  destruct (rv_entry _ _ _ _ _ _ _ HR) as (Hid & Hrev & Hs).
  assert (Ha : audit d' !! (id, r_Revision r) = Some a).
  { rewrite (rv_audit _ _ _ _ _ _ _ HR). apply lookup_insert_eq. }
  pose proof (rv_old _ _ _ _ _ _ _ HR) as Hold. pose proof (rv_step _ _ _ _ _ _ _ HR) as Hstep.
  pose proof (rv_revision _ _ _ _ _ _ _ HR) as Hr.
  split; [by apply HR|..|exact revised_outcomes|by apply HR].
  - intros n. destruct (decide (n = r_Revision r)) as [->|Hn].
    { rewrite Ha. split; [lia|eauto]. }
    rewrite revised_lookup by done. destruct old as [o|].
    + rewrite (oi_audit _ _ _ (inv_orders d HI _ _ Hold)). lia.
    + split; [|lia]. intros [a0 Ha0]. destruct (inv_audit d HI _ _ _ Ha0) as ([? ?] & _). congruence.
  - intros a0 Ha0. destruct (decide (1 = r_Revision r)) as [Hn|Hn].
    + rewrite Hn, Ha in Ha0. apply (inj Some) in Ha0 as <-. destruct old as [o|]; [|done].
      pose proof (inv_orders d HI _ _ Hold) as Ho. pose proof (ro_values _ _ (oi_row _ _ _ Ho)) as Hv.
      unfold orders_values_check in Hv. apply andb_prop in Hv as [[_ Hv%Z.ltb_lt]%andb_prop _]. lia.
    + rewrite revised_lookup in Ha0 by done. destruct old as [o|]; [|lia].
      by eapply (oi_first _ _ _ (inv_orders d HI _ _ Hold)).
  - intros n a0 a1 Ha0 Ha1. destruct (decide (n + 1 = r_Revision r)) as [Hn|Hn].
    + rewrite Hn, Ha in Ha1. apply (inj Some) in Ha1 as <-. rewrite revised_lookup in Ha0 by lia.
      destruct old as [o|]; [|assert (n = 0) as -> by lia; destruct (inv_audit d HI _ _ _ Ha0) as ([? ?]&_); congruence].
      assert (n = r_Revision o) as -> by lia.
      by rewrite (oi_latest _ _ _ (inv_orders d HI _ _ Hold) _ Ha0).
    + destruct (decide (n = r_Revision r)) as [->|Hn'].
      * rewrite revised_lookup in Ha1 by lia. destruct old as [o|].
        -- assert (is_Some (audit d !! (id, r_Revision r + 1))) as Hx by eauto.
           apply (oi_audit _ _ _ (inv_orders d HI _ _ Hold)) in Hx. lia.
        -- destruct (inv_audit d HI _ _ _ Ha1) as ([? ?]&_); congruence.
      * rewrite !revised_lookup in * by done. destruct old as [o|].
        -- by eapply (oi_chain _ _ _ (inv_orders d HI _ _ Hold)).
        -- destruct (inv_audit d HI _ _ _ Ha1) as ([? ?]&_); congruence.
  - intros a0 Ha0. rewrite Ha in Ha0. by apply (inj Some) in Ha0 as <-.
  - intros n a0 Ha0 Hch. rewrite (rv_outbox _ _ _ _ _ _ _ HR), count_app.
    destruct (decide (n = r_Revision r)) as [->|Hn].
    + rewrite Ha in Ha0. apply (inj Some) in Ha0 as <-. rewrite revised_no_facts. by apply HR.
    + rewrite revised_rows by done. rewrite revised_lookup in Ha0 by done. destruct old as [o|].
      * rewrite (oi_announced _ _ _ (inv_orders d HI _ _ Hold) _ _ Ha0 Hch). done.
      * destruct (inv_audit d HI _ _ _ Ha0) as ([? ?]&_); congruence.
Qed.

(** The other orders keep what they had. *)
Lemma revised_others id' o' : id' ≠ id → orders d !! id' = Some o' → order_ok d' id' o'.
Proof.
  intros Hne Ho'. destruct (inv_orders d HI _ _ Ho') as [Q1 Q2 Q3 Q4 Q5 Q6 Q7 Q8].
  assert (Hau : ∀ n, audit d' !! (id', n) = audit d !! (id', n)).
  { intros n. rewrite (rv_audit _ _ _ _ _ _ _ HR). by rewrite lookup_insert_ne by congruence. }
  assert (Hc : ∀ p, (∀ f, same (fr_OrderID f) id' = false → p f = false) →
               count p (outbox d') = count p (outbox d)).
  { intros p Hp. rewrite (rv_outbox _ _ _ _ _ _ _ HR), count_app. rewrite (count_none p rows); [lia|].
    intros f Hf. apply Hp, same_false. destruct (an_order _ _ (rv_facts _ _ _ _ _ _ _ HR f Hf)) as [Hid _].
    destruct (rv_entry _ _ _ _ _ _ _ HR) as (Hid' & _ & _). congruence. }
  split; try done.
  - intros n. by rewrite Hau.
  - intros b. rewrite Hau. apply Q3.
  - intros n b b'. rewrite !Hau. apply Q4.
  - intros b. rewrite Hau. apply Q5.
  - intros n b. rewrite Hau. intros Hb Hch. rewrite Hc; [by eapply Q6|].
    intros f Hf. unfold fact_at. by rewrite Hf.
  - rewrite Hc; [done|]. intros f Hf. unfold outcome_of. by rewrite Hf.
  - by rewrite (rv_others _ _ _ _ _ _ _ HR).
Qed.

Lemma revised_Inv : Inv d'.
Proof.
  destruct (rv_entry _ _ _ _ _ _ _ HR) as (Hid & Hrev & Hs). split.
  - intros id' r'. rewrite (rv_orders _ _ _ _ _ _ _ HR). destruct (decide (id' = id)) as [->|Hne].
    + rewrite lookup_insert_eq. intros [= <-]. exact revised_order.
    + rewrite lookup_insert_ne by congruence. by apply revised_others.
  - intros id' n b. rewrite (rv_audit _ _ _ _ _ _ _ HR), (rv_orders _ _ _ _ _ _ _ HR).
    destruct (decide ((id', n) = (id, r_Revision r))) as [Heq|Hne].
    + simplify_eq. rewrite !lookup_insert_eq. intros [= <-]. eauto.
    + rewrite lookup_insert_ne by congruence. intros ([o Ho] & ?)%(inv_audit d HI).
      split; [|done]. destruct (decide (id' = id)) as [->|]; [rewrite lookup_insert_eq|rewrite lookup_insert_ne by congruence]; eauto.
  - intros f. rewrite (rv_outbox _ _ _ _ _ _ _ HR), (rv_audit _ _ _ _ _ _ _ HR).
    intros [Hf|Hf]%elem_of_app.
    + destruct (inv_facts d HI f Hf) as (b & Hb & Han). exists b. split; [|done].
      rewrite lookup_insert_ne; [done|]. intros Heq. rewrite <- Heq, revised_new in Hb. done.
    + exists a. pose proof (rv_facts _ _ _ _ _ _ _ HR f Hf) as Han.
      destruct (an_order _ _ Han) as [-> _]. destruct (an_revision _ _ Han) as [-> _].
      rewrite Hid, Hrev, lookup_insert_eq. done.
  - by apply HR.
Qed.

End revised.

End invariant.
