(* ===== verification/OrderAggregate.v ===== *)
(** * Order: the invariant is kept

    A successful Apply adds exactly one sound revision, nothing else touches
    the aggregate, and a transaction that a failed write poisoned never
    commits: so every transaction built from the operations of the order
    package keeps the invariant. *)
From stdpp Require Import prelude gmap strings list.
From Stdlib Require Import ZArith Lia.
From S2P Require Import Prelude.
From S2P Require Import GoLib.
From S2P Require Import GoText.
From S2P Require Import OrderTypes.
From S2P Require Import OrderPolicy.
From S2P Require Import OrderDB.
From S2P Require Import OrderStore.
From S2P Require Import OrderFacts.
From S2P Require Import OrderLogic.
From S2P Require Import OrderInvariant.

Local Open Scope Z_scope.
Local Open Scope foc_scope.

Section aggregate.
  Context `{UUID, !UUIDLaws, !UUIDFold} {base : ODB}.

(** ** A successful Apply *)

(** The audit row of a change. *)
Definition audit_entry (c : Change) (row : OrderRow) (actor : option string) : AuditRow := {|
  ad_OrderID := r_ID row; ad_Revision := o_Revision (c_Order c); ad_Action := c_Action c;
  ad_ActorKind := a_Kind (c_Actor c); ad_ActorID := actor;
  ad_PreviousStatus := au_PreviousStatus (c_Audit c); ad_ResultingStatus := o_Status (c_Order c);
  ad_OccurredAt := stored_time (au_At (c_Audit c)); ad_Details := au_Details (c_Audit c) |}.

(** The writes of a successful Apply, in order. *)
Record written_by (c : Change) (before : option Order) (env : Env) (s s' : Session)
    (row : OrderRow) (d0 d1 : ODB) (s1 s2 s3 : Session) (actor : option string) : Prop := {
  wb_fresh : o_ID (c_Order c) ∉ applied s;
  wb_before : match before with
              | None => c_ExpectedRevision c = 0
              | Some o => locked s !! o_ID (c_Order c) = Some o ∧ o_Revision o = c_ExpectedRevision c
              end;
  wb_valid : validated before c;
  wb_row : toOrder (c_Order c) = Ok row;
  wb_order : match before with
             | None => InsertOrder row (db s) = Ok d0
             | Some _ => UpdateOrder row (c_ExpectedRevision c) (db s) = Ok (d0, 1)
             end;
  wb_history : ∃ u, applyAssignmentHistory before c env (s <| db := d0 |>) = Ok (u, s1);
  wb_offers : ∃ u, apply_offers (c_Order c) (r_ID row) (c_Offers c) env s1 = Ok (u, s2);
  wb_audit : InsertAudit (audit_entry c row actor) (db s2) = Ok d1;
  wb_facts : ∃ u, apply_facts (r_ID row) (o_Revision (c_Order c)) (au_At (c_Audit c)) 0 (c_Facts c) env
               (s2 <| db := d1 |>) = Ok (u, s3);
  wb_applied : s' = s3 <| applied := {[o_ID (c_Order c)]} ∪ applied s3 |>;
}.

Lemma apply_body_written c env s u s' :
  apply_body c env s = Ok (u, s') →
  ∃ before row d0 d1 s1 s2 s3 actor, written_by c before env s s' row d0 d1 s1 s2 s3 actor.
Proof.
  intros Hrun. unfold apply_body in Hrun. inv_run Hrun.
  all: repeat match goal with
    | Hx : bool_decide _ = true |- _ => apply bool_decide_eq_true in Hx
    | Hx : (_ =? _) = true |- _ => apply Z.eqb_eq in Hx; subst end.
  1,2: exists None.
  3,4: eexists (Some _).
  all: do 7 eexists; split; eauto using validateChange_validated.
Qed.

Lemma apply_body_poisoned c env s u s' : failed s ≠ None → apply_body c env s ≠ Ok (u, s').
Proof. intros Hf Hrun. unfold apply_body in Hrun. inv_run Hrun; done. Qed.

(** *** The row *)

(** A session that started from [d0]: its tables are sound, it lost nothing,
    and it knows the row of an order it has locked and not yet changed. *)
Definition aggregate_inv (d0 : ODB) (s : Session) : Prop :=
  Inv (db s) ∧ extends d0 (db s) ∧ ∀ id o, locked s !! id = Some o → id ∉ applied s →
    ∃ r, orders (db s) !! id = Some r ∧ fromOrder r = Ok o.

Record row_written (c : Change) (before : option Order) (d d0 : ODB) (row r : OrderRow) : Prop := {
  rw_db : d0 = d <| orders := <[r_ID row := r]> (orders d) |>;
  rw_ok : row_ok (r_ID row) r;
  rw_status : r_Status r = o_Status (c_Order c);
  rw_revision : r_Revision r = o_Revision (c_Order c);
  rw_courier : r_CourierID r = r_CourierID row;
  rw_credits : r_RewardCredits r = o_RewardCredits (c_Order c)
               ∧ r_ReservedCredits r = o_ReservedCredits (c_Order c);
  rw_delivered : r_DeliveredAt r = stored_times (o_DeliveredAt (c_Order c));
  rw_old : match before with
           | None => orders d !! r_ID row = None
           | Some b => ∃ old, orders d !! r_ID row = Some old ∧ fromOrder old = Ok b
                         ∧ r_ID row = o_ID (c_Order c) ∧ same_request old r
           end;
}.

Lemma parse_opt_all o o' : parse_opt o = Ok o' → ∀ c, o' = Some c → canonical c.
Proof. intros Hp c Hc. by eapply parse_opt_canonical. Qed.

Lemma create_written c row d d0 :
  validated None c → toOrder (c_Order c) = Ok row → InsertOrder row d = Ok d0 →
  row_written c None d d0 row (stored_order row).
Proof.
  intros Hv Hrow [Hnew Hw]%InsertOrder_ok. apply write_order_ok in Hw as (-> & Hst & Hva).
  destruct (toOrder_fields _ _ Hrow) as (Hid & Hreq & Hc & Hs & Hr & Hpend & Hpl & Hrc).
  pose proof (validated_create c Hv) as (_ & Hrev & _).
  pose proof (toOrder_delivered _ _ Hrow) as Hdel.
  split; simpl; try done; try (by rewrite Hdel). split; simpl; try done.
  - by eapply parseID_canonical.
  - by eapply parseID_canonical.
  - by eapply parse_opt_all.
  - by eapply parse_opt_all.
  - by destruct Hpl.
  - rewrite Hr, Hrev. int64_lia.
  - apply stored_order_idemp.
Qed.

Lemma update_written c b row d d0 old :
  validated (Some b) c → toOrder (c_Order c) = Ok row →
  orders d !! o_ID (c_Order c) = Some old → fromOrder old = Ok b → row_ok (o_ID (c_Order c)) old →
  UpdateOrder row (c_ExpectedRevision c) d = Ok (d0, 1) →
  row_written c (Some b) d d0 row (stored_order (updated_order old row)).
Proof.
  intros Hv Hrow Hold Hb Hok (old' & Hold' & _ & Hw)%UpdateOrder_ok.
  destruct (toOrder_fields _ _ Hrow) as (Hid & Hreq & Hc & Hs & Hr & Hpend & Hpl & Hrc).
  assert (r_ID row = o_ID (c_Order c)) as Heq.
  { pose proof (ro_canonical _ _ Hok) as Hcan. unfold canonical in Hcan. rewrite Hcan in Hid.
    by apply Ok_inj in Hid. }
  rewrite Heq, Hold in Hold'. apply (inj Some) in Hold' as <-.
  apply write_order_ok in Hw as (-> & Hst & Hva).
  assert (r_ID (updated_order old row) = r_ID row) as Hrid by (rewrite Heq; apply Hok).
  pose proof (toOrder_delivered _ _ Hrow) as Hdel.
  split; simpl; try done; try (by rewrite Hdel); [by rewrite <- Hrid|..|rewrite Heq; exists old].
  2: { repeat (split; [done|]). eapply updated_request; try done. apply (owned_terms b _ (c_Action c)).
       by apply (validated_update b c Hv). }
  rewrite Heq. split; simpl; try done; try apply Hok.
  - by eapply parse_opt_all.
  - by eapply parse_opt_all.
  - by destruct Hpl.
  - rewrite Hr. destruct (validated_update b c Hv) as (_ & -> & _). apply wrap64_range.
  - apply stored_order_idemp.
Qed.

Lemma order_written c before env s s' row d0 d1 s1 s2 s3 actor :
  aggregate_inv base s → written_by c before env s s' row d0 d1 s1 s2 s3 actor →
  ∃ r, row_written c before (db s) d0 row r.
Proof.
  intros (HI & _ & Hlocked) [Hfresh Hbefore Hv Hrow Horder _ _ _ _ _]. destruct before as [b|].
  - destruct Hbefore as [Hlk _]. destruct (Hlocked _ _ Hlk Hfresh) as (old & Hold & Hb).
    eexists. eapply update_written; try done. apply (oi_row _ _ _ (inv_orders _ HI _ _ Hold)).
  - eexists. by eapply create_written.
Qed.

(** *** The facts *)

Lemma fact_rows_kinds id n at_ i facts rows :
  fact_rows id n at_ i facts rows →
  fr_Kind <$> rows = fc_Kind <$> facts ∧ Forall (λ f, fr_OrderID f = id ∧ fr_Revision f = n) rows.
Proof.
  induction 1 as [|i f fid facts rows Hid Hrows [IH1 IH2]]; [by split|].
  rewrite !fmap_cons, IH1. split; [done|]. by constructor.
Qed.

Lemma fact_rows_in id n at_ i facts rows f :
  fact_rows id n at_ i facts rows → f ∈ rows →
  ∃ x, x ∈ facts ∧ fr_Kind f = fc_Kind x ∧ fr_PayloadVersion f = fc_Version x
    ∧ fr_Payload f = fc_Payload x ∧ fr_OrderID f = id ∧ fr_Revision f = n.
Proof.
  induction 1 as [|i x fid facts rows Hid Hrows IH]; [by intros ?%elem_of_nil|].
  intros [->|Hf]%elem_of_cons.
  - exists x. split; [apply list_elem_of_here|done].
  - destruct (IH Hf) as (y & Hy & ?). exists y. split; [by apply list_elem_of_further|done].
Qed.

Lemma fact_as_kinds facts expected :
  Forall2 fact_as facts expected → fc_Kind <$> facts = fc_Kind <$> expected.
Proof. induction 1 as [|f x fs xs (Hk & _) _ IH]; [done|]. by rewrite !fmap_cons, Hk, IH. Qed.

Lemma imap_kinds (f : nat → FactKind → Fact) l :
  (∀ i k, fc_Kind (f i k) = k) → fc_Kind <$> imap f l = l.
Proof.
  revert f. induction l as [|k l IH]; intros f Hf; [done|]. simpl. rewrite Hf, IH; [done|].
  intros. apply Hf.
Qed.

Definition previous_of (before : option Order) : Status :=
  match before with Some b => o_Status b | None => NoStatus end.

Lemma facts_of_kinds before after actor action ids :
  previous_of before ≠ o_Status after →
  fc_Kind <$> facts_of before after actor action ids
  = fact_kinds (previous_of before) after actor action.
Proof.
  intros Hne. unfold facts_of. fold (previous_of before). rewrite decide_False by done.
  by apply imap_kinds.
Qed.

Lemma count_kinds id n k rows :
  Forall (λ f, fr_OrderID f = id ∧ fr_Revision f = n) rows →
  count (fact_at id n k) rows = length (filter (λ k', k' = k) (fr_Kind <$> rows))
  ∧ count (outcome_of id) rows = length (filter (λ k', k' = Outcome) (fr_Kind <$> rows)).
Proof.
  unfold count, fact_at, outcome_of. induction 1 as [|f rows [Hid Hn] _ [IH1 IH2]]; [done|].
  cbn [List.filter]. rewrite fmap_cons, !filter_cons, Hid, Hn, same_refl, Z.eqb_refl. cbn [andb].
  unfold same in *.
  split; destruct (decide _); repeat case_bool_decide; simpl; rewrite ?IH1, ?IH2; congruence.
Qed.

(** The facts of a validated change, as rows. *)
Record announced_rows (before : option Order) (c : Change) (id : string) (a : AuditRow)
    (rows : list FactRow) : Prop := {
  ar_each f : f ∈ rows → announces f a;
  ar_status : changes_status a → count (fact_at id (ad_Revision a) StatusChanged) rows = 1%nat;
  ar_outcome : changes_status a →
    count (outcome_of id) rows = if has_outcome (ad_ResultingStatus a) then 1%nat else 0%nat;
}.

Lemma rows_announce before c id at_ rows a :
  validated before c → fact_rows id (o_Revision (c_Order c)) at_ 0 (c_Facts c) rows →
  parseID (o_ID (c_Order c)) = Ok id →
  ad_OrderID a = id → ad_Revision a = o_Revision (c_Order c) → ad_Action a = c_Action c →
  ad_PreviousStatus a = previous_of before → ad_ResultingStatus a = o_Status (c_Order c) →
  announced_rows before c id a rows.
Proof.
  intros Hv Hrows Hid Ha1 Ha2 Ha3 Ha4 Ha5. pose proof (vc_facts _ _ Hv) as Hfacts.
  destruct (fact_rows_kinds _ _ _ _ _ _ Hrows) as [Hkinds Hall].
  rewrite (fact_as_kinds _ _ Hfacts) in Hkinds.
  assert (Hk : changes_status a → fr_Kind <$> rows
      = fact_kinds (previous_of before) (c_Order c) (c_Actor c) (c_Action c)).
  { unfold changes_status. rewrite Ha4, Ha5. intros Hch. by rewrite Hkinds, facts_of_kinds. }
  split.
  - intros f Hf. destruct (fact_rows_in _ _ _ _ _ _ _ Hrows Hf) as (x & Hx & Hfk & Hfv & Hfp & Hfo & Hfr).
    apply list_elem_of_lookup in Hx as [i Hi].
    destruct (Forall2_lookup_l _ _ _ _ _ Hfacts Hi) as (y & Hy & Hxk & Hxv & Hxp & _).
    unfold facts_of in Hy. fold (previous_of before) in Hy. case_decide as Hch; [done|].
    rewrite list_lookup_imap in Hy. apply fmap_Some in Hy as (k & Hki & ->).
    simpl in Hxk, Hxv, Hxp. rewrite Hxp in Hfp.
    split; rewrite ?Hfp, ?Hfo, ?Hfr; simpl; rewrite ?Ha1, ?Ha2, ?Ha3, ?Ha4, ?Ha5; try done.
    + by rewrite Hfv, Hxv.
    + unfold changes_status. by rewrite Ha4, Ha5.
    + rewrite Hfk, Hxk. intros ->. destruct (has_outcome _) eqn:Ho; [done|exfalso].
      pose proof (fact_kinds_outcome (previous_of before) (c_Order c) (c_Actor c) (c_Action c)) as Hl.
      rewrite Ho in Hl. apply nil_length_inv in Hl.
      eapply filter_nil_not_elem_of; [exact Hl|done|]. by eapply list_elem_of_lookup_2.
  - intros Hch. destruct (count_kinds id (ad_Revision a) StatusChanged rows) as [-> _].
    { by rewrite Ha2. }
    rewrite (Hk Hch).
    apply fact_kinds_status.
  - intros Hch. destruct (count_kinds id (ad_Revision a) StatusChanged rows) as [_ ->].
    { by rewrite Ha2. }
    by rewrite (Hk Hch), fact_kinds_outcome, Ha5.
Qed.

(** *** The revision *)

Lemma validated_step before c id r0 a :
  validated before c →
  match before with
  | Some b => fromOrder r0 = Ok b ∧ row_ok id r0
  | None => True
  end →
  ad_Action a = c_Action c → ad_PreviousStatus a = previous_of before →
  ad_ResultingStatus a = o_Status (c_Order c) →
  match before with Some _ => step_of (r_Status r0) a | None => created a end.
Proof.
  intros Hv Hb Ha1 Ha2 Ha3. destruct before as [b|].
  - destruct Hb as [Hb Hok]. destruct (fromOrder_fields _ _ Hb) as (_ & _ & _ & Hs & _).
    simpl in Ha2. split; [congruence|]. rewrite Ha1, Ha3, <- Hs.
    destruct (validated_update b c Hv) as (_ & _ & _ & _ & _ & _ & _ & Ht & _).
    destruct (decide (o_Status (c_Order c) = o_Status b)) as [->|Hne]; [by left|right].
    eapply lifecycle_moves, check_transition_lifecycle; [by eapply row_two_parties|].
    apply Ht. congruence.
  - pose proof (validated_create c Hv) as (_ & _ & Hs & Hact & _). simpl in Ha2.
    repeat split; congruence.
Qed.

(** The invariant before and after, told apart by the order's row. *)
Lemma written_history c before env s s' row d0 d1 s1 s2 s3 actor r :
  aggregate_inv base s → written_by c before env s s' row d0 d1 s1 s2 s3 actor →
  row_written c before (db s) d0 row r →
  only_db (s <| db := d0 |>) s1 ∧ history_effect (r_ID row) (r_CourierID row) d0 (db s1).
Proof.
  intros [HI _] Hw Hr. destruct (wb_history _ _ _ _ _ _ _ _ _ _ _ _ Hw) as [u Hh].
  destruct (toOrder_fields _ _ (wb_row _ _ _ _ _ _ _ _ _ _ _ _ Hw)) as (Hid & _ & Hc & _).
  eapply history_run; [exact Hh|exact Hid|exact Hc|..]; destruct before as [b|]; simpl; try done;
    pose proof (rw_old _ _ _ _ _ _ Hr) as Hold.
  - destruct Hold as (old & Hold & Hb & _ & _). intros x Hx.
    apply (ro_courier _ _ (oi_row _ _ _ (inv_orders _ HI _ _ Hold))).
    destruct (fromOrder_fields _ _ Hb) as (_ & _ & Hcr & _). congruence.
  - destruct Hold as (old & Hold & Hb & _ & _). rewrite (rw_db _ _ _ _ _ _ Hr). simpl.
    rewrite (oi_courier _ _ _ (inv_orders _ HI _ _ Hold)).
    destruct (fromOrder_fields _ _ Hb) as (_ & _ & Hcr & _). congruence.
  - rewrite (rw_db _ _ _ _ _ _ Hr). simpl.
    destruct (current_couriers (r_ID row) (history (db s))) as [|x l] eqn:Hcur; [done|exfalso].
    assert (x ∈ current_couriers (r_ID row) (history (db s))) as Hx
      by (rewrite Hcur; apply list_elem_of_here).
    unfold current_couriers in Hx. apply list_elem_of_In, in_flat_map in Hx as (h & Hh' & Hx).
    destruct (current_of (r_ID row) h) eqn:Hcf; [|done].
    apply andb_prop in Hcf as [Ho%same_eq _].
    destruct (inv_history _ HI h) as [o Ho']; [by apply list_elem_of_In|]. congruence.
Qed.

Lemma InsertAudit_ok a d d' :
  InsertAudit a d = Ok d' → d' = d <| audit := <[(ad_OrderID a, ad_Revision a) := a]> (audit d) |>.
Proof. unfold InsertAudit. intros Hi. inv_ok Hi. by subst d'. Qed.

(** The tables after a successful Apply. *)
Record tables_after (c : Change) (s s' : Session) (row r : OrderRow) (actor : option string)
    (rows : list FactRow) : Prop := {
  ta_rows : fact_rows (r_ID row) (o_Revision (c_Order c)) (au_At (c_Audit c)) 0 (c_Facts c) rows;
  ta_orders : orders (db s') = <[r_ID row := r]> (orders (db s));
  ta_audit : audit (db s') = <[(r_ID row, o_Revision (c_Order c)) := audit_entry c row actor]> (audit (db s));
  ta_outbox : outbox (db s') = outbox (db s) ++ rows;
  ta_current : current_couriers (r_ID row) (history (db s')) = option_list (r_CourierID row);
  ta_others id : id ≠ r_ID row →
    current_couriers id (history (db s')) = current_couriers id (history (db s));
  ta_known : history_known (db s');
  ta_session : s' = s <| db := db s' |> <| applied := {[o_ID (c_Order c)]} ∪ applied s |>;
}.

Lemma written_tables c before env s s' row d0 d1 s1 s2 s3 actor r :
  aggregate_inv base s → written_by c before env s s' row d0 d1 s1 s2 s3 actor →
  row_written c before (db s) d0 row r → ∃ rows, tables_after c s s' row r actor rows.
Proof.
  intros Hs Hw Hr.
  destruct (written_history _ _ _ _ _ _ _ _ _ _ _ _ _ Hs Hw Hr) as [Hdb1 [He1 He2 He3 He4 He5 He6]].
  destruct Hw as [_ _ _ _ _ _ [u2 Hof] Hau [u3 Hfa] Hs']. destruct Hs as (HI & _).
  apply apply_offers_run in Hof as [Hdb2 (Hc1 & Hc2 & Hc3 & Hc4)]. apply InsertAudit_ok in Hau.
  apply apply_facts_run in Hfa as (rows & Hrows & Hdb3 & Hout).
  pose proof (rw_db _ _ _ _ _ _ Hr) as Hd0. subst d0. cbn in He1, He2, He3, He5.
  assert (Hknown : history_known (db s2)).
  { intros x. rewrite Hc4, Hc1. apply He6. intros y Hy. cbn in *.
    destruct (inv_history _ HI y Hy). destruct (decide (r_ID row = hs_OrderID y)) as [->|];
      [rewrite lookup_insert_eq|rewrite lookup_insert_ne by done]; eauto. }
  assert (Hd3 : db s3 = d1 <| outbox := outbox d1 ++ rows |>) by exact Hout.
  assert (Hd' : db s' = d1 <| outbox := outbox d1 ++ rows |>) by (by subst s').
  exists rows. split; try rewrite Hd'; subst d1; cbn -[history_known current_couriers]; try congruence.
  - intros id Hid. rewrite Hc4. by apply He5.
  - exact Hknown.
  - subst s'. unfold only_db in *. rewrite Hdb3. cbn. rewrite Hdb2. cbn. rewrite Hdb1, Hd3.
    reflexivity.
Qed.

(** A successful Apply is exactly one revision of one order. *)
Lemma written_revised c before env s s' row d0 d1 s1 s2 s3 actor r rows :
  aggregate_inv base s → written_by c before env s s' row d0 d1 s1 s2 s3 actor →
  row_written c before (db s) d0 row r → tables_after c s s' row r actor rows →
  revised (db s) (db s') (r_ID row) (orders (db s) !! r_ID row) r (audit_entry c row actor) rows.
Proof.
  intros [HI _] Hw Hr Ht.
  destruct (toOrder_fields _ _ (wb_row _ _ _ _ _ _ _ _ _ _ _ _ Hw)) as (Hid & _).
  pose proof (wb_valid _ _ _ _ _ _ _ _ _ _ _ _ Hw) as Hv.
  assert (Hprev : ad_PreviousStatus (audit_entry c row actor) = previous_of before).
  { simpl. by rewrite (vc_audit _ _ Hv). }
  destruct (rows_announce before c (r_ID row) _ rows (audit_entry c row actor) Hv (ta_rows _ _ _ _ _ _ _ Ht)
    Hid eq_refl eq_refl eq_refl Hprev eq_refl) as [Hr1 Hr2 Hr3].
  destruct Hr as [_ Hok Hst Hrev Hcour _ _ Hold].
  assert (Hstep : match orders (db s) !! r_ID row with
     | Some o => step_of (r_Status o) (audit_entry c row actor) ∧ r_Revision r = r_Revision o + 1
     | None => created (audit_entry c row actor) ∧ r_Revision r = 1 end).
  { destruct before as [b|].
    - destruct Hold as (old & Hold & Hb & _ & _). rewrite Hold.
      pose proof (oi_row _ _ _ (inv_orders _ HI _ _ Hold)) as Hrow. split.
      + by apply (validated_step (Some b) c (r_ID row) old).
      + rewrite Hrev. destruct (validated_update b c Hv) as (_ & Hn & Hpos & _).
        destruct (fromOrder_fields _ _ Hb) as (_ & _ & _ & _ & Hbr & _).
        pose proof (ro_revision _ _ Hrow) as Hr64. rewrite <- Hbr in *.
        rewrite Hn in Hpos |- *. unfold add64 in *.
        destruct (decide (o_Revision b = max_int64)) as [Hm|Hm]; [rewrite Hm in Hpos; done|].
        apply wrap64_id. int64_lia.
    - rewrite Hold. split.
      + by apply (validated_step None c (r_ID row) row).
      + rewrite Hrev. by apply (validated_create c Hv). }
  split; try apply Ht; try done.
  - rewrite Hrev. apply Ht.
  - destruct (orders (db s) !! r_ID row); apply Hstep.
  - destruct (orders (db s) !! r_ID row); apply Hstep.
  - rewrite Hrev. apply Hr2.
  - rewrite Hst. apply Hr3.
  - rewrite Hcour. apply Ht.
Qed.

Lemma revised_extends c before d d' d0 row r a rows :
  Inv d → revised d d' (r_ID row) (orders d !! r_ID row) r a rows → row_written c before d d0 row r →
  extends d d'.
Proof.
  intros HI HR Hr. split.
  - intros id o Ho. rewrite (rv_orders _ _ _ _ _ _ _ HR).
    destruct (decide (id = r_ID row)) as [->|Hne].
    + rewrite lookup_insert_eq. exists r. pose proof (rv_revision _ _ _ _ _ _ _ HR) as Hrev.
      rewrite Ho in Hrev. pose proof (rw_old _ _ _ _ _ _ Hr) as Hold.
      destruct before as [b|]; [|congruence]. destruct Hold as (old & Hold & _ & _ & Hsame).
      rewrite Ho in Hold. apply (inj Some) in Hold as <-. split; [done|]. split; [done|lia].
    + rewrite lookup_insert_ne by congruence. exists o. split; [done|]. by split; [|lia].
  - rewrite (rv_audit _ _ _ _ _ _ _ HR). apply insert_subseteq. by eapply revised_new.
  - exists (outbox d), rows. by split; [apply HR|].
Qed.

(** Apply keeps the invariant of the session. *)
Lemma apply_body_inv c env s u s' :
  aggregate_inv base s → apply_body c env s = Ok (u, s') → aggregate_inv base s'.
Proof.
  intros Hs Hrun. destruct (apply_body_written _ _ _ _ _ Hrun) as (before&row&d0&d1&s1&s2&s3&actor&Hw).
  destruct (order_written _ _ _ _ _ _ _ _ _ _ _ _ Hs Hw) as [r Hr].
  destruct (written_tables _ _ _ _ _ _ _ _ _ _ _ _ _ Hs Hw Hr) as [rows Ht].
  pose proof (written_revised _ _ _ _ _ _ _ _ _ _ _ _ _ _ Hs Hw Hr Ht) as Hrev.
  destruct Hs as (HI & He & Hlocked). split; [by eapply revised_Inv|].
  split; [etransitivity; [exact He|by eapply revised_extends]|].
  rewrite (ta_session _ _ _ _ _ _ _ Ht). cbn. intros id o Hlk Hni.
  destruct (Hlocked id o Hlk) as (r0 & Hr0 & Ho); [set_solver|]. exists r0. split; [|done].
  rewrite (ta_orders _ _ _ _ _ _ _ Ht). rewrite lookup_insert_ne; [done|].
  pose proof (rw_old _ _ _ _ _ _ Hr) as Hold. destruct before as [b|].
  - destruct Hold as (? & _ & _ & -> & _). set_solver.
  - congruence.
Qed.

Lemma preserves_Apply c : preserves (aggregate_inv base) (Apply c).
Proof.
  apply preserves_poisoned.
  - intros env s u s' _. apply apply_body_inv.
  - intros env s u s' Hf Hrun. by apply apply_body_poisoned in Hrun.
Qed.

End aggregate.
