(* ===== verification/OrderRecords.v ===== *)
(** * Order: what the side records never undo

    Creation workflows, item images, delivery proofs and receipts only evolve
    along their own lifecycles: a workflow that is aborting never opens, what is
    resolved, attached, accepted or finished is never touched again, and a
    retired identity is never revived. *)
From stdpp Require Import prelude gmap strings list sorting.
From Stdlib Require Import ZArith Lia.
From S2P Require Import Prelude.
From S2P Require Import GoLib.
From S2P Require Import GoText.
From S2P Require Import OrderTypes.
From S2P Require Import OrderPolicy.
From S2P Require Import OrderDB.
From S2P Require Import OrderStore.
From S2P Require Import OrderCreationStore.
From S2P Require Import OrderProofStore.
From S2P Require Import OrderFacts.
From S2P Require Import OrderLogic.

Local Open Scope Z_scope.
Local Open Scope foc_scope.

(** ** How one record may evolve *)

(** The columns of a workflow that no update sets. *)
Definition same_creation (r r' : WorkflowRow) : Prop :=
  wf_ID r' = wf_ID r ∧ wf_OrderID r' = wf_OrderID r ∧ wf_RequesterID r' = wf_RequesterID r
  ∧ wf_CanonicalVersion r' = wf_CanonicalVersion r ∧ wf_CanonicalRequest r' = wf_CanonicalRequest r
  ∧ wf_RequestHash r' = wf_RequestHash r ∧ wf_ReservationAmount r' = wf_ReservationAmount r
  ∧ wf_ExpiresAt r' = wf_ExpiresAt r ∧ wf_CreatedAt r' = wf_CreatedAt r.

(** Only an unresolved workflow moves, and an aborting one only to its end. *)
Definition workflow_moves (r r' : WorkflowRow) : Prop :=
  r' = r ∨ (workflow_pending (wf_Phase r) = true ∧ same_creation r r'
            ∧ wf_Generation r ≤ wf_Generation r'
            ∧ (wf_Phase r = AbortPending → wf_Phase r' = AbortPending ∨ wf_Phase r' = CreationRejected)).

(** The columns of an upload that are fixed when it is staged. *)
Definition same_proof (u u' : UploadRow) : Prop :=
  up_ID u' = up_ID u ∧ up_OrderID u' = up_OrderID u ∧ up_CourierID u' = up_CourierID u
  ∧ up_UploadID u' = up_UploadID u ∧ up_ObjectKey u' = up_ObjectKey u
  ∧ up_ContentType u' = up_ContentType u ∧ up_SizeBytes u' = up_SizeBytes u
  ∧ up_UploadScope u' = up_UploadScope u ∧ up_CreatedAt u' = up_CreatedAt u.

(** An accepted upload is final, a retired one is never revived, and the first
    verification is kept. *)
Definition upload_moves (u u' : UploadRow) : Prop :=
  u' = u ∨ (up_State u ≠ ProofAccepted ∧ same_proof u u'
            ∧ (up_State u = ProofDeleting → up_State u' = ProofDeleting)
            ∧ (∀ v, up_VerifiedAt u = Some v → up_VerifiedAt u' = Some v)).

(** Only a pending receipt changes, and never what was received. *)
Definition receipt_moves (r r' : ReceiptRow) : Prop :=
  r' = r ∨ (rc_State r = ReceiptPending ∧ rc_ID r' = rc_ID r ∧ rc_OrderID r' = rc_OrderID r
            ∧ rc_CourierID r' = rc_CourierID r ∧ rc_ProofIDs r' = rc_ProofIDs r
            ∧ rc_Unattended r' = rc_Unattended r ∧ rc_WithoutProof r' = rc_WithoutProof r
            ∧ rc_ReceivedAt r' = rc_ReceivedAt r ∧ rc_Outage r' = rc_Outage r).

#[export] Instance workflow_moves_preorder : PreOrder workflow_moves.
Proof.
  split; [by left|]. intros r1 r2 r3 [->|(P1 & S1 & G1 & A1)] [->|(P2 & S2 & G2 & A2)];
    try (by left); right; try done.
  split; [done|]. split; [unfold same_creation in *; intuition congruence|]. split; [lia|].
  intros Ha. destruct (A1 Ha) as [Hp|Hp]; [by apply A2|]. by rewrite Hp in P2.
Qed.

#[export] Instance upload_moves_preorder : PreOrder upload_moves.
Proof.
  split; [by left|]. intros u1 u2 u3 [->|(P1 & S1 & D1 & V1)] [->|(P2 & S2 & D2 & V2)];
    try (by left); right; try done.
  split; [done|]. split; [unfold same_proof in *; intuition congruence|]. auto.
Qed.

#[export] Instance receipt_moves_preorder : PreOrder receipt_moves.
Proof.
  split; [by left|]. intros r1 r2 r3 [->|H1] [->|H2]; try (by left); right; try done.
  intuition congruence.
Qed.

(** ** The records of a later state *)

Record records_kept (d d' : ODB) : Prop := {
  rk_workflows id r : GetCreationWorkflowByID id d = Some r →
    ∃ r', GetCreationWorkflowByID id d' = Some r' ∧ workflow_moves r r';
  rk_images id i : images d !! id = Some i → im_State i = ImageAttached → images d' !! id = Some i;
  rk_uploads : map_extends upload_moves (uploads d) (uploads d');
  rk_fences : fences d ⊆ fences d';
  rk_receipts id r : GetReceipt id d = Some r → ∃ r', GetReceipt id d' = Some r' ∧ receipt_moves r r';
  rk_confirmations : confirmations d ⊆ confirmations d';
}.

#[export] Instance records_kept_preorder : PreOrder records_kept.
Proof.
  split.
  - intros d. split; try done; [|apply map_extends_refl, _|]; intros id r Hr; by exists r.
  - intros d1 d2 d3 [W1 I1 U1 F1 R1 C1] [W2 I2 U2 F2 R2 C2]. split.
    + intros id r (r2 & Hr2 & Hm)%W1. destruct (W2 _ _ Hr2) as (r3 & Hr3 & Hm').
      exists r3. split; [done|by etransitivity].
    + auto.
    + eapply map_extends_trans; [apply _|exact U1|exact U2].
    + by etransitivity.
    + intros id r (r2 & Hr2 & Hm)%R1. destruct (R2 _ _ Hr2) as (r3 & Hr3 & Hm').
      exists r3. split; [done|by etransitivity].
    + by etransitivity.
Qed.

(** Keys are unique, and rows lie under their keys. *)
Record records_ok (d : ODB) : Prop := {
  ro_workflow_ids : NoDup (wf_ID <$> workflows d);
  ro_workflow_orders : NoDup (wf_OrderID <$> workflows d);
  ro_receipt_ids : NoDup (rc_ID <$> receipts d);
  ro_uploads id u : uploads d !! id = Some u → up_ID u = id;
}.

Lemma records_ok_empty : records_ok empty_odb.
Proof. split; try apply NoDup_nil_2. intros id u Hu. done. Qed.

(** One statement: what it leaves is sound, and undoes nothing. *)
Definition records_step (d d' : ODB) : Prop := records_ok d → records_kept d d' ∧ records_ok d'.

#[export] Instance records_step_preorder : PreOrder records_step.
Proof.
  split; [by intros d Hok|]. intros d1 d2 d3 H12 H23 Hok. destruct (H12 Hok) as [K1 O1].
  destruct (H23 O1) as [K2 O2]. split; [by etransitivity|done].
Qed.

(** A statement that leaves the side tables alone. *)
Definition same_records (d d' : ODB) : Prop :=
  workflows d' = workflows d ∧ images d' = images d ∧ uploads d' = uploads d ∧ fences d' = fences d
  ∧ receipts d' = receipts d ∧ confirmations d' = confirmations d.

Lemma same_records_step d d' : same_records d d' → records_step d d'.
Proof.
  intros (W & I & U & F & R & C) [O1 O2 O3 O4]. unfold GetReceipt in *.
  split; [|split; rewrite ?W, ?R, ?U; done].
  split; rewrite ?I, ?U, ?F, ?C; try done; unfold GetCreationWorkflowByID, GetReceipt; rewrite ?W, ?R;
    [|apply map_extends_refl, _|]; intros id r Hr; by exists r.
Qed.

(** ** One table at a time *)

Lemma workflows_step d l :
  (∀ id r, GetCreationWorkflowByID id d = Some r →
     ∃ r', find_first (λ w, same (wf_ID w) id) l = Some r' ∧ workflow_moves r r') →
  (records_ok d → NoDup (wf_ID <$> l) ∧ NoDup (wf_OrderID <$> l)) →
  records_step d (d <| workflows := l |>).
Proof.
  intros Hl Hn Hok. destruct (Hn Hok) as [N1 N2]. destruct Hok as [O1 O2 O3 O4].
  split; [split; cbn; try done; [apply map_extends_refl, _|]|by split].
  intros id r Hr. by exists r.
Qed.

Lemma uploads_step d m :
  map_extends upload_moves (uploads d) m →
  (records_ok d → ∀ id u, m !! id = Some u → up_ID u = id) →
  records_step d (d <| uploads := m |>).
Proof.
  intros Hm Hk Hok. specialize (Hk Hok). destruct Hok as [O1 O2 O3 O4].
  split; [split; cbn; try done|by split]; intros id r Hr; by exists r.
Qed.

(** One upload rewritten. *)
Lemma upload_step d id u u' :
  uploads d !! id = Some u → upload_moves u u' → records_step d (d <| uploads := <[id := u']> (uploads d) |>).
Proof.
  intros Hu Hm. apply uploads_step.
  - apply map_extends_insert; [apply _|]. intros v Hv. by rewrite Hu in Hv; simplify_eq.
  - intros Hok id' v [[<- <-]|[_ Hv]]%lookup_insert_Some; [|by apply Hok].
    destruct Hm as [->|(_ & (Hid & _) & _)]; [|rewrite Hid]; by apply Hok.
Qed.

Lemma receipts_step d l :
  (∀ id r, GetReceipt id d = Some r →
     ∃ r', find_first (λ x, same (rc_ID x) id) l = Some r' ∧ receipt_moves r r') →
  (records_ok d → NoDup (rc_ID <$> l)) → records_step d (d <| receipts := l |>).
Proof.
  intros Hl Hn Hok. specialize (Hn Hok). destruct Hok as [O1 O2 O3 O4].
  split; [split; cbn; try done; [|apply map_extends_refl, _]|by split].
  intros id r Hr. by exists r.
Qed.

Lemma images_step d m :
  (∀ id i, images d !! id = Some i → im_State i = ImageAttached → m !! id = Some i) →
  records_step d (d <| images := m |>).
Proof.
  intros Hm [O1 O2 O3 O4]. split; [split; cbn; try done; [|apply map_extends_refl, _|]|by split];
    intros id r Hr; by exists r.
Qed.

(** ** The statements *)

Lemma fmap_append {A B} (f : A → B) l x : f <$> (l ++ [x]) = (f <$> l) ++ [f x].
Proof. by rewrite fmap_app. Qed.

(** A row appended under a fresh key. *)
Lemma NoDup_fresh {A K} (f : A → K) l x :
  NoDup (f <$> l) → (∀ y, y ∈ l → f y ≠ f x) → NoDup (f <$> (l ++ [x])).
Proof.
  intros Hl Hx. rewrite fmap_append. apply NoDup_app. split; [done|].
  split; [|apply NoDup_singleton]. intros k (y & -> & Hy)%list_elem_of_fmap Hin.
  apply list_elem_of_singleton in Hin. by apply (Hx y).
Qed.

Lemma InsertCreationWorkflow_step w d d' : InsertCreationWorkflow w d = Ok d' → records_step d d'.
Proof.
  unfold InsertCreationWorkflow. intros Hi. inv_ok Hi. subst d'.
  match goal with Hx : forallb _ _ = true |- _ => rename Hx into Hnew end.
  rewrite forallb_forall in Hnew.
  assert (∀ v, v ∈ workflows d → wf_ID v ≠ wf_ID w ∧ wf_OrderID v ≠ wf_OrderID w) as Hfresh.
  { intros v Hv%list_elem_of_In. specialize (Hnew v Hv). cbn in Hnew.
    apply andb_prop in Hnew as [?%negb_true_iff ?%negb_true_iff].
    split; by apply same_ne. }
  apply workflows_step.
  - intros id r Hr. exists r. split; [by apply find_first_app|by left].
  - intros [O1 O2 O3 O4]. split; apply NoDup_fresh; try done; intros v Hv; by apply Hfresh.
Qed.

Lemma AttachItemImage_step id owner order n key size ct d d' a :
  AttachItemImage id owner order n key size ct d = Ok (d', a) → records_step d d'.
Proof.
  unfold AttachItemImage. destruct (images d !! id) as [i|] eqn:Hi; [|intros Hx; inv_ok Hx; by simplify_eq].
  destruct (_ && _) eqn:Hc; intros Hx; inv_ok Hx; simplify_eq; [|done].
  apply images_step. intros id' j Hj Hs. rewrite lookup_insert_ne; [done|]. intros ->.
  rewrite Hi in Hj. simplify_eq. apply andb_prop in Hc as [Hc _]. apply andb_prop in Hc as [Hc _].
  apply andb_prop in Hc as [Hc _]. apply andb_prop in Hc as [_ Hst%same_eq]. congruence.
Qed.

Lemma SaveUpload_step u d d' n : SaveUpload u d = Ok (d', n) → records_step d d'.
Proof.
  unfold SaveUpload. set (v := stored_upload u). intros Hs. inv_ok Hs.
  destruct (uploads d !! up_ID v) as [old|] eqn:Hold.
  - destruct (regrantable old v) eqn:Hre; inv_ok Hs; simplify_eq; [|done].
    eapply upload_step; [exact Hold|]. right. unfold regrantable in Hre.
    repeat match type of Hre with _ && _ = true => apply andb_prop in Hre as [Hre _] end.
    apply same_eq in Hre. cbn. split; [congruence|]. split; [done|]. split; [congruence|done].
  - inv_ok Hs. simplify_eq. apply uploads_step.
    + apply map_extends_insert; [apply _|]. congruence.
    + intros Hd id w [[<- <-]|[_ Hw]]%lookup_insert_Some; [done|by apply Hd].
Qed.

Lemma FenceProofIdentity_step o c u at_ d d' :
  FenceProofIdentity o c u at_ d = Ok d' → records_step d d'.
Proof.
  unfold FenceProofIdentity. destruct (fences d !! (o, c, u)) eqn:Hf; intros Hx; inv_ok Hx; subst; [done|].
  intros [O1 O2 O3 O4]. split; [split; cbn; try done; [|apply map_extends_refl, _|by apply insert_subseteq|]|by split];
    intros id r Hr; by exists r.
Qed.

Lemma RetireProofUpload_step o c u d : records_step d (RetireProofUpload o c u d).
Proof.
  apply uploads_step.
  - intros id v Hv. exists (retired o c u v). rewrite lookup_fmap, Hv. split; [done|].
    unfold retired. destruct (identity_of o c u v && _) eqn:Hr; [|by left].
    apply andb_prop in Hr as [_ Hs%same_eq]. right. cbn. by split; [congruence|].
  - intros Hok id v. rewrite lookup_fmap. intros (w & Hw & ->)%fmap_Some. unfold retired.
    destruct (identity_of o c u w && _); exact (ro_uploads d Hok _ _ Hw).
Qed.

Lemma update_upload_step id from set d :
  (∀ u, up_State u = from → upload_moves u (set u)) → records_step d (update_upload id from set d).1.
Proof.
  intros Hset. unfold update_upload. destruct (uploads d !! id) as [u|] eqn:Hu; [|done].
  destruct (decide _) as [Hs|]; [|done]. eapply upload_step; [exact Hu|by apply Hset].
Qed.

Lemma VerifyProofUpload_step server id d : records_step d (VerifyProofUpload server id d).1.
Proof.
  apply update_upload_step. intros u Hs. right. cbn. split; [congruence|]. split; [done|].
  split; [done|]. by intros v ->.
Qed.

Lemma AcceptProofUpload_step id d : records_step d (AcceptProofUpload id d).1.
Proof.
  apply update_upload_step. intros u Hs. right. cbn. split; [congruence|]. split; [done|].
  split; [congruence|done].
Qed.

Lemma ScheduleCleanup_step server id next d : records_step d (ScheduleCleanup server id next d).1.
Proof.
  unfold ScheduleCleanup. destruct (uploads d !! id) as [u|] eqn:Hu; [|done].
  destruct (_ && _) eqn:Hc; [|done]. apply andb_prop in Hc as [Hs%same_eq _].
  eapply upload_step; [exact Hu|]. right. cbn. split; [congruence|done].
Qed.

Lemma InsertReceipt_step r d d' : InsertReceipt r d = Ok d' → records_step d d'.
Proof.
  unfold InsertReceipt. intros Hi. inv_ok Hi. subst d'.
  match goal with Hx : forallb _ _ = true |- _ => rename Hx into Hnew end.
  rewrite forallb_forall in Hnew. apply receipts_step.
  - intros id q Hq. exists q. split; [by apply find_first_app|by left].
  - intros [_ _ O3 _]. apply NoDup_fresh; [done|]. intros q Hq%list_elem_of_In.
    specialize (Hnew q Hq). apply negb_true_iff, orb_false_iff in Hnew as [Hne%same_ne _]. congruence.
Qed.

(** A rewriting of rows that keeps their key. *)
Lemma fmap_key {A K} (f : A → K) (g : A → A) (l : list A) : (∀ x, f (g x) = f x) → f <$> (g <$> l) = f <$> l.
Proof. intros Hg. induction l as [|x l IH]; [done|]. by rewrite !fmap_cons, Hg, IH. Qed.

Lemma update_receipt_step id p set d :
  (∀ r, rc_State r = ReceiptPending → receipt_moves r (set r)) →
  records_step d (update_receipt id p set d).1.
Proof.
  intros Hset. unfold update_receipt. cbn -[same].
  set (g := λ r : ReceiptRow, if same (rc_ID r) id && same (rc_State r) ReceiptPending && p r
                              then set r else r).
  assert (∀ r, receipt_moves r (g r)) as Hg.
  { intros r. unfold g. destruct (same (rc_ID r) id && _ && _) eqn:Hm; [|by left].
    apply andb_prop in Hm as [Hm _]. apply andb_prop in Hm as [_ Hs%same_eq]. by apply Hset. }
  assert (∀ r, rc_ID (g r) = rc_ID r) as Hk.
  { intros r. by destruct (Hg r) as [->|(_ & Hid & _)]. }
  apply receipts_step.
  - intros id' r Hr. exists (g r). split; [|apply Hg].
    rewrite find_first_fmap by (intros x; unfold same; by rewrite Hk). unfold GetReceipt in Hr. by rewrite Hr.
  - intros [_ _ O3 _]. by rewrite fmap_key.
Qed.

Lemma FinishReceipt_step id state at_ d : records_step d (FinishReceipt id state at_ d).1.
Proof. apply update_receipt_step. by right. Qed.
Lemma RetryReceipt_step server id d : records_step d (RetryReceipt server id d).
Proof. apply update_receipt_step. by right. Qed.
Lemma AlertReceipt_step server id d : records_step d (AlertReceipt server id d).1.
Proof. apply update_receipt_step. by right. Qed.

Lemma InsertConfirmation_step c d d' : InsertConfirmation c d = Ok d' → records_step d d'.
Proof.
  unfold InsertConfirmation. intros Hx. inv_ok Hx. subst d'. intros [O1 O2 O3 O4].
  split; [split; cbn; try done; [|apply map_extends_refl, _| |apply insert_subseteq]|by split].
  1,2: intros id r Hr; by exists r.
  by destruct (confirmations d !! pc_OrderID c).
Qed.

(** *** Statements outside any transaction *)

Lemma InsertItemImage_step i d d' : InsertItemImage i d = Ok d' → records_step d d'.
Proof.
  unfold InsertItemImage. intros Hi. inv_ok Hi. subst d'. apply images_step. intros id j Hj _.
  rewrite lookup_insert_ne; [done|]. intros <-. cbn in *. by rewrite Hj in *.
Qed.

Lemma ClaimOrphanImages_step before now d : records_step d (ClaimOrphanImages before now d).1.
Proof.
  unfold ClaimOrphanImages. cbn. apply images_step. intros id i Hi Hs.
  set (due := (λ kv, (im_CreatedAt kv.2, kv.1)) <$> _). set (ids := take 50 _).
  rewrite lookup_union_r; [done|]. rewrite lookup_fmap.
  destruct (filter _ (images d) !! id) as [j|] eqn:Hj; [exfalso|done].
  apply map_lookup_filter_Some in Hj as [_ Hin]. cbn in Hin.
  assert (id ∈ snd <$> due) as Hdue.
  { apply elem_of_take in Hin as (n & Hn & _). apply list_elem_of_lookup_2 in Hn.
    by rewrite merge_sort_Permutation in Hn. }
  apply list_elem_of_fmap in Hdue as (x & -> & Hx). apply list_elem_of_fmap in Hx as (kv & -> & Hkv).
  apply list_elem_of_filter in Hkv as [Ho Hkv]. destruct kv as [k v]. apply elem_of_map_to_list in Hkv.
  cbn in *. rewrite Hi in Hkv. simplify_eq. unfold orphan in Ho. by rewrite Hs in Ho.
Qed.

Lemma DeleteOrphanImage_step id d : records_step d (DeleteOrphanImage id d).
Proof.
  unfold DeleteOrphanImage. destruct (images d !! id) as [i|] eqn:Hi; [|done].
  destruct (decide _) as [Hs|]; [|done]. apply images_step. intros id' j Hj Ha.
  rewrite lookup_delete_ne; [done|]. intros <-. congruence.
Qed.

Lemma PublishOutage_step scope e o u r a d : records_step d (PublishOutage scope e o u r a d).
Proof. by apply same_records_step. Qed.

(** ** Sessions *)

(** A session that started from [base]: its records are sound and kept, and so
    is what it remembers of the workflows it has locked. *)
Record records_inv (base : ODB) (s : Session) : Prop := {
  ri_kept : records_kept base (db s);
  ri_ok : records_ok (db s);
  ri_baselines id b r0 : creationBaselines s !! id = Some b →
    GetCreationWorkflowByID id base = Some r0 → ∃ r, fromCreation r = Ok b ∧ workflow_moves r0 r;
}.

Lemma records_start d : records_ok d → records_inv d (start d).
Proof. intros Hok. split; [done|done|]. intros id b r0 Hb. cbn in Hb. by rewrite lookup_empty in Hb. Qed.

Section sessions.
  Context `{UUID} (base : ODB).

Lemma records_db s d : records_inv base s → records_step (db s) d → records_inv base (s <| db := d |>).
Proof.
  intros [Hk Ho Hb] Hs. destruct (Hs Ho) as [Hk' Ho']. split; [by etransitivity|done|done].
Qed.

Lemma records_exec {A} (f : ODB → result Error (ODB * A)) :
  (∀ d d' a, f d = Ok (d', a) → records_step d d') → preserves (records_inv base) (exec f).
Proof.
  intros Hf. apply preserves_exec; [|by intros s b [? ? ?]]. intros s d a Hs Hd. eauto using records_db.
Qed.

(** A step whose baseline was read in this transaction moves its workflow. *)
Lemma update_moves r0 r b w n v :
  workflow_moves r0 r → fromCreation r = Ok b → creation_saveable b w n = true →
  workflow_moves r0 v → wf_Generation v = n →
  workflow_moves r0 (updated_workflow v (workflow_row w (cw_ID w) (cw_OrderID w) (cw_RequesterID w))).
Proof.
  intros Hr Hb Hs Hv Hg. unfold fromCreation in Hb. inv_ok Hb. subst b.
  unfold creation_saveable, creation_resolved in Hs. inv_checks Hs. cbn in *.
  right. assert (workflow_pending (wf_Phase r) = true) as Hpend by (by destruct (wf_Phase r)).
  assert (workflow_pending (wf_Phase r0) = true) as Hp0 by (destruct Hr as [->|(? & _)]; done).
  split; [done|]. split; [destruct Hv as [->|(_ & Hsame & _)]; done|]. split.
  - cbn. destruct Hv as [->|(_ & _ & Hle & _)]; lia.
  - intros Ha. cbn. assert (wf_Phase r = AbortPending) as Hab.
    { destruct Hr as [->|(_ & _ & _ & Hab)]; [done|]. destruct (Hab Ha) as [?|Hx]; [done|]. by rewrite Hx in Hpend. }
    match goal with Hx : negb (_ && _) = true |- _ => apply negb_true_iff in Hx; rewrite Hab in Hx end.
    destruct (cw_Phase w); auto; discriminate.
Qed.

Lemma update_workflow_records s w b n d k :
  records_inv base s → creationBaselines s !! cw_ID w = Some b → creation_saveable b w n = true →
  UpdateCreationWorkflow (workflow_row w (cw_ID w) (cw_OrderID w) (cw_RequesterID w)) n (db s) = Ok (d, k) →
  records_inv base (s <| db := d |>).
Proof.
  intros [Hk Ho Hb] Hbw Hs Hu. unfold UpdateCreationWorkflow in Hu. inv_ok Hu. cbn in Hu. simplify_eq.
  set (row := workflow_row _ _ _ _) in *.
  set (g := λ v : WorkflowRow, if same (wf_ID v) (wf_ID row) && (wf_Generation v =? n)
                               then updated_workflow v row else v).
  assert (∀ v, wf_ID (g v) = wf_ID v) as Hid by (intros v; unfold g; by destruct (_ && _)).
  assert (∀ v, wf_OrderID (g v) = wf_OrderID v) as Hord by (intros v; unfold g; by destruct (_ && _)).
  destruct Hk as [W I U F R C]. split; [split|split|done]; cbn; try done.
  - intros id r0 Hr0. destruct (W id r0 Hr0) as (v & Hv & Hm). exists (g v).
    split.
    { transitivity (g <$> GetCreationWorkflowByID id (db s)); [|by rewrite Hv].
      exact (find_first_fmap (λ x, same (wf_ID x) id) g _ (λ x, f_equal (λ y, same y id) (Hid x))). }
    unfold g. destruct (_ && _) eqn:Hmatch; [|done].
    apply andb_prop in Hmatch as [Hi%same_eq Hg%Z.eqb_eq].
    apply find_first_some in Hv as [_ Hvi%same_eq]. cbn in Hi.
    assert (id = cw_ID w) as -> by congruence.
    destruct (Hb _ _ _ Hbw Hr0) as (r & Hr & Hmr). by eapply update_moves.
  - rewrite fmap_key by done. apply Ho.
  - rewrite fmap_key by done. apply Ho.
  - apply Ho.
  - apply Ho.
Qed.

Lemma records_SaveCreation w n : preserves (records_inv base) (SaveCreation w n).
Proof.
  intros env s Hs. unfold wp, SaveCreation, mbind, st_mbind, get. cbn beta iota.
  destruct (creationBaselines s !! cw_ID w) as [b|] eqn:Hb; [|by intros ?].
  destruct (creation_saveable b w n) eqn:Hsave; [|by intros ?]. cbn [negb].
  destruct (_ && _); [by intros ?|]. destruct (negb _); [by intros ?|].
  unfold writeResult, catch, exec. destruct (aborted s); [by intros ?|].
  destruct (UpdateCreationWorkflow _ n (db s)) as [[d k]|e] eqn:Hu; [|by intros ?].
  destruct (k =? 1); [|by intros ?]. cbn. intros Hf. apply (update_workflow_records s w b n d k); auto.
Qed.

Lemma records_LockCreation id : preserves (records_inv base) (LockCreation id).
Proof.
  unfold LockCreation. apply preserves_bind; [apply preserves_lift|]. intros uid.
  apply preserves_bind; [apply preserves_gets|]. intros l.
  apply preserves_bind; [apply preserves_ensure|]. intros _ env s Hs.
  unfold wp, query, mbind, st_mbind. destruct (aborted s); [done|]. cbn beta iota.
  destruct (LockCreationWorkflow uid (db s)) as [r|] eqn:Hr; [|done]. cbn.
  destruct (fromCreation r) as [b|] eqn:Hb; [|done]. cbn. intros Hf. destruct (Hs Hf) as [Hk Ho Hbs].
  split; [done|done|]. cbn. intros id' b' r0 [[<- <-]|[_ Hlk]]%lookup_insert_Some Hr0; [|by eapply Hbs].
  exists r. split; [done|]. destruct (rk_workflows _ _ Hk _ _ Hr0) as (r' & Hr' & Hm).
  apply find_first_some in Hr as [Hin _].
  pose proof (find_first_key wf_ID _ _ (ro_workflow_ids _ Ho) Hin) as Hfind.
  unfold fromCreation in Hb. inv_ok Hb. subst b. cbn in *. unfold GetCreationWorkflowByID, same in *.
  congruence.
Qed.

End sessions.
