(* ===== verification/OrderKeeps.v ===== *)
(** * Order: every transaction keeps the invariants

    The primitives of a transaction, then the operations built from them: the
    invariant of the aggregate and that of the side records hold at every point
    of every transaction. *)
From stdpp Require Import prelude gmap strings list sorting relations.
From Stdlib Require Import ZArith Lia.
From S2P Require Import Prelude.
From S2P Require Import GoLib.
From S2P Require Import GoText.
From S2P Require Import OrderTypes.
From S2P Require Import OrderPolicy.
From S2P Require Import OrderDB.
From S2P Require Import OrderStore.
From S2P Require Import OrderProgress.
From S2P Require Import OrderAssignment.
From S2P Require Import OrderCancellation.
From S2P Require Import OrderFacts.
From S2P Require Import OrderLogic.
From S2P Require Import OrderInvariant.
From S2P Require Import OrderAggregate.
From S2P Require Import OrderRecords.

Local Open Scope Z_scope.
Local Open Scope foc_scope.

(** A statement that leaves the aggregate alone and undoes no side record. *)
Definition quiet_step (d d' : ODB) : Prop := same_core d d' ∧ records_step d d'.

Lemma quiet_same d d' : same_core d d' → same_records d d' → quiet_step d d'.
Proof. split; [done|by apply same_records_step]. Qed.

Lemma InsertAssignmentAttempt_quiet a d d' : InsertAssignmentAttempt a d = Ok d' → quiet_step d d'.
Proof. unfold InsertAssignmentAttempt. intros Hi. inv_ok Hi. subst d'. by apply quiet_same. Qed.
Lemma UpdateAssignmentAttempt_quiet a e d d' n :
  UpdateAssignmentAttempt a e d = Ok (d', n) → quiet_step d d'.
Proof. unfold UpdateAssignmentAttempt. intros Hu. inv_ok Hu. simplify_eq. by apply quiet_same. Qed.
Lemma UpdateAssignmentAttempt_core a e d d' n :
  UpdateAssignmentAttempt a e d = Ok (d', n) → same_core d d'.
Proof. by intros [? _]%UpdateAssignmentAttempt_quiet. Qed.
Lemma InsertCancellation_quiet k d d' : InsertCancellation k d = Ok d' → quiet_step d d'.
Proof. unfold InsertCancellation. intros Hi. inv_ok Hi. subst d'. by apply quiet_same. Qed.
Lemma UpdateCancellation_quiet k e d d' n :
  UpdateCancellation k e d = Ok (d', n) → quiet_step d d'.
Proof.
  unfold UpdateCancellation. destruct (cancellations d !! kr_ID k);
    [destruct (_ && _)|]; intros Hu; inv_ok Hu; simplify_eq; by apply quiet_same.
Qed.
Lemma UpdateCancellation_core k e d d' n :
  UpdateCancellation k e d = Ok (d', n) → same_core d d'.
Proof. by intros [? _]%UpdateCancellation_quiet. Qed.
Lemma InsertOrderIdempotencyKey_quiet c m k r d d' :
  InsertOrderIdempotencyKey c m k r d = Ok d' → quiet_step d d'.
Proof. unfold InsertOrderIdempotencyKey. intros Hi. inv_ok Hi. subst d'. by apply quiet_same. Qed.
Lemma DeleteOrderIdempotencyKey_quiet c m k d d' :
  DeleteOrderIdempotencyKey c m k d = Ok d' → quiet_step d d'.
Proof. unfold DeleteOrderIdempotencyKey. intros Hi. inv_ok Hi. subst d'. by apply quiet_same. Qed.
#[export] Hint Resolve InsertAssignmentAttempt_quiet UpdateAssignmentAttempt_quiet
  InsertCancellation_quiet UpdateCancellation_quiet InsertOrderIdempotencyKey_quiet
  DeleteOrderIdempotencyKey_quiet : preserves.

(** *** The writes of Apply leave the side records alone *)

Lemma write_order_records r d d' : write_order r d = Ok d' → same_records d d'.
Proof. unfold write_order. intros Hw. inv_ok Hw. by subst d'. Qed.
Lemma InsertOrder_records r d d' : InsertOrder r d = Ok d' → same_records d d'.
Proof. unfold InsertOrder. intros Hi. inv_ok Hi. by eapply write_order_records. Qed.
Lemma UpdateOrder_records r e d d' n : UpdateOrder r e d = Ok (d', n) → same_records d d'.
Proof.
  unfold UpdateOrder. destruct (orders d !! r_ID r); [destruct (_ =? _)|]; intros Hu; inv_ok Hu;
    simplify_eq; [by eapply write_order_records|done..].
Qed.
Lemma InsertOffer_records f d d' : InsertOffer f d = Ok d' → same_records d d'.
Proof. unfold InsertOffer. intros Hi. inv_ok Hi. by subst d'. Qed.
Lemma UpdateOffer_records f e d d' n : UpdateOffer f e d = Ok (d', n) → same_records d d'.
Proof.
  unfold UpdateOffer. destruct (offers d !! f_ID f); [destruct (decide _)|]; intros Hu; inv_ok Hu;
    by simplify_eq.
Qed.
Lemma InsertAudit_records a d d' : InsertAudit a d = Ok d' → same_records d d'.
Proof. unfold InsertAudit. intros Hi. inv_ok Hi. by subst d'. Qed.
Lemma InsertFact_records f d d' : InsertFact f d = Ok d' → same_records d d'.
Proof. unfold InsertFact. intros Hi. inv_ok Hi. by subst d'. Qed.
Lemma OpenAssignmentHistory_records o c n t d d' :
  OpenAssignmentHistory o c n t d = Ok d' → same_records d d'.
Proof. unfold OpenAssignmentHistory. intros Hi. inv_ok Hi. by subst d'. Qed.
Lemma CloseAssignmentHistory_records o c n t r d d' k :
  CloseAssignmentHistory o c n t r d = Ok (d', k) → same_records d d'.
Proof. unfold CloseAssignmentHistory. intros Hi. inv_ok Hi. by simplify_eq. Qed.
#[local] Hint Resolve InsertOrder_records UpdateOrder_records InsertOffer_records UpdateOffer_records
  InsertAudit_records InsertFact_records OpenAssignmentHistory_records CloseAssignmentHistory_records
  : preserves.

(** What depends on the side records alone is kept by Apply. *)
Section sides.
  Context `{UUID} (P : Session → Prop).
  Hypothesis sides_only : ∀ s s', same_records (db s) (db s') →
    creationBaselines s' = creationBaselines s → P s → P s'.
  Abbreviation keeps m := (preserves P m).

Lemma sides_exec {A} (f : ODB → result Error (ODB * A)) :
  (∀ d d' a, f d = Ok (d', a) → same_records d d') → keeps (exec f).
Proof.
  intros Hf. apply preserves_exec; [|by intros s b; apply sides_only].
  intros s d a Hs Hd. revert Hs. by apply sides_only; [eapply Hf|].
Qed.
Lemma sides_unit f : (∀ d d', f d = Ok d' → same_records d d') → keeps (exec_unit f).
Proof.
  intros Hf. apply sides_exec. intros d d' a. destruct (f d) eqn:Hd; simpl; [|done].
  intros [= -> _]. by apply Hf.
Qed.
#[local] Hint Extern 1 (preserves _ (exec_unit _)) =>
  apply sides_unit; eauto with preserves : preserves.
#[local] Hint Extern 1 (preserves _ (exec _)) => apply sides_exec; eauto with preserves : preserves.

Lemma sides_history before c : keeps (applyAssignmentHistory before c).
Proof. unfold applyAssignmentHistory. preserve. Qed.
Lemma sides_offers o id updates : keeps (apply_offers o id updates).
Proof. induction updates; cbn [apply_offers]; preserve. Qed.
Lemma sides_facts id n at_ i facts : keeps (apply_facts id n at_ i facts).
Proof. revert i. induction facts; intros i; cbn [apply_facts]; preserve. Qed.
#[local] Hint Resolve sides_history sides_offers sides_facts : preserves.

Lemma sides_Apply c : keeps (Apply c).
Proof.
  unfold Apply, apply_body. preserve. apply preserves_modify. intros s Hs Hf. specialize (Hs Hf).
  revert Hs. by apply sides_only.
Qed.

End sides.

Lemma records_Apply `{UUID} base c : preserves (records_inv base) (Apply c).
Proof.
  apply sides_Apply. intros s s' Hr Hb [R1 R2 R3]. destruct (same_records_step _ _ Hr R2) as [R4 R5].
  split; [by etransitivity|done|]. intros id b r0. rewrite Hb. by apply R3.
Qed.

(** A successful Apply leaves the side records as they were. *)
Lemma Apply_records `{UUID} c env s u s' :
  Apply c env s = Ok (u, s') → failed s' = None → same_records (db s) (db s').
Proof.
  intros Hrun Hf. pose proof (sides_Apply (λ x, same_records (db s) (db x))) as Hk.
  specialize (Hk ltac:(unfold same_records; intuition congruence) c env s).
  unfold wp in Hk. rewrite Hrun in Hk. apply Hk; [by intros _|done].
Qed.

(** ** Both invariants *)

Definition full_inv `{UUID} (base : ODB) (s : Session) : Prop := aggregate_inv base s ∧ records_inv base s.

Lemma preserves_both {A} (P Q : Session → Prop) (m : TX A) :
  preserves P m → preserves Q m → preserves (λ s, P s ∧ Q s) m.
Proof.
  intros HP HQ env s Hs. assert (sound P s ∧ sound Q s) as [Hp Hq] by (split; intros Hf; apply (Hs Hf)).
  specialize (HP env s Hp). specialize (HQ env s Hq). unfold wp, sound in *.
  destruct (m env s) as [[a s']|[e s']]; auto.
Qed.

Section steps.
  Context `{UUID, !UUIDLaws, !UUIDFold, Digest} {base : ODB}.
  Abbreviation keeps m := (preserves (full_inv base) m).

Lemma keeps_both {A} (m : TX A) :
  preserves (aggregate_inv base) m → preserves (records_inv base) m → keeps m.
Proof. apply preserves_both. Qed.

Lemma keeps_Apply c : keeps (Apply c).
Proof. apply keeps_both; [apply preserves_Apply|apply records_Apply]. Qed.

(** ** Primitives *)

Lemma aggregate_core s d : aggregate_inv base s → same_core (db s) d → aggregate_inv base (s <| db := d |>).
Proof.
  intros (HI & He & Hl) Hc. split; [by eapply Inv_core|]. split; [by eapply extends_core|].
  intros id o. simpl. destruct Hc as [-> _]. apply Hl.
Qed.

Lemma keeps_exec {A} (f : ODB → result Error (ODB * A)) :
  (∀ d d' a, f d = Ok (d', a) → quiet_step d d') → keeps (exec f).
Proof.
  intros Hf. apply keeps_both; [|apply records_exec; intros d d' a Hd; by eapply Hf].
  apply preserves_exec; [|done]. intros s d a Hs Hd. apply aggregate_core; [done|by eapply Hf].
Qed.

Lemma keeps_exec_unit f : (∀ d d', f d = Ok d' → quiet_step d d') → keeps (exec_unit f).
Proof.
  intros Hf. apply keeps_exec. intros d d' a. destruct (f d) eqn:Hd; simpl; [|done].
  intros [= -> _]. by apply Hf.
Qed.

Lemma keeps_bookkeeping (f : Session → Session) :
  (∀ s, db (f s) = db s ∧ locked (f s) = locked s ∧ applied (f s) = applied s ∧ failed (f s) = failed s
        ∧ creationBaselines (f s) = creationBaselines s) →
  keeps (modify f).
Proof.
  intros Hf. apply preserves_modify. intros s Hs Hn. destruct (Hf s) as (H1' & H2' & H3' & H4' & H5').
  rewrite H4' in Hn. destruct (Hs Hn) as [Ha [R1 R2 R3]]. split.
  - unfold aggregate_inv in *. by rewrite H1', H2', H3'.
  - by split; rewrite ?H1', ?H5'.
Qed.

Lemma keeps_LockOrder id : keeps (tx_LockOrder id).
Proof.
  apply preserves_bind; [apply preserves_lift|]. intros uid env s Hs.
  unfold wp, mbind, st_mbind, query. destruct (aborted s); [done|]. cbn.
  destruct (LockOrder uid (db s)) as [r|] eqn:Hr; [|done]. cbn.
  destruct (fromOrder r) as [o|] eqn:Ho; [|done]. cbn.
  intros Hf. destruct (Hs Hf) as [(HI & He & Hl) [R1 R2 R3]]. split; [|by split].
  split; [done|]. split; [done|]. cbn.
  intros id' o' [[<- <-]|[_ Hlk]]%lookup_insert_Some; [|by apply Hl].
  intros _. exists r. destruct (fromOrder_fields _ _ Ho) as [-> _].
  by rewrite (ro_ID _ _ (oi_row _ _ _ (inv_orders _ HI _ _ Hr))).
Qed.

Lemma keeps_query {A} (f : ODB → A) : keeps (query f).
Proof. apply preserves_query. Qed.

Lemma keeps_Relationships id : keeps (tx_Relationships id).
Proof. unfold tx_Relationships, is_locked. preserve. by apply keeps_bookkeeping. Qed.

Lemma keeps_require_aggregate id : keeps (require_aggregate id).
Proof. unfold require_aggregate, is_locked, is_related. preserve. Qed.

Lemma keeps_Mutate {A} apply id (build : Order → list Offer → TX (A * option Change)) :
  (∀ c, keeps (apply c)) → (∀ o offers, keeps (build o offers)) → keeps (Mutate apply id build).
Proof.
  intros Ha Hb. unfold Mutate. apply preserves_bind; [apply keeps_LockOrder|]. intros o.
  apply preserves_bind; [apply keeps_Relationships|]. intros offers.
  apply preserves_bind; [apply Hb|]. intros [r [c|]]; preserve.
Qed.

Lemma keeps_remember row : keeps (remember row).
Proof.
  unfold remember. apply preserves_bind; [apply keeps_require_aggregate|]. intros _.
  apply preserves_bind; [|preserve]. apply keeps_bookkeeping. intros s. by destruct (is_some _).
Qed.

#[local] Hint Resolve keeps_LockOrder keeps_Relationships keeps_require_aggregate keeps_remember
  keeps_Apply : preserves.
#[local] Hint Extern 1 (preserves _ (modify _)) => apply keeps_bookkeeping; done : preserves.
#[local] Hint Extern 1 (preserves _ (exec_unit _)) =>
  apply keeps_exec_unit; eauto with preserves : preserves.
#[local] Hint Extern 1 (preserves _ (exec _)) => apply keeps_exec; eauto with preserves : preserves.

Lemma keeps_remember_opt row : keeps (remember_opt row).
Proof. unfold remember_opt. preserve. Qed.
#[local] Hint Resolve keeps_remember_opt : preserves.

(** ** The operations of a transaction *)

Lemma keeps_ProofServerTime : keeps ProofServerTime.
Proof.
  intros env s Hs. unfold wp, ProofServerTime. destruct (decide _); [done|]. by destruct (aborted s).
Qed.
Lemma keeps_HasPendingDelivery id : keeps (tx_HasPendingDelivery id).
Proof. unfold tx_HasPendingDelivery, is_locked. preserve. Qed.

Lemma keeps_LockIdempotencyCaller scope : keeps (LockIdempotencyCaller scope).
Proof. unfold LockIdempotencyCaller. preserve. Qed.
Lemma keeps_FindIdempotencyKey scope key : keeps (FindIdempotencyKey scope key).
Proof. unfold FindIdempotencyKey, caller_locked. preserve. Qed.
Lemma keeps_InsertIdempotencyKey key : keeps (InsertIdempotencyKey key).
Proof. unfold InsertIdempotencyKey, caller_locked, refuse. preserve. Qed.
Lemma keeps_DeleteIdempotencyKey scope key : keeps (DeleteIdempotencyKey scope key).
Proof. unfold DeleteIdempotencyKey, caller_locked, refuse. preserve. Qed.

Lemma keeps_HasRejectedAcceptance id caller : keeps (tx_HasRejectedAcceptance id caller).
Proof. unfold tx_HasRejectedAcceptance. preserve. Qed.
Lemma keeps_FindAssignment id : keeps (FindAssignment id).
Proof. unfold FindAssignment. preserve. Qed.
Lemma keeps_ActiveAssignment id : keeps (ActiveAssignment id).
Proof. unfold ActiveAssignment. preserve. Qed.
Lemma keeps_OfferAssignment id : keeps (OfferAssignment id).
Proof. unfold OfferAssignment. preserve. Qed.
Lemma keeps_InsertAssignment w : keeps (InsertAssignment w).
Proof. unfold InsertAssignment, refuse, caller_locked, record_attempt. preserve. Qed.
Lemma keeps_SaveAssignment w n : keeps (SaveAssignment w n).
Proof. unfold SaveAssignment, refuse, record_attempt. preserve. Qed.
#[local] Hint Resolve keeps_OfferAssignment : preserves.
Lemma keeps_change_attempt action updates : keeps (change_attempt action updates).
Proof. induction updates; cbn [change_attempt]; preserve. Qed.
#[local] Hint Resolve keeps_change_attempt : preserves.
Lemma keeps_attempt_of c : keeps (attempt_of c).
Proof. unfold attempt_of. preserve. Qed.
#[local] Hint Resolve keeps_attempt_of : preserves.
Lemma keeps_assignment_Apply c : keeps (assignment_Apply c).
Proof. unfold assignment_Apply, refuse. preserve. Qed.

Lemma keeps_FindCancellation id : keeps (FindCancellation id).
Proof. unfold FindCancellation. preserve. Qed.
Lemma keeps_CurrentSuccessfulAssignment id : keeps (tx_CurrentSuccessfulAssignment id).
Proof. unfold tx_CurrentSuccessfulAssignment. preserve. Qed.
Lemma keeps_InsertCancellation w : keeps (tx_InsertCancellation w).
Proof. unfold tx_InsertCancellation, refuse. preserve. Qed.
Lemma keeps_SaveCancellation w n : keeps (SaveCancellation w n).
Proof. unfold SaveCancellation, refuse. preserve. Qed.

#[local] Hint Resolve keeps_ProofServerTime keeps_HasPendingDelivery keeps_LockIdempotencyCaller
  keeps_FindIdempotencyKey keeps_InsertIdempotencyKey keeps_DeleteIdempotencyKey
  keeps_HasRejectedAcceptance keeps_FindAssignment keeps_ActiveAssignment keeps_InsertAssignment
  keeps_SaveAssignment keeps_assignment_Apply keeps_FindCancellation
  keeps_CurrentSuccessfulAssignment keeps_InsertCancellation keeps_SaveCancellation : preserves.

(** ** The transactions of the package *)

Lemma keeps_WithinAssignment {A} (fn : TX A) : keeps fn → keeps (WithinAssignment fn).
Proof. intros Hfn. unfold WithinAssignment. preserve. Qed.
Lemma keeps_WithinCancellation {A} (fn : TX A) : keeps fn → keeps (WithinCancellation fn).
Proof. intros Hfn. unfold WithinCancellation. preserve. Qed.

Lemma keeps_assign_mutate {A} id scope (build : Order → list Offer → TX (A * option Change)) :
  (∀ o offers, keeps (build o offers)) → keeps (assign_mutate id scope build).
Proof.
  intros Hb. apply keeps_WithinAssignment. apply preserves_bind; [unfold lock_scope; preserve|].
  intros _. apply keeps_Mutate; [preserve|]. intros o offers. unfold validated_build. preserve.
Qed.

Lemma keeps_cancel_mutate {A} id key (build : Order → list Offer → TX (A * option Change)) :
  (∀ o offers, keeps (build o offers)) → keeps (cancel_mutate id key build).
Proof.
  intros Hb. apply keeps_WithinCancellation. apply preserves_bind; [unfold check_retained; preserve|].
  intros _. by apply keeps_Mutate; [preserve|].
Qed.

Lemma keeps_advance c id action stamp : keeps (advance c id action stamp).
Proof.
  unfold advance, advance_build. preserve.
Qed.

Lemma keeps_RecordItemLocation c id location : keeps (RecordItemLocation_ c id location).
Proof.
  unfold RecordItemLocation_, location_build. preserve.
Qed.

Lemma keeps_timeout testNow id : keeps (Mutate Apply id (timeout_build testNow id)).
Proof.
  apply keeps_Mutate; [preserve|]. intros. unfold timeout_build, lockedLifecycleTime. preserve.
Qed.

Lemma keeps_expire testNow id : keeps (Mutate Apply id (expire_build testNow)).
Proof.
  apply keeps_Mutate; [preserve|]. intros. unfold expire_build, lockedLifecycleTime. preserve.
Qed.

Lemma keeps_canPropose o now : keeps (canPropose o now).
Proof. unfold canPropose. preserve. Qed.
Lemma keeps_metadata o caller action now : keeps (metadata o caller action now).
Proof. unfold metadata. preserve. Qed.
#[local] Hint Resolve keeps_canPropose keeps_metadata : preserves.

Lemma keeps_propose caller id credits scope key hash now o offers :
  keeps (propose caller id credits scope key hash now o offers).
Proof. unfold propose. preserve. Qed.
#[local] Hint Resolve keeps_propose : preserves.

Lemma keeps_MakeOffer caller id credits key : keeps (MakeOffer caller id credits key).
Proof.
  unfold MakeOffer, assign_mutate, make_offer_build, lock_scope, validated_build. preserve.
Qed.

Lemma keeps_replay_acceptance caller id key hash stored :
  keeps (replay_acceptance caller id key hash stored).
Proof. unfold replay_acceptance. preserve. Qed.
Lemma keeps_reject_acceptance caller id scope key hash now o cause :
  keeps (reject_acceptance caller id scope key hash now o cause).
Proof. unfold reject_acceptance. preserve. Qed.
Lemma keeps_begin_acceptance caller id scope key hash now o :
  keeps (begin_acceptance caller id scope key hash now o).
Proof. unfold begin_acceptance. preserve. Qed.
Lemma keeps_admission o now : keeps (admission o now).
Proof. unfold admission. preserve. Qed.
#[local] Hint Resolve keeps_replay_acceptance keeps_reject_acceptance keeps_begin_acceptance
  keeps_admission : preserves.

Lemma keeps_accept_order_tx configured caller id key :
  keeps (accept_order_tx configured caller id key).
Proof.
  unfold accept_order_tx, assign_mutate, accept_order_build, lock_scope, validated_build. preserve.
Qed.

Lemma keeps_begin_counteroffer configured caller offerID o offers :
  keeps (begin_counteroffer configured caller offerID o offers).
Proof. unfold begin_counteroffer. preserve. Qed.
#[local] Hint Resolve keeps_begin_counteroffer : preserves.

Lemma keeps_accept_offer_tx configured caller offerID id :
  keeps (accept_offer_tx configured caller offerID id).
Proof.
  unfold accept_offer_tx. apply keeps_assign_mutate. intros. unfold accept_offer_build. preserve.
Qed.

Lemma keeps_claim attemptID id : keeps (assign_mutate id None (claim_build attemptID id)).
Proof. apply keeps_assign_mutate. intros. unfold claim_build. preserve. Qed.

Lemma keeps_resolve w ob o offers now : keeps (resolve w ob o offers now).
Proof. unfold resolve, resolveOffer. preserve. Qed.
#[local] Hint Resolve keeps_resolve : preserves.

Lemma keeps_finish attemptID id claimed ob :
  keeps (assign_mutate id None (finish_build attemptID claimed ob)).
Proof. apply keeps_assign_mutate. intros. unfold finish_build. preserve. Qed.

Lemma keeps_result caller attemptID id :
  keeps (assign_mutate id None (result_build caller attemptID)).
Proof. apply keeps_assign_mutate. intros. unfold result_build. preserve. Qed.

Lemma keeps_retain key operation : keeps (retain key operation).
Proof. unfold retain. preserve. Qed.
#[local] Hint Resolve keeps_retain : preserves.

Lemma keeps_admit_cancellation configured key caller reason now o offers :
  keeps (admit_cancellation configured key caller reason now o offers).
Proof.
  unfold admit_cancellation, begin_withdrawal, begin_cancellation, supersede, fence_active. preserve.
Qed.
Lemma keeps_replay_cancellation k caller id reason stored :
  keeps (replay_cancellation k caller id reason stored).
Proof. unfold replay_cancellation. preserve. Qed.
Lemma keeps_join_pending key caller reason pending : keeps (join_pending key caller reason pending).
Proof. unfold join_pending. preserve. Qed.
#[local] Hint Resolve keeps_admit_cancellation keeps_replay_cancellation keeps_join_pending : preserves.

Lemma keeps_cancel_tx configured q revision : keeps (cancel_tx configured q revision).
Proof.
  unfold cancel_tx. apply keeps_cancel_mutate. intros. unfold cancel_build. preserve.
Qed.

Lemma keeps_claim_cancellation operationID id :
  keeps (cancel_mutate id None (claim_cancellation_build operationID)).
Proof. apply keeps_cancel_mutate. intros. unfold claim_cancellation_build. preserve. Qed.

Lemma keeps_finish_cancellation operationID id claimed view :
  keeps (cancel_mutate id None (finish_cancellation_build operationID claimed view)).
Proof. apply keeps_cancel_mutate. intros. unfold finish_cancellation_build. preserve. Qed.

Lemma keeps_cancellation_result operationID id :
  keeps (cancel_mutate id None (cancellation_result_build operationID)).
Proof. apply keeps_cancel_mutate. intros. unfold cancellation_result_build. preserve. Qed.

End steps.

#[export] Hint Resolve keeps_Apply keeps_LockOrder keeps_Relationships keeps_require_aggregate
  keeps_remember keeps_remember_opt keeps_ProofServerTime keeps_HasPendingDelivery
  keeps_LockIdempotencyCaller keeps_FindIdempotencyKey keeps_InsertIdempotencyKey
  keeps_DeleteIdempotencyKey : preserves.
#[export] Hint Extern 1 (preserves (full_inv _) (modify _)) => apply keeps_bookkeeping; done : preserves.
#[export] Hint Extern 1 (preserves (full_inv _) (exec_unit _)) =>
  apply keeps_exec_unit; eauto with preserves : preserves.
#[export] Hint Extern 1 (preserves (full_inv _) (exec _)) =>
  apply keeps_exec; eauto with preserves : preserves.
