(* ===== verification/OrderSagaKeeps.v ===== *)
(** * Order: creation and delivery proofs keep the invariants

    The statements and transactions of the creation saga and of the delivery
    proofs, against the invariants of OrderKeeps. *)
From stdpp Require Import prelude gmap strings list.
From Stdlib Require Import ZArith Lia.
From S2P Require Import Prelude.
From S2P Require Import GoLib.
From S2P Require Import GoText.
From S2P Require Import OrderTypes.
From S2P Require Import OrderPolicy.
From S2P Require Import OrderDB.
From S2P Require Import OrderStore.
From S2P Require Import OrderCreationStore.
From S2P Require Import OrderProofStore.
From S2P Require Import OrderProgress.
From S2P Require Import OrderCreation.
From S2P Require Import OrderProofs.
From S2P Require Import OrderFacts.
From S2P Require Import OrderLogic.
From S2P Require Import OrderInvariant.
From S2P Require Import OrderAggregate.
From S2P Require Import OrderRecords.
From S2P Require Import OrderKeeps.

Local Open Scope Z_scope.
Local Open Scope foc_scope.

(** ** Statements *)

Lemma InsertCreationWorkflow_quiet w d d' : InsertCreationWorkflow w d = Ok d' → quiet_step d d'.
Proof.
  intros Hi. split; [|by eapply InsertCreationWorkflow_step].
  unfold InsertCreationWorkflow in Hi. inv_ok Hi. by subst d'.
Qed.
Lemma AttachItemImage_quiet id owner order n key size ct d d' a :
  AttachItemImage id owner order n key size ct d = Ok (d', a) → quiet_step d d'.
Proof.
  intros Hi. split; [|by eapply AttachItemImage_step].
  unfold AttachItemImage in Hi. destruct (images d !! id); [destruct (_ && _)|]; inv_ok Hi; by simplify_eq.
Qed.
Lemma SaveUpload_quiet u d d' n : SaveUpload u d = Ok (d', n) → quiet_step d d'.
Proof.
  intros Hi. split; [|by eapply SaveUpload_step].
  unfold SaveUpload in Hi. inv_ok Hi. destruct (uploads d !! _); [destruct (regrantable _ _)|];
    inv_ok Hi; by simplify_eq.
Qed.
Lemma FenceProofIdentity_quiet o c u at_ d d' : FenceProofIdentity o c u at_ d = Ok d' → quiet_step d d'.
Proof.
  intros Hi. split; [|by eapply FenceProofIdentity_step].
  unfold FenceProofIdentity in Hi. destruct (fences d !! (o, c, u)); inv_ok Hi; by subst.
Qed.
Lemma InsertReceipt_quiet r d d' : InsertReceipt r d = Ok d' → quiet_step d d'.
Proof.
  intros Hi. split; [|by eapply InsertReceipt_step]. unfold InsertReceipt in Hi. inv_ok Hi. by subst d'.
Qed.
Lemma InsertConfirmation_quiet c d d' : InsertConfirmation c d = Ok d' → quiet_step d d'.
Proof.
  intros Hi. split; [|by eapply InsertConfirmation_step]. unfold InsertConfirmation in Hi. inv_ok Hi. by subst d'.
Qed.
Lemma RetireProofUpload_quiet o c u d : quiet_step d (RetireProofUpload o c u d).
Proof. split; [done|apply RetireProofUpload_step]. Qed.
Lemma update_upload_core id from set d : same_core d (update_upload id from set d).1.
Proof. unfold update_upload. destruct (uploads d !! id); [destruct (decide _)|]; done. Qed.
Lemma VerifyProofUpload_quiet server id d : quiet_step d (VerifyProofUpload server id d).1.
Proof. split; [apply update_upload_core|apply VerifyProofUpload_step]. Qed.
Lemma AcceptProofUpload_quiet id d : quiet_step d (AcceptProofUpload id d).1.
Proof. split; [apply update_upload_core|apply AcceptProofUpload_step]. Qed.
Lemma FinishReceipt_quiet id state at_ d : quiet_step d (FinishReceipt id state at_ d).1.
Proof. split; [done|apply FinishReceipt_step]. Qed.
Lemma ScheduleCleanup_quiet server id next d : quiet_step d (ScheduleCleanup server id next d).1.
Proof.
  split; [|apply ScheduleCleanup_step]. unfold ScheduleCleanup.
  destruct (uploads d !! id); [destruct (_ && _)|]; done.
Qed.
#[export] Hint Resolve InsertCreationWorkflow_quiet AttachItemImage_quiet SaveUpload_quiet
  FenceProofIdentity_quiet InsertReceipt_quiet InsertConfirmation_quiet : preserves.

Section sagas.
  Context `{UUID, !UUIDLaws, !UUIDFold, Digest} {base : ODB}.
  Abbreviation keeps m := (preserves (full_inv base) m).

(** A statement that cannot fail. *)
Lemma keeps_total {A} (f : ODB → ODB * A) :
  (∀ d, quiet_step d (f d).1) → keeps (exec (λ d, mret (f d))).
Proof. intros Hf. apply keeps_exec. intros d d' a Hd. apply Ok_inj in Hd. specialize (Hf d). by rewrite Hd in Hf. Qed.
Lemma keeps_exec_at {A} (f : Time → ODB → ODB * A) :
  (∀ server d, quiet_step d (f server d).1) → keeps (exec_at f).
Proof. intros Hf env. apply (keeps_total (f (stored_time (server_time env)))). apply Hf. Qed.
Lemma keeps_total_unit (f : ODB → ODB) :
  (∀ d, quiet_step d (f d)) → keeps (exec_unit (λ d, mret (f d))).
Proof. intros Hf. apply keeps_exec_unit. intros d d' Hd. apply Ok_inj in Hd. subst. apply Hf. Qed.

#[local] Hint Resolve VerifyProofUpload_quiet FinishReceipt_quiet AcceptProofUpload_quiet
  ScheduleCleanup_quiet RetireProofUpload_quiet : preserves.
#[local] Hint Extern 1 (preserves _ (exec_at _)) =>
  apply keeps_exec_at; intros; auto with preserves : preserves.
#[local] Hint Extern 0 (preserves _ (exec (λ d, mret _))) =>
  apply keeps_total; intros; auto with preserves : preserves.
#[local] Hint Extern 0 (preserves _ (exec_unit (λ d, mret _))) =>
  apply keeps_total_unit; intros; auto with preserves : preserves.

(** ** Creation *)

Lemma keeps_TryLockCreationOrder busy id : keeps (TryLockCreationOrder busy id).
Proof.
  destruct busy; [|apply keeps_LockOrder]. unfold TryLockCreationOrder.
  apply preserves_bind; [apply preserves_lift|]. intros uid env s Hs.
  unfold wp, mbind, st_mbind, query. by destruct (aborted s).
Qed.

Lemma keeps_LockCreation id : keeps (LockCreation id).
Proof.
  apply keeps_both; [|apply records_LockCreation]. unfold LockCreation, is_locked. preserve.
  by apply preserves_modify.
Qed.

Lemma UpdateCreationWorkflow_core w n d d' k :
  UpdateCreationWorkflow w n d = Ok (d', k) → same_core d d'.
Proof. unfold UpdateCreationWorkflow. intros Hu. inv_ok Hu. by simplify_eq. Qed.

Lemma keeps_SaveCreation w n : keeps (SaveCreation w n).
Proof.
  apply keeps_both; [|apply records_SaveCreation]. unfold SaveCreation, refuse. preserve.
  apply preserves_exec; [|done]. intros s d k Hs Hd. apply aggregate_core; [done|].
  by eapply UpdateCreationWorkflow_core.
Qed.

Lemma keeps_FindCreationKey caller key now : keeps (FindCreationKey caller key now).
Proof. unfold FindCreationKey, refuse. preserve. Qed.
Lemma keeps_CountRecentCreations caller since : keeps (tx_CountRecentCreations caller since).
Proof. unfold tx_CountRecentCreations, caller_locked. preserve. Qed.
Lemma keeps_InsertCreation w key : keeps (InsertCreation w key).
Proof. unfold InsertCreation, caller_locked, refuse. preserve. Qed.
Lemma keeps_attach_images owner id n items : keeps (attach_images owner id n items).
Proof. revert n. induction items; intros n; cbn [attach_images]; unfold refuse; preserve. Qed.
#[local] Hint Resolve keeps_TryLockCreationOrder keeps_LockCreation keeps_SaveCreation
  keeps_FindCreationKey keeps_CountRecentCreations keeps_InsertCreation keeps_attach_images : preserves.
Lemma keeps_AttachCreationImages owner id items : keeps (AttachCreationImages owner id items).
Proof. unfold AttachCreationImages, caller_locked, refuse. preserve. Qed.
#[local] Hint Resolve keeps_AttachCreationImages : preserves.

Lemma keeps_find_creation caller key : keeps (find_creation caller key).
Proof. unfold find_creation. preserve. Qed.
Lemma keeps_admit_creation caller i canonical hash pickup delivery items :
  keeps (admit_creation caller i canonical hash pickup delivery items).
Proof. unfold admit_creation. preserve. Qed.
Lemma keeps_claim_creation busy id : keeps (claim_creation busy id).
Proof. unfold claim_creation. preserve. Qed.
Lemma keeps_apply_verdict v o w now : keeps (apply_verdict v o w now).
Proof. unfold apply_verdict. preserve. Qed.
#[local] Hint Resolve keeps_apply_verdict : preserves.
Lemma keeps_finish_creation id claimed ob : keeps (finish_creation id claimed ob).
Proof. unfold finish_creation. preserve. Qed.
Lemma keeps_creation_outcome id : keeps (creation_outcome id).
Proof. unfold creation_outcome. preserve. Qed.

(** ** Proofs *)

Lemma keeps_proofs_locked {A} id (build : Order → TX (A * option Change)) :
  (∀ o, keeps (build o)) → keeps (proofs_locked id build).
Proof. intros Hb. apply keeps_Mutate; [apply keeps_Apply|]. intros o _. apply Hb. Qed.

Lemma keeps_proofLocked id : keeps (proofLocked id).
Proof. unfold proofLocked, is_locked. preserve. Qed.
Lemma keeps_any_locked : keeps any_locked.
Proof. unfold any_locked. preserve. Qed.
#[local] Hint Resolve keeps_proofLocked keeps_any_locked : preserves.
Lemma keeps_FindProofUpload o c u : keeps (FindProofUpload o c u).
Proof. unfold FindProofUpload. preserve. Qed.
Lemma keeps_CountStagedProofs o c : keeps (CountStagedProofs o c).
Proof. unfold CountStagedProofs. preserve. Qed.
Lemma keeps_GetProofUpload id : keeps (GetProofUpload id).
Proof. unfold GetProofUpload, is_locked. preserve. Qed.
Lemma keeps_proofIdentityBudget o c : keeps (proofIdentityBudget o c).
Proof. unfold proofIdentityBudget. preserve. Qed.
#[local] Hint Resolve keeps_FindProofUpload keeps_CountStagedProofs keeps_GetProofUpload
  keeps_proofIdentityBudget : preserves.
Lemma keeps_SaveProofUpload u : keeps (SaveProofUpload u).
Proof. unfold SaveProofUpload, one_row, refuse. preserve. Qed.
Lemma keeps_MarkProofVerified id : keeps (MarkProofVerified id).
Proof. unfold MarkProofVerified, one_row, refuse. preserve. Qed.
Lemma keeps_AbandonProofUpload o c u at_ : keeps (AbandonProofUpload o c u at_).
Proof. unfold AbandonProofUpload, refuse. preserve. Qed.
Lemma keeps_GetProofConfirmation id : keeps (GetProofConfirmation id).
Proof. unfold GetProofConfirmation. preserve. Qed.
Lemma keeps_GetPendingDeliveryReceipt id : keeps (GetPendingDeliveryReceipt id).
Proof. unfold GetPendingDeliveryReceipt. preserve. Qed.
Lemma keeps_GetDeliveryReceipt id : keeps (GetDeliveryReceipt id).
Proof. unfold GetDeliveryReceipt. preserve. Qed.
#[local] Hint Resolve keeps_SaveProofUpload keeps_MarkProofVerified keeps_AbandonProofUpload
  keeps_GetProofConfirmation keeps_GetPendingDeliveryReceipt keeps_GetDeliveryReceipt : preserves.
Lemma keeps_InsertDeliveryReceipt r : keeps (InsertDeliveryReceipt r).
Proof. unfold InsertDeliveryReceipt. preserve. Qed.
Lemma keeps_FinishDeliveryReceipt id state at_ : keeps (FinishDeliveryReceipt id state at_).
Proof. unfold FinishDeliveryReceipt, one_row. preserve. Qed.
Lemma keeps_accept_uploads c receipt us : keeps (accept_uploads c receipt us).
Proof. induction us; cbn [accept_uploads]; unfold one_row, refuse; preserve. Qed.
#[local] Hint Resolve keeps_InsertDeliveryReceipt keeps_FinishDeliveryReceipt keeps_accept_uploads
  : preserves.
Lemma keeps_SaveProofConfirmation c us : keeps (SaveProofConfirmation c us).
Proof. unfold SaveProofConfirmation, refuse. preserve. Qed.
Lemma keeps_IsProofOutageCurrent g : keeps (IsProofOutageCurrent g).
Proof. unfold IsProofOutageCurrent. preserve. Qed.
Lemma keeps_ScheduleProofCleanup id next : keeps (ScheduleProofCleanup id next).
Proof. unfold ScheduleProofCleanup. preserve. Qed.
Lemma keeps_proofTime s : keeps (proofTime s).
Proof. unfold proofTime. preserve. Qed.
#[local] Hint Resolve keeps_SaveProofConfirmation keeps_IsProofOutageCurrent keeps_ScheduleProofCleanup
  keeps_proofTime : preserves.

Lemma keeps_upload_build s c i epoch expiry o : keeps (upload_build s c i epoch expiry o).
Proof. unfold upload_build, staged_proof, optional. preserve. Qed.
Lemma keeps_granted_build s c u g o : keeps (granted_build s c u g o).
Proof. unfold granted_build. preserve. Qed.
Lemma keeps_abandon_build s c id u o : keeps (abandon_build s c id u o).
Proof. unfold abandon_build, optional. preserve. Qed.
Lemma keeps_recheckProofs o c us : keeps (recheckProofs o c us).
Proof. induction us; cbn [recheckProofs]; preserve. Qed.
#[local] Hint Resolve keeps_recheckProofs : preserves.
Lemma keeps_verify_build s c id o : keeps (verify_build s c id o).
Proof. unfold verify_build. preserve. Qed.
Lemma keeps_verified_build s c u o : keeps (verified_build s c u o).
Proof. unfold verified_build. preserve. Qed.
Lemma keeps_receiptTime s c i r : keeps (receiptTime s c i r).
Proof. unfold receiptTime. preserve. Qed.
Lemma keeps_confirmationState o c i now : keeps (confirmationState o c i now).
Proof. unfold confirmationState, optional. preserve. Qed.
Lemma keeps_load_proofs o c ids : keeps (load_proofs o c ids).
Proof. induction ids; cbn [load_proofs]; unfold precondition_if_missing; preserve. Qed.
#[local] Hint Resolve keeps_receiptTime keeps_confirmationState keeps_load_proofs : preserves.
Lemma keeps_confirm_first s c i r o : keeps (confirm_first s c i r o).
Proof. unfold confirm_first. preserve. Qed.
Lemma keeps_confirm_second s c i r g us o : keeps (confirm_second s c i r g us o).
Proof. unfold confirm_second, exception_current. preserve. Qed.
Lemma keeps_admissible_proofs s o c now ids : keeps (admissible_proofs s o c now ids).
Proof. induction ids; cbn [admissible_proofs]; unfold precondition_if_missing; preserve. Qed.
Lemma keeps_admissible_outage s asked now : keeps (admissible_outage s asked now).
Proof. unfold admissible_outage. preserve. Qed.
#[local] Hint Resolve keeps_admissible_proofs keeps_admissible_outage : preserves.
Lemma keeps_admit_delivery s c i asked o : keeps (admit_delivery s c i asked o).
Proof. unfold admit_delivery, optional. preserve. Qed.
Lemma keeps_finish_build_receipt r o : keeps (finish_build_receipt r o).
Proof. unfold finish_build_receipt. preserve. Qed.
Lemma keeps_accepted_proofs s id c ids : keeps (accepted_proofs s id c ids).
Proof. induction ids; cbn [accepted_proofs]; preserve. Qed.
#[local] Hint Resolve keeps_accepted_proofs : preserves.
Lemma keeps_proofs_view s c id o : keeps (proofs_view s c id o).
Proof. unfold proofs_view, pending_view, optional. preserve. Qed.
Lemma keeps_cleanup_build s id o : keeps (cleanup_build s id o).
Proof. unfold cleanup_build. preserve. Qed.

End sagas.

#[export] Hint Resolve keeps_find_creation keeps_admit_creation keeps_claim_creation
  keeps_finish_creation keeps_creation_outcome keeps_upload_build keeps_granted_build
  keeps_abandon_build keeps_verify_build keeps_verified_build keeps_confirm_first keeps_confirm_second
  keeps_admit_delivery keeps_finish_build_receipt keeps_proofs_view keeps_cleanup_build : preserves.
