(* ===== verification/OrderSteps.v ===== *)
(** * Order: the steps of the service

    Every transaction, every statement outside a transaction and every delivery
    of the relay, as a step of the tables; each keeps the invariants and undoes
    nothing. *)
From stdpp Require Import prelude gmap strings list sorting relations.
From Stdlib Require Import ZArith Lia.
From S2P Require Import Prelude.
From S2P Require Import GoLib.
From S2P Require Import GoText.
From S2P Require Import OrderTypes.
From S2P Require Import OrderPolicy.
From S2P Require Import OrderDB.
From S2P Require Import OrderStore.
From S2P Require Import OrderCreationStore.
From S2P Require Import OrderProofStore.
From S2P Require Import OrderProgress.
From S2P Require Import OrderAssignment.
From S2P Require Import OrderCancellation.
From S2P Require Import OrderCreation.
From S2P Require Import OrderProofs.
From S2P Require Import OrderOutbox.
From S2P Require Import OrderFacts.
From S2P Require Import OrderLogic.
From S2P Require Import OrderInvariant.
From S2P Require Import OrderAggregate.
From S2P Require Import OrderRecords.
From S2P Require Import OrderKeeps.
From S2P Require Import OrderSagaKeeps.

Local Open Scope Z_scope.
Local Open Scope foc_scope.

Section steps.
  Context `{UUID, !UUIDLaws, !UUIDFold, Digest} {base : ODB}.
  Abbreviation keeps m := (preserves (full_inv base) m).

(** ** The relay *)

Lemma announces_publication f g a : publication_only f g → announces f a → announces g a.
Proof.
  intros (E1 & E2 & E3 & E4 & E5)%publication_fields [? ? ? ? ? ? ? ?].
  split; rewrite ?E1, ?E2, ?E3, ?E4, ?E5; done.
Qed.

Lemma count_map p (h : FactRow → FactRow) l :
  (∀ f, p (h f) = p f) → count p (h <$> l) = count p l.
Proof.
  intros Hp. unfold count. induction l as [|f l IH]; [done|].
  rewrite fmap_cons. simpl. rewrite Hp. destruct (p f); simpl; by rewrite IH.
Qed.

Lemma Inv_publication d h :
  (∀ f, publication_only f (h f)) → Inv d → Inv (d <| outbox := h <$> outbox d |>).
Proof.
  intros Hh [I1 I2 I3 I4]. split; try done.
  - intros id r [Q1 Q2 Q3 Q4 Q5 Q6 Q7 Q8]%I1.
    split; simpl; try done.
    + intros n a Ha Hch. rewrite count_map; [by eapply Q6|]. intros f. unfold fact_at.
      by destruct (publication_fields _ _ (Hh f)) as (-> & -> & -> & _).
    + rewrite count_map; [done|]. intros f. unfold outcome_of.
      by destruct (publication_fields _ _ (Hh f)) as (-> & _ & -> & _).
  - cbn. intros g (f & -> & Hf)%list_elem_of_fmap. destruct (I3 f Hf) as (a & Ha & Han).
    destruct (publication_fields _ _ (Hh f)) as (-> & -> & _). exists a.
    split; [done|]. by eapply announces_publication; [apply Hh|].
Qed.

(** ** Operations *)

(** Every transaction that the service runs over an order. *)
Inductive operation : ∀ {A : Type}, TX A → Prop :=
| op_find_creation caller key : operation (find_creation caller key)
| op_admit_creation c caller input i canonical hash pickup delivery items :
    parseID c = Ok caller → canonicalCreation input = Ok (i, canonical, hash) →
    operation (admit_creation caller i canonical hash pickup delivery items)
| op_claim_creation busy id : operation (claim_creation busy id)
| op_finish_creation id claimed ob : operation (finish_creation id claimed ob)
| op_creation_outcome id : operation (creation_outcome id)
| op_pickup c id : operation (ConfirmPickup c id)
| op_receipt c id : operation (ConfirmReceipt_ c id)
| op_location c id location : operation (RecordItemLocation_ c id location)
| op_timeout testNow id : operation (Mutate Apply id (timeout_build testNow id))
| op_expire testNow id : operation (Mutate Apply id (expire_build testNow))
| op_offer caller id credits key : operation (MakeOffer caller id credits key)
| op_accept_order b caller id key : operation (accept_order_tx b caller id key)
| op_accept_offer b caller offer id : operation (accept_offer_tx b caller offer id)
| op_claim attempt id : operation (assign_mutate id None (claim_build attempt id))
| op_finish attempt id claimed ob : operation (assign_mutate id None (finish_build attempt claimed ob))
| op_result caller attempt id : operation (assign_mutate id None (result_build caller attempt))
| op_cancel b q revision : operation (cancel_tx b q revision)
| op_claim_cancel k id : operation (cancel_mutate id None (claim_cancellation_build k))
| op_finish_cancel k id claimed view :
    operation (cancel_mutate id None (finish_cancellation_build k claimed view))
| op_cancel_result k id : operation (cancel_mutate id None (cancellation_result_build k))
| op_upload s c i epoch expiry id : operation (proofs_locked id (upload_build s c i epoch expiry))
| op_granted s c u g id : operation (proofs_locked id (granted_build s c u g))
| op_abandon s c u id : operation (proofs_locked id (abandon_build s c id u))
| op_verify s c proof id : operation (proofs_locked id (verify_build s c proof))
| op_verified s c u id : operation (proofs_locked id (verified_build s c u))
| op_admit_delivery s c i asked id : operation (proofs_locked id (admit_delivery s c i asked))
| op_confirm_first s c i r id : operation (proofs_locked id (confirm_first s c i r))
| op_confirm_second s c i r g us id : operation (proofs_locked id (confirm_second s c i r g us))
| op_finish_receipt r id : operation (proofs_locked id (finish_build_receipt r))
| op_proofs_view s c id : operation (proofs_locked id (proofs_view s c id))
| op_cleanup s proof id : operation (proofs_locked id (cleanup_build s proof)).

(** The statements that run in no transaction. *)
Inductive statement : ODB → ODB → Prop :=
| st_image i d d' : InsertItemImage i d = Ok d' → statement d d'
| st_claim_images before now d : statement d (ClaimOrphanImages before now d).1
| st_delete_image id d : statement d (DeleteOrphanImage id d)
| st_retry_receipt server id d : statement d (RetryReceipt server id d)
| st_alert_receipt server id d : statement d (AlertReceipt server id d).1
| st_outage scope evidence observed until reason active d :
    statement d (PublishOutage scope evidence observed until reason active d).

Inductive order_step : ODB → ODB → Prop :=
| step_transaction {A} env fl (fn : TX A) d :
    operation fn → order_step d (within_tx env fl fn d).2
| step_statement d d' : statement d d' → order_step d d'
| step_relay at_ t log d : order_step d (drain_one at_ t d log).1.2.

Lemma operation_keeps {A} (fn : TX A) : operation fn → keeps fn.
Proof.
  destruct 1; unfold ConfirmPickup, ConfirmReceipt_; auto using keeps_advance,
    keeps_RecordItemLocation, keeps_timeout, keeps_expire, keeps_MakeOffer, keeps_accept_order_tx,
    keeps_accept_offer_tx, keeps_claim, keeps_finish, keeps_result, keeps_cancel_tx,
    keeps_claim_cancellation, keeps_finish_cancellation, keeps_cancellation_result
    with preserves nocore; apply keeps_proofs_locked; intros o; auto with preserves nocore.
Qed.

Lemma statement_quiet d d' : statement d d' → quiet_step d d'.
Proof.
  destruct 1 as [i d d' Hi| | | | |].
  - split; [|by eapply InsertItemImage_step]. unfold InsertItemImage in Hi. inv_ok Hi. by subst d'.
  - split; [done|apply ClaimOrphanImages_step].
  - split; [|apply DeleteOrphanImage_step]. unfold DeleteOrphanImage.
    destruct (images d !! id); [destruct (decide _)|]; done.
  - split; [done|apply RetryReceipt_step].
  - split; [done|apply AlertReceipt_step].
  - split; [done|apply PublishOutage_step].
Qed.

End steps.

(** ** Reachable tables *)

Section reachable.
  Context `{UUID, !UUIDLaws, !UUIDFold, Digest}.

(** What holds of the tables, and what a step may not undo. *)
Definition Sound (d : ODB) : Prop := Inv d ∧ records_ok d.
Definition later (d d' : ODB) : Prop := extends d d' ∧ records_kept d d'.

#[export] Instance later_preorder : PreOrder later.
Proof.
  split; [by intros d|]. intros d1 d2 d3 [E1 K1] [E2 K2]. split; by etransitivity.
Qed.

Lemma full_start d : Sound d → sound (full_inv d) (start d).
Proof.
  intros [HI Ho] _. split; [|by apply records_start]. split; [done|]. split; [done|].
  intros id o. cbn. by rewrite lookup_empty.
Qed.

Lemma extends_publication d h :
  (∀ f, publication_only f (h f)) → extends d (d <| outbox := h <$> outbox d |>).
Proof.
  intros Hh. split; [|done|].
  - intros id r Hr. exists r. by repeat split.
  - exists (h <$> outbox d), []. rewrite app_nil_r. split; [done|].
    apply Forall2_fmap_r, Forall_Forall2_diag. by apply Forall_true.
Qed.

(** A step keeps what holds and leaves a later state. *)
Definition sound_step (d d' : ODB) : Prop := Sound d → Sound d' ∧ later d d'.

#[export] Instance sound_step_preorder : PreOrder sound_step.
Proof.
  split; [by intros d|]. intros d1 d2 d3 H12 H23 Hd. destruct (H12 Hd) as [S1 L1].
  destruct (H23 S1) as [S2 L2]. split; [done|by etransitivity].
Qed.

Lemma publication_step d h :
  (∀ f, publication_only f (h f)) → sound_step d (d <| outbox := h <$> outbox d |>).
Proof.
  intros Hh [HI Ho]. assert (records_step d (d <| outbox := h <$> outbox d |>)) as Hs
    by by apply same_records_step.
  destruct (Hs Ho). split; split; try done; [by apply Inv_publication|by apply extends_publication].
Qed.

Lemma within_step {A} env fl (fn : TX A) d :
  (∀ base, preserves (full_inv base) fn) → sound_step d (within_tx env fl fn d).2.
Proof.
  intros Hfn Hd. destruct (within_tx env fl fn d) as [out d'] eqn:Hrun.
  destruct (preserves_within _ _ _ _ _ _ _ (Hfn d) (full_start d Hd) Hrun)
    as [->|(s & ((HI & He & _) & [Hk Ho _]) & <-)]; done.
Qed.

Lemma relay_step at_ t log d : sound_step d (drain_one at_ t d log).1.2.
Proof.
  unfold drain_one.
  assert (∀ token now until, sound_step d (Claim token now until d).2) as Hc.
  { intros. unfold Claim, ClaimOrderFact. destruct (merge_sort _ _) as [|f fs]; [done|].
    cbn. apply publication_step. intros g. by destruct (decide _). }
  assert (∀ f now d1, sound_step d1 (Published f now d1).2) as Hp.
  { intros f now d1. apply publication_step. intros g. by destruct (lease_held _ _ _ g). }
  assert (∀ f next d1, sound_step d1 (Retry f next d1)) as Hr.
  { intros f next d1. apply publication_step. intros g. by destruct (_ && _). }
  specialize (Hc (tn_token t) at_ (tn_now t + 30 * Second)).
  destruct (Claim _ _ _ d) as [[[f|]|e] d1]; try done. simpl in Hc.
  assert (sound_step d (Retry f (tn_now t + 2 * Second) d1)) as Hretry by (etransitivity; eauto).
  destruct (encode f); [|done]. destruct (tn_accepted t && tn_replied t); [|done].
  destruct (tn_acked t); [|done]. specialize (Hp f (tn_now t) d1).
  destruct (Published f (tn_now t) d1) as [[u|e] d2]; (etransitivity; [exact Hc|exact Hp]).
Qed.

Lemma statement_step d d' : statement d d' → sound_step d d'.
Proof.
  intros [Hc Hr]%statement_quiet [HI Ho]. destruct (Hr Ho).
  pose proof (Inv_core _ _ Hc HI). pose proof (extends_core _ _ _ Hc (reflexivity d)).
  by split; split.
Qed.

Lemma step_sound d d' : order_step d d' → sound_step d d'.
Proof.
  destruct 1 as [A env fl fn d Hop|d d' Hst|at_ t log d];
    [|by apply statement_step|by apply relay_step].
  apply within_step. intros base. by apply operation_keeps.
Qed.

Lemma steps_sound d d' : rtc order_step d d' → sound_step d d'.
Proof. induction 1 as [d|d d1 d' Hstep _ IH]; [done|]. etransitivity; [by apply step_sound|done]. Qed.

Lemma Sound_empty : Sound empty_odb.
Proof. split; [apply Inv_empty|apply records_ok_empty]. Qed.

Lemma reachable_sound d : rtc order_step empty_odb d → Sound d.
Proof. intros Hr. by apply (steps_sound empty_odb), Sound_empty. Qed.
Lemma reachable_aggregate d : rtc order_step empty_odb d → Inv d.
Proof. intros Hr. by apply reachable_sound. Qed.

End reachable.
