(* ===== verification/OrderRuns.v ===== *)
(** * Order: what a committed transaction did

    A transaction that changed the tables ran to its end; a mutation locked
    one order, built its change from that order and its offers, and applied
    it. *)
From stdpp Require Import prelude gmap strings list.
From Stdlib Require Import ZArith Lia.
From S2P Require Import Prelude.
From S2P Require Import GoLib.
From S2P Require Import GoText.
From S2P Require Import OrderTypes.
From S2P Require Import OrderPolicy.
From S2P Require Import OrderDB.
From S2P Require Import OrderStore.
From S2P Require Import OrderAssignment.
From S2P Require Import OrderCancellation.
From S2P Require Import OrderFacts.
From S2P Require Import OrderLogic.
From S2P Require Import OrderInvariant.
From S2P Require Import OrderAggregate.
From S2P Require Import OrderSteps.

Local Open Scope Z_scope.
Local Open Scope foc_scope.

(** ** The boundary *)

(** What a call that reports success, or that changed the tables, did. *)
Lemma within_ran {A} env fl (fn : TX A) d out d' :
  within_tx env fl fn d = (out, d') →
  d' = d ∧ is_ok out = false
  ∨ ∃ a s, fn env (start d) = Ok (a, s) ∧ failed s = None ∧ aborted s = false
      ∧ deferred_ok (db s) = true ∧ db s = d' ∧ ∀ b, out = Ok b → b = a.
Proof.
  unfold within_tx. destruct (begin_fault fl); [intros [= <- <-]; by left|].
  destruct (fn env (start d)) as [[a s]|[e s]]; [|intros [= <- <-]; by left].
  destruct (failed s) eqn:Hf; [intros [= <- <-]; by left|].
  unfold commit. destruct (aborted s) eqn:Hab; [intros [= <- <-]; by left|].
  destruct (deferred_ok (db s)) eqn:Hd; [|intros [= <- <-]; by left]. simpl.
  destruct (commit_fault fl) as [[code []]|].
  - intros [= <- <-]. right. exists a, s. repeat (split; [done|]). done.
  - intros [= <- <-]. by left.
  - intros [= <- <-]. right. exists a, s. repeat (split; [done|]). by intros b [= ->].
Qed.

Lemma within_committed {A} env fl (fn : TX A) d a d' :
  within_tx env fl fn d = (Ok a, d') → ∃ s, fn env (start d) = Ok (a, s) ∧ db s = d'.
Proof.
  intros [[_ Hf]|(b & s & Hrun & _ & _ & _ & Hdb & Hout)]%within_ran; [done|].
  exists s. rewrite (Hout a eq_refl). done.
Qed.

Section runs.
  Context `{UUID}.

(** A session that has locked one order and read its offers. *)
Definition opened (s : Session) (id : string) (o : Order) : Session :=
  s <| locked := <[id := o]> (locked s) |> <| related := {[id]} ∪ related s |>.

Lemma LockOrder_run id env s o s' :
  tx_LockOrder id env s = Ok (o, s') →
  ∃ uid row, parseID id = Ok uid ∧ orders (db s) !! uid = Some row ∧ fromOrder row = Ok o
    ∧ s' = s <| locked := <[o_ID o := o]> (locked s) |>.
Proof.
  unfold tx_LockOrder. intros Hrun. inv_run Hrun. exists a.
  unfold LockOrder in *. destruct (orders (db s) !! a) as [row|]; simpl in *; [|done].
  apply Ok_inj in Hrun1 as <-. eauto.
Qed.

Lemma Relationships_run id env s offers s' :
  tx_Relationships id env s = Ok (offers, s') →
  ∃ uid, parseID id = Ok uid ∧ is_Some (locked s !! uid) ∧ offers = OrderOffers uid (db s)
    ∧ s' = s <| related := {[uid]} ∪ related s |>.
Proof.
  unfold tx_Relationships, is_locked. intros Hrun. inv_run Hrun. exists a.
  split; [done|]. split; [|done]. by destruct (locked s !! a).
Qed.

Lemma Mutate_run {A} apply id (build : Order → list Offer → TX (A * option Change)) env s a s' :
  locked s = ∅ → Mutate apply id build env s = Ok (a, s') →
  ∃ uid row o ch s2, parseID id = Ok uid ∧ orders (db s) !! uid = Some row ∧ fromOrder row = Ok o
    ∧ o_ID o = uid ∧ build o (OrderOffers uid (db s)) env (opened s uid o) = Ok ((a, ch), s2)
    ∧ match ch with
      | None => s' = s2
      | Some c => c_ExpectedRevision c = o_Revision o ∧ ∃ u, apply c env s2 = Ok (u, s')
      end.
Proof.
  intros Hempty Hrun. unfold Mutate in Hrun. apply bind_ok in Hrun as (o & s1 & Hlock & Hrun).
  apply bind_ok in Hrun as (offers & s2 & Hrel & Hrun).
  apply bind_ok in Hrun as ([r ch] & s3 & Hbuild & Hrun).
  apply LockOrder_run in Hlock as (uid & row & Hid & Hrow & Ho & ->).
  apply Relationships_run in Hrel as (uid' & Hid' & Hlk & -> & ->).
  rewrite Hid in Hid'. apply Ok_inj in Hid' as <-. cbn in *.
  assert (o_ID o = uid) as Heq.
  { rewrite Hempty in Hlk. destruct Hlk as [o' Hlk]. apply lookup_insert_Some in Hlk as [[? _]|[_ Hlk]]; [done|].
    by rewrite lookup_empty in Hlk. }
  rewrite Heq in Hbuild. exists uid, row, o, ch, s3. repeat (split; [done|]). destruct ch as [c|]; inv_run Hrun.
  - apply andb_prop in Hrun0 as [_ He%Z.eqb_eq]. subst. eauto.
  - by subst.
Qed.

(** ** Reads and bookkeeping *)

(** The tables and the locks are as they were. *)
Record quiet (s s' : Session) : Prop := {
  qt_db : db s' = db s;
  qt_locked : locked s' = locked s;
  qt_related : related s' = related s;
  qt_applied : applied s' = applied s;
  qt_failed : failed s' = failed s;
}.

#[export] Instance quiet_preorder : PreOrder quiet.
Proof. split; [by intros s|]. intros s1 s2 s3 [] []. split; congruence. Qed.

Lemma require_aggregate_run id env s u s' :
  require_aggregate id env s = Ok (u, s') → s' = s ∧ is_Some (locked s !! id) ∧ id ∈ related s.
Proof.
  unfold require_aggregate, is_locked, is_related. intros Hrun. inv_run Hrun. subst.
  apply andb_prop in Hrun as [Hl Hr%bool_decide_eq_true]. split; [done|]. split; [|done].
  by destruct (locked s !! id).
Qed.

Lemma remember_run row env s w s' :
  remember row env s = Ok (w, s') →
  w = fromAssignment row ∧ quiet s s' ∧ is_Some (locked s !! w_OrderID w).
Proof.
  unfold remember. intros Hrun. apply bind_ok in Hrun as (u & s1 & Hreq & Hrun).
  apply require_aggregate_run in Hreq as (-> & Hl & _). inv_run Hrun. subst.
  split; [done|]. split; [|done]. by destruct (is_some _).
Qed.

Lemma remember_opt_run row env s w s' :
  remember_opt row env s = Ok (w, s') → w = fromAssignment <$> row ∧ quiet s s'.
Proof.
  unfold remember_opt. destruct row as [row|]; intros Hrun; inv_run Hrun; [|by subst].
  apply remember_run in Hrun0 as (-> & Hq & _). by subst.
Qed.

Lemma FindAssignment_run id env s w s' :
  FindAssignment id env s = Ok (w, s') →
  ∃ aid row, parseID id = Ok aid ∧ GetAssignmentAttempt aid (db s) = Some row ∧ w = fromAssignment row
    ∧ quiet s s' ∧ is_Some (locked s !! w_OrderID w).
Proof.
  unfold FindAssignment. intros Hrun. inv_run Hrun. apply remember_run in Hrun as (-> & Hq & Hl).
  destruct (GetAssignmentAttempt a (db s)) as [row|] eqn:Hrow; [|done].
  apply Ok_inj in Hrun1 as <-. exists a, row. done.
Qed.

Lemma ActiveAssignment_run id env s w s' :
  ActiveAssignment id env s = Ok (w, s') → quiet s s'.
Proof.
  unfold ActiveAssignment. intros Hrun. inv_run Hrun.
  apply require_aggregate_run in Hrun1 as (-> & _). by apply remember_opt_run in Hrun as [_ ?].
Qed.

Lemma OfferAssignment_run id env s w s' :
  OfferAssignment id env s = Ok (w, s') → quiet s s'.
Proof.
  unfold OfferAssignment. intros Hrun. inv_run Hrun. by apply remember_opt_run in Hrun as [_ ?].
Qed.

Lemma attempt_of_run c env s w s' : attempt_of c env s = Ok (w, s') → quiet s s'.
Proof.
  unfold attempt_of. intros Hrun. destruct (decide _); inv_run Hrun; [by subst|].
  revert Hrun. induction (c_Offers c) as [|u us IH]; intros Hrun; cbn [change_attempt] in Hrun.
  - inv_run Hrun. by subst.
  - destruct (_ || _); [by eapply OfferAssignment_run|by apply IH].
Qed.

Lemma SaveAssignment_run w n env s u s' :
  SaveAssignment w n env s = Ok (u, s') →
  ∃ before d', baselines s !! w_ID w = Some before ∧ saveable before w n = true
    ∧ UpdateAssignmentAttempt (attempt_row w None None) n (db s) = Ok (d', 1)
    ∧ quiet (s <| db := d' |>) s'.
Proof.
  unfold SaveAssignment, record_attempt, refuse. intros Hrun. inv_run Hrun.
  apply Z.eqb_eq in Hrun0. subst. apply negb_false_iff in Hb.
  do 2 eexists. split; [reflexivity|]. split; [exact Hb|]. split; [eassumption|]. split; reflexivity.
Qed.

Lemma FindCancellation_run id env s k s' :
  FindCancellation id env s = Ok (k, s') →
  ∃ kid row, parseID id = Ok kid ∧ GetCancellation kid (db s) = Some row ∧ k = fromCancellation row
    ∧ quiet s s' ∧ is_Some (locked s !! k_OrderID k).
Proof.
  unfold FindCancellation. intros Hrun. inv_run Hrun.
  apply require_aggregate_run in Hrun2 as (-> & Hl & _). subst.
  destruct (GetCancellation a (db s)) as [row|] eqn:Hrow; [|done].
  apply Ok_inj in Hrun1 as <-. exists a, row. done.
Qed.

Lemma SaveCancellation_run w n env s u s' :
  SaveCancellation w n env s = Ok (u, s') →
  ∃ d', UpdateCancellation (cancellation_row w) n (db s) = Ok (d', 1) ∧ quiet (s <| db := d' |>) s'.
Proof.
  unfold SaveCancellation, refuse. intros Hrun. inv_run Hrun; apply Z.eqb_eq in Hrun0; subst;
    eexists; (split; [eassumption|split; reflexivity]).
Qed.

(** ** The effect on the order *)

Context `{!UUIDLaws, !UUIDFold}.

Lemma aggregate_quiet base s s' : quiet s s' → aggregate_inv base s → aggregate_inv base s'.
Proof. unfold aggregate_inv. intros [-> -> _ -> _]. done. Qed.

Lemma aggregate_opened d uid row o s :
  Inv d → db s = d → locked s = ∅ → orders d !! uid = Some row → fromOrder row = Ok o →
  aggregate_inv d (opened s uid o).
Proof.
  intros HI Hd Hl Hrow Ho. unfold aggregate_inv. cbn. rewrite Hd, Hl. split; [done|]. split; [done|].
  intros id o' [[<- <-]|[_ Hlk]]%lookup_insert_Some _; [eauto|]. by rewrite lookup_empty in Hlk.
Qed.

(** A successful Apply replaces one row. *)
Lemma Apply_run base c env s u s' :
  aggregate_inv base s → Apply c env s = Ok (u, s') →
  ∃ before row r d0, row_written c before (db s) d0 row r ∧ toOrder (c_Order c) = Ok row
    ∧ validated before c ∧ orders (db s') = <[r_ID row := r]> (orders (db s))
    ∧ match before with
      | None => c_ExpectedRevision c = 0
      | Some o => locked s !! o_ID (c_Order c) = Some o
      end.
Proof.
  intros Hs Hrun. unfold Apply in Hrun. apply run_catch_fail in Hrun; [|done].
  destruct (apply_body_written _ _ _ _ _ Hrun) as (before&row&d0&d1&s1&s2&s3&actor&Hw).
  destruct (order_written _ _ _ _ _ _ _ _ _ _ _ _ Hs Hw) as [r Hr].
  destruct (written_tables _ _ _ _ _ _ _ _ _ _ _ _ _ Hs Hw Hr) as [rows Ht].
  exists before, row, r, d0. split; [done|]. split; [apply Hw|]. split; [apply Hw|]. split; [apply Ht|].
  pose proof (wb_before _ _ _ _ _ _ _ _ _ _ _ _ Hw) as Hb. destruct before; [apply Hb|done].
Qed.

(** What an applied change did to the row it changed. *)
Lemma Apply_row base s c env u s' id row row' :
  aggregate_inv base s → Apply c env s = Ok (u, s') →
  orders (db s) !! id = Some row → orders (db s') !! id = Some row' → row' ≠ row →
  ∃ b, validated (Some b) c ∧ fromOrder row = Ok b ∧ id = o_ID (c_Order c) ∧ row_ok id row
    ∧ locked s !! id = Some b
    ∧ r_Status row' = o_Status (c_Order c) ∧ parse_opt (o_CourierID (c_Order c)) = Ok (r_CourierID row')
    ∧ r_RewardCredits row' = o_RewardCredits (c_Order c)
    ∧ r_ReservedCredits row' = o_ReservedCredits (c_Order c).
Proof.
  intros Hs Hrun Hrow Hrow' Hne. destruct (Apply_run _ _ _ _ _ _ Hs Hrun)
    as (before & r0 & r & d0 & Hw & Hto & Hv & Hord & Hlk).
  rewrite Hord in Hrow'. apply lookup_insert_Some in Hrow' as [[<- <-]|[_ Hrow']]; [|congruence].
  pose proof (rw_old _ _ _ _ _ _ Hw) as Hold. destruct before as [b|]; [|congruence].
  destruct Hold as (old & Hold & Hb & Hid & _). rewrite Hrow in Hold. apply (inj Some) in Hold as <-.
  destruct Hs as [HI _]. pose proof (oi_row _ _ _ (inv_orders _ HI _ _ Hrow)) as Hok.
  destruct (toOrder_fields _ _ Hto) as (_ & _ & Hc & _).
  exists b. rewrite <- Hid in Hlk. repeat (split; [first [done|apply Hw]|]). rewrite (rw_courier _ _ _ _ _ _ Hw).
  split; [done|apply Hw].
Qed.

Lemma Apply_delivered base s c env u s' id row row' :
  aggregate_inv base s → Apply c env s = Ok (u, s') →
  orders (db s) !! id = Some row → orders (db s') !! id = Some row' → row' ≠ row →
  r_DeliveredAt row' = stored_times (o_DeliveredAt (c_Order c)).
Proof.
  intros Hs Hrun Hrow Hrow' Hne. destruct (Apply_run _ _ _ _ _ _ Hs Hrun)
    as (before & r0 & r & d0 & Hw & _ & _ & Hord & _).
  rewrite Hord in Hrow'. apply lookup_insert_Some in Hrow' as [[_ <-]|[_ Hrow']]; [|congruence]. apply Hw.
Qed.

Lemma assignment_Apply_run c env s u s' :
  assignment_Apply c env s = Ok (u, s') → ∃ s1, quiet s s1 ∧ Apply c env s1 = Ok (u, s').
Proof.
  unfold assignment_Apply, refuse. intros Hrun. inv_run Hrun.
  match goal with Hx : attempt_of _ _ _ = _ |- _ => apply attempt_of_run in Hx end. eauto.
Qed.

(** A committed assignment transaction. *)
Lemma assign_mutate_run {A} id (build : Order → list Offer → TX (A * option Change)) env d a s :
  assign_mutate id None build env (start d) = Ok (a, s) →
  ∃ uid row o ch s2, parseID id = Ok uid ∧ orders d !! uid = Some row ∧ fromOrder row = Ok o
    ∧ o_ID o = uid ∧ build o (OrderOffers uid d) env (opened (start d) uid o) = Ok ((a, ch), s2)
    ∧ match ch with
      | None => s = s2
      | Some c => c_ExpectedRevision c = o_Revision o
          ∧ ∃ s3 u, quiet s2 s3 ∧ Apply c env s3 = Ok (u, s)
      end.
Proof.
  unfold assign_mutate, WithinAssignment, lock_scope. intros Hrun. inv_run Hrun. subst.
  match goal with Hx : Mutate _ _ _ _ _ = _ |- _ => rename Hx into Hm end.
  apply Mutate_run in Hm as (uid & row & o & ch & s2 & Hid & Hrow & Ho & Hoid & Hbuild & Hch); [|done].
  unfold validated_build in Hbuild. apply bind_ok in Hbuild as ([b ch'] & s1 & Hb & Hbuild).
  exists uid, row, o. destruct ch' as [c|]; cbn in Hbuild.
  - apply bind_ok in Hbuild as (w & s3 & Hw & Hbuild). apply attempt_of_run in Hw.
    inv_run Hbuild. injection Hbuild as -> <-. subst. destruct Hch as (He & u & Ha).
    apply assignment_Apply_run in Ha as (s4 & Hq & Ha). exists (Some c), s1.
    repeat (split; [done|]). exists s4, u. split; [by etransitivity|done].
  - inv_run Hbuild. injection Hbuild as -> <-. subst. exists None, s1. done.
Qed.

(** A committed cancellation transaction without a request key. *)
Lemma cancel_mutate_run {A} id (build : Order → list Offer → TX (A * option Change)) env d a s :
  cancel_mutate id None build env (start d) = Ok (a, s) →
  ∃ uid row o ch s2, parseID id = Ok uid ∧ orders d !! uid = Some row ∧ fromOrder row = Ok o
    ∧ o_ID o = uid ∧ build o (OrderOffers uid d) env (opened (start d) uid o) = Ok ((a, ch), s2)
    ∧ match ch with
      | None => s = s2
      | Some c => c_ExpectedRevision c = o_Revision o ∧ ∃ u, Apply c env s2 = Ok (u, s)
      end.
Proof.
  unfold cancel_mutate, WithinCancellation, check_retained. intros Hrun. inv_run Hrun. subst.
  match goal with Hx : Mutate _ _ _ _ _ = _ |- _ => by apply Mutate_run in Hx end.
Qed.

End runs.
