(* ===== verification/OrderExamples.v ===== *)
(** * Order: a concrete run

    One order from creation to receipt, evaluated step by step, and the other
    ways it may end: the inputs at which the theorems about orders are
    exercised. Identifiers are parsed by a concrete parser of lower-case
    canonical text. *)
From stdpp Require Import prelude gmap strings list relations.
From Stdlib Require Import ZArith Lia Ascii.
From S2P Require Import Prelude.
From S2P Require Import GoLib.
From S2P Require Import GoText.
From S2P Require Import OrderTypes.
From S2P Require Import OrderPolicy.
From S2P Require Import OrderDB.
From S2P Require Import OrderStore.
From S2P Require Import OrderProgress.
From S2P Require Import OrderAssignment.
From S2P Require Import OrderCancellation.
From S2P Require Import OrderCreationStore.
From S2P Require Import OrderCreation.
From S2P Require Import OrderProofs.
From S2P Require Import OrderOutbox.
From S2P Require Import OrderFacts.
From S2P Require Import OrderSteps.

Local Open Scope Z_scope.
Local Open Scope foc_scope.

(** Every letter is lower case. *)
Fixpoint lower (s : string) : bool :=
  match s with
  | EmptyString => true
  | String c s' => (fold_byte c =? code c) && lower s'
  end.

Definition lower_uuid : UUID := λ s,
  if decide (String.length s = 36%nat ∧ lower s = true) then Some s else None.

Lemma lower_uuid_some s t : lower_uuid s = Some t → t = s ∧ lower s = true ∧ s ≠ EmptyString.
Proof. unfold lower_uuid. case_decide as Hd; intros [= <-]. destruct Hd. split; [done|]. split; [done|]. by intros ->. Qed.

Lemma lower_fold s t : lower s = true → lower t = true → EqualFold s t = true → s = t.
Proof.
  revert t. induction s as [|a s IH]; intros [|b t] Hs Ht Hf; try done. simpl in *.
  apply andb_prop in Hs as [Ha%Z.eqb_eq Hs], Ht as [Hb%Z.eqb_eq Ht], Hf as [Hab%Z.eqb_eq Hf].
  f_equal; [|by apply IH]. rewrite Ha, Hb in Hab. unfold code in Hab.
  rewrite <- (ascii_N_embedding a), <- (ascii_N_embedding b). f_equal. lia.
Qed.

#[export] Instance ex_lower_uuid : UUID := lower_uuid.
#[export] Instance ex_lower_laws : UUIDLaws.
Proof.
  split; unfold uuid_parse, ex_lower_uuid.
  - intros s t Hp. by destruct (lower_uuid_some s t Hp) as (-> & _).
  - by intros s t (-> & _ & ?)%lower_uuid_some.
  - done.
Qed.
#[export] Instance ex_lower_fold : UUIDFold.
Proof.
  unfold UUIDFold, uuid_parse, ex_lower_uuid.
  intros s s' t t' (-> & ? & _)%lower_uuid_some (-> & ? & _)%lower_uuid_some. by apply lower_fold.
Qed.
#[export] Instance ex_order_digest : Digest := λ _,
  "0123456789abcdef0123456789abcdef0123456789abcdef0123456789abcdef".

(** ** Parties and surroundings *)

Definition id_of (tag : string) : string := "00000000-0000-4000-8000-00000000" +:+ tag.
Definition requester : string := id_of "000a".
Definition courier : string := id_of "000b".
Definition the_order : string := id_of "d000".
Definition key_1 : string := id_of "0e01".
Definition caller_of (id : string) : Caller := {| cl_ID := id; cl_Admin := false; cl_Suspended := false |}.

Definition digit (n : nat) : string :=
  match n with 0%nat => "0" | 1%nat => "1" | 2%nat => "2" | 3%nat => "3" | _ => "4" end.

(** [env_at h tag]: the surroundings of a call [h] hours into the year 2. *)
Definition day_0 : Time := 400 * 24 * Hour.
Definition env_at (h : Z) (tag : string) : Env := {|
  now_ := day_0 + h * Hour; newID := λ n, id_of (tag +:+ digit n);
  server_time := day_0 + h * Hour; jitter := λ _, 0 |}.

Definition place (tag : string) : LocationSnapshot :=
  {| LocationID := id_of tag; Name := "Library"; BuildingName := "Central"; Floor := Some "2" |}.

(** ** Creation *)

(** Stands for an order that is not there. *)
Definition no_order : Order :=
  new_order EmptyString EmptyString
    {| in_Key := EmptyString; in_PickupID := EmptyString; in_DeliveryID := EmptyString;
       in_Instructions := None; in_ItemDescription := EmptyString; in_ImageIDs := [];
       in_RewardCredits := 0; in_DeliveryDuration := 0; in_ExpiresAt := 0 |}
    {| LocationID := EmptyString; Name := EmptyString; BuildingName := EmptyString; Floor := None |}
    {| LocationID := EmptyString; Name := EmptyString; BuildingName := EmptyString; Floor := None |} 0.

Definition request_input : CreateInput := {|
  in_Key := id_of "0e00"; in_PickupID := id_of "0f01"; in_DeliveryID := id_of "0f02";
  in_Instructions := Some "Ring twice"; in_ItemDescription := "A book"; in_ImageIDs := [];
  in_RewardCredits := 20; in_DeliveryDuration := Hour; in_ExpiresAt := day_0 + 10 * Hour |}.

Definition the_creator : Creator := {|
  ct_enabled := true; ct_credit := true; ct_images := None;
  ct_locations := Some (λ id, Ok {| sl_Snapshot :=
    {| LocationID := id; Name := "Library"; BuildingName := "Central"; Floor := Some "2" |};
    sl_Archived := false |}) |}.

(** Credit holds what it was asked to reserve. *)
Definition credit_reserved : CreationCredit := {|
  cc_Reserve := λ _, Acknowledged; cc_ReleaseExpired := λ _, Acknowledged;
  cc_GetReservation := λ id, Some {|
    vw_OrderID := id; vw_RequesterID := requester; vw_OriginalAmount := 20; vw_ReservedAmount := 20;
    vw_State := ReservationHeld |} |}.
Definition creation_round (h : Z) (tag tag' : string) (credit : CreationCredit) : CreationRound := {|
  cn_busy := false; cn_claim := (env_at h tag, no_faults); cn_credit := credit;
  cn_meanwhile := λ d, d; cn_finish := (env_at h tag', no_faults) |}.

Definition creation_call (rounds : list CreationRound) : Creation := {|
  cx_find := (env_at 0 "d01", no_faults); cx_clock := day_0; cx_recheck := (env_at 0 "d02", no_faults);
  cx_meanwhile := λ d, d; cx_admit := (env_at 0 "d00", no_faults);
  cx_resume := {| rs_rounds := rounds; rs_outcome := (env_at 1 "d03", no_faults) |} |}.
Definition create_run (rounds : list CreationRound) : option (result Error Order) * ODB :=
  Create_ the_creator (creation_call rounds) (caller_of requester) request_input empty_odb.

(** ** Delivery *)

Definition photo : string := "a photo".
Definition proofs_service : Proofs := {|
  ps_grants := Some {| ProofSigningEpoch := Some ("epoch-1", 0);
    CreateProofGrant := λ u, Some {| ug_URL := "https://storage.invalid"; ug_Method := "PUT";
                                     ug_ExpiresAt := pu_ExpiresAt u |} |};
  ps_objects := Some {|
    Inspect := λ _, Inspected {| oi_Exists := true; oi_Size := 7; oi_ContentType := "image/png" |};
    ReadProof := λ _, ReadBody photo; CreateDownload := λ _, None |};
  ps_validator := Some (λ _ _, Ok tt); ps_outages := false; ps_uploadScope := "orders";
  ps_outageScope := "orders"; ps_testNow := None; ps_slot := λ _, true |}.
Definition two_steps (h : Z) (tag tag' : string) : TwoSteps := {|
  ts_first := (env_at h tag, no_faults); ts_meanwhile := λ d, d; ts_second := (env_at h tag', no_faults) |}.
Definition photo_input : ProofUploadInput := {|
  pi_OrderID := the_order; pi_UploadID := id_of "0e0f"; pi_ContentType := "image/png"; pi_SizeBytes := 7 |}.
Definition the_proof : string := id_of "d040".
Definition delivery_input : ConfirmDeliveryInput := {|
  cd_OrderID := the_order; cd_ProofIDs := [the_proof]; cd_Unattended := false; cd_WithoutProof := false |}.

(** ** The run *)

Definition after {A} (env : Env) (fn : TX A) (d : ODB) : ODB := (within_tx env no_faults fn d).2.

Definition d_created : ODB := (create_run []).2.
Definition creation_1 : CreationRound := creation_round 1 "c00" "c01" credit_reserved.
Definition d_confirmed : ODB := (ProcessCreation [creation_1] the_order d_created).2.

Definition credit_assigned : AssignmentCredit := {|
  Adjust := λ _, Acknowledged; Revert := λ _ _, Acknowledged;
  GetAssignmentReservation := λ id, Some {|
    v_OrderID := id; v_RequesterID := requester; v_OriginalAmount := 20; v_ReservedAmount := 20;
    v_State := "assigned"; v_OfferID := id_of "c021"; v_CourierID := courier |} |}.
Definition round (h : Z) (tag tag' : string) (credit : AssignmentCredit) : Round := {|
  rd_claim := (env_at h tag, no_faults); rd_credit := credit; rd_meanwhile := λ d, d;
  rd_finish := (env_at h tag', no_faults) |}.

Definition accept_run := AcceptOrder true [round 2 "c03" "c04" credit_assigned] (caller_of courier)
  the_order key_1 (env_at 2 "c02") (env_at 2 "c05") no_faults no_faults d_confirmed.
Definition d_assigned : ODB := accept_run.2.
Definition d_picked_up : ODB :=
  after (env_at 3 "c06") (ConfirmPickup (caller_of courier) the_order) d_assigned.
Definition d_uploaded : ODB :=
  (proof_CreateUpload proofs_service (two_steps 4 "d04" "d05") (caller_of courier) photo_input d_picked_up).2.
Definition d_verified : ODB :=
  (VerifyUpload proofs_service (two_steps 4 "d06" "d07") (caller_of courier) the_order the_proof d_uploaded).2.
Definition delivery_run : result Error Order * ODB :=
  ConfirmDelivery proofs_service (env_at 4 "d08", no_faults) (two_steps 4 "d09" "d10")
    (env_at 4 "d11", no_faults) (Err ErrUnavailable) (caller_of courier) delivery_input d_verified.
Definition d_delivered : ODB := delivery_run.2.
Definition d_completed : ODB :=
  after (env_at 5 "c08") (ConfirmReceipt_ (caller_of requester) the_order) d_delivered.

Definition status_in (d : ODB) : option Status := r_Status <$> orders d !! the_order.

Example run_statuses :
  (status_in <$> [d_created; d_confirmed; d_assigned; d_picked_up; d_delivered; d_completed])
  = Some <$> [PendingReservation; AwaitingCourier; AwaitingPickup; Delivering; Delivered; Completed].
Proof. vm_compute. reflexivity. Qed.

(** The same creation in one call. *)
Example created_at_once :
  status_in (create_run [creation_1]).2 = Some AwaitingCourier
  ∧ fmap is_ok (create_run [creation_1]).1 = Some true.
Proof. vm_compute. split; reflexivity. Qed.

(** A requester without credits is refused, and an expired hold is released. *)
Definition credit_broke : CreationCredit := {|
  cc_Reserve := λ _, CreditInsufficient; cc_ReleaseExpired := λ _, Acknowledged;
  cc_GetReservation := λ _, None |}.
Definition credit_released : CreationCredit := {|
  cc_Reserve := λ _, Acknowledged; cc_ReleaseExpired := λ _, Acknowledged;
  cc_GetReservation := λ id, Some {|
    vw_OrderID := id; vw_RequesterID := requester; vw_OriginalAmount := 20; vw_ReservedAmount := 0;
    vw_State := ReservationIsReleased |} |}.

Example creation_refused :
  status_in (ProcessCreation [creation_round 1 "c00" "c01" credit_broke] the_order d_created).2
  = Some Rejected.
Proof. vm_compute. reflexivity. Qed.

Example creation_aborted :
  status_in (ProcessCreation [creation_round 11 "c00" "c01" credit_released] the_order d_created).2
  = Some Rejected.
Proof. vm_compute. reflexivity. Qed.

(** ** The assignment, step by step *)

Definition the_attempt : string := id_of "c021".
Definition round_1 : Round := round 2 "c03" "c04" credit_assigned.
Definition d_admitted : ODB :=
  after (env_at 2 "c02") (accept_order_tx true (caller_of courier) the_order key_1) d_confirmed.
Definition claim_1 := claim_step round_1 the_order the_attempt d_admitted.
Definition no_attempt : AssignmentAttempt := fromAssignment {|
  at_ID := EmptyString; at_OrderID := EmptyString; at_OfferID := None; at_CallerID := EmptyString;
  at_CourierID := EmptyString; at_Method := EmptyString; at_IdempotencyKey := None;
  at_RequestHash := EmptyString; at_Amount := 0; at_OriginalAmount := 0; at_Phase := AssignmentRejected;
  at_Generation := 0; at_Attempts := 0; at_LeaseUntil := 0; at_NextAttemptAt := 0;
  at_Rejection := EmptyString; at_CreatedAt := 0; at_UpdatedAt := 0 |}.
Definition claimed_1 : AssignmentAttempt :=
  match claim_1.1 with Ok (Some w) => w | _ => no_attempt end.
Definition d_claimed : ODB := claim_1.2.

Example claim_then_finish :
  (finish_step round_1 the_order the_attempt claimed_1 d_claimed).1 = Ok false
  ∧ status_in (finish_step round_1 the_order the_attempt claimed_1 d_claimed).2 = Some AwaitingPickup.
Proof. vm_compute. split; reflexivity. Qed.

(** ** A withdrawal, step by step *)

Definition the_withdrawal : string := id_of "c090".
Definition credit_held : AssignmentCredit := {|
  Adjust := λ _, Acknowledged; Revert := λ _ _, Acknowledged;
  GetAssignmentReservation := λ id, Some {|
    v_OrderID := id; v_RequesterID := requester; v_OriginalAmount := 20; v_ReservedAmount := 20;
    v_State := "held"; v_OfferID := EmptyString; v_CourierID := EmptyString |} |}.
Definition round_2 : Round := round 3 "c10" "c11" credit_held.
Definition withdraw_request : cancel_request := {|
  cq_CallerID := courier; cq_OrderID := the_order; cq_Reason := "Bicycle broke down"; cq_Key := None |}.
Definition d_withdrawing : ODB :=
  after (env_at 3 "c09") (cancel_tx true withdraw_request None) d_assigned.
Definition claim_withdrawal : TX (option Cancellation) :=
  cancel_mutate the_order None (claim_cancellation_build the_withdrawal).
Definition claim_2 := within_tx (env_at 3 "c10") no_faults claim_withdrawal d_withdrawing.
Definition claimed_2 : Cancellation :=
  match claim_2.1 with
  | Ok (Some k) => k
  | _ => new_cancellation EmptyString no_order EmptyString EmptyString 0
  end.

Example withdrawal_reopens :
  (ProcessCancellation round_2 the_withdrawal d_withdrawing).1 = Ok tt
  ∧ status_in (ProcessCancellation round_2 the_withdrawal d_withdrawing).2 = Some AwaitingCourier.
Proof. vm_compute. split; reflexivity. Qed.
