(* ===== verification/OrderCalls.v ===== *)
(** * Order: calls are sequences of steps

    An operation of several transactions is a sequence of steps of the service,
    when what others do in between is one; so every state of the example run is
    reachable. *)
From stdpp Require Import prelude gmap strings list relations.
From Stdlib Require Import ZArith Lia.
From S2P Require Import Prelude.
From S2P Require Import GoLib.
From S2P Require Import GoText.
From S2P Require Import OrderTypes.
From S2P Require Import OrderPolicy.
From S2P Require Import OrderDB.
From S2P Require Import OrderStore.
From S2P Require Import OrderCreationStore.
From S2P Require Import OrderProofStore.
From S2P Require Import OrderProgress.
From S2P Require Import OrderAssignment.
From S2P Require Import OrderCancellation.
From S2P Require Import OrderCreation.
From S2P Require Import OrderProofs.
From S2P Require Import OrderSteps.
From S2P Require Import OrderExamples.

Local Open Scope Z_scope.
Local Open Scope foc_scope.

Section operations.
  Context `{UUID, Digest}.

Definition fair (r : Round) : Prop := ∀ d, rtc order_step d (rd_meanwhile r d).

Lemma within_steps {A} env fl (fn : TX A) d :
  operation fn → rtc order_step d (within_tx env fl fn d).2.
Proof. intros Hop. apply rtc_once. by constructor. Qed.

Lemma claim_steps r orderID attemptID d : rtc order_step d (claim_step r orderID attemptID d).2.
Proof. apply within_steps, op_claim. Qed.
Lemma finish_steps r orderID attemptID claimed d :
  rtc order_step d (finish_step r orderID attemptID claimed d).2.
Proof. apply within_steps, op_finish. Qed.

Lemma ProcessAssignment_steps rounds attemptID d :
  Forall fair rounds → rtc order_step d (ProcessAssignment rounds attemptID d).2.
Proof.
  intros Hf. revert d. induction Hf as [|r rounds Hr _ IH]; intros d; cbn [ProcessAssignment];
    destruct (AssignmentOrderID attemptID d) as [orderID|e]; try apply rtc_refl.
  pose proof (claim_steps r orderID attemptID d) as H1'.
  destruct (claim_step r orderID attemptID d) as [[[claimed|]|e] d1]; [|exact H1'|exact H1'].
  cbn [snd] in H1'. etransitivity; [exact H1'|]. etransitivity; [apply Hr|].
  pose proof (finish_steps r orderID attemptID claimed (rd_meanwhile r d1)) as H2'.
  destruct (finish_step r orderID attemptID claimed (rd_meanwhile r d1)) as [[[]|e] d2];
    [|exact H2'|exact H2'].
  etransitivity; [exact H2'|apply IH].
Qed.

Lemma resumed_steps caller a processed env fl d :
  rtc order_step d (resumed caller a processed env fl d).2.
Proof. unfold resumed. destruct processed; [apply within_steps, op_result|apply rtc_refl]. Qed.

Lemma resumeAssignment_steps configured rounds caller a env fl d :
  Forall fair rounds → rtc order_step d (resumeAssignment configured rounds caller a env fl d).2.
Proof.
  intros Hf. unfold resumeAssignment. pose proof (ProcessAssignment_steps rounds (w_ID a) d Hf) as Hp.
  destruct (_ && _).
  - destruct (ProcessAssignment rounds (w_ID a) d) as [[processed|] d1]; [|exact Hp].
    pose proof (resumed_steps caller a processed env fl d1) as Hr.
    destruct (resumed _ _ _ _ _ d1). etransitivity; [exact Hp|exact Hr].
  - pose proof (resumed_steps caller a (Ok tt) env fl d) as Hr.
    destruct (resumed _ _ _ _ _ d). exact Hr.
Qed.

Lemma AcceptOrder_steps configured rounds caller orderID key env env' fl fl' d :
  Forall fair rounds →
  rtc order_step d (AcceptOrder configured rounds caller orderID key env env' fl fl' d).2.
Proof.
  intros Hf. unfold AcceptOrder. destruct (assignmentCaller caller) as [c|]; [|apply rtc_refl].
  pose proof (within_steps env fl _ d (op_accept_order configured caller orderID key)) as Ht.
  destruct (within_tx env fl _ d) as [[attempt|e] d1]; [|exact Ht].
  etransitivity; [exact Ht|]. by apply resumeAssignment_steps.
Qed.

Lemma AcceptOffer_steps configured rounds caller offerID env env' fl fl' d :
  Forall fair rounds →
  rtc order_step d (AcceptOffer configured rounds caller offerID env env' fl fl' d).2.
Proof.
  intros Hf. unfold AcceptOffer. destruct (_ ≫= _) as [[[c id] orderID]|]; [|apply rtc_refl].
  pose proof (within_steps env fl _ d (op_accept_offer configured c id orderID)) as Ht.
  destruct (within_tx env fl _ d) as [[attempt|e] d1]; [|exact Ht].
  etransitivity; [exact Ht|]. by apply resumeAssignment_steps.
Qed.

Lemma ProcessCancellation_steps r operationID d :
  fair r → rtc order_step d (ProcessCancellation r operationID d).2.
Proof.
  intros Hr. unfold ProcessCancellation.
  destruct (CancellationOrderID operationID d) as [id|]; [|apply rtc_refl].
  pose proof (within_steps (rd_claim r).1 (rd_claim r).2 _ d (op_claim_cancel operationID id)) as Hc.
  destruct (within_tx _ _ _ d) as [[[claimed|]|e] d1]; [|exact Hc|exact Hc].
  etransitivity; [exact Hc|]. etransitivity; [apply Hr|]. apply within_steps, op_finish_cancel.
Qed.

Lemma cancel_steps configured r caller orderID reason key revision env env' fl fl' d :
  fair r → rtc order_step d (cancel configured r caller orderID reason key revision env env' fl fl' d).2.
Proof.
  intros Hr. unfold cancel. destruct (cancel_args _ _ _ _ _) as [q|]; [|apply rtc_refl].
  pose proof (within_steps env fl _ d (op_cancel configured q revision)) as Ht.
  destruct (within_tx env fl _ d) as [[operation|e] d1]; [|exact Ht].
  etransitivity; [exact Ht|]. cbn [snd].
  pose proof (ProcessCancellation_steps r (k_ID operation) d1 Hr) as Hp.
  destruct (_ && _); [destruct (ProcessCancellation r (k_ID operation) d1) as [[u|e] d2]|].
  - etransitivity; [exact Hp|]. apply within_steps, op_cancel_result.
  - exact Hp.
  - apply within_steps, op_cancel_result.
Qed.

(** *** Creation *)

Definition undisturbed (f : ODB → ODB) : Prop := ∀ d, rtc order_step d (f d).
Definition fair_creation (r : CreationRound) : Prop := undisturbed (cn_meanwhile r).

Lemma ProcessCreation_steps rounds orderID d :
  Forall fair_creation rounds → rtc order_step d (ProcessCreation rounds orderID d).2.
Proof.
  intros Hf. revert d. induction Hf as [|r rounds Hr _ IH]; intros d; cbn [ProcessCreation]; [apply rtc_refl|].
  unfold creation_claim_step, creation_finish_step.
  pose proof (within_steps (cn_claim r).1 (cn_claim r).2 _ d (op_claim_creation (cn_busy r) orderID)) as H1'.
  destruct (within_tx _ _ _ d) as [[[claimed|]|e] d1]; [|exact H1'|exact H1'].
  etransitivity; [exact H1'|]. etransitivity; [apply Hr|].
  set (ob := observeCreation _ _).
  pose proof (within_steps (cn_finish r).1 (cn_finish r).2 _ (cn_meanwhile r d1)
                (op_finish_creation orderID claimed ob)) as H2'.
  destruct (within_tx _ _ _ (cn_meanwhile r d1)) as [[[]|e] d2]; [|exact H2'|exact H2'].
  etransitivity; [exact H2'|apply IH].
Qed.

Lemma resume_steps configured rs replay hash d :
  Forall fair_creation (rs_rounds rs) → rtc order_step d (resume configured rs replay hash d).2.
Proof.
  intros Hf. unfold resume. destruct (CheckRequestHash _ _); [|apply rtc_refl].
  set (id := cw_OrderID _).
  assert (∀ d1, rtc order_step d1 (within_tx (rs_outcome rs).1 (rs_outcome rs).2 (creation_outcome id) d1).2) as Ho
    by (intros; apply within_steps, op_creation_outcome).
  destruct (_ && configured).
  - pose proof (ProcessCreation_steps (rs_rounds rs) id d Hf) as Hp.
    destruct (ProcessCreation _ id d) as [[[u|e]|] d1]; [|exact Hp|exact Hp].
    specialize (Ho d1). destruct (within_tx _ _ _ d1). etransitivity; [exact Hp|exact Ho].
  - specialize (Ho d). destruct (within_tx _ _ _ d). exact Ho.
Qed.

Lemma Create_steps s x c input d :
  Forall fair_creation (rs_rounds (cx_resume x)) → undisturbed (cx_meanwhile x) →
  rtc order_step d (Create_ s x c input d).2.
Proof.
  intros Hf Hm. unfold Create_. destruct (_ || _); [apply rtc_refl|].
  destruct (parseID (cl_ID c)) as [uid|] eqn:Hid; [|apply rtc_refl].
  destruct (canonicalCreation input) as [[[i canonical] hash]|] eqn:Hcan; [|apply rtc_refl].
  pose proof (within_steps (cx_find x).1 (cx_find x).2 _ d (op_find_creation uid (in_Key i))) as H1'.
  destruct (within_tx _ _ _ d) as [[[replay|]|e] d1]; [| |exact H1'].
  { etransitivity; [exact H1'|by apply resume_steps]. }
  destruct (preflight _ _ _ _ d1) as [[[pickup delivery] items]|[[] cause]]; [| |exact H1'].
  - etransitivity; [exact H1'|]. etransitivity; [apply Hm|].
    pose proof (within_steps (cx_admit x).1 (cx_admit x).2 _ (cx_meanwhile x d1)
                  (op_admit_creation (cl_ID c) uid input i canonical hash pickup delivery items Hid Hcan)) as H2'.
    destruct (within_tx _ _ _ (cx_meanwhile x d1)) as [[replay|e] d2]; [|exact H2'].
    etransitivity; [exact H2'|by apply resume_steps].
  - etransitivity; [exact H1'|]. etransitivity; [apply Hm|]. unfold recheckCreation.
    pose proof (within_steps (cx_recheck x).1 (cx_recheck x).2 _ (cx_meanwhile x d1)
                  (op_find_creation uid (in_Key i))) as H2'.
    destruct (within_tx _ _ _ (cx_meanwhile x d1)) as [[[replay|]|e] d2]; [|exact H2'|exact H2'].
    etransitivity; [exact H2'|by apply resume_steps].
Qed.

(** *** Delivery *)

Definition fair_steps (x : TwoSteps) : Prop := undisturbed (ts_meanwhile x).

Lemma CreateUpload_steps s x c i d : fair_steps x → rtc order_step d (proof_CreateUpload s x c i d).2.
Proof.
  intros Hx. unfold proof_CreateUpload. destruct (_ ≫= _) as [[[[[co order] id] grants] [epoch expiry]]|];
    [|apply rtc_refl].
  set (i' := {| pi_OrderID := order; pi_UploadID := id; pi_ContentType := pi_ContentType i; pi_SizeBytes := pi_SizeBytes i |}).
  pose proof (within_steps (ts_first x).1 (ts_first x).2 _ d (op_upload s co i' epoch expiry order)) as H1'.
  destruct (within_tx _ _ _ d) as [[u|e] d1]; [|exact H1'].
  destruct (CreateProofGrant grants u) as [g|]; [|exact H1']. destruct (_ && _); [|exact H1'].
  etransitivity; [exact H1'|]. etransitivity; [apply Hx|].
  pose proof (within_steps (ts_second x).1 (ts_second x).2 _ (ts_meanwhile x d1) (op_granted s co u g order)) as H2'.
  by destruct (within_tx _ _ _ (ts_meanwhile x d1)) as [[]].
Qed.

Lemma VerifyUpload_steps s x c orderID proofID d :
  fair_steps x → rtc order_step d (VerifyUpload s x c orderID proofID d).2.
Proof.
  intros Hx. unfold VerifyUpload. destruct (_ ≫= _) as [[[co order] id]|]; [|apply rtc_refl].
  pose proof (within_steps (ts_first x).1 (ts_first x).2 _ d (op_verify s co id order)) as H1'.
  destruct (within_tx _ _ _ d) as [[u|e] d1]; [|exact H1'].
  destruct (verifyObject s u); [|exact H1'].
  etransitivity; [exact H1'|]. etransitivity; [apply Hx|]. apply within_steps, op_verified.
Qed.

Lemma confirmReceipt_steps s x authority c i receipt d :
  fair_steps x → rtc order_step d (confirmReceipt s x authority c i receipt d).2.
Proof.
  intros Hx. unfold confirmReceipt. destruct (normalized_input c i) as [[co i']|]; [|apply rtc_refl].
  pose proof (within_steps (ts_first x).1 (ts_first x).2 _ d (op_confirm_first s co i' receipt (cd_OrderID i'))) as H1'.
  destruct (within_tx _ _ _ d) as [[[o|us]|e] d1]; [exact H1'| |exact H1'].
  destruct (delivery_evidence _ _ _ _ _ _) as [outage|]; [|exact H1'].
  etransitivity; [exact H1'|]. etransitivity; [apply Hx|]. apply within_steps, op_confirm_second.
Qed.

Lemma process_steps s x fin authority r d :
  fair_steps x → rtc order_step d (process s x fin authority r d).2.
Proof.
  intros Hx. unfold process.
  set (co := {| cl_ID := dr_CourierID r; cl_Admin := false; cl_Suspended := false |}).
  pose proof (confirmReceipt_steps s x authority co (receipt_input r) (Some r) d Hx) as H1'.
  destruct (confirmReceipt _ _ _ _ _ _ d) as [[o|e] d1]; [exact H1'|].
  destruct (refuses_receipt e).
  - pose proof (within_steps fin.1 fin.2 _ d1 (op_finish_receipt r (dr_OrderID r))) as H2'.
    destruct (within_tx _ _ _ d1) as [[]]; (etransitivity; [exact H1'|exact H2']).
  - destruct (begin_fault fin.2); [exact H1'|]. etransitivity; [exact H1'|].
    etransitivity; apply rtc_once, step_statement; [apply st_retry_receipt|apply st_alert_receipt].
Qed.

Lemma ConfirmDelivery_steps s admission x fin authority c i d :
  fair_steps x → rtc order_step d (ConfirmDelivery s admission x fin authority c i d).2.
Proof.
  intros Hx. unfold ConfirmDelivery. destruct (normalized_input c i) as [[co i']|]; [|apply rtc_refl].
  set (asked := if _ : bool then Some authority else None).
  pose proof (within_steps admission.1 admission.2 _ d (op_admit_delivery s co i' asked (cd_OrderID i'))) as H1'.
  destruct (within_tx _ _ _ d) as [[[o|r]|e] d1]; [exact H1'| |exact H1'].
  etransitivity; [exact H1'|by apply process_steps].
Qed.

End operations.

(** ** The example run is reachable *)

Lemma round_fair h tag tag' credit : fair (round h tag tag' credit).
Proof. intros d. apply rtc_refl. Qed.
Lemma undisturbed_id : undisturbed (λ d, d).
Proof. intros d. apply rtc_refl. Qed.

Lemma two_steps_fair h tag tag' : fair_steps (two_steps h tag tag').
Proof. intros d. apply rtc_refl. Qed.

Lemma after_steps {A} env (fn : TX A) d d' :
  operation fn → rtc order_step d d' → rtc order_step d (after env fn d').
Proof. intros Hop Hd. etransitivity; [exact Hd|]. by apply within_steps. Qed.

Lemma reach_created : rtc order_step empty_odb d_created.
Proof. unfold d_created, create_run. apply Create_steps; [constructor|apply undisturbed_id]. Qed.
Lemma reach_confirmed : rtc order_step empty_odb d_confirmed.
Proof.
  etransitivity; [apply reach_created|]. unfold d_confirmed. apply ProcessCreation_steps.
  repeat constructor.
Qed.
Lemma reach_assigned : rtc order_step empty_odb d_assigned.
Proof.
  etransitivity; [apply reach_confirmed|]. unfold d_assigned, accept_run. apply AcceptOrder_steps. repeat constructor.
Qed.
Lemma reach_picked_up : rtc order_step empty_odb d_picked_up.
Proof. unfold d_picked_up. apply after_steps; [apply op_pickup|]. apply reach_assigned. Qed.

Lemma verify_steps : rtc order_step d_picked_up d_verified.
Proof.
  unfold d_verified, d_uploaded.
  etransitivity; [apply CreateUpload_steps, two_steps_fair|]. apply VerifyUpload_steps, two_steps_fair.
Qed.
Lemma deliver_steps : rtc order_step d_picked_up d_delivered.
Proof.
  etransitivity; [apply verify_steps|]. unfold d_delivered, delivery_run.
  apply ConfirmDelivery_steps, two_steps_fair.
Qed.

Lemma complete_steps : rtc order_step d_assigned d_completed.
Proof.
  unfold d_completed. apply after_steps; [apply op_receipt|].
  etransitivity; [|apply deliver_steps]. unfold d_picked_up. apply after_steps; [apply op_pickup|]. apply rtc_refl.
Qed.

Lemma reach_completed : rtc order_step empty_odb d_completed.
Proof. etransitivity; [apply reach_assigned|apply complete_steps]. Qed.

(** The row of the order in a state. *)
Definition row_in (d : ODB) : OrderRow :=
  match orders d !! the_order with
  | Some r => r
  | None => mkOrderRow EmptyString EmptyString None NoStatus JNull JNull None EmptyString 0 0 0 0
              None None None None None None None false 0 0 0 None
  end.
(** Only that the row exists is computed, not the row. *)
Definition has_row (d : ODB) : bool := match orders d !! the_order with Some _ => true | None => false end.
Lemma row_found d : has_row d = true → orders d !! the_order = Some (row_in d).
Proof. unfold has_row, row_in. by destruct (orders d !! the_order). Qed.
Lemma row_assigned : orders d_assigned !! the_order = Some (row_in d_assigned).
Proof. apply row_found. vm_compute. reflexivity. Qed.
Lemma row_completed : orders d_completed !! the_order = Some (row_in d_completed).
Proof. apply row_found. vm_compute. reflexivity. Qed.
