(* ===== verification/OrderProperties.v ===== *)
(** * Order: what holds of every reachable state

    The lifecycle policy as a relation, the soundness of every reachable state,
    the walk of each order through its lifecycle, and what later steps cannot
    undo; at the end what reads return and to whom. *)
From stdpp Require Import prelude gmap strings list relations sorting.
From Stdlib Require Import ZArith Lia.
From S2P Require Import Prelude.
From S2P Require Import GoLib.
From S2P Require Import GoText.
From S2P Require Import OrderTypes.
From S2P Require Import OrderPolicy.
From S2P Require Import OrderDB.
From S2P Require Import OrderStore.
From S2P Require Import OrderReads.
From S2P Require Import OrderProgress.
From S2P Require Import OrderAssignment.
From S2P Require Import OrderCancellation.
From S2P Require Import OrderCreationStore.
From S2P Require Import OrderProofStore.
From S2P Require Import OrderFacts.
From S2P Require Import OrderLogic.
From S2P Require Import OrderInvariant.
From S2P Require Import OrderAggregate.
From S2P Require Import OrderRecords.
From S2P Require Import OrderSteps.
From S2P Require Import OrderExamples.
From S2P Require Import OrderCalls.

Local Open Scope Z_scope.
Local Open Scope foc_scope.

(** ** The trail of an order *)

Definition moved_to (s s' : Status) : Prop := ∃ action, moves s action s'.

Section trail.
  Context `{UUID, !UUIDLaws, !UUIDFold, Digest}.

Lemma moved_to_terminal s s' : rtc moved_to s s' → IsTerminal s = true → s' = s.
Proof. destruct 1 as [s|s s1 s' [action Hm] _]; [done|]. by rewrite (moves_not_terminal _ _ _ Hm). Qed.

(** From revision [n] on, the statuses walk the lifecycle. *)
Lemma trail_walks d id r n m a a' :
  order_ok d id r → audit d !! (id, n) = Some a → audit d !! (id, m) = Some a' → n ≤ m →
  rtc moved_to (ad_ResultingStatus a) (ad_ResultingStatus a').
Proof.
  intros Hok Ha Ha' Hle. pose proof (proj1 (oi_audit _ _ _ Hok n) ltac:(by rewrite Ha)) as Hn.
  remember (Z.to_nat (m - n)) as k eqn:Hk. revert m a' Ha' Hle Hk.
  induction k as [|k IH]; intros m a' Ha' Hle Hk.
  { assert (m = n) as -> by lia. rewrite Ha in Ha'. by apply (inj Some) in Ha' as <-. }
  pose proof (proj1 (oi_audit _ _ _ Hok m) ltac:(by rewrite Ha')) as Hm.
  destruct (proj2 (oi_audit _ _ _ Hok (m - 1)) ltac:(lia)) as [b Hb].
  etransitivity; [apply (IH _ _ Hb); lia|].
  destruct (oi_chain _ _ _ Hok (m - 1) b a' Hb) as [_ [->|Hmv]]; [by replace (m - 1 + 1) with m by lia|done|].
  apply rtc_once. by eexists.
Qed.

(** The last revision is the row's. *)
Lemma trail_latest d id r :
  order_ok d id r → ∃ a, audit d !! (id, r_Revision r) = Some a ∧ ad_ResultingStatus a = r_Status r.
Proof.
  intros Hok. pose proof (ro_values _ _ (oi_row _ _ _ Hok)) as Hv. unfold orders_values_check in Hv.
  apply andb_prop in Hv as [[_ Hv%Z.ltb_lt]%andb_prop _].
  destruct (proj2 (oi_audit _ _ _ Hok (r_Revision r)) ltac:(lia)) as [a Ha].
  exists a. split; [done|]. by apply (oi_latest _ _ _ Hok).
Qed.

(** Once terminal at some revision, the row has that status. *)
Lemma terminal_stays d id r n a :
  order_ok d id r → audit d !! (id, n) = Some a → IsTerminal (ad_ResultingStatus a) = true →
  r_Status r = ad_ResultingStatus a.
Proof.
  intros Hok Ha Ht. destruct (trail_latest _ _ _ Hok) as (b & Hb & <-).
  pose proof (proj1 (oi_audit _ _ _ Hok n) ltac:(by rewrite Ha)) as Hn.
  apply moved_to_terminal; [|done]. apply (trail_walks _ _ _ _ _ _ _ Hok Ha Hb). lia.
Qed.

Lemma outcome_terminal s : has_outcome s = true → IsTerminal s = true.
Proof. by destruct s. Qed.

(** ** The properties *)

(** C6: Transition implements exactly the lifecycle of an order of two parties: it
    moves the order to the status the lifecycle gives that actor, recognises exactly
    the repeats the stored state proves, and refuses with a precondition error only
    what nobody may do. *)
Theorem transition_policy o action actor :
  two_parties o →
  (∀ s, Transition o action actor = Ok (s, false) ↔ lifecycle o action actor s)
  ∧ (∀ s, Transition o action actor = Ok (s, true) ↔ repeats o action actor ∧ s = o_Status o)
  ∧ (Transition o action actor = Err ErrPrecondition → ∀ actor' s, ¬ lifecycle o action actor' s).
Proof.
  intros Htwo. split; [|split].
  - intros s. split; [apply (transition_sound _ _ _ _ false Htwo)|by apply transition_complete].
  - intros s. split; [apply (transition_sound _ _ _ _ true Htwo)|]. intros [Hr ->].
    by apply repeats_complete.
  - by apply transition_precondition.
Qed.

(** C3: In every reachable state each order has a complete audit trail that starts
    with its creation, each change of status is announced by exactly one fact that
    repeats the audit entry, an ended order has its one outcome fact, and the
    current courier is the one open assignment episode. *)
Theorem reachable_orders_sound d : rtc order_step empty_odb d → Inv d.
Proof. apply reachable_aggregate. Qed.

(** The status of a reachable order was reached from PendingReservation by moves of
    the lifecycle, and so was every status of its trail from the ones before. *)
Theorem status_walks_lifecycle d id r :
  rtc order_step empty_odb d → orders d !! id = Some r →
  rtc moved_to PendingReservation (r_Status r)
  ∧ ∀ n m a a', audit d !! (id, n) = Some a → audit d !! (id, m) = Some a' → n ≤ m →
      rtc moved_to (ad_ResultingStatus a) (ad_ResultingStatus a').
Proof.
  intros HI%reachable_aggregate Hr. pose proof (inv_orders _ HI _ _ Hr) as Hok.
  split; [|intros *; by apply (trail_walks d id r)].
  destruct (trail_latest _ _ _ Hok) as (a & Ha & <-).
  pose proof (proj1 (oi_audit _ _ _ Hok (r_Revision r)) ltac:(by rewrite Ha)) as Hn.
  destruct (proj2 (oi_audit _ _ _ Hok 1) ltac:(lia)) as [a1 Ha1].
  destruct (oi_first _ _ _ Hok _ Ha1) as (_ & _ & <-). apply (trail_walks d id r 1 _ _ _ Hok Ha1 Ha). lia.
Qed.

(** Later steps never change what was requested, never change or remove an
    audit entry or a fact, never lower a revision, and never move a terminal order.
    *)
Theorem order_history_kept d d' id r :
  rtc order_step empty_odb d → rtc order_step d d' → orders d !! id = Some r →
  extends d d' ∧ ∃ r', orders d' !! id = Some r' ∧ same_request r r' ∧ r_Revision r ≤ r_Revision r'
    ∧ (IsTerminal (r_Status r) = true → r_Status r' = r_Status r).
Proof.
  intros HS%reachable_sound Hsteps Hr.
  destruct (steps_sound d d' Hsteps HS) as [[HI' _] [Hex _]]. destruct HS as [HI _].
  split; [done|]. destruct (ex_orders _ _ Hex _ _ Hr) as (r' & Hr' & Hsame & Hrev).
  exists r'. repeat (split; [done|]). intros Ht.
  destruct (trail_latest _ _ _ (inv_orders _ HI _ _ Hr)) as (a & Ha & Has). rewrite <- Has in *.
  apply (terminal_stays d' id r' (r_Revision r)); [by apply HI'| |done].
  by eapply lookup_weaken; [|apply Hex].
Qed.

(** A reachable order has exactly one outcome fact if it completed, was
    cancelled, expired or failed, and none otherwise; that fact reports the order's
    final status. *)
Theorem one_outcome_per_order d id r :
  rtc order_step empty_odb d → orders d !! id = Some r →
  count (outcome_of id) (outbox d) = (if has_outcome (r_Status r) then 1%nat else 0%nat)
  ∧ ∀ f, f ∈ outbox d → fr_OrderID f = id → fr_Kind f = Outcome → p_Status (fr_Payload f) = r_Status r.
Proof.
  intros HI%reachable_aggregate Hr. pose proof (inv_orders _ HI _ _ Hr) as Hok.
  split; [by apply (oi_outcome _ _ _ Hok)|]. intros f Hf Hid Hk.
  destruct (inv_facts _ HI f Hf) as (a & Ha & Han). rewrite Hid in Ha.
  rewrite (an_status _ _ Han). symmetry. eapply terminal_stays; [done|exact Ha|].
  by apply outcome_terminal, (an_outcome _ _ Han).
Qed.

(** Later steps never undo what the sagas recorded: a creation keeps its
    request, an aborting one never opens, a resolved one never changes; a photo
    keeps its identity and first verification, an accepted one is final and a
    retired one never revived; a settled receipt, a confirmation, a fence and an
    attached image stay as they are. *)
Theorem saga_records_final d d' :
  rtc order_step empty_odb d → rtc order_step d d' →
  (∀ id r, GetCreationWorkflowByID id d = Some r → ∃ r', GetCreationWorkflowByID id d' = Some r'
     ∧ same_creation r r' ∧ wf_Generation r ≤ wf_Generation r'
     ∧ (wf_Phase r = AbortPending → wf_Phase r' = AbortPending ∨ wf_Phase r' = CreationRejected)
     ∧ (workflow_pending (wf_Phase r) = false → r' = r))
  ∧ (∀ id u, uploads d !! id = Some u → ∃ u', uploads d' !! id = Some u' ∧ same_proof u u'
     ∧ (up_State u = ProofAccepted → u' = u) ∧ (up_State u = ProofDeleting → up_State u' = ProofDeleting)
     ∧ (∀ v, up_VerifiedAt u = Some v → up_VerifiedAt u' = Some v))
  ∧ (∀ id r, GetReceipt id d = Some r → rc_State r ≠ ReceiptPending → GetReceipt id d' = Some r)
  ∧ (∀ id c, GetConfirmation id d = Some c → GetConfirmation id d' = Some c)
  ∧ (∀ k t, fences d !! k = Some t → fences d' !! k = Some t)
  ∧ (∀ id i, images d !! id = Some i → im_State i = ImageAttached → images d' !! id = Some i).
Proof.
  intros Hd%reachable_sound Hsteps. destruct (steps_sound d d' Hsteps Hd) as [_ [_ [W I U F R C]]].
  split; [|split; [|split; [|split; [|split]]]].
  - intros id r (r' & Hr' & Hm)%W. exists r'. split; [done|].
    destruct Hm as [->|(Hp & Hs & Hg & Ha)]; [|by rewrite Hp].
    split; [by unfold same_creation|]. split; [lia|]. split; [by left|done].
  - intros id u (u' & Hu' & Hm)%U. exists u'. split; [done|]. destruct Hm as [->|(Hn & Hs & Hd' & Hv)]; [|done].
    by repeat split.
  - intros id r (r' & Hr' & [->|(Hp & _)])%R Hn; done.
  - intros id c Hc. by eapply lookup_weaken.
  - intros k t Hk. by eapply lookup_weaken.
  - exact I.
Qed.

End trail.

(** ** At the example run *)

Definition assigned_order : Order :=
  match fromOrder (row_in d_assigned) with Ok o => o | Err _ => no_order end.

Lemma assigned_two_parties : two_parties assigned_order.
Proof.
  apply (row_two_parties the_order (row_in d_assigned)).
  - exact (oi_row _ _ _ (inv_orders _ (reachable_aggregate _ reach_assigned) _ _ row_assigned)).
  - vm_compute. reflexivity.
Qed.

Lemma transition_policy_witness :
  lifecycle assigned_order Pickup (user_actor (caller_of courier)) Delivering.
Proof.
  apply (transition_policy assigned_order Pickup (user_actor (caller_of courier)) assigned_two_parties).
  vm_compute. reflexivity.
Defined.

Lemma reachable_orders_sound_witness : Inv d_completed.
Proof. exact (reachable_orders_sound d_completed reach_completed). Defined.

Lemma status_walks_lifecycle_witness : rtc moved_to PendingReservation Completed.
Proof. exact (proj1 (status_walks_lifecycle d_completed the_order _ reach_completed row_completed)). Defined.

Lemma order_history_kept_witness : extends d_assigned d_completed.
Proof.
  exact (proj1 (order_history_kept d_assigned d_completed the_order _ reach_assigned complete_steps row_assigned)).
Defined.

Lemma one_outcome_per_order_witness : count (outcome_of the_order) (outbox d_completed) = 1%nat.
Proof. exact (proj1 (one_outcome_per_order d_completed the_order _ reach_completed row_completed)). Defined.

(** The creation of the example and its photo, to the end of the run. *)
Lemma saga_records_final_witness :
  ∃ u, uploads d_completed !! the_proof = Some u ∧ up_State u = ProofAccepted
    ∧ ∀ d', rtc order_step d_completed d' → uploads d' !! the_proof = Some u.
Proof.
  assert (is_Some (uploads d_completed !! the_proof)) as [u Hu].
  { apply (bool_decide_unpack _). vm_compute. exact I. }
  assert ((up_State <$> uploads d_completed !! the_proof) = Some ProofAccepted) as Ha by (vm_compute; reflexivity).
  rewrite Hu in Ha. injection Ha as Ha. exists u. split; [done|]. split; [done|]. intros d' Hs.
  destruct (saga_records_final d_completed d' reach_completed Hs) as (_ & Hup & _).
  destruct (Hup _ _ Hu) as (u' & Hu' & _ & Hacc & _). by rewrite (Hacc Ha) in Hu'.
Defined.

(** * What reads return

    A stored order reads back as the order that was written, and a caller who
    takes no part in an order never sees its exact delivery. *)

Section visibility.
  Context `{UUID, !UUIDLaws, !UUIDFold, Digest}.

(** ** Rows and orders *)

Lemma row_read id r : row_ok id r → ∃ o, fromOrder r = Ok o ∧ toOrder o = Ok r.
Proof.
  intros Hok. destruct (row_decodes id r Hok) as [o Ho]. exists o. split; [done|].
  destruct Hok as [Hid Hcan Hreq Hcour Hpend [(p & Hp & Hpc) (q & Hq & Hqc) Hne] _ _ _ _].
  specialize (Hne p q Hp Hq). unfold fromOrder in Ho. rewrite Hp, Hq, !unmarshal_marshal in Ho.
  cbn in Ho. apply Ok_inj in Ho as <-. unfold toOrder, parse_opt. cbn.
  unfold canonical in *. rewrite Hid, Hcan, Hreq. cbn.
  assert (Hc : match r_CourierID r with
    | Some id0 => v ← parseID id0; mret (Some v) | None => mret None end = Ok (r_CourierID r)).
  { destruct (r_CourierID r) as [c|]; [|done]. by rewrite (Hcour c eq_refl). }
  assert (Hk : match r_PendingCancellationID r with
    | Some id0 => v ← parseID id0; mret (Some v) | None => mret None end = Ok (r_PendingCancellationID r)).
  { destruct (r_PendingCancellationID r) as [k|]; [|done]. by rewrite (Hpend k eq_refl). }
  rewrite Hc. cbn. rewrite Hk. cbn. rewrite Hpc, Hqc. cbn.
  replace (same (LocationID p) (LocationID q)) with false by (symmetry; by apply same_false). cbn.
  unfold with_location_id. replace {| LocationID := LocationID p; Name := Name p;
    BuildingName := BuildingName p; Floor := Floor p |} with p by (by destruct p).
  replace {| LocationID := LocationID q; Name := Name q; BuildingName := BuildingName q; Floor := Floor q |}
    with q by (by destruct q).
  rewrite <- Hid, <- Hp, <- Hq. by destruct r.
Qed.

(** C29: Every stored order is read back, and the order read is written back as the same row. *)
Theorem order_row_roundtrip d id r :
  rtc order_step empty_odb d → orders d !! id = Some r →
  ∃ o, fromOrder r = Ok o ∧ toOrder o = Ok r.
Proof.
  intros HI%reachable_aggregate Hr. apply (row_read id). apply (inv_orders _ HI _ _ Hr).
Qed.

(** ** Projection *)

(** Nothing of where and how to deliver, but the building. *)
Record undisclosed (full o : Order) : Prop := {
  un_delivery : o_Delivery o = {| LocationID := EmptyString; Name := EmptyString;
                                  BuildingName := BuildingName (o_Delivery full); Floor := None |};
  un_instructions : o_DeliveryInstructions o = None;
  un_item : o_ItemLocation o = None;
  un_reason : o_CloseReason o = None;
  un_same : o_ID o = o_ID full ∧ o_Status o = o_Status full ∧ o_RequesterID o = o_RequesterID full
    ∧ o_CourierID o = o_CourierID full ∧ o_Pickup o = o_Pickup full ∧ o_Revision o = o_Revision full;
}.

(** What a caller may be shown of a stored order. *)
Definition shown (c : Caller) (row : OrderRow) (o : Order) : Prop :=
  ∃ full, fromOrder row = Ok full
    ∧ if HasParticipant full (cl_ID c) then o = full else undisclosed full o.

Lemma project_shown c row full : fromOrder row = Ok full → shown c row (ProjectForCaller c full).
Proof.
  intros Hf. exists full. split; [done|]. unfold ProjectForCaller.
  by destruct (HasParticipant full (cl_ID c)).
Qed.

Lemma fromOrders_Forall2 rows os : fromOrders rows = Ok os → Forall2 (λ r o, fromOrder r = Ok o) rows os.
Proof.
  revert os. induction rows as [|r rows IH]; intros os Hf; cbn [fromOrders] in Hf; inv_ok Hf; subst; [constructor|].
  constructor; [done|by apply IH].
Qed.

(** The rows of a page are stored rows the query selects. *)
Lemma ListOrders_selected p size offset d row :
  row ∈ ListOrders p size offset d → p row = true ∧ ∃ id, orders d !! id = Some row.
Proof.
  unfold ListOrders. intros (i & Hi & _)%elem_of_take. rewrite lookup_drop in Hi.
  apply list_elem_of_lookup_2 in Hi. rewrite merge_sort_Permutation in Hi.
  apply list_elem_of_filter in Hi as [Hp Hin]. split; [done|].
  apply list_elem_of_fmap in Hin as ([id r] & -> & Hin). apply elem_of_map_to_list in Hin. eauto.
Qed.

Lemma list_shown now q d page o :
  list_ now q d = Ok page → o ∈ op_Orders page →
  ∃ id row caller user pickup, orders d !! id = Some row ∧ shown (rq_Caller q) row o
    ∧ parseID (cl_ID (rq_Caller q)) = Ok caller
    ∧ ∃ q', rq_Open q' = rq_Open q ∧ order_selected d caller now q' user pickup row = true.
Proof.
  unfold list_, List_. intros Hl Hin. inv_ok Hl. subst page. cbn in Hin.
  apply list_elem_of_fmap in Hin as (full & -> & Hin).
  subst a4. cbn in Hin. apply fromOrders_Forall2 in Hok9.
  apply list_elem_of_lookup in Hin as [i Hi].
  destruct (Forall2_lookup_r _ _ _ _ _ Hok9 Hi) as (row & Hrow & Ho).
  apply list_elem_of_lookup_2 in Hrow. apply ListOrders_selected in Hrow as [Hsel [id Hid]].
  exists id, row, a6, a7, a8. split; [done|]. split; [by apply project_shown|].
  split; [exact Hok6|]. by exists (with_page q a0).
Qed.

Lemma canonical_caller c :
  cl_Admin (canonicalReadCaller c) = cl_Admin c ∧ cl_Suspended (canonicalReadCaller c) = cl_Suspended c.
Proof. unfold canonicalReadCaller. by destruct (uuid_parse (cl_ID c)). Qed.

(** An order that any active user may see: it waits for a courier. *)
Definition open_order (row : OrderRow) (now : Time) : Prop :=
  r_Status row = AwaitingCourier ∧ stored_time now < r_ExpiresAt row.

(** C30: Whatever GetOrder and the three listings return is the stored order for its
    requester and courier, and for everyone else the order without its exact
    delivery, instructions, item location and close reason; a caller who is no
    admin, participant or former courier reads only an order that waits for a
    courier, and the open listing returns only orders of others that do. *)
Theorem delivery_disclosed_to_participants now c d :
  (∀ id o, GetOrder now c id d = Ok o →
     ∃ uid row full caller, parseID id = Ok uid ∧ orders d !! uid = Some row ∧ fromOrder row = Ok full
       ∧ parseID (cl_ID (canonicalReadCaller c)) = Ok caller ∧ shown (canonicalReadCaller c) row o
       ∧ (cl_Admin c = true ∨ HasParticipant full (cl_ID (canonicalReadCaller c)) = true
          ∨ HasAssignmentHistory uid caller d = true
          ∨ (cl_Suspended c = false ∧ r_Status row = AwaitingCourier ∧ now < r_ExpiresAt row)))
  ∧ (∀ r page o, ListOpenOrders now c r d = Ok page → o ∈ op_Orders page →
     ∃ id row caller, orders d !! id = Some row ∧ parseID (cl_ID (canonicalReadCaller c)) = Ok caller
       ∧ shown (canonicalReadCaller c) row o ∧ open_order row now ∧ r_RequesterID row ≠ caller)
  ∧ (∀ r page o, (ListMyOrders now c r d = Ok page ∨ ∃ user, ListUserOrders now c user r d = Ok page) →
     o ∈ op_Orders page → ∃ id row, orders d !! id = Some row ∧ shown (canonicalReadCaller c) row o).
Proof.
  split; [|split].
  - intros id o Hg. unfold GetOrder, GetWithParticipation in Hg. inv_ok Hg.
    destruct (LockOrder a1 d) as [row|] eqn:Hrow; [|done]. apply (inj Some) in Hok3. subst a3 o.
    injection Hok0 as -> <-.
    exists a1, row, o0, a2. repeat (split; [done|]). split; [by apply project_shown|].
    destruct (canonical_caller c) as [Hadm Hsus]. rewrite Hadm, Hsus in Hok5.
    destruct (fromOrder_fields _ _ Hok4) as (_ & _ & _ & Hst & _ & _ & _ & Hexp & _).
    rewrite Hst, Hexp in Hok5. unfold After in Hok5.
    destruct (cl_Admin c); [by left|]. right. destruct (HasParticipant o0 _); [by left|]. right.
    destruct (HasAssignmentHistory a1 a2 d); [by left|]. right. cbn in Hok5.
    rewrite !negb_orb, !negb_involutive in Hok5.
    destruct (cl_Suspended c); [done|]. apply andb_prop in Hok5 as [Hs%same_eq He%Z.ltb_lt]. done.
  - intros r page o Hl Hin. unfold ListOpenOrders in Hl. inv_ok Hl.
    destruct (list_shown _ _ _ _ _ Hl Hin)
      as (id & row & caller & user & pickup & Hrow & Hsh & Hc & q' & Hop & Hsel).
    exists id, row, caller. repeat (split; [done|]).
    unfold order_selected in Hsel. rewrite Hop in Hsel. cbn in Hsel. inv_checks Hsel.
    match goal with Hx : negb (same _ _) = true |- _ => apply negb_true_iff, same_ne in Hx end.
    by repeat split.
  - intros r page o [Hl|[user Hl]] Hin; [unfold ListMyOrders in Hl|unfold ListUserOrders in Hl; inv_ok Hl];
      destruct (list_shown _ _ _ _ _ Hl Hin) as (id & row & _ & _ & _ & Hrow & Hsh & _);
      by exists id, row.
Qed.

End visibility.

(** ** At the example run *)

Lemma order_row_roundtrip_witness :
  ∃ o, fromOrder (row_in d_completed) = Ok o ∧ toOrder o = Ok (row_in d_completed).
Proof. exact (order_row_roundtrip d_completed the_order _ reach_completed row_completed). Defined.

(** A stranger finds an order that waits for a courier, without its delivery. *)
Definition stranger : Caller := caller_of (id_of "000c").
Definition found : Order :=
  match GetOrder (day_0 + 2 * Hour) stranger the_order d_confirmed with Ok o => o | Err _ => no_order end.

Lemma found_by_stranger : GetOrder (day_0 + 2 * Hour) stranger the_order d_confirmed = Ok found.
Proof. vm_compute. reflexivity. Qed.

Lemma delivery_disclosed_to_participants_witness :
  ∃ row, orders d_confirmed !! the_order = Some row ∧ shown (canonicalReadCaller stranger) row found
    ∧ o_DeliveryInstructions found = None.
Proof.
  destruct (delivery_disclosed_to_participants (day_0 + 2 * Hour) stranger d_confirmed) as [Hget _].
  destruct (Hget the_order found found_by_stranger)
    as (uid & row & full & caller & Hp & Hrow & _ & _ & Hs & _).
  exists row. assert (uid = the_order) as -> by (symmetry; exact (Ok_inj _ _ Hp)).
  split; [done|]. split; [done|]. vm_compute. reflexivity.
Defined.
