(* ===== verification/OrderSagas.v ===== *)
(** * Order: the sagas against Credit

    What the two-transaction steps of an assignment and of a withdrawal may
    do: an order is assigned only with a confirmed hold and reopened only with
    a restored one, a step that has lost its claim changes nothing, and the
    processing of an attempt ends. *)
From stdpp Require Import prelude gmap strings list.
From Stdlib Require Import ZArith Lia.
From S2P Require Import Prelude.
From S2P Require Import GoLib.
From S2P Require Import GoText.
From S2P Require Import OrderTypes.
From S2P Require Import OrderPolicy.
From S2P Require Import OrderDB.
From S2P Require Import OrderStore.
From S2P Require Import OrderProgress.
From S2P Require Import OrderAssignment.
From S2P Require Import OrderCancellation.
From S2P Require Import OrderFacts.
From S2P Require Import OrderLogic.
From S2P Require Import OrderInvariant.
From S2P Require Import OrderAggregate.
From S2P Require Import OrderKeeps.
From S2P Require Import OrderSteps.
From S2P Require Import OrderRuns.
From S2P Require Import OrderExamples.
From S2P Require Import OrderCalls.
From S2P Require Import OrderProperties.

Local Open Scope Z_scope.
Local Open Scope foc_scope.

Section sagas.
  Context `{UUID, !UUIDLaws, !UUIDFold, Digest}.

(** ** One step of an assignment *)

(** What the observation decides for an attempt that is still claimed. *)
Inductive resolved_to (w : AssignmentAttempt) (ob : assignmentObservation) (o : Order)
    (offers : list Offer) (env : Env) : AssignmentAttempt → option Change → bool → Prop :=
| rs_reverted c : w_Phase w = RevertPending →
    confirmsRevert (ob_reservation ob) w o = true →
    c_Action c = ResolveAssignment →
    resolved_to w ob o offers env (w <| w_Phase := AssignmentRejected |>) (Some c) false
| rs_unreverted : w_Phase w = RevertPending → resolved_to w ob o offers env w None false
| rs_withdrawn reason : w_Phase w ≠ RevertPending →
    resolved_to w ob o offers env (w <| w_Phase := RevertPending |> <| w_Rejection := reason |>) None true
| rs_assigned c : w_Phase w ≠ RevertPending → available o (now_ env) = true →
    confirmsAdjustment (ob_reservation ob) w o = true → ob_refused ob = false →
    assignChange (newID env) o offers w (now_ env) = Ok c →
    resolved_to w ob o offers env (w <| w_Phase := AssignmentSucceeded |>) (Some c) false
| rs_unconfirmed : w_Phase w ≠ RevertPending → resolved_to w ob o offers env w None false.

Lemma metadata_run o caller action now env s c s' :
  metadata o caller action now env s = Ok (c, s') → s' = s ∧ c_Action c = action.
Proof.
  unfold metadata. intros Hrun. inv_run Hrun. apply NewChange_accepted in Hrun.
  subst. split; [done|apply Hrun].
Qed.

Lemma resolve_run w ob o offers env s next ch ready s' :
  resolve w ob o offers (now_ env) env s = Ok ((next, ch, ready), s') →
  s' = s ∧ resolved_to w ob o offers env next ch ready.
Proof.
  unfold resolve, resolveOffer. intros Hrun.
  destruct (decide (w_Phase w = RevertPending)) as [Hp|Hp].
  - destruct (confirmsRevert _ _ _) eqn:Hc.
    + apply bind_ok in Hrun as (c & s1 & Hr & Hrun).
      apply run_ret in Hrun as [[= <- <- <-] ->].
      apply bind_ok in Hr as (c0 & s2 & Hmeta & Hr). apply metadata_run in Hmeta as [-> Hact].
      inv_run Hr. subst. split; [done|]. by apply rs_reverted.
    + inv_run Hrun. injection Hrun as <- <- <-. subst. split; [done|]. by apply rs_unreverted.
  - destruct (negb (available o (now_ env))) eqn:Hav; [|destruct (ob_refused ob) eqn:Hrf;
      [|destruct (confirmsAdjustment _ _ _) eqn:Hc]].
    + inv_run Hrun. injection Hrun as <- <- <-. subst. split; [done|]. by apply rs_withdrawn.
    + inv_run Hrun. injection Hrun as <- <- <-. subst. split; [done|]. by apply rs_withdrawn.
    + inv_run Hrun. injection Hrun as <- <- <-. subst. split; [done|].
      apply negb_false_iff in Hav. by apply rs_assigned.
    + inv_run Hrun. injection Hrun as <- <- <-. subst. split; [done|]. by apply rs_unconfirmed.
Qed.

(** A finish transaction either finds its claim gone and changes nothing, or
    saves what it resolved. *)
Lemma finish_run attemptID claimed ob o offers env s b ch s' :
  finish_build attemptID claimed ob o offers env s = Ok ((b, ch), s') →
  ∃ aid row, parseID attemptID = Ok aid ∧ GetAssignmentAttempt aid (db s) = Some row
    ∧ is_Some (locked s !! at_OrderID row)
    ∧ let w := fromAssignment row in
      (still_claimed w claimed (now_ env) = false ∧ b = false ∧ ch = None ∧ quiet s s')
      ∨ (still_claimed w claimed (now_ env) = true ∧ ∃ next d',
           resolved_to w ob o offers env next ch b
           ∧ UpdateAssignmentAttempt (attempt_row (paced env o b next) None None) (w_Generation next)
               (db s) = Ok (d', 1)
           ∧ quiet (s <| db := d' |>) s').
Proof.
  intros Hrun. unfold finish_build in Hrun.
  apply bind_ok in Hrun as (w & s1 & Hfind & Hrun).
  apply FindAssignment_run in Hfind as (aid & row & Haid & Hrow & -> & Hq & Hl).
  exists aid, row. split; [done|]. split; [done|]. split; [done|]. simpl.
  apply bind_ok in Hrun as (env' & s2 & Henv & Hrun). apply run_ask in Henv as [-> ->]. cbv zeta in Hrun.
  destruct (still_claimed (fromAssignment row) claimed (now_ env)) eqn:Hsc; simpl in Hrun.
  - right. split; [done|]. apply bind_ok in Hrun as ([[next ch'] ready] & s2 & Hres & Hrun).
    apply resolve_run in Hres as [-> Hres]. apply bind_ok in Hrun as (u & s3 & Hsave & Hrun).
    apply run_ret in Hrun as [[= <- <-] ->].
    apply SaveAssignment_run in Hsave as (before & d' & _ & _ & Hup & Hq').
    exists next, d'. split; [done|]. rewrite (qt_db _ _ Hq) in Hup. cbn [w_Generation paced] in Hup.
    split; [done|]. etransitivity; [|exact Hq']. destruct Hq. by split.
  - left. apply run_ret in Hrun as [[= <- <-] ->]. done.
Qed.

Lemma finish_step_run r orderID attemptID claimed d out d' :
  finish_step r orderID attemptID claimed d = (out, d') →
  d' = d ∧ is_ok out = false ∨
  ∃ uid row o aid at_row ch b, parseID orderID = Ok uid ∧ orders d !! uid = Some row
    ∧ fromOrder row = Ok o ∧ o_ID o = uid ∧ parseID attemptID = Ok aid
    ∧ GetAssignmentAttempt aid d = Some at_row ∧ at_OrderID at_row = uid
    ∧ (∀ b', out = Ok b' → b' = b)
    ∧ let w := fromAssignment at_row in
      let env := (rd_finish r).1 in
      let ob := observeAssignment (rd_credit r) claimed in
      (still_claimed w claimed (now_ env) = false ∧ b = false ∧ ch = None ∧ d' = d)
      ∨ (still_claimed w claimed (now_ env) = true ∧ ∃ next d1,
           resolved_to w ob o (OrderOffers uid d) env next ch b
           ∧ UpdateAssignmentAttempt (attempt_row (paced env o b next) None None) (w_Generation next) d
               = Ok (d1, 1)
           ∧ match ch with
             | None => d' = d1
             | Some c => ∃ s s' u, quiet ((opened (start d) uid o) <| db := d1 |>) s
                           ∧ Apply c env s = Ok (u, s') ∧ db s' = d'
             end).
Proof.
  intros [Hsame|(b & s & Hrun & _ & _ & _ & Hdb & Hout)]%within_ran; [by left|right].
  apply assign_mutate_run in Hrun as (uid&row&o&ch&s2&Hid&Hrow&Ho&Hoid&Hbuild&Hch).
  apply finish_run in Hbuild as (aid & at_row & Haid & Hat & Hl & Hcases).
  exists uid, row, o, aid, at_row, ch, b. repeat (split; [done|]).
  split. { cbn in Hl. destruct Hl as [o' Hl].
    by apply lookup_insert_Some in Hl as [[<- _]|[_ Hl]]; [|rewrite lookup_empty in Hl]. }
  split; [done|]. destruct Hcases as [(Hsc & -> & -> & Hq)|(Hsc & next & d1 & Hres & Hup & Hq)].
  - left. subst s. repeat (split; [done|]). by rewrite <- Hdb, (qt_db _ _ Hq).
  - right. split; [done|]. exists next, d1. split; [done|]. split; [exact Hup|].
    destruct ch as [c|]; [|by subst s; rewrite <- Hdb, (qt_db _ _ Hq)].
    destruct Hch as (_ & s3 & u & Hq' & Ha). exists s3, s, u.
    split; [by etransitivity|]. done.
Qed.

(** *** An assignment needs a confirmed hold *)

Lemma observed_reservation credit w :
  w_Phase w ≠ RevertPending → ob_refused (observeAssignment credit w) = false →
  ob_reservation (observeAssignment credit w) = GetAssignmentReservation credit (w_OrderID w).
Proof.
  unfold observeAssignment. intros Hp. rewrite decide_False by done.
  replace (same (w_Phase w) RevertPending) with false by (symmetry; by apply same_false). simpl.
  by destruct (same (w_Phase w) AdjustmentPending && _).
Qed.

Lemma still_claimed_iff w claimed now :
  still_claimed w claimed now = true ↔
  IsResolved w = false ∧ w_Generation w = w_Generation claimed ∧ w_Phase w = w_Phase claimed
  ∧ now < w_LeaseUntil w.
Proof.
  unfold still_claimed, After. rewrite !andb_true_iff, negb_true_iff, Z.eqb_eq, same_true, Z.ltb_lt. tauto.
Qed.

Lemma assignChange_order ids o offers w now c :
  assignChange ids o offers w now = Ok c →
  ∃ action next, Transition o action {| a_Kind := User; a_ID := w_CallerID w |} = Ok (next, false)
    ∧ (action = Assign ∨ action = AcceptCounteroffer) ∧ c_Order c = assigned o w next now.
Proof.
  unfold assignChange. intros Ha.
  apply bind_Ok in Ha as (? & _ & Ha). apply bind_Ok in Ha as ([next repeat] & Ht & Ha).
  apply bind_Ok in Ha as (? & Hr%guard_ok_Ok%negb_true_iff & Ha). subst repeat.
  apply bind_Ok in Ha as (c0 & Hc & Ha). apply bind_Ok in Ha as ([changes found] & _ & Ha).
  apply bind_Ok in Ha as (? & _ & Ha%Ok_inj). subst c.
  eexists _, next. split; [exact Ht|]. split; [destruct (decide _); auto|].
  simpl. by rewrite (ac_order _ _ _ _ _ _ _ (NewChange_accepted _ _ _ _ _ _ _ Hc)).
Qed.

Lemma assigning_status o action actor next :
  two_parties o → Transition o action actor = Ok (next, false) →
  action = Assign ∨ action = AcceptCounteroffer →
  o_Status o = AwaitingCourier ∧ next = AwaitingPickup.
Proof.
  intros Htwo Ht%(transition_sound _ _ _ _ false Htwo) Ha.
  destruct Ht as [? Hst|? Hst|? Hst|? Hst|? Hst|? Hst|? Hst|? Hst|? Hst|? Hst|? Hst|? Hst|? Hst|? Hst];
    destruct Ha as [Ha|Ha]; try discriminate Ha; done.
Qed.

(** What Credit confirmed when a step changed the courier of an order. *)
Record confirmed (v : AssignmentReservation) (attemptID id : string) (row row' : OrderRow) : Prop := {
  cf_order : v_OrderID v = id ∧ v_RequesterID v = r_RequesterID row;
  cf_state : v_State v = "assigned";
  cf_offer : parseID attemptID = Ok (v_OfferID v);
  cf_courier : ∃ c, r_CourierID row' = Some c ∧ parseID (v_CourierID v) = Ok c;
  cf_amount : r_ReservedCredits row' = v_ReservedAmount v ∧ r_RewardCredits row' = v_ReservedAmount v;
}.

(** C7: A step of an assignment gives an order a courier only from AwaitingCourier
    to AwaitingPickup, and only when Credit's reservation was seen assigned to that
    attempt, courier and requester; the order then records exactly the credits
    Credit holds. *)
Theorem assignment_needs_confirmed_hold r orderID attemptID claimed d out d' id row row' :
  Inv d → finish_step r orderID attemptID claimed d = (out, d') →
  orders d !! id = Some row → orders d' !! id = Some row' → r_CourierID row' ≠ r_CourierID row →
  r_Status row = AwaitingCourier ∧ r_Status row' = AwaitingPickup
  ∧ ∃ v, GetAssignmentReservation (rd_credit r) (w_OrderID claimed) = Some v
      ∧ confirmed v attemptID id row row'.
Proof.
  intros HI Hstep Hrow Hrow' Hcour.
  apply finish_step_run in Hstep as [[-> _]|(uid & orow & o & aid & at_row & ch & b & Hid & Horow & Ho & Hoid
    & Haid & Hat & Hato & _ & [(_ & _ & _ & ->)|(Hsc & next & d1 & Hres & Hup & Hch)])]; [congruence..|].
  apply UpdateAssignmentAttempt_core in Hup. destruct Hup as (Hord & Hup).
  destruct ch as [c|]; [|rewrite Hch, Hord in Hrow'; congruence].
  destruct Hch as (s & s' & u & Hq & Ha & <-).
  assert (Hs : aggregate_inv d s).
  { eapply aggregate_quiet; [exact Hq|]. apply aggregate_core; [|by split].
    by eapply aggregate_opened. }
  assert (Hdb : orders (db s) = orders d) by (rewrite (qt_db _ _ Hq); exact Hord).
  rewrite <- Hdb in Hrow. destruct (Apply_row _ _ _ _ _ _ _ _ _ Hs Ha Hrow Hrow')
    as (b0 & Hv & Hb0 & -> & Hok & _ & Hst & Hpc & Hrw & Hrs); [congruence|].
  inversion Hres as [c0 _ _ Hact E1 E2 E3| | |c0 Hph Hav Hconf Href Hassign E1 E2 E3|]; subst c0.
  - exfalso. apply Hcour. destruct (validated_update _ _ Hv) as (_ & _ & _ & _ & _ & Hown & _).
    rewrite Hact in Hown. destruct (owned_courier _ _ _ Hown eq_refl) as [Hc _]. rewrite Hc in Hpc.
    destruct (fromOrder_fields _ _ Hb0) as (_ & _ & Hbc & _). rewrite Hbc in Hpc.
    destruct (r_CourierID row) as [x|] eqn:Hx; simpl in Hpc; [|by apply Ok_inj in Hpc].
    rewrite (ro_courier _ _ Hok x Hx) in Hpc. by apply Ok_inj in Hpc.
  - apply assignChange_order in Hassign as (action & nxt & Ht & Haction & Hco).
    rewrite Hco in *. cbn in Hst, Hpc, Hrw, Hrs, Hrow, Hrow', Hok. rewrite Hoid in *.
    rewrite Hdb, Horow in Hrow. apply (inj Some) in Hrow as <-.
    assert (two_parties o) as Htwo by (by eapply row_two_parties).
    destruct (assigning_status _ _ _ _ Htwo Ht Haction) as [Hs1 ->].
    destruct (fromOrder_fields _ _ Ho) as (_ & Hreq & _ & Hst' & _).
    split; [congruence|]. split; [done|]. apply still_claimed_iff in Hsc as (_ & _ & Hphase & _).
    rewrite observed_reservation in Hconf; [|by rewrite <- Hphase|done].
    destruct (GetAssignmentReservation _ _) as [v|]; [|done]. exists v. split; [done|].
    unfold confirmsAdjustment in Hconf. inv_checks Hconf.
    apply bind_Ok in Hpc as (x & Hx & Hpc%Ok_inj). cbn in *.
    split; try congruence.
    + split; congruence.
    + rewrite Haid. f_equal. apply find_first_some in Hat as [_ Hat]. apply same_eq in Hat. congruence.
    + exists x. split; congruence.
    + split; congruence.
Qed.

(** *** Fencing *)

(** A step whose claim is gone (the attempt is resolved, has a newer generation
    or another phase, or its lease has run out) changes nothing and asks for no
    further step. *)
Theorem stale_step_changes_nothing r orderID attemptID claimed d out d' aid at_row :
  finish_step r orderID attemptID claimed d = (out, d') →
  parseID attemptID = Ok aid → GetAssignmentAttempt aid d = Some at_row →
  IsResolved (fromAssignment at_row) = true ∨ at_Generation at_row ≠ w_Generation claimed
  ∨ at_Phase at_row ≠ w_Phase claimed ∨ at_LeaseUntil at_row ≤ now_ (rd_finish r).1 →
  d' = d ∧ ∀ b, out = Ok b → b = false.
Proof.
  intros Hstep Haid Hat Hgone.
  apply finish_step_run in Hstep as [[-> Hout]|(uid & orow & o & aid' & at' & ch & b & _ & _ & _ & _
    & Haid' & Hat' & _ & Hout & Hcases)]; [by split; [|intros ? ->]|].
  rewrite Haid in Haid'. apply Ok_inj in Haid' as <-. rewrite Hat in Hat'. apply (inj Some) in Hat' as <-.
  destruct Hcases as [(_ & -> & _ & ->)|(Hsc & _)]; [done|].
  apply still_claimed_iff in Hsc as (Hr & Hg & Hp & Hl). cbn in *.
  destruct Hgone as [Hx|[Hx|[Hx|Hx]]]; [congruence..|lia].
Qed.

(** *** Termination *)

Lemma updated_phase w n aid at_row d d1 :
  UpdateAssignmentAttempt (attempt_row w None None) n d = Ok (d1, 1) →
  GetAssignmentAttempt aid d = Some at_row → w_ID w = aid → at_Generation at_row = n →
  IsResolved (fromAssignment at_row) = false →
  ∃ at_row', GetAssignmentAttempt aid d1 = Some at_row' ∧ at_Phase at_row' = w_Phase w.
Proof.
  intros Hup Hat Hid Hn Hres. unfold UpdateAssignmentAttempt in Hup. inv_ok Hup. injection Hup as <- _.
  unfold GetAssignmentAttempt. cbn [attempts update_field set_attempts].
  destruct (find_first_some _ _ _ Hat) as [_ Hsame%same_eq].
  rewrite find_first_fmap.
  - fold (GetAssignmentAttempt aid d). rewrite Hat. cbn. eexists. split; [reflexivity|].
    rewrite Hsame, Hid, Hn, same_refl, Z.eqb_refl. unfold pending.
    unfold IsResolved in Hres. cbn in Hres. by destruct (at_Phase at_row).
  - intros x. by destruct (_ && _).
Qed.

Lemma claim_run attemptID orderID o offers env s claimed ch s' :
  claim_build attemptID orderID o offers env s = Ok ((Some claimed, ch), s') →
  ∃ aid row, parseID attemptID = Ok aid ∧ GetAssignmentAttempt aid (db s) = Some row
    ∧ claimed = claim_of (fromAssignment row) o (now_ env).
Proof.
  intros Hrun. unfold claim_build in Hrun.
  apply bind_ok in Hrun as (w & s1 & Hfind & Hrun).
  apply FindAssignment_run in Hfind as (aid & row & Haid & Hrow & -> & _). exists aid, row.
  split; [done|]. split; [done|]. apply bind_ok in Hrun as (env' & s2 & Henv & Hrun).
  apply run_ask in Henv as [-> ->]. cbv zeta in Hrun. destruct (not_due _ _ _).
  - by apply run_ret in Hrun as [[= ] _].
  - apply bind_ok in Hrun as (active & s2 & _ & Hrun). apply bind_ok in Hrun as (u & s3 & _ & Hrun).
    apply bind_ok in Hrun as (u' & s4 & _ & Hrun). by apply run_ret in Hrun as [[= <- <-] _].
Qed.

Lemma claim_keeps_revert w o now :
  w_Phase w = RevertPending → w_Phase (claim_of w o now) = RevertPending.
Proof. intros Hp. unfold claim_of. by destruct (available o now). Qed.

(** A step that asks for another one leaves its attempt to be reverted. *)
Lemma ready_reverts r orderID attemptID claimed d d' :
  finish_step r orderID attemptID claimed d = (Ok true, d') →
  w_Phase claimed ≠ RevertPending
  ∧ ∃ aid at_row, parseID attemptID = Ok aid ∧ GetAssignmentAttempt aid d' = Some at_row
      ∧ at_Phase at_row = RevertPending.
Proof.
  intros [[_ Hf]|(uid & orow & o & aid & at_row & ch & b & _ & _ & _ & _ & Haid & Hat & _ & Hout & Hcases)]%finish_step_run;
    [done|]. rewrite <- (Hout true eq_refl) in *.
  destruct Hcases as [(_ & [=] & _)|(Hsc & next & d1 & Hres & Hup & Hch)].
  apply still_claimed_iff in Hsc as (Hr & Hg & Hp & _).
  inversion Hres as [| |reason Hph E1 E2 E3| |]; subst. split; [by rewrite <- Hp|].
  apply find_first_some in Hat as Hsame. destruct Hsame as [_ Hsame%same_eq].
  destruct (updated_phase _ _ aid _ _ _ Hup Hat) as (at' & Hat' & Hph'); [exact Hsame|reflexivity|exact Hr|].
  exists aid, at'. subst d'. done.
Qed.

Lemma claim_step_reverts r orderID attemptID claimed d d' aid at_row :
  claim_step r orderID attemptID d = (Ok (Some claimed), d') →
  parseID attemptID = Ok aid → GetAssignmentAttempt aid d = Some at_row →
  at_Phase at_row = RevertPending → w_Phase claimed = RevertPending.
Proof.
  intros (s & Hrun & _)%within_committed Haid Hat Hp.
  apply assign_mutate_run in Hrun as (uid&row&o&ch&s2&_&_&_&_&Hbuild&_).
  apply claim_run in Hbuild as (aid' & at' & Haid' & Hat' & ->). cbn in Hat'.
  rewrite Haid in Haid'. apply Ok_inj in Haid' as <-. rewrite Hat in Hat'. apply (inj Some) in Hat' as <-.
  by apply claim_keeps_revert.
Qed.

(** Processing an attempt always ends within two financial steps: the first may
    ask for a revert at once, the second never asks again, whatever Credit replies
    and whatever other transactions do. *)
Theorem processing_terminates r1 r2 rest attemptID d :
  ∃ out, (ProcessAssignment (r1 :: r2 :: rest) attemptID d).1 = Some out
    ∧ ProcessAssignment (r1 :: r2 :: rest) attemptID d = ProcessAssignment [r1; r2] attemptID d.
Proof.
  cbn [ProcessAssignment]. destruct (AssignmentOrderID attemptID d) as [orderID|e]; [|eauto].
  destruct (claim_step r1 orderID attemptID d) as [[[claimed|]|e] d1]; [|eauto..].
  destruct (finish_step r1 orderID attemptID claimed (rd_meanwhile r1 d1)) as [[[]|e] d2] eqn:Hf; [|eauto..].
  apply ready_reverts in Hf as (_ & aid & at_row & Haid & Hat & Hph).
  destruct (AssignmentOrderID attemptID d2) as [orderID'|e]; [|eauto].
  destruct (claim_step r2 orderID' attemptID d2) as [[[claimed'|]|e] d3] eqn:Hc; [|eauto..].
  destruct (finish_step r2 orderID' attemptID claimed' (rd_meanwhile r2 d3)) as [[[]|e] d4] eqn:Hf; [|eauto..].
  apply ready_reverts in Hf as [Hne _]. destruct Hne. by eapply claim_step_reverts.
Qed.

(** ** One step of a withdrawal *)

(** A finish transaction of a withdrawal that built a change. *)
Lemma finish_cancellation_run operationID claimed view o offers env s ch s' :
  finish_cancellation_build operationID claimed view o offers env s = Ok ((tt, Some ch), s') →
  ∃ kid row d', parseID operationID = Ok kid ∧ GetCancellation kid (db s) = Some row
    ∧ is_Some (locked s !! kr_OrderID row)
    ∧ let w := fromCancellation row in
      matchesWithdrawal o w = true ∧ confirmsWithdrawal view w o = true
      ∧ NewChange (Some o) (reopened o w (now_ env)) {| a_Kind := User; a_ID := k_CallerID w |}
          Withdraw None (newID env) = Ok ch
      ∧ same_core (db s) d' ∧ quiet (s <| db := d' |>) s'.
Proof.
  intros Hrun. unfold finish_cancellation_build in Hrun.
  apply bind_ok in Hrun as (w & s1 & Hfind & Hrun).
  apply FindCancellation_run in Hfind as (kid & row & Hkid & Hrow & -> & Hq & Hl).
  apply bind_ok in Hrun as (env' & s2 & Henv & Hrun). apply run_ask in Henv as [-> ->]. cbv zeta in Hrun.
  destruct (_ || _ || _); [by apply run_ret in Hrun as [[=] _]|].
  apply bind_ok in Hrun as (u & s2 & Hm & Hrun). apply run_ensure in Hm as [Hm ->].
  apply bind_ok in Hrun as ([next change] & s2 & Hc & Hrun).
  apply bind_ok in Hrun as (u' & s3 & Hsave & Hrun). apply run_ret in Hrun as [[= ->] ->].
  apply SaveCancellation_run in Hsave as (d' & Hup & Hq'). apply UpdateCancellation_core in Hup.
  destruct (confirmsWithdrawal _ _ _) eqn:Hconf; [|by apply run_ret in Hc as [[=] _]].
  apply bind_ok in Hc as (c & s4 & Hnew & Hc). apply run_lift in Hnew as [Hnew ->].
  apply run_ret in Hc as [[= <- ->] ->]. exists kid, row, d'. repeat (split; [done|]).
  destruct Hq as [Q1 Q2 Q3 Q4 Q5]. rewrite Q1 in Hup. split; [exact Hup|].
  etransitivity; [|exact Hq']. by split.
Qed.

Lemma finish_cancellation_none operationID claimed view o offers env s u s' :
  finish_cancellation_build operationID claimed view o offers env s = Ok ((u, None), s') →
  same_core (db s) (db s').
Proof.
  intros Hrun. unfold finish_cancellation_build in Hrun.
  apply bind_ok in Hrun as (w & s1 & Hfind & Hrun).
  apply FindCancellation_run in Hfind as (kid & row & Hkid & Hrow & -> & Hq & Hl).
  apply bind_ok in Hrun as (env' & s2 & Henv & Hrun). apply run_ask in Henv as [-> ->]. cbv zeta in Hrun.
  rewrite <- (qt_db _ _ Hq).
  destruct (_ || _ || _); [by apply run_ret in Hrun as [_ ->]|].
  apply bind_ok in Hrun as (u' & s2 & Hm & Hrun). apply run_ensure in Hm as [Hm ->].
  apply bind_ok in Hrun as ([next change] & s2 & Hc & Hrun).
  apply bind_ok in Hrun as (u'' & s3 & Hsave & Hrun). apply run_ret in Hrun as [_ ->].
  apply SaveCancellation_run in Hsave as (d' & Hup & Hq'). apply UpdateCancellation_core in Hup.
  rewrite (qt_db _ _ Hq').
  destruct (confirmsWithdrawal _ _ _); [|by apply run_ret in Hc as [_ ->]].
  apply bind_ok in Hc as (c & s4 & Hnew & Hc). apply run_lift in Hnew as [_ ->].
  by apply run_ret in Hc as [_ ->].
Qed.

(** The finish transaction of ProcessCancellation. *)
Definition finish_withdrawal (r : Round) (orderID operationID : string) (claimed : Cancellation) :
    ODB → result Error unit * ODB :=
  within_tx (rd_finish r).1 (rd_finish r).2
    (cancel_mutate orderID None
       (finish_cancellation_build operationID claimed (observeCancellation (rd_credit r) claimed))).

(** What Credit confirmed when a withdrawal reopened an order. *)
Record restored (credit : AssignmentCredit) (claimed : Cancellation) (v : AssignmentReservation)
    (id : string) (row row' : OrderRow) : Prop := {
  rt_acknowledged : Revert credit (k_OrderID claimed) (k_AssignmentID claimed) = Acknowledged;
  rt_view : GetAssignmentReservation credit (k_OrderID claimed) = Some v;
  rt_order : v_OrderID v = id ∧ v_RequesterID v = r_RequesterID row;
  rt_held : v_State v = "held" ∧ v_CourierID v = EmptyString ∧ v_OfferID v = EmptyString;
  rt_amount : 0 < v_ReservedAmount v ∧ v_ReservedAmount v = v_OriginalAmount v
    ∧ r_ReservedCredits row' = v_ReservedAmount v ∧ r_RewardCredits row' = v_ReservedAmount v;
}.

(** C28: A withdrawal takes the courier from an order only before pickup and only
    when Credit acknowledged the revert and was then seen to hold the original
    amount for the requester alone; the reopened order records exactly that amount.
    *)
Theorem withdrawal_needs_restored_hold r orderID operationID claimed d out d' id row row' :
  Inv d → finish_withdrawal r orderID operationID claimed d = (out, d') →
  orders d !! id = Some row → orders d' !! id = Some row' → row' ≠ row →
  r_Status row = AwaitingPickup ∧ r_PickedUpAt row = None
  ∧ r_Status row' = AwaitingCourier ∧ r_CourierID row' = None
  ∧ ∃ v, restored (rd_credit r) claimed v id row row'.
Proof.
  intros HI [[-> _]|([] & s & Hrun & _ & _ & _ & Hdb & _)]%within_ran Hrow Hrow' Hne; [congruence|].
  apply cancel_mutate_run in Hrun as (uid & orow & o & ch & s2 & Hid & Horow & Ho & Hoid & Hbuild & Hch).
  destruct ch as [c|]; cycle 1.
  { exfalso. subst s d'. apply finish_cancellation_none in Hbuild as [Hord _]. rewrite Hord in Hrow'.
    cbn in Hrow'. congruence. }
  destruct Hch as (_ & u & Ha). subst d'.
  apply finish_cancellation_run in Hbuild as (kid & krow & d2 & _ & _ & Hl & Hm & Hconf & Hnew & Hcore & Hq).
  assert (Hs : aggregate_inv d s2).
  { eapply aggregate_quiet; [exact Hq|]. apply aggregate_core; [|exact Hcore]. by eapply aggregate_opened. }
  assert (Hord : orders (db s2) = orders d) by (rewrite (qt_db _ _ Hq); apply Hcore).
  rewrite <- Hord in Hrow. destruct (Apply_row _ _ _ _ _ _ _ _ _ Hs Ha Hrow Hrow' Hne)
    as (b0 & _ & _ & -> & _ & _ & Hst & Hpc & Hrw & Hrs).
  rewrite (ac_order _ _ _ _ _ _ _ (NewChange_accepted _ _ _ _ _ _ _ Hnew)) in *.
  cbn in Hst, Hpc, Hrw, Hrs, Hrow, Hrow'. rewrite Hoid in *.
  rewrite Hord, Horow in Hrow. apply (inj Some) in Hrow as <-.
  destruct (fromOrder_fields _ _ Ho) as (_ & Hreq & _ & Hst' & _ & _ & _ & _ & _ & Hpick & _).
  unfold matchesWithdrawal in Hm. apply andb_prop in Hm as [Hm Hnp]. rewrite Hpick in Hnp.
  apply andb_prop in Hm as [[[Hap%same_eq _]%andb_prop _]%andb_prop _].
  split; [congruence|]. split; [by destruct (r_PickedUpAt orow)|]. split; [done|].
  split; [by apply Ok_inj in Hpc|].
  assert (Hk : kr_OrderID krow = uid).
  { cbn in Hl. destruct Hl as [o' Hl].
    by apply lookup_insert_Some in Hl as [[<- _]|[_ Hl]]; [|rewrite lookup_empty in Hl]. }
  unfold observeCancellation in Hconf. destruct (_ && _ && _) eqn:Hob; [|done].
  apply andb_prop in Hob as [_ Hack%same_eq].
  destruct (GetAssignmentReservation _ _) as [v|] eqn:Hv; [|done]. exists v.
  unfold confirmsWithdrawal in Hconf. inv_checks Hconf.
  cbn in *. split; try congruence; repeat split; try congruence; lia.
Qed.

End sagas.

(** ** At the example run *)

Lemma reach_claimed : rtc order_step empty_odb d_claimed.
Proof.
  etransitivity; [|apply claim_steps]. apply after_steps; [apply op_accept_order|]. apply reach_confirmed.
Qed.

Definition finish_1 := finish_step round_1 the_order the_attempt claimed_1 d_claimed.

Lemma assignment_needs_confirmed_hold_witness :
  r_Status (row_in d_claimed) = AwaitingCourier
  ∧ r_Status (row_in finish_1.2) = AwaitingPickup
  ∧ ∃ v, GetAssignmentReservation credit_assigned (w_OrderID claimed_1) = Some v
      ∧ confirmed v the_attempt the_order (row_in d_claimed) (row_in finish_1.2).
Proof.
  apply (assignment_needs_confirmed_hold round_1 the_order the_attempt claimed_1 d_claimed finish_1.1
           finish_1.2 the_order).
  - exact (reachable_aggregate _ reach_claimed).
  - apply surjective_pairing.
  - apply row_found. vm_compute. reflexivity.
  - apply row_found. vm_compute. reflexivity.
  - vm_compute. discriminate.
Defined.

Definition attempt_in (d : ODB) : AttemptRow :=
  match GetAssignmentAttempt the_attempt d with
  | Some a => a
  | None => attempt_row no_attempt None None
  end.

Lemma stale_step_changes_nothing_witness :
  (finish_step round_1 the_order the_attempt claimed_1 d_assigned).2 = d_assigned.
Proof.
  apply (stale_step_changes_nothing round_1 the_order the_attempt claimed_1 d_assigned
           (finish_step round_1 the_order the_attempt claimed_1 d_assigned).1
           (finish_step round_1 the_order the_attempt claimed_1 d_assigned).2
           the_attempt (attempt_in d_assigned)).
  - apply surjective_pairing.
  - vm_compute. reflexivity.
  - vm_compute. reflexivity.
  - left. vm_compute. reflexivity.
Defined.

Lemma reach_withdrawal_claimed : rtc order_step empty_odb claim_2.2.
Proof.
  unfold claim_2, claim_withdrawal. etransitivity; [|apply within_steps, op_claim_cancel].
  apply after_steps; [apply op_cancel|]. apply reach_assigned.
Qed.

Definition finish_2 := finish_withdrawal round_2 the_order the_withdrawal claimed_2 claim_2.2.

Lemma withdrawal_needs_restored_hold_witness :
  r_Status (row_in finish_2.2) = AwaitingCourier
  ∧ ∃ v, restored credit_held claimed_2 v the_order (row_in claim_2.2) (row_in finish_2.2).
Proof.
  assert (r_Status (row_in claim_2.2) = AwaitingPickup ∧ r_PickedUpAt (row_in claim_2.2) = None
    ∧ r_Status (row_in finish_2.2) = AwaitingCourier ∧ r_CourierID (row_in finish_2.2) = None
    ∧ ∃ v, restored credit_held claimed_2 v the_order (row_in claim_2.2) (row_in finish_2.2))
    as (_ & _ & Hs & _ & Hv); [|by split].
  apply (withdrawal_needs_restored_hold round_2 the_order the_withdrawal claimed_2 claim_2.2 finish_2.1
           finish_2.2 the_order).
  - exact (reachable_aggregate _ reach_withdrawal_claimed).
  - apply surjective_pairing.
  - apply row_found. vm_compute. reflexivity.
  - apply row_found. vm_compute. reflexivity.
  - intros Heq. apply (f_equal r_Status) in Heq. vm_compute in Heq. discriminate.
Defined.
