(* ===== verification/OrderCreationSafety.v ===== *)
(** * Order: the creation saga against Credit

    An order opens only with a confirmed hold and is rejected only with a
    refusal or a confirmed release; processing a creation ends. *)
From stdpp Require Import prelude gmap strings list relations.
From Stdlib Require Import ZArith Lia.
From S2P Require Import Prelude.
From S2P Require Import GoLib.
From S2P Require Import GoText.
From S2P Require Import OrderTypes.
From S2P Require Import OrderPolicy.
From S2P Require Import OrderDB.
From S2P Require Import OrderStore.
From S2P Require Import OrderCreationStore.
From S2P Require Import OrderAssignment.
From S2P Require Import OrderCreation.
From S2P Require Import OrderFacts.
From S2P Require Import OrderLogic.
From S2P Require Import OrderInvariant.
From S2P Require Import OrderAggregate.
From S2P Require Import OrderRecords.
From S2P Require Import OrderKeeps.
From S2P Require Import OrderSteps.
From S2P Require Import OrderRuns.
From S2P Require Import OrderExamples.
From S2P Require Import OrderCalls.
From S2P Require Import OrderProperties.

Local Open Scope Z_scope.
Local Open Scope foc_scope.

Section creation.
  Context `{UUID, !UUIDLaws, !UUIDFold, Digest}.

(** ** What the statements of a step did *)

(** A session that has locked an order and read its workflow. *)
Definition with_workflow (s : Session) (w : CreationWorkflow) : Session :=
  s <| creationBaselines := <[cw_ID w := w]> (creationBaselines s) |>.

Lemma LockCreation_run id env s w s' :
  LockCreation id env s = Ok (w, s') →
  ∃ uid row, parseID id = Ok uid ∧ LockCreationWorkflow uid (db s) = Some row
    ∧ fromCreation row = Ok w ∧ s' = with_workflow s w.
Proof.
  unfold LockCreation, is_locked. intros Hrun. inv_run Hrun. subst.
  destruct (LockCreationWorkflow a (db s)) as [row|] eqn:Hrow; [|done].
  match goal with Hx : from_option_ok _ _ = Ok _ |- _ => apply Ok_inj in Hx as <- end.
  by exists a, row.
Qed.

Lemma SaveCreation_run w n env s u s' :
  SaveCreation w n env s = Ok (u, s') →
  ∃ d', UpdateCreationWorkflow (workflow_row w (cw_ID w) (cw_OrderID w) (cw_RequesterID w)) n (db s)
          = Ok (d', 1) ∧ quiet (s <| db := d' |>) s'.
Proof.
  unfold SaveCreation, refuse. intros Hrun. inv_run Hrun.
  match goal with Hx : (_ =? 1) = true |- _ => apply Z.eqb_eq in Hx end. subst. eexists. split; [eassumption|done].
Qed.

(** What a verdict does to the tables. *)
Definition decided (v : verdict) (o : Order) (w : CreationWorkflow) (env : Env) (s : Session)
    (next : CreationWorkflow) (s' : Session) : Prop :=
  match v with
  | Wait => s' = s ∧ next = w
  | Abort_ => s' = s ∧ next = w <| cw_Phase := AbortPending |>
  | Open_ => ∃ c u, Apply c env s = Ok (u, s') ∧ c_Order c = opened_order o w (now_ env)
      ∧ next = w <| cw_Phase := CreationOpened |> <| cw_Result := Some (opened_order o w (now_ env)) |>
  | Refuse r => ∃ c u, Apply c env s = Ok (u, s') ∧ c_Order c = rejected_order o r (now_ env)
      ∧ next = w <| cw_Phase := CreationRejected |> <| cw_Rejection := r |>
  end.

Lemma apply_verdict_run v o w env s next s' :
  apply_verdict v o w (now_ env) env s = Ok (next, s') → decided v o w env s next s'.
Proof.
  unfold apply_verdict. intros Hrun. apply bind_ok in Hrun as (env' & s1 & Henv & Hrun).
  apply run_ask in Henv as [-> ->].
  destruct v; [inv_run Hrun; by subst| inv_run Hrun; by subst| |];
    (apply bind_ok in Hrun as (c & s2 & Hc & Hrun); apply run_lift in Hc as [Hc ->];
     apply bind_ok in Hrun as (u & s3 & Ha & Hrun); apply run_ret in Hrun as [<- ->];
     exists c, u; split; [done|]; split; [|done];
     exact (ac_order _ _ _ _ _ _ _ (NewChange_accepted _ _ _ _ _ _ _ Hc))).
Qed.

(** The workflow as a step leaves it. *)
Definition recorded (env : Env) (ob : creationObservation) (v : verdict) (next : CreationWorkflow)
    : CreationWorkflow :=
  creation_paced env (is_abort v)
    (next <| cw_LeaseUntil := now_ env |> <| cw_UpdatedAt := now_ env |>
          <| cw_LastError := creation_error next ob |>).

(** A finish transaction finds its claim gone and changes nothing, or decides
    and records what it decided. *)
Lemma finish_creation_run orderID claimed ob env d b s :
  finish_creation orderID claimed ob env (start d) = Ok (b, s) →
  ∃ uid row o wrow w, parseID orderID = Ok uid ∧ orders d !! uid = Some row ∧ fromOrder row = Ok o
    ∧ o_ID o = uid ∧ LockCreationWorkflow uid d = Some wrow ∧ fromCreation wrow = Ok w
    ∧ ((creation_still_claimed w claimed (now_ env) = false ∧ b = false ∧ db s = d)
       ∨ (creation_still_claimed w claimed (now_ env) = true ∧ o_Status o = PendingReservation
          ∧ let v := creation_verdict w ob (now_ env) in
            ∃ next s1, decided v o w env (with_workflow (opened (start d) uid o) w) next s1
              ∧ b = is_abort v
              ∧ UpdateCreationWorkflow (let r := recorded env ob v next in
                    workflow_row r (cw_ID r) (cw_OrderID r) (cw_RequesterID r)) (cw_Generation next)
                  (db s1) = Ok (db s, 1)
              ∧ failed s1 = failed s)).
Proof.
  unfold finish_creation. intros Hrun.
  apply bind_ok in Hrun as (o & s1 & Hlock & Hrun).
  apply LockOrder_run in Hlock as (uid & row & Hid & Hrow & Ho & ->).
  apply bind_ok in Hrun as (offers & s2 & Hrel & Hrun).
  apply Relationships_run in Hrel as (uid' & Hid' & Hlk & _ & ->).
  rewrite Hid in Hid'. apply Ok_inj in Hid' as <-. cbn in Hlk, Hrow.
  assert (o_ID o = uid) as Heq.
  { destruct Hlk as [o' Hlk]. apply lookup_insert_Some in Hlk as [[? _]|[_ Hlk]]; [done|].
    by rewrite lookup_empty in Hlk. }
  rewrite Heq in Hrun. apply bind_ok in Hrun as (w & s3 & Hw & Hrun).
  apply LockCreation_run in Hw as (uid' & wrow & Hid' & Hwrow & Hw & ->).
  rewrite Hid in Hid'. apply Ok_inj in Hid' as <-. cbn in Hwrow.
  exists uid, row, o, wrow, w. do 6 (split; [done|]).
  apply bind_ok in Hrun as (env' & s4 & Henv & Hrun). apply run_ask in Henv as [-> ->]. cbv zeta in Hrun.
  destruct (creation_still_claimed w claimed (now_ env)) eqn:Hsc; cbn [negb] in Hrun; [right|left].
  - split; [done|]. apply bind_ok in Hrun as (u & s5 & Hst & Hrun).
    apply run_ensure in Hst as [Hst%same_eq ->]. split; [done|].
    apply bind_ok in Hrun as (next & s6 & Hv & Hrun). apply apply_verdict_run in Hv.
    exists next, s6. split; [exact Hv|]. apply bind_ok in Hrun as (u' & s7 & Hsave & Hrun).
    apply run_ret in Hrun as [<- ->]. split; [done|].
    apply SaveCreation_run in Hsave as (d' & Hup & Hq). rewrite (qt_db _ _ Hq), (qt_failed _ _ Hq). split; [exact Hup|done].
  - by apply run_ret in Hrun as [<- ->].
Qed.

Lemma creation_claimed_iff w claimed now :
  creation_still_claimed w claimed now = true ↔
  cw_ID w = cw_ID claimed ∧ cw_Generation w = cw_Generation claimed ∧ cw_Phase w = cw_Phase claimed
  ∧ creation_resolved w = false ∧ now < cw_LeaseUntil w.
Proof.
  unfold creation_still_claimed, After.
  rewrite !andb_true_iff, negb_true_iff, Z.eqb_eq, !same_true, Z.ltb_lt. tauto.
Qed.

(** The row that an update rewrote. *)
Lemma updated_creation row n uid w d d1 :
  UpdateCreationWorkflow row n d = Ok (d1, 1) → LockCreationWorkflow uid d = Some w →
  wf_ID row = wf_ID w → wf_Generation w = n →
  LockCreationWorkflow uid d1 = Some (updated_workflow w row) ∧ same_core d d1.
Proof.
  intros Hup Hw Hid Hn. unfold UpdateCreationWorkflow in Hup. inv_ok Hup. injection Hup as <- _.
  split; [|done]. unfold LockCreationWorkflow, GetCreationWorkflow. cbn [workflows update_field set_workflows].
  rewrite find_first_fmap.
  - unfold LockCreationWorkflow, GetCreationWorkflow in Hw. rewrite Hw. cbn.
    by rewrite Hid, same_refl, Hn, Z.eqb_refl.
  - intros x. by destruct (_ && _).
Qed.

(** ** An order opens only with a confirmed hold *)

(** What Credit was seen to hold. *)
Record held (v : ReservationView) (w : WorkflowRow) (id : string) (row' : OrderRow) : Prop := {
  hd_state : vw_State v = ReservationHeld;
  hd_order : vw_OrderID v = id;
  hd_requester : vw_RequesterID v = wf_RequesterID w;
  hd_amount : vw_OriginalAmount v = wf_ReservationAmount w ∧ vw_ReservedAmount v = wf_ReservationAmount w;
  hd_recorded : r_ReservedCredits row' = wf_ReservationAmount w;
}.

(** What Credit was seen to have refused or released. *)
Definition returned (credit : CreationCredit) (claimed : CreationWorkflow) (w : WorkflowRow)
    (id : string) : Prop :=
  wf_Phase w = ReservePending ∧ cc_Reserve credit (Intent claimed) = CreditInsufficient
  ∨ ∃ v, cc_GetReservation credit (cw_OrderID claimed) = Some v ∧ vw_OrderID v = id
         ∧ vw_State v = ReservationIsReleased ∧ vw_ReservedAmount v = 0.

Lemma verdict_cases w claimed credit now :
  cw_Phase w = cw_Phase claimed →
  let ob := observeCreation credit claimed in
  match creation_verdict w ob now with
  | Open_ => cw_Phase w ≠ AbortPending ∧ now < cw_ExpiresAt w
      ∧ ∃ v, cc_GetReservation credit (cw_OrderID claimed) = Some v ∧ isMatchingHold v w = true
  | Refuse _ => cw_Phase w = ReservePending ∧ cc_Reserve credit (Intent claimed) = CreditInsufficient
      ∨ ∃ v, cc_GetReservation credit (cw_OrderID claimed) = Some v ∧ isReleased v (cw_OrderID w) = true
  | Abort_ => cw_Phase w ≠ AbortPending
  | Wait => True
  end.
Proof.
  intros Hp. unfold creation_verdict, observeCreation. rewrite <- Hp. cbv zeta.
  destruct (same (cw_Phase w) ReservePending && _) eqn:Href; cbn.
  - apply andb_prop in Href as [Hrp%same_eq Hin%same_eq]. rewrite Hrp in *. cbn in *. by left.
  - destruct (cc_GetReservation credit (cw_OrderID claimed)) as [v|] eqn:Hv; cbn;
      [|destruct (decide _); [done|]; by destruct (negb _)].
    destruct (same (cw_Phase w) AbortPending && _) eqn:Hab; cbn;
      [apply andb_prop in Hab as [Hab%same_eq _]; by rewrite decide_True|].
    destruct (decide (cw_Phase w = AbortPending)) as [Ha|Ha].
    + destruct (isReleased v (cw_OrderID w)) eqn:Hr; [|done]. right. by exists v.
    + destruct (After (cw_ExpiresAt w) now) eqn:He; cbn; [|done]. unfold After in He. apply Z.ltb_lt in He.
      destruct (isReleased v (cw_OrderID w)) eqn:Hr; [right; by exists v|].
      destruct (isMatchingHold v w) eqn:Hm; [|done]. split; [done|]. split; [done|]. by exists v.
Qed.

(** The row that the step of a workflow changes. *)
Lemma decided_row v o w env d uid orow next s1 id row row' d' :
  Inv d → orders d !! uid = Some orow → fromOrder orow = Ok o → o_ID o = uid →
  decided v o w env (with_workflow (opened (start d) uid o) w) next s1 → same_core (db s1) d' →
  orders d !! id = Some row → orders d' !! id = Some row' → row' ≠ row →
  id = uid ∧ row = orow
  ∧ ((v = Open_ ∧ r_Status row' = AwaitingCourier ∧ r_ReservedCredits row' = cw_Amount w)
     ∨ ∃ r, v = Refuse r ∧ r_Status row' = Rejected).
Proof.
  intros HI Horow Ho Hoid Hd [Hord _] Hrow Hrow' Hne.
  assert (Hs : aggregate_inv d (with_workflow (opened (start d) uid o) w)).
  { apply (aggregate_opened d uid orow o (start d)); done. }
  assert (∀ c u o', Apply c env (with_workflow (opened (start d) uid o) w) = Ok (u, s1) → c_Order c = o' →
    o_ID o' = uid → id = uid ∧ row = orow ∧ r_Status row' = o_Status o'
      ∧ r_ReservedCredits row' = o_ReservedCredits o') as Happly.
  { intros c u o' Ha Hco Hid'. rewrite Hord in Hrow'.
    destruct (Apply_row d (with_workflow (opened (start d) uid o) w) c env u s1 id row row' Hs Ha Hrow Hrow' Hne)
      as (b & _ & _ & Hid & _ & _ & Hst & _ & _ & Hres).
    rewrite Hco in *. rewrite Hid' in Hid. subst id. rewrite Horow in Hrow. by apply (inj Some) in Hrow as <-. }
  destruct v; simpl in Hd.
  - destruct Hd as [-> _]. rewrite Hord in Hrow'. cbn in Hrow'. congruence.
  - destruct Hd as [-> _]. rewrite Hord in Hrow'. cbn in Hrow'. congruence.
  - destruct Hd as (c & u & Ha & Hco & _).
    destruct (Happly c u _ Ha Hco Hoid) as (-> & -> & Hst & _). split; [done|]. split; [done|]. right. by exists r.
  - destruct Hd as (c & u & Ha & Hco & _).
    destruct (Happly c u _ Ha Hco Hoid) as (-> & -> & Hst & Hres). by repeat (split; [done|]); left.
Qed.

(** C16: A step of a creation opens an order only from PendingReservation and before
    its expiry, only when Credit was seen to hold exactly the reward for that order
    and requester, and rejects it only when Credit refused the reservation or was
    seen to have released it; a workflow that is aborting never opens its order, and
    the workflow is resolved in the same transaction. *)
Theorem creation_needs_confirmed_hold r orderID claimed d out d' id row row' :
  Inv d → creation_finish_step r orderID claimed d = (out, d') →
  orders d !! id = Some row → orders d' !! id = Some row' → row' ≠ row →
  r_Status row = PendingReservation
  ∧ ∃ w w', LockCreationWorkflow id d = Some w ∧ LockCreationWorkflow id d' = Some w'
    ∧ (r_Status row' = AwaitingCourier ∧ wf_Phase w' = CreationOpened ∧ wf_Phase w ≠ AbortPending
         ∧ now_ (cn_finish r).1 < wf_ExpiresAt w
         ∧ (∃ v, cc_GetReservation (cn_credit r) (cw_OrderID claimed) = Some v ∧ held v w id row')
       ∨ r_Status row' = Rejected ∧ wf_Phase w' = CreationRejected
         ∧ returned (cn_credit r) claimed w id).
Proof.
  intros HI [[-> _]|(b & s & Hrun & Hf & _ & _ & <- & _)]%within_ran Hrow Hrow' Hne; [congruence|].
  apply finish_creation_run in Hrun as (uid & orow & o & wrow & w & _ & Horow & Ho & Hoid & Hwrow & Hw
    & [(_ & _ & Hdb)|(Hsc & Hst & next & s1 & Hd & _ & Hup & Hf1)]); [congruence|].
  set (ob := observeCreation _ _) in *. set (env := (cn_finish r).1) in *.
  assert (wrow_w : wf_ID wrow = cw_ID w ∧ wf_OrderID wrow = cw_OrderID w ∧ wf_Generation wrow = cw_Generation w
    ∧ wf_Phase wrow = cw_Phase w ∧ wf_RequesterID wrow = cw_RequesterID w
    ∧ wf_ReservationAmount wrow = cw_Amount w ∧ wf_ExpiresAt wrow = cw_ExpiresAt w).
  { unfold fromCreation in Hw. inv_ok Hw. by subst w. }
  destruct wrow_w as (W1 & W2 & W3 & W4 & W5 & W6 & W7).
  pose proof (find_first_some _ _ _ Hwrow) as [_ Huid%same_eq].
  apply creation_claimed_iff in Hsc as (_ & _ & Hp & _).
  pose proof (verdict_cases w claimed (cn_credit r) (now_ env) Hp) as Hv. fold ob in Hv. cbv zeta in Hv.
  set (v := creation_verdict w ob (now_ env)) in *.
  assert (same_records d (db s1)) as Hside.
  { destruct v; simpl in Hd; [destruct Hd as [-> _]; by repeat split| destruct Hd as [-> _]; by repeat split| |];
      destruct Hd as (c & u & Ha & _); apply Apply_records in Ha; [exact Ha|congruence|exact Ha|congruence]. }
  assert (LockCreationWorkflow uid (db s1) = Some wrow) as Hwrow1.
  { destruct Hside as [Hside _]. unfold LockCreationWorkflow, GetCreationWorkflow. rewrite Hside. exact Hwrow. }
  assert (cw_ID next = cw_ID w ∧ cw_Generation next = cw_Generation w) as [N1 N2].
  { destruct v; simpl in Hd; [destruct Hd as [_ ->]|destruct Hd as [_ ->]|destruct Hd as (?&?&_&_&->)..]; done. }
  destruct (updated_creation _ _ _ _ _ _ Hup Hwrow1) as [Hwrow' Hcore]; [cbn; congruence|congruence|].
  destruct (decided_row v o w env d uid orow next s1 id row row' (db s) HI Horow Ho Hoid Hd Hcore Hrow Hrow' Hne)
    as (-> & -> & Hcases).
  destruct (fromOrder_fields _ _ Ho) as (_ & _ & _ & Hso & _).
  split; [congruence|]. exists wrow. eexists. split; [exact Hwrow|]. split; [exact Hwrow'|].
  destruct Hcases as [(Hvo & Hs' & Hres)|(rj & Hvo & Hs')]; rewrite Hvo in Hv, Hd.
  - left. destruct Hv as (Hna & Hexp & view & Hview & Hm). destruct Hd as (c & u & _ & _ & ->).
    split; [done|]. split; [done|]. split; [congruence|]. split; [lia|]. exists view. split; [done|].
    unfold isMatchingHold in Hm. inv_checks Hm. split; try split; congruence.
  - right. destruct Hd as (c & u & _ & _ & ->). split; [done|]. split; [done|].
    destruct Hv as [[Hrp Hin]|(view & Hview & Hr)]; [left; split; [congruence|done]|right].
    exists view. unfold isReleased in Hr. inv_checks Hr. repeat split; try done; try congruence.
Qed.

(** ** Termination *)

Lemma fromCreation_phase row w : fromCreation row = Ok w → wf_Phase row = cw_Phase w.
Proof. unfold fromCreation. intros Hw. inv_ok Hw. by subst w. Qed.

(** A step that asks for another one leaves its workflow aborting. *)
Lemma ready_aborts r orderID claimed d d' :
  creation_finish_step r orderID claimed d = (Ok true, d') →
  cw_Phase claimed ≠ AbortPending
  ∧ ∃ uid w, parseID orderID = Ok uid ∧ LockCreationWorkflow uid d' = Some w ∧ wf_Phase w = AbortPending.
Proof.
  intros [[_ Hf]|(b & s & Hrun & _ & _ & _ & <- & Hout)]%within_ran; [done|].
  rewrite <- (Hout true eq_refl) in Hrun.
  apply finish_creation_run in Hrun as (uid & orow & o & wrow & w & Hid & _ & _ & _ & Hwrow & Hw
    & [(_ & [=] & _)|(Hsc & _ & next & s1 & Hd & Hb & Hup & _)]).
  apply creation_claimed_iff in Hsc as (_ & _ & Hp & _).
  pose proof (verdict_cases w claimed (cn_credit r) (now_ (cn_finish r).1) Hp) as Hv. cbv zeta in Hv.
  destruct (creation_verdict _ _ _); try discriminate Hb. destruct Hd as [-> ->].
  split; [congruence|]. exists uid. eexists. split; [done|].
  assert (wf_ID wrow = cw_ID w ∧ wf_Generation wrow = cw_Generation w) as [W1 W3].
  { unfold fromCreation in Hw. inv_ok Hw. by subst w. }
  destruct (updated_creation _ _ uid wrow _ _ Hup Hwrow) as [Hw' _]; [done|done|]. split; [exact Hw'|done].
Qed.

Lemma claim_aborts r orderID uid claimed d d' w :
  creation_claim_step r orderID d = (Ok (Some claimed), d') →
  parseID orderID = Ok uid → LockCreationWorkflow uid d = Some w → wf_Phase w = AbortPending →
  cw_Phase claimed = AbortPending.
Proof.
  intros (s & Hrun & _)%within_committed Hid Hw Hp. unfold claim_creation in Hrun.
  apply bind_ok in Hrun as (o & s1 & Hlock & Hrun).
  destruct o as [o|]; [|by apply run_ret in Hrun as [[=] _]].
  assert (db s1 = d) as Hdb.
  { unfold catch, TryLockCreationOrder in Hlock.
    destruct (_ ≫= _) as [[x y]|[e y]] eqn:Ho; [|destruct (decide _); [|done]; by apply run_ret in Hlock as [[=] _]].
    injection Hlock as -> <-. inv_run Ho. by subst. }
  apply bind_ok in Hrun as (w0 & s2 & Hlw & Hrun).
  apply LockCreation_run in Hlw as (uid' & row & Hid' & Hrow & Hw0 & ->).
  rewrite Hid in Hid'. apply Ok_inj in Hid' as <-. rewrite Hdb, Hw in Hrow. apply (inj Some) in Hrow as <-.
  apply fromCreation_phase in Hw0. apply bind_ok in Hrun as (env & s3 & Henv & Hrun).
  apply run_ask in Henv as [-> ->]. cbv zeta in Hrun.
  destruct (creation_not_due _ _); [by apply run_ret in Hrun as [[=] _]|].
  apply bind_ok in Hrun as (u & s4 & _ & Hrun). apply bind_ok in Hrun as (u' & s5 & _ & Hrun).
  apply run_ret in Hrun as [[= <-] _]. unfold creation_claim. by destruct (same (cw_Phase w0) ReservePending && _); cbn; congruence.
Qed.

(** C31: Processing a creation always ends within two financial steps: the first may
    ask for an immediate release, the second never asks again, whatever Credit
    replies and whatever other transactions do in between. *)
Theorem creation_processing_terminates r1 r2 rest orderID d :
  ∃ out, (ProcessCreation (r1 :: r2 :: rest) orderID d).1 = Some out
    ∧ ProcessCreation (r1 :: r2 :: rest) orderID d = ProcessCreation [r1; r2] orderID d.
Proof.
  cbn [ProcessCreation]. destruct (creation_claim_step r1 orderID d) as [[[claimed|]|e] d1]; [|eauto..].
  destruct (creation_finish_step r1 orderID claimed (cn_meanwhile r1 d1)) as [[[]|e] d2] eqn:Hf; [|eauto..].
  apply ready_aborts in Hf as (_ & uid & w & Hid & Hw & Hp).
  destruct (creation_claim_step r2 orderID d2) as [[[claimed'|]|e] d3] eqn:Hc; [|eauto..].
  destruct (creation_finish_step r2 orderID claimed' (cn_meanwhile r2 d3)) as [[[]|e] d4] eqn:Hf; [|eauto..].
  apply ready_aborts in Hf as [Hne _]. destruct Hne. by eapply claim_aborts.
Qed.

End creation.

(** ** At the example run *)

(** The step of the example, its claim and its end. *)
Definition claimed_run := creation_claim_step creation_1 the_order d_created.
Definition no_workflow : CreationWorkflow :=
  new_workflow EmptyString no_order request_input JNull EmptyString 0.
Definition claimed_creation : CreationWorkflow :=
  match claimed_run.1 with Ok (Some w) => w | _ => no_workflow end.
Definition finished_run := creation_finish_step creation_1 the_order claimed_creation claimed_run.2.

Lemma reach_claimed_creation : rtc order_step empty_odb claimed_run.2.
Proof. etransitivity; [apply reach_created|]. unfold claimed_run. apply within_steps, op_claim_creation. Qed.

Lemma creation_needs_confirmed_hold_witness : r_Status (row_in claimed_run.2) = PendingReservation.
Proof.
  apply (creation_needs_confirmed_hold creation_1 the_order claimed_creation claimed_run.2 finished_run.1
           finished_run.2 the_order (row_in claimed_run.2) (row_in finished_run.2)).
  - exact (reachable_aggregate _ reach_claimed_creation).
  - apply surjective_pairing.
  - apply row_found. vm_compute. reflexivity.
  - apply row_found. vm_compute. reflexivity.
  - intros Heq. assert (r_Status (row_in finished_run.2) = r_Status (row_in claimed_run.2)) as Hs by (by rewrite Heq).
    vm_compute in Hs. discriminate Hs.
Defined.
