(* ===== verification/OrderDelivery.v ===== *)
(** * Order: deliveries and timers

    An order becomes delivered only with the pending receipt of its courier, in
    time, and with photos that were verified before the receipt was taken; the
    confirmation, the receipt, the photos and the order change together. At the end:
    the timers close only what is due. *)
From stdpp Require Import prelude gmap strings list relations.
From Stdlib Require Import ZArith Lia.
From S2P Require Import Prelude.
From S2P Require Import GoLib.
From S2P Require Import GoText.
From S2P Require Import OrderTypes.
From S2P Require Import OrderPolicy.
From S2P Require Import OrderDB.
From S2P Require Import OrderStore.
From S2P Require Import OrderProgress.
From S2P Require Import OrderAssignment.
From S2P Require Import OrderProofStore.
From S2P Require Import OrderProofs.
From S2P Require Import OrderFacts.
From S2P Require Import OrderLogic.
From S2P Require Import OrderInvariant.
From S2P Require Import OrderAggregate.
From S2P Require Import OrderRecords.
From S2P Require Import OrderKeeps.
From S2P Require Import OrderSagaKeeps.
From S2P Require Import OrderSteps.
From S2P Require Import OrderRuns.
From S2P Require Import OrderExamples.
From S2P Require Import OrderCalls.
From S2P Require Import OrderProperties.
From S2P Require Import OrderSagas.

Local Open Scope Z_scope.
Local Open Scope foc_scope.

Section delivery.
  Context `{UUID, !UUIDLaws, !UUIDFold, Digest}.

(** ** Reads *)

Lemma proofLocked_run id env s u s' :
  proofLocked id env s = Ok (u, s') → s' = s ∧ is_Some (locked s !! id).
Proof.
  unfold proofLocked, is_locked. intros Hrun. inv_run Hrun. subst. split; [done|].
  by destruct (locked s !! id).
Qed.

Lemma GetProofUpload_run id env s u s' :
  GetProofUpload id env s = Ok (u, s') →
  s' = s ∧ ∃ uid r, parseID id = Ok uid ∧ uploads (db s) !! uid = Some r ∧ u = fromProofUpload r.
Proof.
  unfold GetProofUpload, any_locked, is_locked. intros Hrun. inv_run Hrun. subst. split; [done|].
  unfold GetUpload in *. destruct (uploads (db s) !! a0) as [r|] eqn:Hr; [|done]. exists a0, r.
  match goal with Hx : from_option_ok _ _ = Ok _ |- _ => by apply Ok_inj in Hx as <- end.
Qed.

(** The photo that an identifier names. *)
Definition names (d : ODB) (id : string) (u : ProofUpload) : Prop :=
  ∃ uid r, parseID id = Ok uid ∧ uploads d !! uid = Some r ∧ u = fromProofUpload r.

Lemma load_proofs_run o c ids env s us s' :
  load_proofs o c ids env s = Ok (us, s') → s' = s ∧ Forall2 (names (db s)) ids us.
Proof.
  revert us. induction ids as [|id ids IH]; intros us Hrun; cbn [load_proofs] in Hrun.
  - apply run_ret in Hrun as [<- ->]. by split; [|constructor].
  - apply bind_ok in Hrun as (u & s1 & Hu & Hrun). unfold precondition_if_missing in Hu.
    apply run_catch_fail in Hu; [|done]. apply GetProofUpload_run in Hu as [-> Hu].
    apply bind_ok in Hrun as (x & s2 & Hx & Hrun). apply run_ensure in Hx as [_ ->].
    apply bind_ok in Hrun as (vs & s3 & Hvs & Hrun). apply run_ret in Hrun as [<- ->].
    apply IH in Hvs as [-> Hvs]. split; [done|]. by constructor.
Qed.

(** A read that may find nothing leaves the session alone. *)
Lemma optional_confirmation_run id env s r s' :
  optional (GetProofConfirmation id) env s = Ok (r, s') → s' = s ∧ r = GetConfirmation id (db s).
Proof.
  unfold optional, GetProofConfirmation, proofLocked, is_locked, catch, mbind, st_mbind, gets, query.
  cbn beta iota. destruct (locked s !! id); cbn; [|done]. destruct (aborted s); cbn; [done|].
  destruct (GetConfirmation id (db s)); cbn; intros [= <- <-]; done.
Qed.

Lemma receiptTime_run s0 c i receipt env s now s' :
  receiptTime s0 c i receipt env s = Ok (now, s') → s' = s.
Proof.
  unfold receiptTime. destruct receipt as [r|].
  - unfold GetDeliveryReceipt, proofLocked, is_locked. intros Hrun. inv_run Hrun. by subst.
  - unfold proofTime. destruct (ps_testNow s0); intros Hrun; [by apply run_ret in Hrun as [_ ->]|].
    unfold ProofServerTime in Hrun. destruct (decide _); [done|]. by destruct (aborted s); [|injection Hrun as _ ->].
Qed.

Lemma confirmationState_run o c i now env s b s' :
  confirmationState o c i now env s = Ok (b, s') →
  s' = s ∧ (b = false → canUploadProof o c now = Ok tt ∧ GetConfirmation (o_ID o) (db s) = None).
Proof.
  unfold confirmationState. intros Hrun.
  apply bind_ok in Hrun as (u & s1 & Ha & Hrun). apply run_ensure in Ha as [_ ->].
  apply bind_ok in Hrun as (r & s2 & Hr & Hrun). apply optional_confirmation_run in Hr as [-> Hr].
  destruct r as [p|].
  - inv_run Hrun. by subst.
  - apply bind_ok in Hrun as (x & s3 & Hx & Hrun). apply run_lift in Hx as [Hx ->].
    apply run_ret in Hrun as [<- ->]. destruct x. done.
Qed.

(** The photos that the first transaction loads are the listed ones. *)
Lemma first_loads s0 c i receipt id env fl d us d' :
  within_tx env fl (proofs_locked id (confirm_first s0 c i receipt)) d = (Ok (inr us), d') →
  Forall2 (names d) (cd_ProofIDs i) us.
Proof.
  intros (s & Hrun & _)%within_committed. unfold proofs_locked in Hrun.
  apply Mutate_run in Hrun as (uid & row & o & ch & s2 & _ & _ & _ & _ & Hbuild & _); [|done].
  unfold confirm_first in Hbuild.
  apply bind_ok in Hbuild as (at_ & s3 & Ht & Hbuild). apply receiptTime_run in Ht as ->.
  apply bind_ok in Hbuild as (b & s4 & Hc & Hbuild). apply confirmationState_run in Hc as [-> _].
  destruct b; [by apply run_ret in Hbuild as [[=] _]|].
  apply bind_ok in Hbuild as (vs & s5 & Hl & Hbuild). apply run_ret in Hbuild as [[= <- _] _].
  apply load_proofs_run in Hl as [_ Hl]. exact Hl.
Qed.

(** ** Writes *)

(** Photo [u] was verified in time in [d], and is accepted in [d']. *)
Definition accepted_in_time (orderID : string) (received : Time) (d d' : ODB) (id : string) : Prop :=
  ∃ uid r v, parseID id = Ok uid ∧ uploads d !! uid = Some r ∧ up_State r = ProofUploading
    ∧ up_OrderID r = orderID ∧ up_VerifiedAt r = Some v ∧ v ≤ received
    ∧ uploads d' !! uid = Some (r <| up_State := ProofAccepted |>).

Lemma evidence_ok_facts c receipt r e :
  evidence_ok c receipt (fromProofUpload r) e = true →
  up_State r = ProofUploading ∧ up_OrderID r = pc_OrderID c
  ∧ ∃ v, up_VerifiedAt r = Some v ∧ v ≤ dr_ReceivedAt receipt.
Proof.
  unfold evidence_ok, proofBelongsTo. intros He.
  apply andb_prop in He as [He Hv]. apply andb_prop in He as [He Hb]. apply andb_prop in He as [_ Hs%same_eq].
  apply andb_prop in Hb as [Ho%same_eq _]. cbn in *. split; [done|]. split; [done|].
  destruct (up_VerifiedAt r) as [v|]; [|done]. destruct (pu_VerifiedAt e) as [v'|]; [|done].
  apply andb_prop in Hv as [_ Hle%Z.leb_le]. by exists v.
Qed.

(** One photo accepted. *)
Lemma accept_one_run id env s u s' :
  one_row (exec (λ d, mret (AcceptProofUpload id d))) env s = Ok (u, s') →
  ∃ r, uploads (db s) !! id = Some r ∧ up_State r = ProofUploading
    ∧ s' = s <| db := (db s) <| uploads := <[id := r <| up_State := ProofAccepted |>]> (uploads (db s)) |> |>.
Proof.
  unfold one_row. intros Hrun. inv_run Hrun.
  match goal with Hx : mret _ = Ok _ |- _ => apply Ok_inj in Hx; rename Hx into Hacc end.
  match goal with Hx : (_ =? 1) = true |- _ => apply Z.eqb_eq in Hx; subst end.
  unfold AcceptProofUpload, update_upload in Hacc. destruct (uploads (db s) !! id) as [r|]; [|done].
  destruct (decide _); [|done]. injection Hacc as <-. by exists r.
Qed.

Lemma accept_uploads_run c receipt es env s u s' :
  (∀ id r, uploads (db s) !! id = Some r → up_ID r = id) →
  accept_uploads c receipt es env s = Ok (u, s') →
  (∃ m, s' = s <| db := (db s) <| uploads := m |> |>)
  ∧ (∀ id r, uploads (db s) !! id = Some r → up_State r = ProofAccepted → uploads (db s') !! id = Some r)
  ∧ Forall (λ e, accepted_in_time (pc_OrderID c) (dr_ReceivedAt receipt) (db s) (db s') (pu_ID e)) es.
Proof.
  revert s. induction es as [|e es IH]; intros s Hkeys Hrun; cbn [accept_uploads] in Hrun.
  { apply run_ret in Hrun as [_ ->]. split; [|by split]. exists (uploads (db s)). by destruct s as [[] ? ? ? ? ? ? ? ? ? ? ?]. }
  apply bind_ok in Hrun as (stored & s1 & Hg & Hrun). apply run_writeResult, GetProofUpload_run in Hg
    as (-> & uid & r & Hid & Hr & ->).
  destruct (evidence_ok c receipt (fromProofUpload r) e) eqn:He; cbn [negb] in Hrun; [|inv_run Hrun; done].
  apply evidence_ok_facts in He as (Hs & Ho & v & Hv & Hle).
  apply bind_ok in Hrun as (x & s1 & Hacc & Hrun). cbn [fromProofUpload pu_ID] in Hacc.
  pose proof (Hkeys _ _ Hr) as Hup. cbn in Hacc. rewrite Hup in Hacc.
  apply accept_one_run in Hacc as (r' & Hr' & _ & ->). rewrite Hr in Hr'. apply (inj Some) in Hr' as <-.
  apply IH in Hrun as ([m ->] & Hkept & Hall); cycle 1.
  { cbn. intros id q [[<- <-]|[_ Hq]]%lookup_insert_Some; [done|by apply Hkeys]. }
  split; [by exists m|]. split.
  - intros id q Hq Hst. apply Hkept; [|done]. cbn. rewrite lookup_insert_ne; [done|]. intros <-. congruence.
  - constructor.
    + exists uid, r, v. repeat (split; [done|]). apply Hkept; [|done]. cbn. apply lookup_insert_eq.
    + eapply Forall_impl; [exact Hall|]. intros f (uid' & q & v' & Hid' & Hq & Hst & Hrest).
      exists uid', q, v'. split; [done|]. cbn in Hq.
      apply lookup_insert_Some in Hq as [[<- <-]|[_ Hq]]; [done|]. by split.
Qed.

Lemma FinishDeliveryReceipt_run id state at_ env s u s' :
  FinishDeliveryReceipt id state at_ env s = Ok (u, s') →
  s' = s <| db := (FinishReceipt id state at_ (db s)).1 |>.
Proof.
  unfold FinishDeliveryReceipt, one_row, exec_at, GetDeliveryReceipt, proofLocked, is_locked. intros Hrun.
  inv_run Hrun. subst. match goal with Hx : mret _ = Ok _ |- _ => apply Ok_inj in Hx; by rewrite Hx end.
Qed.

(** The receipt that is finished was pending; it is found under its key. *)
Lemma finished_receipt order d q state at_ :
  NoDup (rc_ID <$> receipts d) → GetPendingReceipt order d = Some q →
  GetReceipt (rc_ID q) (FinishReceipt (rc_ID q) state at_ d).1
  = Some (q <| rc_State := state |> <| rc_ProcessedAt := Some (stored_time at_) |>).
Proof.
  intros Hn Hq. unfold GetPendingReceipt in Hq. apply find_first_some in Hq as [Hin Hp].
  apply andb_prop in Hp as [_ Hp]. unfold FinishReceipt, update_receipt, GetReceipt.
  cbn [fst receipts update_field set_receipts].
  rewrite find_first_fmap by (intros x; by destruct (_ && _)).
  pose proof (find_first_key rc_ID _ _ Hn Hin) as Hk. unfold same in *. rewrite Hk. simpl.
  rewrite bool_decide_true by done. by rewrite Hp.
Qed.

Lemma pending_run id env s r s' :
  GetPendingDeliveryReceipt id env s = Ok (r, s') →
  s' = s ∧ ∃ q, GetPendingReceipt id (db s) = Some q ∧ r = fromDeliveryReceipt q.
Proof.
  unfold GetPendingDeliveryReceipt, proofLocked, is_locked. intros Hrun. inv_run Hrun. subst. split; [done|].
  destruct (GetPendingReceipt id (db s)) as [q|]; [|done]. exists q.
  match goal with Hx : from_option_ok _ _ = Ok _ |- _ => by apply Ok_inj in Hx as <- end.
Qed.

Record confirmed_by (c : ProofConfirmation) (es : list ProofUpload) (d d' : ODB) (q : ReceiptRow) : Prop := {
  cb_pending : GetPendingReceipt (pc_OrderID c) d = Some q;
  cb_receipt : receipt_confirms (fromDeliveryReceipt q) c = true;
  cb_photos : Forall (λ e, accepted_in_time (pc_OrderID c) (rc_ReceivedAt q) d d' (pu_ID e)) es;
  cb_confirmation : GetConfirmation (pc_OrderID c) d' = Some c;
  cb_accepted : rc_State <$> GetReceipt (rc_ID q) d' = Some ReceiptAccepted;
  cb_core : same_core d d';
}.

Lemma SaveProofConfirmation_run c es env s u s' :
  records_ok (db s) → SaveProofConfirmation c es env s = Ok (u, s') →
  (∃ q, confirmed_by c es (db s) (db s') q) ∧ quiet (s <| db := db s' |>) s'.
Proof.
  intros Hok Hrun. unfold SaveProofConfirmation, refuse in Hrun.
  apply bind_ok in Hrun as (x & s1 & Hx & Hrun). apply run_writeResult, proofLocked_run in Hx as [-> _].
  apply bind_ok in Hrun as (r & s1 & Hr & Hrun). apply run_writeResult, pending_run in Hr as (-> & q & Hq & ->).
  destruct (receipt_confirms _ c) eqn:Hrc; cbn [negb orb] in Hrun; [|inv_run Hrun; done].
  destruct (negb _); [inv_run Hrun; done|].
  apply bind_ok in Hrun as (x1 & s1 & Ha & Hrun).
  apply accept_uploads_run in Ha as ([m ->] & _ & Hall); [|apply Hok].
  apply bind_ok in Hrun as (x2 & s1 & Hj & Hrun). inv_run Hj.
  apply bind_ok in Hrun as (x3 & s1 & Hi & Hrun). apply run_writeResult, run_exec_unit in Hi as (_ & d1 & Hi & ->).
  apply bind_ok in Hrun as (now & s1 & Ht & Hrun). apply run_writeResult in Ht.
  unfold ProofServerTime in Ht. destruct (decide _); [done|]. destruct (aborted _); [done|].
  injection Ht as <- <-. apply FinishDeliveryReceipt_run in Hrun as ->.
  unfold InsertConfirmation in Hi. inv_ok Hi. subst d1. split; [|done]. exists q. split; try done.
  - unfold GetConfirmation. cbn. apply lookup_insert_eq.
  - cbn [db update_field set_db]. erewrite finished_receipt; [done|apply Hok|exact Hq].
Qed.

(** ** The second transaction *)

Lemma reads_time s0 b env s now s' :
  (if b : bool then ProofServerTime else proofTime s0) env s = Ok (now, s') → s' = s.
Proof.
  assert (∀ t s2, ProofServerTime env s = Ok (t, s2) → s2 = s) as Hserver.
  { intros t s2. unfold ProofServerTime. destruct (decide _); [done|]. by destruct (aborted s); [|intros [= _ <-]]. }
  destruct b; [apply Hserver|]. unfold proofTime. destruct (ps_testNow s0); [|apply Hserver].
  by intros [_ ->]%run_ret.
Qed.

Lemma recheckProofs_run o c us env s u s' : recheckProofs o c us env s = Ok (u, s') → s' = s.
Proof.
  induction us as [|e us IH]; cbn [recheckProofs]; intros Hrun; [by apply run_ret in Hrun as [_ ->]|].
  apply bind_ok in Hrun as (x & s1 & Hx & Hrun). apply GetProofUpload_run in Hx as [-> _].
  apply bind_ok in Hrun as (y & s1 & Hy & Hrun). apply run_ensure in Hy as [_ ->]. by apply IH.
Qed.

Lemma exception_current_run s0 i receipt outage now env s u s' :
  exception_current s0 i receipt outage now env s = Ok (u, s') → s' = s.
Proof.
  unfold exception_current, IsProofOutageCurrent, any_locked. intros Hrun. inv_run Hrun; by subst.
Qed.

Lemma confirm_second_run s0 c i receipt outage us o env s r ch s' :
  confirm_second s0 c i receipt outage us o env s = Ok ((r, ch), s') →
  match ch with
  | None => s' = s
  | Some ch => ∃ now processed next repeat, canUploadProof o c now = Ok tt
      ∧ Transition o Deliver (user_actor c) = Ok (next, repeat)
      ∧ c_Order ch = delivered_order o next i now processed
      ∧ SaveProofConfirmation (confirmation_of o c i outage now) us env s = Ok (tt, s')
  end.
Proof.
  unfold confirm_second. intros Hrun.
  apply bind_ok in Hrun as (now & s1 & Ht & Hrun). apply receiptTime_run in Ht as ->.
  apply bind_ok in Hrun as (processed & s1 & Hp & Hrun). apply reads_time in Hp as ->.
  apply bind_ok in Hrun as (b & s1 & Hb & Hrun). apply confirmationState_run in Hb as [-> Hb].
  destruct b; [by apply run_ret in Hrun as [[= _ <-] ->]|]. destruct (Hb eq_refl) as [Hcan _].
  apply bind_ok in Hrun as (x & s1 & Hx & Hrun). apply exception_current_run in Hx as ->.
  apply bind_ok in Hrun as (x1 & s1 & Hx & Hrun). apply recheckProofs_run in Hx as ->.
  apply bind_ok in Hrun as ([next repeat] & s1 & Hx & Hrun). apply run_lift in Hx as [Htr ->]. cbv zeta in Hrun.
  apply bind_ok in Hrun as (details & s1 & Hx & Hrun). apply run_lift in Hx as [_ ->].
  apply bind_ok in Hrun as (env' & s1 & Hx & Hrun). apply run_ask in Hx as [-> ->].
  apply bind_ok in Hrun as (change & s1 & Hx & Hrun). apply run_lift in Hx as [Hc ->].
  apply bind_ok in Hrun as ([] & s1 & Hsave & Hrun). apply run_ret in Hrun as [[= _ <-] ->].
  exists now, processed, next, repeat. split; [done|]. split; [done|]. split; [|exact Hsave].
  exact (ac_order _ _ _ _ _ _ _ (NewChange_accepted _ _ _ _ _ _ _ Hc)).
Qed.

(** A courier may deliver: in time, from Delivering. *)
Lemma may_deliver id row o c now :
  row_ok id row → fromOrder row = Ok o → canUploadProof o c now = Ok tt →
  r_Status row = Delivering ∧ IsAssignedTo o (cl_ID c) = true
  ∧ ∃ p, r_PickedUpAt row = Some p ∧ now < p + 2 * r_DeliveryDurationNs row.
Proof.
  intros Hok Ho Hcan. unfold canUploadProof in Hcan.
  apply bind_Ok in Hcan as (u & Ha%guard_ok_Ok & Hcan%guard_ok_Ok).
  destruct (fromOrder_fields _ _ Ho) as (_ & _ & _ & Hst & _ & _ & _ & _ & _ & Hp & _ & Hdur & _).
  rewrite Hst, Hp, Hdur in Hcan. apply andb_prop in Hcan as [Hs%same_eq Hcan]. split; [done|]. split; [done|].
  destruct (r_PickedUpAt row) as [p|]; [|done]. exists p. split; [done|].
  apply andb_prop in Hcan as [_ Hb]. unfold Before in Hb. apply Z.ltb_lt in Hb. rewrite mul64_id in Hb; [done|].
  pose proof (ro_values _ _ Hok) as Hv. unfold orders_values_check in Hv.
  repeat match type of Hv with _ && _ = true => apply andb_prop in Hv as [Hv ?] end.
  match goal with Hx : within _ _ (r_DeliveryDurationNs row) = true |- _ =>
    apply andb_prop in Hx as [?%Z.leb_le ?%Z.leb_le] end. int64_lia.
Qed.

Lemma delivering_next o actor next repeat :
  o_Status o = Delivering → Transition o Deliver actor = Ok (next, repeat) → next = Delivered.
Proof.
  intros Hs Ht. unfold Transition in Ht. rewrite Hs in Ht. cbn in Ht.
  repeat case_match; try discriminate; by injection Ht as <- _.
Qed.

(** What the order was delivered on. *)
Record evidenced (d d' : ODB) (id : string) (row row' : OrderRow) (i : ConfirmDeliveryInput)
    (q : ReceiptRow) : Prop := {
  ev_pending : GetPendingReceipt id d = Some q;
  ev_courier : ∃ courier, r_CourierID row = Some courier ∧ EqualFold courier (rc_CourierID q) = true;
  ev_deadline : ∃ p, r_PickedUpAt row = Some p ∧ rc_ReceivedAt q < p + 2 * r_DeliveryDurationNs row;
  ev_input : rc_ProofIDs q = cd_ProofIDs i ∧ rc_Unattended q = cd_Unattended i;
  ev_photos : Forall (accepted_in_time id (rc_ReceivedAt q) d d') (rc_ProofIDs q);
  ev_delivered : r_DeliveredAt row' = Some (stored_time (rc_ReceivedAt q));
  ev_confirmation : ∃ c, GetConfirmation id d' = Some c ∧ pc_ProofIDs c = rc_ProofIDs q
    ∧ pc_ConfirmedAt c = rc_ReceivedAt q ∧ rc_WithoutProof q = nonempty (pc_OutageReason c);
  ev_accepted : rc_State <$> GetReceipt (rc_ID q) d' = Some ReceiptAccepted;
}.

(** The listed photos are the ones that were accepted. *)
Lemma listed_accepted order received d0 d d' ids us :
  records_ok d0 → Forall2 (names d0) ids us →
  Forall (λ e, accepted_in_time order received d d' (pu_ID e)) us →
  Forall (accepted_in_time order received d d') ids.
Proof.
  intros Hok. induction 1 as [|id u ids us (uid & r & Hid & Hr & ->) _ IH]; [done|].
  intros [(uid' & q & v & Hid' & Hrest) Hall]%Forall_cons. constructor; [|by apply IH].
  exists uid, q, v. cbn in Hid'. rewrite (ro_uploads _ Hok _ _ Hr) in Hid'.
  rewrite (parseID_canonical _ _ Hid) in Hid'. by apply Ok_inj in Hid' as <-.
Qed.

(** C8: An order becomes delivered only from Delivering, by the courier it is
    assigned to, against that courier's pending receipt taken before twice the
    agreed duration had passed since pickup; every listed photo had been verified by
    then and is accepted with it, the delivery is dated by the receipt, and
    confirmation, receipt, photos and order change in one transaction. *)
Theorem delivery_needs_evidence s0 c i receipt outage us env0 fl0 d0 d0' env fl d out d' id row row' :
  records_ok d0 → within_tx env0 fl0 (proofs_locked (cd_OrderID i) (confirm_first s0 c i receipt)) d0
                  = (Ok (inr us), d0') →
  Sound d → within_tx env fl (proofs_locked (cd_OrderID i) (confirm_second s0 c i receipt outage us)) d
            = (out, d') →
  orders d !! id = Some row → orders d' !! id = Some row' → row' ≠ row →
  r_Status row = Delivering ∧ r_Status row' = Delivered ∧ ∃ q, evidenced d d' id row row' i q.
Proof.
  intros Hok0 Hfirst%first_loads [HI Hok] Hw Hrow Hrow' Hne.
  apply within_ran in Hw as [[-> _]|(a & s & Hrun & Hf & _ & _ & <- & _)]; [congruence|].
  unfold proofs_locked in Hrun.
  apply Mutate_run in Hrun as (uid & orow & o & ch & s2 & _ & Horow & Ho & Hoid & Hbuild & Hch); [|done].
  apply confirm_second_run in Hbuild. cbn in Horow. destruct ch as [c0|]; cycle 1.
  { subst s s2. cbn in Hrow'. congruence. }
  destruct Hbuild as (now & processed & next & repeat & Hcan & Htr & Hco & Hsave).
  apply SaveProofConfirmation_run in Hsave as ([q Hq] & Hquiet); [|exact Hok].
  destruct Hch as (_ & u & Ha). destruct Hq as [Hpend Hconf Hphotos Hc Hacc Hcore]. cbn in *. rewrite Hoid in *.
  assert (Hs : aggregate_inv d s2).
  { eapply aggregate_quiet; [exact Hquiet|]. apply aggregate_core; [|exact Hcore]. by eapply aggregate_opened. }
  destruct Hcore as [Hord _]. rewrite <- Hord in Hrow.
  pose proof (Apply_delivered _ _ _ _ _ _ _ _ _ Hs Ha Hrow Hrow' Hne) as Hdel.
  destruct (Apply_row _ _ _ _ _ _ _ _ _ Hs Ha Hrow Hrow' Hne) as (b & _ & _ & Hid & Hrok & _ & Hst & _).
  rewrite Hco in *. cbn in Hdel, Hst, Hid. rewrite Hoid in Hid. subst id.
  rewrite Hord, Horow in Hrow. apply (inj Some) in Hrow as <-.
  destruct (may_deliver _ _ _ _ _ Hrok Ho Hcan) as (Hdg & Hassigned & Hdl).
  destruct (fromOrder_fields _ _ Ho) as (_ & _ & Hcour & Hso & _).
  split; [done|]. split; [rewrite Hst; eapply delivering_next; [|exact Htr]; congruence|].
  unfold receipt_confirms in Hconf. cbn in Hconf. inv_checks Hconf.
  repeat match goal with Hx : Bool.eqb _ _ = true |- _ => apply Bool.eqb_prop in Hx end.
  destruct (Apply_records _ _ _ _ _ Ha Hf) as (_ & _ & Hu & _ & Hr & Hcf).
  exists q. split; [done| | |by split| | | |].
  - unfold IsAssignedTo in Hassigned. rewrite Hcour in Hassigned.
    apply andb_prop in Hassigned as [_ Hassigned]. destruct (r_CourierID orow) as [courier|]; [|done].
    exists courier. split; [done|]. congruence.
  - destruct Hdl as (p & Hp & Hlt). exists p. split; [done|]. congruence.
  - match goal with Hx : rc_ProofIDs q = _ |- _ => rewrite Hx end.
    eapply listed_accepted in Hphotos; [|exact Hok0|exact Hfirst].
    eapply Forall_impl; [exact Hphotos|]. intros x (y & r & v & Hx). exists y, r, v. by rewrite Hu.
  - rewrite Hdel. match goal with Hx : rc_ReceivedAt q = now |- _ => by rewrite Hx end.
  - exists (confirmation_of o c i outage now). unfold GetConfirmation. rewrite Hcf. split; [done|]. cbn.
    repeat split; congruence.
  - unfold GetReceipt in *. by rewrite Hr.
Qed.

End delivery.

(** ** At the example run *)

(** The example's delivery, transaction by transaction. *)
Definition received_run :=
  within_tx (env_at 4 "d08") no_faults
    (proofs_locked the_order (admit_delivery proofs_service (caller_of courier) delivery_input None)) d_verified.
Definition the_receipt : option DeliveryReceipt :=
  match received_run.1 with Ok (inr r) => Some r | _ => None end.
Definition first_run :=
  within_tx (env_at 4 "d09") no_faults
    (proofs_locked the_order (confirm_first proofs_service (caller_of courier) delivery_input the_receipt))
    received_run.2.
Definition the_photos : list ProofUpload := match first_run.1 with Ok (inr us) => us | _ => [] end.
Definition second_run :=
  within_tx (env_at 4 "d10") no_faults
    (proofs_locked the_order
       (confirm_second proofs_service (caller_of courier) delivery_input the_receipt None the_photos))
    received_run.2.

Lemma reach_received : rtc order_step empty_odb received_run.2.
Proof.
  etransitivity; [apply reach_picked_up|]. etransitivity; [apply verify_steps|].
  unfold received_run. apply within_steps, op_admit_delivery.
Qed.

Lemma first_photos : first_run.1 = Ok (inr the_photos).
Proof. vm_compute. reflexivity. Qed.

Lemma delivery_needs_evidence_witness :
  ∃ q, evidenced received_run.2 second_run.2 the_order (row_in received_run.2) (row_in second_run.2)
         delivery_input q.
Proof.
  apply (delivery_needs_evidence proofs_service (caller_of courier) delivery_input the_receipt None the_photos
           (env_at 4 "d09") no_faults received_run.2 first_run.2 (env_at 4 "d10") no_faults received_run.2
           second_run.1 second_run.2 the_order).
  - exact (proj2 (reachable_sound _ reach_received)).
  - rewrite <- first_photos. apply surjective_pairing.
  - exact (reachable_sound _ reach_received).
  - apply surjective_pairing.
  - apply row_found. vm_compute. reflexivity.
  - apply row_found. vm_compute. reflexivity.
  - intros Heq. assert (r_Status (row_in second_run.2) = r_Status (row_in received_run.2)) as Hs by (by rewrite Heq).
    vm_compute in Hs. discriminate Hs.
Defined.

(** * The timers

    The delivery timeout and the expiry close an order only when it is due by
    the database's clock, and the scanner paces its retries. *)

Section timers.
  Context `{UUID, !UUIDLaws, !UUIDFold, Digest}.

(** The clock a timer reads: the test's, or the database server's. *)
Definition timer_now (testNow : option Time) (env : Env) : Time :=
  micros (match testNow with Some t => t | None => server_time env end).

Lemma lockedLifecycleTime_run testNow env s now s' :
  lockedLifecycleTime testNow env s = Ok (now, s') → now = timer_now testNow env ∧ s' = s.
Proof.
  unfold lockedLifecycleTime, timer_now. destruct testNow as [t|]; intros Hrun; inv_run Hrun; subst; [done|].
  unfold ProofServerTime in Hrun0. destruct (decide _); [done|]. destruct (aborted s); [done|].
  apply Ok_inj in Hrun0. injection Hrun0 as <- <-. split; [|done]. by apply stored_time_idemp.
Qed.

(** A transaction of one mutation that changed a row applied a change to it. *)
Lemma mutated_row {A} env fl id (build : Order → list Offer → TX (A * option Change)) d out d' oid row row' :
  Inv d → within_tx env fl (Mutate Apply id build) d = (out, d') →
  (∀ o offers s r c s', build o offers env s = Ok ((r, Some c), s') → s' = s) →
  (∀ o offers s r s', build o offers env s = Ok ((r, None), s') → same_core (db s) (db s')) →
  orders d !! oid = Some row → orders d' !! oid = Some row' → row' ≠ row →
  ∃ o r c, parseID id = Ok oid ∧ fromOrder row = Ok o ∧ o_ID o = oid ∧ row_ok oid row
    ∧ build o (OrderOffers oid d) env (opened (start d) oid o)
      = Ok ((r, Some c), opened (start d) oid o)
    ∧ o_ID (c_Order c) = oid ∧ validated (Some o) c
    ∧ r_Status row' = o_Status (c_Order c) ∧ r_RewardCredits row' = o_RewardCredits (c_Order c).
Proof.
  intros HI Hw Hsome Hnone Hrow Hrow' Hne.
  apply within_ran in Hw as [[-> _]|(a & s & Hrun & _ & _ & _ & Hdb & _)]; [congruence|].
  apply Mutate_run in Hrun as (uid & orow & o & ch & s2 & Hid & Horow & Ho & Hoid & Hbuild & Hch); [|done].
  cbn in Horow, Hbuild. destruct ch as [c|]; cycle 1.
  { exfalso. subst s d'. apply Hnone in Hbuild as [Hord _]. rewrite Hord in Hrow'. cbn in Hrow'. congruence. }
  destruct Hch as (_ & u & Ha). subst d'. pose proof (Hsome _ _ _ _ _ _ Hbuild) as ->.
  assert (Hs : aggregate_inv d (opened (start d) uid o)) by (by eapply aggregate_opened).
  destruct (Apply_row _ _ _ _ _ _ _ row row' Hs Ha Hrow Hrow' Hne)
    as (b0 & Hv & Hb0 & -> & Hok & Hlk & Hst & _ & Hrw & _).
  cbn in Hlk. apply lookup_insert_Some in Hlk as [[Heq ->]|[_ Hlk]]; [|by rewrite lookup_empty in Hlk].
  rewrite <- Heq in *. exists b0, a, c. done.
Qed.

(** *** Delivery timeout *)

Lemma timeout_run testNow id before offers env s r ch s' :
  timeout_build testNow id before offers env s = Ok ((r, ch), s') →
  s' = s ∧ match ch with
           | None => True
           | Some c => o_Status before = Delivering
               ∧ (∃ deadline, deliveryTimeoutDeadline before = Ok deadline
                    ∧ deadline ≤ timer_now testNow env)
               ∧ HasPendingDelivery id (db s) = false
               ∧ ∃ next, c_Order c = closed before next (timer_now testNow env) "delivery_timed_out"
                    ∧ Transition before Timeout system_actor = Ok (next, false)
           end.
Proof.
  unfold timeout_build. intros Hrun.
  destruct (negb (same (o_Status before) Delivering)) eqn:Hst.
  { by apply run_ret in Hrun as [[= _ <-] ->]. }
  apply negb_false_iff, same_eq in Hst.
  apply bind_ok in Hrun as (deadline & s1 & Hd & Hrun). apply run_lift in Hd as [Hd ->].
  apply bind_ok in Hrun as (now & s2 & Hn & Hrun). apply lockedLifecycleTime_run in Hn as [-> ->].
  unfold Before in Hrun. destruct (Z.ltb_spec (timer_now testNow env) deadline) as [|Hle].
  { by apply run_ret in Hrun as [[= _ <-] ->]. }
  apply bind_ok in Hrun as (pending & s3 & Hp & Hrun). unfold tx_HasPendingDelivery, is_locked in Hp.
  inv_run Hp. subst. destruct (HasPendingDelivery id (db s)) eqn:Hpend.
  { by apply run_ret in Hrun as [[= _ <-] ->]. }
  apply bind_ok in Hrun as ([next rep] & s3 & Ht & Hrun). apply run_lift in Ht as [Ht ->].
  apply bind_ok in Hrun as (details & s4 & Hdet & Hrun). apply run_lift in Hdet as [Hdet ->].
  apply bind_ok in Hrun as (env' & s5 & Henv & Hrun). apply run_ask in Henv as [-> ->].
  apply bind_ok in Hrun as (c & s6 & Hc & Hrun). apply run_lift in Hc as [Hc ->].
  apply run_ret in Hrun as [[= _ <-] ->]. split; [done|]. split; [done|].
  split; [by exists deadline|]. split; [done|]. exists next.
  rewrite (ac_order _ _ _ _ _ _ _ (NewChange_accepted _ _ _ _ _ _ _ Hc)). split; [done|].
  destruct rep; [|done]. exfalso. unfold Transition in Ht. rewrite Hst in Ht. cbn in Ht.
  repeat case_match; discriminate.
Qed.

Lemma expire_run testNow before offers env s r ch s' :
  expire_build testNow before offers env s = Ok ((r, ch), s') →
  s' = s ∧ match ch with
           | None => True
           | Some c => o_Status before = AwaitingCourier
               ∧ o_ExpiresAt before ≤ timer_now testNow env
               ∧ ∃ next, c_Order c = closed before next (timer_now testNow env) "request_expired"
                    ∧ Transition before Expire system_actor = Ok (next, false)
           end.
Proof.
  unfold expire_build. intros Hrun.
  destruct (negb (same (o_Status before) AwaitingCourier)) eqn:Hst.
  { by apply run_ret in Hrun as [[= _ <-] ->]. }
  apply negb_false_iff, same_eq in Hst.
  apply bind_ok in Hrun as (now & s2 & Hn & Hrun). apply lockedLifecycleTime_run in Hn as [-> ->].
  unfold After in Hrun. destruct (Z.ltb_spec (timer_now testNow env) (o_ExpiresAt before)) as [|Hle].
  { by apply run_ret in Hrun as [[= _ <-] ->]. }
  apply bind_ok in Hrun as ([next rep] & s3 & Ht & Hrun). apply run_lift in Ht as [Ht ->].
  apply bind_ok in Hrun as (details & s4 & Hdet & Hrun). apply run_lift in Hdet as [Hdet ->].
  apply bind_ok in Hrun as (env' & s5 & Henv & Hrun). apply run_ask in Henv as [-> ->].
  apply bind_ok in Hrun as (c & s6 & Hc & Hrun). apply run_lift in Hc as [Hc ->].
  apply run_ret in Hrun as [[= _ <-] ->]. split; [done|]. split; [done|]. split; [done|]. exists next.
  cbn. rewrite (ac_order _ _ _ _ _ _ _ (NewChange_accepted _ _ _ _ _ _ _ Hc)). split; [done|].
  destruct rep; [|done]. exfalso. unfold Transition in Ht. rewrite Hst in Ht. cbn in Ht.
  repeat case_match; discriminate.
Qed.

Lemma not_found_ok_state out : (not_found_ok out).2 = out.2.
Proof. by destruct out as [[?|[]] ?]. Qed.

(** The stored duration is small enough for the deadline not to wrap. *)
Lemma deadline_exact id row o deadline :
  row_ok id row → fromOrder row = Ok o → deliveryTimeoutDeadline o = Ok deadline →
  ∃ p c, r_PickedUpAt row = Some p ∧ r_CourierID row = Some c
    ∧ deadline = p + 2 * r_DeliveryDurationNs row.
Proof.
  intros Hok Ho Hd.
  destruct (fromOrder_fields _ _ Ho) as (_ & _ & Hc & _ & _ & _ & _ & _ & _ & Hp & _ & Hdur & _).
  unfold deliveryTimeoutDeadline in Hd. rewrite Hp, Hc, Hdur in Hd.
  destruct (r_PickedUpAt row) as [p|]; [|done]. destruct (r_CourierID row) as [c|]; [|done].
  destruct (_ || _); [done|]. apply Ok_inj in Hd as <-. exists p, c. split; [done|]. split; [done|].
  f_equal. pose proof (ro_values _ _ Hok) as Hv. unfold orders_values_check in Hv.
  repeat match type of Hv with _ && _ = true => apply andb_prop in Hv as [Hv ?] end.
  match goal with Hx : within _ _ (r_DeliveryDurationNs row) = true |- _ =>
    apply andb_prop in Hx as [?%Z.leb_le ?%Z.leb_le] end.
  apply mul64_id. int64_lia.
Qed.

(** The delivery timer closes an order only as Failed, from Delivering, once
    twice the agreed duration has passed since pickup by the clock it reads, exactly
    and without overflow, and never while an admitted delivery waits; the order that
    changes is the one it was called for. *)
Theorem timeout_only_when_due testNow env fl id d out d' oid row row' :
  Inv d → Timeout_ testNow env fl id d = (out, d') →
  orders d !! oid = Some row → orders d' !! oid = Some row' → row' ≠ row →
  parseID id = Ok oid ∧ r_Status row = Delivering ∧ r_Status row' = Failed
  ∧ HasPendingDelivery id d = false
  ∧ ∃ p, r_PickedUpAt row = Some p ∧ p + 2 * r_DeliveryDurationNs row ≤ timer_now testNow env.
Proof.
  intros HI Ht Hrow Hrow' Hne. unfold Timeout_ in Ht.
  pose proof (not_found_ok_state (within_tx env fl (Mutate Apply id (timeout_build testNow id)) d)) as Hs.
  rewrite Ht in Hs. destruct (within_tx _ _ _ d) as [out1 d1] eqn:Hw. cbn in Hs. subst d1.
  destruct (mutated_row _ _ _ _ _ _ _ oid row row' HI Hw) as (o & r & c & Hid & Ho & Hoid & Hok & Hbuild & _
    & _ & Hst & _); [..|done|done|done|].
  { intros *. by intros [-> _]%timeout_run. }
  { intros *. by intros [-> _]%timeout_run. }
  apply timeout_run in Hbuild as (_ & Hsd & (deadline & Hd & Hle) & Hpend & next & Hco & Htr).
  destruct (deadline_exact _ _ _ _ Hok Ho Hd) as (p & _ & Hp & _ & ->).
  destruct (fromOrder_fields _ _ Ho) as (_ & _ & _ & Hso & _).
  split; [done|]. split; [congruence|]. split; [|split; [exact Hpend|by exists p]].
  rewrite Hst, Hco. cbn. apply (transition_sound _ _ _ _ false) in Htr; [|by eapply row_two_parties].
  by inversion Htr.
Qed.

(** The expiry timer closes an order only as Expired, from AwaitingCourier, at or
    after its expiry by the clock it reads. *)
Theorem expiry_only_when_due testNow env fl id d out d' oid row row' :
  Inv d → Expire_ testNow env fl id d = (out, d') →
  orders d !! oid = Some row → orders d' !! oid = Some row' → row' ≠ row →
  parseID id = Ok oid ∧ r_Status row = AwaitingCourier ∧ r_Status row' = Expired
  ∧ r_ExpiresAt row ≤ timer_now testNow env.
Proof.
  intros HI Ht Hrow Hrow' Hne. unfold Expire_ in Ht.
  pose proof (not_found_ok_state (within_tx env fl (Mutate Apply id (expire_build testNow)) d)) as Hs.
  rewrite Ht in Hs. destruct (within_tx _ _ _ d) as [out1 d1] eqn:Hw. cbn in Hs. subst d1.
  destruct (mutated_row _ _ _ _ _ _ _ oid row row' HI Hw) as (o & r & c & Hid & Ho & Hoid & Hok & Hbuild & _
    & _ & Hst & _); [..|done|done|done|].
  { intros *. by intros [-> _]%expire_run. }
  { intros *. by intros [-> _]%expire_run. }
  apply expire_run in Hbuild as (_ & Hsd & Hle & next & Hco & Htr).
  destruct (fromOrder_fields _ _ Ho) as (_ & _ & _ & Hso & _ & _ & _ & Hexp & _).
  split; [done|]. split; [congruence|]. split; [|congruence].
  rewrite Hst, Hco. cbn. apply (transition_sound _ _ _ _ false) in Htr; [|by eapply row_two_parties].
  by inversion Htr.
Qed.

End timers.

(** ** Pacing *)

(** Whatever the attempt's number and the jitter drawn, the delay before the next
    attempt of a saga lies between one and thirty seconds; the scanner's delay does
    too, and doubles until it reaches them. *)
Theorem retries_paced (j : Duration → Duration) attempt d :
  (∀ b, 0 < b → 0 ≤ j b ≤ b / 4) → 0 ≤ d ≤ 30 * Second →
  Second ≤ creationRetryDelay j attempt ≤ 30 * Second
  ∧ Second ≤ next_delay d ≤ 30 * Second
  ∧ (Second ≤ d → next_delay d = Z.min (30 * Second) (2 * d)).
Proof.
  intros Hj Hd. split; [|unfold next_delay, mul64, Second in *; rewrite wrap64_id by int64_lia; lia].
  unfold creationRetryDelay. set (shift := Z.max 0 (Z.min (wrap32 (attempt - 1)) 5)).
  assert (Hs : shift = 0 ∨ shift = 1 ∨ shift = 2 ∨ shift = 3 ∨ shift = 4 ∨ shift = 5) by lia.
  set (base := mul64 Second (2 ^ shift)).
  assert (Hb : Second ≤ base ≤ 32 * Second).
  { unfold base, mul64, Second. destruct Hs as [->|[->|[->|[->|[->| ->]]]]]; by vm_compute. }
  assert (0 < base) as Hpos by (unfold Second in *; lia).
  pose proof (Hj base Hpos) as Hjb. pose proof (Z.div_le_upper_bound base 4 base).
  unfold add64, Second in *. rewrite wrap64_id by int64_lia. lia.
Qed.

(** ** At the example run *)


Definition timed_out := Timeout_ None (env_at 6 "c20") no_faults the_order d_picked_up.
Definition expired := Expire_ None (env_at 11 "c21") no_faults the_order d_confirmed.

Lemma status_changed d d' :
  r_Status (row_in d) ≠ r_Status (row_in d') → row_in d' ≠ row_in d.
Proof. intros Hs Heq. by rewrite Heq in Hs. Qed.

Lemma timeout_only_when_due_witness :
  ∃ p, r_PickedUpAt (row_in d_picked_up) = Some p
    ∧ p + 2 * r_DeliveryDurationNs (row_in d_picked_up) ≤ timer_now None (env_at 6 "c20").
Proof.
  apply (timeout_only_when_due None (env_at 6 "c20") no_faults the_order d_picked_up timed_out.1
           timed_out.2 the_order (row_in d_picked_up) (row_in timed_out.2)).
  - exact (reachable_aggregate _ reach_picked_up).
  - apply surjective_pairing.
  - apply row_found. vm_compute. reflexivity.
  - apply row_found. vm_compute. reflexivity.
  - apply status_changed. vm_compute. discriminate.
Defined.

Lemma expiry_only_when_due_witness :
  r_ExpiresAt (row_in d_confirmed) ≤ timer_now None (env_at 11 "c21").
Proof.
  apply (expiry_only_when_due None (env_at 11 "c21") no_faults the_order d_confirmed expired.1
           expired.2 the_order (row_in d_confirmed) (row_in expired.2)).
  - exact (reachable_aggregate _ reach_confirmed).
  - apply surjective_pairing.
  - apply row_found. vm_compute. reflexivity.
  - apply row_found. vm_compute. reflexivity.
  - apply status_changed. vm_compute. discriminate.
Defined.

Lemma retries_paced_witness : Second ≤ creationRetryDelay (λ b, b / 4) 40 ≤ 30 * Second.
Proof.
  apply (retries_paced (λ b, b / 4) 40 Second); [|by vm_compute].
  intros b Hb. split; [apply Z.div_pos; lia|lia].
Defined.
