(* ===== verification/SupplierTypes.v ===== *)
(** * Supplier: domain types and validation

    supplier-service/internal/location: shared/types.go, errors.go and
    validation.go, the types and validation of additionrequest, disablement and
    admin. Field names carry the letter of their struct: [p_] a proposal, [q_] an
    addition request, [d_] a disablement, [l_] a Location, [wl_] the Location an
    approval returns, [i_] an administrator's input. *)
From stdpp Require Import prelude gmap strings list sorting.
From Stdlib Require Import ZArith Lia SpecFloat.
From S2P Require Import Prelude.
From S2P Require Import GoLib.
From S2P Require Import GoText.
From S2P Require Import GoFloat.

Local Open Scope Z_scope.
Local Open Scope foc_scope.

(** ** Errors (shared/errors.go, idempotency.go) *)

Inductive Error :=
| ErrInvalidArgument
| ErrUnauthenticated
| ErrPermissionDenied
| ErrNotFound
| ErrFailedPrecondition
| ErrAlreadyExists
| ErrAborted
| ErrInvalidKey
| ErrConflict
(** A value that JSON cannot represent. *)
| ErrMarshal
(** An error that no code tests for. *)
| ErrOther (message : string)
(** A database error, by SQLSTATE. *)
| Pg (sqlstate : string).
#[export] Instance Error_eq_dec : EqDecision Error.
Proof. solve_decision. Defined.

(** ** Callers and pages (shared/types.go) *)

Record Caller := { cl_ID : string; cl_Role : string }.

Definition IsAdmin (c : Caller) : bool := same (cl_Role c) "admin" || same (cl_Role c) "super_admin".
Definition Authenticated (c : Caller) : bool :=
  nonempty (cl_ID c)
  && (same (cl_Role c) "user" || same (cl_Role c) "suspended_user" || IsAdmin c).

Record Page := { pg_Number : Z; pg_Size : Z }.
Record PageInfo := { pi_Page : Page; pi_TotalItems : Z; pi_TotalPages : Z }.

Definition max_int32 : Z := 2 ^ 31 - 1.

Definition normalizePage (p : Page) : result Error Page :=
  _ ← guard_ok (negb ((pg_Number p <? 0) || (pg_Size p <? 0) || (100 <? pg_Size p))) ErrInvalidArgument;
  mret {| pg_Number := if pg_Number p =? 0 then 1 else pg_Number p;
          pg_Size := if pg_Size p =? 0 then 20 else pg_Size p |}.

Definition newPageInfo (p : Page) (count : Z) : PageInfo :=
  let pages := Z.quot (sub64 (add64 count (pg_Size p)) 1) (pg_Size p) in
  {| pi_Page := p; pi_TotalItems := count;
     pi_TotalPages := wrap32 (if max_int32 <? pages then max_int32 else pages) |}.

(** ** Disablements (shared/types.go) *)

Inductive DisablementState :=
| Scheduled
| Active
| Ended
| DCancelled
| OtherState (s : string).
#[export] Instance DisablementState_eq_dec : EqDecision DisablementState.
Proof. solve_decision. Defined.

Record Disablement := mkDisablement {
  d_ID : string;
  d_LocationID : string;
  d_StartsAt : Time;
  d_EndsAt : option Time;
  d_EndedAt : option Time;
  d_CancelledAt : option Time;
  d_Reason : string;
  d_CreatedBy : string;
  d_Revision : Z;
  d_CreatedAt : Time;
  d_UpdatedAt : Time;
}.
#[export] Instance Disablement_eq_dec : EqDecision Disablement.
Proof. solve_decision. Defined.
#[export] Instance Disablement_eta : Eta Disablement := λ d,
  mkDisablement (d_ID d) (d_LocationID d) (d_StartsAt d) (d_EndsAt d) (d_EndedAt d) (d_CancelledAt d)
    (d_Reason d) (d_CreatedBy d) (d_Revision d) (d_CreatedAt d) (d_UpdatedAt d).
#[export] Instance set_d_StartsAt : Setter d_StartsAt := ltac:(build_setter d_StartsAt).
#[export] Instance set_d_EndsAt : Setter d_EndsAt := ltac:(build_setter d_EndsAt).
#[export] Instance set_d_EndedAt : Setter d_EndedAt := ltac:(build_setter d_EndedAt).
#[export] Instance set_d_CancelledAt : Setter d_CancelledAt := ltac:(build_setter d_CancelledAt).
#[export] Instance set_d_Reason : Setter d_Reason := ltac:(build_setter d_Reason).
#[export] Instance set_d_Revision : Setter d_Revision := ltac:(build_setter d_Revision).
#[export] Instance set_d_UpdatedAt : Setter d_UpdatedAt := ltac:(build_setter d_UpdatedAt).

(** The state of a disablement is a function of the clock. *)
Definition State (d : Disablement) (now : Time) : DisablementState :=
  if is_some (d_CancelledAt d) then DCancelled
  else if is_some (d_EndedAt d)
          || match d_EndsAt d with Some e => negb (Before now e) | None => false end then Ended
  else if Before now (d_StartsAt d) then Scheduled
  else Active.

(** ** Proposals and addition requests (additionrequest/types.go) *)

Inductive RequestStatus :=
| Pending
| Approved
| Rejected
| Withdrawn
| OtherStatus (s : string).
#[export] Instance RequestStatus_eq_dec : EqDecision RequestStatus.
Proof. solve_decision. Defined.

(** Opening times are microseconds since local midnight. *)
Record Proposal := mkProposal {
  p_Name : string;
  p_IsSupplier : bool;
  p_CategoryIDs : list string;
  p_BuildingID : string;
  p_Floor : option string;
  p_Latitude : Float64;
  p_Longitude : Float64;
  p_CoordinatesMissing : bool;
  p_OpenFrom : option Z;
  p_OpenTo : option Z;
  p_Contact : option string;
  p_Details : string;
}.
#[export] Instance Proposal_eq_dec : EqDecision Proposal.
Proof. solve_decision. Defined.
#[export] Instance Proposal_eta : Eta Proposal := λ p,
  mkProposal (p_Name p) (p_IsSupplier p) (p_CategoryIDs p) (p_BuildingID p) (p_Floor p) (p_Latitude p)
    (p_Longitude p) (p_CoordinatesMissing p) (p_OpenFrom p) (p_OpenTo p) (p_Contact p) (p_Details p).
#[export] Instance set_p_Name : Setter p_Name := ltac:(build_setter p_Name).
#[export] Instance set_p_IsSupplier : Setter p_IsSupplier := ltac:(build_setter p_IsSupplier).
#[export] Instance set_p_CategoryIDs : Setter p_CategoryIDs := ltac:(build_setter p_CategoryIDs).
#[export] Instance set_p_BuildingID : Setter p_BuildingID := ltac:(build_setter p_BuildingID).
#[export] Instance set_p_Floor : Setter p_Floor := ltac:(build_setter p_Floor).
#[export] Instance set_p_Latitude : Setter p_Latitude := ltac:(build_setter p_Latitude).
#[export] Instance set_p_Longitude : Setter p_Longitude := ltac:(build_setter p_Longitude).
#[export] Instance set_p_CoordinatesMissing : Setter p_CoordinatesMissing :=
  ltac:(build_setter p_CoordinatesMissing).
#[export] Instance set_p_OpenFrom : Setter p_OpenFrom := ltac:(build_setter p_OpenFrom).
#[export] Instance set_p_OpenTo : Setter p_OpenTo := ltac:(build_setter p_OpenTo).
#[export] Instance set_p_Contact : Setter p_Contact := ltac:(build_setter p_Contact).
#[export] Instance set_p_Details : Setter p_Details := ltac:(build_setter p_Details).

Record AdditionRequest := mkAdditionRequest {
  q_ID : string;
  q_Proposal : Proposal;
  q_SubmittedBy : string;
  q_Status : RequestStatus;
  q_ReviewedBy : option string;
  q_ReviewedAt : option Time;
  q_ReviewNote : option string;
  q_ResultingLocationID : option string;
  q_Revision : Z;
  q_CreatedAt : Time;
  q_UpdatedAt : Time;
}.
#[export] Instance AdditionRequest_eq_dec : EqDecision AdditionRequest.
Proof. solve_decision. Defined.
#[export] Instance AdditionRequest_eta : Eta AdditionRequest := λ q,
  mkAdditionRequest (q_ID q) (q_Proposal q) (q_SubmittedBy q) (q_Status q) (q_ReviewedBy q)
    (q_ReviewedAt q) (q_ReviewNote q) (q_ResultingLocationID q) (q_Revision q) (q_CreatedAt q)
    (q_UpdatedAt q).
#[export] Instance set_q_Proposal : Setter q_Proposal := ltac:(build_setter q_Proposal).
#[export] Instance set_q_SubmittedBy : Setter q_SubmittedBy := ltac:(build_setter q_SubmittedBy).
#[export] Instance set_q_Status : Setter q_Status := ltac:(build_setter q_Status).
#[export] Instance set_q_ReviewedBy : Setter q_ReviewedBy := ltac:(build_setter q_ReviewedBy).
#[export] Instance set_q_ReviewedAt : Setter q_ReviewedAt := ltac:(build_setter q_ReviewedAt).
#[export] Instance set_q_ReviewNote : Setter q_ReviewNote := ltac:(build_setter q_ReviewNote).
#[export] Instance set_q_ResultingLocationID : Setter q_ResultingLocationID :=
  ltac:(build_setter q_ResultingLocationID).
#[export] Instance set_q_Revision : Setter q_Revision := ltac:(build_setter q_Revision).
#[export] Instance set_q_UpdatedAt : Setter q_UpdatedAt := ltac:(build_setter q_UpdatedAt).

(** ** Buildings, Categories and Locations *)

Record Building := {
  b_ID : string;
  b_Name : string;
  b_Latitude : Float64;
  b_Longitude : Float64;
  b_RadiusM : Float64;
  b_CreatedAt : Time;
  b_UpdatedAt : Time;
}.

Record Category := { c_ID : string; c_Name : string; c_CreatedAt : Time }.

(** The Location that an approval returns (additionrequest/types.go). *)
Record WorkflowLocation := {
  wl_ID : string;
  wl_Proposal : Proposal;
  wl_Building : Building;
  wl_Categories : list Category;
  wl_ArchivedAt : option Time;
  wl_CurrentDisablement : option Disablement;
  wl_Revision : Z;
  wl_CreatedAt : Time;
  wl_UpdatedAt : Time;
}.

(** What the disablement service reads of a Location (disablement/types.go). *)
Record DisabledLocation := { dl_ID : string; dl_ArchivedAt : option Time }.

(** shared/types.go: the Location of discovery and administration, its opening
    hours as wall-clock times of whole minutes. *)
Record Clock := { k_Hour : Z; k_Minute : Z }.
#[export] Instance Clock_eq_dec : EqDecision Clock.
Proof. solve_decision. Defined.

Record Coordinates := { o_Latitude : Float64; o_Longitude : Float64 }.
#[export] Instance Coordinates_eq_dec : EqDecision Coordinates.
Proof. solve_decision. Defined.

Record SharedBuilding := {
  sb_ID : string;
  sb_Name : string;
  sb_Center : Coordinates;
  sb_RadiusM : Float64;
}.
Record SharedCategory := { sc_ID : string; sc_Name : string }.

Record Location := {
  l_ID : string;
  l_Name : string;
  l_IsSupplier : bool;
  l_Building : SharedBuilding;
  l_Categories : list SharedCategory;
  l_Floor : option string;
  l_Coordinates : Coordinates;
  l_OpensAt : option Clock;
  l_ClosesAt : option Clock;
  l_Contact : option string;
  l_Details : string;
  l_ArchivedAt : option Time;
  l_CurrentDisablement : option Disablement;
  l_Revision : Z;
  l_CreatedAt : Time;
  l_UpdatedAt : Time;
}.

(** admin/input.go: the fields an administrator may write. *)
Record Input := mkInput {
  i_Name : string;
  i_IsSupplier : bool;
  i_CategoryIDs : list string;
  i_BuildingID : string;
  i_Floor : option string;
  i_Coordinates : option Coordinates;
  i_OpensAt : option Clock;
  i_ClosesAt : option Clock;
  i_Contact : option string;
  i_Details : string;
}.
#[export] Instance Input_eq_dec : EqDecision Input.
Proof. solve_decision. Defined.
#[export] Instance Input_eta : Eta Input := λ i,
  mkInput (i_Name i) (i_IsSupplier i) (i_CategoryIDs i) (i_BuildingID i) (i_Floor i) (i_Coordinates i)
    (i_OpensAt i) (i_ClosesAt i) (i_Contact i) (i_Details i).
#[export] Instance set_i_Name : Setter i_Name := ltac:(build_setter i_Name).
#[export] Instance set_i_IsSupplier : Setter i_IsSupplier := ltac:(build_setter i_IsSupplier).
#[export] Instance set_i_CategoryIDs : Setter i_CategoryIDs := ltac:(build_setter i_CategoryIDs).
#[export] Instance set_i_BuildingID : Setter i_BuildingID := ltac:(build_setter i_BuildingID).
#[export] Instance set_i_Floor : Setter i_Floor := ltac:(build_setter i_Floor).
#[export] Instance set_i_Coordinates : Setter i_Coordinates := ltac:(build_setter i_Coordinates).
#[export] Instance set_i_OpensAt : Setter i_OpensAt := ltac:(build_setter i_OpensAt).
#[export] Instance set_i_ClosesAt : Setter i_ClosesAt := ltac:(build_setter i_ClosesAt).
#[export] Instance set_i_Contact : Setter i_Contact := ltac:(build_setter i_Contact).
#[export] Instance set_i_Details : Setter i_Details := ltac:(build_setter i_Details).

(** ** Validation (shared/validation.go, additionrequest/validation.go) *)

Definition ValidCoordinates (latitude longitude : Float64) : bool :=
  negb (IsNaN latitude) && negb (IsInf latitude) && at_least latitude (-90) && at_most latitude 90
  && negb (IsNaN longitude) && negb (IsInf longitude)
  && at_least longitude (-180) && at_most longitude 180.

Definition trimAndValidateLength (s : string) (min max : Z) : result Error string :=
  let s := TrimSpace s in
  _ ← guard_ok (within min max (RuneCountInString s)) ErrInvalidArgument;
  mret s.

(** The selected fields, each allowed and named once. *)
Fixpoint parse_paths (allowed paths : list string) (fields : gset string) : result Error (gset string) :=
  match paths with
  | [] => mret fields
  | p :: rest =>
      _ ← guard_ok (bool_decide (p ∈ allowed) && negb (bool_decide (p ∈ fields))) ErrInvalidArgument;
      parse_paths allowed rest ({[p]} ∪ fields)
  end.

Definition parseFieldMask (paths allowed : list string) : result Error (gset string) :=
  match paths with
  | [] => Err ErrInvalidArgument
  | _ => parse_paths allowed paths ∅
  end.

Section ids.
  Context `{UUID}.

(** uuid.Parse: the canonical text of an identifier, or a refusal. *)
Definition canonicalID (raw : string) : result Error string :=
  from_option_ok (uuid_parse raw) ErrInvalidArgument.
Definition validateID (id : string) : result Error unit := _ ← canonicalID id; mret tt.

(** [id] of the repositories: SQL NULL for what is no identifier. *)
Definition sql_id (v : string) : option string := if nonempty v then uuid_parse v else None.

End ids.
