(* ===== verification/SupplierProposal.v ===== *)
(** * Supplier: normalising what callers submit

    additionrequest/proposal.go, admin/input.go and admin/patch.go, and the
    payloads whose hash identifies an idempotent call. *)
From stdpp Require Import prelude gmap strings list sorting.
From Stdlib Require Import ZArith Lia SpecFloat.
From S2P Require Import Prelude.
From S2P Require Import GoLib.
From S2P Require Import GoText.
From S2P Require Import GoFloat.
From S2P Require Import SupplierTypes.

Local Open Scope Z_scope.
Local Open Scope foc_scope.

Definition microsecondsPerDay : Z := 86400000000.

Definition isValidOpeningHours (from to : option Z) : bool :=
  match from, to with
  | Some from, Some to =>
      (0 <=? from) && (from <? microsecondsPerDay) && (0 <=? to) && (to <? microsecondsPerDay)
      && negb (from =? to)
  | None, None => true
  | _, _ => false
  end.

(** Trimmed text, of which the empty one is no text. *)
Definition optional_text (f : option string) (max : Z) : result Error (option string) :=
  match f with
  | None => mret None
  | Some v => s ← trimAndValidateLength v 0 max;
              mret (if same s EmptyString then None else Some s)
  end.

(** No identifier occurs next to itself. *)
Fixpoint adjacent_distinct (ids : list string) : bool :=
  match ids with
  | x :: (y :: _) as rest => negb (same x y) && adjacent_distinct rest
  | _ => true
  end.

Section normalise.
  Context `{UUID}.

Fixpoint canonical_ids (ids : list string) : result Error (list string) :=
  match ids with
  | [] => mret []
  | id :: rest => v ← canonicalID id; out ← canonical_ids rest; mret (v :: out)
  end.

Definition normalizeProposal (p : Proposal) : result Error Proposal :=
  name ← trimAndValidateLength (p_Name p) 1 200;
  details ← trimAndValidateLength (p_Details p) 0 2000;
  floor ← optional_text (p_Floor p) 50;
  contact ← optional_text (p_Contact p) 500;
  building ← canonicalID (p_BuildingID p);
  _ ← guard_ok (negb (p_CoordinatesMissing p) && ValidCoordinates (p_Latitude p) (p_Longitude p))
               ErrInvalidArgument;
  _ ← guard_ok (isValidOpeningHours (p_OpenFrom p) (p_OpenTo p)) ErrInvalidArgument;
  ids ← canonical_ids (p_CategoryIDs p);
  let ids := merge_sort string_le ids in
  _ ← guard_ok (adjacent_distinct ids) ErrInvalidArgument;
  let p := p <| p_Name := name |> <| p_Details := details |> <| p_Floor := floor |>
             <| p_Contact := contact |> <| p_BuildingID := building |> in
  if negb (p_IsSupplier p) then mret (p <| p_CategoryIDs := [] |>)
  else _ ← guard_ok (negb (same ids [])) ErrFailedPrecondition;
       mret (p <| p_CategoryIDs := ids |>).

(** The fields that an update names come from the patch. *)
Definition applyProposalPatch (p patch : Proposal) (fields : gset string) : Proposal :=
  let pick {A} (f : string) (get : Proposal → A) : A :=
    if bool_decide (f ∈ fields) then get patch else get p in {|
  p_Name := pick "name" p_Name;
  p_IsSupplier := pick "is_supplier" p_IsSupplier;
  p_CategoryIDs := pick "category_ids" p_CategoryIDs;
  p_BuildingID := pick "building_id" p_BuildingID;
  p_Floor := pick "floor" p_Floor;
  p_Latitude := pick "coordinates" p_Latitude;
  p_Longitude := pick "coordinates" p_Longitude;
  p_CoordinatesMissing := pick "coordinates" p_CoordinatesMissing;
  p_OpenFrom := pick "open_from" p_OpenFrom;
  p_OpenTo := pick "open_from" p_OpenTo;
  p_Contact := pick "contact" p_Contact;
  p_Details := pick "details" p_Details |}.

(** The fields UpdateRequest accepts in a mask. *)
Definition proposal_paths : list string :=
  ["name"; "is_supplier"; "category_ids"; "building_id"; "floor"; "coordinates"; "open_from";
   "open_to"; "contact"; "details"].

(** ** Who sees an addition request *)

Definition isVisible (c : Caller) (q : AdditionRequest) : bool :=
  IsAdmin c || same (q_SubmittedBy q) (cl_ID c) || same (q_Status q) Approved.

Definition redactRequestForCaller (c : Caller) (q : AdditionRequest) : AdditionRequest :=
  if negb (IsAdmin c) && negb (same (q_SubmittedBy q) (cl_ID c))
  then q <| q_SubmittedBy := EmptyString |> <| q_ReviewedBy := None |> <| q_ReviewNote := None |>
  else q.

(** ** An administrator's input (admin/input.go, admin/patch.go) *)

Definition validClock (c : Clock) : bool :=
  (0 <=? k_Hour c) && (k_Hour c <? 24) && (0 <=? k_Minute c) && (k_Minute c <? 60).

Definition normalizeOptional : option string → Z → result Error (option string) := optional_text.

Fixpoint canonical_categories (seen ids : list string) : result Error (list string) :=
  match ids with
  | [] => mret []
  | raw :: rest =>
      id ← canonicalID raw;
      _ ← guard_ok (bool_decide (id ∉ seen)) ErrInvalidArgument;
      out ← canonical_categories (id :: seen) rest;
      mret (id :: out)
  end.

(** Both opening times, valid and different, or none. *)
Definition valid_hours (i : Input) : bool :=
  match i_OpensAt i, i_ClosesAt i with
  | Some o, Some c => validClock o && validClock c && negb (same o c)
  | None, None => true
  | _, _ => false
  end.

Definition normalizeInput (i : Input) : result Error Input :=
  name ← trimAndValidateLength (i_Name i) 1 200;
  details ← trimAndValidateLength (i_Details i) 0 2000;
  floor ← normalizeOptional (i_Floor i) 50;
  contact ← normalizeOptional (i_Contact i) 500;
  building ← canonicalID (i_BuildingID i);
  ids ← canonical_categories [] (i_CategoryIDs i);
  _ ← guard_ok (Bool.eqb (i_IsSupplier i) (negb (same ids []))) ErrFailedPrecondition;
  _ ← guard_ok (match i_Coordinates i with
                | Some c => ValidCoordinates (o_Latitude c) (o_Longitude c)
                | None => false
                end) ErrInvalidArgument;
  _ ← guard_ok (valid_hours i) ErrInvalidArgument;
  mret (i <| i_Name := name |> <| i_Details := details |> <| i_Floor := floor |>
          <| i_Contact := contact |> <| i_BuildingID := building |> <| i_CategoryIDs := ids |>).

Definition writablePaths : list string :=
  ["name"; "is_supplier"; "category_ids"; "building_id"; "floor"; "coordinates"; "opens_at";
   "closes_at"; "contact"; "details"].

Definition validateMask (paths : list string) : result Error (gset string) :=
  mask ← parseFieldMask paths writablePaths;
  _ ← guard_ok (Bool.eqb (bool_decide ("opens_at" ∈ mask)) (bool_decide ("closes_at" ∈ mask)))
               ErrInvalidArgument;
  mret mask.

(** The stored Location as an input. *)
Definition input_of (l : Location) : Input := {|
  i_Name := l_Name l; i_IsSupplier := l_IsSupplier l; i_CategoryIDs := sc_ID <$> l_Categories l;
  i_BuildingID := sb_ID (l_Building l); i_Floor := l_Floor l; i_Coordinates := Some (l_Coordinates l);
  i_OpensAt := l_OpensAt l; i_ClosesAt := l_ClosesAt l; i_Contact := l_Contact l;
  i_Details := l_Details l |}.

Definition mergeInput (current : Location) (patch : Input) (mask : gset string) : Input :=
  let i := input_of current in
  let pick {A} (f : string) (get : Input → A) : A :=
    if bool_decide (f ∈ mask) then get patch else get i in {|
  i_Name := pick "name" i_Name;
  i_IsSupplier := pick "is_supplier" i_IsSupplier;
  i_CategoryIDs := pick "category_ids" i_CategoryIDs;
  i_BuildingID := pick "building_id" i_BuildingID;
  i_Floor := pick "floor" i_Floor;
  i_Coordinates := pick "coordinates" i_Coordinates;
  i_OpensAt := pick "opens_at" i_OpensAt;
  i_ClosesAt := pick "opens_at" i_ClosesAt;
  i_Contact := pick "contact" i_Contact;
  i_Details := pick "details" i_Details |}.

End normalise.

(** ** The hash of a payload (idempotency.go, Hash)

    The payloads are structs without tags: their members carry the fields'
    names. An empty slice of categories is nil once normalised. *)
Definition json_text (o : option string) : json :=
  match o with Some s => JString s | None => JNull end.
Definition json_int (o : option Z) : json := match o with Some z => JInt z | None => JNull end.
Definition json_texts (l : list string) : json :=
  match l with [] => JNull | _ => JArray (JString <$> l) end.

Definition json_float (f : Float64) : result Error json := from_option_ok (float_json f) ErrMarshal.
Definition json_time (t : option Time) : result Error json :=
  match t with
  | None => mret JNull
  | Some t => s ← from_option_ok (format_time t) ErrMarshal; mret (JString s)
  end.

Definition proposal_json (p : Proposal) : result Error json :=
  latitude ← json_float (p_Latitude p);
  longitude ← json_float (p_Longitude p);
  mret (JObject
    [("Name", JString (p_Name p)); ("IsSupplier", JBool (p_IsSupplier p));
     ("CategoryIDs", json_texts (p_CategoryIDs p)); ("BuildingID", JString (p_BuildingID p));
     ("Floor", json_text (p_Floor p)); ("Latitude", latitude); ("Longitude", longitude);
     ("CoordinatesMissing", JBool (p_CoordinatesMissing p)); ("OpenFrom", json_int (p_OpenFrom p));
     ("OpenTo", json_int (p_OpenTo p)); ("Contact", json_text (p_Contact p));
     ("Details", JString (p_Details p))]).

Definition clock_json (c : option Clock) : json :=
  match c with
  | Some c => JObject [("Hour", JInt (k_Hour c)); ("Minute", JInt (k_Minute c))]
  | None => JNull
  end.

Definition coordinates_json (c : option Coordinates) : result Error json :=
  match c with
  | None => mret JNull
  | Some c => latitude ← json_float (o_Latitude c);
              longitude ← json_float (o_Longitude c);
              mret (JObject [("Latitude", latitude); ("Longitude", longitude)])
  end.

Definition admin_json (i : Input) : result Error json :=
  coordinates ← coordinates_json (i_Coordinates i);
  mret (JObject
    [("Name", JString (i_Name i)); ("IsSupplier", JBool (i_IsSupplier i));
     ("CategoryIDs", json_texts (i_CategoryIDs i)); ("BuildingID", JString (i_BuildingID i));
     ("Floor", json_text (i_Floor i)); ("Coordinates", coordinates);
     ("OpensAt", clock_json (i_OpensAt i)); ("ClosesAt", clock_json (i_ClosesAt i));
     ("Contact", json_text (i_Contact i)); ("Details", JString (i_Details i))]).

(** The payload of CreateDisablement. *)
Definition disablement_json (location : string) (starts ends : option Time) (reason : string)
    : result Error json :=
  s ← json_time starts;
  e ← json_time ends;
  mret (JObject [("LocationID", JString location); ("StartsAt", s); ("EndsAt", e);
                 ("Reason", JString reason)]).

Definition Hash `{Digest} (payload : result Error json) : result Error string :=
  v ← payload; mret (sha256_hex (Marshal v)).
