(* ===== verification/SupplierDB.v ===== *)
(** * Supplier: the database

    supplier-service/database: the tables and constraints of the schema and the
    queries lifecycle.sql, location.sql and idempotency.sql. uuid columns are
    kept as canonical text (their order is that of the text), timestamptz
    columns as UTC times in whole microseconds, time columns as microseconds
    since midnight, a point as its latitude and longitude, and the status of a
    request as the value of its type. The column category_id of
    location_addition_requests, which no query reads or writes, is left out. *)
From stdpp Require Import prelude gmap strings list sorting.
From Stdlib Require Import ZArith Lia SpecFloat.
From S2P Require Import Prelude.
From S2P Require Import GoLib.
From S2P Require Import GoText.
From S2P Require Import GoFloat.
From S2P Require Import SupplierTypes.

Local Open Scope Z_scope.
Local Open Scope foc_scope.

(** ** Rows *)

Record LocationRow := mkLocationRow {
  lr_ID : string;
  lr_Name : string;
  lr_IsSupplier : bool;
  lr_BuildingID : string;
  lr_Floor : option string;
  lr_Latitude : Float64;
  lr_Longitude : Float64;
  lr_OpenFrom : option Z;
  lr_OpenTo : option Z;
  lr_Contact : option string;
  lr_Details : string;
  lr_ArchivedAt : option Time;
  lr_Revision : Z;
  lr_CreatedAt : Time;
  lr_UpdatedAt : Time;
}.
#[export] Instance LocationRow_eta : Eta LocationRow := λ r,
  mkLocationRow (lr_ID r) (lr_Name r) (lr_IsSupplier r) (lr_BuildingID r) (lr_Floor r) (lr_Latitude r)
    (lr_Longitude r) (lr_OpenFrom r) (lr_OpenTo r) (lr_Contact r) (lr_Details r) (lr_ArchivedAt r)
    (lr_Revision r) (lr_CreatedAt r) (lr_UpdatedAt r).
#[export] Instance set_lr_ArchivedAt : Setter lr_ArchivedAt := ltac:(build_setter lr_ArchivedAt).
#[export] Instance set_lr_Revision : Setter lr_Revision := ltac:(build_setter lr_Revision).
#[export] Instance set_lr_UpdatedAt : Setter lr_UpdatedAt := ltac:(build_setter lr_UpdatedAt).

Record RequestRow := {
  rr_ID : string;
  rr_SubmittedBy : string;
  rr_Name : string;
  rr_IsSupplier : bool;
  rr_BuildingID : option string;
  rr_Coordinates : option (Float64 * Float64);
  rr_OpenFrom : option Z;
  rr_OpenTo : option Z;
  rr_Contact : option string;
  rr_Details : string;
  rr_Status : RequestStatus;
  rr_ReviewedBy : option string;
  rr_ReviewedAt : option Time;
  rr_ReviewNote : option string;
  rr_ResultingLocationID : option string;
  rr_CreatedAt : Time;
  rr_UpdatedAt : Time;
  rr_Floor : option string;
  rr_Revision : Z;
}.

Record KeyRow := { ky_RequestHash : string; ky_ResourceID : string; ky_ExpiresAt : Time }.

(** A row of location_disablements has the fields of a [Disablement]. *)
Record SDB := mkSDB {
  buildings : gmap string Building;
  categories : gmap string Category;
  locations : gmap string LocationRow;
  location_categories : gset (string * string);
  disablements : gmap string Disablement;
  requests : gmap string RequestRow;
  request_categories : gset (string * string);
  (** By caller, method and key. *)
  supplier_idempotency : gmap (string * string * string) KeyRow;
}.
#[export] Instance SDB_eta : Eta SDB := λ d,
  mkSDB (buildings d) (categories d) (locations d) (location_categories d) (disablements d)
    (requests d) (request_categories d) (supplier_idempotency d).
#[export] Instance set_locations : Setter locations := ltac:(build_setter locations).
#[export] Instance set_location_categories : Setter location_categories :=
  ltac:(build_setter location_categories).
#[export] Instance set_disablements : Setter disablements := ltac:(build_setter disablements).
#[export] Instance set_requests : Setter requests := ltac:(build_setter requests).
#[export] Instance set_request_categories : Setter request_categories :=
  ltac:(build_setter request_categories).
#[export] Instance set_supplier_idempotency : Setter supplier_idempotency :=
  ltac:(build_setter supplier_idempotency).

(** ** Statement errors *)

Definition check_violation : Error := Pg "23514".
Definition unique_violation : Error := Pg "23505".
Definition foreign_key_violation : Error := Pg "23503".
Definition not_null_violation : Error := Pg "23502".
Definition invalid_text : Error := Pg "22021".

Abbreviation check b := (guard_ok b check_violation).
Abbreviation unique b := (guard_ok b unique_violation).
Abbreviation references b := (guard_ok b foreign_key_violation).
Abbreviation not_null o := (from_option_ok o not_null_violation).

(** ** CHECK constraints

    A CHECK passes when its condition is NULL. *)

(** open_from and open_to are a pair of different times of whole minutes. *)
Definition locations_hours_check (from to : option Z) : bool :=
  Bool.eqb (is_some from) (is_some to)
  && match from, to with
     | Some f, Some t => negb (f =? t) && (f <? 86400000000) && (t <? 86400000000)
                         && (f mod 60000000 =? 0) && (t mod 60000000 =? 0)
     | _, _ => true
     end.

Definition locations_check (r : LocationRow) : bool :=
  within 1 200 (char_length (btrim (lr_Name r)))
  && locations_hours_check (lr_OpenFrom r) (lr_OpenTo r)
  && opt_check (λ f, within 1 50 (char_length (btrim f))) (lr_Floor r)
  && opt_check (λ c, char_length (btrim c) <=? 500) (lr_Contact r)
  && (char_length (btrim (lr_Details r)) <=? 2000)
  && ValidCoordinates (lr_Latitude r) (lr_Longitude r)
  && (0 <? lr_Revision r).

Definition disablements_check (d : Disablement) : bool :=
  opt_check (λ e, d_StartsAt d <? e) (d_EndsAt d)
  && (0 <? d_Revision d)
  && within 1 500 (char_length (btrim (d_Reason d)))
  && negb (is_some (d_EndedAt d) && is_some (d_CancelledAt d))
  && opt_check (λ e, (d_StartsAt d <=? e) && opt_check (λ n, e <=? n) (d_EndsAt d)) (d_EndedAt d)
  && opt_check (λ c, c <? d_StartsAt d) (d_CancelledAt d).

(** What each status requires of the review columns. *)
Definition requests_review_check (r : RequestRow) : bool :=
  let reviewed := is_some (rr_ReviewedBy r) && is_some (rr_ReviewedAt r) in
  match rr_Status r with
  | Pending | Withdrawn =>
      negb (is_some (rr_ReviewedBy r)) && negb (is_some (rr_ReviewedAt r))
      && negb (is_some (rr_ReviewNote r)) && negb (is_some (rr_ResultingLocationID r))
  | Approved => reviewed && is_some (rr_ResultingLocationID r)
  | Rejected => reviewed && negb (is_some (rr_ResultingLocationID r))
                && match rr_ReviewNote r with
                   | Some n => within 1 2000 (char_length (btrim n))
                   | None => false
                   end
  | OtherStatus _ => false
  end.

Definition requests_proposal_check (r : RequestRow) : bool :=
  match rr_Status r with
  | Withdrawn | Rejected => true
  | _ =>
      within 1 200 (char_length (btrim (rr_Name r)))
      && opt_check (λ f, within 1 50 (char_length (btrim f))) (rr_Floor r)
      && opt_check (λ c, char_length (btrim c) <=? 500) (rr_Contact r)
      && (char_length (btrim (rr_Details r)) <=? 2000)
      && is_some (rr_BuildingID r)
      && match rr_Coordinates r with
         | Some (lat, lon) => ValidCoordinates lat lon
         | None => false
         end
      && match rr_OpenFrom r, rr_OpenTo r with Some f, Some t => negb (f =? t) | _, _ => true end
  end.

(** The status is one of the four; [requests_review_check] has no other. *)
Definition requests_check (r : RequestRow) : bool :=
  (0 <? char_length (rr_Name r)) && Bool.eqb (is_some (rr_OpenFrom r)) (is_some (rr_OpenTo r))
  && (0 <? rr_Revision r) && requests_review_check r && requests_proposal_check r.

Definition hex64 (s : string) : bool :=
  (Nat.eqb (String.length s) 64)
  && forallb (λ c, within 48 57 (code c) || within 97 102 (code c)) (String.list_ascii_of_string s).

(** Text columns hold valid UTF-8 without NUL. *)
Definition location_text (r : LocationRow) : bool :=
  no_nul (lr_Name r) && opt_text_ok (lr_Floor r) && opt_text_ok (lr_Contact r) && no_nul (lr_Details r).
Definition request_text (r : RequestRow) : bool :=
  no_nul (rr_SubmittedBy r) && no_nul (rr_Name r) && opt_text_ok (rr_Floor r)
  && opt_text_ok (rr_Contact r) && no_nul (rr_Details r) && opt_text_ok (rr_ReviewedBy r)
  && opt_text_ok (rr_ReviewNote r).

(** ** idempotency.sql *)

Definition DeleteExpiredIdempotency (caller method key : string) (now : Time) (d : SDB) : SDB :=
  match supplier_idempotency d !! (caller, method, key) with
  | Some k => if ky_ExpiresAt k <=? stored_time now
              then d <| supplier_idempotency := delete (caller, method, key) (supplier_idempotency d) |>
              else d
  | None => d
  end.

Definition GetIdempotency (caller method key : string) (d : SDB) : option KeyRow :=
  supplier_idempotency d !! (caller, method, key).

Definition InsertIdempotency (caller method key : string) (k : KeyRow) (d : SDB) : result Error SDB :=
  _ ← guard_ok (no_nul caller) invalid_text;
  _ ← check (hex64 (ky_RequestHash k));
  _ ← unique (negb (is_some (supplier_idempotency d !! (caller, method, key))));
  mret (d <| supplier_idempotency := <[(caller, method, key) :=
    {| ky_RequestHash := ky_RequestHash k; ky_ResourceID := ky_ResourceID k;
       ky_ExpiresAt := stored_time (ky_ExpiresAt k) |}]> (supplier_idempotency d) |>).

(** ** Locations and their Categories *)

Definition BuildingExists (id : option string) (d : SDB) : bool :=
  match id with Some id => is_some (buildings d !! id) | None => false end.
Definition CategoryExists (id : option string) (d : SDB) : bool :=
  match id with Some id => is_some (categories d !! id) | None => false end.

(** SELECT id ... WHERE id = ANY(ids). *)
Definition ExistingCategoryIDs (ids : list string) (d : SDB) : list string :=
  filter (λ id, id ∈ ids) (fst <$> map_to_list (categories d)).

Definition stored_location (r : LocationRow) : LocationRow :=
  r <| lr_ArchivedAt := stored_times (lr_ArchivedAt r) |>.

Definition InsertLocation (r : LocationRow) (d : SDB) : result Error SDB :=
  _ ← guard_ok (location_text r) invalid_text;
  _ ← check (locations_check r);
  _ ← unique (negb (is_some (locations d !! lr_ID r)));
  _ ← references (is_some (buildings d !! lr_BuildingID r));
  mret (d <| locations := <[lr_ID r := r]> (locations d) |>).

(** UPDATE ... WHERE id AND revision = expected: the number of rows. *)
Definition UpdateLocation (id : string) (expected : Z) (new : LocationRow → LocationRow) (d : SDB)
    : result Error (SDB * Z) :=
  match locations d !! id with
  | Some r =>
      if lr_Revision r =? expected then
        let r := new r in
        _ ← guard_ok (location_text r) invalid_text;
        _ ← guard_ok (lr_Revision r <=? max_int64) (Pg "22003");
        _ ← check (locations_check r);
        _ ← references (is_some (buildings d !! lr_BuildingID r));
        mret (d <| locations := <[id := r]> (locations d) |>, 1)
      else mret (d, 0)
  | None => mret (d, 0)
  end.

Definition DeleteLocationCategories (id : string) (d : SDB) : SDB :=
  d <| location_categories := filter (λ lc, lc.1 ≠ id) (location_categories d) |>.

Definition InsertLocationCategory (id : string) (category : option string) (d : SDB)
    : result Error SDB :=
  category ← not_null category;
  _ ← unique (bool_decide ((id, category) ∉ location_categories d));
  _ ← references (is_some (locations d !! id) && is_some (categories d !! category));
  mret (d <| location_categories := {[(id, category)]} ∪ location_categories d |>).

(** ORDER BY category_id, of a relation's pairs. *)
Definition related (id : string) (pairs : gset (string * string)) : list string :=
  merge_sort string_le (snd <$> filter (λ lc, lc.1 = id) (elements pairs)).

Definition WorkflowLocationCategories (id : string) (d : SDB) : list Category :=
  omap (λ c, categories d !! c) (related id (location_categories d)).

(** ** Addition requests (lifecycle.sql) *)

Definition LockWorkflowRequest (id : option string) (d : SDB) : option RequestRow :=
  id ← id; requests d !! id.

Definition WorkflowRequestCategoryIDs (id : string) (d : SDB) : list string :=
  related id (request_categories d).

Definition request_unique (r : RequestRow) (d : SDB) : bool :=
  match rr_ResultingLocationID r with
  | Some l => bool_decide (map_Forall (λ id q, id = rr_ID r ∨ rr_ResultingLocationID q ≠ Some l)
                             (requests d))
  | None => true
  end.
Definition request_references (r : RequestRow) (d : SDB) : bool :=
  opt_check (λ b, is_some (buildings d !! b)) (rr_BuildingID r)
  && opt_check (λ l, is_some (locations d !! l)) (rr_ResultingLocationID r).

Definition stored_request (r : RequestRow) : RequestRow := {|
  rr_ID := rr_ID r; rr_SubmittedBy := rr_SubmittedBy r; rr_Name := rr_Name r;
  rr_IsSupplier := rr_IsSupplier r; rr_BuildingID := rr_BuildingID r;
  rr_Coordinates := rr_Coordinates r; rr_OpenFrom := rr_OpenFrom r; rr_OpenTo := rr_OpenTo r;
  rr_Contact := rr_Contact r; rr_Details := rr_Details r; rr_Status := rr_Status r;
  rr_ReviewedBy := rr_ReviewedBy r; rr_ReviewedAt := stored_times (rr_ReviewedAt r);
  rr_ReviewNote := rr_ReviewNote r; rr_ResultingLocationID := rr_ResultingLocationID r;
  rr_CreatedAt := stored_time (rr_CreatedAt r); rr_UpdatedAt := stored_time (rr_UpdatedAt r);
  rr_Floor := rr_Floor r; rr_Revision := rr_Revision r |}.

Definition put_request (r : RequestRow) (d : SDB) : result Error SDB :=
  let r := stored_request r in
  _ ← guard_ok (request_text r) invalid_text;
  _ ← check (requests_check r);
  _ ← unique (request_unique r d);
  _ ← references (request_references r d);
  mret (d <| requests := <[rr_ID r := r]> (requests d) |>).

Definition InsertWorkflowRequest (r : RequestRow) (d : SDB) : result Error SDB :=
  _ ← unique (negb (is_some (requests d !! rr_ID r)));
  put_request r d.

(** The submitter and the time of creation stay. *)
Definition updated_request (old r : RequestRow) : RequestRow := {|
  rr_ID := rr_ID old; rr_SubmittedBy := rr_SubmittedBy old; rr_Name := rr_Name r;
  rr_IsSupplier := rr_IsSupplier r; rr_BuildingID := rr_BuildingID r;
  rr_Coordinates := rr_Coordinates r; rr_OpenFrom := rr_OpenFrom r; rr_OpenTo := rr_OpenTo r;
  rr_Contact := rr_Contact r; rr_Details := rr_Details r; rr_Status := rr_Status r;
  rr_ReviewedBy := rr_ReviewedBy r; rr_ReviewedAt := rr_ReviewedAt r;
  rr_ReviewNote := rr_ReviewNote r; rr_ResultingLocationID := rr_ResultingLocationID r;
  rr_CreatedAt := rr_CreatedAt old; rr_UpdatedAt := rr_UpdatedAt r; rr_Floor := rr_Floor r;
  rr_Revision := rr_Revision r |}.

(** UPDATE ... WHERE id AND status = 'pending' AND revision = expected. *)
Definition UpdateWorkflowRequest (id : option string) (r : RequestRow) (expected : Z) (d : SDB)
    : result Error (SDB * Z) :=
  match LockWorkflowRequest id d with
  | Some old =>
      if same (rr_Status old) Pending && (rr_Revision old =? expected) then
        d' ← put_request (updated_request old r) d;
        mret (d', 1)
      else mret (d, 0)
  | None => mret (d, 0)
  end.

Definition DeleteWorkflowRequestCategories (id : option string) (d : SDB) : SDB :=
  match id with
  | Some id => d <| request_categories := filter (λ rc, rc.1 ≠ id) (request_categories d) |>
  | None => d
  end.

Definition InsertWorkflowRequestCategory (id category : option string) (d : SDB)
    : result Error SDB :=
  id ← not_null id;
  category ← not_null category;
  _ ← unique (bool_decide ((id, category) ∉ request_categories d));
  _ ← references (is_some (requests d !! id) && is_some (categories d !! category));
  mret (d <| request_categories := {[(id, category)]} ∪ request_categories d |>).

(** The rows a caller may list: WHERE (is_admin OR submitted_by OR approved)
    AND (no filter OR status). *)
Definition listed_request (is_admin : bool) (caller : string) (status : RequestStatus)
    (r : RequestRow) : bool :=
  (is_admin || same (rr_SubmittedBy r) caller || same (rr_Status r) Approved)
  && (same status (OtherStatus EmptyString) || same (rr_Status r) status).

(** ORDER BY created_at DESC, id. *)
Definition newest_request (r q : RequestRow) : Prop :=
  rr_CreatedAt q < rr_CreatedAt r ∨ (rr_CreatedAt q = rr_CreatedAt r ∧ string_le (rr_ID r) (rr_ID q)).
#[export] Instance newest_request_dec : RelDecision newest_request.
Proof. unfold RelDecision, newest_request. apply _. Defined.

Definition matching_requests (is_admin : bool) (caller : string) (status : RequestStatus) (d : SDB)
    : list RequestRow :=
  filter (λ r, listed_request is_admin caller status r = true) (snd <$> map_to_list (requests d)).

Definition ListWorkflowRequests (is_admin : bool) (caller : string) (status : RequestStatus)
    (offset size : Z) (d : SDB) : list RequestRow :=
  page_of offset size (merge_sort newest_request (matching_requests is_admin caller status d)).

Definition CountWorkflowRequests (is_admin : bool) (caller : string) (status : RequestStatus) (d : SDB)
    : Z := Z.of_nat (length (matching_requests is_admin caller status d)).

(** ** Disablements (lifecycle.sql) *)

Definition LockWorkflowDisablement (id : option string) (d : SDB) : option Disablement :=
  id ← id; disablements d !! id.

Definition stored_disablement (x : Disablement) : Disablement := {|
  d_ID := d_ID x; d_LocationID := d_LocationID x; d_StartsAt := stored_time (d_StartsAt x);
  d_EndsAt := stored_times (d_EndsAt x); d_EndedAt := stored_times (d_EndedAt x);
  d_CancelledAt := stored_times (d_CancelledAt x); d_Reason := d_Reason x; d_CreatedBy := d_CreatedBy x;
  d_Revision := d_Revision x; d_CreatedAt := stored_time (d_CreatedAt x);
  d_UpdatedAt := stored_time (d_UpdatedAt x) |}.

Definition disablement_text (x : Disablement) : bool := no_nul (d_Reason x) && no_nul (d_CreatedBy x).

Definition put_disablement (x : Disablement) (d : SDB) : result Error SDB :=
  let x := stored_disablement x in
  _ ← guard_ok (disablement_text x) invalid_text;
  _ ← check (disablements_check x);
  _ ← references (is_some (locations d !! d_LocationID x));
  mret (d <| disablements := <[d_ID x := x]> (disablements d) |>).

(** A new row has neither ended nor been cancelled. *)
Definition inserted_disablement (id location : string) (x : Disablement) : Disablement := {|
  d_ID := id; d_LocationID := location; d_StartsAt := d_StartsAt x; d_EndsAt := d_EndsAt x;
  d_EndedAt := None; d_CancelledAt := None; d_Reason := d_Reason x; d_CreatedBy := d_CreatedBy x;
  d_Revision := d_Revision x; d_CreatedAt := d_CreatedAt x; d_UpdatedAt := d_UpdatedAt x |}.

Definition InsertWorkflowDisablement (id location : option string) (x : Disablement) (d : SDB)
    : result Error SDB :=
  id ← not_null id;
  location ← not_null location;
  _ ← unique (negb (is_some (disablements d !! id)));
  put_disablement (inserted_disablement id location x) d.

(** The Location, the author and the time of creation stay. *)
Definition updated_disablement (old x : Disablement) : Disablement := {|
  d_ID := d_ID old; d_LocationID := d_LocationID old; d_StartsAt := d_StartsAt x;
  d_EndsAt := d_EndsAt x; d_EndedAt := d_EndedAt x; d_CancelledAt := d_CancelledAt x;
  d_Reason := d_Reason x; d_CreatedBy := d_CreatedBy old; d_Revision := d_Revision x;
  d_CreatedAt := d_CreatedAt old; d_UpdatedAt := d_UpdatedAt x |}.

Definition UpdateWorkflowDisablement (id : option string) (x : Disablement) (expected : Z) (d : SDB)
    : result Error (SDB * Z) :=
  match LockWorkflowDisablement id d with
  | Some old =>
      if d_Revision old =? expected then
        d' ← put_disablement (updated_disablement old x) d;
        mret (d', 1)
      else mret (d, 0)
  | None => mret (d, 0)
  end.

(** tstzrange(start, end, '[)') is empty when the ends are equal, and raises an
    error when they are out of order; a NULL end is infinity. *)
Definition range_ok (start : Time) (stop : option Time) : bool := opt_check (λ e, start <=? e) stop.
Definition range_empty (start : Time) (stop : option Time) : bool :=
  match stop with Some e => start =? e | None => false end.
(** [a && b] of two ranges. *)
Definition ranges_overlap (s1 : Time) (e1 : option Time) (s2 : Time) (e2 : option Time) : bool :=
  negb (range_empty s1 e1) && negb (range_empty s2 e2)
  && opt_check (λ e, s1 <? e) e2 && opt_check (λ e, s2 <? e) e1.

(** LEAST ignores NULL. *)
Definition least (a b : option Time) : option Time :=
  match a, b with
  | Some a, Some b => Some (Z.min a b)
  | None, b => b
  | a, None => a
  end.

(** The interval in which a disablement holds. *)
Definition effective_end (x : Disablement) : option Time := least (d_EndsAt x) (d_EndedAt x).

Definition overlap_candidates (location id : option string) (d : SDB) : list Disablement :=
  match location, id with
  | Some l, Some i => filter (λ x, d_LocationID x = l ∧ d_ID x ≠ i ∧ d_CancelledAt x = None)
                        (snd <$> map_to_list (disablements d))
  | _, _ => []
  end.

Definition WorkflowDisablementOverlap (location id : option string) (starts : Time)
    (ends : option Time) (d : SDB) : result Error bool :=
  let starts := stored_time starts in
  let ends := stored_times ends in
  _ ← guard_ok (range_ok starts ends) (Pg "22000");
  mret (existsb (λ x, ranges_overlap (d_StartsAt x) (effective_end x) starts ends)
        (overlap_candidates location id d)).

(** The CASE of ListWorkflowDisablements: a NULL comparison is not true. *)
Definition sql_state (now : Time) (x : Disablement) : DisablementState :=
  if is_some (d_CancelledAt x) then DCancelled
  else if is_some (d_EndedAt x) || match d_EndsAt x with Some e => e <=? now | None => false end
  then Ended
  else if now <? d_StartsAt x then Scheduled
  else Active.

Definition matching_disablements (location : option string) (state : DisablementState) (now : Time)
    (d : SDB) : list Disablement :=
  filter (λ x, Some (d_LocationID x) = location
               ∧ (state = OtherState EmptyString ∨ state = sql_state (stored_time now) x))
    (snd <$> map_to_list (disablements d)).

(** ORDER BY starts_at DESC, id. *)
Definition latest_start (x y : Disablement) : Prop :=
  d_StartsAt y < d_StartsAt x ∨ (d_StartsAt y = d_StartsAt x ∧ string_le (d_ID x) (d_ID y)).
#[export] Instance latest_start_dec : RelDecision latest_start.
Proof. unfold RelDecision, latest_start. apply _. Defined.

Definition ListWorkflowDisablements (location : option string) (state : DisablementState) (now : Time)
    (offset size : Z) (d : SDB) : list Disablement :=
  page_of offset size (merge_sort latest_start (matching_disablements location state now d)).

Definition CountWorkflowDisablements (location : option string) (state : DisablementState) (now : Time)
    (d : SDB) : Z := Z.of_nat (length (matching_disablements location state now d)).

(** A disablement that holds now. *)
Definition holds_now (now : Time) (x : Disablement) : bool :=
  negb (is_some (d_CancelledAt x)) && negb (is_some (d_EndedAt x)) && (d_StartsAt x <=? now)
  && opt_check (λ e, now <? e) (d_EndsAt x).

Definition current_disablements (location : string) (now : Time) (d : SDB) : list Disablement :=
  filter (λ x, d_LocationID x = location ∧ holds_now (stored_time now) x = true)
    (snd <$> map_to_list (disablements d)).

Definition CurrentWorkflowDisablement (location : string) (now : Time) (d : SDB)
    : option Disablement :=
  head (merge_sort latest_start (current_disablements location now d)).
