(* ===== verification/SupplierStore.v ===== *)
(** * Supplier: transactions

    idempotency/idempotency.go and postgres.go, and the transactions of
    additionrequest/postgresrepository.go, disablement/postgresrepository.go and
    admin/postgresstore.go. A transaction locks what it changes (the key's
    advisory lock, then the request, disablement or Location row), so that
    transactions about the same data do not overlap; a failing callback rolls
    everything back. *)
From stdpp Require Import prelude gmap strings list sorting.
From Stdlib Require Import ZArith Lia SpecFloat.
From S2P Require Import Prelude.
From S2P Require Import GoLib.
From S2P Require Import GoText.
From S2P Require Import GoFloat.
From S2P Require Import SupplierTypes.
From S2P Require Import SupplierProposal.
From S2P Require Import SupplierDB.

Local Open Scope Z_scope.
Local Open Scope foc_scope.

(** What a call reads from its surroundings: the service's clock, as the
    operation and then as the reading of a Location sees it, the identifier it
    draws (uuid.NewString; no call draws two), and the database's clock. *)
Record Env := {
  now_ : Time;
  read_now : Time;
  newID : string;
  server_now : Time;
}.

Definition Tx (A : Type) : Type := ST Error Env SDB A.

(** ** Errors of the database *)

(** additionrequest and disablement: [mapError]. *)
Definition mapError (e : Error) : Error :=
  match e with
  | Pg code =>
      if same code "23503" || same code "23514" then ErrFailedPrecondition
      else if same code "23505" || same code "23P01" then ErrAlreadyExists
      else if same code "40001" then ErrAborted else Pg code
  | _ => e
  end.

(** admin: [mapPostgresError]. *)
Definition mapPostgresError (e : Error) : Error :=
  match e with
  | Pg code =>
      if same code "23503" then ErrFailedPrecondition
      else if same code "23505" || same code "23P01" then ErrAlreadyExists
      else if same code "23514" || same code "22003" || same code "22007" || same code "22008"
      then ErrInvalidArgument
      else if same code "40001" || same code "40P01" then ErrAborted else Pg code
  | _ => e
  end.

(** ** The boundary of a transaction

    Begin, a statement or the commit may fail; a failed commit may have been
    applied by the server. *)
Record Faults := {
  begin_fault : option string;
  body_fault : option string;
  commit_fault : option (string * bool);
}.
Definition no_faults : Faults :=
  {| begin_fault := None; body_fault := None; commit_fault := None |}.

Definition Within (report : Error → Error) {A} (env : Env) (fl : Faults) (f : Tx A) (d : SDB)
    : result Error A * SDB :=
  match begin_fault fl, body_fault fl with
  | Some code, _ | None, Some code => (Err (report (Pg code)), d)
  | None, None =>
      match f env d with
      | Err e => (Err e, d)
      | Ok (a, d') =>
          match commit_fault fl with
          | Some (code, applied) => (Err (report (Pg code)), if applied : bool then d' else d)
          | None => (Ok a, d')
          end
      end
  end.

Section store.
  Context `{UUID}.

(** ** Idempotent calls (idempotency.go, postgres.go) *)

Record Scope := { s_Caller : string; s_Method : string; s_Key : string }.

Definition key_lifetime : Duration := 24 * Hour.

Definition store_Find (scope : Scope) (now : Time) : Tx (option KeyRow) :=
  key ← require (uuid_parse (s_Key scope)) (ErrOther "parse idempotency key");
  _ ← modify (DeleteExpiredIdempotency (s_Caller scope) (s_Method scope) key now);
  gets (GetIdempotency (s_Caller scope) (s_Method scope) key).

Definition store_Save (scope : Scope) (k : KeyRow) : Tx unit :=
  key ← require (uuid_parse (s_Key scope)) (ErrOther "parse idempotency key");
  id ← require (uuid_parse (ky_ResourceID k)) (ErrOther "parse idempotency resource ID");
  exec_unit (InsertIdempotency (s_Caller scope) (s_Method scope) key
    {| ky_RequestHash := ky_RequestHash k; ky_ResourceID := id; ky_ExpiresAt := ky_ExpiresAt k |}).

(** [Run]: an earlier call under the key answers, unless its payload differed;
    otherwise [create] runs and its resource is recorded for a day. [report] is
    how the repository reports the store's errors. *)
Definition Run (report : Error → Error) (scope : Scope) (hash : string) (create : Time → Tx string)
    : Tx string :=
  key ← require (uuid_parse (s_Key scope)) ErrInvalidKey;
  let scope := {| s_Caller := s_Caller scope; s_Method := s_Method scope; s_Key := key |} in
  env ← ask;
  let now := now_ env in
  record ← reporting report (store_Find scope now);
  match record with
  | Some k => _ ← ensure (same (ky_RequestHash k) hash) ErrConflict;
              mret (ky_ResourceID k)
  | None =>
      id ← create now;
      _ ← reporting report (store_Save scope
            {| ky_RequestHash := hash; ky_ResourceID := id; ky_ExpiresAt := now + key_lifetime |});
      mret id
  end.

(** The errors of [Run] that the services tell apart. *)
Definition idempotency_error (e : Error) : Error :=
  match e with
  | ErrInvalidKey => ErrInvalidArgument
  | ErrConflict => ErrAlreadyExists
  | _ => e
  end.

Definition idempotent (c : Caller) (method key : string) (payload : result Error string)
    (create : Time → Tx string) : Tx string :=
  hash ← lift payload;
  reporting idempotency_error
    (Run mapError {| s_Caller := cl_ID c; s_Method := method; s_Key := key |} hash create).

(** ** Addition requests (additionrequest/postgresrepository.go) *)

(** Every statement's error is reported through [mapError]. *)
Definition stmt {A} (f : SDB → result Error (SDB * A)) : Tx A := reporting mapError (exec f).
Definition stmt_unit (f : SDB → result Error SDB) : Tx unit := reporting mapError (exec_unit f).

Definition request (row : RequestRow) (categories : list string) : AdditionRequest := {|
  q_ID := rr_ID row;
  q_Proposal := {|
    p_Name := rr_Name row; p_IsSupplier := rr_IsSupplier row; p_CategoryIDs := categories;
    p_BuildingID := default EmptyString (rr_BuildingID row); p_Floor := rr_Floor row;
    p_Latitude := match rr_Coordinates row with Some c => c.1 | None => S754_zero false end;
    p_Longitude := match rr_Coordinates row with Some c => c.2 | None => S754_zero false end;
    p_CoordinatesMissing := negb (is_some (rr_Coordinates row));
    p_OpenFrom := rr_OpenFrom row; p_OpenTo := rr_OpenTo row; p_Contact := rr_Contact row;
    p_Details := rr_Details row |};
  q_SubmittedBy := rr_SubmittedBy row; q_Status := rr_Status row; q_ReviewedBy := rr_ReviewedBy row;
  q_ReviewedAt := rr_ReviewedAt row; q_ReviewNote := rr_ReviewNote row;
  q_ResultingLocationID := rr_ResultingLocationID row; q_Revision := rr_Revision row;
  q_CreatedAt := rr_CreatedAt row; q_UpdatedAt := rr_UpdatedAt row |}.

Definition tx_Request (id : string) : Tx AdditionRequest :=
  row ← gets (LockWorkflowRequest (sql_id id));
  row ← require row ErrNotFound;
  categories ← gets (WorkflowRequestCategoryIDs (rr_ID row));
  mret (request row categories).

(** The columns that a request is written to. *)
Definition request_row (q : AdditionRequest) (id : string) : RequestRow :=
  let p := q_Proposal q in {|
  rr_ID := id; rr_SubmittedBy := q_SubmittedBy q; rr_Name := p_Name p;
  rr_IsSupplier := p_IsSupplier p; rr_BuildingID := sql_id (p_BuildingID p);
  rr_Coordinates := if p_CoordinatesMissing p then None else Some (p_Latitude p, p_Longitude p);
  rr_OpenFrom := p_OpenFrom p; rr_OpenTo := p_OpenTo p; rr_Contact := p_Contact p;
  rr_Details := p_Details p; rr_Status := q_Status q; rr_ReviewedBy := q_ReviewedBy q;
  rr_ReviewedAt := q_ReviewedAt q; rr_ReviewNote := q_ReviewNote q;
  rr_ResultingLocationID := q_ResultingLocationID q ≫= sql_id;
  rr_CreatedAt := q_CreatedAt q; rr_UpdatedAt := q_UpdatedAt q; rr_Floor := p_Floor p;
  rr_Revision := q_Revision q |}.

(** The INSERT writes coordinates always and no column of the review. *)
Definition inserted_request (q : AdditionRequest) (id : string) : RequestRow :=
  let p := q_Proposal q in {|
  rr_ID := id; rr_SubmittedBy := q_SubmittedBy q; rr_Name := p_Name p;
  rr_IsSupplier := p_IsSupplier p; rr_BuildingID := sql_id (p_BuildingID p);
  rr_Coordinates := Some (p_Latitude p, p_Longitude p);
  rr_OpenFrom := p_OpenFrom p; rr_OpenTo := p_OpenTo p; rr_Contact := p_Contact p;
  rr_Details := p_Details p; rr_Status := Pending; rr_ReviewedBy := None; rr_ReviewedAt := None;
  rr_ReviewNote := None; rr_ResultingLocationID := None;
  rr_CreatedAt := q_CreatedAt q; rr_UpdatedAt := q_CreatedAt q; rr_Floor := p_Floor p;
  rr_Revision := 1 |}.

Definition SaveRequest (q : AdditionRequest) (expected : Z) : Tx unit :=
  _ ← (if expected =? 0 then
         id ← reporting mapError (require (sql_id (q_ID q)) not_null_violation);
         stmt_unit (InsertWorkflowRequest (inserted_request q id))
       else
         n ← stmt (UpdateWorkflowRequest (sql_id (q_ID q)) (request_row q (q_ID q)) expected);
         ensure (n =? 1) ErrFailedPrecondition);
  _ ← modify (DeleteWorkflowRequestCategories (sql_id (q_ID q)));
  for_each (λ c, stmt_unit (InsertWorkflowRequestCategory (sql_id (q_ID q)) (sql_id c)))
    (p_CategoryIDs (q_Proposal q)).

Definition ListRequests_rows (c : Caller) (status : RequestStatus) (p : Page)
    : Tx (list AdditionRequest * Z) :=
  rows ← gets (ListWorkflowRequests (IsAdmin c) (cl_ID c) status
                 ((pg_Number p - 1) * pg_Size p) (pg_Size p));
  n ← gets (CountWorkflowRequests (IsAdmin c) (cl_ID c) status);
  d ← get;
  mret ((λ r, request r (WorkflowRequestCategoryIDs (rr_ID r) d)) <$> rows, n).

(** ErrFailedPrecondition unless every category exists. *)
Definition categories_exist (ids : list string) : Tx unit :=
  for_each (λ c, ok ← gets (CategoryExists (sql_id c)); ensure ok ErrFailedPrecondition) ids.

Definition ValidateReferences (p : Proposal) : Tx unit :=
  ok ← gets (BuildingExists (sql_id (p_BuildingID p)));
  _ ← ensure ok ErrFailedPrecondition;
  categories_exist (p_CategoryIDs p).

(** A Location joined with its Building, its Categories and the disablement
    that holds now. *)
Definition workflow_location (row : LocationRow) (b : Building) (cats : list Category)
    (current : option Disablement) : WorkflowLocation := {|
  wl_ID := lr_ID row;
  wl_Proposal := {|
    p_Name := lr_Name row; p_IsSupplier := lr_IsSupplier row; p_CategoryIDs := c_ID <$> cats;
    p_BuildingID := lr_BuildingID row; p_Floor := lr_Floor row; p_Latitude := lr_Latitude row;
    p_Longitude := lr_Longitude row; p_CoordinatesMissing := false; p_OpenFrom := lr_OpenFrom row;
    p_OpenTo := lr_OpenTo row; p_Contact := lr_Contact row; p_Details := lr_Details row |};
  wl_Building := b; wl_Categories := cats; wl_ArchivedAt := lr_ArchivedAt row;
  wl_CurrentDisablement := current; wl_Revision := lr_Revision row;
  wl_CreatedAt := lr_CreatedAt row; wl_UpdatedAt := lr_UpdatedAt row |}.

(** LockWorkflowLocation joins the Building. *)
Definition locked_location (id : option string) (d : SDB) : option (LocationRow * Building) :=
  id ← id; row ← locations d !! id; b ← buildings d !! lr_BuildingID row; Some (row, b).

Definition tx_Location (id : string) : Tx WorkflowLocation :=
  env ← ask;
  row ← gets (locked_location (sql_id id));
  '(row, b) ← require row ErrNotFound;
  cats ← gets (WorkflowLocationCategories (lr_ID row));
  current ← gets (CurrentWorkflowDisablement (lr_ID row) (read_now env));
  mret (workflow_location row b cats current).

Definition location_row (p : Proposal) (id building : string) (now : Time) : LocationRow := {|
  lr_ID := id; lr_Name := p_Name p; lr_IsSupplier := p_IsSupplier p; lr_BuildingID := building;
  lr_Floor := p_Floor p; lr_Latitude := p_Latitude p; lr_Longitude := p_Longitude p;
  lr_OpenFrom := p_OpenFrom p; lr_OpenTo := p_OpenTo p; lr_Contact := p_Contact p;
  lr_Details := p_Details p; lr_ArchivedAt := None; lr_Revision := 1;
  lr_CreatedAt := stored_time now; lr_UpdatedAt := stored_time now |}.

Definition CreateLocation (p : Proposal) (now : Time) : Tx WorkflowLocation :=
  env ← ask;
  id ← reporting mapError (require (sql_id (newID env)) not_null_violation);
  building ← reporting mapError (require (sql_id (p_BuildingID p)) not_null_violation);
  _ ← stmt_unit (InsertLocation (location_row p id building now));
  _ ← for_each (λ c, stmt_unit (InsertLocationCategory id (sql_id c))) (p_CategoryIDs p);
  tx_Location (newID env).

(** ** Disablements (disablement/postgresrepository.go) *)

Definition tx_DisabledLocation (id : string) : Tx DisabledLocation :=
  row ← gets (locked_location (sql_id id));
  '(row, _) ← require row ErrNotFound;
  mret {| dl_ID := lr_ID row; dl_ArchivedAt := lr_ArchivedAt row |}.

Definition tx_Disablement (id : string) : Tx Disablement :=
  row ← gets (LockWorkflowDisablement (sql_id id));
  require row ErrNotFound.

Definition SaveDisablement (x : Disablement) (expected : Z) : Tx unit :=
  if expected =? 0 then
    stmt_unit (InsertWorkflowDisablement (sql_id (d_ID x)) (sql_id (d_LocationID x)) x)
  else
    n ← stmt (UpdateWorkflowDisablement (sql_id (d_ID x)) x expected);
    ensure (n =? 1) ErrAborted.

Definition Overlaps (x : Disablement) : Tx bool :=
  stmt (λ d, b ← WorkflowDisablementOverlap (sql_id (d_LocationID x)) (sql_id (d_ID x))
                   (d_StartsAt x) (d_EndsAt x) d;
             mret (d, b)).

Definition ListDisablements_rows (location : string) (state : DisablementState) (now : Time) (p : Page)
    : Tx (list Disablement * Z) :=
  rows ← gets (ListWorkflowDisablements (sql_id location) state now
                 ((pg_Number p - 1) * pg_Size p) (pg_Size p));
  n ← gets (CountWorkflowDisablements (sql_id location) state now);
  mret (rows, n).

End store.
