(* ===== verification/SupplierRequests.v ===== *)
(** * Supplier: addition requests and disablements

    additionrequest/operations.go: submitting, reading, editing, withdrawing and
    deciding the requests to add a Location; then disablement/operations.go. *)
From stdpp Require Import prelude gmap strings list sorting.
From Stdlib Require Import ZArith Lia.
From S2P Require Import Prelude.
From S2P Require Import GoLib.
From S2P Require Import GoText.
From S2P Require Import GoFloat.
From S2P Require Import SupplierTypes.
From S2P Require Import SupplierProposal.
From S2P Require Import SupplierDB.
From S2P Require Import SupplierStore.

Local Open Scope Z_scope.
Local Open Scope foc_scope.

(** A call validates its arguments, then runs one transaction. *)
Definition call (report : Error → Error) {A B} (arguments : result Error A) (body : A → Tx B)
    (env : Env) (fl : Faults) (d : SDB) : result Error B * SDB :=
  match arguments with
  | Err e => (Err e, d)
  | Ok a => Within report env fl (body a) d
  end.

Definition requireAuthenticated (c : Caller) : result Error unit :=
  guard_ok (Authenticated c) ErrUnauthenticated.

Section requests.
  Context `{UUID, Digest}.

(** ** Submit *)

Definition SubmitMethod : string := "SubmitLocationAdditionRequest".

Definition new_request (id : string) (p : Proposal) (c : Caller) (now : Time) : AdditionRequest := {|
  q_ID := id; q_Proposal := p; q_SubmittedBy := cl_ID c; q_Status := Pending; q_ReviewedBy := None;
  q_ReviewedAt := None; q_ReviewNote := None; q_ResultingLocationID := None; q_Revision := 1;
  q_CreatedAt := now; q_UpdatedAt := now |}.

Definition create_request (c : Caller) (p : Proposal) (now : Time) : Tx string :=
  env ← ask;
  _ ← ValidateReferences p;
  _ ← SaveRequest (new_request (newID env) p c now) 0;
  mret (newID env).

Definition submit_arguments (c : Caller) (p : Proposal) : result Error Proposal :=
  _ ← requireAuthenticated c;
  _ ← guard_ok (negb (same (cl_Role c) "suspended_user")) ErrPermissionDenied;
  normalizeProposal p.

Definition submit_body (c : Caller) (key : string) (p : Proposal) : Tx AdditionRequest :=
  id ← idempotent c SubmitMethod key (Hash (proposal_json p)) (create_request c p);
  tx_Request id.

Definition SubmitRequest (c : Caller) (p : Proposal) (key : string) :=
  call mapError (submit_arguments c p) (submit_body c key).

(** ** Read *)

Definition GetRequest (c : Caller) (id : string) :=
  call mapError (_ ← requireAuthenticated c; validateID id)
    (λ _, q ← tx_Request id;
          _ ← ensure (isVisible c q) ErrNotFound;
          mret (redactRequestForCaller c q)).

Definition request_status_known (s : RequestStatus) : bool :=
  match s with OtherStatus t => negb (nonempty t) | _ => true end.

Definition ListRequests (c : Caller) (status : RequestStatus) (p : Page) :=
  call mapError
    (_ ← requireAuthenticated c;
     _ ← guard_ok (request_status_known status) ErrInvalidArgument;
     normalizePage p)
    (λ p, '(items, n) ← ListRequests_rows c status p;
          mret (redactRequestForCaller c <$> items, newPageInfo p n)).

(** ** Edit *)

Record UpdateRequestInput := {
  ur_ID : string;
  ur_Proposal : Proposal;
  ur_Paths : list string;
  ur_ExpectedRevision : Z;
}.

Definition update_arguments (c : Caller) (i : UpdateRequestInput) : result Error (gset string) :=
  _ ← requireAuthenticated c;
  _ ← guard_ok (is_ok (validateID (ur_ID i)) && (0 <? ur_ExpectedRevision i)) ErrInvalidArgument;
  m ← parseFieldMask (ur_Paths i) proposal_paths;
  _ ← guard_ok (Bool.eqb (bool_decide ("open_from" ∈ m)) (bool_decide ("open_to" ∈ m)))
               ErrInvalidArgument;
  mret m.

Definition update_body (c : Caller) (i : UpdateRequestInput) (m : gset string) : Tx AdditionRequest :=
  env ← ask;
  q ← tx_Request (ur_ID i);
  _ ← ensure (isVisible c q) ErrNotFound;
  _ ← ensure (IsAdmin c || same (cl_ID c) (q_SubmittedBy q)) ErrPermissionDenied;
  _ ← ensure (same (q_Status q) Pending) ErrFailedPrecondition;
  _ ← ensure (q_Revision q =? ur_ExpectedRevision i) ErrAborted;
  p ← lift (normalizeProposal (applyProposalPatch (q_Proposal q) (ur_Proposal i) m));
  _ ← ValidateReferences p;
  let q := q <| q_Proposal := p |> <| q_Revision := add64 (q_Revision q) 1 |>
             <| q_UpdatedAt := now_ env |> in
  _ ← SaveRequest q (ur_ExpectedRevision i);
  tx_Request (q_ID q).

Definition UpdateRequest (c : Caller) (i : UpdateRequestInput) :=
  call mapError (update_arguments c i) (update_body c i).

(** ** Decide *)

(** The Location is the zero value unless the request was approved. *)
Record Approval := { ap_Request : AdditionRequest; ap_Location : option WorkflowLocation }.

Definition transition_arguments (c : Caller) (id : string) (target : RequestStatus) (note : string)
    (expected : Z) : result Error string :=
  _ ← requireAuthenticated c;
  _ ← guard_ok (same target Withdrawn || IsAdmin c) ErrPermissionDenied;
  _ ← validateID id;
  _ ← guard_ok (same target Withdrawn || (0 <? expected)) ErrInvalidArgument;
  if same target Rejected then trimAndValidateLength note 1 2000 else mret note.

(** A repeated decision answers with what was decided. *)
Definition decided_before (c : Caller) (q : AdditionRequest) (target : RequestStatus) : Tx Approval :=
  let r := redactRequestForCaller c q in
  if same target Approved then
    id ← require (q_ResultingLocationID q) ErrFailedPrecondition;
    l ← tx_Location id;
    mret {| ap_Request := r; ap_Location := Some l |}
  else mret {| ap_Request := r; ap_Location := None |}.

(** Approval creates the Location of the proposal, which must still be valid. *)
Definition approve (q : AdditionRequest) (now : Time) : Tx (AdditionRequest * WorkflowLocation) :=
  p ← lift (match normalizeProposal (q_Proposal q) with
            | Ok p => Ok p
            | Err _ => Err ErrFailedPrecondition
            end);
  _ ← ValidateReferences p;
  l ← CreateLocation p now;
  mret (q <| q_Proposal := p |> <| q_ResultingLocationID := Some (wl_ID l) |>, l).

Definition reviewed (c : Caller) (target : RequestStatus) (note : string) (now : Time)
    (q : AdditionRequest) : AdditionRequest :=
  let q := if same target Withdrawn then q
           else q <| q_ReviewedBy := Some (cl_ID c) |> <| q_ReviewedAt := Some now |> in
  let q := if same target Rejected then q <| q_ReviewNote := Some note |> else q in
  q <| q_Status := target |> <| q_Revision := add64 (q_Revision q) 1 |> <| q_UpdatedAt := now |>.

Definition transition_body (c : Caller) (id : string) (target : RequestStatus) (expected : Z)
    (note : string) : Tx Approval :=
  env ← ask;
  q ← tx_Request id;
  _ ← ensure (isVisible c q) ErrNotFound;
  _ ← ensure (negb (same target Withdrawn && negb (same (q_SubmittedBy q) (cl_ID c))))
             ErrPermissionDenied;
  if same (q_Status q) target then decided_before c q target
  else
    _ ← ensure (same (q_Status q) Pending) ErrFailedPrecondition;
    _ ← ensure (same target Withdrawn || (q_Revision q =? expected)) ErrAborted;
    let now := now_ env in
    '(q, l) ← (if same target Approved then
                 ql ← approve q now; mret (ql.1, Some ql.2)
               else mret (q, None));
    let prev := q_Revision q in
    let q := reviewed c target note now q in
    _ ← SaveRequest q prev;
    persisted ← tx_Request (q_ID q);
    mret {| ap_Request := redactRequestForCaller c persisted; ap_Location := l |}.

Definition transitionRequest (c : Caller) (id : string) (target : RequestStatus) (note : string)
    (expected : Z) :=
  call mapError (transition_arguments c id target note expected)
    (transition_body c id target expected).

Definition WithdrawRequest (c : Caller) (id : string) :=
  transitionRequest c id Withdrawn EmptyString 0.
Definition RejectRequest (c : Caller) (id note : string) (expected : Z) :=
  transitionRequest c id Rejected note expected.
Definition ApproveRequest (c : Caller) (id : string) (expected : Z) :=
  transitionRequest c id Approved EmptyString expected.

End requests.

(** * Disablements

    disablement/operations.go: scheduling, editing, ending and cancelling the
    intervals in which a Location is out of operation. *)

Definition requireAdmin (c : Caller) : result Error unit :=
  _ ← requireAuthenticated c; guard_ok (IsAdmin c) ErrPermissionDenied.

Definition validateDisablement (x : Disablement) : result Error Disablement :=
  reason ← trimAndValidateLength (d_Reason x) 1 500;
  _ ← guard_ok (match d_EndsAt x with Some e => After e (d_StartsAt x) | None => true end)
               ErrInvalidArgument;
  mret (x <| d_Reason := reason |>).

Section disablements.
  Context `{UUID, Digest}.

(** ** Create *)

Record CreateDisablementInput := {
  cd_LocationID : string;
  cd_StartsAt : option Time;
  cd_EndsAt : option Time;
  cd_Reason : string;
  cd_Key : string;
}.

Definition CreateDisablementMethod : string := "CreateDisablement".

Definition create_arguments (c : Caller) (i : CreateDisablementInput)
    : result Error CreateDisablementInput :=
  _ ← requireAdmin c;
  location ← canonicalID (cd_LocationID i);
  reason ← trimAndValidateLength (cd_Reason i) 1 500;
  mret {| cd_LocationID := location; cd_StartsAt := cd_StartsAt i; cd_EndsAt := cd_EndsAt i;
          cd_Reason := reason; cd_Key := cd_Key i |}.

Definition new_disablement (id : string) (c : Caller) (i : CreateDisablementInput) (now : Time)
    : Disablement := {|
  d_ID := id; d_LocationID := cd_LocationID i; d_StartsAt := default now (cd_StartsAt i);
  d_EndsAt := cd_EndsAt i; d_EndedAt := None; d_CancelledAt := None; d_Reason := cd_Reason i;
  d_CreatedBy := cl_ID c; d_Revision := 1; d_CreatedAt := now; d_UpdatedAt := now |}.

Definition create_disablement (c : Caller) (i : CreateDisablementInput) (now : Time) : Tx string :=
  env ← ask;
  l ← tx_DisabledLocation (cd_LocationID i);
  _ ← ensure (negb (is_some (dl_ArchivedAt l))) ErrFailedPrecondition;
  x ← lift (validateDisablement (new_disablement (newID env) c i now));
  overlap ← Overlaps x;
  _ ← ensure (negb overlap) ErrAlreadyExists;
  _ ← SaveDisablement x 0;
  mret (newID env).

(** The hash covers the explicit input, not the start that defaults to now. *)
Definition create_body (c : Caller) (i : CreateDisablementInput) : Tx Disablement :=
  id ← idempotent c CreateDisablementMethod (cd_Key i)
         (Hash (disablement_json (cd_LocationID i) (cd_StartsAt i) (cd_EndsAt i) (cd_Reason i)))
         (create_disablement c i);
  tx_Disablement id.

Definition CreateDisablement (c : Caller) (i : CreateDisablementInput) :=
  call mapError (create_arguments c i) (create_body c).

(** ** List *)

Definition state_known (s : DisablementState) : bool :=
  match s with OtherState t => negb (nonempty t) | _ => true end.

Definition ListDisablements (c : Caller) (location : string) (state : DisablementState) (p : Page) :=
  call mapError
    (_ ← requireAdmin c;
     _ ← validateID location;
     _ ← guard_ok (state_known state) ErrInvalidArgument;
     normalizePage p)
    (λ p, env ← ask;
          _ ← tx_DisabledLocation location;
          '(items, n) ← ListDisablements_rows location state (now_ env) p;
          mret (items, newPageInfo p n)).

(** ** Update *)

Record UpdateDisablementInput := {
  ud_ID : string;
  ud_StartsAt : option Time;
  ud_EndsAt : option Time;
  ud_Reason : string;
  ud_Paths : list string;
  ud_ExpectedRevision : Z;
}.

Definition disablement_paths : list string := ["starts_at"; "ends_at"; "reason"].

Definition change_arguments (c : Caller) (i : UpdateDisablementInput) : result Error (gset string) :=
  _ ← requireAdmin c;
  _ ← guard_ok (is_ok (validateID (ud_ID i)) && (0 <? ud_ExpectedRevision i)) ErrInvalidArgument;
  parseFieldMask (ud_Paths i) disablement_paths.

(** The selected fields; a start may not be cleared. *)
Definition patched (i : UpdateDisablementInput) (m : gset string) (x : Disablement)
    : result Error Disablement :=
  let selected f := bool_decide (f ∈ m) in
  starts ← (if selected "starts_at" then from_option_ok (ud_StartsAt i) ErrInvalidArgument
            else mret (d_StartsAt x));
  mret (x <| d_StartsAt := starts |>
          <| d_EndsAt := if selected "ends_at" then ud_EndsAt i else d_EndsAt x |>
          <| d_Reason := if selected "reason" then ud_Reason i else d_Reason x |>).

Definition change_body (i : UpdateDisablementInput) (m : gset string) : Tx Disablement :=
  env ← ask;
  x ← tx_Disablement (ud_ID i);
  _ ← tx_DisabledLocation (d_LocationID x);
  let now := now_ env in
  _ ← ensure (same (State x now) Scheduled) ErrFailedPrecondition;
  _ ← ensure (d_Revision x =? ud_ExpectedRevision i) ErrAborted;
  x ← lift (patched i m x);
  x ← lift (validateDisablement x);
  overlap ← Overlaps x;
  _ ← ensure (negb overlap) ErrAlreadyExists;
  let x := x <| d_Revision := add64 (d_Revision x) 1 |> <| d_UpdatedAt := now |> in
  _ ← SaveDisablement x (ud_ExpectedRevision i);
  tx_Disablement (d_ID x).

Definition UpdateDisablement (c : Caller) (i : UpdateDisablementInput) :=
  call mapError (change_arguments c i) (change_body i).

(** ** End and cancel *)

Definition finished (target : DisablementState) (now : Time) (x : Disablement) : Disablement :=
  let x := if same target Ended then x <| d_EndedAt := Some now |>
           else x <| d_CancelledAt := Some now |> in
  x <| d_Revision := add64 (d_Revision x) 1 |> <| d_UpdatedAt := now |>.

Definition finish_body (id : string) (target : DisablementState) : Tx Disablement :=
  env ← ask;
  x ← tx_Disablement id;
  let now := now_ env in
  let state := State x now in
  if same state target then mret x
  else
    _ ← ensure (negb ((same target Ended && negb (same state Active))
                      || (same target DCancelled && negb (same state Scheduled))))
               ErrFailedPrecondition;
    _ ← SaveDisablement (finished target now x) (d_Revision x);
    tx_Disablement (d_ID x).

Definition transitionDisablement (c : Caller) (id : string) (target : DisablementState) :=
  call mapError (_ ← requireAdmin c; validateID id) (λ _, finish_body id target).

Definition EndDisablement (c : Caller) (id : string) := transitionDisablement c id Ended.
Definition CancelDisablement (c : Caller) (id : string) := transitionDisablement c id DCancelled.

End disablements.
