(* ===== verification/SupplierAdmin.v ===== *)
(** * Supplier: discovery and administration

    discovery/validation.go, service.go and postgresreader.go, admin/service.go
    and postgresstore.go with the queries of location.sql: finding Locations, and
    creating, editing and archiving them. *)
From stdpp Require Import prelude gmap strings list sorting.
From Stdlib Require Import ZArith Lia SpecFloat.
From S2P Require Import Prelude.
From S2P Require Import GoLib.
From S2P Require Import GoText.
From S2P Require Import GoFloat.
From S2P Require Import SupplierTypes.
From S2P Require Import SupplierProposal.
From S2P Require Import SupplierDB.
From S2P Require Import SupplierStore.
From S2P Require Import SupplierRequests.

Local Open Scope Z_scope.
Local Open Scope foc_scope.

(** ** What the database server decides

    The text that lower(name) is ordered by, and whether a name matches an ILIKE
    pattern or is similar to a word (pg_trgm). *)
Class Collation := collation_key : string → string.
Class Search := {
  ilike : string → string → bool;
  word_similar : string → string → bool;
}.

(** ** Rows to Locations (postgresreader.go) *)

(** A time column counts microseconds; what it reads is a whole minute. *)
Definition toClockPtr (t : option Z) : option Clock :=
  t ← t;
  let minutes := wrap32 (Z.quot t 60000000) in
  Some {| k_Hour := Z.quot minutes 60; k_Minute := Z.rem minutes 60 |}.

Definition toPGTime (c : option Clock) : option Z :=
  c ← c; Some (mul64 (add64 (mul64 (k_Hour c) 60) (k_Minute c)) 60000000).

Definition fromRow (row : LocationRow) (b : Building) (cats : list SharedCategory)
    (current : option Disablement) : Location := {|
  l_ID := lr_ID row; l_Name := lr_Name row; l_IsSupplier := lr_IsSupplier row;
  l_Building := {| sb_ID := b_ID b; sb_Name := b_Name b;
                   sb_Center := {| o_Latitude := b_Latitude b; o_Longitude := b_Longitude b |};
                   sb_RadiusM := b_RadiusM b |};
  l_Categories := cats; l_Floor := lr_Floor row;
  l_Coordinates := {| o_Latitude := lr_Latitude row; o_Longitude := lr_Longitude row |};
  l_OpensAt := toClockPtr (lr_OpenFrom row); l_ClosesAt := toClockPtr (lr_OpenTo row);
  l_Contact := lr_Contact row; l_Details := lr_Details row; l_ArchivedAt := lr_ArchivedAt row;
  l_CurrentDisablement := current; l_Revision := lr_Revision row; l_CreatedAt := lr_CreatedAt row;
  l_UpdatedAt := lr_UpdatedAt row |}.

(** Only these fields of the current disablement are read. *)
Definition disablement_summary (x : Disablement) : Disablement := {|
  d_ID := d_ID x; d_LocationID := EmptyString; d_StartsAt := d_StartsAt x; d_EndsAt := d_EndsAt x;
  d_EndedAt := None; d_CancelledAt := None; d_Reason := d_Reason x; d_CreatedBy := EmptyString;
  d_Revision := 0; d_CreatedAt := zero_time; d_UpdatedAt := zero_time |}.

(** DISTINCT ON (location_id): the latest start, then the latest creation, then
    the greatest id. *)
Definition latest_created (x y : Disablement) : Prop :=
  d_StartsAt y < d_StartsAt x
  ∨ (d_StartsAt y = d_StartsAt x
     ∧ (d_CreatedAt y < d_CreatedAt x
        ∨ (d_CreatedAt y = d_CreatedAt x ∧ string_le (d_ID y) (d_ID x)))).
#[export] Instance latest_created_dec : RelDecision latest_created.
Proof. unfold RelDecision, latest_created. apply _. Defined.

Definition ListCurrentDisablements (location : string) (now : Time) (d : SDB) : option Disablement :=
  disablement_summary <$> head (merge_sort latest_created (current_disablements location now d)).

(** Lexicographic order of sort keys. *)
Fixpoint keys_le (x y : list string) : bool :=
  match x, y with
  | a :: x', b :: y' => if decide (a = b) then keys_le x' y' else String.leb a b
  | [], _ => true
  | _, [] => false
  end.

Section reader.
  Context `{UUID, Collation}.

(** ORDER BY lower(name), id. *)
Definition category_le (x y : Category) : Prop :=
  keys_le [collation_key (c_Name x); c_ID x] [collation_key (c_Name y); c_ID y] = true.
#[export] Instance category_le_dec : RelDecision category_le.
Proof. unfold RelDecision, category_le. apply _. Defined.

Definition shared_category (c : Category) : SharedCategory :=
  {| sc_ID := c_ID c; sc_Name := c_Name c |}.

Definition ListLocationCategories (location : string) (d : SDB) : list SharedCategory :=
  shared_category <$> merge_sort category_le (WorkflowLocationCategories location d).

(** A Location's row with its Building. *)
Definition joined (d : SDB) (row : LocationRow) : option (LocationRow * Building) :=
  b ← buildings d !! lr_BuildingID row; Some (row, b).

(** The Categories and disablements are read by statements of their own. *)
Definition toLocation (d_categories d_disablements : SDB) (now : Time)
    (row : LocationRow * Building) : Location :=
  fromRow row.1 row.2 (ListLocationCategories (lr_ID row.1) d_categories)
    (ListCurrentDisablements (lr_ID row.1) now d_disablements).

Definition reader_GetLocation (id : string) (now : Time) (d : SDB) : result Error Location :=
  uid ← from_option_ok (uuid_parse id) ErrNotFound;
  row ← from_option_ok (locations d !! uid ≫= joined d) ErrNotFound;
  mret (toLocation d d now row).

(** ** Discovery *)

Inductive ArchiveFilter := ArchiveActive | ArchiveArchived | ArchiveAll | OtherArchive (s : string).
Inductive SortField := SortByName | SortByBuilding | OtherSort (s : string).

Record ListRequest := {
  lq_Search : string;
  lq_BuildingID : option string;
  lq_CategoryID : option string;
  lq_SuppliersOnly : bool;
  lq_Archive : ArchiveFilter;
  lq_Sort : SortField;
  lq_Descending : bool;
  lq_Page : Z;
  lq_PageSize : Z;
}.

Record Query := {
  qy_Search : string;
  qy_BuildingID : option string;
  qy_CategoryID : option string;
  qy_SuppliersOnly : bool;
  qy_Archive : ArchiveFilter;
  qy_Sort : SortField;
  qy_Descending : bool;
  qy_Offset : Z;
  qy_Limit : Z;
}.

(** auth.Caller, of a request with a verified caller. *)
Record AuthCaller := { ac_ID : string; ac_Admin : bool }.

Definition bad_request : Error := ErrInvalidArgument.

Definition archive_filter (c : AuthCaller) (a : ArchiveFilter) : result Error ArchiveFilter :=
  match a with
  | OtherArchive s => if nonempty s then Err bad_request else Ok ArchiveActive
  | ArchiveActive => Ok ArchiveActive
  | _ => if ac_Admin c then Ok a else Err ErrPermissionDenied
  end.

Definition sort_field (s : SortField) : result Error SortField :=
  match s with
  | OtherSort t => if nonempty t then Err bad_request else Ok SortByName
  | _ => Ok s
  end.

(** The query, the page and the page size. *)
Definition normalizeList (c : AuthCaller) (r : ListRequest) : result Error (Query * Z * Z) :=
  let search := TrimSpace (lq_Search r) in
  _ ← guard_ok (RuneCountInString search <=? 200) bad_request;
  _ ← guard_ok (0 <=? lq_Page r) bad_request;
  _ ← guard_ok (0 <=? lq_PageSize r) bad_request;
  _ ← guard_ok (lq_PageSize r <=? 100) bad_request;
  archive ← archive_filter c (lq_Archive r);
  sort ← sort_field (lq_Sort r);
  let page := Z.max (lq_Page r) 1 in
  let size := if lq_PageSize r =? 0 then 20 else lq_PageSize r in
  _ ← guard_ok (mul64 (wrap32 (page - 1)) size <=? max_int32) bad_request;
  mret ({| qy_Search := search; qy_BuildingID := lq_BuildingID r; qy_CategoryID := lq_CategoryID r;
           qy_SuppliersOnly := lq_SuppliersOnly r; qy_Archive := archive; qy_Sort := sort;
           qy_Descending := lq_Descending r; qy_Offset := wrap32 (wrap32 (page - 1) * size);
           qy_Limit := size |}, page, size).

Context `{Search}.

(** User input matches literally inside an ILIKE pattern. *)
Fixpoint escapeLike (s : string) : string :=
  match s with
  | EmptyString => EmptyString
  | String c rest =>
      (if (code c =? 92) || (code c =? 37) || (code c =? 95) then backslash else EmptyString)
      +:+ String c (escapeLike rest)
  end.

Definition archive_matches (a : ArchiveFilter) (row : LocationRow) : bool :=
  match a with
  | ArchiveAll => true
  | ArchiveActive => negb (is_some (lr_ArchivedAt row))
  | ArchiveArchived => is_some (lr_ArchivedAt row)
  | OtherArchive _ => false
  end.

(** The WHERE clause of CountLocations and ListLocations. *)
Definition location_matches (q : Query) (building category : option string) (d : SDB)
    (row : LocationRow) : bool :=
  (same (qy_Search q) EmptyString || ilike (lr_Name row) ("%" +:+ escapeLike (qy_Search q) +:+ "%")
   || word_similar (qy_Search q) (lr_Name row))
  && opt_check (λ b, same (lr_BuildingID row) b) building
  && opt_check (λ c, bool_decide ((lr_ID row, c) ∈ location_categories d)) category
  && (negb (qy_SuppliersOnly q) || lr_IsSupplier row)
  && archive_matches (qy_Archive q) row.

Definition matching_locations (q : Query) (building category : option string) (d : SDB)
    : list LocationRow :=
  filter (λ r, location_matches q building category d r = true) (snd <$> map_to_list (locations d)).

Definition location_keys (s : SortField) (x : LocationRow * Building) : list string :=
  match s with SortByBuilding => [collation_key (b_Name x.2)] | _ => [] end
  ++ [collation_key (lr_Name x.1); lr_ID x.1].

Definition location_le (s : SortField) (descending : bool) (x y : LocationRow * Building) : Prop :=
  (if descending then keys_le (location_keys s y) (location_keys s x)
   else keys_le (location_keys s x) (location_keys s y)) = true.
#[export] Instance location_le_dec s desc : RelDecision (location_le s desc).
Proof. unfold RelDecision, location_le. apply _. Defined.

Definition parseOptionalUUID (o : option string) : result Error (option string) :=
  match o with
  | None => mret None
  | Some s => id ← from_option_ok (uuid_parse s) bad_request; mret (Some id)
  end.

(** The states that the reader's four statements see. *)
Record Snapshots := { sn_count : SDB; sn_rows : SDB; sn_categories : SDB; sn_disablements : SDB }.

Definition reader_ListLocations (q : Query) (now : Time) (s : Snapshots)
    : result Error (list Location * Z) :=
  building ← parseOptionalUUID (qy_BuildingID q);
  category ← parseOptionalUUID (qy_CategoryID q);
  let total := Z.of_nat (length (matching_locations q building category (sn_count s))) in
  let rows := page_of (qy_Offset q) (qy_Limit q)
    (merge_sort (location_le (qy_Sort q) (qy_Descending q))
       (omap (joined (sn_rows s)) (matching_locations q building category (sn_rows s)))) in
  mret (toLocation (sn_categories s) (sn_disablements s) now <$> rows, total).

Record LocationPage := {
  lp_Locations : list Location;
  lp_Page : Z;
  lp_PageSize : Z;
  lp_TotalItems : Z;
  lp_TotalPages : Z;
}.

Definition List_ (c : AuthCaller) (r : ListRequest) (now : Time) (s : Snapshots)
    : result Error LocationPage :=
  '(query, page, size) ← normalizeList c r;
  '(found, total) ← reader_ListLocations query now s;
  mret {| lp_Locations := found; lp_Page := page; lp_PageSize := size; lp_TotalItems := total;
          lp_TotalPages := wrap32 (Z.quot (sub64 (add64 total size) 1) size) |}.

End reader.

(** ** Administration (admin/service.go, admin/postgresstore.go) *)

Section admin.
  Context `{UUID, Digest, Collation}.

(** The verified caller of the context, if any. *)
Definition requireLocationAdmin (c : option AuthCaller) : result Error AuthCaller :=
  match c with
  | Some c => if nonempty (ac_ID c) && negb (same (TrimSpace (ac_ID c)) EmptyString)
              then _ ← guard_ok (ac_Admin c) ErrPermissionDenied; mret c
              else Err ErrUnauthenticated
  | None => Err ErrUnauthenticated
  end.

Definition admin_exec {A} (f : SDB → result Error (SDB * A)) : Tx A := reporting mapPostgresError (exec f).
Definition admin_unit (f : SDB → result Error SDB) : Tx unit :=
  reporting mapPostgresError (exec_unit f).

Definition tx_read (id : string) : Tx Location :=
  env ← ask; d ← get; lift (reader_GetLocation id (server_now env) d).

(** The Location's row is locked before it is read. *)
Definition GetForUpdate (id : string) : Tx Location :=
  uid ← require (uuid_parse id) ErrNotFound;
  row ← gets (λ d, locations d !! uid);
  _ ← require row ErrNotFound;
  tx_read id.

(** Each identifier once, in order. *)
Fixpoint parseCategoryIDs (seen values : list string) : result Error (list string) :=
  match values with
  | [] => mret []
  | v :: rest =>
      id ← from_option_ok (uuid_parse v) bad_request;
      if bool_decide (id ∈ seen) then parseCategoryIDs seen rest
      else out ← parseCategoryIDs (id :: seen) rest; mret (id :: out)
  end.

Definition admin_ValidateReferences (i : Input) : Tx unit :=
  building ← lift (from_option_ok (uuid_parse (i_BuildingID i)) bad_request);
  ok ← gets (BuildingExists (Some building));
  _ ← ensure ok ErrFailedPrecondition;
  ids ← lift (parseCategoryIDs [] (i_CategoryIDs i));
  found ← gets (ExistingCategoryIDs ids);
  ensure (same ids [] || Nat.eqb (length found) (length ids)) ErrFailedPrecondition.

Definition insertCategories (id : string) (ids : list string) : Tx unit :=
  for_each (λ c, admin_unit (InsertLocationCategory id (Some c))) ids.

(** The columns an input is written to. *)
Definition written_row (i : Input) (building : string) (c : Coordinates) (row : LocationRow)
    : LocationRow := {|
  lr_ID := lr_ID row; lr_Name := i_Name i; lr_IsSupplier := i_IsSupplier i; lr_BuildingID := building;
  lr_Floor := i_Floor i; lr_Latitude := o_Latitude c; lr_Longitude := o_Longitude c;
  lr_OpenFrom := toPGTime (i_OpensAt i); lr_OpenTo := toPGTime (i_ClosesAt i);
  lr_Contact := i_Contact i; lr_Details := i_Details i; lr_ArchivedAt := lr_ArchivedAt row;
  lr_Revision := lr_Revision row; lr_CreatedAt := lr_CreatedAt row; lr_UpdatedAt := lr_UpdatedAt row |}.

(** A new row: revision 1, not archived, updated_at by the database's clock. *)
Definition fresh_row (id : string) (now server : Time) : LocationRow :=
  mkLocationRow id EmptyString false EmptyString None (S754_zero false) (S754_zero false) None None None
    EmptyString None 1 (stored_time now) (stored_time server).

Definition admin_Create (i : Input) (now : Time) : Tx Location :=
  env ← ask;
  building ← lift (from_option_ok (uuid_parse (i_BuildingID i)) bad_request);
  ids ← lift (parseCategoryIDs [] (i_CategoryIDs i));
  c ← require (i_Coordinates i) bad_request;
  _ ← admin_unit (InsertLocation (written_row i building c
                                    (fresh_row (newID env) now (server_now env))));
  _ ← insertCategories (newID env) ids;
  tx_read (newID env).

(** Every update of a row counts its revision and, by a trigger, its time. *)
Definition touched (server : Time) (row : LocationRow) : LocationRow :=
  row <| lr_Revision := lr_Revision row + 1 |> <| lr_UpdatedAt := stored_time server |>.

Definition admin_Update (id : string) (i : Input) (expected : Z) : Tx Location :=
  env ← ask;
  uid ← lift (from_option_ok (uuid_parse id) bad_request);
  building ← lift (from_option_ok (uuid_parse (i_BuildingID i)) bad_request);
  ids ← lift (parseCategoryIDs [] (i_CategoryIDs i));
  c ← require (i_Coordinates i) bad_request;
  n ← admin_exec (UpdateLocation uid expected
                    (λ row, touched (server_now env) (written_row i building c row)));
  _ ← ensure (negb (n =? 0)) ErrAborted;
  _ ← modify (DeleteLocationCategories uid);
  _ ← insertCategories uid ids;
  tx_read id.

Definition SetArchived (id : string) (at_ : option Time) (expected : Z) : Tx Location :=
  env ← ask;
  uid ← lift (from_option_ok (uuid_parse id) bad_request);
  n ← admin_exec (UpdateLocation uid expected
                    (λ row, touched (server_now env) (row <| lr_ArchivedAt := stored_times at_ |>)));
  _ ← ensure (negb (n =? 0)) ErrAborted;
  tx_read id.

Definition CreateLocationMethod : string := "CreateLocation".

Record CreateLocationInput := { cl_Key : string; cl_Input : Input }.

Definition admin_create_arguments (c : option AuthCaller) (r : CreateLocationInput)
    : result Error (AuthCaller * string * Input * string) :=
  c ← requireLocationAdmin c;
  key ← canonicalID (cl_Key r);
  i ← normalizeInput (cl_Input r);
  (* The order of the Categories does not change the Location. *)
  hash ← Hash (admin_json (i <| i_CategoryIDs := merge_sort string_le (i_CategoryIDs i) |>));
  mret (c, key, i, hash).

Definition create_location (i : Input) (now : Time) : Tx string :=
  _ ← admin_ValidateReferences i;
  l ← admin_Create i now;
  mret (l_ID l).

Definition admin_create_body (a : AuthCaller * string * Input * string) : Tx Location :=
  let '(c, key, i, hash) := a in
  id ← reporting idempotency_error
         (Run id {| s_Caller := ac_ID c; s_Method := CreateLocationMethod; s_Key := key |} hash
            (create_location i));
  GetForUpdate id.

Definition Create (c : option AuthCaller) (r : CreateLocationInput) :=
  call mapPostgresError (admin_create_arguments c r) admin_create_body.

Record UpdateLocationInput := {
  ul_ID : string;
  ul_ExpectedRevision : Z;
  ul_Paths : list string;
  ul_Input : Input;
}.

Definition admin_update_arguments (c : option AuthCaller) (r : UpdateLocationInput)
    : result Error (string * gset string) :=
  _ ← requireLocationAdmin c;
  id ← canonicalID (ul_ID r);
  _ ← guard_ok (0 <? ul_ExpectedRevision r) ErrInvalidArgument;
  mask ← validateMask (ul_Paths r);
  mret (id, mask).

Definition admin_update_body (r : UpdateLocationInput) (a : string * gset string) : Tx Location :=
  current ← GetForUpdate a.1;
  _ ← ensure (l_Revision current =? ul_ExpectedRevision r) ErrAborted;
  i ← lift (normalizeInput (mergeInput current (ul_Input r) a.2));
  _ ← admin_ValidateReferences i;
  admin_Update a.1 i (ul_ExpectedRevision r).

Definition Update (c : option AuthCaller) (r : UpdateLocationInput) :=
  call mapPostgresError (admin_update_arguments c r) (admin_update_body r).

Definition archive_body (archive : bool) (id : string) : Tx Location :=
  env ← ask;
  current ← GetForUpdate id;
  if Bool.eqb (is_some (l_ArchivedAt current)) archive then mret current
  else SetArchived id (if archive then Some (now_ env) else None) (l_Revision current).

Definition setArchived (c : option AuthCaller) (id : string) (archive : bool) :=
  call mapPostgresError (_ ← requireLocationAdmin c; canonicalID id) (archive_body archive).

Definition Archive (c : option AuthCaller) (id : string) := setArchived c id true.
Definition Unarchive (c : option AuthCaller) (id : string) := setArchived c id false.

End admin.
