(* ===== verification/SupplierRuns.v ===== *)
(** * Supplier: what a successful transaction did

    Every write of the service, read backwards: the state after a statement or a
    transaction that succeeded, and what it implies about the state before; at the
    end what normalising guarantees. *)
From stdpp Require Import prelude gmap strings list sorting.
From Stdlib Require Import ZArith Lia SpecFloat.
From S2P Require Import Prelude.
From S2P Require Import GoLib.
From S2P Require Import GoText.
From S2P Require Import GoFloat.
From S2P Require Import SupplierTypes.
From S2P Require Import SupplierProposal.
From S2P Require Import SupplierDB.
From S2P Require Import SupplierStore.
From S2P Require Import SupplierRequests.
From S2P Require Import SupplierAdmin.

Local Open Scope Z_scope.
Local Open Scope foc_scope.

(** ** Primitives of the transactions *)

Ltac split_more H ::=
  lazymatch type of H with
  | reporting _ _ _ _ = Ok _ => apply st_run_reporting in H; split_run H
  | exec _ _ _ = Ok _ => apply st_run_exec in H
  | exec_unit _ _ _ = Ok _ => apply st_run_exec_unit in H
  | stmt _ _ _ = Ok _ => unfold stmt in H; apply st_run_reporting, st_run_exec in H
  | stmt_unit _ _ _ = Ok _ => unfold stmt_unit in H; apply st_run_reporting, st_run_exec_unit in H
  | admin_exec _ _ _ = Ok _ => unfold admin_exec in H; apply st_run_reporting, st_run_exec in H
  | admin_unit _ _ _ = Ok _ => unfold admin_unit in H; apply st_run_reporting, st_run_exec_unit in H
  | lift _ _ _ = Ok _ => let X := fresh "Es" in apply st_run_lift in H as [H X]; subst
  | _ => idtac
  end.

(** A transaction that ran, under any fault, either changed nothing or
    committed what its body did. *)
Lemma Within_ran report {A} env fl (f : Tx A) d out d' :
  Within report env fl f d = (out, d') →
  d' = d ∨ ∃ a, f env d = Ok (a, d') ∧ (commit_fault fl = None → out = Ok a).
Proof.
  unfold Within. destruct (begin_fault fl); [intros [= _ <-]; by left|].
  destruct (body_fault fl); [intros [= _ <-]; by left|].
  destruct (f env d) as [[a d1]|e]; [|intros [= _ <-]; by left].
  destruct (commit_fault fl) as [[code []]|]; intros [= <- <-].
  - right. exists a. split; [done|]. by intros.
  - by left.
  - right. exists a. by split.
Qed.

Lemma call_ran report {A B} (arguments : result Error A) (body : A → Tx B) env fl d out d' :
  call report arguments body env fl d = (out, d') →
  d' = d ∨ ∃ a b, arguments = Ok a ∧ body a env d = Ok (b, d')
                  ∧ (commit_fault fl = None → out = Ok b).
Proof.
  unfold call. destruct arguments as [a|e]; [|intros [= _ <-]; by left].
  intros [->|(b & Hb & Hout)]%Within_ran; [by left|]. right. eauto.
Qed.

(** A call that succeeds ran its body and committed. *)
Lemma call_ok report {A B} (arguments : result Error A) (body : A → Tx B) env fl d b d' :
  call report arguments body env fl d = (Ok b, d') → ∃ a, arguments = Ok a ∧ body a env d = Ok (b, d').
Proof.
  unfold call, Within. destruct arguments as [a|]; [|done].
  destruct (begin_fault fl), (body_fault fl); try done.
  destruct (body a env d) as [[b' d1]|] eqn:Hb; [|done]. destruct (commit_fault fl) as [[??]|]; [done|].
  intros [= <- <-]. eauto.
Qed.

Section runs.
  Context `{UUID, !UUIDLaws}.

Lemma sql_id_canonical v i : sql_id v = Some i → sql_id i = Some i.
Proof.
  unfold sql_id, nonempty. case_bool_decide; [done|]. simpl. intros Hp.
  rewrite bool_decide_eq_false_2; [by eapply uuid_parse_canonical|by eapply uuid_parse_nonempty].
Qed.

Lemma stored_times_idemp t : stored_times (stored_times t) = stored_times t.
Proof. destruct t; simpl; [|done]. by rewrite stored_time_idemp. Qed.
Lemma stored_request_idemp r : stored_request (stored_request r) = stored_request r.
Proof. unfold stored_request. cbn -[stored_time]. by rewrite !stored_times_idemp, !stored_time_idemp. Qed.
Lemma stored_disablement_idemp x : stored_disablement (stored_disablement x) = stored_disablement x.
Proof. unfold stored_disablement. cbn -[stored_time]. by rewrite !stored_times_idemp, !stored_time_idemp. Qed.

(** ** Relations *)

(** The pairs of a parent and each of its Categories. *)
Definition pairs (id : string) (ids : list string) : gset (string * string) :=
  list_to_set (pair id <$> ids).

Lemma elem_of_pairs id ids x : x ∈ pairs id ids ↔ x.1 = id ∧ x.2 ∈ ids.
Proof.
  unfold pairs. rewrite elem_of_list_to_set, list_elem_of_fmap. split.
  - by intros (c & -> & ?).
  - destruct x as [i c]. simpl. intros [-> Hc]. by exists c.
Qed.

Lemma pairs_cons (id i : string) (ids : list string) (X : gset (string * string)) :
  pairs id ids ∪ ({[(id, i)]} ∪ X) = pairs id (i :: ids) ∪ X.
Proof.
  apply set_eq. intros x. rewrite !elem_of_union, !elem_of_pairs, elem_of_singleton, elem_of_cons.
  destruct x as [a b]. simpl. split; [intros [?|[[= -> ->]|?]]|intros [[-> [->|?]]|?]]; tauto.
Qed.

(** The canonical identifiers of a list, all of which parse. *)
Definition canonical (raw ids : list string) : Prop := Forall2 (λ c i, sql_id c = Some i) raw ids.

Lemma insert_request_categories_run (id0 : option string) raw env d d' u :
  for_each (λ c, stmt_unit (InsertWorkflowRequestCategory id0 (sql_id c))) raw env d = Ok (u, d') →
  raw = [] ∧ d' = d
  ∨ ∃ id ids, id0 = Some id ∧ canonical raw ids
      ∧ d' = d <| request_categories := pairs id ids ∪ request_categories d |>
      ∧ (∀ c, c ∈ ids → is_Some (categories d !! c)) ∧ is_Some (requests d !! id).
Proof.
  revert d. induction raw as [|c raw IH]; intros d Hr; simpl in Hr; split_run Hr; [by left|right].
  unfold InsertWorkflowRequestCategory in Hrun. inv_ok Hrun.
  apply andb_prop in Hok2 as [Hq Hc]. rename a0 into id, a1 into i, Hok into Hid, Hok0 into Hi.
  assert (is_Some (categories d !! i)) as Hci by (by destruct (categories d !! i)).
  assert (is_Some (requests d !! id)) as Hqi by (by destruct (requests d !! id)).
  destruct (IH _ Hr) as [[-> ->]|(id' & ids & Hid' & Hcan & -> & Hex & _)].
  - exists id, [i]. subst s. unfold pairs. simpl. split_and!; try done.
    + by constructor.
    + by rewrite union_empty_r_L.
    + by intros ? ->%list_elem_of_singleton.
  - assert (id' = id) as -> by congruence. exists id, (i :: ids). subst s. split_and!; try done.
    + by constructor.
    + rewrite <- pairs_cons. done.
    + intros x [->|Hx]%elem_of_cons; [done|]. by apply Hex.
Qed.

Lemma insert_location_categories_run id raw env d d' u :
  for_each (λ c, stmt_unit (InsertLocationCategory id (sql_id c))) raw env d = Ok (u, d') →
  ∃ ids, canonical raw ids
      ∧ d' = d <| location_categories := pairs id ids ∪ location_categories d |>
      ∧ (∀ c, c ∈ ids → is_Some (categories d !! c)).
Proof.
  revert d. induction raw as [|c raw IH]; intros d Hr; simpl in Hr; split_run Hr.
  { exists []. split_and!; [constructor| |by intros ? ?%elem_of_nil].
    unfold pairs. simpl. rewrite union_empty_l_L. by destruct d. }
  unfold InsertLocationCategory in Hrun. inv_ok Hrun.
  apply andb_prop in Hok1 as [Hq Hc]. rename a0 into i, Hok into Hi.
  assert (is_Some (categories d !! i)) as Hci by (by destruct (categories d !! i)).
  destruct (IH _ Hr) as (ids & Hcan & -> & Hex).
  exists (i :: ids). subst s. split_and!; try done.
  - by constructor.
  - rewrite <- pairs_cons. done.
  - intros x [->|Hx]%elem_of_cons; [done|]. by apply Hex.
Qed.

(** ** Addition requests *)

Lemma tx_Request_run id env d q d' :
  tx_Request id env d = Ok (q, d') →
  d' = d ∧ ∃ rid row, sql_id id = Some rid ∧ requests d !! rid = Some row
    ∧ q = request row (WorkflowRequestCategoryIDs (rr_ID row) d).
Proof.
  intros Hr. unfold tx_Request in Hr. split_run Hr. split; [done|].
  unfold LockWorkflowRequest in Hrun. destruct (sql_id id) as [rid|]; [|done]. by exists rid, a.
Qed.

Lemma put_request_run r d d' :
  put_request r d = Ok d' →
  requests_check (stored_request r) = true ∧ request_unique (stored_request r) d = true
  ∧ request_references (stored_request r) d = true
  ∧ d' = d <| requests := <[rr_ID r := stored_request r]> (requests d) |>.
Proof. intros Hr. unfold put_request in Hr. inv_ok Hr. subst. done. Qed.

(** The row of [q] is put, and its Categories replace those of before. *)
Record saved (q : AdditionRequest) (d d' : SDB) (id : string) (r : RequestRow) (ids : list string) : Prop := {
  sv_id : sql_id (q_ID q) = Some id;
  sv_rid : rr_ID r = id;
  sv_ids : canonical (p_CategoryIDs (q_Proposal q)) ids;
  sv_check : requests_check r = true;
  sv_unique : request_unique r d = true;
  sv_references : request_references r d = true;
  sv_exist : ∀ c, c ∈ ids → is_Some (categories d !! c);
  sv_stored : stored_request r = r;
  sv_after : d' = d <| requests := <[id := r]> (requests d) |>
    <| request_categories := pairs id ids ∪ filter (λ rc, rc.1 ≠ id) (request_categories d) |>;
}.

Lemma SaveRequest_new q env d u d' :
  SaveRequest q 0 env d = Ok (u, d') →
  ∃ id ids, saved q d d' id (stored_request (inserted_request q id)) ids ∧ requests d !! id = None.
Proof.
  intros Hr. unfold SaveRequest in Hr. cbn [Z.eqb] in Hr. split_run Hr.
  rename Hrun0 into Hid, a0 into id. unfold InsertWorkflowRequest in Hrun. inv_ok Hrun.
  apply put_request_run in Hrun as (Hc & Hu & Href & ->).
  assert (requests d !! id = None) as Hnew.
  { apply negb_true_iff in Hok. cbn [inserted_request rr_ID] in Hok. by destruct (requests d !! id). }
  apply insert_request_categories_run in Hr as [[Hnil ->]|(id' & ids & Hid' & Hcan & -> & Hex & _)].
  - exists id, []. split; [|done]. split; try done; try apply stored_request_idemp; [rewrite Hnil; apply Forall2_nil_2|by intros ? ?%elem_of_nil|].
    unfold DeleteWorkflowRequestCategories, pairs. rewrite Hid. cbn. by rewrite union_empty_l_L.
  - assert (id' = id) as -> by congruence. exists id, ids. split; [|done].
    unfold DeleteWorkflowRequestCategories in *. rewrite Hid in *. split; try done; apply stored_request_idemp.
Qed.

Lemma SaveRequest_update q expected env d u d' :
  expected ≠ 0 → SaveRequest q expected env d = Ok (u, d') →
  ∃ id ids old, requests d !! id = Some old ∧ rr_Status old = Pending ∧ rr_Revision old = expected
    ∧ (rr_ID old = id → saved q d d' id (stored_request (updated_request old (request_row q (q_ID q)))) ids).
Proof.
  intros Hne Hr. unfold SaveRequest in Hr.
  replace (expected =? 0) with false in Hr by lia. split_run Hr.
  apply Z.eqb_eq in Hrun as ->. rename Hrun0 into Hrun1. unfold UpdateWorkflowRequest in Hrun1.
  destruct (LockWorkflowRequest (sql_id (q_ID q)) d) as [old|] eqn:Hold; [|by inv_ok Hrun1; simplify_eq].
  unfold LockWorkflowRequest in Hold. destruct (sql_id (q_ID q)) as [id|] eqn:Hid; [|done]. simpl in Hold.
  destruct (same (rr_Status old) Pending && (rr_Revision old =? expected)) eqn:Hcond;
    [|by inv_ok Hrun1; simplify_eq].
  inv_ok Hrun1. simplify_eq. apply put_request_run in Hok as (Hc & Hu & Href & ->).
  apply andb_prop in Hcond as [Hst%same_eq Hrev%Z.eqb_eq].
  assert (∃ ids, canonical (p_CategoryIDs (q_Proposal q)) ids
    ∧ (∀ c, c ∈ ids → is_Some (categories d !! c))
    ∧ d' = d <| requests := <[rr_ID old := stored_request (updated_request old (request_row q (q_ID q)))]> (requests d) |>
        <| request_categories := pairs id ids ∪ filter (λ rc, rc.1 ≠ id) (request_categories d) |>)
    as (ids & Hcan & Hex & ->).
  { apply insert_request_categories_run in Hr as [[Hnil ->]|(id' & ids & Hid' & Hcan & -> & Hex & _)].
    - exists []. split_and!; [rewrite Hnil; apply Forall2_nil_2|by intros ? ?%elem_of_nil|].
      unfold pairs. cbn. by rewrite union_empty_l_L.
    - injection Hid' as <-. by exists ids. }
  exists id, ids, old. split_and!; try done. intros Hoid. split; try done; try apply stored_request_idemp; by rewrite <- Hoid.
Qed.

Lemma ValidateReferences_run p env d u d' :
  ValidateReferences p env d = Ok (u, d') →
  d' = d ∧ ∃ b, sql_id (p_BuildingID p) = Some b ∧ is_Some (buildings d !! b).
Proof.
  intros Hr. unfold ValidateReferences in Hr. split_run Hr. split.
  - unfold categories_exist in Hr. revert Hr. induction (p_CategoryIDs p) as [|c l IH]; simpl; intros Hr.
    + by split_run Hr.
    + split_run Hr. by apply IH.
  - unfold BuildingExists in Hrun. destruct (sql_id _) as [b|]; [|done]. exists b.
    by destruct (buildings d !! b).
Qed.

(** A Location and its Categories are new. *)
Record located (r : LocationRow) (d d' : SDB) (raw ids : list string) : Prop := {
  lo_ids : canonical raw ids;
  lo_new : locations d !! lr_ID r = None;
  lo_check : locations_check r = true;
  lo_building : is_Some (buildings d !! lr_BuildingID r);
  lo_exist : ∀ c, c ∈ ids → is_Some (categories d !! c);
  lo_canonical : sql_id (lr_ID r) = Some (lr_ID r);
  lo_after : d' = d <| locations := <[lr_ID r := r]> (locations d) |>
                    <| location_categories := pairs (lr_ID r) ids ∪ location_categories d |>;
}.

Lemma InsertLocation_run r d d' :
  InsertLocation r d = Ok d' →
  locations d !! lr_ID r = None ∧ locations_check r = true ∧ is_Some (buildings d !! lr_BuildingID r)
  ∧ d' = d <| locations := <[lr_ID r := r]> (locations d) |>.
Proof.
  intros Hr. unfold InsertLocation in Hr. inv_ok Hr. subst d'. apply negb_true_iff in Hok1.
  destruct (locations d !! lr_ID r); [done|]. by destruct (buildings d !! lr_BuildingID r).
Qed.

Lemma tx_Location_run id env d l d' :
  tx_Location id env d = Ok (l, d') →
  d' = d ∧ ∃ lid row b, sql_id id = Some lid ∧ locations d !! lid = Some row
    ∧ buildings d !! lr_BuildingID row = Some b
    ∧ l = workflow_location row b (WorkflowLocationCategories (lr_ID row) d)
            (CurrentWorkflowDisablement (lr_ID row) (read_now env) d).
Proof.
  intros Hr. unfold tx_Location in Hr. split_run Hr. split; [done|].
  unfold locked_location in Hrun. destruct (sql_id id) as [lid|]; [|done]. simpl in Hrun.
  destruct (locations d !! lid) as [row|] eqn:Hrow; [|done]. simpl in Hrun.
  destruct (buildings d !! lr_BuildingID row) as [b'|] eqn:Hb; [|done]. injection Hrun as <- <-. by exists lid, row, b'.
Qed.

Lemma CreateLocation_run p now env d l d' :
  CreateLocation p now env d = Ok (l, d') →
  ∃ id b ids, sql_id (newID env) = Some id ∧ sql_id (p_BuildingID p) = Some b
    ∧ located (location_row p id b now) d d' (p_CategoryIDs p) ids ∧ wl_ID l = id
    ∧ tx_Location (newID env) env d' = Ok (l, d').
Proof.
  intros Hr. unfold CreateLocation in Hr. split_run Hr. rename a into id, a0 into b'.
  apply InsertLocation_run in Hrun1 as (Hnew & Hc & Hb & ->).
  apply insert_location_categories_run in Hrun2 as (ids & Hcan & -> & Hex).
  pose proof Hr as Hread. apply tx_Location_run in Hr as (-> & lid & row & bd & Hlid & Hrow & Hbd & ->).
  exists id, b', ids. split_and!; try done.
  - split; try done. by eapply sql_id_canonical.
  - simpl in *. assert (lid = id) as -> by congruence.
    cbn in Hrow. rewrite lookup_insert_eq in Hrow. by injection Hrow as <-.
Qed.

(** ** Idempotent calls *)

Definition forget_expired (s : Scope) (key : string) (now : Time) (d : SDB) : SDB :=
  DeleteExpiredIdempotency (s_Caller s) (s_Method s) key now d.

Definition remember (s : Scope) (key hash id : string) (now : Time) (d : SDB) : SDB :=
  d <| supplier_idempotency := <[(s_Caller s, s_Method s, key) :=
    {| ky_RequestHash := hash; ky_ResourceID := id; ky_ExpiresAt := stored_time (now + key_lifetime) |}]>
    (supplier_idempotency d) |>.

Lemma store_Find_run s now env d k d' :
  store_Find s now env d = Ok (k, d') →
  ∃ key, uuid_parse (s_Key s) = Some key ∧ d' = forget_expired s key now d
    ∧ k = supplier_idempotency d' !! (s_Caller s, s_Method s, key).
Proof.
  intros Hr. unfold store_Find in Hr. split_run Hr. by exists a.
Qed.

Lemma store_Save_run s k env d u d' :
  store_Save s k env d = Ok (u, d') →
  ∃ key id, uuid_parse (s_Key s) = Some key ∧ uuid_parse (ky_ResourceID k) = Some id
    ∧ d' = d <| supplier_idempotency := <[(s_Caller s, s_Method s, key) :=
             {| ky_RequestHash := ky_RequestHash k; ky_ResourceID := id;
                ky_ExpiresAt := stored_time (ky_ExpiresAt k) |}]> (supplier_idempotency d) |>.
Proof.
  intros Hr. unfold store_Save in Hr. split_run Hr. unfold InsertIdempotency in Hr. inv_ok Hr.
  subst d'. by exists a, a0.
Qed.

Lemma Run_run report s hash create env d id d' :
  Run report s hash create env d = Ok (id, d') →
  ∃ key, uuid_parse (s_Key s) = Some key ∧ let d1 := forget_expired s key (now_ env) d in
    (∃ k, supplier_idempotency d1 !! (s_Caller s, s_Method s, key) = Some k
       ∧ ky_RequestHash k = hash ∧ id = ky_ResourceID k ∧ d' = d1)
    ∨ (supplier_idempotency d1 !! (s_Caller s, s_Method s, key) = None
       ∧ ∃ d2 rid, create (now_ env) env d1 = Ok (id, d2) ∧ uuid_parse id = Some rid
          ∧ d' = remember s key hash rid (now_ env) d2).
Proof.
  intros Hr. unfold Run in Hr. split_run Hr;
    apply store_Find_run in Hrun0 as (key & Hk & -> & Hrec); simpl in *;
    rewrite (uuid_parse_canonical _ _ Hrun) in Hk; injection Hk as <-; exists a; (split; [done|]);
    unfold forget_expired in *; simpl in *.
  - left. apply same_eq in Hrun1. eauto 10.
  - right. split; [done|]. apply store_Save_run in Hrun2 as (key & rid & Hk & Hrid & ->).
    simpl in *. rewrite (uuid_parse_canonical _ _ Hrun) in Hk. injection Hk as <-. eauto 10.
Qed.

End runs.

(** * What normalising guarantees

    A normalised proposal is well formed, and a well-formed one is its own
    normal form; what an administrator's input is written as. *)

Section normalised.
  Context `{UUID, !UUIDLaws}.

Lemma normalizeProposal_supplier p p' :
  normalizeProposal p = Ok p' → (p_IsSupplier p' = true ↔ p_CategoryIDs p' ≠ []).
Proof.
  unfold normalizeProposal. intros Hn. inv_ok Hn.
  destruct (p_IsSupplier p) eqn:Hs; cbn in Hn; rewrite ?Hs in Hn; cbn in Hn; inv_ok Hn; subst p'; cbn; rewrite Hs; [|naive_solver].
  apply negb_true_iff, same_ne in Hok8. naive_solver.
Qed.

Lemma canonical_ids_ok ids out :
  canonical_ids ids = Ok out → Forall (λ i, uuid_parse i = Some i) out.
Proof.
  revert out. induction ids as [|v l IH]; intros out Hc; simpl in Hc; inv_ok Hc; subst; [done|].
  constructor; [|by apply IH]. unfold canonicalID in Hok. apply from_option_ok_Ok in Hok.
  by eapply uuid_parse_canonical.
Qed.

Lemma normalizeInput_supplier i i' :
  normalizeInput i = Ok i' → (i_IsSupplier i' = true ↔ i_CategoryIDs i' ≠ []).
Proof.
  unfold normalizeInput. intros Hn. inv_ok Hn. subst i'. cbn. apply eqb_prop in Hok5. rewrite Hok5.
  rewrite negb_true_iff, same_false. done.
Qed.

Lemma canonical_nil raw ids : canonical raw ids → (raw ≠ [] ↔ ids ≠ []).
Proof. unfold canonical. intros Hc. by destruct Hc. Qed.

Lemma canonical_self ids : Forall (λ i, sql_id i = Some i) ids → canonical ids ids.
Proof. unfold canonical. induction 1; by constructor. Qed.

Lemma uuid_sql_id v i : uuid_parse v = Some i → sql_id i = Some i.
Proof.
  intros Hp. unfold sql_id, nonempty.
  rewrite bool_decide_eq_false_2; [by eapply uuid_parse_canonical|by eapply uuid_parse_nonempty].
Qed.

Lemma parseCategoryIDs_ok seen values ids :
  parseCategoryIDs seen values = Ok ids →
  Forall (λ i, sql_id i = Some i) ids ∧ (seen = [] → (values ≠ [] ↔ ids ≠ [])).
Proof.
  revert seen ids. induction values as [|v l IH]; intros seen ids Hp; simpl in Hp.
  { inv_ok Hp. subst. done. }
  inv_ok Hp. case_bool_decide as Hin.
  - destruct (IH _ _ Hp) as [Hf _]. split; [done|]. intros ->. by apply elem_of_nil in Hin.
  - inv_ok Hp. subst. destruct (IH _ _ Hok0) as [Hf _]. split; [|done].
    constructor; [by eapply uuid_sql_id|done].
Qed.

(** ** Well-formed proposals *)

Definition text_ok (lo hi : Z) (s : string) : Prop := TrimSpace s = s ∧ lo ≤ RuneCountInString s ≤ hi.
Definition optional_ok (hi : Z) (o : option string) : Prop :=
  match o with Some s => s ≠ EmptyString ∧ text_ok 0 hi s | None => True end.

(** Trimmed texts within their lengths, a canonical Building, valid coordinates
    and hours, and Categories, canonical, in order and each once, exactly for a
    supplier. *)
Definition proposal_ok (p : Proposal) : Prop :=
  text_ok 1 200 (p_Name p) ∧ text_ok 0 2000 (p_Details p) ∧ optional_ok 50 (p_Floor p)
  ∧ optional_ok 500 (p_Contact p) ∧ uuid_parse (p_BuildingID p) = Some (p_BuildingID p)
  ∧ p_CoordinatesMissing p = false ∧ ValidCoordinates (p_Latitude p) (p_Longitude p) = true
  ∧ isValidOpeningHours (p_OpenFrom p) (p_OpenTo p) = true
  ∧ Forall (λ i, uuid_parse i = Some i) (p_CategoryIDs p) ∧ Sorted string_le (p_CategoryIDs p)
  ∧ NoDup (p_CategoryIDs p) ∧ (p_IsSupplier p = true ↔ p_CategoryIDs p ≠ []).

Lemma trimAndValidateLength_spec s lo hi t :
  trimAndValidateLength s lo hi = Ok t ↔ t = TrimSpace s ∧ lo ≤ RuneCountInString t ≤ hi.
Proof.
  unfold trimAndValidateLength, within. rewrite bind_Ok. setoid_rewrite guard_ok_Ok. split.
  - intros (? & Hw & <-%Ok_inj). split; [done|]. lia.
  - intros [-> Hw]. exists tt. split; [lia|done].
Qed.

Lemma text_ok_trim s lo hi t : trimAndValidateLength s lo hi = Ok t → text_ok lo hi t.
Proof. intros [-> Hw]%trimAndValidateLength_spec. split; [apply TrimSpace_idemp|done]. Qed.
Lemma trim_text_ok lo hi s : text_ok lo hi s → trimAndValidateLength s lo hi = Ok s.
Proof. intros [Ht Hw]. by apply trimAndValidateLength_spec. Qed.

Lemma optional_ok_text o hi o' : optional_text o hi = Ok o' → optional_ok hi o'.
Proof.
  unfold optional_text. destruct o as [v|]; intros Hr; inv_ok Hr; subst; [|done].
  destruct (same a EmptyString) eqn:Hs; [done|]. apply same_ne in Hs. split; [done|by eapply text_ok_trim].
Qed.
Lemma text_optional_ok o hi : optional_ok hi o → optional_text o hi = Ok o.
Proof.
  destruct o as [v|]; [|done]. intros [Hne Ht]. unfold optional_text. rewrite (trim_text_ok _ _ _ Ht). cbn.
  by rewrite (proj2 (same_false v EmptyString) Hne).
Qed.

Lemma canonical_ids_self ids : Forall (λ i, uuid_parse i = Some i) ids → canonical_ids ids = Ok ids.
Proof.
  induction 1 as [|i ids Hi _ IH]; [done|]. cbn. unfold canonicalID. rewrite Hi. cbn. by rewrite IH.
Qed.

Lemma adjacent_distinct_NoDup ids : Sorted string_le ids → (adjacent_distinct ids = true ↔ NoDup ids).
Proof.
  intros Hs%Sorted_StronglySorted; [|apply _].
  induction Hs as [|x ids Hs IH Hx]; [split; [intros _; apply NoDup_nil_2|done]|].
  destruct ids as [|y ids]; [split; [intros _; apply NoDup_singleton|done]|].
  cbn [adjacent_distinct]. rewrite NoDup_cons, andb_true_iff, IH, negb_true_iff, same_false.
  split; [|set_solver]. intros [Hne Hnd]. split; [|done]. intros [->|Hin]%elem_of_cons; [done|].
  apply Hne, (anti_symm string_le).
  - apply Forall_cons in Hx as [? _]. done.
  - apply StronglySorted_inv in Hs as [_ Hy]. rewrite Forall_forall in Hy. by apply Hy.
Qed.

Lemma merge_sort_sorted ids : Sorted string_le ids → merge_sort string_le ids = ids.
Proof.
  intros Hs. apply (Sorted_unique string_le); [apply Sorted_merge_sort; apply _|done|].
  apply merge_sort_Permutation.
Qed.

Lemma normalizeProposal_ok p p' : normalizeProposal p = Ok p' → proposal_ok p'.
Proof.
  intros Hn. pose proof (normalizeProposal_supplier _ _ Hn) as Hsup. unfold normalizeProposal in Hn. inv_ok Hn.
  apply andb_prop in Hok4 as [Hmiss%negb_true_iff Hco].
  set (ids := merge_sort string_le _) in *.
  assert (Sorted string_le ids) as Hsort by (apply Sorted_merge_sort; apply _).
  apply adjacent_distinct_NoDup in Hok7; [|done]. apply canonical_ids_ok in Hok6.
  assert (Forall (λ i, uuid_parse i = Some i) ids) as Hcan.
  { unfold ids. by rewrite merge_sort_Permutation. }
  assert (p' = p <| p_Name := a |> <| p_Details := a0 |> <| p_Floor := a1 |> <| p_Contact := a2 |>
    <| p_BuildingID := a3 |> <| p_CategoryIDs := p_CategoryIDs p' |>
    ∧ (p_CategoryIDs p' = [] ∨ p_CategoryIDs p' = ids)) as [Hp Hids].
  { revert Hn. case_match; intros Hn; inv_ok Hn; subst p'; split; [done|by left|done|by right]. }
  unfold proposal_ok. rewrite <- Hsup. rewrite Hp. cbn.
  assert (Forall (λ i, uuid_parse i = Some i) (p_CategoryIDs p') ∧ Sorted string_le (p_CategoryIDs p')
    ∧ NoDup (p_CategoryIDs p')) as (H1 & H2 & H3).
  { destruct Hids as [->| ->]; [|done]. split_and!; constructor. }
  split_and!; try done; try (by eapply text_ok_trim); try (by eapply optional_ok_text).
  apply from_option_ok_Ok in Hok3. by eapply uuid_parse_canonical.
Qed.

Lemma normalizeProposal_self p : proposal_ok p → normalizeProposal p = Ok p.
Proof.
  intros (Hname & Hdet & Hfl & Hcon & Hb & Hm & Hco & Hh & Hids & Hs & Hnd & Hsup).
  unfold normalizeProposal.
  rewrite (trim_text_ok _ _ _ Hname), (trim_text_ok _ _ _ Hdet). cbn.
  rewrite (text_optional_ok _ _ Hfl), (text_optional_ok _ _ Hcon). cbn.
  unfold canonicalID. rewrite Hb. cbn. rewrite Hm, Hco. cbn. rewrite Hh. cbn.
  rewrite (canonical_ids_self _ Hids). cbn. rewrite (merge_sort_sorted _ Hs).
  rewrite (proj2 (adjacent_distinct_NoDup _ Hs) Hnd). cbn.
  destruct (p_IsSupplier p) eqn:Hsp; cbn.
  - rewrite (proj2 (same_false (p_CategoryIDs p) []) (proj1 Hsup eq_refl)). cbn. by destruct p.
  - assert (p_CategoryIDs p = []) as <-; [|by destruct p].
    destruct (p_CategoryIDs p); [done|]. assert (false = true) by (by apply Hsup). done.
Qed.

(** ** Inputs *)

Lemma canonical_categories_ok seen ids out :
  canonical_categories seen ids = Ok out →
  Forall (λ i, uuid_parse i = Some i) out ∧ NoDup out ∧ ∀ i, i ∈ out → i ∉ seen.
Proof.
  revert seen out. induction ids as [|v l IH]; intros seen out Hc; simpl in Hc; inv_ok Hc; subst.
  { split_and!; [constructor|constructor|]. by intros i ?%elem_of_nil. }
  apply bool_decide_eq_true in Hok0. destruct (IH _ _ Hok1) as (Hf & Hn & Hseen).
  unfold canonicalID in Hok. apply from_option_ok_Ok in Hok. split_and!.
  - constructor; [by eapply uuid_parse_canonical|done].
  - constructor; [|done]. intros Hin. apply (Hseen _ Hin). by left.
  - intros i [->|Hin]%elem_of_cons; [done|]. intros Hi. apply (Hseen _ Hin). by right.
Qed.

Lemma normalizeInput_ok i0 i :
  normalizeInput i0 = Ok i →
  uuid_parse (i_BuildingID i) = Some (i_BuildingID i) ∧ Forall (λ c, uuid_parse c = Some c) (i_CategoryIDs i)
  ∧ NoDup (i_CategoryIDs i) ∧ valid_hours i = true.
Proof.
  unfold normalizeInput. intros Hn. inv_ok Hn. subst i.
  apply canonical_categories_ok in Hok4 as (Hcan & Hnd & _).
  unfold canonicalID in Hok3. apply from_option_ok_Ok, uuid_parse_canonical in Hok3. done.
Qed.

Lemma parseCategoryIDs_self seen ids :
  Forall (λ i, uuid_parse i = Some i) ids → NoDup ids → (∀ i, i ∈ ids → i ∉ seen) →
  parseCategoryIDs seen ids = Ok ids.
Proof.
  intros Hf. revert seen. induction Hf as [|i ids Hi _ IH]; intros seen Hn Hseen; [done|].
  apply NoDup_cons in Hn as [Hni Hn]. cbn. rewrite Hi. cbn.
  rewrite bool_decide_eq_false_2 by (apply Hseen; by left). rewrite IH; [done|done|].
  intros j Hj [->|Hs]%elem_of_cons; [done|]. by apply (Hseen j); [right|].
Qed.

Lemma toClockPtr_toPGTime (c : option Clock) :
  (∀ k, c = Some k → validClock k = true) → toClockPtr (toPGTime c) = c.
Proof.
  destruct c as [[h m]|]; [|done]. intros Hv. specialize (Hv _ eq_refl). unfold validClock in Hv. cbn in Hv.
  assert (0 ≤ h < 24 ∧ 0 ≤ m < 60) as [Hh Hm] by lia. clear Hv. unfold toClockPtr, toPGTime. cbn.
  rewrite (mul64_id h 60), (add64_id (h * 60) m), (mul64_id (h * 60 + m)) by int64_lia.
  assert (Z.quot ((h * 60 + m) * 60000000) 60000000 = h * 60 + m) as -> by (apply Z.quot_mul; lia).
  rewrite wrap32_id by lia. rewrite Z.quot_div_nonneg, Z.rem_mod_nonneg by lia.
  do 2 f_equal; symmetry; [apply (Z.div_unique _ _ _ m); lia|apply (Z.mod_unique _ _ h); lia].
Qed.

Lemma valid_hours_clocks i k :
  valid_hours i = true → i_OpensAt i = Some k ∨ i_ClosesAt i = Some k → validClock k = true.
Proof.
  unfold valid_hours. destruct (i_OpensAt i), (i_ClosesAt i); try done; intros Hv; [inv_checks Hv|];
    intros [Hk|Hk]; simplify_eq; done.
Qed.

End normalised.
