(* ===== verification/SupplierInvariant.v ===== *)
(** * Supplier: the invariant of the database and its history

    [Inv] is what every transaction keeps beyond the schema's own constraints: a
    Location is a supplier exactly when it has a Category, an approved request
    has a Location of its own, the disablements of a Location never overlap.
    [grown] is how later states extend earlier ones. At the end the effects of
    transactions. *)
From stdpp Require Import prelude gmap strings list sorting.
From Stdlib Require Import ZArith Lia SpecFloat.
From S2P Require Import Prelude.
From S2P Require Import GoLib.
From S2P Require Import GoText.
From S2P Require Import GoFloat.
From S2P Require Import SupplierTypes.
From S2P Require Import SupplierProposal.
From S2P Require Import SupplierDB.
From S2P Require Import SupplierStore.
From S2P Require Import SupplierRequests.
From S2P Require Import SupplierAdmin.
From S2P Require Import SupplierRuns.

Local Open Scope Z_scope.
Local Open Scope foc_scope.

(** ** The invariant *)

Section invariant.
  Context `{UUID}.

Definition location_ok (d : SDB) (id : string) (r : LocationRow) : Prop :=
  lr_ID r = id ∧ locations_check r = true ∧ lr_Revision r ≤ max_int64 ∧ is_Some (buildings d !! lr_BuildingID r)
  ∧ sql_id id = Some id
  ∧ (lr_IsSupplier r = true ↔ ∃ c, (id, c) ∈ location_categories d).

Definition request_ok (d : SDB) (id : string) (r : RequestRow) : Prop :=
  rr_ID r = id ∧ requests_check r = true ∧ rr_Revision r ≤ max_int64 ∧ request_references r d = true
  ∧ stored_request r = r.

Definition disablement_ok (d : SDB) (id : string) (x : Disablement) : Prop :=
  d_ID x = id ∧ disablements_check x = true ∧ d_Revision x ≤ max_int64 ∧ is_Some (locations d !! d_LocationID x)
  ∧ stored_disablement x = x ∧ disablement_text x = true.

(** Two disablements of a Location that both stand. *)
Definition competing (x y : Disablement) : Prop :=
  d_ID x ≠ d_ID y ∧ d_LocationID x = d_LocationID y ∧ d_CancelledAt x = None ∧ d_CancelledAt y = None.
Definition overlapping (x y : Disablement) : bool :=
  ranges_overlap (d_StartsAt x) (effective_end x) (d_StartsAt y) (effective_end y).

Record Inv (d : SDB) : Prop := {
  iv_buildings : ∀ id b, buildings d !! id = Some b → b_ID b = id;
  iv_categories : ∀ id c, categories d !! id = Some c → c_ID c = id;
  iv_locations : ∀ id r, locations d !! id = Some r → location_ok d id r;
  iv_location_categories : ∀ id c, (id, c) ∈ location_categories d →
    is_Some (locations d !! id) ∧ is_Some (categories d !! c);
  iv_requests : ∀ id r, requests d !! id = Some r → request_ok d id r;
  iv_results : ∀ i j r q l, requests d !! i = Some r → requests d !! j = Some q →
    rr_ResultingLocationID r = Some l → rr_ResultingLocationID q = Some l → i = j;
  iv_disablements : ∀ id x, disablements d !! id = Some x → disablement_ok d id x;
  iv_disjoint : ∀ i j x y, disablements d !! i = Some x → disablements d !! j = Some y →
    competing x y → overlapping x y = false;
}.

(** The state after the Buildings and Categories were imported. *)
Lemma supplier_Inv_empty (b : gmap string Building) (c : gmap string Category) :
  (∀ id x, b !! id = Some x → b_ID x = id) → (∀ id x, c !! id = Some x → c_ID x = id) →
  Inv (mkSDB b c ∅ ∅ ∅ ∅ ∅ ∅).
Proof. intros Hb Hc. split; [done|done|intros *; set_solver..]. Qed.

(** ** Disablements *)

(** What is scheduled or active has neither ended nor been called off. *)
Lemma State_open x now :
  State x now = Scheduled ∨ State x now = Active → d_EndedAt x = None ∧ d_CancelledAt x = None.
Proof.
  unfold State. destruct (d_CancelledAt x), (d_EndedAt x); simpl; intros [?|?]; done.
Qed.

Lemma scheduled_starts x now : State x now = Scheduled → now < d_StartsAt x.
Proof.
  unfold State. destruct (d_CancelledAt x); [done|]. destruct (_ || _); [done|]. cbn.
  destruct (Before now (d_StartsAt x)) eqn:Hb; [|done]. unfold Before in Hb. lia.
Qed.

Lemma active_within x now :
  State x now = Active → d_StartsAt x ≤ now ∧ match d_EndsAt x with Some e => now < e | None => True end.
Proof.
  unfold State. destruct (d_CancelledAt x); [done|]. destruct (d_EndedAt x); [done|]. cbn.
  unfold Before. destruct (d_EndsAt x) as [e|]; [destruct (now <? e) eqn:He; [cbn|done]|];
    (destruct (now <? d_StartsAt x) eqn:Hs; [done|]); split; lia || done.
Qed.

Lemma overlapping_sym x y : overlapping x y = overlapping y x.
Proof.
  unfold overlapping, ranges_overlap.
  destruct (range_empty (d_StartsAt x) _), (range_empty (d_StartsAt y) _),
    (opt_check _ (effective_end y)), (opt_check _ (effective_end x)); done.
Qed.

Lemma disablements_check_split x :
  disablements_check x = true →
  opt_check (λ e, d_StartsAt x <? e) (d_EndsAt x) = true ∧ 0 < d_Revision x
  ∧ opt_check (λ e, (d_StartsAt x <=? e) && opt_check (λ n, e <=? n) (d_EndsAt x)) (d_EndedAt x) = true.
Proof. unfold disablements_check. intros Hc. inv_checks Hc. split_and!; [done|lia|done]. Qed.

(** Ending a disablement only shrinks its interval. *)
Lemma overlapping_shrink x x' y :
  d_StartsAt x' = d_StartsAt x → d_EndsAt x' = d_EndsAt x → d_EndedAt x = None →
  disablements_check x = true → overlapping x' y = true → overlapping x y = true.
Proof.
  unfold overlapping, effective_end. intros Hs He Hn Hc.
  apply disablements_check_split in Hc as (Hends & _ & _). rewrite Hs, He, Hn.
  unfold ranges_overlap, range_empty, opt_check, least in *.
  destruct (d_EndsAt x) as [e|], (d_EndedAt x') as [t|], (d_EndsAt y) as [ye|], (d_EndedAt y) as [yt|];
    simpl; lia.
Qed.

(** ** How the state grows *)

Definition location_later (r r' : LocationRow) : Prop :=
  lr_ID r' = lr_ID r ∧ lr_CreatedAt r' = lr_CreatedAt r
  ∧ (r' = r ∨ lr_Revision r < lr_Revision r').

(** A decided request never changes; a pending one counts its revisions. *)
Definition request_later (r r' : RequestRow) : Prop :=
  r' = r ∨ rr_Status r = Pending ∧ rr_ID r' = rr_ID r ∧ rr_SubmittedBy r' = rr_SubmittedBy r
           ∧ rr_CreatedAt r' = rr_CreatedAt r ∧ rr_Revision r < rr_Revision r'.

(** A disablement that ended or was cancelled never changes. *)
Definition disablement_later (x x' : Disablement) : Prop :=
  x' = x ∨ d_EndedAt x = None ∧ d_CancelledAt x = None ∧ d_ID x' = d_ID x
           ∧ d_LocationID x' = d_LocationID x ∧ d_CreatedBy x' = d_CreatedBy x
           ∧ d_CreatedAt x' = d_CreatedAt x ∧ d_Revision x < d_Revision x'.

#[global] Instance location_later_refl : Reflexive location_later.
Proof. intros r. unfold location_later. auto. Qed.
#[global] Instance location_later_trans : Transitive location_later.
Proof.
  intros a b c (H1&H2&H3) (H4&H5&H6). unfold location_later. split_and!; try congruence.
  destruct H3 as [->|?], H6 as [->|?]; auto. right. lia.
Qed.
#[global] Instance request_later_refl : Reflexive request_later.
Proof. by left. Qed.
#[global] Instance request_later_trans : Transitive request_later.
Proof.
  intros a b c [->|(Hp&Hi&Hs&Hc&Hr)] [->|(Hp'&Hi'&Hs'&Hc'&Hr')]; [by left|by right|by right|].
  right. split_and!; try congruence. lia.
Qed.
#[global] Instance disablement_later_refl : Reflexive disablement_later.
Proof. by left. Qed.
#[global] Instance disablement_later_trans : Transitive disablement_later.
Proof.
  intros a b c [->|(?&?&?&?&?&?&?)] [->|(?&?&?&?&?&?&?)]; [by left|by right..|].
  right. split_and!; try congruence. lia.
Qed.

Record grown (d d' : SDB) : Prop := {
  gr_buildings : buildings d' = buildings d;
  gr_categories : categories d' = categories d;
  gr_locations : map_extends location_later (locations d) (locations d');
  gr_requests : map_extends request_later (requests d) (requests d');
  gr_disablements : map_extends disablement_later (disablements d) (disablements d');
  gr_decided : ∀ id r, requests d !! id = Some r → rr_Status r ≠ Pending →
    related id (request_categories d') = related id (request_categories d);
}.

#[global] Instance grown_refl : Reflexive grown.
Proof. intros d. split; try done; apply map_extends_refl; apply _. Qed.
#[global] Instance grown_trans : Transitive grown.
Proof.
  intros a b c [Hb1 Hc1 Hl1 Hr1 Hd1 Hx1] [Hb2 Hc2 Hl2 Hr2 Hd2 Hx2].
  split; [congruence|congruence|eapply map_extends_trans; [apply _|done|done]..|].
  intros id r Hr Hst. rewrite <- (Hx1 id r Hr Hst). destruct (Hr1 id r Hr) as (r' & Hr' & [->|[? _]]); [|done].
  by apply (Hx2 id r).
Qed.

Lemma grown_location d d' id r :
  grown d d' → locations d !! id = Some r → ∃ r', locations d' !! id = Some r' ∧ location_later r r'.
Proof. intros Hg. apply (gr_locations _ _ Hg). Qed.

(** ** Writes that keep the invariant *)

Lemma related_other (id id' : string) (ids : list string) (X : gset (string * string)) :
  id' ≠ id → related id' (pairs id ids ∪ filter (λ rc, rc.1 ≠ id) X) = related id' X.
Proof.
  intros Hne. unfold related. apply (Sorted_unique string_le); try apply Sorted_merge_sort; try apply _.
  rewrite !merge_sort_Permutation. apply fmap_Permutation, NoDup_Permutation.
  1-2: apply NoDup_filter, NoDup_elements.
  intros x. rewrite !list_elem_of_filter, !elem_of_elements, elem_of_union, elem_of_pairs, elem_of_filter.
  naive_solver.
Qed.

(** The references and keys of requests do not depend on Categories. *)
Lemma request_references_mono r d d' :
  map_extends location_later (locations d) (locations d') → buildings d' = buildings d →
  request_references r d = true → request_references r d' = true.
Proof.
  intros Hl Hb Hr. unfold request_references in *. rewrite Hb. apply andb_prop in Hr as [-> Hr]. simpl.
  destruct (rr_ResultingLocationID r) as [l|]; [|done]. simpl in *.
  destruct (locations d !! l) as [x|] eqn:Hx; [|done]. by destruct (Hl _ _ Hx) as (? & -> & _).
Qed.

Lemma request_unique_spec r d i q l :
  request_unique r d = true → rr_ResultingLocationID r = Some l → requests d !! i = Some q →
  rr_ResultingLocationID q = Some l → i = rr_ID r.
Proof.
  unfold request_unique. intros Hu Hr Hq Hl. rewrite Hr in Hu. apply bool_decide_eq_true in Hu.
  by destruct (Hu i q Hq) as [|Hne].
Qed.

Lemma saved_Inv q d d' id r ids :
  Inv d → saved q d d' id r ids → rr_Revision r ≤ max_int64 → Inv d'.
Proof.
  intros HI [_ Hid _ Hc Hu Hrf _ Hst ->] Hrev. split; simpl.
  - apply (iv_buildings _ HI).
  - apply (iv_categories _ HI).
  - apply (iv_locations _ HI).
  - apply (iv_location_categories _ HI).
  - intros i x [[<- <-]|[Hne Hx]]%lookup_insert_Some; [done|]. by apply (iv_requests _ HI).
  - intros i j x y l [[<- <-]|[Hi Hx]]%lookup_insert_Some [[<- <-]|[Hj Hy]]%lookup_insert_Some Hxl Hyl.
    + done.
    + rewrite <- Hid. by rewrite (request_unique_spec _ _ _ _ _ Hu Hxl Hy Hyl).
    + rewrite <- Hid. by rewrite (request_unique_spec _ _ _ _ _ Hu Hyl Hx Hxl).
    + by eapply (iv_results _ HI).
  - apply (iv_disablements _ HI).
  - apply (iv_disjoint _ HI).
Qed.

Lemma saved_grown q d d' id r ids :
  saved q d d' id r ids →
  (∀ old, requests d !! id = Some old → rr_Status old = Pending ∧ request_later old r) →
  grown d d'.
Proof.
  intros [_ Hid _ _ _ _ _ _ ->] Hold. split; simpl; try done; try (apply map_extends_refl; apply _).
  - apply map_extends_insert; [apply _|]. intros old Ho. by apply Hold.
  - intros i x Hx Hst. destruct (decide (i = id)) as [->|Hne]; [by destruct (Hold _ Hx)|].
    by apply related_other.
Qed.

(** What a write to the table of Locations leaves of the other tables. *)
Lemma locations_Inv (d : SDB) (L : gmap string LocationRow) (C : gset (string * string)) :
  Inv d → map_extends location_later (locations d) L →
  let d' := d <| locations := L |> <| location_categories := C |> in
  (∀ id r, L !! id = Some r → location_ok d' id r) →
  (∀ id c, (id, c) ∈ C → is_Some (L !! id) ∧ is_Some (categories d !! c)) →
  Inv d' ∧ grown d d'.
Proof.
  intros HI Hl d' Hok Hcat. split.
  - split; simpl; try done.
    + apply (iv_buildings _ HI).
    + apply (iv_categories _ HI).
    + intros id r Hr. destruct (iv_requests _ HI _ _ Hr) as (? & ? & ? & Hrf & ?). split_and!; try done.
      by apply (request_references_mono r d).
    + apply (iv_results _ HI).
    + intros id x Hx. destruct (iv_disablements _ HI _ _ Hx) as (? & ? & ? & [l Hx'] & ? & ?). split_and!; try done.
      simpl. destruct (Hl _ _ Hx') as (? & -> & _). done.
    + apply (iv_disjoint _ HI).
  - split; simpl; try done; apply map_extends_refl; apply _.
Qed.

Lemma located_Inv r d d' raw ids :
  Inv d → located r d d' raw ids → lr_Revision r ≤ max_int64 → (lr_IsSupplier r = true ↔ ids ≠ []) → Inv d' ∧ grown d d'.
Proof.
  intros HI [_ Hnew Hc Hb Hex Hcn ->] Hrv Hsup. apply locations_Inv; [done| | |].
  - apply map_extends_insert; [apply _|]. congruence.
  - intros id x [[<- <-]|[Hne Hx]]%lookup_insert_Some.
    + split_and!; try done. simpl. rewrite Hsup. split.
      * destruct ids as [|c ids]; [done|]. intros _. exists c. apply elem_of_union_l, elem_of_pairs. set_solver.
      * intros [c [[_ Hin]%elem_of_pairs|Hin]%elem_of_union]; [by destruct ids; [apply elem_of_nil in Hin|]|].
        destruct (iv_location_categories _ HI _ _ Hin) as [[y Hy] _]. congruence.
    + destruct (iv_locations _ HI _ _ Hx) as (? & ? & ? & ? & ? & Hs). split_and!; try done. simpl.
      rewrite Hs. split; intros [c Hin]; exists c; [set_solver|].
      apply elem_of_union in Hin as [[? _]%elem_of_pairs|?]; [by simplify_eq/=|done].
  - intros i c [[? Hin]%elem_of_pairs|Hin]%elem_of_union; simpl in *.
    + subst. rewrite lookup_insert_eq. split; [done|by apply Hex].
    + destruct (iv_location_categories _ HI _ _ Hin) as [Hi ?]. split; [|done].
      rewrite lookup_insert_is_Some'. by right.
Qed.

(** Replacing a Location's row and its Categories, or its row alone. *)
Lemma relocated_Inv (d : SDB) (id : string) (old r : LocationRow) (ids : list string) :
  Inv d → locations d !! id = Some old → lr_ID r = id → lr_CreatedAt r = lr_CreatedAt old →
  lr_Revision old < lr_Revision r ≤ max_int64 → locations_check r = true → is_Some (buildings d !! lr_BuildingID r) →
  (∀ c, c ∈ ids → is_Some (categories d !! c)) → (lr_IsSupplier r = true ↔ ids ≠ []) →
  let d' := d <| locations := <[id := r]> (locations d) |>
    <| location_categories := pairs id ids ∪ filter (λ lc, lc.1 ≠ id) (location_categories d) |> in
  Inv d' ∧ grown d d'.
Proof.
  intros HI Hold Hid Hca [Hrev Hrm] Hc Hb Hex Hsup. apply locations_Inv; [done| | |].
  - apply map_extends_insert; [apply _|]. intros v Hv. simplify_eq.
    destruct (iv_locations _ HI _ _ Hold) as [? _]. split_and!; [congruence|done|by right].
  - intros i x [[<- <-]|[Hne Hx]]%lookup_insert_Some.
    + split_and!; try done; [by destruct (iv_locations _ HI _ _ Hold) as (_ & _ & _ & _ & ? & _)|]. simpl. rewrite Hsup. split.
      * destruct ids as [|c ids]; [done|]. intros _. exists c. apply elem_of_union_l, elem_of_pairs. set_solver.
      * intros [c [[_ Hin]%elem_of_pairs|[Hin _]%elem_of_filter]%elem_of_union]; [|done].
        by destruct ids; [apply elem_of_nil in Hin|].
    + destruct (iv_locations _ HI _ _ Hx) as (? & ? & ? & ? & ? & Hs). split_and!; try done. simpl.
      rewrite Hs. split; intros [c Hin]; exists c.
      * apply elem_of_union_r, elem_of_filter. by split.
      * apply elem_of_union in Hin as [[? _]%elem_of_pairs|[_ ?]%elem_of_filter]; [by simplify_eq/=|done].
  - intros i c [[? Hin]%elem_of_pairs|[Hne Hin]%elem_of_filter]%elem_of_union; simpl in *.
    + subst. rewrite lookup_insert_eq. split; [done|by apply Hex].
    + destruct (iv_location_categories _ HI _ _ Hin) as [Hi ?]. split; [|done].
      rewrite lookup_insert_is_Some'. by right.
Qed.

Lemma touched_Inv (d : SDB) (id : string) (old r : LocationRow) :
  Inv d → locations d !! id = Some old → lr_ID r = id → lr_CreatedAt r = lr_CreatedAt old →
  lr_Revision old < lr_Revision r ≤ max_int64 → locations_check r = true → lr_BuildingID r = lr_BuildingID old →
  lr_IsSupplier r = lr_IsSupplier old →
  let d' := d <| locations := <[id := r]> (locations d) |> in Inv d' ∧ grown d d'.
Proof.
  intros HI Hold Hid Hca [Hrev Hrm] Hc Hb Hsup.
  destruct (iv_locations _ HI _ _ Hold) as (Ho & _ & _ & Hbo & Hcn & Hso).
  apply (locations_Inv d (<[id := r]> (locations d)) (location_categories d)); [done| | |].
  - apply map_extends_insert; [apply _|]. intros v Hv. simplify_eq. split_and!; [congruence|done|by right].
  - intros i x [[<- <-]|[Hne Hx]]%lookup_insert_Some.
    + split_and!; try done; simpl; [congruence|]. by rewrite Hsup.
    + destruct (iv_locations _ HI _ _ Hx) as (? & ? & ? & ? & ? & Hs). done.
  - intros i c Hin. destruct (iv_location_categories _ HI _ _ Hin) as [Hi ?]. split; [|done].
    rewrite lookup_insert_is_Some'. by right.
Qed.

(** A disablement's row is put. *)
Lemma disabled_Inv (d : SDB) (id : string) (x : Disablement) :
  Inv d → disablement_ok d id x →
  (∀ old, disablements d !! id = Some old → disablement_later old x) →
  (∀ j y, disablements d !! j = Some y → competing x y → overlapping x y = false) →
  let d' := d <| disablements := <[id := x]> (disablements d) |> in Inv d' ∧ grown d d'.
Proof.
  intros HI Hx Hold Hdis. split.
  - split; simpl.
    + apply (iv_buildings _ HI).
    + apply (iv_categories _ HI).
    + apply (iv_locations _ HI).
    + apply (iv_location_categories _ HI).
    + apply (iv_requests _ HI).
    + apply (iv_results _ HI).
    + intros i y [[<- <-]|[Hne Hy]]%lookup_insert_Some; [done|]. by apply (iv_disablements _ HI).
    + intros i j y z [[<- <-]|[Hi Hy]]%lookup_insert_Some [[<- <-]|[Hj Hz]]%lookup_insert_Some Hcomp.
      * by destruct Hcomp.
      * by eapply Hdis.
      * rewrite overlapping_sym. eapply Hdis; [done|]. destruct Hcomp as (?&?&?&?). split_and!; congruence.
      * by eapply (iv_disjoint _ HI).
  - split; simpl; try done; try (apply map_extends_refl; apply _). by apply map_extends_insert; [apply _|].
Qed.

(** Keys of idempotent calls are not part of the invariant. *)
Lemma keys_Inv (d : SDB) (K : gmap (string * string * string) KeyRow) : Inv d → Inv (d <| supplier_idempotency := K |>) ∧ grown d (d <| supplier_idempotency := K |>).
Proof. intros HI. split; [by destruct HI|]. split; try done; apply map_extends_refl; apply _. Qed.

End invariant.

(** * The effects of its operations

    Every write of the service is one [effect] of an actor at a time: submitting,
    editing, refusing and approving a request, scheduling, moving, ending and
    calling off a disablement, creating, rewriting and archiving a Location.
    Each effect keeps the invariant and extends the state. *)

(** Who acts: a verified caller, an administrator or not. *)
Record Actor := { at_ID : string; at_Admin : bool }.
Definition of_caller (c : Caller) : Actor := {| at_ID := cl_ID c; at_Admin := IsAdmin c |}.
Definition of_auth (c : AuthCaller) : Actor := {| at_ID := ac_ID c; at_Admin := ac_Admin c |}.

Section effects.
  Context `{UUID, !UUIDLaws}.

(** A later row of the same request or disablement: one revision on. *)
Definition next_request (old r : RequestRow) : Prop :=
  rr_Status old = Pending ∧ rr_ID r = rr_ID old ∧ rr_SubmittedBy r = rr_SubmittedBy old
  ∧ rr_CreatedAt r = rr_CreatedAt old ∧ rr_Revision r = rr_Revision old + 1 ∧ rr_Revision r ≤ max_int64.

Definition next_disablement (old x : Disablement) : Prop :=
  d_EndedAt old = None ∧ d_CancelledAt old = None ∧ d_ID x = d_ID old
  ∧ d_LocationID x = d_LocationID old ∧ d_CreatedBy x = d_CreatedBy old
  ∧ d_CreatedAt x = d_CreatedAt old ∧ d_Revision x = d_Revision old + 1.

(** No other disablement of the Location overlaps. *)
Definition free_interval (x : Disablement) (d : SDB) : Prop :=
  ∀ j y, disablements d !! j = Some y → competing x y → overlapping x y = false.

Definition put_x (x : Disablement) (d : SDB) : SDB :=
  d <| disablements := <[d_ID x := x]> (disablements d) |>.

Inductive effect (a : Actor) (now : Time) (d d' : SDB) : Prop :=
| Submitted q id r ids :
    saved q d d' id r ids → requests d !! id = None →
    rr_Status r = Pending → rr_SubmittedBy r = at_ID a → rr_Revision r = 1 → effect a now d d'
| Edited q id r ids old :
    saved q d d' id r ids → requests d !! id = Some old → next_request old r → rr_Status r = Pending →
    at_Admin a = true ∨ at_ID a = rr_SubmittedBy old → effect a now d d'
| Refused q id r ids old :
    saved q d d' id r ids → requests d !! id = Some old → next_request old r →
    rr_Status r = Withdrawn ∧ at_ID a = rr_SubmittedBy old ∨ rr_Status r = Rejected ∧ at_Admin a = true →
    effect a now d d'
| Published q id r ids old l raw lids d1 :
    located l d d1 raw lids → lr_Revision l = 1 → (lr_IsSupplier l = true ↔ lids ≠ []) →
    lr_ArchivedAt l = None →
    saved q d1 d' id r ids → requests d !! id = Some old → next_request old r →
    rr_Status r = Approved → rr_ResultingLocationID r = Some (lr_ID l) → at_Admin a = true →
    effect a now d d'
| Disabled x :
    d' = put_x x d → disablements d !! d_ID x = None → disablement_ok d (d_ID x) x →
    free_interval x d → d_EndedAt x = None → d_CancelledAt x = None →
    at_Admin a = true → effect a now d d'
| Redisabled old x :
    d' = put_x x d → disablements d !! d_ID x = Some old → disablement_ok d (d_ID x) x →
    free_interval x d → next_disablement old x → State old now = Scheduled →
    d_EndedAt x = None → d_CancelledAt x = None → at_Admin a = true → effect a now d d'
| Finished old x target :
    d' = put_x x d → disablements d !! d_ID x = Some old → disablement_ok d (d_ID x) x →
    next_disablement old x → x = stored_disablement (finished target now old) →
    target = Ended ∧ State old now = Active ∨ target = DCancelled ∧ State old now = Scheduled →
    at_Admin a = true → effect a now d d'
| Created l raw lids :
    located l d d' raw lids → lr_Revision l = 1 → (lr_IsSupplier l = true ↔ lids ≠ []) →
    lr_ArchivedAt l = None → at_Admin a = true → effect a now d d'
| Rewritten id old r ids :
    locations d !! id = Some old → lr_ID r = id → lr_CreatedAt r = lr_CreatedAt old →
    lr_Revision r = lr_Revision old + 1 → lr_Revision r ≤ max_int64 → locations_check r = true →
    is_Some (buildings d !! lr_BuildingID r) → (∀ c, c ∈ ids → is_Some (categories d !! c)) →
    (lr_IsSupplier r = true ↔ ids ≠ []) → lr_ArchivedAt r = lr_ArchivedAt old →
    d' = d <| locations := <[id := r]> (locations d) |>
      <| location_categories := pairs id ids ∪ filter (λ lc, lc.1 ≠ id) (location_categories d) |> →
    at_Admin a = true → effect a now d d'
| Archived id old server t :
    locations d !! id = Some old → is_some (lr_ArchivedAt old) ≠ is_some t →
    let r := touched server (old <| lr_ArchivedAt := t |>) in
    lr_Revision r ≤ max_int64 → d' = d <| locations := <[id := r]> (locations d) |> →
    at_Admin a = true → effect a now d d'.

(** ** Effects keep the invariant and the history *)

Lemma next_request_later old r : next_request old r → request_later old r.
Proof. intros (?&?&?&?&?&?). right. split_and!; try done. lia. Qed.
Lemma next_disablement_later old x : next_disablement old x → disablement_later old x.
Proof. intros (?&?&?&?&?&?&?). right. split_and!; try done. lia. Qed.

Lemma saved_next q d d' id r ids old :
  Inv d → saved q d d' id r ids → requests d !! id = Some old → next_request old r →
  Inv d' ∧ grown d d'.
Proof.
  intros HI Hs Hold Hn. split.
  - eapply saved_Inv; [done..|]. by destruct Hn as (?&?&?&?&?&?).
  - eapply saved_grown; [done|]. intros old' Hold'. simplify_eq.
    split; [by destruct Hn|by apply next_request_later].
Qed.

Lemma put_Inv x d :
  Inv d → disablement_ok d (d_ID x) x → free_interval x d →
  (∀ old, disablements d !! d_ID x = Some old → next_disablement old x) →
  Inv (put_x x d) ∧ grown d (put_x x d).
Proof.
  intros HI Hok Hfree Hold. apply disabled_Inv; try done. intros old Ho. apply next_disablement_later. auto.
Qed.

(** What ends early, or is called off, takes no interval that was free. *)
Lemma finished_free now old x target d :
  Inv d → disablements d !! d_ID x = Some old → next_disablement old x →
  x = stored_disablement (finished target now old) → target = Ended ∨ target = DCancelled →
  free_interval x d.
Proof.
  intros HI Hold (Hend & Hcan & Hid & Hloc & _) -> Ht j y Hy Hc.
  destruct Hc as (Hne & Hl & Hx & Hyc). destruct Ht as [->| ->]; [|done].
  destruct (iv_disablements _ HI _ _ Hold) as (_ & Hck & _ & _ & Hst & _).
  apply not_true_iff_false. intros Ho. eapply (overlapping_shrink old) in Ho; [|..|done|done].
  - assert (overlapping old y = false); [|congruence]. eapply (iv_disjoint _ HI); [done..|].
    split_and!; congruence.
  - exact (f_equal d_StartsAt Hst).
  - exact (f_equal d_EndsAt Hst).
Qed.

Lemma touched_check server t old :
  locations_check old = true → locations_check (touched server (old <| lr_ArchivedAt := t |>)) = true.
Proof.
  unfold locations_check. cbn. intros [Hc Hr]%andb_prop. apply andb_true_intro. split; [exact Hc|lia].
Qed.

Lemma effect_Inv a now d d' : Inv d → effect a now d d' → Inv d' ∧ grown d d'.
Proof.
  intros HI He. destruct He as
    [q id r ids Hs Hnew Hp Hby Hrev|q id r ids old Hs Hold Hn Hst Hby|q id r ids old Hs Hold Hn Hst
    |q id r ids old l raw lids d1 Hl Hlr Hlsup Hla Hs Hold Hn Hst Hres Had
    |x -> Hnew Hok Hfree _ _ Had|old x -> Hold Hok Hfree Hn _ _ _ Had|old x target -> Hold Hok Hn Hx Ht Had
    |l raw lids Hl Hlr Hlsup Hla Had|id old r ids Hold Hid Hc Hrev Hmax Hck Hb Hex Hsup Har -> Had
    |id old server t Hold Har r Hmax -> Had].
  - split; [eapply saved_Inv; [done..|]; rewrite Hrev; int64_lia|].
    eapply saved_grown; [done|]. congruence.
  - by eapply saved_next.
  - by eapply saved_next.
  - assert (Inv d1 ∧ grown d d1) as [HI1 Hg1].
    { eapply located_Inv; try done. rewrite Hlr. int64_lia. }
    assert (requests d1 !! id = Some old) by (by rewrite (lo_after _ _ _ _ _ Hl)).
    destruct (saved_next _ _ _ _ _ _ _ HI1 Hs H1 Hn) as [HI' Hg']. split; [done|by etrans].
  - apply put_Inv; try done. congruence.
  - apply put_Inv; try done. intros old' Ho. congruence.
  - apply put_Inv; try done; [|intros; congruence].
    eapply finished_free; try done. destruct Ht as [[? _]|[? _]]; auto.
  - eapply located_Inv; try done. rewrite Hlr. int64_lia.
  - eapply relocated_Inv; try done. lia.
  - destruct (iv_locations _ HI _ _ Hold) as (Hid & Hck & Hrv & ? & ? & Hsup).
    eapply touched_Inv; try done; [simpl in *; lia|by apply touched_check].
Qed.

End effects.
