(* ===== verification/SupplierSteps.v ===== *)
(** * Supplier: every operation is an effect

    [operation] lists the calls that the service answers, [perform] runs one under
    any fault. Apart from the keys of idempotent calls a call has at most one
    [effect]; [supplier_step] is a call of any caller, and [reachable] the states
    that calls lead to. *)
From stdpp Require Import prelude gmap strings list sorting relations.
From Stdlib Require Import ZArith Lia SpecFloat.
From S2P Require Import Prelude.
From S2P Require Import GoLib.
From S2P Require Import GoText.
From S2P Require Import GoFloat.
From S2P Require Import SupplierTypes.
From S2P Require Import SupplierProposal.
From S2P Require Import SupplierDB.
From S2P Require Import SupplierStore.
From S2P Require Import SupplierRequests.
From S2P Require Import SupplierAdmin.
From S2P Require Import SupplierRuns.
From S2P Require Import SupplierInvariant.

Local Open Scope Z_scope.
Local Open Scope foc_scope.

Section bodies.
  Context `{UUID, !UUIDLaws, Digest}.

(** ** Addition requests *)

Lemma next_revision n : 0 < n ≤ max_int64 → 0 < add64 n 1 → add64 n 1 = n + 1 ∧ n + 1 ≤ max_int64.
Proof.
  intros Hn Hp. destruct (decide (n = max_int64)) as [->|]; [vm_compute in Hp; done|].
  rewrite add64_id by int64_lia. int64_lia.
Qed.

Lemma requests_check_revision r : requests_check r = true → 0 < rr_Revision r.
Proof. unfold requests_check. intros Hc. inv_checks Hc. lia. Qed.
Lemma disablements_check_revision x : disablements_check x = true → 0 < d_Revision x.
Proof. intros Hc. by apply disablements_check_split in Hc as (_ & ? & _). Qed.

(** A request read from the database. *)
Lemma tx_Request_read id env d q d' :
  Inv d → tx_Request id env d = Ok (q, d') →
  d' = d ∧ ∃ rid row, sql_id id = Some rid ∧ sql_id rid = Some rid ∧ requests d !! rid = Some row
    ∧ request_ok d rid row ∧ q = request row (WorkflowRequestCategoryIDs rid d).
Proof.
  intros HI (-> & rid & row & Hid & Hrow & ->)%tx_Request_run. split; [done|]. exists rid, row.
  destruct (iv_requests _ HI _ _ Hrow) as (Hrid & Hok). split_and!; try done; [by eapply sql_id_canonical|by rewrite Hrid].
Qed.

(** Saving what was read, one revision on. *)
Lemma SaveRequest_next rid row q env d u d' :
  Inv d → requests d !! rid = Some row → sql_id rid = Some rid → q_ID q = rr_ID row →
  q_Revision q = add64 (rr_Revision row) 1 → SaveRequest q (rr_Revision row) env d = Ok (u, d') →
  ∃ ids, let r := stored_request (updated_request row (request_row q (q_ID q))) in
    saved q d d' rid r ids ∧ next_request row r.
Proof.
  intros HI Hrow Hrid Hq Hrev Hr. destruct (iv_requests _ HI _ _ Hrow) as (Hid & Hck & Hmax & _ & Hst).
  pose proof (requests_check_revision _ Hck) as Hpos.
  apply SaveRequest_update in Hr as (id & ids & old & Hold & Hp & _ & Hs); [|lia].
  destruct (iv_requests _ HI _ _ Hold) as (Hoid & _). specialize (Hs Hoid).
  assert (id = rid) as -> by (pose proof (sv_id _ _ _ _ _ _ Hs); congruence).
  assert (old = row) as -> by congruence.
  exists ids. split; [done|]. pose proof (requests_check_revision _ (sv_check _ _ _ _ _ _ Hs)) as Hnext.
  cbn in Hnext. rewrite Hrev in Hnext. destruct (next_revision (rr_Revision row)) as [Hn Hle]; [lia|done|].
  split_and!; try done.
  - exact (f_equal rr_CreatedAt Hst).
  - cbn. by rewrite Hrev.
  - cbn. rewrite Hrev. lia.
Qed.

Lemma create_request_effect c p now env d id d' :
  create_request c p now env d = Ok (id, d') → effect (of_caller c) (now_ env) d d'.
Proof.
  intros Hr. unfold create_request in Hr. split_run Hr.
  apply ValidateReferences_run in Hrun as (-> & _).
  apply SaveRequest_new in Hrun0 as (id & ids & Hs & Hnew). by eapply Submitted.
Qed.

Lemma update_body_effect c i m env d q d' :
  Inv d → update_body c i m env d = Ok (q, d') → effect (of_caller c) (now_ env) d d'.
Proof.
  intros HI Hr. unfold update_body in Hr. split_run Hr.
  apply tx_Request_read in Hrun as (-> & rid & row & _ & Hrid & Hrow & _ & ->); [|done].
  apply ValidateReferences_run in Hrun5 as (-> & _). apply tx_Request_run in Hr as (-> & _).
  apply Z.eqb_eq in Hrun3. rewrite <- Hrun3 in Hrun6.
  edestruct SaveRequest_next as (ids & Hs & Hn); [done|done|done| | |exact Hrun6|]; [done|done|].
  eapply Edited; [exact Hs|done|exact Hn| |].
  - by apply same_eq in Hrun2.
  - apply orb_prop in Hrun1 as [Had|Hby%same_eq]; [by left|by right].
Qed.

Lemma decided_before_run c q target env d a d' :
  decided_before c q target env d = Ok (a, d') → d' = d.
Proof.
  intros Hr. unfold decided_before in Hr. split_run Hr; [|done]. by apply tx_Location_run in Hrun0 as (-> & _).
Qed.

(** An approval creates the Location of the request's normalised proposal. *)
Lemma approve_run q now env d r d' :
  approve q now env d = Ok (r, d') →
  ∃ p b lids, normalizeProposal (q_Proposal q) = Ok p ∧ sql_id (p_BuildingID p) = Some b
    ∧ located (location_row p (wl_ID r.2) b now) d d' (p_CategoryIDs p) lids
    ∧ sql_id (newID env) = Some (wl_ID r.2)
    ∧ r.1 = q <| q_Proposal := p |> <| q_ResultingLocationID := Some (wl_ID r.2) |>.
Proof.
  intros Hr. unfold approve in Hr. split_run Hr. apply ValidateReferences_run in Hrun0 as (-> & _).
  apply CreateLocation_run in Hrun1 as (id & b & lids & Hid & Hb & Hl & <- & _).
  destruct (normalizeProposal (q_Proposal q)) as [p|] eqn:Hp; [|done]. injection Hrun as ->.
  by exists a, b, lids.
Qed.

(** What a decision did: nothing to a request decided so before, otherwise the
    pending request is saved, after its Location if it is approved. *)
Definition decision (c : Caller) (target : RequestStatus) (note : string) (env : Env) (rid : string)
    (row : RequestRow) (a : Approval) (d d' : SDB) : Prop :=
  let q0 := request row (WorkflowRequestCategoryIDs rid d) in
  ∃ d1 q1 ids,
    (target ≠ Approved ∧ d1 = d ∧ q1 = q0 ∧ ap_Location a = None
     ∨ target = Approved ∧ ∃ l, approve q0 (now_ env) env d = Ok (q1, l, d1) ∧ ap_Location a = Some l)
    ∧ let q := reviewed c target note (now_ env) q1 in
      let r := stored_request (updated_request row (request_row q (q_ID q))) in
      saved q d1 d' rid r ids ∧ next_request row r
      ∧ tx_Request (q_ID q) env d' = Ok (request r (WorkflowRequestCategoryIDs rid d'), d')
      ∧ ap_Request a = redactRequestForCaller c (request r (WorkflowRequestCategoryIDs rid d')).

Lemma reviewed_revision c target note now q : q_Revision (reviewed c target note now q) = add64 (q_Revision q) 1.
Proof. unfold reviewed. by destruct (same target Withdrawn), (same target Rejected). Qed.
Lemma reviewed_id c target note now q : q_ID (reviewed c target note now q) = q_ID q.
Proof. unfold reviewed. by destruct (same target Withdrawn), (same target Rejected). Qed.
Lemma reviewed_status c target note now q : q_Status (reviewed c target note now q) = target.
Proof. unfold reviewed. by destruct (same target Withdrawn), (same target Rejected). Qed.
Lemma reviewed_result c target note now q :
  q_ResultingLocationID (reviewed c target note now q) = q_ResultingLocationID q.
Proof. unfold reviewed. by destruct (same target Withdrawn), (same target Rejected). Qed.

Lemma approve_Inv q now env d r d' :
  Inv d → approve q now env d = Ok (r, d') → Inv d' ∧ requests d' = requests d.
Proof.
  intros HI (p & b & lids & Hp & _ & Hl & _)%approve_run. split; [|by rewrite (lo_after _ _ _ _ _ Hl)].
  eapply located_Inv; [done..|cbn; int64_lia|]. cbn.
  rewrite (normalizeProposal_supplier _ _ Hp). by apply canonical_nil, (lo_ids _ _ _ _ _ Hl).
Qed.

(** A saved request is read back as it was written. *)
Lemma saved_reread q d d' rid r ids env a s :
  saved q d d' rid r ids → tx_Request (q_ID q) env d' = Ok (a, s) →
  s = d' ∧ a = request r (WorkflowRequestCategoryIDs rid d').
Proof.
  intros [Hid Hrid _ _ _ _ _ _ ->] (-> & rid' & row & Hid' & Hrow & ->)%tx_Request_run. split; [done|].
  assert (rid' = rid) as -> by congruence. cbn in Hrow. rewrite lookup_insert_eq in Hrow.
  injection Hrow as <-. by rewrite Hrid.
Qed.

Lemma decide_run c target note q1 rid row env d1 u s p d' :
  Inv d1 → requests d1 !! rid = Some row → sql_id rid = Some rid → q_ID q1 = rr_ID row →
  q_Revision q1 = rr_Revision row →
  let q := reviewed c target note (now_ env) q1 in
  SaveRequest q (q_Revision q1) env d1 = Ok (u, s) → tx_Request (q_ID q) env s = Ok (p, d') →
  ∃ ids, let r := stored_request (updated_request row (request_row q (q_ID q))) in
    saved q d1 d' rid r ids ∧ next_request row r
    ∧ tx_Request (q_ID q) env d' = Ok (request r (WorkflowRequestCategoryIDs rid d'), d')
    ∧ p = request r (WorkflowRequestCategoryIDs rid d').
Proof.
  intros HI Hrow Hrid Hid Hrev q Hs Hread. rewrite Hrev in Hs.
  edestruct SaveRequest_next as (ids & Hsv & Hn); [done|done|done| | |exact Hs|].
  - subst q. by rewrite reviewed_id.
  - subst q. by rewrite reviewed_revision, Hrev.
  - exists ids. destruct (saved_reread _ _ _ _ _ _ _ _ _ Hsv Hread) as [-> ->]. done.
Qed.

Lemma decision_guards (c : Caller) target expected (row : RequestRow) :
  negb (same target Withdrawn && negb (same (rr_SubmittedBy row) (cl_ID c))) = true →
  same (rr_Status row) target = false → same (rr_Status row) Pending = true →
  same target Withdrawn || (rr_Revision row =? expected) = true →
  rr_Status row ≠ target ∧ rr_Status row = Pending ∧ (target ≠ Withdrawn → rr_Revision row = expected)
  ∧ (target = Withdrawn → rr_SubmittedBy row = cl_ID c).
Proof.
  intros Hby Hne%same_ne Hp%same_eq Hrev. split_and!; [done|done| |].
  - intros Hw. apply orb_prop in Hrev as [?%same_eq|?%Z.eqb_eq]; [done|lia].
  - intros ->. rewrite same_refl in Hby. cbn in Hby. rewrite negb_involutive in Hby. by apply same_eq.
Qed.

Lemma transition_body_run c id target expected note env d a d' :
  Inv d → transition_body c id target expected note env d = Ok (a, d') →
  ∃ rid row, sql_id id = Some rid ∧ requests d !! rid = Some row ∧
   (rr_Status row = target ∧ d' = d
      ∧ decided_before c (request row (WorkflowRequestCategoryIDs rid d)) target env d = Ok (a, d)
    ∨ rr_Status row ≠ target ∧ rr_Status row = Pending ∧ (target ≠ Withdrawn → rr_Revision row = expected)
      ∧ (target = Withdrawn → rr_SubmittedBy row = cl_ID c) ∧ decision c target note env rid row a d d').
Proof.
  intros HI Hr. unfold transition_body in Hr. apply bind_ok in Hr as (e & ? & [-> ->]%st_run_ask & Hr).
  apply bind_ok in Hr as (q0 & ? & Hrun & Hr).
  apply tx_Request_read in Hrun as (-> & rid & row & Hid & Hrid & Hrow & Hok & ->); [|done].
  exists rid, row. split; [done|]. split; [done|]. split_run Hr.
  - left. apply same_eq in Hb. pose proof (decided_before_run _ _ _ _ _ _ _ Hr) as ->. done.
  - right. edestruct decision_guards as (H2 & H3 & H4 & H5); [exact Hrun0|done|done|done|].
    split_and!; try done. apply same_eq in Hb0. destruct a5 as [q1 l]. cbn [fst snd] in *.
    destruct (approve_Inv _ _ _ _ _ _ HI Hrun4) as [HI1 Hreq].
    pose proof Hrun4 as (p & b & lids & _ & _ & _ & _ & Hq1)%approve_run. cbn in Hq1.
    destruct (decide_run c target note q1 rid row env s0 a4 s a6 s1) as (ids & Hs & Hn & Hread & ->);
      try done; [by rewrite Hreq|by rewrite Hq1..|].
    exists s0, q1, ids. split; [right; eauto|]. done.
  - right. edestruct decision_guards as (H2 & H3 & H4 & H5); [exact Hrun0|done|done|done|].
    split_and!; try done. apply same_ne in Hb0.
    destruct (decide_run c target note (request row (WorkflowRequestCategoryIDs rid d)) rid row env d a4 s a5 s0)
      as (ids & Hs & Hn & Hread & ->); try done.
    exists d, (request row (WorkflowRequestCategoryIDs rid d)), ids. split; [by left|]. done.
Qed.

Lemma transition_body_effect c id target expected note env d a d' :
  Inv d → (target = Withdrawn ∨ target ∈ [Rejected; Approved] ∧ IsAdmin c = true) →
  transition_body c id target expected note env d = Ok (a, d') →
  d' = d ∨ effect (of_caller c) (now_ env) d d'.
Proof.
  intros HI Htarget Hr.
  apply transition_body_run in Hr as (rid & row & Hid & Hrow & [(_ & -> & _)|(Hne & Hp & Hrev & Hby & Hdec)]);
    [by left| |done]. right.
  destruct Hdec as (d1 & q1 & ids & Hq & Hs & Hn & _).
  destruct Hq as [(Hna & -> & -> & _)|(-> & l & Happ & _)].
  - eapply Refused; [exact Hs|done|exact Hn|]. cbn.
    destruct Htarget as [->|[Ht Had]]; [left; by rewrite Hby|right].
    apply elem_of_cons in Ht as [->|Ht%list_elem_of_singleton]; done.
  - destruct Htarget as [|[_ Had]]; [done|].
    destruct (approve_Inv _ _ _ _ _ _ HI Happ) as [HI1 _].
    apply approve_run in Happ as (p & b & lids & Hnorm & _ & Hl & Hlid & Hq1). cbn [fst snd] in *.
    eapply Published; [exact Hl|done| |done|exact Hs|done|exact Hn| | |done].
    + cbn. rewrite (normalizeProposal_supplier _ _ Hnorm). apply canonical_nil, (lo_ids _ _ _ _ _ Hl).
    + done.
    + rewrite Hq1. cbn. by eapply sql_id_canonical.
Qed.

(** ** Disablements *)

Lemma put_disablement_run x d d' :
  put_disablement x d = Ok d' →
  let x' := stored_disablement x in
  disablement_text x' = true ∧ disablements_check x' = true ∧ is_Some (locations d !! d_LocationID x')
  ∧ d' = put_x x' d.
Proof.
  intros Hr. unfold put_disablement in Hr. inv_ok Hr. subst d'. split_and!; [done|done| |done].
  by destruct (locations d !! _).
Qed.

Lemma tx_DisabledLocation_run id env d l d' : tx_DisabledLocation id env d = Ok (l, d') → d' = d.
Proof. intros Hr. unfold tx_DisabledLocation in Hr. by split_run Hr. Qed.

Lemma tx_Disablement_read id env d x d' :
  Inv d → tx_Disablement id env d = Ok (x, d') →
  d' = d ∧ ∃ xid, sql_id id = Some xid ∧ sql_id xid = Some xid ∧ disablements d !! xid = Some x
    ∧ disablement_ok d xid x.
Proof.
  intros HI Hr. unfold tx_Disablement in Hr. split_run Hr. split; [done|].
  unfold LockWorkflowDisablement in Hr. destruct (sql_id id) as [xid|] eqn:Hid; [|done].
  exists xid. split_and!; [done|by eapply sql_id_canonical|done|by apply (iv_disablements _ HI)].
Qed.

(** What [Overlaps] rules out. *)
Lemma Overlaps_free x env d b d' :
  Overlaps x env d = Ok (b, d') →
  d' = d ∧ ∀ y, b = false →
    sql_id (d_LocationID x) = Some (d_LocationID x) → sql_id (d_ID x) = Some (d_ID x) →
    d_LocationID y = d_LocationID x → d_ID y = d_ID x →
    d_StartsAt y = stored_time (d_StartsAt x) → d_EndsAt y = stored_times (d_EndsAt x) →
    d_EndedAt y = None → free_interval y d.
Proof.
  intros Hr. unfold Overlaps in Hr. split_run Hr.
  inv_ok Hr. simplify_eq. split; [done|]. intros y -> Hl Hi Hyl Hyi Hys Hye Hyn.
  unfold WorkflowDisablementOverlap in Hok. inv_ok Hok.
  rewrite Hl, Hi in Hok. intros j z Hz (Hne & Hloc & _ & Hzc). rewrite overlapping_sym.
  apply not_true_iff_false. intros Ho. apply not_true_iff_false in Hok. apply Hok, existsb_exists.
  exists z. split.
  - apply list_elem_of_In, list_elem_of_filter. split; [split_and!; congruence|].
    apply list_elem_of_fmap. exists (j, z). split; [done|]. by apply elem_of_map_to_list.
  - unfold overlapping in Ho. rewrite Hys in Ho. unfold effective_end in *. rewrite Hye, Hyn in Ho. 
    by destruct (stored_times (d_EndsAt x)).
Qed.

Lemma validateDisablement_run x x' :
  validateDisablement x = Ok x' → ∃ reason, x' = x <| d_Reason := reason |>.
Proof. intros Hr. unfold validateDisablement in Hr. inv_ok Hr. eauto. Qed.

Lemma SaveDisablement_new x env d u d' :
  SaveDisablement x 0 env d = Ok (u, d') →
  sql_id (d_ID x) = Some (d_ID x) → sql_id (d_LocationID x) = Some (d_LocationID x) →
  let y := stored_disablement (inserted_disablement (d_ID x) (d_LocationID x) x) in
  disablements d !! d_ID y = None ∧ disablement_text y = true ∧ disablements_check y = true ∧ is_Some (locations d !! d_LocationID y)
  ∧ d' = put_x y d.
Proof.
  intros Hr Hid Hloc. unfold SaveDisablement in Hr. cbn [Z.eqb] in Hr. rewrite Hid, Hloc in Hr. split_run Hr.
  unfold InsertWorkflowDisablement in Hr. cbn [from_option_ok mbind result_mbind] in Hr. inv_ok Hr.
  apply put_disablement_run in Hr as (Ht & Hc & Hl & ->). apply negb_true_iff in Hok.
  split_and!; [|done..]. cbn. by destruct (disablements d !! d_ID x).
Qed.

Lemma SaveDisablement_next xid old x env d u d' :
  Inv d → disablements d !! xid = Some old → sql_id xid = Some xid → d_ID x = d_ID old →
  d_EndedAt old = None → d_CancelledAt old = None →
  d_Revision x = add64 (d_Revision old) 1 → SaveDisablement x (d_Revision old) env d = Ok (u, d') →
  let y := stored_disablement (updated_disablement old x) in
  d_ID y = xid ∧ disablement_ok d (d_ID y) y ∧ next_disablement old y ∧ d' = put_x y d.
Proof.
  intros HI Hold Hxid Hx Hend Hcan Hrev Hr. destruct (iv_disablements _ HI _ _ Hold) as (Hid & Hck & Hmax & Hl & Hst & _).
  pose proof (disablements_check_revision _ Hck) as Hpos. unfold SaveDisablement in Hr.
  replace (d_Revision old =? 0) with false in Hr by lia. split_run Hr. apply Z.eqb_eq in Hr as ->.
  unfold UpdateWorkflowDisablement, LockWorkflowDisablement in Hrun.
  rewrite Hx, Hxid in Hrun. cbn in Hrun. rewrite Hold, Z.eqb_refl in Hrun. inv_ok Hrun. simplify_eq.
  apply put_disablement_run in Hok as (Ht & Hc & Hl' & ->).
  pose proof (disablements_check_revision _ Hc) as Hnext. cbn in Hnext. rewrite Hrev in Hnext.
  destruct (next_revision (d_Revision old)) as [Hn Hle]; [lia|done|].
  split_and!; try done.
  - split_and!; [done|done|cbn; rewrite Hrev; lia|done|apply stored_disablement_idemp|done].
  - split_and!; try done; [exact (f_equal d_CreatedAt Hst)|cbn; by rewrite Hrev].
Qed.

Lemma create_disablement_effect c i now env d id d' :
  Inv d → IsAdmin c = true → sql_id (cd_LocationID i) = Some (cd_LocationID i) →
  uuid_parse (newID env) = Some (newID env) →
  create_disablement c i now env d = Ok (id, d') → effect (of_caller c) (now_ env) d d'.
Proof.
  intros HI Had Hloc Hnew%uuid_sql_id Hr. unfold create_disablement in Hr. split_run Hr.
  apply tx_DisabledLocation_run in Hrun as ->. apply validateDisablement_run in Hrun1 as [reason ->].
  apply negb_true_iff in Hrun3. apply Overlaps_free in Hrun2 as (-> & Hfree).
  apply SaveDisablement_new in Hrun4 as (Hno & Ht & Hc & Hl & ->); [|done..].
  eapply Disabled; [reflexivity|done| |by eapply Hfree|done..].
  split_and!; [done|done|cbn; int64_lia|done|apply stored_disablement_idemp|done].
Qed.

Lemma patched_run i m x x' :
  patched i m x = Ok x' →
  ∃ s e r, x' = x <| d_StartsAt := s |> <| d_EndsAt := e |> <| d_Reason := r |>.
Proof. intros Hr. unfold patched in Hr. apply bind_Ok in Hr as (s & _ & Hr%Ok_inj). eauto. Qed.

(** A disablement is edited only before it starts. *)
Lemma change_body_effect c i m env d x d' :
  Inv d → IsAdmin c = true → change_body i m env d = Ok (x, d') → effect (of_caller c) (now_ env) d d'.
Proof.
  intros HI Had Hr. unfold change_body in Hr. split_run Hr.
  apply tx_Disablement_read in Hrun as (-> & xid & _ & Hxid & Hx & Hok); [|done].
  apply tx_DisabledLocation_run in Hrun0 as ->. apply same_eq in Hrun1. apply Z.eqb_eq in Hrun2.
  destruct (State_open _ _ (or_introl Hrun1)) as [Hend Hcan].
  apply patched_run in Hrun3 as (s0 & e & r & ->). apply validateDisablement_run in Hrun4 as [reason ->].
  apply Overlaps_free in Hrun5 as (-> & Hfree). apply negb_true_iff in Hrun6.
  rewrite <- Hrun2 in Hrun7.
  destruct Hok as (Hid & _ & _ & [l Hl] & _). destruct (iv_locations _ HI _ _ Hl) as (_ & _ & _ & _ & Hlid & _).
  eapply (SaveDisablement_next xid a) in Hrun7 as (Hyid & Hyok & Hnext & ->); try done.
  assert (d' = put_x (stored_disablement (updated_disablement a
    (a <| d_StartsAt := s0 |> <| d_EndsAt := e |> <| d_Reason := r |> <| d_Reason := reason |>
       <| d_Revision := add64 (d_Revision a) 1 |> <| d_UpdatedAt := now_ env |>))) d) as ->.
  { unfold tx_Disablement in Hr. by split_run Hr. }
  eapply Redisabled; [reflexivity| |done| |exact Hnext|done|..]; try done.
  - cbn in *. congruence.
  - apply Hfree; try done; cbn; by rewrite ?Hid, ?Hend.
  - cbn. by rewrite Hend.
  - cbn. by rewrite Hcan.
Qed.

(** Ending what is active, calling off what is to come. *)
Lemma finish_body_effect c id target env d x d' :
  Inv d → IsAdmin c = true → target = Ended ∨ target = DCancelled →
  finish_body id target env d = Ok (x, d') → d' = d ∨ effect (of_caller c) (now_ env) d d'.
Proof.
  intros HI Had Ht Hr. unfold finish_body in Hr. split_run Hr.
  { left. by apply tx_Disablement_read in Hrun as (-> & _). }
  right. apply tx_Disablement_read in Hrun as (-> & xid & _ & Hxid & Hx & Hok); [|done].
  assert (target = Ended ∧ State a (now_ env) = Active ∨ target = DCancelled ∧ State a (now_ env) = Scheduled)
    as Hstate.
  { apply negb_true_iff, orb_false_iff in Hrun0 as [H2 H3].
    destruct Ht as [->| ->]; [left|right]; (split; [done|]); rewrite same_refl in *; cbn in *;
      apply negb_false_iff in H2 || apply negb_false_iff in H3; by apply same_eq. }
  destruct (State_open a (now_ env)) as [Hend Hcan]; [destruct Hstate as [[_ ?]|[_ ?]]; auto|].
  destruct (SaveDisablement_next xid a (finished target (now_ env) a) env d a1 s0) as (Hid & Hyok & Hnext & ->);
    try done; try by (unfold finished; destruct (same target Ended)).
  unfold tx_Disablement in Hr. split_run Hr.
  eapply Finished; [reflexivity|done|done|exact Hnext| |exact Hstate|done].
  unfold finished. by destruct (same target Ended).
Qed.

(** ** Administration *)

Context `{Collation}.

Lemma insertCategories_run id ids env d u d' :
  insertCategories id ids env d = Ok (u, d') →
  d' = d <| location_categories := pairs id ids ∪ location_categories d |>
  ∧ (∀ c, c ∈ ids → is_Some (categories d !! c)).
Proof.
  unfold insertCategories. revert d. induction ids as [|c ids IH]; intros d Hr; simpl in Hr; split_run Hr.
  { split; [|by intros ? ?%elem_of_nil]. unfold pairs. cbn. rewrite union_empty_l_L. by destruct d. }
  unfold InsertLocationCategory in Hrun. inv_ok Hrun. simplify_eq. apply andb_prop in Hok1 as [_ Hc].
  destruct (IH _ Hr) as (-> & Hex). split.
  - by rewrite <- pairs_cons.
  - intros x [->|Hx]%elem_of_cons; [by destruct (categories d !! a0)|by apply Hex].
Qed.

Lemma tx_read_run id env d l d' :
  tx_read id env d = Ok (l, d') → d' = d ∧ reader_GetLocation id (server_now env) d = Ok l.
Proof. intros Hr. unfold tx_read in Hr. by split_run Hr. Qed.

Lemma UpdateLocation_run id expected new d n d' :
  UpdateLocation id expected new d = Ok (d', n) → n ≠ 0 →
  ∃ old, locations d !! id = Some old ∧ lr_Revision old = expected ∧ lr_Revision (new old) ≤ max_int64
    ∧ locations_check (new old) = true ∧ is_Some (buildings d !! lr_BuildingID (new old))
    ∧ d' = d <| locations := <[id := new old]> (locations d) |>.
Proof.
  intros Hr Hn. unfold UpdateLocation in Hr. destruct (locations d !! id) as [old|]; [|by inv_ok Hr; simplify_eq].
  destruct (lr_Revision old =? expected) eqn:Hrev; [|by inv_ok Hr; simplify_eq].
  inv_ok Hr. simplify_eq. exists old. split_and!; try done; [lia..|]. by destruct (buildings d !! _).
Qed.

Lemma admin_ValidateReferences_run i env d u d' : admin_ValidateReferences i env d = Ok (u, d') → d' = d.
Proof. intros Hr. unfold admin_ValidateReferences in Hr. by split_run Hr. Qed.

Lemma admin_Create_run i now env d l d' :
  sql_id (newID env) = Some (newID env) → admin_Create i now env d = Ok (l, d') →
  ∃ b ids c, uuid_parse (i_BuildingID i) = Some b ∧ parseCategoryIDs [] (i_CategoryIDs i) = Ok ids
    ∧ i_Coordinates i = Some c
    ∧ located (written_row i b c (fresh_row (newID env) now (server_now env))) d d' ids ids
    ∧ reader_GetLocation (newID env) (server_now env) d' = Ok l.
Proof.
  intros Hnew Hr. unfold admin_Create in Hr. split_run Hr. apply tx_read_run in Hr as (-> & Hread).
  inv_ok Hrun. apply InsertLocation_run in Hrun2 as (Hno & Hc & Hb & ->).
  apply insertCategories_run in Hrun3 as (-> & Hex). exists a, a0, a1. split_and!; try done.
  split; try done. apply canonical_self. by apply parseCategoryIDs_ok in Hrun0 as [? _].
Qed.

Lemma create_location_effect (c : AuthCaller) i i0 now env d id d' :
  normalizeInput i0 = Ok i → ac_Admin c = true → uuid_parse (newID env) = Some (newID env) →
  create_location i now env d = Ok (id, d') → effect (of_auth c) (now_ env) d d'.
Proof.
  intros Hnorm Had Hnew%uuid_sql_id Hr. unfold create_location in Hr. split_run Hr.
  apply admin_ValidateReferences_run in Hrun as ->.
  apply admin_Create_run in Hrun0 as (b & ids & co & _ & Hids & _ & Hl & _); [|done].
  eapply Created; [exact Hl|done| |done|done]. cbn. rewrite (normalizeInput_supplier _ _ Hnorm).
  by apply parseCategoryIDs_ok in Hids as [_ Hids]; apply Hids.
Qed.

(** The Location that is locked. *)
Lemma GetForUpdate_run id env d l d' :
  GetForUpdate id env d = Ok (l, d') →
  d' = d ∧ ∃ uid row b, uuid_parse id = Some uid ∧ locations d !! uid = Some row
    ∧ buildings d !! lr_BuildingID row = Some b ∧ l = toLocation d d (server_now env) (row, b).
Proof.
  intros Hr. unfold GetForUpdate in Hr. split_run Hr. apply tx_read_run in Hr as (-> & Hr). split; [done|].
  unfold reader_GetLocation in Hr. inv_ok Hr. unfold joined in *. exists a, a0.
  assert (a1 = a) as -> by congruence. rewrite Hrun0 in Hok0. cbn in Hok0.
  destruct (buildings d !! lr_BuildingID a0) as [b|]; [|done]. injection Hok0 as <-. by exists b.
Qed.

Lemma admin_update_body_effect (c : AuthCaller) r a env d l d' :
  Inv d → ac_Admin c = true → admin_update_body r a env d = Ok (l, d') → effect (of_auth c) (now_ env) d d'.
Proof.
  intros HI Had Hr. unfold admin_update_body, admin_Update in Hr. split_run Hr.
  apply GetForUpdate_run in Hrun as (-> & uid & row & b & Huid & Hrow & Hb & ->).
  apply admin_ValidateReferences_run in Hrun2 as ->. inv_ok Hrun3. assert (a4 = uid) as -> by congruence.
  apply UpdateLocation_run in Hrun7 as (old & Hold & Hrev & Hmax & Hck & Hbo & ->); [|lia].
  apply insertCategories_run in Hrun9 as (-> & Hex). apply tx_read_run in Hr as (-> & _).
  destruct (iv_locations _ HI _ _ Hold) as (Hid & _). apply parseCategoryIDs_ok in Hrun5 as [_ Hids].
  eapply Rewritten; [exact Hold|..|reflexivity|done]; try done. cbn.
  rewrite (normalizeInput_supplier _ _ Hrun1). by apply Hids.
Qed.

Lemma archive_body_effect (c : AuthCaller) archive id env d l d' :
  Inv d → ac_Admin c = true → archive_body archive id env d = Ok (l, d') →
  d' = d ∨ effect (of_auth c) (now_ env) d d'.
Proof.
  intros HI Had Hr. unfold archive_body, SetArchived in Hr. split_run Hr.
  { left. by apply GetForUpdate_run in Hrun as (-> & _). }
  right. apply GetForUpdate_run in Hrun as (-> & uid & row & b & Huid & Hrow & Hb' & ->).
  inv_ok Hrun0. assert (a0 = uid) as -> by congruence. apply tx_read_run in Hr as (-> & _).
  apply UpdateLocation_run in Hrun1 as (old & Hold & _ & Hmax & _ & _ & ->); [|lia].
  assert (old = row) as -> by congruence.
  eapply Archived; [exact Hold| |exact Hmax|reflexivity|done].
  cbn in Hb. apply eqb_false_iff in Hb. by destruct archive.
Qed.

(** ** Calls *)

Inductive operation :=
| OSubmit (c : Caller) (p : Proposal) (key : string)
| OGetRequest (c : Caller) (id : string)
| OListRequests (c : Caller) (status : RequestStatus) (p : Page)
| OUpdateRequest (c : Caller) (i : UpdateRequestInput)
| OWithdraw (c : Caller) (id : string)
| OReject (c : Caller) (id note : string) (expected : Z)
| OApprove (c : Caller) (id : string) (expected : Z)
| OCreateDisablement (c : Caller) (i : CreateDisablementInput)
| OListDisablements (c : Caller) (location : string) (state : DisablementState) (p : Page)
| OUpdateDisablement (c : Caller) (i : UpdateDisablementInput)
| OEnd (c : Caller) (id : string)
| OCancel (c : Caller) (id : string)
| OCreate (c : option AuthCaller) (r : CreateLocationInput)
| OUpdate (c : option AuthCaller) (r : UpdateLocationInput)
| OArchive (c : option AuthCaller) (id : string)
| OUnarchive (c : option AuthCaller) (id : string).

Definition perform (o : operation) (env : Env) (fl : Faults) (d : SDB) : SDB :=
  match o with
  | OSubmit c p key => (SubmitRequest c p key env fl d).2
  | OGetRequest c id => (GetRequest c id env fl d).2
  | OListRequests c status p => (ListRequests c status p env fl d).2
  | OUpdateRequest c i => (UpdateRequest c i env fl d).2
  | OWithdraw c id => (WithdrawRequest c id env fl d).2
  | OReject c id note expected => (RejectRequest c id note expected env fl d).2
  | OApprove c id expected => (ApproveRequest c id expected env fl d).2
  | OCreateDisablement c i => (CreateDisablement c i env fl d).2
  | OListDisablements c location state p => (ListDisablements c location state p env fl d).2
  | OUpdateDisablement c i => (UpdateDisablement c i env fl d).2
  | OEnd c id => (EndDisablement c id env fl d).2
  | OCancel c id => (CancelDisablement c id env fl d).2
  | OCreate c r => (Create c r env fl d).2
  | OUpdate c r => (Update c r env fl d).2
  | OArchive c id => (Archive c id env fl d).2
  | OUnarchive c id => (Unarchive c id env fl d).2
  end.

(** Who calls; no caller is no actor. *)
Definition actor (o : operation) : Actor :=
  match o with
  | OSubmit c _ _ | OGetRequest c _ | OListRequests c _ _ | OUpdateRequest c _ | OWithdraw c _
  | OReject c _ _ _ | OApprove c _ _ | OCreateDisablement c _ | OListDisablements c _ _ _
  | OUpdateDisablement c _ | OEnd c _ | OCancel c _ => of_caller c
  | OCreate c _ | OUpdate c _ | OArchive c _ | OUnarchive c _ =>
      match c with Some c => of_auth c | None => {| at_ID := EmptyString; at_Admin := false |} end
  end.

(** The states differ in the keys of idempotent calls only, and no key that is
    still valid changed. *)
Definition but_keys (now : Time) (d d' : SDB) : Prop :=
  d' = d <| supplier_idempotency := supplier_idempotency d' |>
  ∧ ∀ key k, supplier_idempotency d !! key = Some k → stored_time now < ky_ExpiresAt k →
      supplier_idempotency d' !! key = Some k.

(** At most one effect, and keys. *)
Definition outcome (a : Actor) (now : Time) (d d' : SDB) : Prop :=
  ∃ d1 d2, but_keys now d d1 ∧ (d2 = d1 ∨ effect a now d1 d2) ∧ but_keys now d2 d'.

Lemma but_keys_refl now d : but_keys now d d.
Proof. split; [by destruct d|done]. Qed.

Lemma outcome_refl a now d : outcome a now d d.
Proof. exists d, d. split_and!; [apply but_keys_refl|by left|apply but_keys_refl]. Qed.
Lemma outcome_effect a now d d' : d' = d ∨ effect a now d d' → outcome a now d d'.
Proof. intros He. exists d, d'. split_and!; [apply but_keys_refl|done|apply but_keys_refl]. Qed.

Lemma but_keys_Inv now d d' : Inv d → but_keys now d d' → Inv d' ∧ grown d d'.
Proof. intros HI [-> _]. by apply keys_Inv. Qed.

Lemma outcome_Inv a now d d' : Inv d → outcome a now d d' → Inv d' ∧ grown d d'.
Proof.
  intros HI (d1 & d2 & H1' & H2' & H3').
  destruct (but_keys_Inv _ _ _ HI H1') as [HI1 Hg1].
  assert (Inv d2 ∧ grown d1 d2) as [HI2 Hg2].
  { destruct H2' as [->|He]; [done|by eapply effect_Inv]. }
  destruct (but_keys_Inv _ _ _ HI2 H3') as [HI3 Hg3]. split; [done|]. etrans; [done|by etrans].
Qed.

(** No effect touches a key. *)
Lemma effect_keys a now d d' : effect a now d d' → supplier_idempotency d' = supplier_idempotency d.
Proof.
  intros He. destruct He; repeat match goal with
  | Hs : saved _ _ _ _ _ _ |- _ => apply sv_after in Hs
  | Hl : located _ _ _ _ _ |- _ => apply lo_after in Hl
  end; by subst.
Qed.

Lemma outcome_key a now d d' key k :
  outcome a now d d' → supplier_idempotency d !! key = Some k → stored_time now < ky_ExpiresAt k →
  supplier_idempotency d' !! key = Some k.
Proof.
  intros (d1 & d2 & [_ H1'] & H2' & [_ H3']) Hk Hnow. apply H3'; [|done].
  destruct H2' as [->|He]; [by apply H1'|]. rewrite (effect_keys _ _ _ _ He). by apply H1'.
Qed.

Lemma forget_expired_keys s key now d : but_keys now d (forget_expired s key now d).
Proof.
  unfold forget_expired, DeleteExpiredIdempotency.
  destruct (supplier_idempotency d !! _) as [k|] eqn:Hk; [|apply but_keys_refl].
  destruct (ky_ExpiresAt k <=? stored_time now) eqn:Hx; [|apply but_keys_refl].
  split; [done|]. intros key' k' Hk' Hnow. cbn. rewrite lookup_delete_ne; [done|].
  intros <-. simplify_eq. lia.
Qed.

Lemma remember_keys s key hash id now d :
  supplier_idempotency d !! (s_Caller s, s_Method s, key) = None → but_keys now d (remember s key hash id now d).
Proof.
  intros Hno. split; [done|]. intros key' k' Hk' _. cbn. rewrite lookup_insert_ne; [done|]. congruence.
Qed.

(** A call that runs once per key. *)
Lemma Run_outcome report s hash create a env d id d' :
  Inv d →
  (∀ d id d', Inv d → create (now_ env) env d = Ok (id, d') → effect a (now_ env) d d') →
  Run report s hash create env d = Ok (id, d') → outcome a (now_ env) d d'.
Proof.
  intros HI Hc (key & Hkey & [(k & _ & _ & _ & ->)|(Hno & d2 & rid & Hcr & _ & ->)])%Run_run.
  - exists (forget_expired s key (now_ env) d), (forget_expired s key (now_ env) d).
    split_and!; [apply forget_expired_keys|by left|apply but_keys_refl].
  - pose proof (forget_expired_keys s key (now_ env) d) as Hk.
    assert (effect a (now_ env) (forget_expired s key (now_ env) d) d2) as He.
    { eapply Hc; [|done]. by eapply but_keys_Inv. }
    exists (forget_expired s key (now_ env) d), d2. split_and!; [done|by right|].
    apply remember_keys. by rewrite (effect_keys _ _ _ _ He).
Qed.

Lemma tx_Request_keeps id env d q d' : tx_Request id env d = Ok (q, d') → d' = d.
Proof. by intros (-> & _)%tx_Request_run. Qed.
Lemma tx_Disablement_keeps id env d x d' : tx_Disablement id env d = Ok (x, d') → d' = d.
Proof. intros Hr. unfold tx_Disablement in Hr. by split_run Hr. Qed.

(** A call whose body has an outcome has it. *)
Lemma call_outcome report {A B} (args : result Error A) (body : A → Tx B) a env fl d :
  (∀ x b d', args = Ok x → body x env d = Ok (b, d') → outcome a (now_ env) d d') →
  outcome a (now_ env) d (call report args body env fl d).2.
Proof.
  intros Hb. destruct (call report args body env fl d) as [out d'] eqn:Hc.
  apply call_ran in Hc as [->|(x & b & Hx & Hr & _)]; [apply outcome_refl|by eapply Hb].
Qed.

Lemma requireAdmin_ok c u : requireAdmin c = Ok u → IsAdmin c = true.
Proof. intros Hr. unfold requireAdmin in Hr. by inv_ok Hr. Qed.

Lemma submit_body_outcome c key p env d q d' :
  Inv d → submit_body c key p env d = Ok (q, d') → outcome (of_caller c) (now_ env) d d'.
Proof.
  intros HI Hr. unfold submit_body, idempotent in Hr. split_run Hr. apply tx_Request_keeps in Hr as ->.
  eapply Run_outcome; [done| |exact Hrun]. intros. by eapply create_request_effect.
Qed.

Lemma create_body_outcome c i i0 env d x d' :
  Inv d → uuid_parse (newID env) = Some (newID env) → create_arguments c i0 = Ok i →
  create_body c i env d = Ok (x, d') → outcome (of_caller c) (now_ env) d d'.
Proof.
  intros HI Hnew Hargs Hr. unfold create_body, idempotent in Hr. split_run Hr.
  apply tx_Disablement_keeps in Hr as ->. unfold create_arguments in Hargs. inv_ok Hargs. subst i.
  apply requireAdmin_ok in Hok. apply from_option_ok_Ok, uuid_sql_id in Hok0.
  eapply Run_outcome; [done| |exact Hrun]. intros d1 id1 d1' HI1 Hc. by eapply create_disablement_effect in Hc.
Qed.

Lemma requireLocationAdmin_ok c a : requireLocationAdmin c = Ok a → c = Some a ∧ ac_Admin a = true.
Proof.
  unfold requireLocationAdmin. intros Hr. destruct c as [c|]; [|done].
  destruct (_ && _); [|done]. inv_ok Hr. by subst a.
Qed.

Lemma admin_create_body_outcome c r x env d l d' :
  Inv d → uuid_parse (newID env) = Some (newID env) → admin_create_arguments c r = Ok x →
  admin_create_body x env d = Ok (l, d') → outcome (actor (OCreate c r)) (now_ env) d d'.
Proof.
  intros HI Hnew Hargs Hr. unfold admin_create_arguments in Hargs. inv_ok Hargs. subst x.
  unfold admin_create_body in Hr. split_run Hr. apply GetForUpdate_run in Hr as (-> & _).
  apply requireLocationAdmin_ok in Hok as [-> Had].
  eapply Run_outcome; [done| |exact Hrun]. intros d1 id1 d1' HI1 Hc. by eapply create_location_effect.
Qed.

(** Every call, under any fault, has one outcome. *)
Lemma perform_outcome o env fl d :
  Inv d → uuid_parse (newID env) = Some (newID env) →
  outcome (actor o) (now_ env) d (perform o env fl d).
Proof.
  intros HI Hnew. destruct o; cbn [perform actor]; apply call_outcome; intros x b' d' Hx Hr.
  - by eapply submit_body_outcome.
  - split_run Hr. apply tx_Request_keeps in Hrun as ->. apply outcome_refl.
  - unfold ListRequests_rows in Hr. split_run Hr. apply outcome_refl.
  - by eapply outcome_effect, or_intror, update_body_effect.
  - eapply outcome_effect, transition_body_effect; [done| |done]. by left.
  - eapply outcome_effect, transition_body_effect; [done| |done]. right.
    unfold transition_arguments in Hx. inv_ok Hx. cbn in Hok0. by split; [left|].
  - eapply outcome_effect, transition_body_effect; [done| |done]. right.
    unfold transition_arguments in Hx. inv_ok Hx. cbn in Hok0. by split; [right; left|].
  - by eapply create_body_outcome.
  - unfold ListDisablements_rows in Hr. split_run Hr. apply tx_DisabledLocation_run in Hrun as ->.
    apply outcome_refl.
  - unfold change_arguments in Hx. inv_ok Hx. apply requireAdmin_ok in Hok.
    by eapply outcome_effect, or_intror, change_body_effect.
  - inv_ok Hx. apply requireAdmin_ok in Hok. eapply outcome_effect, finish_body_effect; [done|done|by left|done].
  - inv_ok Hx. apply requireAdmin_ok in Hok. eapply outcome_effect, finish_body_effect; [done|done|by right|done].
  - by eapply admin_create_body_outcome.
  - unfold admin_update_arguments in Hx. inv_ok Hx. apply requireLocationAdmin_ok in Hok as [-> Had].
    by eapply outcome_effect, or_intror, admin_update_body_effect.
  - inv_ok Hx. apply requireLocationAdmin_ok in Hok as [-> Had]. by eapply outcome_effect, archive_body_effect.
  - inv_ok Hx. apply requireLocationAdmin_ok in Hok as [-> Had]. by eapply outcome_effect, archive_body_effect.
Qed.

(** ** Steps *)

(** A call in surroundings that [sees] admits; identifiers are drawn canonical. *)
Definition supplier_step (sees : Env → Prop) (d d' : SDB) : Prop :=
  ∃ o env fl, sees env ∧ uuid_parse (newID env) = Some (newID env) ∧ d' = perform o env fl d.

Lemma supplier_step_Inv sees d d' : Inv d → supplier_step sees d d' → Inv d' ∧ grown d d'.
Proof.
  intros HI (o & env & fl & _ & Hnew & ->). by eapply outcome_Inv, perform_outcome.
Qed.

Lemma supplier_steps_Inv sees d d' : Inv d → rtc (supplier_step sees) d d' → Inv d' ∧ grown d d'.
Proof.
  intros HI Hr. induction Hr as [d|d d1 d' Hs _ IH]; [done|].
  destruct (supplier_step_Inv _ _ _ HI Hs) as [HI1 Hg]. destruct (IH HI1) as [HI' Hg'].
  split; [done|by etrans].
Qed.

Lemma supplier_step_key sees d d' key k :
  Inv d → (∀ env, sees env → stored_time (now_ env) < ky_ExpiresAt k) →
  supplier_step sees d d' → supplier_idempotency d !! key = Some k → supplier_idempotency d' !! key = Some k.
Proof.
  intros HI Hs (o & env & fl & Hsee & Hnew & ->) Hk. eapply outcome_key; [by apply perform_outcome|done|by apply Hs].
Qed.

(** A key stays as long as it is valid. *)
Lemma supplier_steps_key sees d d' key k :
  Inv d → (∀ env, sees env → stored_time (now_ env) < ky_ExpiresAt k) →
  rtc (supplier_step sees) d d' → supplier_idempotency d !! key = Some k →
  supplier_idempotency d' !! key = Some k.
Proof.
  intros HI Hs Hr Hk. induction Hr as [d|d d1 d' Hst _ IH]; [done|].
  apply IH; [by eapply supplier_step_Inv|by eapply supplier_step_key].
Qed.

End bodies.
