(* ===== verification/SupplierRefinement.v ===== *)
(** * Supplier: the directory that the service promises

    An abstract specification: places, open or archived; petitions to add one,
    each open until it is withdrawn, rejected or listed as a place; outages of a
    place, intervals no two of which share an instant. [directory] reads it off
    the database, and every call of the service, under any fault, is one step of
    the directory or none. *)
From stdpp Require Import prelude gmap strings list.
From Stdlib Require Import ZArith Lia SpecFloat.
From S2P Require Import Prelude.
From S2P Require Import GoLib.
From S2P Require Import GoText.
From S2P Require Import GoFloat.
From S2P Require Import SupplierTypes.
From S2P Require Import SupplierProposal.
From S2P Require Import SupplierDB.
From S2P Require Import SupplierStore.
From S2P Require Import SupplierRequests.
From S2P Require Import SupplierAdmin.
From S2P Require Import SupplierRuns.
From S2P Require Import SupplierInvariant.
From S2P Require Import SupplierSteps.

Local Open Scope Z_scope.
Local Open Scope foc_scope.

(** ** The specification *)

Inductive Phase := PhOpen | PhWithdrawn | PhRejected | PhListed (place : string).

Record Outage := { og_Place : string; og_From : Time; og_Until : option Time }.

Record Directory := {
  (** By identifier, whether the place is archived. *)
  places : gmap string bool;
  (** By identifier, who petitions and what became of it. *)
  petitions : gmap string (string * Phase);
  outages : gmap string Outage;
}.

(** The instants of an outage. *)
Definition covers (g : Outage) (t : Time) : Prop :=
  og_From g ≤ t ∧ match og_Until g with Some e => t < e | None => True end.

(** No instant of [g] at its place is an instant of another outage there. *)
Definition clear (o : string) (g : Outage) (D : Directory) : Prop :=
  ∀ o' g' t, outages D !! o' = Some g' → o' ≠ o → og_Place g' = og_Place g → covers g t → covers g' t → False.

Definition with_petition (id by_ : string) (p : Phase) (D : Directory) : Directory :=
  {| places := places D; petitions := <[id := (by_, p)]> (petitions D); outages := outages D |}.
Definition with_place (l : string) (archived : bool) (D : Directory) : Directory :=
  {| places := <[l := archived]> (places D); petitions := petitions D; outages := outages D |}.
Definition with_outage (o : string) (g : Outage) (D : Directory) : Directory :=
  {| places := places D; petitions := petitions D; outages := <[o := g]> (outages D) |}.
Definition without_outage (o : string) (D : Directory) : Directory :=
  {| places := places D; petitions := petitions D; outages := delete o (outages D) |}.

Inductive directory_step (a : Actor) (now : Time) (D : Directory) : Directory → Prop :=
| DPetition id :
    petitions D !! id = None → directory_step a now D (with_petition id (at_ID a) PhOpen D)
| DWithdraw id :
    petitions D !! id = Some (at_ID a, PhOpen) →
    directory_step a now D (with_petition id (at_ID a) PhWithdrawn D)
| DReject id by_ :
    at_Admin a = true → petitions D !! id = Some (by_, PhOpen) →
    directory_step a now D (with_petition id by_ PhRejected D)
| DList id by_ l :
    at_Admin a = true → petitions D !! id = Some (by_, PhOpen) → places D !! l = None →
    directory_step a now D (with_petition id by_ (PhListed l) (with_place l false D))
| DOpen l :
    at_Admin a = true → places D !! l = None → directory_step a now D (with_place l false D)
| DArchive l archived :
    at_Admin a = true → places D !! l = Some archived →
    directory_step a now D (with_place l (negb archived) D)
| DSchedule o g :
    at_Admin a = true → outages D !! o = None → is_Some (places D !! og_Place g) → clear o g D →
    directory_step a now D (with_outage o g D)
| DMove o g g' :
    at_Admin a = true → outages D !! o = Some g → now < og_From g → og_Place g' = og_Place g →
    clear o g' D → directory_step a now D (with_outage o g' D)
| DShorten o g t :
    at_Admin a = true → outages D !! o = Some g → covers g now → t = stored_time now → og_From g ≤ t →
    directory_step a now D (with_outage o {| og_Place := og_Place g; og_From := og_From g; og_Until := Some t |} D)
| DCallOff o g :
    at_Admin a = true → outages D !! o = Some g → now < og_From g →
    directory_step a now D (without_outage o D).

(** ** The directory of a database *)

Definition phase_of (r : RequestRow) : Phase :=
  match rr_Status r with
  | Approved => PhListed (default EmptyString (rr_ResultingLocationID r))
  | Rejected => PhRejected
  | Withdrawn => PhWithdrawn
  | Pending | OtherStatus _ => PhOpen
  end.

Definition petition_of (r : RequestRow) : string * Phase := (rr_SubmittedBy r, phase_of r).
Definition archived_of (r : LocationRow) : bool := is_some (lr_ArchivedAt r).

(** A disablement that was called off is no outage. *)
Definition outage_of (x : Disablement) : option Outage :=
  if is_some (d_CancelledAt x) then None
  else Some {| og_Place := d_LocationID x; og_From := d_StartsAt x; og_Until := effective_end x |}.

Definition directory (d : SDB) : Directory := {|
  places := archived_of <$> locations d;
  petitions := petition_of <$> requests d;
  outages := omap outage_of (disablements d) |}.

(** ** Intervals *)

(** Ranges overlap when an instant is in both. *)
Lemma ranges_overlap_covers x y t g h :
  overlapping x y = false → outage_of x = Some g → outage_of y = Some h → covers g t → covers h t → False.
Proof.
  unfold overlapping, outage_of, covers. intros Ho Hg Hh.
  destruct (d_CancelledAt x), (d_CancelledAt y); try done. revert Hg Hh. intros [= <-] [= <-]; cbn.
  unfold ranges_overlap, range_empty, opt_check in Ho.
  destruct (effective_end x), (effective_end y); lia.
Qed.

Lemma outage_of_open x g : outage_of x = Some g → d_CancelledAt x = None ∧ og_Place g = d_LocationID x.
Proof. unfold outage_of. destruct (d_CancelledAt x); [done|]. by intros [= <-]. Qed.

Lemma outages_lookup d o g :
  outages (directory d) !! o = Some g ↔ ∃ x, disablements d !! o = Some x ∧ outage_of x = Some g.
Proof. cbn. by rewrite lookup_omap_Some; split; intros (x & ? & ?); exists x. Qed.

Section refinement.
  Context `{UUID, !UUIDLaws}.

Lemma free_clear x g d :
  Inv d → free_interval x d → outage_of x = Some g → clear (d_ID x) g (directory d).
Proof.
  intros HI Hfree Hg o' g' t (y & Hy & Hg')%outages_lookup Hne Hpl Ht Ht'.
  destruct (outage_of_open _ _ Hg) as [Hx Hxl], (outage_of_open _ _ Hg') as [Hyc Hyl].
  destruct (iv_disablements _ HI _ _ Hy) as (Hid & _).
  eapply (ranges_overlap_covers x y); [eapply Hfree; [exact Hy|]|done..].
  split_and!; try done; congruence.
Qed.

(** The parts of the directory that a write touches. *)
Lemma directory_eq d d' :
  archived_of <$> locations d' = archived_of <$> locations d →
  petition_of <$> requests d' = petition_of <$> requests d →
  omap outage_of (disablements d') = omap outage_of (disablements d) → directory d' = directory d.
Proof. unfold directory. by intros -> -> ->. Qed.

Lemma directory_saved q d d' id r ids :
  saved q d d' id r ids → directory d' = with_petition id (rr_SubmittedBy r) (phase_of r) (directory d).
Proof. intros [_ _ _ _ _ _ _ _ ->]. unfold directory, with_petition. cbn. by rewrite fmap_insert. Qed.

Lemma directory_located l d d' raw ids :
  located l d d' raw ids → directory d' = with_place (lr_ID l) (archived_of l) (directory d).
Proof. intros [_ _ _ _ _ _ ->]. unfold directory, with_place. cbn. by rewrite fmap_insert. Qed.

Lemma directory_put x d :
  directory (put_x x d) =
    match outage_of x with
    | Some g => with_outage (d_ID x) g (directory d)
    | None => without_outage (d_ID x) (directory d)
    end.
Proof.
  unfold directory, put_x. cbn. rewrite omap_insert. by destruct (outage_of x).
Qed.

Lemma petition_lookup d id r :
  requests d !! id = Some r → rr_Status r = Pending → petitions (directory d) !! id = Some (rr_SubmittedBy r, PhOpen).
Proof. intros Hr Hp. cbn. rewrite lookup_fmap, Hr. cbn. unfold petition_of, phase_of. by rewrite Hp. Qed.

Lemma place_lookup d id r :
  locations d !! id = Some r → places (directory d) !! id = Some (is_some (lr_ArchivedAt r)).
Proof. intros Hr. cbn. by rewrite lookup_fmap, Hr. Qed.

Lemma place_none d id : locations d !! id = None → places (directory d) !! id = None.
Proof. intros Hr. cbn. by rewrite lookup_fmap, Hr. Qed.

Lemma insert_same_petition d id r old :
  requests d !! id = Some old → rr_Status old = Pending → rr_Status r = Pending →
  rr_SubmittedBy r = rr_SubmittedBy old →
  with_petition id (rr_SubmittedBy r) (phase_of r) (directory d) = directory d.
Proof.
  intros Hold Ho Hr Hby. unfold with_petition. cbn. rewrite insert_id; [done|].
  rewrite lookup_fmap, Hold. cbn. unfold petition_of, phase_of. by rewrite Ho, Hr, Hby.
Qed.

Lemma outage_of_standing x :
  d_CancelledAt x = None →
  outage_of x = Some {| og_Place := d_LocationID x; og_From := d_StartsAt x; og_Until := effective_end x |}.
Proof. unfold outage_of. by intros ->. Qed.

Lemma active_covers x now g : State x now = Active → outage_of x = Some g → covers g now.
Proof.
  intros Ha. destruct (State_open x now) as [Hend _]; [by right|]. apply active_within in Ha as [Hs He].
  unfold outage_of, covers, effective_end. rewrite Hend. destruct (d_CancelledAt x); [done|].
  intros [= <-]. cbn. by destruct (d_EndsAt x).
Qed.

(** Ending now leaves the part of the interval before now. *)
Lemma finished_outage now old d i :
  disablement_ok d i (stored_disablement (finished Ended now old)) → d_CancelledAt old = None →
  stored_disablement old = old →
  d_StartsAt old ≤ stored_time now ∧
  outage_of (stored_disablement (finished Ended now old)) =
    Some {| og_Place := d_LocationID old; og_From := d_StartsAt old; og_Until := Some (stored_time now) |}.
Proof.
  intros (_ & (_ & _ & Hck)%disablements_check_split & _) Hc Hst.
  set (x := stored_disablement (finished Ended now old)) in *.
  assert (d_StartsAt x = d_StartsAt old) as Hs by exact (f_equal d_StartsAt Hst).
  assert (d_EndedAt x = Some (stored_time now)) as Hn by done.
  assert (d_CancelledAt x = None) as Hxc by (change (stored_times (d_CancelledAt old) = None); by rewrite Hc).
  assert (d_LocationID x = d_LocationID old) as Hl by done.
  clearbody x. rewrite Hn, Hs in Hck. cbn [opt_check] in Hck.
  unfold outage_of, effective_end. rewrite Hxc, Hs, Hn, Hl. cbn [is_some].
  destruct (d_EndsAt x) as [e|]; cbn [least opt_check] in *; (split; [lia|]); [|done].
  rewrite Z.min_r by lia. done.
Qed.

Lemma effect_refines a now d d' :
  Inv d → effect a now d d' → directory d' = directory d ∨ directory_step a now (directory d) (directory d').
Proof.
  intros HI He. destruct He as
    [q id r ids Hs Hnew Hp Hby Hrev|q id r ids old Hs Hold Hn Hst Hby|q id r ids old Hs Hold Hn Hst
    |q id r ids old l raw lids d1 Hl Hlr Hlsup Hla Hs Hold Hn Hst Hres Had
    |x -> Hnew Hok Hfree He Hc Had|old x -> Hold Hok Hfree Hn Hst He Hc Had|old x target -> Hold Hok Hn Hx Ht Had
    |l raw lids Hl Hlr Hlsup Hla Had|id old r ids Hold Hid Hc Hrev Hmax Hck Hb Hex Hsup Har -> Had
    |id old server t Hold Har r Hmax -> Had].
  - right. rewrite (directory_saved _ _ _ _ _ _ Hs). unfold phase_of. rewrite Hp, Hby.
    apply DPetition. cbn. by rewrite lookup_fmap, Hnew.
  - left. rewrite (directory_saved _ _ _ _ _ _ Hs). destruct Hn as (Hp & _ & Hby' & _).
    by eapply insert_same_petition.
  - right. rewrite (directory_saved _ _ _ _ _ _ Hs). destruct Hn as (Hp & _ & Hby' & _).
    pose proof (petition_lookup _ _ _ Hold Hp) as Hpet. rewrite Hby'. unfold phase_of.
    destruct Hst as [[-> Ha]|[-> Ha]].
    + rewrite <- Ha in *. by apply DWithdraw.
    + by apply DReject.
  - right. rewrite (directory_saved _ _ _ _ _ _ Hs), (directory_located _ _ _ _ _ Hl).
    destruct Hn as (Hp & _ & Hby' & _). pose proof (petition_lookup _ _ _ Hold Hp) as Hpet.
    rewrite Hby'. unfold phase_of, archived_of. rewrite Hst, Hres, Hla. cbn [default is_some].
    apply DList; [done|done|]. by apply place_none, (lo_new _ _ _ _ _ Hl).
  - right. pose proof (outage_of_standing _ Hc) as Hg. rewrite directory_put, Hg.
    apply DSchedule; [done|cbn; by rewrite lookup_omap, Hnew| |by eapply free_clear].
    destruct Hok as (_ & _ & _ & [l Hl] & _). cbn. by rewrite lookup_fmap, Hl.
  - right. pose proof (outage_of_standing _ Hc) as Hg. rewrite directory_put, Hg.
    destruct Hn as (Ho1 & Ho2 & _ & Hloc & _). pose proof (outage_of_standing _ Ho2) as Hg0.
    eapply DMove; [done|apply outages_lookup; eauto|by apply scheduled_starts|done|by eapply free_clear].
  - right. destruct Hn as (Ho1 & Ho2 & _ & Hloc & _). pose proof (outage_of_standing _ Ho2) as Hg0.
    destruct (iv_disablements _ HI _ _ Hold) as (_ & _ & _ & _ & Hst & _).
    rewrite directory_put. destruct Ht as [[-> Hs]|[-> Hs]].
    + rewrite Hx in Hok. destruct (finished_outage _ _ _ _ Hok Ho2 Hst) as [Hle Hg]. rewrite <- Hx in Hg.
      rewrite Hg. apply (DShorten a now (directory d) (d_ID x)
        {| og_Place := d_LocationID old; og_From := d_StartsAt old; og_Until := effective_end old |});
        [done|apply outages_lookup; eauto|by eapply active_covers|done|done].
    + assert (outage_of x = None) as -> by (by rewrite Hx).
      eapply DCallOff; [done|apply outages_lookup; eauto|by apply scheduled_starts].
  - right. rewrite (directory_located _ _ _ _ _ Hl). unfold archived_of. rewrite Hla.
    apply DOpen; [done|]. by apply place_none, (lo_new _ _ _ _ _ Hl).
  - left. apply directory_eq; cbn; [|done..]. rewrite fmap_insert. apply insert_id.
    rewrite lookup_fmap, Hold. cbn. unfold archived_of. by rewrite Har.
  - right. unfold directory at 2. cbn. rewrite fmap_insert.
    replace (archived_of r) with (negb (archived_of old)).
    + apply (DArchive _ _ (directory d) id (archived_of old)); [done|]. by apply place_lookup.
    + subst r. unfold archived_of. cbn. by destruct (is_some (lr_ArchivedAt old)), (is_some t).
Qed.

(** One call is at most one step of the directory. *)
Lemma outcome_refines a now d d' :
  Inv d → outcome a now d d' →
  directory d' = directory d ∨ directory_step a now (directory d) (directory d').
Proof.
  intros HI (d1 & d2 & H1 & H2 & H3).
  destruct (but_keys_Inv _ _ _ HI H1) as [HI1 _]. destruct H1 as [H1 _], H3 as [H3 _].
  assert (directory d1 = directory d) as <- by (by rewrite H1).
  assert (directory d' = directory d2) as -> by (by rewrite H3).
  destruct H2 as [->|He]; [by left|by apply effect_refines].
Qed.

End refinement.
