(* ===== verification/SupplierExamples.v ===== *)
(** * Supplier: a concrete run

    A proposal from its submission to the Location that its approval creates, the
    disablements of that Location, and the replay of each call: the inputs at
    which the theorems are exercised. *)
From stdpp Require Import prelude gmap strings list relations.
From Stdlib Require Import ZArith Lia SpecFloat.
From S2P Require Import Prelude.
From S2P Require Import GoLib.
From S2P Require Import GoText.
From S2P Require Import GoFloat.
From S2P Require Import SupplierTypes.
From S2P Require Import SupplierProposal.
From S2P Require Import SupplierDB.
From S2P Require Import SupplierStore.
From S2P Require Import SupplierRequests.
From S2P Require Import SupplierAdmin.
From S2P Require Import SupplierInvariant.
From S2P Require Import SupplierSteps.

Local Open Scope Z_scope.
Local Open Scope foc_scope.

#[export] Instance ex_supplier_uuid : UUID := example_uuid.
#[export] Instance ex_supplier_laws : UUIDLaws := example_uuid_laws.
#[export] Instance ex_supplier_collation : Collation := λ s, s.

(** A digest of 64 hexadecimal digits that tells texts of odd length apart. *)
Definition sixteen (c : string) : string := c +:+ c +:+ c +:+ c +:+ c +:+ c +:+ c +:+ c
  +:+ c +:+ c +:+ c +:+ c +:+ c +:+ c +:+ c +:+ c.
#[export] Instance ex_supplier_digest : Digest := λ s,
  sixteen (if Nat.even (String.length s) then "0000" else "1111").

(** ** The imported directory, the callers and their clocks *)

Definition ident (tag : string) : string := "00000000-0000-4000-8000-00000000" +:+ tag.
Definition hall : string := ident "b001".
Definition drinks : string := ident "c001".
Definition meals : string := ident "c002".

Definition one_and_half : Float64 := S754_finite false 6755399441055744 (-52).

Definition imported : SDB := mkSDB
  {[ hall := {| b_ID := hall; b_Name := "Hall"; b_Latitude := one_and_half; b_Longitude := one_and_half;
                b_RadiusM := one_and_half; b_CreatedAt := 0; b_UpdatedAt := 0 |} ]}
  {[ drinks := {| c_ID := drinks; c_Name := "Drinks"; c_CreatedAt := 0 |};
     meals := {| c_ID := meals; c_Name := "Meals"; c_CreatedAt := 0 |} ]} ∅ ∅ ∅ ∅ ∅ ∅.

Lemma imported_Inv : Inv imported.
Proof.
  apply supplier_Inv_empty; [by intros id x [<- <-]%lookup_singleton_Some|].
  intros id x [[<- <-]|[_ [<- <-]%lookup_singleton_Some]]%lookup_insert_Some; done.
Qed.

Definition student : Caller := {| cl_ID := ident "000a"; cl_Role := "user" |}.
Definition stranger : Caller := {| cl_ID := ident "000c"; cl_Role := "user" |}.
Definition root : Caller := {| cl_ID := ident "000b"; cl_Role := "admin" |}.
Definition root_auth : option AuthCaller := Some {| ac_ID := ident "000b"; ac_Admin := true |}.

(** [senv h tag]: the surroundings of a call [h] hours into the year 2. *)
Definition noon : Time := 400 * 24 * Hour.
Definition senv (h : Z) (tag : string) : Env := {|
  now_ := noon + h * Hour; read_now := noon + h * Hour; newID := ident tag; server_now := noon + h * Hour |}.

Definition out {A} (r : result Error A * SDB) : result Error A := r.1.

(** ** A request, approved *)

Definition kiosk : Proposal := {|
  p_Name := " Kiosk "; p_IsSupplier := true; p_CategoryIDs := [meals; drinks]; p_BuildingID := hall;
  p_Floor := Some "1"; p_Latitude := one_and_half; p_Longitude := one_and_half;
  p_CoordinatesMissing := false; p_OpenFrom := Some (8 * 3600000000); p_OpenTo := Some (20 * 3600000000);
  p_Contact := Some " "; p_Details := "By the stairs" |}.
Definition submit_key : string := ident "0e01".
Definition the_request : string := ident "a001".
Definition the_place : string := ident "d001".

Definition submitted := SubmitRequest student kiosk submit_key (senv 0 "a001") no_faults imported.
Definition st_1 : SDB := perform (OSubmit student kiosk submit_key) (senv 0 "a001") no_faults imported.
Definition approved := ApproveRequest root the_request 1 (senv 1 "d001") no_faults st_1.
Definition st_2 : SDB := perform (OApprove root the_request 1) (senv 1 "d001") no_faults st_1.

(** ** Disablements of the Location *)

Definition repairs : CreateDisablementInput := {|
  cd_LocationID := the_place; cd_StartsAt := Some (noon + 5 * Hour); cd_EndsAt := Some (noon + 9 * Hour);
  cd_Reason := "Repairs"; cd_Key := ident "0e02" |}.
Definition the_repairs : string := ident "f001".
Definition scheduled := CreateDisablement root repairs (senv 2 "f001") no_faults st_2.
Definition st_3 : SDB := perform (OCreateDisablement root repairs) (senv 2 "f001") no_faults st_2.
Definition ended := EndDisablement root the_repairs (senv 6 "f002") no_faults st_3.
Definition st_4 : SDB := perform (OEnd root the_repairs) (senv 6 "f002") no_faults st_3.

(** Any surroundings. *)
Definition always (_ : Env) : Prop := True.

Lemma st_1_step : supplier_step always imported st_1.
Proof. exists (OSubmit student kiosk submit_key), (senv 0 "a001"), no_faults. split; [exact I|split; [by vm_compute|reflexivity]]. Qed.
Lemma st_2_step : supplier_step always st_1 st_2.
Proof. exists (OApprove root the_request 1), (senv 1 "d001"), no_faults. split; [exact I|split; [by vm_compute|reflexivity]]. Qed.
Lemma st_3_step : supplier_step always st_2 st_3.
Proof. exists (OCreateDisablement root repairs), (senv 2 "f001"), no_faults. split; [exact I|split; [by vm_compute|reflexivity]]. Qed.
Lemma st_4_step : supplier_step always st_3 st_4.
Proof. exists (OEnd root the_repairs), (senv 6 "f002"), no_faults. split; [exact I|split; [by vm_compute|reflexivity]]. Qed.

Lemma st_1_Inv : Inv st_1.
Proof. by eapply supplier_step_Inv; [apply imported_Inv|apply st_1_step]. Qed.
Lemma st_2_Inv : Inv st_2.
Proof. by eapply supplier_step_Inv; [apply st_1_Inv|apply st_2_step]. Qed.
Lemma st_3_Inv : Inv st_3.
Proof. by eapply supplier_step_Inv; [apply st_2_Inv|apply st_3_step]. Qed.
Lemma st_4_Inv : Inv st_4.
Proof. by eapply supplier_step_Inv; [apply st_3_Inv|apply st_4_step]. Qed.

Lemma the_run : rtc (supplier_step always) imported st_4.
Proof.
  eapply rtc_l; [apply st_1_step|]. eapply rtc_l; [apply st_2_step|].
  eapply rtc_l; [apply st_3_step|]. eapply rtc_l; [apply st_4_step|]. done.
Qed.

Lemma call_succeeds {A} (r : result Error A * SDB) : is_ok r.1 = true → ∃ a, r = (Ok a, r.2).
Proof. destruct r as [[a|e] d]; [eauto|done]. Qed.

(** The calls of the run succeed. *)
Example run_results :
  is_ok (out submitted) && is_ok (out approved) && is_ok (out scheduled) && is_ok (out ended) = true.
Proof. vm_compute. reflexivity. Qed.
