(* ===== verification/SupplierCalls.v ===== *)
(** * Supplier: what its calls answer

    Approving publishes the proposal, a repeated call answers as the first one
    did, disablements follow their states, reads disclose what they may. *)
From stdpp Require Import prelude gmap strings list sorting relations.
From Stdlib Require Import ZArith Lia SpecFloat.
From S2P Require Import Prelude.
From S2P Require Import GoLib.
From S2P Require Import GoText.
From S2P Require Import GoFloat.
From S2P Require Import SupplierTypes.
From S2P Require Import SupplierProposal.
From S2P Require Import SupplierDB.
From S2P Require Import SupplierStore.
From S2P Require Import SupplierRequests.
From S2P Require Import SupplierAdmin.
From S2P Require Import SupplierRuns.
From S2P Require Import SupplierInvariant.
From S2P Require Import SupplierSteps.
From S2P Require Import SupplierExamples.

Local Open Scope Z_scope.
Local Open Scope foc_scope.

Section calls.
  Context `{UUID, !UUIDLaws, Digest, Collation}.

(** ** Approval *)

(** What an approval leaves: a new Location that is the normalised proposal of
    the pending request, and the request approved with it. *)
Definition published (c : Caller) (env : Env) (rid : string) (row : RequestRow) (a : Approval) (d d' : SDB) : Prop :=
  ∃ p b l r,
    normalizeProposal (q_Proposal (request row (WorkflowRequestCategoryIDs rid d))) = Ok p
    ∧ sql_id (p_BuildingID p) = Some b
    ∧ locations d !! newID env = None
    ∧ locations d' = <[newID env := location_row p (newID env) b (now_ env)]> (locations d)
    ∧ (∀ i c, (i, c) ∈ location_categories d' ↔
         (i = newID env ∧ c ∈ p_CategoryIDs p) ∨ (i, c) ∈ location_categories d)
    ∧ requests d' = <[rid := r]> (requests d)
    ∧ rr_Status r = Approved ∧ rr_ReviewedBy r = Some (cl_ID c)
    ∧ rr_ResultingLocationID r = Some (newID env)
    ∧ ap_Location a = Some l ∧ wl_ID l = newID env
    ∧ disablements d' = disablements d.

Lemma canonical_unique raw ids : canonical raw ids → Forall (λ i, uuid_parse i = Some i) raw → ids = raw.
Proof.
  unfold canonical. induction 1 as [|c i raw ids Hc _ IH]; [done|]. intros [Hi Hr]%Forall_cons.
  f_equal; [|by apply IH]. apply uuid_sql_id in Hi. congruence.
Qed.

Lemma decision_published c env rid row a d d' note :
  uuid_parse (newID env) = Some (newID env) →
  decision c Approved note env rid row a d d' → published c env rid row a d d'.
Proof.
  intros Hnew%uuid_sql_id (d1 & q1 & ids & [(? & _)|(_ & l & Happ & Hal)] & Hs & Hn & _); [done|].
  apply approve_run in Happ as (p & b & lids & Hp & Hb & Hl & Hlid & Hq1). cbn [fst snd] in *. subst q1.
  assert (wl_ID l = newID env) as Hw by congruence. rewrite Hw in *. 
  destruct (normalizeProposal_ok _ _ Hp) as (_ & _ & _ & _ & _ & _ & _ & _ & Hcan & _).
  assert (lids = p_CategoryIDs p) as -> by (apply canonical_unique; [apply (lo_ids _ _ _ _ _ Hl)|done]).
  pose proof (sv_after _ _ _ _ _ _ Hs) as ->. pose proof (lo_after _ _ _ _ _ Hl) as ->.
  pose proof (lo_new _ _ _ _ _ Hl) as Hno. cbn [location_row lr_ID] in Hno.
  eexists p, b, l, _. split_and!; try done.
  intros i x. cbn. rewrite elem_of_union, elem_of_pairs. done.
Qed.

(** C32: An administrator who approves a pending request at its revision creates
    exactly one Location, the request's proposal in normal form, and records it
    with the decision; approving an approved request answers with that Location
    and changes nothing; no other approval succeeds. *)
Theorem approval_publishes_proposal c id expected env fl d a d' :
  Inv d → uuid_parse (newID env) = Some (newID env) →
  ApproveRequest c id expected env fl d = (Ok a, d') →
  IsAdmin c = true ∧ ∃ rid row, sql_id id = Some rid ∧ requests d !! rid = Some row ∧
  (rr_Status row = Approved ∧ d' = d
     ∧ (∃ l, ap_Location a = Some l ∧ rr_ResultingLocationID row = Some (wl_ID l))
   ∨ rr_Status row = Pending ∧ rr_Revision row = expected ∧ published c env rid row a d d').
Proof.
  intros HI Hnew Hcall. apply call_ok in Hcall as (n & Hargs & Hr).
  assert (IsAdmin c = true) as Had.
  { unfold transition_arguments in Hargs. inv_ok Hargs. done. }
  split; [done|].
  apply transition_body_run in Hr as (rid & row & Hid & Hrow & Hcase); [|done].
  exists rid, row. split; [done|]. split; [done|].
  destruct Hcase as [(Hst & -> & Hdec)|(Hne & Hp & Hrev & _ & Hdec)].
  - left. split; [done|]. split; [done|]. unfold decided_before in Hdec. rewrite same_refl in Hdec.
    split_run Hdec. apply tx_Location_run in Hrun0 as (_ & lid & lrow & b & Hlid & Hlrow & _ & ->).
    eexists. split; [done|]. cbn in *. rewrite Hrun. f_equal.
    destruct (iv_requests _ HI _ _ Hrow) as (_ & _ & _ & Href & _). unfold request_references in Href.
    rewrite Hrun in Href. apply andb_prop in Href as [_ Href]. cbn in Href.
    destruct (locations _ !! a0) as [y|] eqn:Hy; [|done].
    destruct (iv_locations _ HI _ _ Hy) as (_ & _ & _ & _ & Hcan & _).
    destruct (iv_locations _ HI _ _ Hlrow) as (Hli & _). congruence.
  - right. split; [done|]. split; [by apply Hrev|]. by eapply decision_published.
Qed.

(** ** Idempotent calls *)

Definition valid_key (now : Time) (s : Scope) (key : string) (k : KeyRow) (d : SDB) : Prop :=
  supplier_idempotency d !! (s_Caller s, s_Method s, key) = Some k ∧ stored_time now < ky_ExpiresAt k.

Lemma lifetime_later now : stored_time now < stored_time (now + key_lifetime).
Proof.
  change (now - now mod 1000 < now + 86400000000000 - (now + 86400000000000) mod 1000).
  pose proof (Z.mod_pos_bound now 1000). pose proof (Z.mod_pos_bound (now + 86400000000000) 1000). lia.
Qed.

Lemma forget_expired_valid now s key k d :
  supplier_idempotency (forget_expired s key now d) !! (s_Caller s, s_Method s, key) = Some k →
  forget_expired s key now d = d ∧ valid_key now s key k d.
Proof.
  unfold forget_expired, DeleteExpiredIdempotency, valid_key.
  destruct (supplier_idempotency d !! _) as [k'|] eqn:Hk; [|by rewrite Hk].
  destruct (ky_ExpiresAt k' <=? stored_time now) eqn:Hx; [cbn; by rewrite lookup_delete_eq|].
  rewrite Hk. intros [= ->]. split_and!; [done|done|lia].
Qed.

(** A call that ran leaves its key, valid, with its payload and resource. *)
Lemma Run_leaves report s hash create env d id d' :
  (∀ d id d', create (now_ env) env d = Ok (id, d') → uuid_parse id = Some id ∧ supplier_idempotency d' = supplier_idempotency d) →
  Run report s hash create env d = Ok (id, d') →
  ∃ key k, uuid_parse (s_Key s) = Some key ∧ valid_key (now_ env) s key k d' ∧ ky_RequestHash k = hash
    ∧ ky_ResourceID k = id
    ∧ (d' = d ∨ ky_ExpiresAt k = stored_time (now_ env + key_lifetime)).
Proof.
  intros Hcr (key & Hkey & [(k & Hk & Hh & -> & ->)|(Hno & d2 & rid & Hc & Hrid & ->)])%Run_run.
  - apply forget_expired_valid in Hk as [-> Hk]. exists key, k. split_and!; try done. by left.
  - destruct (Hcr _ _ _ Hc) as [Hid Hk]. assert (rid = id) as -> by congruence.
    exists key, {| ky_RequestHash := hash; ky_ResourceID := id;
                   ky_ExpiresAt := stored_time (now_ env + key_lifetime) |}.
    split_and!; [done| |done|done|by right]. split; [apply lookup_insert_eq|apply lifetime_later].
Qed.

(** A valid key answers, if the payload is the same. *)
Lemma Run_again report s hash create env d key k :
  uuid_parse (s_Key s) = Some key → valid_key (now_ env) s key k d →
  Run report s hash create env d =
    if same (ky_RequestHash k) hash then Ok (ky_ResourceID k, d) else Err ErrConflict.
Proof.
  intros Hkey [Hk Hv]. unfold Run, store_Find, reporting, require, mbind, st_mbind, ask, modify, gets. rewrite Hkey.
  cbn. rewrite (uuid_parse_canonical _ _ Hkey). cbn.
  unfold DeleteExpiredIdempotency, GetIdempotency. rewrite Hk.
  assert (ky_ExpiresAt k <=? stored_time (now_ env) = false) as -> by lia. rewrite Hk.
  unfold ensure. by destruct (same _ _).
Qed.

Definition submit_scope (c : Caller) (key : string) : Scope :=
  {| s_Caller := cl_ID c; s_Method := SubmitMethod; s_Key := key |}.

(** What a submission that succeeded leaves. *)
Lemma submit_leaves c p key env fl d q d1 :
  Inv d → uuid_parse (newID env) = Some (newID env) → SubmitRequest c p key env fl d = (Ok q, d1) →
  Inv d1 ∧ ∃ p' hash kk k, submit_arguments c p = Ok p' ∧ Hash (proposal_json p') = Ok hash
    ∧ uuid_parse key = Some kk ∧ valid_key (now_ env) (submit_scope c key) kk k d1
    ∧ ky_RequestHash k = hash ∧ sql_id (ky_ResourceID k) = Some (q_ID q) ∧ is_Some (requests d1 !! q_ID q)
    ∧ (requests d !! q_ID q = None → ky_ExpiresAt k = stored_time (now_ env + key_lifetime)).
Proof.
  intros HI Hnew Hcall. apply call_ok in Hcall as (p' & Hargs & Hr).
  assert (Inv d1) as HI1 by (by eapply outcome_Inv, submit_body_outcome).
  split; [done|]. unfold submit_body, idempotent in Hr. split_run Hr.
  apply tx_Request_read in Hr as (Hd & rid & row & Hid & _ & Hrow & (Hrid & _) & ->);
    [|by rewrite (tx_Request_keeps _ _ _ _ _ Hr) in HI1]. rewrite Hd in *. clear Hd d1.
  apply (Run_leaves mapError) in Hrun as (kk & k & Hkk & Hk & Hh & <- & Hexp).
  - eexists p', a0, kk, k. split_and!; try done; cbn; rewrite Hrid; [done|by rewrite Hrow|].
    intros Hno. destruct Hexp as [->|?]; [congruence|done].
  - intros d0 id d0' Hc. pose proof (create_request_effect _ _ _ _ _ _ _ Hc) as He.
    split; [|by eapply effect_keys]. unfold create_request in Hc. split_run Hc. done.
Qed.

(** Submitting under a valid key. *)
Lemma submit_body_again c key p env d hash kk k :
  Hash (proposal_json p) = Ok hash → uuid_parse key = Some kk →
  valid_key (now_ env) (submit_scope c key) kk k d →
  submit_body c key p env d =
    if same (ky_RequestHash k) hash then tx_Request (ky_ResourceID k) env d else Err ErrAlreadyExists.
Proof.
  intros Hh Hkk Hk. unfold submit_body, idempotent. rewrite Hh.
  unfold mbind, st_mbind, lift, mret, st_mret, reporting.
  change {| s_Caller := cl_ID c; s_Method := SubmitMethod; s_Key := key |} with (submit_scope c key).
  rewrite (Run_again _ (submit_scope c key) hash _ _ _ kk k) by done.
  by destruct (same (ky_RequestHash k) hash).
Qed.

Lemma tx_Request_found id rid row env d :
  sql_id id = Some rid → requests d !! rid = Some row →
  tx_Request id env d = Ok (request row (WorkflowRequestCategoryIDs (rr_ID row) d), d).
Proof.
  intros Hid Hrow. unfold tx_Request, LockWorkflowRequest, mbind, st_mbind, gets, require. rewrite Hid. cbn.
  by rewrite Hrow.
Qed.

(** C33: Once a submission succeeded, repeating it with the same key and payload,
    in any later state until the key expires a day later, succeeds, changes
    nothing and answers with the same request; the same key with another payload
    is refused and changes nothing. *)
Theorem submit_replayed c p key env fl d q d1 :
  Inv d → uuid_parse (newID env) = Some (newID env) → SubmitRequest c p key env fl d = (Ok q, d1) →
  ∃ expiry hash, stored_time (now_ env) < expiry
    ∧ (requests d !! q_ID q = None → expiry = stored_time (now_ env + key_lifetime))
    ∧ (p' ← submit_arguments c p; Hash (proposal_json p')) = Ok hash
    ∧ ∀ sees d2 env2, rtc (supplier_step sees) d1 d2 →
        (∀ e, sees e → stored_time (now_ e) < expiry) → stored_time (now_ env2) < expiry →
        (∃ q2, SubmitRequest c p key env2 no_faults d2 = (Ok q2, d2) ∧ q_ID q2 = q_ID q)
        ∧ ∀ p2 hash2, (p' ← submit_arguments c p2; Hash (proposal_json p')) = Ok hash2 → hash2 ≠ hash →
            SubmitRequest c p2 key env2 no_faults d2 = (Err ErrAlreadyExists, d2).
Proof.
  intros HI Hnew Hcall.
  apply submit_leaves in Hcall as (HI1 & p' & hash & kk & k & Hargs & Hh & Hkk & [Hk Hv] & Hkh & Hid & Hq & Hfresh);
    [|done..].
  exists (ky_ExpiresAt k), hash. split; [done|]. split; [done|]. split; [by rewrite Hargs|].
  intros sees d2 env2 Hsteps Hsees Hv2.
  destruct (supplier_steps_Inv _ _ _ HI1 Hsteps) as [HI2 Hg].
  assert (valid_key (now_ env2) (submit_scope c key) kk k d2) as Hk2.
  { split; [exact (supplier_steps_key sees d1 d2 _ k HI1 Hsees Hsteps Hk)|done]. }
  destruct Hq as [row Hrow]. destruct (gr_requests _ _ Hg _ _ Hrow) as (row2 & Hrow2 & _).
  destruct (iv_requests _ HI2 _ _ Hrow2) as (Hrid & _).
  split.
  - exists (request row2 (WorkflowRequestCategoryIDs (rr_ID row2) d2)). split; [|done].
    unfold SubmitRequest, call, Within. rewrite Hargs. cbn [no_faults begin_fault body_fault commit_fault].
    rewrite (submit_body_again _ _ _ _ _ hash kk k) by done. rewrite Hkh, same_refl.
    by rewrite (tx_Request_found _ (q_ID q) row2).
  - intros p2 hash2 Hp2 Hne. apply bind_Ok in Hp2 as (p2' & Hargs2 & Hh2).
    unfold SubmitRequest, call, Within. rewrite Hargs2. cbn [no_faults begin_fault body_fault commit_fault].
    rewrite (submit_body_again _ _ _ _ _ hash2 kk k) by done. rewrite Hkh.
    by rewrite (proj2 (same_false hash hash2)).
Qed.

(** ** Disablements *)

(** A stored time compares with a clock as with the clock's microsecond. *)
Lemma stored_time_lt s now : stored_time s = s → (now < s ↔ stored_time now < s).
Proof.
  change (s - s mod 1000 = s → (now < s ↔ now - now mod 1000 < s)). intros Hs.
  pose proof (Z.mod_pos_bound now 1000). split; [lia|]. intros Hlt.
  pose proof (Z.div_mod now 1000). pose proof (Z.div_mod s 1000). nia.
Qed.

(** The row of a disablement that is ended or called off. *)
Lemma finished_row target now x :
  stored_disablement x = x → 0 < d_Revision x < max_int64 → d_EndedAt x = None → d_CancelledAt x = None →
  let y := stored_disablement (finished target now x) in
  d_StartsAt y = d_StartsAt x ∧ d_EndsAt y = d_EndsAt x ∧ d_Reason y = d_Reason x
  ∧ d_Revision y = d_Revision x + 1
  ∧ d_EndedAt y = (if same target Ended then Some (stored_time now) else None)
  ∧ d_CancelledAt y = (if same target Ended then None else Some (stored_time now)).
Proof.
  intros Hst Hrev Hend Hcan y.
  pose proof (f_equal d_StartsAt Hst) as Hss. pose proof (f_equal d_EndsAt Hst) as Hse.
  subst y. unfold finished. destruct (same target Ended); cbn -[stored_time] in *;
    rewrite ?Hend, ?Hcan, add64_id by int64_lia; split_and!; done.
Qed.

(** The schema accepts it. *)
Lemma finished_check target now x :
  disablements_check x = true → stored_disablement x = x → d_Revision x < max_int64 →
  target = Ended ∧ State x now = Active ∨ target = DCancelled ∧ State x now = Scheduled →
  disablements_check (stored_disablement (finished target now x)) = true.
Proof.
  intros Hck Hst Hmax Hs. pose proof (State_open x now) as [Hend Hcan]; [destruct Hs as [[_ ?]|[_ ?]]; auto|].
  pose proof (disablements_check_revision _ Hck) as Hpos.
  destruct (finished_row target now x) as (E1 & E2 & E3 & E4 & E5 & E6); try done.
  pose proof (f_equal d_StartsAt Hst) as Hss. change (stored_time (d_StartsAt x) = d_StartsAt x) in Hss.
  unfold disablements_check in *. rewrite E1, E2, E3, E4, E5, E6. rewrite Hend, Hcan in Hck. inv_checks Hck.
  rewrite Hck. replace (within 1 500 _) with true by done.
  pose proof (proj1 (stored_time_lt _ now Hss)) as Hlt1. pose proof (proj2 (stored_time_lt _ now Hss)) as Hlt2.
  pose proof (stored_time_le now) as Hle. remember (stored_time now) as t eqn:Ht. clear Ht.
  destruct Hs as [[-> [Hst1 Hen]%active_within]|[-> Hs%scheduled_starts]].
  - rewrite same_refl. destruct (d_EndsAt x) as [e|]; cbn in *; lia.
  - replace (same DCancelled Ended) with false by done. cbn. lia.
Qed.

(** Saving a disablement that was read, whatever the schema says. *)
Lemma SaveDisablement_run xid x y env d :
  Inv d → disablements d !! xid = Some x → sql_id xid = Some xid → d_ID y = xid →
  SaveDisablement y (d_Revision x) env d =
    match put_disablement (updated_disablement x y) d with
    | Ok d' => Ok (tt, d')
    | Err e => Err (mapError e)
    end.
Proof.
  intros HI Hx Hxid Hy. destruct (iv_disablements _ HI _ _ Hx) as (Hid & Hck & _).
  pose proof (disablements_check_revision _ Hck). unfold SaveDisablement.
  replace (d_Revision x =? 0) with false by lia.
  unfold mbind, st_mbind, stmt, reporting, exec, UpdateWorkflowDisablement, LockWorkflowDisablement.
  rewrite Hy, Hxid. cbn. rewrite Hx, Z.eqb_refl. by destruct (put_disablement _ d).
Qed.

Lemma finished_updated target now x : updated_disablement x (finished target now x) = finished target now x.
Proof. unfold finished. by destruct (same target Ended). Qed.

(** At the last revision the counter would wrap, which the schema refuses. *)
Lemma put_finished target now x d :
  Inv d → disablements d !! d_ID x = Some x →
  target = Ended ∧ State x now = Active ∨ target = DCancelled ∧ State x now = Scheduled →
  put_disablement (finished target now x) d =
    if d_Revision x =? max_int64 then Err check_violation
    else Ok (put_x (stored_disablement (finished target now x)) d).
Proof.
  intros HI Hx Hs. destruct (iv_disablements _ HI _ _ Hx) as (_ & Hck & Hmax & [l Hl] & Hst & Htx).
  unfold put_disablement.
  replace (disablement_text (stored_disablement (finished target now x))) with true
    by (unfold finished; destruct (same target Ended); symmetry; exact Htx).
  replace (d_LocationID (stored_disablement (finished target now x))) with (d_LocationID x)
    by (unfold finished; by destruct (same target Ended)).
  cbn [guard_ok mbind result_mbind]. rewrite Hl. destruct (d_Revision x =? max_int64) eqn:Hr.
  - apply Z.eqb_eq in Hr. replace (disablements_check _) with false; [done|]. symmetry.
    apply not_true_iff_false. intros Hc%disablements_check_revision.
    assert (d_Revision (stored_disablement (finished target now x)) = add64 (d_Revision x) 1) as Hw
      by (unfold finished; by destruct (same target Ended)).
    rewrite Hw, Hr in Hc. by vm_compute in Hc.
  - apply Z.eqb_neq in Hr. rewrite finished_check by (done || lia). done.
Qed.

(** Ending and calling off follow the state of the disablement at that
    moment: what is in the asked state already is answered unchanged, an active
    one ends now, a scheduled one is called off, at the next revision; every other
    transition is refused and changes nothing. *)
Theorem disablement_transitions c id target env d xid :
  Inv d → requireAdmin c = Ok tt → uuid_parse id = Some xid → target = Ended ∨ target = DCancelled →
  transitionDisablement c id target env no_faults d =
    match disablements d !! xid with
    | None => (Err ErrNotFound, d)
    | Some x =>
        let s := State x (now_ env) in
        let y := stored_disablement (finished target (now_ env) x) in
        if same s target then (Ok x, d)
        else if (same target Ended && same s Active) || (same target DCancelled && same s Scheduled)
        then if d_Revision x =? max_int64 then (Err ErrFailedPrecondition, d) else (Ok y, put_x y d)
        else (Err ErrFailedPrecondition, d)
    end.
Proof.
  intros HI Had Hid Ht. unfold transitionDisablement, call, Within, validateID, canonicalID.
  rewrite Had, Hid. cbn [from_option_ok mbind result_mbind no_faults begin_fault body_fault commit_fault].
  cbn [mret result_mret].
  assert (sql_id id = Some xid) as Hsql.
  { unfold sql_id, nonempty. case_bool_decide as Hne; [|done]. subst id. by rewrite uuid_parse_empty in Hid. }
  unfold finish_body, tx_Disablement, mbind, st_mbind, ask, gets, require, LockWorkflowDisablement.
  rewrite Hsql. cbn [mbind option_bind]. destruct (disablements d !! xid) as [x|] eqn:Hx; [|done].
  cbn [mret st_mret]. destruct (iv_disablements _ HI _ _ Hx) as (Hxid & _). 
  destruct (same (State x (now_ env)) target) eqn:Hsame; [done|]. apply same_ne in Hsame.
  assert (negb (same target Ended && negb (same (State x (now_ env)) Active)
    || same target DCancelled && negb (same (State x (now_ env)) Scheduled))
    = (same target Ended && same (State x (now_ env)) Active
       || same target DCancelled && same (State x (now_ env)) Scheduled)) as ->.
  { generalize (same (State x (now_ env)) Active) as a, (same (State x (now_ env)) Scheduled) as b.
    destruct Ht as [->| ->]; intros [] []; done. }
  destruct (_ || _) eqn:Hs; [|done]. cbn [ensure mret st_mret].
  assert (target = Ended ∧ State x (now_ env) = Active ∨ target = DCancelled ∧ State x (now_ env) = Scheduled) as Hs'.
  { apply orb_prop in Hs as [[H3%same_eq H4%same_eq]%andb_prop|[H3%same_eq H4%same_eq]%andb_prop]; auto. }
  rewrite (SaveDisablement_run xid) by (done || by (eapply uuid_sql_id) || (unfold finished; by destruct (same target Ended))).
  rewrite finished_updated, put_finished by (done || by rewrite Hxid).
  destruct (d_Revision x =? max_int64); [done|]. rewrite Hxid, (uuid_sql_id _ _ Hid).
  cbn [mbind option_bind]. unfold put_x at 1. cbn [disablements].
  replace (d_ID (stored_disablement (finished target (now_ env) x))) with xid
    by (rewrite <- Hxid; unfold finished; by destruct (same target Ended)).
  cbn. by rewrite lookup_insert_eq.
Qed.

End calls.

(** The kiosk's request becomes a Location. *)
Lemma approval_publishes_proposal_witness :
  ∃ a d', ApproveRequest root the_request 1 (senv 1 "d001") no_faults st_1 = (Ok a, d') ∧
  IsAdmin root = true ∧ ∃ rid row, sql_id the_request = Some rid ∧ requests st_1 !! rid = Some row ∧
  (rr_Status row = Approved ∧ d' = st_1
     ∧ (∃ l, ap_Location a = Some l ∧ rr_ResultingLocationID row = Some (wl_ID l))
   ∨ rr_Status row = Pending ∧ rr_Revision row = 1 ∧ published root (senv 1 "d001") rid row a st_1 d').
Proof.
  destruct (call_succeeds (ApproveRequest root the_request 1 (senv 1 "d001") no_faults st_1)) as [a Ha];
    [by vm_compute|].
  eexists a, _. split; [exact Ha|].
  eapply (approval_publishes_proposal root the_request 1 (senv 1 "d001") no_faults st_1 a);
    [apply st_1_Inv|by vm_compute|exact Ha].
Defined.

(** The kiosk submitted again three hours later. *)
Lemma submit_replayed_witness :
  ∃ q d', SubmitRequest student kiosk submit_key (senv 0 "a001") no_faults imported = (Ok q, d') ∧
  ∃ q2, SubmitRequest student kiosk submit_key (senv 3 "a009") no_faults d' = (Ok q2, d') ∧ q_ID q2 = q_ID q.
Proof.
  destruct (call_succeeds (SubmitRequest student kiosk submit_key (senv 0 "a001") no_faults imported)) as [q Hq];
    [by vm_compute|].
  eexists q, _. split; [exact Hq|].
  destruct (submit_replayed student kiosk submit_key (senv 0 "a001") no_faults imported q _
    imported_Inv (eq_refl : uuid_parse (newID (senv 0 "a001")) = Some (newID (senv 0 "a001"))) Hq)
    as (expiry & hash & _ & Hfresh & _ & Hall).
  rewrite Hfresh in Hall by apply lookup_empty.
  destruct (Hall (λ _, False) _ (senv 3 "a009") (rtc_refl _ _)) as [Hagain _];
    [intros e []|by vm_compute|exact Hagain].
Defined.

(** The repairs end an hour after they began. *)
Lemma disablement_transitions_witness :
  Inv st_3 ∧ ended =
    match disablements st_3 !! the_repairs with
    | None => (Err ErrNotFound, st_3)
    | Some x =>
        let s := State x (noon + 6 * Hour) in
        let y := stored_disablement (finished Ended (noon + 6 * Hour) x) in
        if same s Ended then (Ok x, st_3)
        else if (same Ended Ended && same s Active) || (same Ended DCancelled && same s Scheduled)
        then if d_Revision x =? max_int64 then (Err ErrFailedPrecondition, st_3) else (Ok y, put_x y st_3)
        else (Err ErrFailedPrecondition, st_3)
    end.
Proof.
  split; [apply st_3_Inv|].
  apply (disablement_transitions root the_repairs Ended (senv 6 "f002") st_3 the_repairs);
    [apply st_3_Inv|by vm_compute|by vm_compute|by left].
Defined.
