(* ===== verification/SupplierProperties.v ===== *)
(** * Supplier: the theorems

    What the service promises of every state it reaches and of every call, and at
    the end of what is read. *)
From stdpp Require Import prelude gmap strings list sorting relations.
From Stdlib Require Import ZArith Lia SpecFloat.
From S2P Require Import Prelude.
From S2P Require Import GoLib.
From S2P Require Import GoText.
From S2P Require Import GoFloat.
From S2P Require Import SupplierTypes.
From S2P Require Import SupplierProposal.
From S2P Require Import SupplierDB.
From S2P Require Import SupplierStore.
From S2P Require Import SupplierRequests.
From S2P Require Import SupplierAdmin.
From S2P Require Import SupplierRuns.
From S2P Require Import SupplierInvariant.
From S2P Require Import SupplierSteps.
From S2P Require Import SupplierRefinement.
From S2P Require Import SupplierExamples.
From S2P Require Import SupplierCalls.

Local Open Scope Z_scope.
Local Open Scope foc_scope.

Section properties.
  Context `{UUID, !UUIDLaws, Digest, Collation}.

(** ** Every reachable state *)

(** Two disablements that hold at once are one. *)
Lemma current_unique d loc now x y :
  Inv d → x ∈ current_disablements loc now d → y ∈ current_disablements loc now d → x = y.
Proof.
  intros HI. unfold current_disablements. rewrite !list_elem_of_filter, !list_elem_of_fmap.
  intros [[Hxl Hxh] ([i x'] & -> & Hx)] [[Hyl Hyh] ([j y'] & -> & Hy)]. cbn in *.
  apply elem_of_map_to_list in Hx, Hy.
  destruct (iv_disablements _ HI _ _ Hx) as (Hi & _), (iv_disablements _ HI _ _ Hy) as (Hj & _).
  destruct (decide (i = j)) as [->|Hne]; [congruence|exfalso].
  unfold holds_now in Hxh, Hyh.
  destruct (d_CancelledAt x') eqn:Hxc, (d_EndedAt x') eqn:Hxe; try done.
  destruct (d_CancelledAt y') eqn:Hyc, (d_EndedAt y') eqn:Hye; try done.
  assert (overlapping x' y' = false) as Ho by (eapply (iv_disjoint _ HI); [done..|split_and!; congruence]).
  unfold overlapping, effective_end, ranges_overlap, range_empty in Ho. rewrite Hxe, Hye in Ho.
  cbn -[stored_time] in *. unfold opt_check in *.
  destruct (d_EndsAt x'), (d_EndsAt y'); cbn -[stored_time] in *; lia.
Qed.

(** C14: In every state that calls lead to, a Location is a supplier exactly when
    it has a Category, an approved request has a Location of its own, every row
    passes its constraints, the disablements of a Location do not overlap, and at
    most one of them holds at any instant. *)
Theorem supplier_sound sees d0 d loc now :
  Inv d0 → rtc (supplier_step sees) d0 d →
  Inv d ∧ (length (current_disablements loc now d) ≤ 1)%nat.
Proof.
  intros HI Hr. destruct (supplier_steps_Inv _ _ _ HI Hr) as [HI' _]. split; [done|].
  assert (NoDup (current_disablements loc now d)) as Hnd.
  { apply NoDup_filter. apply (NoDup_fmap_1 d_ID). rewrite <- list_fmap_compose.
    rewrite (list_fmap_ext _ fst); [apply NoDup_fst_map_to_list|].
    intros k [i x] Hix. cbn. apply list_elem_of_lookup_2, elem_of_map_to_list in Hix.
    by destruct (iv_disablements _ HI' _ _ Hix). }
  destruct (current_disablements loc now d) as [|x [|y l]] eqn:Hl; cbn; [lia..|exfalso].
  assert (x = y) as -> by (eapply (current_unique d loc now); [done|rewrite Hl; set_solver..]).
  apply NoDup_cons in Hnd as [Hnd _]. set_solver.
Qed.

(** Whatever calls follow, no Location, request or disablement disappears,
    Buildings and Categories stay, a decided request with its Categories and an
    ended or called off disablement never change again, and every change of a row
    counts its revision and keeps its author and time of creation. *)
Theorem supplier_history sees d d' : Inv d → rtc (supplier_step sees) d d' → grown d d'.
Proof. intros HI Hr. by destruct (supplier_steps_Inv _ _ _ HI Hr). Qed.

(** ** Refinement *)

(** C4: Every call, by whomever, with whatever arguments and under any fault, is
    one step of the abstract directory that its caller may take at that time, or
    none: so no call lists a petition twice, decides one that is not open, or
    makes two outages of a place meet. *)
Theorem supplier_refines_directory o env fl d :
  Inv d → uuid_parse (newID env) = Some (newID env) →
  let d' := perform o env fl d in
  directory d' = directory d ∨ directory_step (actor o) (now_ env) (directory d) (directory d').
Proof. intros HI Hnew. by apply outcome_refines, perform_outcome. Qed.

End properties.

Lemma supplier_history_witness : grown imported st_4.
Proof. apply (supplier_history always); [apply imported_Inv|apply the_run]. Defined.

(** The approval lists the petition as a place. *)
Lemma supplier_refines_directory_witness :
  directory st_2 = directory st_1
  ∨ directory_step (actor (OApprove root the_request 1)) (noon + 1 * Hour) (directory st_1) (directory st_2).
Proof.
  apply (supplier_refines_directory (OApprove root the_request 1) (senv 1 "d001") no_faults st_1);
    [apply st_1_Inv|by vm_compute].
Defined.

Lemma supplier_sound_witness :
  Inv st_4 ∧ (length (current_disablements the_place (noon + 6 * Hour) st_4) ≤ 1)%nat.
Proof. apply (supplier_sound always imported); [apply imported_Inv|apply the_run]. Defined.

(** * What is read is what was written

    Requests are disclosed to whom they may be, the database and the service
    agree on the state of a disablement, proposals are well formed, and a created
    Location reads back as its input. *)

Section reads.
  Context `{UUID, !UUIDLaws, Digest, Collation}.

(** ** Disablements *)

(** For a stored disablement the state that the listing query computes, at
    the clock's microsecond, is the state that the service computes. *)
Theorem sql_state_is_State x now :
  stored_disablement x = x → sql_state (stored_time now) x = State x now.
Proof.
  intros Hst. pose proof (f_equal d_StartsAt Hst) as Hs. pose proof (f_equal d_EndsAt Hst) as He.
  change (stored_time (d_StartsAt x) = d_StartsAt x) in Hs.
  change (stored_times (d_EndsAt x) = d_EndsAt x) in He.
  unfold sql_state, State, Before. destruct (is_some (d_CancelledAt x)); [done|].
  assert ((now <? d_StartsAt x) = (stored_time now <? d_StartsAt x)) as ->.
  { pose proof (stored_time_lt _ now Hs). destruct (now <? _) eqn:?, (stored_time now <? _) eqn:?; lia. }
  destruct (d_EndsAt x) as [e|]; [|done]. injection He as He.
  assert ((e <=? stored_time now) = negb (now <? e)) as ->; [|done].
  pose proof (stored_time_lt _ now He). destruct (now <? e) eqn:?, (e <=? stored_time now) eqn:?; lia.
Qed.

(** ** Proposals *)

(** C35: What normalising accepts is well formed, and a well-formed proposal is
    its own normal form: normalising twice is normalising once. *)
Theorem normalizeProposal_retracts p p' :
  normalizeProposal p = Ok p' → proposal_ok p' ∧ normalizeProposal p' = Ok p'.
Proof.
  intros Hp%normalizeProposal_ok. split; [done|by apply normalizeProposal_self].
Qed.

(** ** Requests *)

(** What a caller is shown of a request. *)
Definition disclosed (c : Caller) (q shown : AdditionRequest) : Prop :=
  shown = q ∧ (IsAdmin c = true ∨ q_SubmittedBy q = cl_ID c)
  ∨ q_Status q = Approved ∧ q_SubmittedBy shown = EmptyString ∧ q_ReviewedBy shown = None
    ∧ q_ReviewNote shown = None ∧ q_Proposal shown = q_Proposal q ∧ q_ID shown = q_ID q.

Definition stored_as (d : SDB) (rid : string) (q : AdditionRequest) : Prop :=
  ∃ row, requests d !! rid = Some row ∧ q = request row (WorkflowRequestCategoryIDs rid d).

Lemma redact_disclosed c q : isVisible c q = true → disclosed c q (redactRequestForCaller c q).
Proof.
  unfold isVisible, redactRequestForCaller. destruct (IsAdmin c) eqn:Had; cbn; [by left; auto|].
  destruct (same (q_SubmittedBy q) (cl_ID c)) eqn:Hby; cbn; [left; split; [done|right; by apply same_eq]|].
  intros Hst%same_eq. right. done.
Qed.

Lemma listed_visible c status row cats :
  listed_request (IsAdmin c) (cl_ID c) status row = true →
  isVisible c (request row cats) = true ∧ (status = OtherStatus EmptyString ∨ rr_Status row = status).
Proof.
  unfold listed_request, isVisible. cbn. intros [Hv Hs]%andb_prop. split; [done|].
  apply orb_prop in Hs as [Hst%same_eq|Hst%same_eq]; [by left|by right].
Qed.

(** C34: A caller reads, alone or in a list, only requests that are the caller's
    own or approved, an administrator all; a stranger's copy names neither
    submitter nor reviewer nor the note; a list holds the requests of the asked
    status only, counts them all, and nothing changes. *)
Theorem requests_disclosed c env fl d :
  Inv d →
  (∀ id q d', GetRequest c id env fl d = (Ok q, d') →
     d' = d ∧ ∃ rid q0, sql_id id = Some rid ∧ stored_as d rid q0 ∧ disclosed c q0 q) ∧
  (∀ status p items info d', ListRequests c status p env fl d = (Ok (items, info), d') →
     d' = d ∧ pi_TotalItems info = CountWorkflowRequests (IsAdmin c) (cl_ID c) status d
     ∧ ∀ q, q ∈ items → ∃ rid q0, stored_as d rid q0 ∧ disclosed c q0 q
         ∧ (status = OtherStatus EmptyString ∨ q_Status q0 = status)).
Proof.
  intros HI. split.
  - intros id q d' (a & _ & Hr)%call_ok. split_run Hr.
    apply tx_Request_read in Hrun as (-> & rid & row & Hid & _ & Hrow & _ & ->); [|done].
    split; [done|]. exists rid, (request row (WorkflowRequestCategoryIDs rid d)).
    split_and!; [done|by exists row|by apply redact_disclosed].
  - intros status p items info d' (a & _ & Hr)%call_ok. unfold ListRequests_rows in Hr. split_run Hr.
    injection Hr as -> ->. split; [done|]. split; [done|]. intros q Hq.
    apply list_elem_of_fmap in Hq as (q0 & -> & Hq). apply list_elem_of_fmap in Hq as (row & -> & Hrow).
    unfold ListWorkflowRequests, page_of in Hrow.
    apply (subseteq_take _ _ _), (subseteq_drop _ _ _) in Hrow. rewrite merge_sort_Permutation in Hrow.
    apply list_elem_of_filter in Hrow as [Hl Hrow]. apply list_elem_of_fmap in Hrow as ([rid row'] & -> & Hrow).
    apply elem_of_map_to_list in Hrow. destruct (iv_requests _ HI _ _ Hrow) as (Hid & _). cbn in *.
    destruct (listed_visible c status row' (WorkflowRequestCategoryIDs rid d) Hl) as [Hv Hs].
    exists rid, (request row' (WorkflowRequestCategoryIDs rid d)). rewrite Hid.
    split_and!; [by exists row'|by apply redact_disclosed|done].
Qed.

(** ** Locations *)

Lemma related_pairs (id : string) (ids : list string) (X : gset (string * string)) :
  NoDup ids → (∀ c, (id, c) ∉ X) → related id (pairs id ids ∪ X) ≡ₚ ids.
Proof.
  intros Hnd Hno. unfold related. rewrite merge_sort_Permutation. apply NoDup_Permutation; [|done|].
  - apply (NoDup_fmap_2_strong snd); [|apply NoDup_filter, NoDup_elements].
    intros [a b] [a' b'] [Ha _]%list_elem_of_filter [Ha' _]%list_elem_of_filter. cbn in *. congruence.
  - intros c. rewrite list_elem_of_fmap. setoid_rewrite list_elem_of_filter.
    setoid_rewrite elem_of_elements. setoid_rewrite elem_of_union. setoid_rewrite elem_of_pairs. split.
    + intros ([a b] & -> & Ha & [[_ Hb]|Hb]); cbn in *; [done|subst a; by destruct (Hno b)].
    + intros Hc. exists (id, c). auto.
Qed.

Lemma categories_of_ids (m : gmap string Category) (ids : list string) :
  (∀ i c, m !! i = Some c → c_ID c = i) → (∀ i, i ∈ ids → is_Some (m !! i)) →
  c_ID <$> omap (λ c, m !! c) ids = ids.
Proof.
  intros Hm. induction ids as [|i ids IH]; intros Hex; [done|]. cbn.
  destruct (Hex i) as [c Hc]; [by left|]. rewrite Hc. cbn. rewrite (Hm _ _ Hc). f_equal.
  apply IH. intros j Hj. apply Hex. by right.
Qed.

Lemma ListLocationCategories_ids d id :
  Inv d → sc_ID <$> ListLocationCategories id d ≡ₚ related id (location_categories d).
Proof.
  intros HI. unfold ListLocationCategories. rewrite <- list_fmap_compose.
  change (sc_ID ∘ shared_category) with c_ID. rewrite merge_sort_Permutation.
  unfold WorkflowLocationCategories. rewrite categories_of_ids; [done|apply (iv_categories _ HI)|].
  intros c Hc. unfold related in Hc. rewrite merge_sort_Permutation in Hc.
  apply list_elem_of_fmap in Hc as ([a b] & -> & [Ha Hin]%list_elem_of_filter). cbn in *. subst a.
  apply elem_of_elements in Hin. by destruct (iv_location_categories _ HI _ _ Hin).
Qed.

(** What [admin_Create] wrote reads back. *)
Lemma created_reads_back i i0 now env d l d' :
  Inv d → Inv d' → normalizeInput i0 = Ok i → uuid_parse (newID env) = Some (newID env) →
  admin_Create i now env d = Ok (l, d') →
  ∃ cats, input_of l = i <| i_CategoryIDs := cats |> ∧ cats ≡ₚ i_CategoryIDs i
    ∧ l_Revision l = 1 ∧ l_ArchivedAt l = None.
Proof.
  intros HI HI' Hnorm Hnew (b & ids & co & Hb & Hids & Hco & Hl & Hread)%admin_Create_run; [|by eapply uuid_sql_id].
  destruct (normalizeInput_ok _ _ Hnorm) as (Hbi & Hcan & Hnd & Hhours).
  assert (b = i_BuildingID i) as -> by congruence.
  rewrite parseCategoryIDs_self in Hids by (done || by intros j _ ?%elem_of_nil). injection Hids as <-.
  unfold reader_GetLocation in Hread. inv_ok Hread. subst l.
  assert (a = newID env) as -> by congruence.
  pose proof (lo_after _ _ _ _ _ Hl) as Hd'.
  set (r := written_row _ _ _ _) in *.
  assert (locations d' !! newID env = Some r) as Hr by (rewrite Hd'; apply lookup_insert_eq).
  rewrite Hr in Hok0. cbn [mbind option_bind] in Hok0. unfold joined in Hok0. inv_ok Hok0.
  destruct (buildings d' !! lr_BuildingID r) as [bd|] eqn:Hbd; [|done]. injection Hok0 as <-.
  pose proof (iv_buildings _ HI' _ _ Hbd) as Hbdi. cbn in Hbdi.
  exists (sc_ID <$> ListLocationCategories (newID env) d'). split_and!; [|  |done|done].
  - unfold input_of, toLocation, fromRow. cbn. rewrite Hbdi.
    rewrite !toClockPtr_toPGTime by (intros k Hk; eapply valid_hours_clocks; eauto).
    destruct i; cbn in *. subst. by destruct co.
  - rewrite ListLocationCategories_ids, Hd' by done. cbn. apply related_pairs; [done|].
    intros c Hc. destruct (iv_location_categories _ HI _ _ Hc) as [[x Hx] _].
    pose proof (lo_new _ _ _ _ _ Hl) as Hno. cbn in Hno. congruence.
Qed.

(** A Location that is read is that of its row. *)
Lemma reader_row id now d l :
  Inv d → reader_GetLocation id now d = Ok l → ∃ uid, uuid_parse id = Some uid ∧ l_ID l = uid ∧ is_Some (locations d !! uid).
Proof.
  intros HI Hr. unfold reader_GetLocation in Hr. inv_ok Hr. exists a. split; [done|].
  destruct (locations d !! a) as [row|] eqn:Hrow; [|done]. destruct (iv_locations _ HI _ _ Hrow) as (Hid & _).
  unfold joined in Hok0. cbn in Hok0. destruct (buildings d !! _); [|done]. injection Hok0 as <-.
  subst l. split; [exact Hid|done].
Qed.

Lemma GetForUpdate_read id env d l d' :
  GetForUpdate id env d = Ok (l, d') → d' = d ∧ reader_GetLocation id (server_now env) d = Ok l.
Proof. intros Hr. unfold GetForUpdate in Hr. split_run Hr. by apply tx_read_run. Qed.

(** A Location that an administrator creates reads back, as the answer and
    from the database, as the normalised input, its Categories in another order,
    at revision 1 and not archived; what the schema stores loses nothing. *)
Theorem created_location_reads_back c r env fl d l d' :
  Inv d → uuid_parse (newID env) = Some (newID env) → Create c r env fl d = (Ok l, d') →
  locations d !! l_ID l = None →
  ∃ i cats, normalizeInput (cl_Input r) = Ok i ∧ input_of l = i <| i_CategoryIDs := cats |>
    ∧ cats ≡ₚ i_CategoryIDs i ∧ l_Revision l = 1 ∧ l_ArchivedAt l = None
    ∧ reader_GetLocation (l_ID l) (server_now env) d' = Ok l.
Proof.
  intros HI Hnew Hcall Hno. pose proof (perform_outcome (OCreate c r) env fl d HI Hnew) as Hout.
  cbn [perform] in Hout. rewrite Hcall in Hout. cbn [snd] in Hout.
  destruct (outcome_Inv _ _ _ _ HI Hout) as [HI' _].
  apply call_ok in Hcall as (a & Hargs & Hr). unfold admin_create_arguments in Hargs. inv_ok Hargs. subst a.
  unfold admin_create_body in Hr. apply bind_ok in Hr as (id & s & Hrun%st_run_reporting & Hr).
  apply GetForUpdate_read in Hr as (-> & Hget).
  apply Run_run in Hrun as (key & Hkey & [(k & _ & _ & _ & Hd')|(_ & d2 & rid & Hcr & _ & Hd')]);
    pose proof (forget_expired_keys {| s_Caller := ac_ID a0; s_Method := CreateLocationMethod; s_Key := a1 |}
      key (now_ env) d) as Hk; cbn [s_Caller s_Method s_Key] in Hd'.
  - exfalso. destruct Hk as [Hk _]. rewrite <- Hd' in Hk.
    destruct (reader_row _ _ _ _ HI' Hget) as (uid & _ & Hl & [row Hrow]). rewrite Hk in Hrow. cbn in Hrow. congruence.
  - unfold create_location in Hcr. apply bind_ok in Hcr as (? & ? & ->%admin_ValidateReferences_run & Hcr).
    apply bind_ok in Hcr as (l0 & d3 & Hcr & [-> ->]%st_run_ret).
    destruct (but_keys_Inv _ _ _ HI Hk) as [HI1 _].
    pose proof Hcr as (b' & ids & co & _ & _ & _ & Hlo & Hread)%admin_Create_run; [|by eapply uuid_sql_id].
    assert (Inv d3) as HI3.
    { assert (d3 = s <| supplier_idempotency := supplier_idempotency d3 |>) as -> by (rewrite Hd'; by destruct d3).
      by apply keys_Inv. }
    destruct (reader_row _ _ _ _ HI3 Hread) as (uid & Huid & Hl0 & _).
    assert (l_ID l0 = newID env) as Hid by congruence.
    assert (l = l0) as ->.
    { rewrite Hd', Hid in Hget. change (reader_GetLocation (newID env) (server_now env) d3 = Ok l) in Hget. congruence. }
    destruct (created_reads_back _ _ _ _ _ _ _ HI1 HI3 Hok1 Hnew Hcr) as (cats & H3 & H4 & H5 & H6).
    exists a2, cats. by rewrite Hid in *.
Qed.

End reads.

(** The kiosk entered by an administrator. *)
Definition kiosk_input : CreateLocationInput := {|
  cl_Key := ident "0e05";
  cl_Input := {| i_Name := "Kiosk "; i_IsSupplier := true; i_CategoryIDs := [meals; drinks]; i_BuildingID := hall;
    i_Floor := None; i_Coordinates := Some {| o_Latitude := one_and_half; o_Longitude := one_and_half |};
    i_OpensAt := Some {| k_Hour := 8; k_Minute := 30 |}; i_ClosesAt := Some {| k_Hour := 20; k_Minute := 0 |};
    i_Contact := Some "at the counter"; i_Details := EmptyString |} |}.

Lemma created_location_reads_back_witness :
  ∃ l d', Create root_auth kiosk_input (senv 0 "d002") no_faults imported = (Ok l, d') ∧
  ∃ i cats, normalizeInput (cl_Input kiosk_input) = Ok i ∧ input_of l = i <| i_CategoryIDs := cats |>
    ∧ cats ≡ₚ i_CategoryIDs i ∧ l_Revision l = 1 ∧ l_ArchivedAt l = None
    ∧ reader_GetLocation (l_ID l) (server_now (senv 0 "d002")) d' = Ok l.
Proof.
  destruct (call_succeeds (Create root_auth kiosk_input (senv 0 "d002") no_faults imported)) as [l Hl];
    [by vm_compute|].
  eexists l, _. split; [exact Hl|].
  eapply (created_location_reads_back root_auth kiosk_input (senv 0 "d002") no_faults imported l);
    [apply imported_Inv|by vm_compute|exact Hl|apply lookup_empty].
Defined.

Lemma sql_state_is_State_witness :
  sql_state (stored_time (noon + 1)) {| d_ID := the_repairs; d_LocationID := the_place; d_StartsAt := noon + 1000;
    d_EndsAt := None; d_EndedAt := None; d_CancelledAt := None; d_Reason := "Repairs"; d_CreatedBy := cl_ID root;
    d_Revision := 1; d_CreatedAt := noon; d_UpdatedAt := noon |}
  = State {| d_ID := the_repairs; d_LocationID := the_place; d_StartsAt := noon + 1000;
    d_EndsAt := None; d_EndedAt := None; d_CancelledAt := None; d_Reason := "Repairs"; d_CreatedBy := cl_ID root;
    d_Revision := 1; d_CreatedAt := noon; d_UpdatedAt := noon |} (noon + 1).
Proof. apply sql_state_is_State. vm_compute. reflexivity. Defined.

Lemma normalizeProposal_retracts_witness :
  ∃ p', normalizeProposal kiosk = Ok p' ∧ proposal_ok p' ∧ normalizeProposal p' = Ok p'.
Proof.
  eexists. split; [vm_compute; reflexivity|].
  apply (normalizeProposal_retracts kiosk). vm_compute. reflexivity.
Defined.

(** A stranger reads the approved request. *)
Lemma requests_disclosed_witness :
  ∃ q d', GetRequest stranger the_request (senv 7 "0000") no_faults st_4 = (Ok q, d') ∧ d' = st_4
    ∧ ∃ rid q0, sql_id the_request = Some rid ∧ stored_as st_4 rid q0 ∧ disclosed stranger q0 q.
Proof.
  destruct (call_succeeds (GetRequest stranger the_request (senv 7 "0000") no_faults st_4)) as [q Hq];
    [by vm_compute|].
  eexists q, _. split; [exact Hq|].
  eapply (proj1 (requests_disclosed stranger (senv 7 "0000") no_faults st_4 st_4_Inv)). exact Hq.
Defined.
