(* ===== verification/UserTypes.v ===== *)
(** * User: domain types

    user-service/internal: models, the errors of store, service, jwt, admin and
    review, jwt/contracts.go and pkg/auth/tokenclaims. Field names carry the
    letter of their struct: [u_] a user, [t_] a magic-link token, [s_] a session,
    [rc_] a role change, [aw_] a warning, [v_] a review, [vr_] its removal. The
    column profile_picture_key, which no code reads or writes, is left out. *)
From stdpp Require Import prelude gmap strings list.
From Stdlib Require Import ZArith Lia SpecFloat.
From S2P Require Import Prelude.
From S2P Require Import GoLib.
From S2P Require Import GoText.
From S2P Require Import GoFloat.

Local Open Scope Z_scope.
Local Open Scope foc_scope.

(** ** Errors *)

Inductive Error :=
(** store/store.go *)
| ErrNotFound | ErrDuplicate | ErrRoleConflict | ErrChallengeRejected | ErrSessionRejected | ErrInUse
(** jwt/contracts.go *)
| ErrAlreadyRegistered | ErrInvalidEmail | ErrInvalidRegistration | ErrLoginFailed
| ErrRegistrationFailed | ErrRefreshFailed | ErrUnavailable
(** service *)
| ErrEmailDomainNotAllowed | ErrUnauthenticated | ErrPermissionDenied | ErrInvalidProfile
| ErrUserNotFound | ErrInvalidRoleChange | ErrRoleUnchanged | ErrConcurrentRoleEdit
(** admin: the errors of its repository, and what the service reports *)
| ErrDomainNotFound | ErrDomainAlreadyExists | ErrInvalidDomain
| ErrDomainAlreadyAllowed | ErrInvalidAllowedDomain | ErrAllowedDomainNotFound
(** review: the errors of its repository, and what the service reports *)
| ErrReviewNotFound | ErrReviewAlreadyExists | ErrReviewInvalid
| ErrSelfReview | ErrReviewerNotFound | ErrRevieweeNotFound | ErrInvalidReviewData
| ErrReviewExists | ErrNoSuchReview | ErrRemovalReason | ErrOffsetOverflow
(** An error that no code tests for. *)
| ErrOther (message : string)
(** A database error, by SQLSTATE and constraint. *)
| Pg (sqlstate constraint : string).
#[export] Instance Error_eq_dec : EqDecision Error.
Proof. solve_decision. Defined.

(** ** Identifiers

    A uuid.UUID is its canonical text; [uuid_nil] is the zero value. *)
Definition uuid_nil : string := "00000000-0000-0000-0000-000000000000".

(** ** Roles (models/role.go) *)

Inductive RoleName := RoleSuperAdmin | RoleAdmin | RoleUser | RoleSuspended | OtherRole (name : string).
#[export] Instance RoleName_eq_dec : EqDecision RoleName.
Proof. solve_decision. Defined.

Definition AllRoles : list RoleName := [RoleSuperAdmin; RoleAdmin; RoleUser; RoleSuspended].
Definition Valid (r : RoleName) : bool := bool_decide (r ∈ AllRoles).
Definition IsAdmin (r : RoleName) : bool := same r RoleAdmin || same r RoleSuperAdmin.

(** ** Users (models/user.go, models/base.go)

    The last two columns belong to package review. *)
Record User := mkUser {
  u_ID : string;
  u_Email : string;
  u_DisplayName : string;
  u_Description : string;
  u_PhoneNumber : option string;
  u_Role : RoleName;
  u_CreatedAt : Time;
  u_UpdatedAt : Time;
  u_DeletedAt : option Time;
  u_CreatedBy : option string;
  u_UpdatedBy : option string;
  u_ReviewCount : Z;
  u_AvgRating : Float64;
}.
#[export] Instance User_eq_dec : EqDecision User.
Proof. solve_decision. Defined.
#[export] Instance User_eta : Eta User := λ u,
  mkUser (u_ID u) (u_Email u) (u_DisplayName u) (u_Description u) (u_PhoneNumber u) (u_Role u)
    (u_CreatedAt u) (u_UpdatedAt u) (u_DeletedAt u) (u_CreatedBy u) (u_UpdatedBy u)
    (u_ReviewCount u) (u_AvgRating u).
#[export] Instance set_u_ID : Setter u_ID := ltac:(build_setter u_ID).
#[export] Instance set_u_DisplayName : Setter u_DisplayName := ltac:(build_setter u_DisplayName).
#[export] Instance set_u_Description : Setter u_Description := ltac:(build_setter u_Description).
#[export] Instance set_u_PhoneNumber : Setter u_PhoneNumber := ltac:(build_setter u_PhoneNumber).
#[export] Instance set_u_Role : Setter u_Role := ltac:(build_setter u_Role).
#[export] Instance set_u_CreatedAt : Setter u_CreatedAt := ltac:(build_setter u_CreatedAt).
#[export] Instance set_u_UpdatedAt : Setter u_UpdatedAt := ltac:(build_setter u_UpdatedAt).
#[export] Instance set_u_DeletedAt : Setter u_DeletedAt := ltac:(build_setter u_DeletedAt).
#[export] Instance set_u_UpdatedBy : Setter u_UpdatedBy := ltac:(build_setter u_UpdatedBy).
#[export] Instance set_u_ReviewCount : Setter u_ReviewCount := ltac:(build_setter u_ReviewCount).
#[export] Instance set_u_AvgRating : Setter u_AvgRating := ltac:(build_setter u_AvgRating).

(** The struct that Go code fills in before creating a user: the zero value of
    what it leaves out. *)
Definition new_user (email name : string) (phone : option string) (role : RoleName) : User := {|
  u_ID := uuid_nil; u_Email := email; u_DisplayName := name; u_Description := EmptyString;
  u_PhoneNumber := phone; u_Role := role; u_CreatedAt := zero_time; u_UpdatedAt := zero_time;
  u_DeletedAt := None; u_CreatedBy := None; u_UpdatedBy := None;
  u_ReviewCount := 0; u_AvgRating := S754_zero false |}.

Definition IsSuspended (u : User) : bool := same (u_Role u) RoleSuspended.

(** ** Tokens and sessions (models/auth.go)

    A token is known by its digest. The columns requested_ip, user_agent and ip,
    which no code writes, are left out. *)
Inductive TokenPurpose := PurposeRegister | PurposeLogin.
#[export] Instance TokenPurpose_eq_dec : EqDecision TokenPurpose.
Proof. solve_decision. Defined.

Definition MagicLinkTTL : Duration := 10 * Minute.

Record AuthToken := mkAuthToken {
  t_ID : string;
  t_TokenHash : string;
  t_Purpose : TokenPurpose;
  t_Email : string;
  t_UserID : option string;
  t_ExpiresAt : Time;
  t_UsedAt : option Time;
  t_CreatedAt : Time;
  t_UpdatedAt : Time;
  t_DeletedAt : option Time;
}.
#[export] Instance AuthToken_eta : Eta AuthToken := λ t,
  mkAuthToken (t_ID t) (t_TokenHash t) (t_Purpose t) (t_Email t) (t_UserID t) (t_ExpiresAt t)
    (t_UsedAt t) (t_CreatedAt t) (t_UpdatedAt t) (t_DeletedAt t).
#[export] Instance set_t_UsedAt : Setter t_UsedAt := ltac:(build_setter t_UsedAt).
#[export] Instance set_t_UpdatedAt : Setter t_UpdatedAt := ltac:(build_setter t_UpdatedAt).
#[export] Instance set_t_DeletedAt : Setter t_DeletedAt := ltac:(build_setter t_DeletedAt).

Record Session := mkSession {
  s_ID : string;
  s_TokenHash : string;
  s_UserID : string;
  s_LastSeenAt : Time;
  s_ExpiresAt : Time;
  s_RevokedAt : option Time;
  s_CreatedAt : Time;
  s_UpdatedAt : Time;
  s_DeletedAt : option Time;
}.
#[export] Instance Session_eta : Eta Session := λ s,
  mkSession (s_ID s) (s_TokenHash s) (s_UserID s) (s_LastSeenAt s) (s_ExpiresAt s) (s_RevokedAt s)
    (s_CreatedAt s) (s_UpdatedAt s) (s_DeletedAt s).
#[export] Instance set_s_TokenHash : Setter s_TokenHash := ltac:(build_setter s_TokenHash).
#[export] Instance set_s_RevokedAt : Setter s_RevokedAt := ltac:(build_setter s_RevokedAt).
#[export] Instance set_s_UpdatedAt : Setter s_UpdatedAt := ltac:(build_setter s_UpdatedAt).
#[export] Instance set_s_DeletedAt : Setter s_DeletedAt := ltac:(build_setter s_DeletedAt).

Definition IsActive (s : Session) (t : Time) : bool :=
  negb (is_some (s_RevokedAt s)) && Before t (s_ExpiresAt s).

Record AllowedEmailDomain := {
  ad_ID : string;
  ad_Domain : string;
  ad_CreatedBy : option string;
}.

(** ** Moderation (models/moderation.go) *)

Record RoleChange := {
  rc_ID : string;
  rc_UserID : string;
  rc_FromRole : RoleName;
  rc_ToRole : RoleName;
  rc_Reason : option string;
  rc_CreatedBy : option string;
  rc_CreatedAt : Time;
}.

Inductive WarningStatus := WarningActive | WarningRemoved.
#[export] Instance WarningStatus_eq_dec : EqDecision WarningStatus.
Proof. solve_decision. Defined.

Record AccountWarning := mkAccountWarning {
  aw_ID : string;
  aw_UserID : string;
  aw_RequestID : string;
  aw_ReportID : option string;
  aw_Reason : string;
  aw_Status : WarningStatus;
  aw_SourceEventID : option string;
  aw_RemovedAt : option Time;
  aw_RemovedReason : option string;
  aw_AppealID : option string;
  aw_CreatedAt : Time;
  aw_UpdatedBy : option string;
}.
#[export] Instance AccountWarning_eq_dec : EqDecision AccountWarning.
Proof. solve_decision. Defined.

(** ** The user-created outbox (models/user_created_outbox.go, user/events.go) *)

Record CreatedEvent := {
  ce_EventID : string;
  ce_UserID : string;
  ce_Email : string;
  ce_DisplayName : string;
  ce_CreatedAt : Time;
}.

Record UserCreatedOutbox := mkUserCreatedOutbox {
  ob_EventID : string;
  ob_UserID : string;
  ob_Email : string;
  ob_DisplayName : string;
  ob_UserCreatedAt : Time;
  ob_PayloadVersion : Z;
  ob_CreatedAt : Time;
  ob_AvailableAt : Time;
  ob_PublishedAt : option Time;
  ob_LeaseToken : option string;
  ob_LeaseUntil : option Time;
}.
#[export] Instance UserCreatedOutbox_eq_dec : EqDecision UserCreatedOutbox.
Proof. solve_decision. Defined.
#[export] Instance UserCreatedOutbox_eta : Eta UserCreatedOutbox := λ o,
  mkUserCreatedOutbox (ob_EventID o) (ob_UserID o) (ob_Email o) (ob_DisplayName o) (ob_UserCreatedAt o)
    (ob_PayloadVersion o) (ob_CreatedAt o) (ob_AvailableAt o) (ob_PublishedAt o) (ob_LeaseToken o)
    (ob_LeaseUntil o).
#[export] Instance set_ob_AvailableAt : Setter ob_AvailableAt := ltac:(build_setter ob_AvailableAt).
#[export] Instance set_ob_PublishedAt : Setter ob_PublishedAt := ltac:(build_setter ob_PublishedAt).
#[export] Instance set_ob_LeaseToken : Setter ob_LeaseToken := ltac:(build_setter ob_LeaseToken).
#[export] Instance set_ob_LeaseUntil : Setter ob_LeaseUntil := ltac:(build_setter ob_LeaseUntil).

(** ** Reviews (review/model.go) *)

Record Review := mkReview {
  v_ID : string;
  v_ReviewerID : string;
  v_RevieweeID : string;
  v_OrderID : string;
  v_Rating : Z;
  v_Comment : string;
  v_CreatedAt : Time;
  v_DeletedAt : option Time;
}.
#[export] Instance Review_eq_dec : EqDecision Review.
Proof. solve_decision. Defined.
#[export] Instance Review_eta : Eta Review := λ v,
  mkReview (v_ID v) (v_ReviewerID v) (v_RevieweeID v) (v_OrderID v) (v_Rating v) (v_Comment v)
    (v_CreatedAt v) (v_DeletedAt v).
#[export] Instance set_v_DeletedAt : Setter v_DeletedAt := ltac:(build_setter v_DeletedAt).

Record ReviewSubmission := { rs_Rating : Z; rs_Comment : string }.

Record ReviewRemoval := {
  vr_ID : string;
  vr_ReviewID : string;
  vr_ReviewerID : string;
  vr_RevieweeID : string;
  vr_OrderID : string;
  vr_Reason : string;
  vr_CreatedAt : Time;
  vr_CreatedBy : string;
}.

(** ** Tokens on the wire (jwt/contracts.go, pkg/auth/tokenclaims) *)

Inductive TokenUse := AccessToken | RefreshToken | OtherUse (name : string).
#[export] Instance TokenUse_eq_dec : EqDecision TokenUse.
Proof. solve_decision. Defined.

(** The role claim of an access token; the empty one of a refresh token. *)
Inductive ClaimRole := ClaimSuperAdmin | ClaimAdmin | ClaimUser | ClaimSuspended | NoRole
                     | OtherClaim (name : string).
#[export] Instance ClaimRole_eq_dec : EqDecision ClaimRole.
Proof. solve_decision. Defined.

Definition claim_valid (r : ClaimRole) : bool :=
  match r with ClaimSuperAdmin | ClaimAdmin | ClaimUser | ClaimSuspended => true | _ => false end.

(** jwt.Claims: what the service signs and reads. *)
Record Claims := {
  cl_Type : TokenUse;
  cl_Subject : string;
  cl_SessionID : string;
  cl_Role : ClaimRole;
  cl_IssuedAt : Time;
  cl_ExpiresAt : Time;
  cl_TokenID : string;
}.

(** tokenclaims.Claims: the wire format. Its times are whole seconds, here the
    count since the zero time. *)
Record TokenClaims := {
  tc_Subject : string;
  tc_SessionID : string;
  tc_TokenUse : TokenUse;
  tc_Role : ClaimRole;
  tc_ID : string;
  tc_IssuedAt : option Z;
  tc_ExpiresAt : option Z;
  tc_NotBefore : option Z;
}.

Record AuthTokens := {
  at_AccessToken : string;
  at_RefreshToken : string;
  at_AccessExpiry : Time;
  at_RefreshExpiry : Time;
}.

Record Profile := { pf_DisplayName : string; pf_PhoneNumber : string }.
