(* ===== verification/UserDB.v ===== *)
(** * User: the database

    user-service/migrations and the statements that store, internal/admin and
    internal/review run on it. gorm adds [deleted_at IS NULL] to the statements on
    a model with a soft delete and writes created_at and updated_at from its own
    clock; the columns of type citext compare in lower case. role_changes is kept
    in the order of insertion. Clocks and drawn identifiers are arguments. *)
From stdpp Require Import prelude gmap strings list sorting.
From Stdlib Require Import ZArith Lia SpecFloat.
From S2P Require Import Prelude.
From S2P Require Import GoLib.
From S2P Require Import GoText.
From S2P Require Import GoFloat.
From S2P Require Import UserTypes.

Local Open Scope Z_scope.
Local Open Scope foc_scope.

Record UDB := mkUDB {
  users : gmap string User;
  auth_tokens : gmap string AuthToken;
  sessions : gmap string Session;
  allowed_domains : gmap string AllowedEmailDomain;
  (** The singleton row: the user and when. *)
  admin_bootstrap : option (string * Time);
  role_changes : list RoleChange;
  account_warnings : gmap string AccountWarning;
  (** By user and supplier. *)
  favourite_suppliers : gmap (string * string) Time;
  user_created_outbox : gmap string UserCreatedOutbox;
  reviews : gmap string Review;
  review_removals : gmap string ReviewRemoval;
}.
#[export] Instance UDB_eta : Eta UDB := λ d,
  mkUDB (users d) (auth_tokens d) (sessions d) (allowed_domains d) (admin_bootstrap d) (role_changes d)
    (account_warnings d) (favourite_suppliers d) (user_created_outbox d) (reviews d) (review_removals d).
#[export] Instance set_users : Setter users := ltac:(build_setter users).
#[export] Instance set_auth_tokens : Setter auth_tokens := ltac:(build_setter auth_tokens).
#[export] Instance set_sessions : Setter sessions := ltac:(build_setter sessions).
#[export] Instance set_allowed_domains : Setter allowed_domains := ltac:(build_setter allowed_domains).
#[export] Instance set_admin_bootstrap : Setter admin_bootstrap := ltac:(build_setter admin_bootstrap).
#[export] Instance set_role_changes : Setter role_changes := ltac:(build_setter role_changes).
#[export] Instance set_account_warnings : Setter account_warnings := ltac:(build_setter account_warnings).
#[export] Instance set_favourite_suppliers : Setter favourite_suppliers :=
  ltac:(build_setter favourite_suppliers).
#[export] Instance set_user_created_outbox : Setter user_created_outbox :=
  ltac:(build_setter user_created_outbox).
#[export] Instance set_reviews : Setter reviews := ltac:(build_setter reviews).
#[export] Instance set_review_removals : Setter review_removals := ltac:(build_setter review_removals).

(** The migrations leave every table empty but roles. *)
Definition empty_db : UDB := mkUDB ∅ ∅ ∅ ∅ None [] ∅ ∅ ∅ ∅ ∅.

(** ** Statement errors *)

Abbreviation check b := (guard_ok b (Pg "23514" EmptyString)).
Abbreviation unique b := (guard_ok b (Pg "23505" EmptyString)).
Abbreviation references b := (guard_ok b (Pg "23503" EmptyString)).
Abbreviation valid_text b := (guard_ok b (Pg "22021" EmptyString)).

(** ** citext

    The database's [lower], and the text by which its collation orders. *)
Class CIText := { citext_lower : string → string; citext_key : string → string }.
Definition same_ci `{CIText} (a b : string) : bool := same (citext_lower a) (citext_lower b).

Definition live {A} (deleted : A → option Time) (o : option A) : option A :=
  x ← o; if is_some (deleted x) then None else Some x.

(** ** users *)

Definition users_check (u : User) : bool :=
  within 1 100 (char_length (btrim (u_DisplayName u)))
  && (char_length (u_Description u) <=? 500)
  && opt_check (λ p, char_length p <=? 20) (u_PhoneNumber u).
Definition users_text (u : User) : bool :=
  no_nul (u_Email u) && no_nul (u_DisplayName u) && no_nul (u_Description u) && opt_text_ok (u_PhoneNumber u).

Definition get_user (id : string) (d : UDB) : option User := live u_DeletedAt (users d !! id).

Section statements.
  Context `{CIText}.

(** idx_users_email_live: among the users that are not deleted. *)
Definition email_unique (u : User) (d : UDB) : bool :=
  is_some (u_DeletedAt u)
  || bool_decide (map_Forall (λ id w, id = u_ID u ∨ is_Some (u_DeletedAt w)
                                      ∨ same_ci (u_Email w) (u_Email u) = false) (users d)).

Definition user_by_email (email : string) (d : UDB) : option User :=
  find_first (λ u, negb (is_some (u_DeletedAt u)) && same_ci (u_Email u) email)
    (snd <$> map_to_list (users d)).

Definition stored_user (u : User) : User :=
  u <| u_CreatedAt := stored_time (u_CreatedAt u) |> <| u_UpdatedAt := stored_time (u_UpdatedAt u) |>.

Definition insert_user (u : User) (d : UDB) : result Error UDB :=
  _ ← valid_text (users_text u);
  _ ← check (users_check u);
  _ ← unique (negb (is_some (users d !! u_ID u)) && email_unique u d);
  _ ← references (Valid (u_Role u));
  mret (d <| users := <[u_ID u := stored_user u]> (users d) |>).

Definition written_user (u : User) : User := u <| u_UpdatedAt := stored_time (u_UpdatedAt u) |>.

(** UPDATE of the live user [id] where [p]: the number of rows. *)
Definition update_user (id : string) (p : User → bool) (f : User → User) (d : UDB)
    : result Error (UDB * Z) :=
  match get_user id d with
  | Some u =>
      if p u then
        let u' := written_user (f u) in
        _ ← valid_text (users_text u');
        _ ← check (users_check u');
        _ ← references (Valid (u_Role u') && opt_check (λ b, is_some (users d !! b)) (u_UpdatedBy u'));
        mret (d <| users := <[id := u']> (users d) |>, 1)
      else mret (d, 0)
  | None => mret (d, 0)
  end.

(** ** auth_tokens *)

Definition auth_tokens_check (t : AuthToken) : bool :=
  (t_CreatedAt t <? t_ExpiresAt t) && (same (t_Purpose t) PurposeRegister || is_some (t_UserID t)).

Definition stored_token (t : AuthToken) : AuthToken := {|
  t_ID := t_ID t; t_TokenHash := t_TokenHash t; t_Purpose := t_Purpose t; t_Email := t_Email t;
  t_UserID := t_UserID t; t_ExpiresAt := stored_time (t_ExpiresAt t); t_UsedAt := stored_times (t_UsedAt t);
  t_CreatedAt := stored_time (t_CreatedAt t); t_UpdatedAt := stored_time (t_UpdatedAt t);
  t_DeletedAt := stored_times (t_DeletedAt t) |}.

Definition insert_token (t : AuthToken) (d : UDB) : result Error UDB :=
  let t := stored_token t in
  _ ← valid_text (no_nul (t_Email t));
  _ ← check (auth_tokens_check t);
  _ ← unique (negb (is_some (auth_tokens d !! t_ID t))
              && bool_decide (map_Forall (λ _ w, t_TokenHash w ≠ t_TokenHash t) (auth_tokens d)));
  _ ← references (opt_check (λ u, is_some (users d !! u)) (t_UserID t));
  mret (d <| auth_tokens := <[t_ID t := t]> (auth_tokens d) |>).

(** UPDATE ... WHERE token_hash AND purpose AND used_at IS NULL AND
    expires_at > now RETURNING *. *)
Definition consumable (hash : string) (purpose : TokenPurpose) (now : Time) (t : AuthToken) : bool :=
  same (t_TokenHash t) hash && same (t_Purpose t) purpose && negb (is_some (t_UsedAt t))
  && (stored_time now <? t_ExpiresAt t) && negb (is_some (t_DeletedAt t)).

Definition consume_token (hash : string) (purpose : TokenPurpose) (now : Time) (d : UDB)
    : UDB * option AuthToken :=
  match find_first (consumable hash purpose now) (snd <$> map_to_list (auth_tokens d)) with
  | Some t =>
      let t' := t <| t_UsedAt := Some (stored_time now) |> <| t_UpdatedAt := stored_time now |> in
      (d <| auth_tokens := <[t_ID t := t']> (auth_tokens d) |>, Some t')
  | None => (d, None)
  end.

(** ** sessions *)

Definition sessions_check (s : Session) : bool := s_CreatedAt s <? s_ExpiresAt s.

Definition stored_session (s : Session) : Session := {|
  s_ID := s_ID s; s_TokenHash := s_TokenHash s; s_UserID := s_UserID s;
  s_LastSeenAt := stored_time (s_LastSeenAt s); s_ExpiresAt := stored_time (s_ExpiresAt s);
  s_RevokedAt := stored_times (s_RevokedAt s); s_CreatedAt := stored_time (s_CreatedAt s);
  s_UpdatedAt := stored_time (s_UpdatedAt s); s_DeletedAt := stored_times (s_DeletedAt s) |}.

Definition session_hash_unique (id hash : string) (d : UDB) : bool :=
  bool_decide (map_Forall (λ i w, i = id ∨ s_TokenHash w ≠ hash) (sessions d)).

Definition insert_session (s : Session) (d : UDB) : result Error UDB :=
  let s := stored_session s in
  _ ← check (sessions_check s);
  _ ← unique (negb (is_some (sessions d !! s_ID s)) && session_hash_unique (s_ID s) (s_TokenHash s) d);
  _ ← references (is_some (users d !! s_UserID s));
  mret (d <| sessions := <[s_ID s := s]> (sessions d) |>).

Definition update_session_hash (id hash : string) (at_ : Time) (d : UDB) : result Error (UDB * Z) :=
  match live s_DeletedAt (sessions d !! id) with
  | Some s =>
      _ ← unique (session_hash_unique id hash d);
      mret (d <| sessions := <[id := s <| s_TokenHash := hash |> <| s_UpdatedAt := stored_time at_ |>]>
              (sessions d) |>, 1)
  | None => mret (d, 0)
  end.

(** UPDATE ... SET revoked_at WHERE id AND token_hash AND revoked_at IS NULL AND
    expires_at > now: the number of rows. *)
Definition revoke_session (id hash : string) (now at_ : Time) (d : UDB) : UDB * Z :=
  match live s_DeletedAt (sessions d !! id) with
  | Some s =>
      if same (s_TokenHash s) hash && negb (is_some (s_RevokedAt s)) && (stored_time now <? s_ExpiresAt s)
      then (d <| sessions := <[id := s <| s_RevokedAt := Some (stored_time now) |>
                                       <| s_UpdatedAt := stored_time at_ |>]> (sessions d) |>, 1)
      else (d, 0)
  | None => (d, 0)
  end.

Definition unrevoked (user : string) (s : Session) : bool :=
  same (s_UserID s) user && negb (is_some (s_RevokedAt s)) && negb (is_some (s_DeletedAt s)).

Definition revoke_sessions (user : string) (now : Time) (d : UDB) : UDB * Z :=
  (d <| sessions := (λ s, if unrevoked user s
                          then s <| s_RevokedAt := Some (stored_time now) |>
                                 <| s_UpdatedAt := stored_time now |> else s) <$> sessions d |>,
   Z.of_nat (length (filter (λ s, unrevoked user s = true) (snd <$> map_to_list (sessions d))))).

(** ** allowed_email_domains

    The check matches case-insensitively: letters, digits, dots and hyphens, and
    after the last dot two letters or more. *)
Definition letter (c : Z) : bool := within 97 122 c || within 65 90 c.
Definition domain_char (c : Z) : bool := letter c || within 48 57 c || (c =? 46) || (c =? 45).
Definition domain_check (domain : string) : bool :=
  let l := code <$> reverse (String.list_ascii_of_string domain) in
  match list_find (λ c, letter c = false) l with
  | Some (n, 46) =>
      (Nat.leb 2 n) && negb (bool_decide (drop (S n) l = [])) && forallb domain_char (drop (S n) l)
  | _ => false
  end.

Definition domain_constraint : string := "allowed_email_domains_domain_key".
Definition domain_check_constraint : string := "allowed_email_domains_domain_check".

Definition insert_domain (id domain actor : string) (d : UDB) : result Error UDB :=
  _ ← valid_text (no_nul domain);
  _ ← guard_ok (domain_check domain) (Pg "23514" domain_check_constraint);
  _ ← unique (negb (is_some (allowed_domains d !! id)));
  _ ← guard_ok (bool_decide (map_Forall (λ _ w, same_ci (ad_Domain w) domain = false) (allowed_domains d)))
               (Pg "23505" domain_constraint);
  _ ← references (is_some (users d !! actor));
  mret (d <| allowed_domains := <[id := {| ad_ID := id; ad_Domain := domain; ad_CreatedBy := Some actor |}]>
          (allowed_domains d) |>).

(** EXISTS (... WHERE domain = $1). *)
Definition domain_allowed (domain : string) (d : UDB) : bool :=
  negb (bool_decide (map_Forall (λ _ w, same_ci (ad_Domain w) domain = false) (allowed_domains d))).

(** DELETE ... WHERE id: the number of rows. *)
Definition delete_domain (id : string) (d : UDB) : UDB * Z :=
  match allowed_domains d !! id with
  | Some _ => (d <| allowed_domains := delete id (allowed_domains d) |>, 1)
  | None => (d, 0)
  end.

End statements.

(** ** role_changes, admin_bootstrap *)

Definition role_changes_check (c : RoleChange) : bool :=
  opt_check (λ r, char_length r <=? 2000) (rc_Reason c)
  && negb (same (rc_FromRole c) (rc_ToRole c))
  && ((negb (same (rc_FromRole c) RoleSuspended) && negb (same (rc_ToRole c) RoleSuspended))
      || (0 <? char_length (btrim (default EmptyString (rc_Reason c))))).

Definition stored_role_change (c : RoleChange) : RoleChange := {|
  rc_ID := rc_ID c; rc_UserID := rc_UserID c; rc_FromRole := rc_FromRole c; rc_ToRole := rc_ToRole c;
  rc_Reason := rc_Reason c; rc_CreatedBy := rc_CreatedBy c; rc_CreatedAt := stored_time (rc_CreatedAt c) |}.

Definition insert_role_change (c : RoleChange) (d : UDB) : result Error UDB :=
  _ ← valid_text (opt_text_ok (rc_Reason c));
  _ ← check (role_changes_check c);
  _ ← unique (bool_decide (rc_ID c ∉ rc_ID <$> role_changes d));
  _ ← references (Valid (rc_FromRole c) && Valid (rc_ToRole c) && is_some (users d !! rc_UserID c)
                  && opt_check (λ b, is_some (users d !! b)) (rc_CreatedBy c));
  mret (d <| role_changes := role_changes d ++ [stored_role_change c] |>).

Definition insert_bootstrap (user : string) (at_ : Time) (d : UDB) : result Error UDB :=
  _ ← unique (negb (is_some (admin_bootstrap d)));
  _ ← references (is_some (users d !! user));
  mret (d <| admin_bootstrap := Some (user, stored_time at_) |>).

(** ** account_warnings *)

Definition account_warnings_check (w : AccountWarning) : bool :=
  within 1 2000 (char_length (btrim (aw_Reason w)))
  && opt_check (λ r, char_length r <=? 2000) (aw_RemovedReason w)
  && Bool.eqb (same (aw_Status w) WarningRemoved) (is_some (aw_RemovedAt w)).

Definition warning_of_event (event : string) (d : UDB) : option AccountWarning :=
  find_first (λ w, same (aw_SourceEventID w) (Some event)) (snd <$> map_to_list (account_warnings d)).

Definition stored_warning (w : AccountWarning) : AccountWarning := {|
  aw_ID := aw_ID w; aw_UserID := aw_UserID w; aw_RequestID := aw_RequestID w; aw_ReportID := aw_ReportID w;
  aw_Reason := aw_Reason w; aw_Status := aw_Status w; aw_SourceEventID := aw_SourceEventID w;
  aw_RemovedAt := stored_times (aw_RemovedAt w); aw_RemovedReason := aw_RemovedReason w;
  aw_AppealID := aw_AppealID w; aw_CreatedAt := stored_time (aw_CreatedAt w);
  aw_UpdatedBy := aw_UpdatedBy w |}.

Definition put_warning (w : AccountWarning) (d : UDB) : result Error UDB :=
  let w := stored_warning w in
  _ ← valid_text (no_nul (aw_Reason w) && opt_text_ok (aw_RemovedReason w));
  _ ← check (account_warnings_check w);
  _ ← references (is_some (users d !! aw_UserID w) && opt_check (λ b, is_some (users d !! b)) (aw_UpdatedBy w));
  mret (d <| account_warnings := <[aw_ID w := w]> (account_warnings d) |>).

(** INSERT ... ON CONFLICT (source_event_id) DO NOTHING: the number of rows. *)
Definition insert_warning (w : AccountWarning) (d : UDB) : result Error (UDB * Z) :=
  match aw_SourceEventID w ≫= λ e, warning_of_event e d with
  | Some _ =>
      _ ← valid_text (no_nul (aw_Reason w) && opt_text_ok (aw_RemovedReason w));
      _ ← check (account_warnings_check w);
      mret (d, 0)
  | None =>
      _ ← unique (negb (is_some (account_warnings d !! aw_ID w)));
      d' ← put_warning w d;
      mret (d', 1)
  end.

(** ** user_created_outbox *)

Definition insert_fact (o : UserCreatedOutbox) (d : UDB) : result Error UDB :=
  _ ← valid_text (no_nul (ob_Email o) && no_nul (ob_DisplayName o));
  _ ← check (ob_PayloadVersion o =? 1);
  _ ← unique (negb (is_some (user_created_outbox d !! ob_EventID o))
              && bool_decide (map_Forall (λ _ w, ob_UserID w ≠ ob_UserID o) (user_created_outbox d)));
  mret (d <| user_created_outbox := <[ob_EventID o := o]> (user_created_outbox d) |>).

(** WHERE published_at IS NULL AND available_at <= $1 AND (lease_until IS NULL
    OR lease_until <= $1) ORDER BY created_at, event_id LIMIT 1. *)
Definition claimable (at_ : Time) (o : UserCreatedOutbox) : bool :=
  negb (is_some (ob_PublishedAt o)) && (ob_AvailableAt o <=? stored_time at_)
  && opt_check (λ u, u <=? stored_time at_) (ob_LeaseUntil o).
Definition oldest_fact (o p : UserCreatedOutbox) : Prop :=
  ob_CreatedAt o < ob_CreatedAt p
  ∨ (ob_CreatedAt o = ob_CreatedAt p ∧ string_le (ob_EventID o) (ob_EventID p)).
#[export] Instance oldest_fact_dec : RelDecision oldest_fact.
Proof. unfold RelDecision, oldest_fact. apply _. Defined.

Definition claim_fact (token : string) (eligible until : Time) (d : UDB)
    : UDB * option UserCreatedOutbox :=
  match merge_sort oldest_fact
          (filter (λ o, claimable eligible o = true) (snd <$> map_to_list (user_created_outbox d))) with
  | [] => (d, None)
  | o :: _ =>
      let o' := o <| ob_LeaseToken := Some token |> <| ob_LeaseUntil := Some (stored_time until) |> in
      (d <| user_created_outbox := <[ob_EventID o := o']> (user_created_outbox d) |>, Some o')
  end.

(** UPDATE of the leased, unpublished fact where [p]: the number of rows. *)
Definition update_fact (id token : string) (p : UserCreatedOutbox → bool)
    (f : UserCreatedOutbox → UserCreatedOutbox) (d : UDB) : UDB * Z :=
  match user_created_outbox d !! id with
  | Some o =>
      if same (ob_LeaseToken o) (Some token) && negb (is_some (ob_PublishedAt o)) && p o
      then (d <| user_created_outbox := <[id := f o]> (user_created_outbox d) |>, 1)
      else (d, 0)
  | None => (d, 0)
  end.

(** ** reviews (reviews.sql) *)

Definition reviews_check (v : Review) : bool :=
  within 1 5 (v_Rating v) && within 1 100000 (char_length (v_Comment v)).
Definition reviews_unique (v : Review) (d : UDB) : bool :=
  negb (is_some (reviews d !! v_ID v))
  && bool_decide (map_Forall (λ _ w, v_OrderID w = v_OrderID v →
       v_ReviewerID w ≠ v_ReviewerID v ∧ v_RevieweeID w ≠ v_RevieweeID v) (reviews d)).

Definition InsertReview (v : Review) (d : UDB) : result Error UDB :=
  _ ← valid_text (no_nul (v_Comment v));
  _ ← check (reviews_check v);
  _ ← unique (reviews_unique v d);
  _ ← references (is_some (users d !! v_ReviewerID v) && is_some (users d !! v_RevieweeID v));
  mret (d <| reviews := <[v_ID v := v]> (reviews d) |>).

Definition SoftDeleteReview (id : string) (now : Time) (d : UDB) : UDB * option Review :=
  match live v_DeletedAt (reviews d !! id) with
  | Some v => let v' := v <| v_DeletedAt := Some now |> in
              (d <| reviews := <[id := v']> (reviews d) |>, Some v')
  | None => (d, None)
  end.

Definition RecordReviewRemoval (r : ReviewRemoval) (d : UDB) : result Error UDB :=
  _ ← valid_text (no_nul (vr_Reason r));
  _ ← check (within 1 100000 (char_length (vr_Reason r)));
  _ ← unique (negb (is_some (review_removals d !! vr_ID r))
              && bool_decide (map_Forall (λ _ w, vr_ReviewID w ≠ vr_ReviewID r) (review_removals d)));
  _ ← references (is_some (reviews d !! vr_ReviewID r) && is_some (users d !! vr_CreatedBy r));
  mret (d <| review_removals := <[vr_ID r := r]> (review_removals d) |>).

(** The live reviews that a user received, or gave. *)
Definition received (user : string) (v : Review) : bool :=
  same (v_RevieweeID v) user && negb (is_some (v_DeletedAt v)).
Definition given (user : string) (v : Review) : bool :=
  same (v_ReviewerID v) user && negb (is_some (v_DeletedAt v)).
Definition reviews_where (p : Review → bool) (d : UDB) : list Review :=
  filter (λ v, p v = true) (snd <$> map_to_list (reviews d)).

(** COUNT and COALESCE(SUM(rating), 0). *)
Definition RevieweeStatistics (user : string) (d : UDB) : Z * Z :=
  let l := reviews_where (received user) d in (Z.of_nat (length l), lsum v_Rating l).

Definition UpdateRevieweeStats (count : Z) (avg : Float64) (user : string) (now : Time) (d : UDB)
    : result Error UDB :=
  match users d !! user with
  | Some u =>
      _ ← guard_ok (count <? 2 ^ 31) (Pg "22003" EmptyString);
      mret (d <| users := <[user := u <| u_ReviewCount := count |> <| u_AvgRating := avg |>
                                      <| u_UpdatedAt := now |>]> (users d) |>)
  | None => mret d
  end.

(** ORDER BY created_at DESC, id DESC. *)
Definition newest_review (v w : Review) : Prop :=
  v_CreatedAt w < v_CreatedAt v ∨ (v_CreatedAt v = v_CreatedAt w ∧ string_le (v_ID w) (v_ID v)).
#[export] Instance newest_review_dec : RelDecision newest_review.
Proof. unfold RelDecision, newest_review. apply _. Defined.
Definition newest_removal (r q : ReviewRemoval) : Prop :=
  vr_CreatedAt q < vr_CreatedAt r ∨ (vr_CreatedAt r = vr_CreatedAt q ∧ string_le (vr_ID q) (vr_ID r)).
#[export] Instance newest_removal_dec : RelDecision newest_removal.
Proof. unfold RelDecision, newest_removal. apply _. Defined.

(** A review joined with the names of its two users. *)
Definition named_review (d : UDB) (v : Review) : option (Review * string * string) :=
  reviewer ← users d !! v_ReviewerID v;
  reviewee ← users d !! v_RevieweeID v;
  Some (v, u_DisplayName reviewer, u_DisplayName reviewee).

Definition ListReviews (p : Review → bool) (offset limit : Z) (d : UDB)
    : list (Review * string * string) :=
  page_of offset limit (omap (named_review d) (merge_sort newest_review (reviews_where p d))).
Definition CountReviews (p : Review → bool) (d : UDB) : Z := Z.of_nat (length (reviews_where p d)).

Definition named_removal (d : UDB) (r : ReviewRemoval) : option (ReviewRemoval * string) :=
  creator ← users d !! vr_CreatedBy r;
  Some (r, u_DisplayName creator).

Definition ListReviewRemovals (offset limit : Z) (d : UDB) : list (ReviewRemoval * string) :=
  page_of offset limit (omap (named_removal d)
    (merge_sort newest_removal (snd <$> map_to_list (review_removals d)))).
Definition CountReviewRemovals (d : UDB) : Z := Z.of_nat (size (review_removals d)).

(** (reviewer_exists, reviewee_exists) *)
Definition ReviewParticipantsExist (reviewer reviewee : string) (d : UDB) : bool * bool :=
  (is_some (users d !! reviewer), is_some (users d !! reviewee)).
