(* ===== verification/UserStore.v ===== *)
(** * User: the persistence adapters

    user-service/internal/store and the repositories of internal/admin and
    internal/review: what each method makes of the rows and errors of its
    statements. A transaction locks the rows that it changes, so that transactions
    about the same rows do not overlap; a failing callback rolls everything back. *)
From stdpp Require Import prelude gmap strings list sorting.
From Stdlib Require Import ZArith Lia SpecFloat.
From S2P Require Import Prelude.
From S2P Require Import GoLib.
From S2P Require Import GoText.
From S2P Require Import GoFloat.
From S2P Require Import UserTypes.
From S2P Require Import UserDB.

Local Open Scope Z_scope.
Local Open Scope foc_scope.

(** What a call reads from its surroundings: the service's clock, gorm's and the
    database's, and what it draws at random: an identifier for each kind of row,
    the digest that a new session holds until its token is signed, and bytes. *)
Inductive Drawn := ForUser | ForToken | ForSession | ForChange | ForEvent | ForDomain | ForWarning
                 | ForReview | ForRemoval | ForLease.
Record Env := {
  now_ : Time;
  gorm_now : Time;
  server_now : Time;
  new_id : Drawn → string;
  placeholder : string;
  link_bytes : list Z;
  access_bytes : list Z;
  refresh_bytes : list Z;
}.

Definition Tx (A : Type) : Type := ST Error Env UDB A.

(** ** The boundary of a transaction

    A single statement outside a transaction is one of its own. Begin, a
    statement or the commit may fail; a failed commit may have been applied. *)
Record Faults := {
  begin_fault : option string;
  body_fault : option string;
  commit_fault : option (string * bool);
}.
Definition no_faults : Faults :=
  {| begin_fault := None; body_fault := None; commit_fault := None |}.

Definition fault (code : string) : Error := Pg code EmptyString.

Definition WithTransaction {A} (env : Env) (fl : Faults) (f : Tx A) (d : UDB) : result Error A * UDB :=
  match begin_fault fl, body_fault fl with
  | Some code, _ | None, Some code => (Err (fault code), d)
  | None, None =>
      match f env d with
      | Err e => (Err e, d)
      | Ok (a, d') =>
          match commit_fault fl with
          | Some (code, applied) => (Err (fault code), if applied : bool then d' else d)
          | None => (Ok a, d')
          end
      end
  end.

(** ** gorm's errors *)

Definition is_code (code : string) (e : Error) : bool :=
  match e with Pg c _ => same c code | _ => false end.
Definition ErrDuplicatedKey : Error → bool := is_code "23505".
Definition ErrForeignKeyViolated : Error → bool := is_code "23503".

Definition duplicate (e : Error) : Error := if ErrDuplicatedKey e then ErrDuplicate else e.
Definition duplicate_or_missing (e : Error) : Error :=
  if ErrDuplicatedKey e then ErrDuplicate else if ErrForeignKeyViolated e then ErrNotFound else e.
Definition missing (e : Error) : Error := if ErrForeignKeyViolated e then ErrNotFound else e.

Section store.
  Context `{CIText}.

(** ** Users (store/users.go) *)

Definition Users_GetByEmail (email : string) : Tx User :=
  u ← gets (user_by_email email);
  require u ErrNotFound.

Definition Users_GetByID (id : string) : Tx User :=
  u ← gets (get_user id);
  require u ErrNotFound.

(** GetByIDForUpdate locks the row until the transaction ends. *)
Definition Users_GetByIDForUpdate (id : string) : Tx User := Users_GetByID id.

(** What gorm and the column defaults fill in. *)
Definition created_user (env : Env) (u : User) : User :=
  let u := if same (u_ID u) uuid_nil then u <| u_ID := new_id env ForUser |> else u in
  let u := if same (u_Role u) (OtherRole EmptyString) then u <| u_Role := RoleUser |> else u in
  u <| u_CreatedAt := gorm_now env |> <| u_UpdatedAt := gorm_now env |>.

Definition Users_Create (u : User) : Tx User :=
  env ← ask;
  let u := created_user env u in
  _ ← reporting duplicate (exec_unit (insert_user u));
  mret u.

Definition nullString (value : option string) : option string :=
  match value with Some v => if nonempty v then Some v else None | None => None end.

(** UpdateActiveProfile writes only while the role is not suspended. *)
Definition Users_UpdateActiveProfile (u : User) : Tx unit :=
  env ← ask;
  n ← exec (update_user (u_ID u) (λ w, negb (same (u_Role w) RoleSuspended)) (λ w,
        w <| u_DisplayName := u_DisplayName u |> <| u_Description := u_Description u |>
          <| u_PhoneNumber := nullString (u_PhoneNumber u) |> <| u_UpdatedBy := u_UpdatedBy u |>
          <| u_UpdatedAt := gorm_now env |>));
  if n =? 0 then _ ← Users_GetByID (u_ID u); throw ErrRoleConflict else mret tt.

Record ListParams := { lp_Limit : Z; lp_Offset : Z; lp_Role : option RoleName }.
Definition DefaultPageSize : Z := 20.
Definition MaxPageSize : Z := 100.
Definition Normalize (p : ListParams) : ListParams :=
  let limit := if lp_Limit p <=? 0 then DefaultPageSize else lp_Limit p in
  {| lp_Limit := if MaxPageSize <? limit then MaxPageSize else limit;
     lp_Offset := if lp_Offset p <? 0 then 0 else lp_Offset p; lp_Role := lp_Role p |}.

(** ORDER BY created_at DESC, id. *)
Definition newest_user (u w : User) : Prop :=
  u_CreatedAt w < u_CreatedAt u ∨ (u_CreatedAt u = u_CreatedAt w ∧ string_le (u_ID u) (u_ID w)).
#[export] Instance newest_user_dec : RelDecision newest_user.
Proof. unfold RelDecision, newest_user. apply _. Defined.

Definition Users_List (p : ListParams) : Tx (list User * Z) :=
  let p := Normalize p in
  l ← gets (λ d, filter (λ u, u_DeletedAt u = None ∧ opt_check (λ r, same (u_Role u) r) (lp_Role p) = true)
                   (snd <$> map_to_list (users d)));
  mret (page_of (lp_Offset p) (lp_Limit p) (merge_sort newest_user l), Z.of_nat (length l)).

Record UserUpdate := {
  uu_DisplayName : option string;
  uu_Description : option string;
  uu_PhoneNumber : option string;
  uu_UpdatedBy : option string;
}.

Definition Users_Update (id : string) (in_ : UserUpdate) : Tx unit :=
  env ← ask;
  n ← exec (update_user id (λ _, true) (λ w,
        w <| u_DisplayName := default (u_DisplayName w) (uu_DisplayName in_) |>
          <| u_Description := default (u_Description w) (uu_Description in_) |>
          <| u_PhoneNumber := match uu_PhoneNumber in_ with
                              | Some p => nullString (Some p)
                              | None => u_PhoneNumber w
                              end |>
          <| u_UpdatedBy := uu_UpdatedBy in_ |> <| u_UpdatedAt := gorm_now env |>));
  ensure (negb (n =? 0)) ErrNotFound.

(** Soft deletes of what belongs to a user; favourites are removed. *)
Definition delete_of_user (id : string) (at_ : Time) (d : UDB) : UDB :=
  d <| sessions := (λ s, if same (s_UserID s) id && negb (is_some (s_DeletedAt s))
                         then s <| s_DeletedAt := Some at_ |> else s) <$> sessions d |>
    <| auth_tokens := (λ t, if same (t_UserID t) (Some id) && negb (is_some (t_DeletedAt t))
                            then t <| t_DeletedAt := Some at_ |> else t) <$> auth_tokens d |>
    <| favourite_suppliers := filter (λ f, f.1.1 ≠ id) (favourite_suppliers d) |>.

Definition Users_Delete (id : string) : Tx unit :=
  env ← ask;
  b ← gets admin_bootstrap;
  _ ← ensure (negb (same (fst <$> b) (Some id))) ErrInUse;
  u ← gets (get_user id);
  u ← require u ErrNotFound;
  _ ← modify (λ d, d <| users := <[id := u <| u_DeletedAt := Some (stored_time (gorm_now env)) |>]> (users d) |>);
  modify (delete_of_user id (stored_time (gorm_now env))).

Definition Users_ListFavourites (user : string) : Tx (gmap (string * string) Time) :=
  gets (λ d, filter (λ f, f.1.1 = user) (favourite_suppliers d)).

Definition Users_AddFavourite (user supplier : string) (now : Time) : Tx unit :=
  reporting missing (exec_unit (λ d,
    match favourite_suppliers d !! (user, supplier) with
    | Some _ => Ok d
    | None => _ ← references (is_some (users d !! user));
              mret (d <| favourite_suppliers := <[(user, supplier) := stored_time now]>
                      (favourite_suppliers d) |>)
    end)).

Definition Users_RemoveFavourite (user supplier : string) : Tx unit :=
  modify (λ d, d <| favourite_suppliers := delete (user, supplier) (favourite_suppliers d) |>).

(** ** Roles and warnings (store/admin.go) *)

Definition Admin_GetUser (id : string) : Tx User := Users_GetByID id.

Definition created_change (env : Env) (c : RoleChange) : RoleChange := {|
  rc_ID := new_id env ForChange; rc_UserID := rc_UserID c; rc_FromRole := rc_FromRole c;
  rc_ToRole := rc_ToRole c; rc_Reason := rc_Reason c; rc_CreatedBy := rc_CreatedBy c;
  rc_CreatedAt := gorm_now env |}.

(** ChangeRole: optimistic on the current role, and recorded. *)
Definition Admin_ChangeRole (c : RoleChange) : Tx RoleChange :=
  env ← ask;
  n ← exec (update_user (rc_UserID c) (λ w, same (u_Role w) (rc_FromRole c)) (λ w,
        w <| u_Role := rc_ToRole c |> <| u_UpdatedBy := rc_CreatedBy c |> <| u_UpdatedAt := gorm_now env |>));
  _ ← ensure (negb (n =? 0)) ErrRoleConflict;
  let c := created_change env c in
  _ ← exec_unit (insert_role_change c);
  mret c.

Inductive BootstrapOutcome := BootstrapCreated | BootstrapPromoted | BootstrapAlreadyDone.

Definition bootstrapReason : string := "admin bootstrap".

(** Bootstrap: the table lock serialises its callers. *)
Definition Admin_Bootstrap (u : User) : Tx (BootstrapOutcome * User) :=
  env ← ask;
  done_ ← gets admin_bootstrap;
  if is_some done_ then mret (BootstrapAlreadyDone, u)
  else
    existing ← gets (user_by_email (u_Email u));
    '(outcome, u) ←
      match existing with
      | None => u ← (let u := created_user env (u <| u_Role := RoleSuperAdmin |>) in
                     _ ← exec_unit (insert_user u); mret u);
                mret (BootstrapCreated, u)
      | Some w =>
          if same (u_Role w) RoleSuperAdmin then mret (BootstrapPromoted, w)
          else _ ← Admin_ChangeRole {| rc_ID := uuid_nil; rc_UserID := u_ID w; rc_FromRole := u_Role w;
                     rc_ToRole := RoleSuperAdmin; rc_Reason := Some bootstrapReason; rc_CreatedBy := None;
                     rc_CreatedAt := zero_time |};
               mret (BootstrapPromoted, w <| u_Role := RoleSuperAdmin |>)
      end;
    _ ← exec_unit (insert_bootstrap (u_ID u) (gorm_now env));
    mret (outcome, u).

(** ORDER BY created_at DESC. *)
Definition latest_change (c e : RoleChange) : Prop := rc_CreatedAt e <= rc_CreatedAt c.
#[export] Instance latest_change_dec : RelDecision latest_change.
Proof. unfold RelDecision, latest_change. apply _. Defined.
Definition Admin_RoleChanges (user : string) : Tx (list RoleChange) :=
  gets (λ d, merge_sort latest_change (filter (λ c, rc_UserID c = user) (role_changes d))).

Definition created_warning (env : Env) (w : AccountWarning) : AccountWarning := {|
  aw_ID := if same (aw_ID w) uuid_nil then new_id env ForWarning else aw_ID w;
  aw_UserID := aw_UserID w; aw_RequestID := aw_RequestID w; aw_ReportID := aw_ReportID w;
  aw_Reason := aw_Reason w; aw_Status := aw_Status w; aw_SourceEventID := aw_SourceEventID w;
  aw_RemovedAt := aw_RemovedAt w; aw_RemovedReason := aw_RemovedReason w; aw_AppealID := aw_AppealID w;
  aw_CreatedAt := gorm_now env; aw_UpdatedBy := aw_UpdatedBy w |}.

(** CreateWarning: true when inserted, false with the earlier warning of the event. *)
Definition Admin_CreateWarning (w : AccountWarning) : Tx (bool * AccountWarning) :=
  env ← ask;
  let w := created_warning env w in
  n ← exec (insert_warning w);
  if n =? 1 then mret (true, w)
  else existing ← gets (λ d, aw_SourceEventID w ≫= λ e, warning_of_event e d);
       existing ← require existing (ErrOther "record not found");
       mret (false, existing).

Definition Admin_GetWarning (id : string) : Tx AccountWarning :=
  w ← gets (λ d, account_warnings d !! id);
  require w ErrNotFound.

Definition removed_warning (w : AccountWarning) (now : Time) (reason appeal actor : option string)
    : AccountWarning := {|
  aw_ID := aw_ID w; aw_UserID := aw_UserID w; aw_RequestID := aw_RequestID w; aw_ReportID := aw_ReportID w;
  aw_Reason := aw_Reason w; aw_Status := WarningRemoved; aw_SourceEventID := aw_SourceEventID w;
  aw_RemovedAt := Some now; aw_RemovedReason := reason; aw_AppealID := appeal;
  aw_CreatedAt := aw_CreatedAt w; aw_UpdatedBy := actor |}.

Definition Admin_RemoveWarning (id : string) (now : Time) (reason appeal actor : option string)
    : Tx AccountWarning :=
  w ← gets (λ d, account_warnings d !! id);
  w ← require w ErrNotFound;
  _ ← ensure (same (aw_Status w) WarningActive) ErrNotFound;
  let w := stored_warning (removed_warning w now reason appeal actor) in
  _ ← exec_unit (put_warning w);
  mret w.

Definition latest_warning (w x : AccountWarning) : Prop := aw_CreatedAt x <= aw_CreatedAt w.
#[export] Instance latest_warning_dec : RelDecision latest_warning.
Proof. unfold RelDecision, latest_warning. apply _. Defined.
Definition Admin_Warnings (user : string) : Tx (list AccountWarning) :=
  gets (λ d, merge_sort latest_warning
               (filter (λ w, aw_UserID w = user) (snd <$> map_to_list (account_warnings d)))).

(** ** Magic-link tokens (store/auth_tokens.go) *)

Definition created_token (env : Env) (t : AuthToken) : AuthToken := {|
  t_ID := new_id env ForToken; t_TokenHash := t_TokenHash t; t_Purpose := t_Purpose t;
  t_Email := t_Email t; t_UserID := t_UserID t; t_ExpiresAt := t_ExpiresAt t; t_UsedAt := None;
  t_CreatedAt := gorm_now env; t_UpdatedAt := gorm_now env; t_DeletedAt := None |}.

Definition AuthTokens_Create (t : AuthToken) : Tx unit :=
  env ← ask;
  reporting duplicate_or_missing (exec_unit (insert_token (created_token env t))).

Definition AuthTokens_Consume (hash : string) (purpose : TokenPurpose) (now : Time) : Tx AuthToken :=
  t ← exec (λ d, Ok (consume_token hash purpose now d));
  require t ErrChallengeRejected.

(** ** Sessions (store/sessions.go) *)

Definition Sessions_Create (s : Session) : Tx Session :=
  env ← ask;
  let s := {| s_ID := new_id env ForSession; s_TokenHash := s_TokenHash s; s_UserID := s_UserID s;
              s_LastSeenAt := s_LastSeenAt s; s_ExpiresAt := s_ExpiresAt s; s_RevokedAt := None;
              s_CreatedAt := gorm_now env; s_UpdatedAt := gorm_now env; s_DeletedAt := None |} in
  _ ← reporting duplicate_or_missing (exec_unit (insert_session s));
  mret s.

Definition Sessions_UpdateTokenHash (id hash : string) : Tx unit :=
  env ← ask;
  n ← exec (update_session_hash id hash (gorm_now env));
  ensure (negb (n =? 0)) ErrNotFound.

Definition Sessions_Revoke (id hash : string) (now : Time) : Tx unit :=
  env ← ask;
  n ← exec (λ d, Ok (revoke_session id hash now (gorm_now env) d));
  ensure (negb (n =? 0)) ErrSessionRejected.

Definition Sessions_RevokeAllForUser (user : string) (now : Time) : Tx Z :=
  exec (λ d, Ok (revoke_sessions user now d)).

(** ** The outbox (store/user_created_outbox.go) *)

Definition outbox_row (env : Env) (e : CreatedEvent) : UserCreatedOutbox := {|
  ob_EventID := ce_EventID e; ob_UserID := ce_UserID e; ob_Email := ce_Email e;
  ob_DisplayName := ce_DisplayName e; ob_UserCreatedAt := stored_time (ce_CreatedAt e);
  ob_PayloadVersion := 1; ob_CreatedAt := server_now env; ob_AvailableAt := server_now env;
  ob_PublishedAt := None; ob_LeaseToken := None; ob_LeaseUntil := None |}.

Definition Outbox_Append (e : CreatedEvent) : Tx unit :=
  env ← ask;
  exec_unit (insert_fact (outbox_row env e)).

(** ** Allowed domains (admin/postgres_repository.go) *)

Definition Domains_IsDomainAllowed (domain : string) : Tx bool := gets (domain_allowed domain).

Definition domain_error (e : Error) : Error :=
  match e with
  | Pg code constraint =>
      if same code "23505" && same constraint domain_constraint then ErrDomainAlreadyExists
      else if same code "23514" && same constraint domain_check_constraint then ErrInvalidDomain
      else e
  | _ => e
  end.

Definition Domains_AllowDomain (domain actor : string) : Tx unit :=
  env ← ask;
  reporting domain_error (exec_unit (insert_domain (new_id env ForDomain) domain actor)).

Definition Domains_RemoveAllowedDomain (id : string) : Tx unit :=
  n ← exec (λ d, Ok (delete_domain id d));
  ensure (negb (n =? 0)) ErrDomainNotFound.

(** ORDER BY domain. *)
Definition domain_order (a b : AllowedEmailDomain) : Prop :=
  string_le (citext_key (ad_Domain a)) (citext_key (ad_Domain b)).
#[export] Instance domain_order_dec : RelDecision domain_order.
Proof. unfold RelDecision, domain_order. apply _. Defined.
Definition Domains_ListAllowedDomains : Tx (list (string * string)) :=
  gets (λ d, (λ a, (ad_ID a, ad_Domain a)) <$>
               merge_sort domain_order (snd <$> map_to_list (allowed_domains d))).

(** ** Reviews (review/postgres_repository.go) *)

Definition mapReviewError (e : Error) : Error :=
  match e with
  | Pg code _ =>
      if same code "23503" then ErrReviewNotFound
      else if same code "23505" then ErrReviewAlreadyExists
      else if same code "23514" || same code "23P01" then ErrReviewInvalid
      else e
  | _ => e
  end.

Record ReviewInput := {
  ri_ID : string;
  ri_ReviewerID : string;
  ri_RevieweeID : string;
  ri_OrderID : string;
  ri_Rating : Z;
  ri_Comment : string;
}.

Definition Reviews_InsertReview (i : ReviewInput) : Tx unit :=
  env ← ask;
  reporting mapReviewError (exec_unit (InsertReview {|
    v_ID := ri_ID i; v_ReviewerID := ri_ReviewerID i; v_RevieweeID := ri_RevieweeID i;
    v_OrderID := ri_OrderID i; v_Rating := wrap32 (ri_Rating i); v_Comment := ri_Comment i;
    v_CreatedAt := server_now env; v_DeletedAt := None |})).

Definition Reviews_SoftDeleteReview (id : string) : Tx Review :=
  env ← ask;
  v ← exec (λ d, Ok (SoftDeleteReview id (server_now env) d));
  require v ErrReviewNotFound.

Definition Reviews_RecordReviewRemoval (r : ReviewRemoval) : Tx unit :=
  env ← ask;
  reporting mapReviewError (exec_unit (RecordReviewRemoval {|
    vr_ID := vr_ID r; vr_ReviewID := vr_ReviewID r; vr_ReviewerID := vr_ReviewerID r;
    vr_RevieweeID := vr_RevieweeID r; vr_OrderID := vr_OrderID r; vr_Reason := vr_Reason r;
    vr_CreatedAt := server_now env; vr_CreatedBy := vr_CreatedBy r |})).

(** float64(sum) / float64(count), of integers. *)
Definition float_of_int (z : Z) : Float64 := binary_normalize 53 1024 z 0 false.
Definition average (sum count : Z) : Float64 := SFdiv 53 1024 (float_of_int sum) (float_of_int count).

Definition stats_average (count sum : Z) : Float64 :=
  if 0 <? count then average sum count else S754_zero false.

(** RecalculateStats: lock, read, write, in this order. *)
Definition Reviews_RecalculateStats (user : string) : Tx unit :=
  env ← ask;
  stats ← gets (RevieweeStatistics user);
  exec_unit (UpdateRevieweeStats stats.1 (stats_average stats.1 stats.2) user (server_now env)).

Definition Reviews_CheckReviewParticipants (reviewer reviewee : string) : Tx (bool * bool) :=
  gets (ReviewParticipantsExist reviewer reviewee).

End store.
