(* ===== verification/UserAuth.v ===== *)
(** * User: registration, login and sessions

    user-service/internal/service: auth.go and provisioning.go, with the checks of
    jwt/es256.go and pkg/auth/tokenclaims around the third-party JWT library, whose
    signing and parsing are the parameter [Codec]. *)
From stdpp Require Import prelude gmap strings list.
From Stdlib Require Import ZArith Lia SpecFloat.
From S2P Require Import Prelude.
From S2P Require Import GoLib.
From S2P Require Import GoText.
From S2P Require Import GoFloat.
From S2P Require Import GoMail.
From S2P Require Import UserTypes.
From S2P Require Import UserDB.
From S2P Require Import UserStore.

Local Open Scope Z_scope.
Local Open Scope foc_scope.

(** ** JWT

    [codec_sign] signs a payload for the service's issuer and audience;
    [codec_parse] checks signature, header, issuer, audience and the times of a
    token and decodes its payload. *)
Class Codec := {
  codec_sign : TokenClaims → option string;
  codec_parse : string → Time → option TokenClaims;
}.

(** What the library documents: the payload is a content of the token, and a
    token that was signed is parsed between its issue and its expiry. *)
Class CodecLaws `{Codec} : Prop := {
  codec_stable token t1 t2 c1 c2 :
    codec_parse token t1 = Some c1 → codec_parse token t2 = Some c2 → c1 = c2;
  codec_signed c token i e t :
    codec_sign c = Some token → tc_IssuedAt c = Some i → tc_NotBefore c = Some i →
    tc_ExpiresAt c = Some e → i * Second <= t < e * Second → codec_parse token t = Some c;
}.

(** libphonenumber: Parse for Singapore, IsValidNumber and the E.164 format. *)
Class PhoneNumbers := e164 : string → option string.

(** [Time.Unix], counted from the zero time; the epoch is whole seconds later. *)
Definition unix (t : Time) : Z := t / Second.
Definition unix_epoch : Z := 62135596800.

(** *** tokenclaims.Claims.Validate *)
Definition Validate (expected : TokenUse) (c : TokenClaims) : bool :=
  (same expected AccessToken || same expected RefreshToken) && same (tc_TokenUse c) expected
  && nonempty (tc_Subject c) && nonempty (tc_SessionID c) && nonempty (tc_ID c)
  && match tc_IssuedAt c, tc_ExpiresAt c, tc_NotBefore c with
     | Some i, Some e, Some n =>
         negb (i - unix_epoch <=? 0) && negb (e <=? i) && (n =? i)
         && negb (same expected AccessToken && negb (claim_valid (tc_Role c)))
         && negb (same expected RefreshToken && negb (same (tc_Role c) NoRole))
     | _, _, _ => false
     end.

Section auth.
  Context `{UUID, Digest, CIText, UnicodeLower, Codec, PhoneNumbers}.

(** *** es256.go *)

Definition claims_payload (c : Claims) : TokenClaims := {|
  tc_Subject := cl_Subject c; tc_SessionID := cl_SessionID c; tc_TokenUse := cl_Type c;
  tc_Role := cl_Role c; tc_ID := cl_TokenID c; tc_IssuedAt := Some (unix (cl_IssuedAt c));
  tc_ExpiresAt := Some (unix (cl_ExpiresAt c)); tc_NotBefore := Some (unix (cl_IssuedAt c)) |}.

Definition Sign (c : Claims) : result Error string :=
  _ ← guard_ok (nonempty (cl_Subject c) && nonempty (cl_SessionID c) && nonempty (cl_TokenID c)
                && (same (cl_Type c) AccessToken || same (cl_Type c) RefreshToken)
                && negb (unix (cl_ExpiresAt c) <=? unix (cl_IssuedAt c))
                && negb (same (cl_Type c) AccessToken && negb (claim_valid (cl_Role c)))
                && negb (same (cl_Type c) RefreshToken && negb (same (cl_Role c) NoRole)))
               (ErrOther "invalid JWT claims");
  from_option_ok (codec_sign (claims_payload c)) (ErrOther "sign JWT").

Definition Verify (token : string) (expected : TokenUse) (now : Time) : option Claims :=
  if negb (same expected AccessToken || same expected RefreshToken) then None
  else if Nat.ltb 8192 (String.length token) then None
  else
    c ← codec_parse token now;
    if Validate expected c then
      Some {| cl_Type := expected; cl_Subject := tc_Subject c; cl_SessionID := tc_SessionID c;
              cl_Role := tc_Role c; cl_IssuedAt := default 0 (tc_IssuedAt c) * Second;
              cl_ExpiresAt := default 0 (tc_ExpiresAt c) * Second; cl_TokenID := tc_ID c |}
    else None.

(** ** Addresses *)

Definition NormalizeEmail (input : string) : result Error string :=
  let email := ToLower (TrimSpace input) in
  _ ← guard_ok (bare_address email && bool_decide (13 ∉ chars email) && bool_decide (10 ∉ chars email))
               ErrInvalidEmail;
  mret email.

(** admin/service.go: domains are compared trimmed and in lower case. *)
Definition normalizeDomain (domain : string) : string := ToLower (TrimSpace domain).
Definition IsDomainAllowed (domain : string) : Tx bool := Domains_IsDomainAllowed (normalizeDomain domain).

(** A super administrator needs no allowed domain. *)
Definition requireAllowedEmailDomain (input : string) (role : RoleName) : Tx unit :=
  if same role RoleSuperAdmin then mret tt
  else
    email ← lift (match NormalizeEmail input with Ok e => Ok e | Err _ => Err ErrEmailDomainNotAllowed end);
    match split_last 64 email with
    | Some (local, domain) =>
        if nonempty local && nonempty domain then
          allowed ← IsDomainAllowed domain;
          ensure allowed ErrEmailDomainNotAllowed
        else throw ErrEmailDomainNotAllowed
    | None => throw ErrEmailDomainNotAllowed
    end.

Definition normalizedPhoneNumber (value : string) : option string :=
  let trimmed := TrimSpace value in
  if nonempty trimmed then e164 trimmed else None.

(** ** Magic-link tokens *)

(** A token and its digest, from bytes drawn at random. *)
Definition randomToken (bytes : list Z) : string * string :=
  let token := text_of (EncodeToString bytes) in (token, sha256_hex token).

(** Only the canonical encoding of 32 bytes is a token. *)
Definition digestMagicToken (token : string) : option string :=
  decoded ← DecodeString (chars token);
  if bool_decide (length decoded = 32%nat) && same (text_of (EncodeToString decoded)) token
  then Some (sha256_hex token) else None.

(** ** Configuration and sessions *)

Record Config := {
  cfg_FrontendPath : string;
  cfg_AccessTokenTTL : Duration;
  cfg_RefreshTokenTTL : Duration;
}.
Definition AccessTokenLifetime : Duration := 10 * Minute.
Definition RefreshTokenLifetime : Duration := 30 * 24 * Hour.

(** NewService: unset lifetimes are the defaults, others at least a second. *)
Definition configured (cfg : Config) : option Config :=
  let access := if cfg_AccessTokenTTL cfg =? 0 then AccessTokenLifetime else cfg_AccessTokenTTL cfg in
  let refresh := if cfg_RefreshTokenTTL cfg =? 0 then RefreshTokenLifetime else cfg_RefreshTokenTTL cfg in
  if (access <? Second) || (refresh <? Second) then None
  else Some {| cfg_FrontendPath := cfg_FrontendPath cfg; cfg_AccessTokenTTL := access;
               cfg_RefreshTokenTTL := refresh |}.

Context (cfg : Config).

Definition jwtRole (r : RoleName) : option ClaimRole :=
  match r with
  | RoleSuperAdmin => Some ClaimSuperAdmin
  | RoleAdmin => Some ClaimAdmin
  | RoleUser => Some ClaimUser
  | RoleSuspended => Some ClaimSuspended
  | OtherRole _ => None
  end.

Definition signSessionTokens (env : Env) (u : User) (session : string) (now : Time)
    : result Error AuthTokens :=
  role ← from_option_ok (jwtRole (u_Role u)) (ErrOther "user has invalid role");
  let accessExpiry := now + cfg_AccessTokenTTL cfg in
  let refreshExpiry := now + cfg_RefreshTokenTTL cfg in
  access ← Sign {| cl_Type := AccessToken; cl_Subject := u_ID u; cl_SessionID := session; cl_Role := role;
                   cl_IssuedAt := now; cl_ExpiresAt := accessExpiry;
                   cl_TokenID := (randomToken (access_bytes env)).1 |};
  refresh ← Sign {| cl_Type := RefreshToken; cl_Subject := u_ID u; cl_SessionID := session;
                    cl_Role := NoRole; cl_IssuedAt := now; cl_ExpiresAt := refreshExpiry;
                    cl_TokenID := (randomToken (refresh_bytes env)).1 |};
  mret {| at_AccessToken := access; at_RefreshToken := refresh;
          at_AccessExpiry := accessExpiry; at_RefreshExpiry := refreshExpiry |}.

(** A session is created with a placeholder and then holds the digest of its
    refresh token. *)
Definition createSession (u : User) (now : Time) : Tx AuthTokens :=
  env ← ask;
  s ← Sessions_Create {| s_ID := uuid_nil; s_TokenHash := placeholder env; s_UserID := u_ID u;
        s_LastSeenAt := now; s_ExpiresAt := now + cfg_RefreshTokenTTL cfg; s_RevokedAt := None;
        s_CreatedAt := zero_time; s_UpdatedAt := zero_time; s_DeletedAt := None |};
  tokens ← lift (signSessionTokens env u (s_ID s) now);
  _ ← Sessions_UpdateTokenHash (s_ID s) (sha256_hex (at_RefreshToken tokens));
  mret tokens.

(** ** RequestLink *)

Inductive LinkPath := LoginLink | RegisterLink.

(** The link that is mailed: a path of the frontend and the token. *)
Record Mail := { ml_To : string; ml_Path : LinkPath; ml_Token : string }.

Definition MagicLinkLifetime : Duration := 10 * Minute.

(** What the reads of RequestLink find: the address and its user. *)
Definition link_reads (email : string) : Tx (string * option User) :=
  email ← lift (NormalizeEmail email);
  u ← gets (user_by_email email);
  _ ← ensure (negb (match u with Some u => same (u_ID u) uuid_nil | None => false end))
             (ErrOther "found user has no ID");
  _ ← requireAllowedEmailDomain email (match u with Some u => u_Role u | None => RoleUser end);
  mret (email, u).

Definition challenge (env : Env) (email : string) (u : option User) : AuthToken := {|
  t_ID := uuid_nil; t_TokenHash := (randomToken (link_bytes env)).2;
  t_Purpose := if is_some u then PurposeLogin else PurposeRegister;
  t_Email := email; t_UserID := u_ID <$> u; t_ExpiresAt := now_ env + MagicLinkLifetime;
  t_UsedAt := None; t_CreatedAt := zero_time; t_UpdatedAt := zero_time; t_DeletedAt := None |}.

(** The token is saved before the mail is sent. [meanwhile] is what other calls
    do between the reads and the insertion; [sent] whether SMTP accepted it. *)
Definition RequestLink (env : Env) (fl_reads fl_save : Faults) (meanwhile : UDB → UDB) (sent : bool)
    (email : string) (d : UDB) : result Error Mail * UDB :=
  match (WithTransaction env fl_reads (link_reads email) d).1 with
  | Err e => (Err e, d)
  | Ok (email, u) =>
      let '(out, d') := WithTransaction env fl_save (AuthTokens_Create (challenge env email u)) (meanwhile d) in
      (match out with
       | Err e => Err e
       | Ok _ =>
           if sent then Ok {| ml_To := email; ml_Path := if is_some u then LoginLink else RegisterLink;
                              ml_Token := (randomToken (link_bytes env)).1 |}
           else Err ErrUnavailable
       end, d')
  end.

(** ** Login *)

Definition login_body (digest : string) (now : Time) : Tx (User * AuthTokens) :=
  c ← AuthTokens_Consume digest PurposeLogin now;
  id ← require (t_UserID c) ErrChallengeRejected;
  u ← Users_GetByID id;
  _ ← ensure (negb (same (u_ID u) uuid_nil) && Valid (u_Role u)) ErrLoginFailed;
  _ ← requireAllowedEmailDomain (u_Email u) (u_Role u);
  tokens ← createSession u now;
  mret (u, tokens).

Definition login_error (e : Error) : Error :=
  match e with ErrChallengeRejected | ErrNotFound | ErrLoginFailed => ErrLoginFailed | _ => e end.

Definition outcome_error {A} (f : Error → Error) (out : result Error A) : result Error A :=
  match out with Ok a => Ok a | Err e => Err (f e) end.

Definition Login (env : Env) (fl : Faults) (token : string) (d : UDB)
    : result Error (User * AuthTokens) * UDB :=
  match digestMagicToken token with
  | None => (Err ErrLoginFailed, d)
  | Some digest =>
      let '(out, d') := WithTransaction env fl (login_body digest (now_ env)) d in
      (outcome_error login_error out, d')
  end.

(** ** Registration *)

(** UserProvisioner.Create: the user and the fact that Credit consumes. *)
Definition UserProvisioner_Create (u : User) : Tx User :=
  u ← Users_Create u;
  env ← ask;
  _ ← Outbox_Append {| ce_EventID := new_id env ForEvent; ce_UserID := u_ID u; ce_Email := u_Email u;
        ce_DisplayName := u_DisplayName u; ce_CreatedAt := u_CreatedAt u |};
  mret u.

Definition MaxDisplayNameLength : Z := 100.

Definition register_body (digest name phone : string) (now : Time) : Tx (User * AuthTokens) :=
  c ← AuthTokens_Consume digest PurposeRegister now;
  _ ← requireAllowedEmailDomain (t_Email c) RoleUser;
  u ← reporting (λ e, match e with ErrDuplicate => ErrAlreadyRegistered | _ => e end)
        (UserProvisioner_Create (new_user (t_Email c) name (Some phone) RoleUser));
  tokens ← createSession u now;
  mret (u, tokens).

Definition register_error (e : Error) : Error :=
  match e with ErrChallengeRejected => ErrRegistrationFailed | _ => e end.

Definition valid_name (name : string) : bool :=
  nonempty name && (RuneCountInString name <=? MaxDisplayNameLength).

Definition Register (env : Env) (fl : Faults) (token : string) (profile : Profile) (d : UDB)
    : result Error (User * AuthTokens) * UDB :=
  let name := TrimSpace (pf_DisplayName profile) in
  if negb (valid_name name) then (Err ErrInvalidRegistration, d)
  else match normalizedPhoneNumber (pf_PhoneNumber profile) with
  | None => (Err ErrInvalidRegistration, d)
  | Some phone =>
      match digestMagicToken token with
      | None => (Err ErrRegistrationFailed, d)
      | Some digest =>
          let '(out, d') := WithTransaction env fl (register_body digest name phone (now_ env)) d in
          (outcome_error register_error out, d')
      end
  end.

(** ** Refresh *)

(** The user and session that a refresh token names. *)
Definition refresh_claims (token : string) (now : Time) : option (string * string) :=
  claims ← Verify token RefreshToken now;
  user ← uuid_parse (cl_Subject claims);
  session ← uuid_parse (cl_SessionID claims);
  Some (user, session).

Definition refresh_user (user : string) : Tx User :=
  u ← reporting (λ e, match e with ErrNotFound => ErrRefreshFailed | _ => e end) (Users_GetByID user);
  _ ← ensure (same (u_ID u) user && Valid (u_Role u)) ErrRefreshFailed;
  mret u.

Definition refresh_body (u : User) (session token : string) (now : Time) : Tx AuthTokens :=
  _ ← requireAllowedEmailDomain (u_Email u) (u_Role u);
  _ ← Sessions_Revoke session (sha256_hex token) now;
  createSession u now.

Definition session_error (e : Error) : Error :=
  match e with ErrSessionRejected => ErrRefreshFailed | _ => e end.

(** The user is read before the transaction: [meanwhile] is what happens between. *)
Definition Refresh (env : Env) (fl_read fl : Faults) (meanwhile : UDB → UDB) (token : string) (d : UDB)
    : result Error (User * AuthTokens) * UDB :=
  match refresh_claims token (now_ env) with
  | None => (Err ErrRefreshFailed, d)
  | Some (user, session) =>
      match (WithTransaction env fl_read (refresh_user user) d).1 with
      | Err e => (Err e, d)
      | Ok u =>
          let '(out, d') := WithTransaction env fl (refresh_body u session token (now_ env)) (meanwhile d) in
          (match out with Ok tokens => Ok (u, tokens) | Err e => Err (session_error e) end, d')
      end
  end.

(** ** Logout *)

(** A token that is not recognised, or not live, is no error. *)
Definition Logout (env : Env) (fl : Faults) (token : string) (d : UDB) : result Error unit * UDB :=
  match Verify token RefreshToken (now_ env) ≫= λ c, uuid_parse (cl_SessionID c) with
  | None => (Ok tt, d)
  | Some session =>
      let '(out, d') :=
        WithTransaction env fl (Sessions_Revoke session (sha256_hex token) (now_ env)) d in
      (match out with Err ErrSessionRejected => Ok tt | _ => out end, d')
  end.

Definition logout_all_body (user session token : string) (now : Time) : Tx unit :=
  _ ← Sessions_Revoke session (sha256_hex token) now;
  _ ← Sessions_RevokeAllForUser user now;
  mret tt.

Definition LogoutAll (env : Env) (fl : Faults) (token : string) (d : UDB) : result Error unit * UDB :=
  match refresh_claims token (now_ env) with
  | None => (Err ErrRefreshFailed, d)
  | Some (user, session) =>
      let '(out, d') := WithTransaction env fl (logout_all_body user session token (now_ env)) d in
      (outcome_error session_error out, d')
  end.

End auth.
