(* ===== verification/UserAccounts.v ===== *)
(** * User: profiles, roles and administration

    user-service/internal: service/profile.go and roles.go, admin/service.go,
    bootstrap, and the gates in front of them (router/authorization.go, handlers,
    jwt/caller.go, review/authorization.go). *)
From stdpp Require Import prelude gmap strings list.
From Stdlib Require Import ZArith Lia SpecFloat.
From S2P Require Import Prelude.
From S2P Require Import GoLib.
From S2P Require Import GoText.
From S2P Require Import GoFloat.
From S2P Require Import GoMail.
From S2P Require Import UserTypes.
From S2P Require Import UserDB.
From S2P Require Import UserStore.
From S2P Require Import UserAuth.

Local Open Scope Z_scope.
Local Open Scope foc_scope.

Section accounts.
  Context `{UUID, CIText, UnicodeLower, Codec, PhoneNumbers}.

(** ** Profiles (service/profile.go) *)

Record ProfileInput := { pi_DisplayName : string; pi_Description : string; pi_PhoneNumber : string }.

Definition or_unauthenticated (e : Error) : Error :=
  match e with ErrNotFound => ErrUnauthenticated | _ => e end.

Definition get_profile (actor : string) : Tx User :=
  _ ← ensure (negb (same actor uuid_nil)) ErrUnauthenticated;
  reporting or_unauthenticated (Users_GetByID actor).

Definition GetMyProfile (env : Env) (fl : Faults) (actor : string) (d : UDB) : result Error User :=
  (WithTransaction env fl (get_profile actor) d).1.

(** The input trimmed and the phone number in E.164. *)
Definition valid_profile (i : ProfileInput) : option (string * string) :=
  let name := TrimSpace (pi_DisplayName i) in
  if valid_name name && (RuneCountInString (pi_Description i) <=? 500) then
    phone ← normalizedPhoneNumber (pi_PhoneNumber i); Some (name, phone)
  else None.

Definition edited_profile (u : User) (name description phone actor : string) : User :=
  u <| u_DisplayName := name |> <| u_Description := description |>
    <| u_PhoneNumber := Some phone |> <| u_UpdatedBy := Some actor |>.

Definition update_profile_error (e : Error) : Error :=
  match e with ErrRoleConflict => ErrPermissionDenied | ErrNotFound => ErrUnauthenticated | _ => e end.

(** Three statements: read, conditional update, read. [meanwhile] and [later] are
    what other calls do between them. *)
Definition UpdateMyProfile (env : Env) (fl_read fl_update fl_reread : Faults) (meanwhile later : UDB → UDB)
    (actor : string) (i : ProfileInput) (d : UDB) : result Error User * UDB :=
  match valid_profile i with
  | None => (Err ErrInvalidProfile, d)
  | Some (name, phone) =>
      match GetMyProfile env fl_read actor d with
      | Err e => (Err e, d)
      | Ok u =>
          if same (u_Role u) RoleSuspended then (Err ErrPermissionDenied, d)
          else
            let '(out, d') := WithTransaction env fl_update (Users_UpdateActiveProfile
                                (edited_profile u name (pi_Description i) phone actor)) (meanwhile d) in
            match out with
            | Err e => (Err (update_profile_error e), d')
            | Ok _ => (GetMyProfile env fl_reread actor (later d'), later d')
            end
      end
  end.

(** ** Roles (service/roles.go) *)

Definition currentAdmin (actor : string) : Tx User :=
  _ ← ensure (negb (same actor uuid_nil)) ErrUnauthenticated;
  u ← reporting or_unauthenticated (Users_GetByID actor);
  _ ← ensure (IsAdmin (u_Role u)) ErrPermissionDenied;
  mret u.

Definition get_user_by_email (actor email : string) : Tx User :=
  email ← lift (NormalizeEmail email);
  _ ← currentAdmin actor;
  reporting (λ e, match e with ErrNotFound => ErrUserNotFound | _ => e end) (Users_GetByEmail email).

Definition GetUserByEmail (env : Env) (fl : Faults) (actor email : string) (d : UDB) : result Error User :=
  (WithTransaction env fl (get_user_by_email actor email) d).1.

(** The roles that may be given: never super_admin. *)
Definition assignable (to : RoleName) : bool :=
  same to RoleAdmin || same to RoleUser || same to RoleSuspended.

(** The change that the actor may make of the target. *)
Definition role_reads (actor_id target_id : string) (to : RoleName) (reason : string)
    : Tx (User * RoleChange) :=
  actor ← reporting or_unauthenticated (Users_GetByIDForUpdate actor_id);
  _ ← ensure (IsAdmin (u_Role actor)) ErrPermissionDenied;
  _ ← ensure (negb (same actor_id target_id)) ErrPermissionDenied;
  target ← reporting (λ e, match e with ErrNotFound => ErrUserNotFound | _ => e end)
             (Users_GetByID target_id);
  _ ← ensure (negb (same (u_Role target) RoleSuperAdmin
                    || (same (u_Role actor) RoleAdmin
                        && (same (u_Role target) RoleAdmin || same to RoleAdmin)))) ErrPermissionDenied;
  _ ← ensure (negb (same (u_Role target) to)) ErrRoleUnchanged;
  _ ← ensure (negb ((same (u_Role target) RoleSuspended || same to RoleSuspended)
                    && negb (nonempty reason))) ErrInvalidRoleChange;
  mret (target, {| rc_ID := uuid_nil; rc_UserID := target_id; rc_FromRole := u_Role target;
       rc_ToRole := to; rc_Reason := if nonempty reason then Some reason else None;
       rc_CreatedBy := Some actor_id; rc_CreatedAt := zero_time |}).

Definition role_write (target : User) (c : RoleChange) : Tx User :=
  change ← reporting (λ e, match e with ErrRoleConflict => ErrConcurrentRoleEdit | _ => e end)
             (Admin_ChangeRole c);
  mret (target <| u_Role := rc_ToRole c |> <| u_UpdatedAt := rc_CreatedAt change |>).

(** One transaction, that locks the actor and reads the target without a lock:
    [meanwhile] is what others do before the conditional update. *)
Definition ChangeUserRole (env : Env) (fl_reads fl : Faults) (meanwhile : UDB → UDB)
    (actor target : string) (to : RoleName) (reason : string) (d : UDB) : result Error User * UDB :=
  if same actor uuid_nil then (Err ErrUnauthenticated, d)
  else if same target uuid_nil || negb (assignable to) then (Err ErrInvalidRoleChange, d)
  else
    let reason := TrimSpace reason in
    if 2000 <? RuneCountInString reason then (Err ErrInvalidRoleChange, d)
    else match (WithTransaction env fl_reads (role_reads actor target to reason) d).1 with
    | Err e => (Err e, d)
    | Ok (u, c) => WithTransaction env fl (role_write u c) (meanwhile d)
    end.

(** ** The first administrator (bootstrap/bootstrap.go) *)

Definition DefaultDisplayName : string := "Admin".

Definition Bootstrap_Run (env : Env) (fl : Faults) (email name : string) (d : UDB)
    : result Error (BootstrapOutcome * User) * UDB :=
  match NormalizeEmail email with
  | Err e => (Err e, d)
  | Ok email =>
      let name := TrimSpace name in
      let name := if nonempty name then name else DefaultDisplayName in
      if MaxDisplayNameLength <? RuneCountInString name then (Err ErrInvalidRegistration, d)
      else WithTransaction env fl (Admin_Bootstrap (new_user email name None (OtherRole EmptyString))) d
  end.

(** ** Allowed domains (admin/service.go) *)

Definition ListAllowedDomains (env : Env) (fl : Faults) (d : UDB) : result Error (list (string * string)) :=
  (WithTransaction env fl Domains_ListAllowedDomains d).1.

Definition domain_reported (e : Error) : Error :=
  match e with
  | ErrDomainAlreadyExists => ErrDomainAlreadyAllowed
  | ErrInvalidDomain => ErrInvalidAllowedDomain
  | ErrDomainNotFound => ErrAllowedDomainNotFound
  | _ => e
  end.

Definition AllowDomain (env : Env) (fl : Faults) (domain actor : string) (d : UDB)
    : result Error unit * UDB :=
  let '(out, d') := WithTransaction env fl (Domains_AllowDomain (normalizeDomain domain) actor) d in
  (outcome_error domain_reported out, d').

Definition RemoveAllowedDomain (env : Env) (fl : Faults) (id : string) (d : UDB) : result Error unit * UDB :=
  let '(out, d') := WithTransaction env fl (Domains_RemoveAllowedDomain id) d in
  (outcome_error domain_reported out, d').

(** ** Callers (jwt/caller.go, handlers/userdto) *)

Record Caller := {
  ca_ID : string;
  ca_SessionID : string;
  ca_Role : ClaimRole;
  ca_Admin : bool;
}.

Definition VerifyAccess (token : string) (now : Time) : option Caller :=
  c ← Verify token AccessToken now;
  Some {| ca_ID := cl_Subject c; ca_SessionID := cl_SessionID c; ca_Role := cl_Role c;
          ca_Admin := same (cl_Role c) ClaimAdmin || same (cl_Role c) ClaimSuperAdmin |}.

(** ActorID: the caller's identifier, canonical and not nil. *)
Definition ActorID (c : Caller) : option string :=
  id ← uuid_parse (ca_ID c);
  if same id uuid_nil then None else Some id.

Definition caller_suspended (c : Caller) : bool := same (ca_Role c) ClaimSuspended.

(** ** The gates (router/authorization.go, review/authorization.go)

    Profiles, roles and domains are gated by the role in the database, reviews by
    the role in the token. *)
Inductive Procedure :=
| PGetMyProfile | PUpdateMyProfile | PGetUserByEmail | PChangeUserRole
| PListAllowedDomains | PAllowDomain | PRemoveAllowedDomain
| PSubmitReview | PListReviewsForUser | PListMyReviews | PRemoveReview | PListReviewRemovals.

Definition may_call (p : Procedure) (role : RoleName) : bool :=
  match p with
  | PUpdateMyProfile => negb (same role RoleSuspended)
  | PGetUserByEmail | PChangeUserRole | PListAllowedDomains => IsAdmin role
  | PAllowDomain | PRemoveAllowedDomain => same role RoleSuperAdmin
  | _ => true
  end.

Definition authorizeProtected (env : Env) (fl : Faults) (p : Procedure) (c : Caller) (d : UDB)
    : result Error string :=
  match ActorID c with
  | None => Err ErrUnauthenticated
  | Some actor =>
      match (WithTransaction env fl (reporting or_unauthenticated (Users_GetByID actor)) d).1 with
      | Err e => Err e
      | Ok u => if may_call p (u_Role u) then Ok actor else Err ErrPermissionDenied
      end
  end.

Definition authorizeCaller (p : Procedure) (c : Caller) : result Error unit :=
  match p with
  | PSubmitReview => guard_ok (negb (caller_suspended c)) ErrPermissionDenied
  | PRemoveReview | PListReviewRemovals => guard_ok (ca_Admin c) ErrPermissionDenied
  | _ => Ok tt
  end.

(** ** Protected procedures (handlers/profile, handlers/admin, admin/handler.go)

    The gate runs first; [meanwhile] is what other calls do before the handler. *)
Definition protected {A} (env : Env) (fl : Faults) (p : Procedure) (c : Caller) (meanwhile : UDB → UDB)
    (handler : string → UDB → result Error A * UDB) (d : UDB) : result Error A * UDB :=
  match authorizeProtected env fl p c d with
  | Err e => (Err e, d)
  | Ok actor => handler actor (meanwhile d)
  end.

(** An identifier of a request: parsed, and not nil. *)
Definition request_id (raw : string) : option string :=
  id ← uuid_parse raw; if same id uuid_nil then None else Some id.

Definition rpc_ChangeUserRole (env : Env) (fl_gate fl_reads fl : Faults) (c : Caller) (m1 m2 : UDB → UDB)
    (user : string) (to : option RoleName) (reason : string) (d : UDB) : result Error User * UDB :=
  protected env fl_gate PChangeUserRole c m1 (λ actor d,
    match request_id user with
    | None => (Err (ErrOther "invalid user ID"), d)
    | Some target =>
        match to with
        | Some to => if assignable to then ChangeUserRole env fl_reads fl m2 actor target to reason d
                     else (Err (ErrOther "invalid destination role"), d)
        | None => (Err (ErrOther "invalid destination role"), d)
        end
    end) d.

Definition rpc_AllowDomain (env : Env) (fl_gate fl : Faults) (c : Caller) (meanwhile : UDB → UDB)
    (domain : string) (d : UDB) : result Error unit * UDB :=
  protected env fl_gate PAllowDomain c meanwhile (λ actor d, AllowDomain env fl domain actor d) d.

Definition rpc_RemoveAllowedDomain (env : Env) (fl_gate fl : Faults) (c : Caller) (meanwhile : UDB → UDB)
    (raw : string) (d : UDB) : result Error unit * UDB :=
  protected env fl_gate PRemoveAllowedDomain c meanwhile (λ _ d,
    match request_id raw with
    | None => (Err (ErrOther "invalid allowed domain ID"), d)
    | Some id => RemoveAllowedDomain env fl id d
    end) d.

Definition rpc_UpdateMyProfile (env : Env) (fl_gate fl_read fl_update fl_reread : Faults) (c : Caller)
    (m1 m2 m3 : UDB → UDB) (i : ProfileInput) (d : UDB) : result Error User * UDB :=
  protected env fl_gate PUpdateMyProfile c m1 (λ actor d,
    UpdateMyProfile env fl_read fl_update fl_reread m2 m3 actor i d) d.

End accounts.
