(* ===== verification/UserReviews.v ===== *)
(** * User: reviews and the user-created relay

    user-service/internal/review (service.go and handler.go), pkg/pagination, and
    user-service/internal/outbox, which publishes registrations. *)
From stdpp Require Import prelude gmap strings list sorting.
From Stdlib Require Import ZArith Lia SpecFloat.
From S2P Require Import Prelude.
From S2P Require Import GoLib.
From S2P Require Import GoText.
From S2P Require Import GoFloat.
From S2P Require Import GoMail.
From S2P Require Import UserTypes.
From S2P Require Import UserDB.
From S2P Require Import UserStore.
From S2P Require Import UserAuth.
From S2P Require Import UserAccounts.

Local Open Scope Z_scope.
Local Open Scope foc_scope.

(** ** Pagination (pkg/pagination) *)

Module pagination.

Record Pagination := { page : Z; pageSize : Z }.

Definition defaultPage : Z := 1.
Definition defaultPageSize : Z := 20.
Definition maxPageSize : Z := 100.

(** The offset is checked before it is multiplied. *)
Definition New (p size : Z) : result Error Pagination :=
  let p := if p <=? 0 then defaultPage else p in
  let size := if size <=? 0 then defaultPageSize else size in
  let size := if maxPageSize <? size then maxPageSize else size in
  _ ← guard_ok (negb (Z.quot max_int64 size <? sub64 p 1)) ErrOffsetOverflow;
  mret {| page := p; pageSize := size |}.

Definition Offset (p : Pagination) : Z := mul64 (sub64 (page p) 1) (pageSize p).

Record PageInfo := { pi_page : Z; pi_pageSize : Z; pi_totalItems : Z; pi_totalPages : Z }.

Definition NewPageInfo (p size total : Z) : PageInfo :=
  {| pi_page := p; pi_pageSize := size; pi_totalItems := total;
     pi_totalPages := if (0 <? size) && (0 <? total) then add64 (Z.quot (sub64 total 1) size) 1 else 0 |}.

End pagination.

Section reviews.
  Context `{UUID, CIText}.

(** ** Submission and removal (review/service.go) *)

Definition insert_error (e : Error) : Error :=
  match e with
  | ErrReviewInvalid => ErrInvalidReviewData
  | ErrReviewAlreadyExists => ErrReviewExists
  | _ => e
  end.

Definition submit_body (i : ReviewInput) : Tx unit :=
  _ ← reporting insert_error (Reviews_InsertReview i);
  Reviews_RecalculateStats (ri_RevieweeID i).

(** The participants are checked before the transaction. *)
Definition SubmitReview (env : Env) (fl_check fl : Faults) (meanwhile : UDB → UDB)
    (reviewer reviewee order : string) (s : ReviewSubmission) (d : UDB) : result Error unit * UDB :=
  if same reviewer reviewee then (Err ErrSelfReview, d)
  else match (WithTransaction env fl_check (Reviews_CheckReviewParticipants reviewer reviewee) d).1 with
  | Err e => (Err e, d)
  | Ok (reviewer_exists, reviewee_exists) =>
      if negb reviewer_exists then (Err ErrReviewerNotFound, d)
      else if negb reviewee_exists then (Err ErrRevieweeNotFound, d)
      else WithTransaction env fl (submit_body {|
             ri_ID := new_id env ForReview; ri_ReviewerID := reviewer; ri_RevieweeID := reviewee;
             ri_OrderID := order; ri_Rating := rs_Rating s; ri_Comment := rs_Comment s |}) (meanwhile d)
  end.

Definition remove_body (id reason actor : string) (removal : string) : Tx unit :=
  v ← reporting (λ e, match e with ErrReviewNotFound => ErrNoSuchReview | _ => e end)
        (Reviews_SoftDeleteReview id);
  _ ← Reviews_RecordReviewRemoval {| vr_ID := removal; vr_ReviewID := v_ID v;
        vr_ReviewerID := v_ReviewerID v; vr_RevieweeID := v_RevieweeID v; vr_OrderID := v_OrderID v;
        vr_Reason := reason; vr_CreatedAt := zero_time; vr_CreatedBy := actor |};
  Reviews_RecalculateStats (v_RevieweeID v).

Definition RemoveReview (env : Env) (fl : Faults) (id reason actor : string) (d : UDB)
    : result Error unit * UDB :=
  let reason := TrimSpace reason in
  if negb (nonempty reason) || (100000 <? RuneCountInString reason) then (Err ErrRemovalReason, d)
  else WithTransaction env fl (remove_body id reason actor (new_id env ForRemoval)) d.

(** ** Listings

    A page is read first and the total then: [meanwhile] is what others do between. *)
Definition listing {A} (rows : UDB → list A) (count : UDB → Z) (pg : pagination.Pagination) (env : Env)
    (fl_rows fl_total : Faults) (meanwhile : UDB → UDB) (d : UDB) : result Error (list A * pagination.PageInfo) :=
  l ← (WithTransaction env fl_rows (gets rows) d).1;
  total ← (WithTransaction env fl_total (gets count) (meanwhile d)).1;
  mret (l, pagination.NewPageInfo (pagination.page pg) (pagination.pageSize pg) total).

Definition ListReviewsForUser (user : string) (pg : pagination.Pagination) :=
  listing (ListReviews (received user) (pagination.Offset pg) (pagination.pageSize pg)) (CountReviews (received user)) pg.
Definition ListReviewsFromUser (user : string) (pg : pagination.Pagination) :=
  listing (ListReviews (given user) (pagination.Offset pg) (pagination.pageSize pg)) (CountReviews (given user)) pg.
Definition ListReviewRemovals_page (pg : pagination.Pagination) :=
  listing (ListReviewRemovals (pagination.Offset pg) (pagination.pageSize pg)) CountReviewRemovals pg.

(** ** The handlers (review/handler.go), behind the gate of the token's role *)

Definition rpc_SubmitReview (env : Env) (fl_check fl : Faults) (meanwhile : UDB → UDB) (c : Caller)
    (from to order : string) (s : ReviewSubmission) (d : UDB) : result Error unit * UDB :=
  match authorizeCaller PSubmitReview c, ActorID c with
  | Err e, _ => (Err e, d)
  | Ok _, None => (Err ErrUnauthenticated, d)
  | Ok _, Some actor =>
      match request_id from with
      | None => (Err (ErrOther "invalid reviewer ID"), d)
      | Some from =>
          if negb (same from actor) then (Err ErrPermissionDenied, d)
          else match request_id to, request_id order with
          | None, _ => (Err (ErrOther "invalid reviewee ID"), d)
          | Some _, None => (Err (ErrOther "invalid order ID"), d)
          | Some to, Some order => SubmitReview env fl_check fl meanwhile actor to order s d
          end
      end
  end.

Definition rpc_RemoveReview (env : Env) (fl : Faults) (c : Caller) (raw reason : string) (d : UDB)
    : result Error unit * UDB :=
  match authorizeCaller PRemoveReview c, ActorID c with
  | Err e, _ => (Err e, d)
  | Ok _, None => (Err ErrUnauthenticated, d)
  | Ok _, Some actor =>
      match request_id raw with
      | None => (Err (ErrOther "invalid review ID"), d)
      | Some id => RemoveReview env fl id reason actor d
      end
  end.

(** A suspended caller may list only the reviews of its own user. *)
Definition authorizeSelfReviews (c : Caller) (user : string) : result Error unit :=
  guard_ok (negb (caller_suspended c) || same (uuid_parse (ca_ID c)) (Some user)) ErrPermissionDenied.

Definition newPage (p : option (Z * Z)) : result Error pagination.Pagination :=
  match p with None => pagination.New 0 0 | Some (page, size) => pagination.New page size end.

Definition rpc_ListReviewsForUser (env : Env) (fl_rows fl_total : Faults) (meanwhile : UDB → UDB) (c : Caller)
    (raw : string) (p : option (Z * Z)) (d : UDB)
    : result Error (list (Review * string * string) * pagination.PageInfo) :=
  user ← from_option_ok (request_id raw) (ErrOther "invalid user ID");
  _ ← authorizeSelfReviews c user;
  pg ← newPage p;
  ListReviewsForUser user pg env fl_rows fl_total meanwhile d.

Definition rpc_ListMyReviews (env : Env) (fl_rows fl_total : Faults) (meanwhile : UDB → UDB) (c : Caller)
    (p : option (Z * Z)) (d : UDB) : result Error (list (Review * string * string) * pagination.PageInfo) :=
  actor ← from_option_ok (ActorID c) ErrUnauthenticated;
  pg ← newPage p;
  ListReviewsFromUser actor pg env fl_rows fl_total meanwhile d.

Definition rpc_ListReviewRemovals (env : Env) (fl_rows fl_total : Faults) (meanwhile : UDB → UDB) (c : Caller)
    (p : option (Z * Z)) (d : UDB) : result Error (list (ReviewRemoval * string) * pagination.PageInfo) :=
  _ ← authorizeCaller PListReviewRemovals c;
  pg ← newPage p;
  ListReviewRemovals_page pg env fl_rows fl_total meanwhile d.

End reviews.

(** ** Publication of registrations (internal/outbox) *)

(** A claimed fact. *)
Record Fact := {
  fa_EventID : string;
  fa_UserID : string;
  fa_Email : string;
  fa_DisplayName : string;
  fa_CreatedAt : Time;
  fa_PayloadVersion : Z;
  fa_LeaseToken : string;
}.

(** users.events.v1.UserCreated; its timestamp is the time it denotes. *)
Record UserCreated := {
  uc_EventId : string;
  uc_UserId : string;
  uc_Email : string;
  uc_DisplayName : string;
  uc_CreatedAt : Time;
}.

(** protobuf timestamps reach from year 1 to year 9999. *)
Definition valid_timestamp (t : Time) : bool := within 0 (315537897599 * Second + 999999999) t.

Definition encode (f : Fact) : option UserCreated :=
  if (fa_PayloadVersion f =? 1)
     && negb (same (fa_EventID f) uuid_nil || same (fa_UserID f) uuid_nil || IsZero (fa_CreatedAt f)
              || negb (nonempty (fa_Email f)) || negb (nonempty (fa_DisplayName f)))
     && valid_timestamp (fa_CreatedAt f)
  then Some {| uc_EventId := fa_EventID f; uc_UserId := fa_UserID f; uc_Email := fa_Email f;
               uc_DisplayName := fa_DisplayName f; uc_CreatedAt := fa_CreatedAt f |}
  else None.

(** store/user_created_outbox.go *)
Definition fact_of (token : string) (o : UserCreatedOutbox) : Fact := {|
  fa_EventID := ob_EventID o; fa_UserID := ob_UserID o; fa_Email := ob_Email o;
  fa_DisplayName := ob_DisplayName o; fa_CreatedAt := ob_UserCreatedAt o;
  fa_PayloadVersion := ob_PayloadVersion o; fa_LeaseToken := token |}.

Definition Outbox_Claim (token : string) (eligible until : Time) (d : UDB) : UDB * option Fact :=
  let '(d', o) := claim_fact token eligible until d in (d', fact_of token <$> o).

Definition Outbox_Published (f : Fact) (now : Time) (d : UDB) : UDB * bool :=
  let '(d', n) := update_fact (fa_EventID f) (fa_LeaseToken f)
    (λ o, match ob_LeaseUntil o with Some u => stored_time now <? u | None => false end)
    (λ o, o <| ob_PublishedAt := Some (stored_time now) |> <| ob_LeaseToken := None |>
            <| ob_LeaseUntil := None |>) d in
  (d', n =? 1).

Definition Outbox_Retry (f : Fact) (available : Time) (d : UDB) : UDB * bool :=
  let '(d', n) := update_fact (fa_EventID f) (fa_LeaseToken f) (λ _, true)
    (λ o, o <| ob_AvailableAt := stored_time available |> <| ob_LeaseToken := None |>
            <| ob_LeaseUntil := None |>) d in
  (d', n =? 1).

(** relay.go: what one iteration meets: the clock when it claims and when it
    acknowledges, its lease token, whether the broker accepted the message and
    replied, and whether the statements reached the database. *)
Record Turn := {
  tn_now : Time;
  tn_later : Time;
  tn_token : string;
  tn_claimed : bool;
  tn_accepted : bool;
  tn_replied : bool;
  tn_acked : bool;
}.

Definition claimLease : Duration := 30 * Second.
Definition retryDelay : Duration := 2 * Second.

(** The messages that the broker accepted, oldest first. *)
Definition Log : Type := list UserCreated.

(** Publish: whether the relay learns that the broker accepted the message. *)
Definition send (t : Turn) (f : Fact) (log : Log) : bool * Log :=
  match encode f with
  | None => (false, log)
  | Some message => (tn_accepted t && tn_replied t, if tn_accepted t then log ++ [message] else log)
  end.

(** The acknowledgement of what was sent, or the retry of what was not: [true] when
    the batch goes on. *)
Definition settle (t : Turn) (f : Fact) (sent : bool) (d : UDB) : bool * UDB :=
  if tn_acked t then
    let '(d', ok) := if sent then Outbox_Published f (tn_later t) d
                     else Outbox_Retry f (tn_later t + retryDelay) d in (ok, d')
  else (false, d).

(** One iteration of Drain: [true] when the batch goes on. *)
Definition drain_one (eligible : Time) (t : Turn) (d : UDB) (log : Log) : bool * UDB * Log :=
  if negb (tn_claimed t) then (false, d, log)
  else match Outbox_Claim (tn_token t) eligible (tn_now t + claimLease) d with
  | (d1, None) => (false, d1, log)
  | (d1, Some f) =>
      let '(sent, log') := send t f log in
      let '(more, d2) := settle t f sent d1 in (more, d2, log')
  end.

(** Drain publishes at most one fact per turn; eligibility is frozen. *)
Fixpoint drain (eligible : Time) (turns : list Turn) (d : UDB) (log : Log) : UDB * Log :=
  match turns with
  | [] => (d, log)
  | t :: rest =>
      let '(more, d', log') := drain_one eligible t d log in
      if more : bool then drain eligible rest d' log' else (d', log')
  end.
