(* ===== verification/UserRuns.v ===== *)
(** * User: what a successful transaction did

    Statements and transactions read backwards: the state after one that
    succeeded, and what it implies about the state before; at the end the effects of
    transactions. *)
From stdpp Require Import prelude gmap strings list sorting.
From Stdlib Require Import ZArith Lia SpecFloat.
From S2P Require Import Prelude.
From S2P Require Import GoLib.
From S2P Require Import GoText.
From S2P Require Import GoFloat.
From S2P Require Import GoMail.
From S2P Require Import UserTypes.
From S2P Require Import UserDB.
From S2P Require Import UserStore.
From S2P Require Import UserAuth.
From S2P Require Import UserAccounts.
From S2P Require Import UserReviews.

Local Open Scope Z_scope.
Local Open Scope foc_scope.

Ltac split_more H ::=
  lazymatch type of H with
  | reporting _ _ _ _ = Ok _ => apply st_run_reporting in H; split_run H
  | exec _ _ _ = Ok _ => apply st_run_exec in H
  | exec_unit _ _ _ = Ok _ => apply st_run_exec_unit in H
  | lift _ _ _ = Ok _ => let X := fresh "Es" in apply st_run_lift in H as [H X]; subst
  | _ => idtac
  end.

(** A transaction under any fault changed nothing or committed its body. *)
Lemma WithTransaction_ran {A} env fl (f : Tx A) d :
  (WithTransaction env fl f d).2 = d
  ∨ ∃ a d', f env d = Ok (a, d') ∧ (WithTransaction env fl f d).2 = d'
       ∧ (commit_fault fl = None → (WithTransaction env fl f d).1 = Ok a).
Proof.
  unfold WithTransaction. destruct (begin_fault fl); [by left|]. destruct (body_fault fl); [by left|].
  destruct (f env d) as [[a d1]|e]; [|by left]. destruct (commit_fault fl) as [[code []]|].
  - right. exists a, d1. split_and!; [done..|by intros].
  - by left.
  - right. by exists a, d1.
Qed.

Lemma WithTransaction_ok {A} env fl (f : Tx A) d a :
  (WithTransaction env fl f d).1 = Ok a → f env d = Ok (a, (WithTransaction env fl f d).2).
Proof.
  unfold WithTransaction. destruct (begin_fault fl); [done|]. destruct (body_fault fl); [done|].
  destruct (f env d) as [[b d1]|e]; [|done]. destruct (commit_fault fl) as [[??]|]; [done|].
  by intros [= ->].
Qed.

Lemma WithTransaction_no_faults {A} env (f : Tx A) d :
  WithTransaction env no_faults f d
  = match f env d with Ok (a, d') => (Ok a, d') | Err e => (Err e, d) end.
Proof. unfold WithTransaction. simpl. by destruct (f env d) as [[??]|]. Qed.

Lemma live_Some {A} (deleted : A → option Time) o x :
  live deleted o = Some x ↔ o = Some x ∧ deleted x = None.
Proof.
  unfold live. destruct o as [y|]; simpl; [|split; [done|by intros []]].
  destruct (deleted y) as [t|] eqn:Hd; simpl; split.
  - done.
  - intros [[= ->] ?]. congruence.
  - by intros [= ->].
  - by intros [[= ->] ?].
Qed.

(** ** Reading guards of statements *)

Lemma n_zero (n : Z) : negb (n =? 0) = true ↔ n ≠ 0.
Proof. rewrite negb_true_iff, Z.eqb_neq. done. Qed.

Lemma elem_of_rows {K V} `{Countable K} (m : gmap K V) x :
  x ∈ (snd <$> map_to_list m) ↔ ∃ k, m !! k = Some x.
Proof.
  rewrite list_elem_of_fmap. split.
  - intros ([k v] & -> & Hkv%elem_of_map_to_list). by exists k.
  - intros [k Hk]. exists (k, x). by rewrite elem_of_map_to_list.
Qed.

Section runs.
  Context `{CIText}.

(** ** users *)

Record user_inserted (u : User) (d d' : UDB) : Prop := {
  ui_new : users d !! u_ID u = None;
  ui_check : users_check u = true;
  ui_text : users_text u = true;
  ui_unique : email_unique u d = true;
  ui_role : Valid (u_Role u) = true;
  ui_after : d' = d <| users := <[u_ID u := stored_user u]> (users d) |>;
}.

Lemma insert_user_run u d d' : insert_user u d = Ok d' → user_inserted u d d'.
Proof.
  intros Hr. unfold insert_user in Hr. inv_ok Hr. apply andb_prop in Hok1 as [?%negb_is_some ?].
  by split.
Qed.

Lemma get_user_Some id d u : get_user id d = Some u ↔ users d !! id = Some u ∧ u_DeletedAt u = None.
Proof. apply live_Some. Qed.

(** A live user that satisfies [p] is replaced. *)
Record user_updated (id : string) (p : User → bool) (f : User → User) (d d' : UDB) (u : User) : Prop := {
  uu_before : users d !! id = Some u;
  uu_live : u_DeletedAt u = None;
  uu_where : p u = true;
  uu_check : users_check (written_user (f u)) = true;
  uu_text : users_text (written_user (f u)) = true;
  uu_role : Valid (u_Role (f u)) = true;
  uu_after : d' = d <| users := <[id := written_user (f u)]> (users d) |>;
}.

Lemma update_user_run id p f d d' n :
  update_user id p f d = Ok (d', n) →
  (n = 0 ∧ d' = d ∧ ∀ u, get_user id d = Some u → p u = false)
  ∨ (n = 1 ∧ ∃ u, user_updated id p f d d' u).
Proof.
  unfold update_user. destruct (get_user id d) as [u|] eqn:Hu.
  - destruct (p u) eqn:Hp; intros Hr.
    + right. inv_ok Hr. injection Hr as <- <-. split; [done|]. exists u.
      apply get_user_Some in Hu as [??]. apply andb_prop in Hok1 as [??]. by split.
    + left. apply Ok_inj in Hr. injection Hr as <- <-. split_and!; [done..|]. by intros ? [= <-].
  - intros Hr%Ok_inj. injection Hr as <- <-. left. by split_and!.
Qed.

Lemma updated_rows id p f d d' n :
  update_user id p f d = Ok (d', n) → n ≠ 0 → ∃ u, user_updated id p f d d' u.
Proof. intros [(-> & _)|(_ & ?)]%update_user_run ?; done. Qed.

Lemma Users_GetByID_run id env d u d' :
  Users_GetByID id env d = Ok (u, d') → d' = d ∧ users d !! id = Some u ∧ u_DeletedAt u = None.
Proof. intros Hr. unfold Users_GetByID in Hr. split_run Hr. split; [done|]. by apply get_user_Some. Qed.

Lemma user_by_email_Some email d u :
  user_by_email email d = Some u →
  ∃ id, users d !! id = Some u ∧ u_DeletedAt u = None ∧ same_ci (u_Email u) email = true.
Proof.
  intros [[id Hid]%elem_of_rows Hp]%find_first_some. apply andb_prop in Hp as [?%negb_is_some ?].
  by exists id.
Qed.

Lemma Users_Create_run u env d w d' :
  Users_Create u env d = Ok (w, d') → w = created_user env u ∧ user_inserted w d d'.
Proof.
  intros Hr. unfold Users_Create in Hr. split_run Hr. split; [done|]. by apply insert_user_run.
Qed.

(** ** auth_tokens *)

Record token_inserted (t : AuthToken) (d d' : UDB) : Prop := {
  ti_new : auth_tokens d !! t_ID t = None;
  ti_check : auth_tokens_check t = true;
  ti_unique : ∀ i w, auth_tokens d !! i = Some w → t_TokenHash w ≠ t_TokenHash t;
  ti_user : ∀ u, t_UserID t = Some u → is_Some (users d !! u);
  ti_after : d' = d <| auth_tokens := <[t_ID t := t]> (auth_tokens d) |>;
}.

Lemma insert_token_run t d d' : insert_token t d = Ok d' → token_inserted (stored_token t) d d'.
Proof.
  intros Hr. unfold insert_token in Hr. inv_ok Hr.
  apply andb_prop in Hok1 as [?%negb_is_some Hu%bool_decide_eq_true]. split; try done.
  intros u Hus. rewrite Hus in Hok2. by apply is_some_iff.
Qed.

Lemma AuthTokens_Create_run t env d v d' :
  AuthTokens_Create t env d = Ok (v, d') → token_inserted (stored_token (created_token env t)) d d'.
Proof. intros Hr. unfold AuthTokens_Create in Hr. split_run Hr. by apply insert_token_run. Qed.

Lemma consumable_true hash purpose now t :
  consumable hash purpose now t = true ↔
  t_TokenHash t = hash ∧ t_Purpose t = purpose ∧ t_UsedAt t = None ∧ stored_time now < t_ExpiresAt t
  ∧ t_DeletedAt t = None.
Proof.
  unfold consumable. rewrite !andb_true_iff, !negb_is_some, !same_true, Z.ltb_lt. tauto.
Qed.

Definition used_token (now : Time) (t : AuthToken) : AuthToken :=
  t <| t_UsedAt := Some (stored_time now) |> <| t_UpdatedAt := stored_time now |>.

(** An unused, live token is used up. *)
Record token_consumed (hash : string) (purpose : TokenPurpose) (now : Time) (d d' : UDB) (t : AuthToken)
    : Prop := {
  tk_before : ∃ i, auth_tokens d !! i = Some t;
  tk_consumable : consumable hash purpose now t = true;
  tk_after : d' = d <| auth_tokens := <[t_ID t := used_token now t]> (auth_tokens d) |>;
}.

Lemma AuthTokens_Consume_run hash purpose now env d c d' :
  AuthTokens_Consume hash purpose now env d = Ok (c, d') →
  ∃ t, c = used_token now t ∧ token_consumed hash purpose now d d' t.
Proof.
  intros Hr. unfold AuthTokens_Consume in Hr. split_run Hr. apply Ok_inj in Hrun.
  unfold consume_token in Hrun.
  destruct (find_first _ _) as [t|] eqn:Hf; injection Hrun as <- Ha; [|congruence].
  apply find_first_some in Hf as [Ht%elem_of_rows Hp]. exists t. split; [exact (eq_sym Ha)|]. by split.
Qed.

(** ** sessions *)

Lemma session_hash_unique_true id hash d :
  session_hash_unique id hash d = true ↔
  ∀ i w, sessions d !! i = Some w → i = id ∨ s_TokenHash w ≠ hash.
Proof. unfold session_hash_unique. rewrite bool_decide_eq_true. done. Qed.

(** A new session of an existing user. *)
Record session_inserted (s : Session) (d d' : UDB) : Prop := {
  si_new : sessions d !! s_ID s = None;
  si_check : sessions_check s = true;
  si_unique : ∀ i w, sessions d !! i = Some w → s_TokenHash w ≠ s_TokenHash s;
  si_user : is_Some (users d !! s_UserID s);
  si_live : s_RevokedAt s = None ∧ s_DeletedAt s = None;
  si_after : d' = d <| sessions := <[s_ID s := s]> (sessions d) |>;
}.

Definition revoked (now at_ : Time) (s : Session) : Session :=
  s <| s_RevokedAt := Some (stored_time now) |> <| s_UpdatedAt := stored_time at_ |>.

(** A live session that holds the digest is revoked. *)
Record session_revoked (id hash : string) (now at_ : Time) (d d' : UDB) (s : Session) : Prop := {
  sr_before : sessions d !! id = Some s;
  sr_live : s_RevokedAt s = None ∧ s_DeletedAt s = None;
  sr_hash : s_TokenHash s = hash;
  sr_expires : stored_time now < s_ExpiresAt s;
  sr_after : d' = d <| sessions := <[id := revoked now at_ s]> (sessions d) |>;
}.

Definition created_session (env : Env) (s : Session) : Session := stored_session {|
  s_ID := new_id env ForSession; s_TokenHash := s_TokenHash s; s_UserID := s_UserID s;
  s_LastSeenAt := s_LastSeenAt s; s_ExpiresAt := s_ExpiresAt s; s_RevokedAt := None;
  s_CreatedAt := gorm_now env; s_UpdatedAt := gorm_now env; s_DeletedAt := None |}.

Lemma Sessions_Create_run s env d w d' :
  Sessions_Create s env d = Ok (w, d') →
  s_ID w = new_id env ForSession ∧ session_inserted (created_session env s) d d'.
Proof.
  intros Hr. unfold Sessions_Create in Hr. apply bind_ok in Hr as (e & ? & [-> ->]%st_run_ask & Hr).
  apply bind_ok in Hr as (v & s1 & Hi%st_run_reporting%st_run_exec_unit & [-> ->]%st_run_ret).
  unfold insert_session in Hi. inv_ok Hi. subst s1. apply andb_prop in Hok0 as [Hnew%negb_is_some Hu].
  rewrite session_hash_unique_true in Hu. split; [done|]. split; try done.
  - intros i x Hx. destruct (Hu i x Hx) as [Hi'|Hne]; [|exact Hne]. cbn in Hi', Hnew. congruence.
  - by apply is_some_iff.
Qed.

Definition signed_session (s : Session) (hash : string) (at_ : Time) : Session :=
  s <| s_TokenHash := hash |> <| s_UpdatedAt := stored_time at_ |>.

Lemma Sessions_UpdateTokenHash_run id hash env d v d' :
  Sessions_UpdateTokenHash id hash env d = Ok (v, d') →
  ∃ s, sessions d !! id = Some s ∧ session_hash_unique id hash d = true
    ∧ d' = d <| sessions := <[id := signed_session s hash (gorm_now env)]> (sessions d) |>.
Proof.
  intros Hr. unfold Sessions_UpdateTokenHash in Hr. split_run Hr. apply n_zero in Hr.
  unfold update_session_hash in Hrun.
  destruct (live s_DeletedAt (sessions d !! id)) as [w|] eqn:Hs; inv_ok Hrun;
    injection Hrun as <- <-; [|done].
  apply live_Some in Hs as [??]. by exists w.
Qed.

Lemma Sessions_Revoke_run id hash now env d v d' :
  Sessions_Revoke id hash now env d = Ok (v, d') →
  ∃ s, session_revoked id hash now (gorm_now env) d d' s.
Proof.
  intros Hr. unfold Sessions_Revoke in Hr. split_run Hr. apply n_zero in Hr. apply Ok_inj in Hrun.
  unfold revoke_session in Hrun.
  destruct (live s_DeletedAt (sessions d !! id)) as [w|] eqn:Hs; [|by injection Hrun as <- <-].
  destruct (_ && _ && _) eqn:Hc; injection Hrun as <- <-; [|done].
  apply live_Some in Hs as [??]. exists w.
  apply andb_prop in Hc as [[?%same_eq ?%negb_is_some]%andb_prop ?%Z.ltb_lt]. by split.
Qed.

End runs.

Section sessions.
  Context `{UUID, Digest, CIText, UnicodeLower, Codec, PhoneNumbers}.

(** Creating a session: it holds the digest of the refresh token. *)
Lemma createSession_run cfg u now env d tokens d' :
  createSession cfg u now env d = Ok (tokens, d') →
  signSessionTokens cfg env u (new_id env ForSession) now = Ok tokens
  ∧ ∃ s, session_inserted s d d' ∧ s_ID s = new_id env ForSession ∧ s_UserID s = u_ID u
      ∧ s_TokenHash s = sha256_hex (at_RefreshToken tokens)
      ∧ s_ExpiresAt s = stored_time (now + cfg_RefreshTokenTTL cfg).
Proof.
  intros Hr. unfold createSession in Hr. split_run Hr.
  apply Sessions_Create_run in Hrun as [Hid Hi]. rewrite Hid in *.
  set (c := created_session _ _) in Hi.
  apply Sessions_UpdateTokenHash_run in Hrun1 as (w & Hs & Hu & ->). split; [done|].
  pose proof (si_after _ _ _ Hi) as ->. rewrite session_hash_unique_true in Hu. simpl in Hs, Hu.
  rewrite lookup_insert_eq in Hs. apply (inj Some) in Hs as <-.
  exists (signed_session c (sha256_hex (at_RefreshToken a0)) (gorm_now env)).
  split_and!; [split|done..].
  - exact (si_new _ _ _ Hi).
  - exact (si_check _ _ _ Hi).
  - intros i w Hw. assert (new_id env ForSession ≠ i).
    { intros <-. pose proof (si_new _ _ _ Hi) as Hn. simpl in Hn. congruence. }
    destruct (Hu i w) as [->|Hne]; [by rewrite lookup_insert_ne|done|exact Hne].
  - exact (si_user _ _ _ Hi).
  - done.
  - cbn -[signed_session c]. by rewrite insert_insert_eq.
Qed.

End sessions.

(** * The effects of its transactions

    Every transaction of the service is one [effect]: a link saved, a login, a
    registration, a refresh, a logout of one session or of all, an edited profile,
    a role change, the first administrator, an allowed domain, a review submitted
    or removed, and the operations of the store that nothing calls yet. The
    statements of a relay, which claim, publish or retry a registration, are effects
    when [relay] is true. *)

(** ** Rows *)

(** The columns that an edit of a profile leaves alone. *)
Record same_account (u w : User) : Prop := {
  sa_id : u_ID w = u_ID u;
  sa_email : u_Email w = u_Email u;
  sa_role : u_Role w = u_Role u;
  sa_created : u_CreatedAt w = u_CreatedAt u;
  sa_deleted : u_DeletedAt w = u_DeletedAt u;
  sa_count : u_ReviewCount w = u_ReviewCount u;
  sa_rating : u_AvgRating w = u_AvgRating u;
}.

Definition put_user (id : string) (u : User) (d : UDB) : UDB := d <| users := <[id := u]> (users d) |>.
Definition put_fact (o : UserCreatedOutbox) (d : UDB) : UDB :=
  d <| user_created_outbox := <[ob_EventID o := o]> (user_created_outbox d) |>.

Record fact_inserted (o : UserCreatedOutbox) (d d' : UDB) : Prop := {
  fi_new : user_created_outbox d !! ob_EventID o = None;
  fi_unique : ∀ i w, user_created_outbox d !! i = Some w → ob_UserID w ≠ ob_UserID o;
  fi_after : d' = put_fact o d;
}.

(** What the relay never changes. *)
Definition fact_content (o : UserCreatedOutbox) : UserCreatedOutbox :=
  o <| ob_AvailableAt := 0 |> <| ob_PublishedAt := None |> <| ob_LeaseToken := None |> <| ob_LeaseUntil := None |>.

(** An unpublished fact was leased, returned or published. *)
Record fact_turned (o o' : UserCreatedOutbox) (d d' : UDB) : Prop := {
  ft_before : ∃ i, user_created_outbox d !! i = Some o;
  ft_pending : ob_PublishedAt o = None;
  ft_content : fact_content o' = fact_content o;
  ft_after : d' = put_fact o' d;
}.

Definition changed_user (c : RoleChange) (at_ : Time) (u : User) : User :=
  written_user (u <| u_Role := rc_ToRole c |> <| u_UpdatedBy := rc_CreatedBy c |> <| u_UpdatedAt := at_ |>).

Record role_changed (c : RoleChange) (at_ : Time) (u : User) (d d' : UDB) : Prop := {
  rg_before : users d !! rc_UserID c = Some u;
  rg_live : u_DeletedAt u = None;
  rg_from : u_Role u = rc_FromRole c;
  rg_differ : rc_FromRole c ≠ rc_ToRole c;
  rg_valid : Valid (rc_ToRole c) = true;
  rg_check : role_changes_check c = true;
  rg_new : rc_ID c ∉ rc_ID <$> role_changes d;
  rg_after : d' = put_user (rc_UserID c) (changed_user c at_ u) d
                    <| role_changes := role_changes d ++ [stored_role_change c] |>;
}.

(** The moves of a role that an administrator's role allows, with a reason or
    without. *)
Definition permitted (actor from to : RoleName) (reason : option string) : Prop :=
  IsAdmin actor = true ∧ assignable to = true ∧ from ≠ to ∧ from ≠ RoleSuperAdmin
  ∧ (actor = RoleAdmin → from ≠ RoleAdmin ∧ to ≠ RoleAdmin)
  ∧ (from = RoleSuspended ∨ to = RoleSuspended → reason ≠ None).

(** ** Registrations *)

(** What calls draw: identifiers are canonical and not nil, and the clock reads a
    time from year 1 to year 9999. *)
Definition canonical `{UUID} (id : string) : Prop := uuid_parse id = Some id ∧ id ≠ uuid_nil.
Record sound_env `{UUID} (env : Env) : Prop := {
  se_ids : ∀ k, canonical (new_id env k);
  se_clock : Microsecond <= gorm_now env <= 315537897599 * Second;
}.

(** The relay has a message for the fact. *)
Definition publishable (o : UserCreatedOutbox) : Prop := ∀ token, is_Some (encode (fact_of token o)).

(** ** Reviews *)

Record review_inserted (v : Review) (d d' : UDB) : Prop := {
  ri_check : reviews_check v = true;
  ri_new : reviews d !! v_ID v = None;
  ri_unique : ∀ i w, reviews d !! i = Some w → v_OrderID w = v_OrderID v →
    v_ReviewerID w ≠ v_ReviewerID v ∧ v_RevieweeID w ≠ v_RevieweeID v;
  ri_users : is_Some (users d !! v_ReviewerID v) ∧ is_Some (users d !! v_RevieweeID v);
  ri_live : v_DeletedAt v = None;
  ri_after : d' = d <| reviews := <[v_ID v := v]> (reviews d) |>;
}.

Definition removed_review (now : Time) (v : Review) : Review := v <| v_DeletedAt := Some now |>.

Record review_removed (id : string) (now : Time) (v : Review) (r : ReviewRemoval) (d d' : UDB) : Prop := {
  rr_before : reviews d !! id = Some v;
  rr_live : v_DeletedAt v = None;
  rr_of : vr_ReviewID r = v_ID v;
  rr_new : review_removals d !! vr_ID r = None;
  rr_unique : ∀ i w, review_removals d !! i = Some w → vr_ReviewID w ≠ vr_ReviewID r;
  rr_reason : within 1 100000 (char_length (vr_Reason r)) = true;
  rr_after : d' = d <| reviews := <[id := removed_review now v]> (reviews d) |>
                    <| review_removals := <[vr_ID r := r]> (review_removals d) |>;
}.

(** A user's statistics are those of the live reviews. *)
Definition rated (u : User) (count sum : Z) (now : Time) : User :=
  u <| u_ReviewCount := count |> <| u_AvgRating := stats_average count sum |> <| u_UpdatedAt := now |>.

(** COUNT and SUM of the live reviews that the user received. *)
Definition review_stats (vs : gmap string Review) (user : string) : Z * Z :=
  (msum (λ _ v, if received user v then 1 else 0) vs, msum (λ _ v, if received user v then v_Rating v else 0) vs).

#[global] Arguments review_stats : simpl never.

Lemma RevieweeStatistics_stats user d : RevieweeStatistics user d = review_stats (reviews d) user.
Proof. unfold RevieweeStatistics, review_stats, reviews_where. by rewrite <- lsum_length, !lsum_rows. Qed.

Definition recalculated (user : string) (now : Time) (d d' : UDB) : Prop :=
  match users d !! user with
  | Some u => let s := review_stats (reviews d) user in
              s.1 < 2 ^ 31 ∧ d' = put_user user (rated u s.1 s.2 now) d
  | None => d' = d
  end.

(** ** The effects *)

Section effects.
  Context `{UUID, CIText}.

Inductive effect (relay : bool) (d d' : UDB) : Prop :=
| LinkSaved t :
    token_inserted t d d' → t_UsedAt t = None → nonempty (t_Email t) = true → effect relay d d'
| LoggedIn hash now t d1 s :
    token_consumed hash PurposeLogin now d d1 t → session_inserted s d1 d' → effect relay d d'
| Registered hash now t d1 u d2 o d3 s :
    token_consumed hash PurposeRegister now d d1 t → user_inserted u d1 d2 →
    canonical (u_ID u) → u_Email u = t_Email t → u_Role u = RoleUser → u_DeletedAt u = None →
    u_ReviewCount u = 0 → u_AvgRating u = S754_zero false →
    fact_inserted o d2 d3 → ob_UserID o = u_ID u → ob_Email o = u_Email u →
    ob_UserCreatedAt o = u_CreatedAt (stored_user u) → ob_PublishedAt o = None →
    (nonempty (t_Email t) = true → publishable o) →
    session_inserted s d3 d' → s_UserID s = u_ID u → effect relay d d'
| Refreshed id hash now at_ r d1 s :
    session_revoked id hash now at_ d d1 r → session_inserted s d1 d' → effect relay d d'
| LoggedOut id hash now at_ r :
    session_revoked id hash now at_ d d' r → effect relay d d'
| LoggedOutEverywhere id hash user now at_ r d1 :
    session_revoked id hash now at_ d d1 r → d' = (revoke_sessions user now d1).1 → effect relay d d'
| Edited id u w :
    users d !! id = Some u → u_DeletedAt u = None → same_account u w →
    users_check w = true → users_text w = true → d' = put_user id w d → effect relay d d'
| RoleChanged c at_ u actor a :
    role_changed c at_ u d d' → rc_CreatedBy c = Some actor → actor ≠ rc_UserID c →
    users d !! actor = Some a → u_DeletedAt a = None →
    permitted (u_Role a) (rc_FromRole c) (rc_ToRole c) (rc_Reason c) → effect relay d d'
| FirstAdminCreated u d1 at_ :
    admin_bootstrap d = None → user_inserted u d d1 → canonical (u_ID u) → u_Role u = RoleSuperAdmin → u_DeletedAt u = None →
    u_ReviewCount u = 0 → u_AvgRating u = S754_zero false →
    d' = d1 <| admin_bootstrap := Some (u_ID u, at_) |> → effect relay d d'
| FirstAdminPromoted c at_ u d1 t :
    admin_bootstrap d = None → role_changed c at_ u d d1 →
    rc_ToRole c = RoleSuperAdmin → rc_CreatedBy c = None →
    d' = d1 <| admin_bootstrap := Some (rc_UserID c, t) |> → effect relay d d'
| FirstAdminFound u id t :
    admin_bootstrap d = None → users d !! id = Some u → u_DeletedAt u = None → u_Role u = RoleSuperAdmin →
    d' = d <| admin_bootstrap := Some (u_ID u, t) |> → effect relay d d'
| DomainsChanged l :
    d' = d <| allowed_domains := l |> → effect relay d d'
| Reviewed v d1 now :
    review_inserted v d d1 → v_ReviewerID v ≠ v_RevieweeID v →
    recalculated (v_RevieweeID v) now d1 d' → effect relay d d'
| ReviewRemoved id v r d1 now t :
    review_removed id t v r d d1 → recalculated (v_RevieweeID v) now d1 d' → effect relay d d'
| FactTurned o o' :
    relay = true → fact_turned o o' d d' → effect relay d d'
| UserDeleted id u t :
    users d !! id = Some u → u_DeletedAt u = None → fst <$> admin_bootstrap d ≠ Some id →
    d' = delete_of_user id t (put_user id (u <| u_DeletedAt := Some t |>) d) → effect relay d d'
| Unwired l m :
    d' = d <| account_warnings := l |> <| favourite_suppliers := m |> → effect relay d d'
| Nothing : d' = d → effect relay d d'.

End effects.
