(* ===== verification/UserSteps.v ===== *)
(** * User: its transactions have effects

    [user_step] is one committed transaction of any process of the service, under
    any clock, draw and input: a write of a call ([service_step]) or a statement of
    a relay; [step_effect] reads it as an effect. *)
From stdpp Require Import prelude gmap strings list sorting relations.
From Stdlib Require Import ZArith Lia SpecFloat.
From S2P Require Import Prelude.
From S2P Require Import GoLib.
From S2P Require Import GoText.
From S2P Require Import GoFloat.
From S2P Require Import GoMail.
From S2P Require Import UserTypes.
From S2P Require Import UserDB.
From S2P Require Import UserStore.
From S2P Require Import UserAuth.
From S2P Require Import UserAccounts.
From S2P Require Import UserReviews.
From S2P Require Import UserRuns.

Local Open Scope Z_scope.
Local Open Scope foc_scope.

Section gate.
  Context `{CIText, UnicodeLower}.

Lemma requireAllowedEmailDomain_run input role env d v d' :
  requireAllowedEmailDomain input role env d = Ok (v, d') → d' = d.
Proof. intros Hr. unfold requireAllowedEmailDomain, IsDomainAllowed, Domains_IsDomainAllowed in Hr. by split_run Hr. Qed.

End gate.

Ltac split_more H ::=
  lazymatch type of H with
  | reporting _ _ _ _ = Ok _ => apply st_run_reporting in H; split_run H
  | exec_unit _ _ _ = Ok _ => apply st_run_exec_unit in H
  | exec _ _ _ = Ok _ => apply st_run_exec in H
  | lift _ _ _ = Ok _ => let X := fresh "Es" in apply st_run_lift in H as [H X]; subst
  | Users_GetByID _ _ _ = Ok _ => let X := fresh "Es" in apply Users_GetByID_run in H as [X H]; subst
  | requireAllowedEmailDomain _ _ _ _ = Ok _ => apply requireAllowedEmailDomain_run in H; subst
  | createSession _ _ _ _ _ = Ok _ => apply createSession_run in H
  | AuthTokens_Consume _ _ _ _ _ = Ok _ => apply AuthTokens_Consume_run in H
  | Sessions_Revoke _ _ _ _ _ = Ok _ => apply Sessions_Revoke_run in H
  | _ => idtac
  end.

Section steps.
  Context `{UUID, Digest, CIText, UnicodeLower, Codec, PhoneNumbers}.
  Context (cfg : Config).

Lemma insert_fact_run o d d' : insert_fact o d = Ok d' → fact_inserted o d d'.
Proof.
  intros Hr. unfold insert_fact in Hr. inv_ok Hr. apply andb_prop in Hok1 as [?%negb_is_some Hu%bool_decide_eq_true].
  by split.
Qed.

(** ** Sessions *)

Lemma link_effect env email u d v d' :
  nonempty email = true → AuthTokens_Create (challenge env email u) env d = Ok (v, d') → effect false d d'.
Proof. intros He Hr%AuthTokens_Create_run. by eapply LinkSaved. Qed.

Lemma NormalizeEmail_nonempty raw email : NormalizeEmail raw = Ok email → nonempty email = true.
Proof.
  intros Hr. unfold NormalizeEmail in Hr. inv_ok Hr. apply andb_prop in Hok as [[Hb _]%andb_prop _].
  rewrite Hr in Hb. destruct email; [by vm_compute in Hb|done].
Qed.

(** The facts that [split_run] leaves behind, by their form. *)
Ltac consumed t Ht := select (∃ t0, _ ∧ token_consumed _ _ _ _ _ t0) (fun H => destruct H as (t & -> & Ht)).
Ltac session_made w Hs Hu :=
  select (_ ∧ ∃ s0, session_inserted s0 _ _ ∧ _) (fun H => destruct H as (_ & w & Hs & _ & Hu & _)).
Ltac session_ended r Hr := select (∃ s0, session_revoked _ _ _ _ _ _ s0) (fun H => destruct H as (r & Hr)).

Lemma login_effect digest now env d v d' : login_body cfg digest now env d = Ok (v, d') → effect false d d'.
Proof.
  intros Hr. unfold login_body in Hr. split_run Hr. consumed t Ht. session_made w Hs Hu. eapply LoggedIn; eassumption.
Qed.

(** A registration can be published. *)
Lemma registration_publishable env u email :
  sound_env env → nonempty email = true → u_Email u = email → users_check u = true →
  canonical (u_ID u) → u_CreatedAt u = gorm_now env →
  publishable (outbox_row env {| ce_EventID := new_id env ForEvent; ce_UserID := u_ID u; ce_Email := u_Email u;
    ce_DisplayName := u_DisplayName u; ce_CreatedAt := u_CreatedAt u |}).
Proof.
  intros [Hid Hc] He <- Hu [_ Hn] Hat token. unfold encode. cbn -[stored_time valid_timestamp IsZero uuid_nil].
  assert (nonempty (u_DisplayName u) = true) as ->.
  { unfold users_check in Hu. apply andb_prop in Hu as [[Hu _]%andb_prop _].
    by destruct (u_DisplayName u). }
  rewrite He, Hat. destruct (Hid ForEvent) as [_ He'].
  assert (0 < stored_time (gorm_now env) <= gorm_now env) as Ht.
  { pose proof (time_truncate_le (gorm_now env) Microsecond ltac:(done)). unfold stored_time. lia. }
  rewrite !(proj2 (same_false _ _)) by done. unfold IsZero, valid_timestamp, within.
  rewrite (proj2 (Z.eqb_neq _ _)) by lia. simpl.
  rewrite (proj2 (andb_true_iff _ _)); [done|]. split; apply Z.leb_le; unfold Second in *; lia.
Qed.

Lemma register_effect digest name phone now env d v d' :
  sound_env env → register_body cfg digest name phone now env d = Ok (v, d') → effect false d d'.
Proof.
  intros Henv Hr. unfold register_body, UserProvisioner_Create, Outbox_Append in Hr. split_run Hr.
  consumed t Ht. session_made w Hs Hu.
  select (Users_Create _ _ _ = _) (fun H => apply Users_Create_run in H as [-> Hi]).
  select (insert_fact _ _ = _) (fun H => apply insert_fact_run in H).
  assert (canonical (u_ID (created_user env (new_user (t_Email t) name (Some phone) RoleUser)))) as Hid.
  { apply (se_ids _ Henv). }
  eapply Registered; [eassumption..|done|done|done|done|done|eassumption|done|done|done|done| |eassumption|done].
  intros He. eapply registration_publishable; [done|exact He|done|by eapply ui_check|done|done].
Qed.

Lemma refresh_effect u session token now env d v d' :
  refresh_body cfg u session token now env d = Ok (v, d') → effect false d d'.
Proof.
  intros Hr. unfold refresh_body in Hr. split_run Hr. session_ended r Hend. session_made w Hs Hu.
  eapply Refreshed; eassumption.
Qed.

Lemma logout_effect session hash now env d v d' :
  Sessions_Revoke session hash now env d = Ok (v, d') → effect false d d'.
Proof. intros [r Hr]%Sessions_Revoke_run. by eapply LoggedOut. Qed.

Lemma logout_all_effect user session token now env d v d' :
  logout_all_body user session token now env d = Ok (v, d') → effect false d d'.
Proof.
  intros Hr. unfold logout_all_body, Sessions_RevokeAllForUser in Hr. split_run Hr. session_ended r Hend.
  eapply LoggedOutEverywhere; [done|]. select (Ok _ = Ok _) (fun H => apply Ok_inj in H; by rewrite H).
Qed.
(** ** Profiles and roles *)

Lemma written_profile_same u name description phone by_ at_ :
  same_account u (written_user (u <| u_DisplayName := name |> <| u_Description := description |>
    <| u_PhoneNumber := phone |> <| u_UpdatedBy := by_ |> <| u_UpdatedAt := at_ |>)).
Proof. by split. Qed.

Lemma profile_effect u env d v d' : Users_UpdateActiveProfile u env d = Ok (v, d') → effect false d d'.
Proof.
  intros Hr. unfold Users_UpdateActiveProfile in Hr. split_run Hr.
  select (update_user _ _ _ _ = _) (fun H => apply updated_rows in H as (w & [])); [|by apply Z.eqb_neq].
  eapply Edited; [eassumption|done| |eassumption|eassumption|done]. apply written_profile_same.
Qed.

Lemma store_update_effect id i env d v d' : Users_Update id i env d = Ok (v, d') → effect false d d'.
Proof.
  intros Hr. unfold Users_Update in Hr. split_run Hr.
  select (update_user _ _ _ _ = _) (fun H => apply updated_rows in H as (w & [])); [|by apply n_zero].
  eapply Edited; [eassumption|done| |eassumption|eassumption|done]. apply written_profile_same.
Qed.

Lemma insert_role_change_run c d d' :
  insert_role_change c d = Ok d' →
  role_changes_check c = true ∧ rc_ID c ∉ rc_ID <$> role_changes d ∧ Valid (rc_ToRole c) = true
  ∧ d' = d <| role_changes := role_changes d ++ [stored_role_change c] |>.
Proof.
  intros Hr. unfold insert_role_change in Hr. inv_ok Hr.
  apply andb_prop in Hok2 as [[[_ ?]%andb_prop _]%andb_prop _]. apply bool_decide_eq_true in Hok1. done.
Qed.

Lemma change_role_run c env d c' d' :
  Admin_ChangeRole c env d = Ok (c', d') →
  c' = created_change env c ∧ ∃ u, role_changed c' (gorm_now env) u d d'.
Proof.
  intros Hr. unfold Admin_ChangeRole in Hr. split_run Hr. split; [done|].
  select (update_user _ _ _ _ = _) (fun H => apply updated_rows in H as (w & Hu)); [|by apply n_zero].
  select (insert_role_change _ _ = _)
    (fun H => apply insert_role_change_run in H as (Hc & Hn & Hv & ->)).
  destruct Hu as [Hb Hl Hw _ _ _ ->]. apply same_eq in Hw. exists w. split; try done.
  unfold role_changes_check in Hc. apply andb_prop in Hc as [[_ Hc%negb_true_iff%same_false]%andb_prop _].
  exact Hc.
Qed.

Lemma role_effect u c actor a env d v d' :
  rc_CreatedBy c = Some actor → actor ≠ rc_UserID c →
  users d !! actor = Some a → u_DeletedAt a = None →
  permitted (u_Role a) (rc_FromRole c) (rc_ToRole c) (rc_Reason c) →
  role_write u c env d = Ok (v, d') → effect false d d'.
Proof.
  intros Hby Hne Ha Hl Hp Hr. unfold role_write in Hr. split_run Hr.
  select (Admin_ChangeRole _ _ _ = _) (fun H => apply change_role_run in H as (-> & w & Hw)).
  by eapply RoleChanged.
Qed.

Lemma permitted_checks ra from to reason :
  assignable to = true →
  permitted ra from to (if nonempty reason then Some reason else None) ↔
  IsAdmin ra = true
  ∧ negb (same from RoleSuperAdmin || (same ra RoleAdmin && (same from RoleAdmin || same to RoleAdmin))) = true
  ∧ negb (same from to) = true
  ∧ negb ((same from RoleSuspended || same to RoleSuspended) && negb (nonempty reason)) = true.
Proof.
  intros Hto. unfold permitted.
  rewrite !negb_true_iff, orb_false_iff, !andb_false_iff, !orb_false_iff, !same_false, negb_false_iff.
  destruct (nonempty reason), (decide (ra = RoleAdmin)), (decide (from = RoleSuspended)),
    (decide (to = RoleSuspended)); naive_solver.
Qed.

(** Reading the roles finds a permitted change. *)
Lemma role_reads_run actor target to reason env d u c d' :
  assignable to = true → role_reads actor target to reason env d = Ok ((u, c), d') →
  d' = d ∧ actor ≠ target ∧ rc_UserID c = target ∧ rc_CreatedBy c = Some actor ∧ rc_ToRole c = to
  ∧ users d !! target = Some u ∧ u_DeletedAt u = None
  ∧ rc_FromRole c = u_Role u ∧ rc_Reason c = (if nonempty reason then Some reason else None)
  ∧ ∃ a, users d !! actor = Some a ∧ u_DeletedAt a = None
       ∧ permitted (u_Role a) (rc_FromRole c) to (rc_Reason c).
Proof.
  intros Hto Hr. unfold role_reads, Users_GetByIDForUpdate in Hr. split_run Hr. injection Hr as -> ->.
  destruct Hrun as [Ha Hal], Hrun2 as [Hu Hul]. apply negb_true_iff, same_false in Hrun1.
  split_and!; [done..|]. exists a. split_and!; [done..|]. simpl. by apply permitted_checks.
Qed.

Lemma change_effect env fl d0 actor target to reason d v d' :
  users d0 !! actor = users d !! actor →
  ChangeUserRole env fl no_faults (λ _, d) actor target to reason d0 = (Ok v, d') → effect false d d'.
Proof.
  intros Hk. unfold ChangeUserRole. destruct (same actor _); [done|].
  destruct (same target _ || negb (assignable to)) eqn:Hto; [done|]. apply orb_false_iff in Hto as [_ Hto%negb_false_iff].
  destruct (2000 <? _); [done|].
  destruct (WithTransaction env fl _ d0).1 as [[u c]|e] eqn:Hr; [|done].
  apply WithTransaction_ok, role_reads_run in Hr as (_ & Hne & Hc & Hby & Hto' & _ & _ & _ & _ & a & Ha & Hal & Hp); [|done].
  rewrite WithTransaction_no_faults. destruct (role_write u c env d) as [[w d1]|] eqn:Hs; [|done]. intros [= <- <-].
  eapply role_effect; [exact Hby|congruence|by rewrite <- Hk|done|by rewrite Hto'|exact Hs].
Qed.

Definition bootstrap_user (email name : string) : User := new_user email name None (OtherRole EmptyString).

Lemma insert_bootstrap_run user at_ d d' :
  insert_bootstrap user at_ d = Ok d' → d' = d <| admin_bootstrap := Some (user, stored_time at_) |>.
Proof. intros Hr. unfold insert_bootstrap in Hr. by inv_ok Hr. Qed.

Lemma bootstrap_effect email name env d v d' :
  sound_env env → Admin_Bootstrap (bootstrap_user email name) env d = Ok (v, d') → effect false d d'.
Proof.
  intros Henv Hr. unfold Admin_Bootstrap in Hr. split_run Hr; [by apply Nothing|..];
    select (is_some _ = false) (fun H => apply is_some_false in H as Hb);
    select (insert_bootstrap _ _ _ = _) (fun H => apply insert_bootstrap_run in H).
  - apply user_by_email_Some in Hm as (id & Hu & Hl & _). apply same_eq in Hb0.
    eapply FirstAdminFound; eassumption.
  - apply change_role_run in Hrun0 as (-> & w & Hw). by eapply FirstAdminPromoted.
  - apply insert_user_run in Hrun1. eapply FirstAdminCreated; [done|eassumption| |done..]. apply (se_ids _ Henv).
Qed.

(** ** Domains *)

Lemma domain_added_effect domain actor env d v d' : Domains_AllowDomain domain actor env d = Ok (v, d') → effect false d d'.
Proof.
  intros Hr. unfold Domains_AllowDomain in Hr. split_run Hr. unfold insert_domain in Hr. inv_ok Hr.
  by eapply DomainsChanged.
Qed.

Lemma domain_removed_effect id env d v d' : Domains_RemoveAllowedDomain id env d = Ok (v, d') → effect false d d'.
Proof.
  intros Hr. unfold Domains_RemoveAllowedDomain in Hr. split_run Hr. apply Ok_inj in Hrun.
  unfold delete_domain in Hrun. destruct (allowed_domains d !! id); injection Hrun as <- <-.
  - by eapply DomainsChanged.
  - by apply Nothing.
Qed.

(** ** Reviews *)

Lemma recalculate_run user env d v d' :
  Reviews_RecalculateStats user env d = Ok (v, d') → recalculated user (server_now env) d d'.
Proof.
  intros Hr. unfold Reviews_RecalculateStats in Hr. split_run Hr. unfold UpdateRevieweeStats in Hr.
  unfold recalculated. rewrite <- RevieweeStatistics_stats. destruct (users d !! user) as [u|]; inv_ok Hr; [|done].
  split; [by apply Z.ltb_lt|done].
Qed.

Lemma insert_review_run v d d' : InsertReview v d = Ok d' → v_DeletedAt v = None → review_inserted v d d'.
Proof.
  intros Hr Hl. unfold InsertReview in Hr. inv_ok Hr.
  apply andb_prop in Hok1 as [?%negb_is_some Hu%bool_decide_eq_true].
  apply andb_prop in Hok2 as [?%is_some_iff ?%is_some_iff]. by split.
Qed.

Lemma submit_effect i env d v d' :
  ri_ReviewerID i ≠ ri_RevieweeID i → submit_body i env d = Ok (v, d') → effect false d d'.
Proof.
  intros Hne Hr. unfold submit_body, Reviews_InsertReview in Hr. split_run Hr.
  apply insert_review_run in Hrun; [|done]. apply recalculate_run in Hr. by eapply Reviewed.
Qed.

Lemma submission_effect env fl d0 reviewer reviewee order s d v d' :
  SubmitReview env fl no_faults (λ _, d) reviewer reviewee order s d0 = (Ok v, d') → effect false d d'.
Proof.
  unfold SubmitReview. destruct (same reviewer reviewee) eqn:Hne; [done|]. apply same_false in Hne.
  destruct (WithTransaction env fl _ d0).1 as [[[] []]|]; try done. cbn [negb].
  rewrite WithTransaction_no_faults. destruct (submit_body _ env d) as [[w d1]|] eqn:Hs; [|done]. intros [= <- <-].
  by eapply submit_effect; [|exact Hs].
Qed.

Lemma soft_delete_run id now d d' w :
  SoftDeleteReview id now d = (d', Some w) →
  ∃ v, reviews d !! id = Some v ∧ v_DeletedAt v = None ∧ w = removed_review now v
     ∧ d' = d <| reviews := <[id := removed_review now v]> (reviews d) |>.
Proof.
  unfold SoftDeleteReview. destruct (live v_DeletedAt _) as [v|] eqn:Hv; [|done]. intros [= <- <-].
  apply live_Some in Hv as [??]. by exists v.
Qed.

Lemma record_removal_run r d d' :
  RecordReviewRemoval r d = Ok d' →
  within 1 100000 (char_length (vr_Reason r)) = true ∧ review_removals d !! vr_ID r = None
  ∧ (∀ i w, review_removals d !! i = Some w → vr_ReviewID w ≠ vr_ReviewID r)
  ∧ d' = d <| review_removals := <[vr_ID r := r]> (review_removals d) |>.
Proof.
  intros Hr. unfold RecordReviewRemoval in Hr. inv_ok Hr.
  apply andb_prop in Hok1 as [?%negb_is_some Hu%bool_decide_eq_true]. by split_and!.
Qed.

Lemma remove_effect id reason actor removal env d v d' :
  remove_body id reason actor removal env d = Ok (v, d') → effect false d d'.
Proof.
  intros Hr. unfold remove_body, Reviews_SoftDeleteReview, Reviews_RecordReviewRemoval in Hr. split_run Hr.
  apply Ok_inj, soft_delete_run in Hrun0 as (w & Hw & Hl & -> & ->).
  apply record_removal_run in Hrun as (Hc & Hn & Hu & ->). apply recalculate_run in Hr.
  change (v_RevieweeID (removed_review (server_now env) w)) with (v_RevieweeID w) in Hr at 1.
  eapply (ReviewRemoved _ _ _ id w); [|exact Hr]. split; [exact Hw|exact Hl| | | | |reflexivity]; done.
Qed.

(** ** The relay *)

Lemma claim_effect token eligible until d d' f : Outbox_Claim token eligible until d = (d', f) → effect true d d'.
Proof.
  unfold Outbox_Claim, claim_fact. destruct (merge_sort _ _) as [|o l] eqn:Hs; intros [= <- <-]; [by apply Nothing|].
  assert (o ∈ o :: l) as Ho by left. rewrite <- Hs, merge_sort_Permutation in Ho.
  apply list_elem_of_filter in Ho as [Hc [i Hi]%elem_of_rows]. unfold claimable in Hc. inv_checks Hc.
  apply (FactTurned _ _ _ o (o <| ob_LeaseToken := Some token |> <| ob_LeaseUntil := Some (stored_time until) |>)); [done|].
  split; [by exists i|by apply negb_is_some|done..].
Qed.

Lemma update_fact_effect id token p f d d' n :
  (∀ o, fact_content (f o) = fact_content o) → (∀ o, ob_EventID (f o) = ob_EventID o) →
  (∀ o, user_created_outbox d !! id = Some o → ob_EventID o = id) →
  update_fact id token p f d = (d', n) → effect true d d'.
Proof.
  intros Hf Hid Hk. unfold update_fact.
  destruct (user_created_outbox d !! id) as [o|] eqn:Ho; [|intros [= <- <-]; by apply Nothing].
  destruct (_ && _ && _) eqn:Hc; intros [= <- <-]; [|by apply Nothing]. inv_checks Hc.
  apply (FactTurned _ _ _ o (f o)); [done|]. split; [by exists id|by apply negb_is_some|apply Hf|].
  unfold put_fact. by rewrite Hid, (Hk o).
Qed.
Definition outbox_keyed (d : UDB) : Prop :=
  ∀ i o, user_created_outbox d !! i = Some o → ob_EventID o = i.

Lemma published_effect f now d d' b :
  outbox_keyed d → Outbox_Published f now d = (d', b) → effect true d d'.
Proof.
  unfold Outbox_Published. intros Hk. destruct (update_fact _ _ _ _ d) as [d1 n] eqn:Hu. intros [= <- <-].
  eapply update_fact_effect; [..|exact Hu]; [done..|apply Hk].
Qed.

Lemma retry_effect f available d d' b :
  outbox_keyed d → Outbox_Retry f available d = (d', b) → effect true d d'.
Proof.
  unfold Outbox_Retry. intros Hk. destruct (update_fact _ _ _ _ d) as [d1 n] eqn:Hu. intros [= <- <-].
  eapply update_fact_effect; [..|exact Hu]; [done..|apply Hk].
Qed.

(** ** The operations of the store without a caller *)

Lemma delete_effect id env d v d' : Users_Delete id env d = Ok (v, d') → effect false d d'.
Proof.
  intros Hr. unfold Users_Delete in Hr. split_run Hr. apply negb_true_iff, same_false in Hrun.
  apply get_user_Some in Hrun0 as [Hu Hl]. by eapply UserDeleted.
Qed.

Lemma add_favourite_effect user supplier now env d v d' :
  Users_AddFavourite user supplier now env d = Ok (v, d') → effect false d d'.
Proof.
  intros Hr. unfold Users_AddFavourite in Hr. split_run Hr.
  destruct (favourite_suppliers d !! (user, supplier)); inv_ok Hr; [by apply Nothing|].
  subst d'. by eapply (Unwired _ _ _ (account_warnings d)).
Qed.

Lemma remove_favourite_effect user supplier env d v d' :
  Users_RemoveFavourite user supplier env d = Ok (v, d') → effect false d d'.
Proof. intros Hr. unfold Users_RemoveFavourite in Hr. split_run Hr. by eapply (Unwired _ _ _ (account_warnings d)). Qed.

Lemma put_warning_effect w d d' : put_warning w d = Ok d' → effect false d d'.
Proof.
  intros Hr. unfold put_warning in Hr. inv_ok Hr. subst d'. by eapply (Unwired _ _ _ _ (favourite_suppliers d)).
Qed.

Lemma insert_warning_effect w d d' n : insert_warning w d = Ok (d', n) → effect false d d'.
Proof.
  intros Hr. unfold insert_warning in Hr. destruct (_ ≫= _); inv_ok Hr; simplify_eq; [by apply Nothing|].
  by eapply put_warning_effect.
Qed.

Lemma create_warning_effect w env d v d' : Admin_CreateWarning w env d = Ok (v, d') → effect false d d'.
Proof.
  intros Hr. unfold Admin_CreateWarning in Hr. split_run Hr; by eapply insert_warning_effect.
Qed.

Lemma remove_warning_effect id now reason appeal actor env d v d' :
  Admin_RemoveWarning id now reason appeal actor env d = Ok (v, d') → effect false d d'.
Proof. intros Hr. unfold Admin_RemoveWarning in Hr. split_run Hr. by eapply put_warning_effect. Qed.

(** ** Steps

    The writes of the calls, each with the reads before it in its own transaction. A
    role change reads at [d0] and writes at [d]: in between only the row of the
    actor, which is locked, is the same. A submission checks its participants at
    [d0] and writes at [d]. That others wrote in between is why [d0] and [d] differ;
    a failed commit leaves what a call without faults leaves, or nothing. *)
Inductive service_step (d d' : UDB) : Prop :=
| SLink env raw email u v :
    NormalizeEmail raw = Ok email → AuthTokens_Create (challenge env email u) env d = Ok (v, d') → service_step d d'
| SLogin env digest now v : login_body cfg digest now env d = Ok (v, d') → service_step d d'
| SRegister env digest name phone now v :
    sound_env env → register_body cfg digest name phone now env d = Ok (v, d') → service_step d d'
| SRefresh env u session token now v :
    refresh_body cfg u session token now env d = Ok (v, d') → service_step d d'
| SLogout env session hash now v : Sessions_Revoke session hash now env d = Ok (v, d') → service_step d d'
| SLogoutAll env user session token now v :
    logout_all_body user session token now env d = Ok (v, d') → service_step d d'
| SProfile env u v : Users_UpdateActiveProfile u env d = Ok (v, d') → service_step d d'
| SRole env fl d0 actor target to reason v :
    users d0 !! actor = users d !! actor →
    ChangeUserRole env fl no_faults (λ _, d) actor target to reason d0 = (Ok v, d') → service_step d d'
| SBootstrap env email name v :
    sound_env env → Admin_Bootstrap (bootstrap_user email name) env d = Ok (v, d') → service_step d d'
| SAllowDomain env domain actor v : Domains_AllowDomain domain actor env d = Ok (v, d') → service_step d d'
| SRemoveDomain env id v : Domains_RemoveAllowedDomain id env d = Ok (v, d') → service_step d d'
| SSubmit env fl d0 reviewer reviewee order s v :
    SubmitReview env fl no_faults (λ _, d) reviewer reviewee order s d0 = (Ok v, d') → service_step d d'
| SRemove env id reason actor removal v :
    remove_body id reason actor removal env d = Ok (v, d') → service_step d d'
| SStoreUpdate env id i v : Users_Update id i env d = Ok (v, d') → service_step d d'
| SStoreDelete env id v : Users_Delete id env d = Ok (v, d') → service_step d d'
| SStoreAddFavourite env user supplier now v : Users_AddFavourite user supplier now env d = Ok (v, d') → service_step d d'
| SStoreRemoveFavourite env user supplier v : Users_RemoveFavourite user supplier env d = Ok (v, d') → service_step d d'
| SStoreCreateWarning env w v : Admin_CreateWarning w env d = Ok (v, d') → service_step d d'
| SStoreRemoveWarning env id now reason appeal actor v :
    Admin_RemoveWarning id now reason appeal actor env d = Ok (v, d') → service_step d d'.

Lemma service_effect d d' : service_step d d' → effect false d d'.
Proof.
  intros []; eauto using link_effect, NormalizeEmail_nonempty, login_effect, register_effect, refresh_effect, logout_effect,
    logout_all_effect, profile_effect, change_effect, bootstrap_effect, domain_added_effect,
    domain_removed_effect, submission_effect, remove_effect,
    store_update_effect, delete_effect, add_favourite_effect, remove_favourite_effect,
    create_warning_effect, remove_warning_effect.
Qed.

(** The calls and the statements of the relays. *)
Inductive user_step (d d' : UDB) : Prop :=
| SService : service_step d d' → user_step d d'
| SClaim token eligible until f : Outbox_Claim token eligible until d = (d', f) → user_step d d'
| SPublished f now b : Outbox_Published f now d = (d', b) → user_step d d'
| SRetry f available b : Outbox_Retry f available d = (d', b) → user_step d d'.

Lemma effect_relayed r d d' : effect r d d' → effect true d d'.
Proof. intros []; eauto using effect. Qed.

Lemma step_effect d d' : outbox_keyed d → user_step d d' → effect true d d'.
Proof.
  intros Hk []; eauto using effect_relayed, service_effect, claim_effect, published_effect, retry_effect.
Qed.

End steps.
