(* ===== verification/UserInvariant.v ===== *)
(** * User: history and invariant

    [history]: what later states keep of earlier ones. [Inv]: what every
    reachable state satisfies, one clause per table, each a fact of maps. At the
    end every effect extends the state. *)
From stdpp Require Import prelude gmap strings list sorting.
From Stdlib Require Import ZArith Lia SpecFloat.
From S2P Require Import Prelude.
From S2P Require Import GoLib.
From S2P Require Import GoText.
From S2P Require Import GoFloat.
From S2P Require Import UserTypes.
From S2P Require Import UserDB.
From S2P Require Import UserStore.
From S2P Require Import UserReviews.
From S2P Require Import UserRuns.

Local Open Scope Z_scope.
Local Open Scope foc_scope.

(** ** History *)

(** A column that is set once. *)
Definition set_once {A} (o o' : option A) : Prop := o = None ∨ o' = o.

Record user_later (u u' : User) : Prop := {
  ul_id : u_ID u' = u_ID u;
  ul_email : u_Email u' = u_Email u;
  ul_created : u_CreatedAt u' = u_CreatedAt u;
  ul_deleted : set_once (u_DeletedAt u) (u_DeletedAt u');
  ul_super : u_Role u = RoleSuperAdmin → u_Role u' = RoleSuperAdmin;
}.

Record token_later (t t' : AuthToken) : Prop := {
  tl_id : t_ID t' = t_ID t;
  tl_hash : t_TokenHash t' = t_TokenHash t;
  tl_purpose : t_Purpose t' = t_Purpose t;
  tl_email : t_Email t' = t_Email t;
  tl_user : t_UserID t' = t_UserID t;
  tl_expires : t_ExpiresAt t' = t_ExpiresAt t;
  tl_used : set_once (t_UsedAt t) (t_UsedAt t');
  tl_deleted : set_once (t_DeletedAt t) (t_DeletedAt t');
}.

Record session_later (s s' : Session) : Prop := {
  sl_id : s_ID s' = s_ID s;
  sl_hash : s_TokenHash s' = s_TokenHash s;
  sl_user : s_UserID s' = s_UserID s;
  sl_expires : s_ExpiresAt s' = s_ExpiresAt s;
  sl_revoked : set_once (s_RevokedAt s) (s_RevokedAt s');
  sl_deleted : set_once (s_DeletedAt s) (s_DeletedAt s');
}.

Record fact_later (o o' : UserCreatedOutbox) : Prop := {
  fl_content : fact_content o' = fact_content o;
  fl_published : set_once (ob_PublishedAt o) (ob_PublishedAt o');
}.

Record review_later (v v' : Review) : Prop := {
  vl_content : v' <| v_DeletedAt := None |> = v <| v_DeletedAt := None |>;
  vl_deleted : set_once (v_DeletedAt v) (v_DeletedAt v');
}.

Record history (d d' : UDB) : Prop := {
  hi_users : map_extends user_later (users d) (users d');
  hi_tokens : map_extends token_later (auth_tokens d) (auth_tokens d');
  hi_sessions : map_extends session_later (sessions d) (sessions d');
  hi_bootstrap : set_once (admin_bootstrap d) (admin_bootstrap d');
  hi_changes : role_changes d `prefix_of` role_changes d';
  hi_facts : map_extends fact_later (user_created_outbox d) (user_created_outbox d');
  hi_reviews : map_extends review_later (reviews d) (reviews d');
  hi_removals : review_removals d ⊆ review_removals d';
}.

#[export] Instance set_once_refl {A} : Reflexive (@set_once A).
Proof. by right. Qed.
#[export] Instance set_once_trans {A} : Transitive (@set_once A).
Proof. intros x y z [-> | ->]; [by left|done]. Qed.

Ltac later_refl := intros ?; split; first [reflexivity | done].
Ltac later_trans := intros a b c [] []; split; first [congruence | by etrans | auto].

#[export] Instance user_later_refl : Reflexive user_later.
Proof. later_refl. Qed.
#[export] Instance user_later_trans : Transitive user_later.
Proof. later_trans. Qed.
#[export] Instance token_later_refl : Reflexive token_later.
Proof. later_refl. Qed.
#[export] Instance token_later_trans : Transitive token_later.
Proof. later_trans. Qed.
#[export] Instance session_later_refl : Reflexive session_later.
Proof. later_refl. Qed.
#[export] Instance session_later_trans : Transitive session_later.
Proof. later_trans. Qed.
#[export] Instance fact_later_refl : Reflexive fact_later.
Proof. later_refl. Qed.
#[export] Instance fact_later_trans : Transitive fact_later.
Proof. later_trans. Qed.
#[export] Instance review_later_refl : Reflexive review_later.
Proof. later_refl. Qed.
#[export] Instance review_later_trans : Transitive review_later.
Proof. later_trans. Qed.

#[export] Instance history_refl : Reflexive history.
Proof. intros d. split; try apply map_extends_refl; try apply _; reflexivity. Qed.
#[export] Instance history_trans : Transitive history.
Proof.
  intros a b c [] []; split;
    first [eapply map_extends_trans; [apply _|eassumption|eassumption] | by etrans].
Qed.

(** A row kept its set columns. *)
Lemma extends_lookup {V} (R : V → V → Prop) (m m' : gmap string V) k v :
  map_extends R m m' → m !! k = Some v → ∃ v', m' !! k = Some v' ∧ R v v'.
Proof. auto. Qed.
Lemma extends_is_Some {V} (R : V → V → Prop) (m m' : gmap string V) k :
  map_extends R m m' → is_Some (m !! k) → is_Some (m' !! k).
Proof. intros Hm [v Hv]. destruct (Hm k v Hv) as (w & Hw & _). by exists w. Qed.

Section invariant.
  Context `{UUID, CIText}.

(** ** Users, tokens, sessions *)

Definition live_email (u : User) : option string :=
  match u_DeletedAt u with None => Some (citext_lower (u_Email u)) | Some _ => None end.

Definition users_ok (us : gmap string User) : Prop :=
  map_Forall (λ i u, u_ID u = i ∧ Valid (u_Role u) = true ∧ canonical i
                     ∧ users_check u = true ∧ users_text u = true) us ∧ unique_by live_email us.

Definition tokens_ok (ts : gmap string AuthToken) : Prop :=
  map_Forall (λ i t, t_ID t = i ∧ auth_tokens_check t = true ∧ nonempty (t_Email t) = true
                     ∧ ∀ at_, t_UsedAt t = Some at_ → at_ < t_ExpiresAt t) ts
  ∧ unique_by (λ t, Some (t_TokenHash t)) ts.

Definition sessions_ok (us : gmap string User) (ss : gmap string Session) : Prop :=
  map_Forall (λ i s, s_ID s = i ∧ sessions_check s = true ∧ is_Some (us !! s_UserID s)) ss
  ∧ unique_by (λ s, Some (s_TokenHash s)) ss.
(** ** Registrations

    A fact announces a user as it was registered; each user but the one that
    bootstrap created has one. *)
Definition announces (us : gmap string User) (o : UserCreatedOutbox) : Prop :=
  ∃ u, us !! ob_UserID o = Some u ∧ ob_Email o = u_Email u ∧ ob_UserCreatedAt o = u_CreatedAt u.

Definition facts_ok (us : gmap string User) (os : gmap string UserCreatedOutbox) : Prop :=
  map_Forall (λ i o, ob_EventID o = i ∧ announces us o ∧ publishable o) os ∧ unique_by (λ o, Some (ob_UserID o)) os.

Definition first_admin (b : option (string * Time)) : option string := fst <$> b.

Definition announced (us : gmap string User) (b : option (string * Time))
    (os : gmap string UserCreatedOutbox) : Prop :=
  ∀ i, is_Some (us !! i) → first_admin b = Some i ∨ ∃ e o, os !! e = Some o ∧ ob_UserID o = i.

(** ** Roles

    The trail of role_changes leads from the role at the start to the role that a
    user has, and shows that whoever made a change was entitled to. *)
Fixpoint role_after (r : RoleName) (cs : list RoleChange) : option RoleName :=
  match cs with
  | [] => Some r
  | c :: rest => if same (rc_FromRole c) r then role_after (rc_ToRole c) rest else None
  end.

Definition changes_of (user : string) (cs : list RoleChange) : list RoleChange :=
  filter (λ c, rc_UserID c = user) cs.

Definition starts (b : option (string * Time)) (user : string) (r : RoleName) : Prop :=
  r = RoleUser ∨ r = RoleSuperAdmin ∧ first_admin b = Some user.

(** The role that the trail says the user has. *)
Definition traced (b : option (string * Time)) (cs : list RoleChange) (user : string) (r : RoleName) : Prop :=
  ∃ r0, starts b user r0 ∧ role_after r0 (changes_of user cs) = Some r.

Definition authorised (b : option (string * Time)) (earlier : list RoleChange) (c : RoleChange) : Prop :=
  match rc_CreatedBy c with
  | Some actor => actor ≠ rc_UserID c ∧ ∃ r, traced b earlier actor r
                  ∧ permitted r (rc_FromRole c) (rc_ToRole c) (rc_Reason c)
  | None => first_admin b = Some (rc_UserID c) ∧ rc_ToRole c = RoleSuperAdmin
  end.

Record roles_ok (us : gmap string User) (b : option (string * Time)) (cs : list RoleChange) : Prop := {
  ro_traced : ∀ i u, us !! i = Some u → traced b cs i (u_Role u);
  ro_super : ∀ i u, us !! i = Some u → u_Role u = RoleSuperAdmin → first_admin b = Some i;
  ro_first : ∀ i, first_admin b = Some i →
    ∃ u, us !! i = Some u ∧ u_Role u = RoleSuperAdmin ∧ u_DeletedAt u = None;
  ro_users : ∀ c, c ∈ cs → is_Some (us !! rc_UserID c);
  ro_authorised : ∀ l1 c l2, cs = l1 ++ c :: l2 → authorised b l1 c;
}.

(** ** Reviews *)

Definition review_ok (us : gmap string User) (i : string) (v : Review) : Prop :=
  v_ID v = i ∧ reviews_check v = true ∧ v_ReviewerID v ≠ v_RevieweeID v
  ∧ is_Some (us !! v_ReviewerID v) ∧ is_Some (us !! v_RevieweeID v).

Record reviews_ok (us : gmap string User) (vs : gmap string Review) : Prop := {
  re_rows : map_Forall (review_ok us) vs;
  re_reviewer : unique_by (λ v, Some (v_OrderID v, v_ReviewerID v)) vs;
  re_reviewee : unique_by (λ v, Some (v_OrderID v, v_RevieweeID v)) vs;
}.

(** The statistics of a user are the exact ones. *)
Definition rated_exactly (vs : gmap string Review) (i : string) (u : User) : Prop :=
  let s := review_stats vs i in u_ReviewCount u = s.1 ∧ u_AvgRating u = stats_average s.1 s.2.
Definition ratings_ok (us : gmap string User) (vs : gmap string Review) : Prop :=
  map_Forall (rated_exactly vs) us.

(** A review is removed exactly when there is a removal of it. *)
Record removals_ok (vs : gmap string Review) (rs : gmap string ReviewRemoval) : Prop := {
  rm_rows : ∀ i r, rs !! i = Some r → vr_ID r = i ∧ ∃ v, vs !! vr_ReviewID r = Some v ∧ is_Some (v_DeletedAt v);
  rm_removed : ∀ i v, vs !! i = Some v → is_Some (v_DeletedAt v) → ∃ j r, rs !! j = Some r ∧ vr_ReviewID r = i;
  rm_unique : unique_by (λ r, Some (vr_ReviewID r)) rs;
}.

Record Inv (d : UDB) : Prop := {
  iv_users : users_ok (users d);
  iv_tokens : tokens_ok (auth_tokens d);
  iv_sessions : sessions_ok (users d) (sessions d);
  iv_facts : facts_ok (users d) (user_created_outbox d);
  iv_announced : announced (users d) (admin_bootstrap d) (user_created_outbox d);
  iv_roles : roles_ok (users d) (admin_bootstrap d) (role_changes d);
  iv_reviews : reviews_ok (users d) (reviews d);
  iv_ratings : ratings_ok (users d) (reviews d);
  iv_removals : removals_ok (reviews d) (review_removals d);
}.

Lemma user_Inv_empty : Inv empty_db.
Proof.
  split; simpl.
  - split; [apply map_Forall_empty|apply unique_by_empty].
  - split; [apply map_Forall_empty|apply unique_by_empty].
  - split; [apply map_Forall_empty|apply unique_by_empty].
  - split; [apply map_Forall_empty|apply unique_by_empty].
  - intros i [? Hi]. by rewrite lookup_empty in Hi.
  - split; [intros *; by rewrite lookup_empty..|done|by intros c ?%elem_of_nil|].
    intros l1 c l2 Hl. by destruct l1.
  - split; [apply map_Forall_empty|apply unique_by_empty..].
  - apply map_Forall_empty.
  - split; [intros *; by rewrite lookup_empty..|apply unique_by_empty].
Qed.

Lemma Inv_keyed d : Inv d → ∀ i o, user_created_outbox d !! i = Some o → ob_EventID o = i.
Proof. intros Hd i o Ho. by destruct (proj1 (iv_facts _ Hd) i o Ho). Qed.
End invariant.

(** * What effects keep

    Every effect extends the state it starts from. *)

(** The tables that a write leaves alone. *)
Ltac frame := split; simpl; try (apply map_extends_refl; apply _); try reflexivity.
Ltac frame_insert := frame; apply map_extends_insert; [apply _|intros ? ?; simplify_eq].

Section history.
  Context `{UUID, CIText}.

Lemma token_inserted_history t d d' : token_inserted t d d' → history d d'.
Proof. intros [Hn _ _ _ ->]. frame_insert. Qed.

Lemma token_consumed_history hash purpose now d d' t :
  tokens_ok (auth_tokens d) → token_consumed hash purpose now d d' t → history d d'.
Proof.
  intros [Hk _] [[i Hi] Hc ->]. destruct (Hk i t Hi) as [-> _]. frame_insert.
  apply consumable_true in Hc as (_ & _ & Hu & _). split; try done. by left.
Qed.

Lemma session_inserted_history s d d' : session_inserted s d d' → history d d'.
Proof. intros [Hn _ _ _ _ ->]. frame_insert. Qed.

Lemma session_revoked_history id hash now at_ d d' s : session_revoked id hash now at_ d d' s → history d d'.
Proof. intros [Hb [Hr _] _ _ ->]. frame_insert. split; try done. by left. Qed.

Lemma revoke_sessions_history user now d : history d (revoke_sessions user now d).1.
Proof.
  frame. apply map_extends_fmap. intros s. destruct (unrevoked user s) eqn:Hu; [|done].
  unfold unrevoked in Hu. apply andb_prop in Hu as [[_ ?%negb_is_some]%andb_prop _].
  split; try done. by left.
Qed.

Lemma user_inserted_history u d d' : user_inserted u d d' → history d d'.
Proof. intros [Hn _ _ _ _ ->]. frame_insert. Qed.

Lemma put_user_history id u w d : users d !! id = Some u → user_later u w → history d (put_user id w d).
Proof. intros Hu Hl. by frame_insert. Qed.

Lemma fact_inserted_history o d d' : fact_inserted o d d' → history d d'.
Proof. intros [Hn _ ->]. frame_insert. Qed.

Lemma fact_turned_history o o' d d' :
  facts_ok (users d) (user_created_outbox d) → fact_turned o o' d d' → history d d'.
Proof.
  intros [Hk _] [[i Hi] Hp Hc ->]. destruct (Hk i o Hi) as [Hid _].
  assert (ob_EventID o' = i) as Hid'. { rewrite <- Hid. exact (f_equal ob_EventID Hc). }
  frame. rewrite Hid'. apply map_extends_insert; [apply _|]. intros v Hv.
  rewrite Hi in Hv. injection Hv as <-. split; [done|by left].
Qed.

Lemma bootstrap_history v d : admin_bootstrap d = None → history d (d <| admin_bootstrap := Some v |>).
Proof. intros Hn. frame. by left. Qed.

Lemma role_changed_history c at_ u d d' :
  (u_Role u = RoleSuperAdmin → rc_ToRole c = RoleSuperAdmin) → role_changed c at_ u d d' → history d d'.
Proof.
  intros Hs [Hb Hl Hf _ _ _ _ ->]. frame.
  - apply map_extends_insert; [apply _|]. intros v Hv. simplify_eq. by split.
  - by apply prefix_app_r.
Qed.

Lemma rated_later u c s now : user_later u (rated u c s now).
Proof. by split. Qed.

Lemma recalculated_history user now d d' : recalculated user now d d' → history d d'.
Proof.
  unfold recalculated. destruct (users d !! user) as [u|] eqn:Hu; [|by intros ->].
  intros [_ ->]. by eapply put_user_history, rated_later.
Qed.

Lemma review_inserted_history v d d' : review_inserted v d d' → history d d'.
Proof. intros [_ Hn _ _ _ ->]. frame_insert. Qed.

Lemma review_removed_history id now v r d d' : review_removed id now v r d d' → history d d'.
Proof.
  intros [Hb Hl _ Hn _ _ ->]. frame.
  - apply map_extends_insert; [apply _|]. intros w Hw. simplify_eq. split; [done|by left].
  - by apply insert_subseteq.
Qed.

Lemma delete_of_user_history id t d : history d (delete_of_user id t d).
Proof.
  frame; apply map_extends_fmap; intros x; destruct (_ && _) eqn:Hc; try done;
    apply andb_prop in Hc as [_ ?%negb_is_some]; split; try done; by left.
Qed.

Create HintDb history discriminated.
#[local] Hint Resolve token_inserted_history session_inserted_history session_revoked_history
  user_inserted_history fact_inserted_history recalculated_history review_inserted_history
  review_removed_history : history.

Lemma same_account_later u w : u_DeletedAt u = None → same_account u w → user_later u w.
Proof. intros Hl []. split; try done. left. done. congruence. Qed.

Lemma permitted_no_super ra from to reason : permitted ra from to reason → from ≠ RoleSuperAdmin.
Proof. by intros (_ & _ & _ & ? & _). Qed.

Lemma effect_history {r} d d' : Inv d → effect r d d' → history d d'.
Proof.
  intros Hd []; subst; eauto with history.
  - etrans; [|by eapply session_inserted_history].
    by eapply token_consumed_history; [apply iv_tokens|].
  - etrans; [by eapply token_consumed_history; [by apply iv_tokens|]|].
    do 2 (etrans; [eauto with history|]). eauto with history.
  - etrans; eauto with history.
  - etrans; [eauto with history|apply revoke_sessions_history].
  - by eapply put_user_history, same_account_later.
  - eapply role_changed_history; [|done]. intros Hs.
    select (permitted _ _ _ _) (fun H => apply permitted_no_super in H).
    select (role_changed _ _ _ _ _) (fun H => pose proof (rg_from _ _ _ _ _ H)). congruence.
  - etrans; [by eapply user_inserted_history|]. apply bootstrap_history.
    by select (user_inserted _ _ _) (fun H => rewrite (ui_after _ _ _ H)).
  - etrans; [by eapply role_changed_history|]. apply bootstrap_history.
    by select (role_changed _ _ _ _ _) (fun H => rewrite (rg_after _ _ _ _ _ H)).
  - by apply bootstrap_history.
  - frame.
  - etrans; eauto with history.
  - etrans; eauto with history.
  - by eapply fact_turned_history; [apply iv_facts|].
  - etrans; [|apply delete_of_user_history]. eapply put_user_history; [done|]. split; try done. by left.
  - frame.
  - reflexivity.
Qed.
End history.
