(* ===== verification/UserKeeps.v ===== *)
(** * User: effects keep the invariant, and calls move along steps

    One lemma per clause of [Inv]; then the reachable states. *)
From stdpp Require Import prelude gmap strings list sorting relations.
From Stdlib Require Import ZArith Lia SpecFloat.
From S2P Require Import Prelude.
From S2P Require Import GoLib.
From S2P Require Import GoText.
From S2P Require Import GoFloat.
From S2P Require Import GoMail.
From S2P Require Import UserTypes.
From S2P Require Import UserDB.
From S2P Require Import UserStore.
From S2P Require Import UserAuth.
From S2P Require Import UserAccounts.
From S2P Require Import UserReviews.
From S2P Require Import UserRuns.
From S2P Require Import UserSteps.
From S2P Require Import UserInvariant.

Local Open Scope Z_scope.
Local Open Scope foc_scope.

(** [open_effect H] replaces the state after an effect by its updates and closes
    the cases that leave the tables of the goal alone. *)
Ltac open_writes :=
  repeat match goal with
  | H : token_inserted _ _ _ |- _ => destruct H
  | H : token_consumed _ _ _ _ _ _ |- _ => destruct H
  | H : session_inserted _ _ _ |- _ => destruct H
  | H : session_revoked _ _ _ _ _ _ _ |- _ => destruct H
  | H : user_inserted _ _ _ |- _ => destruct H
  | H : fact_inserted _ _ _ |- _ => destruct H
  | H : fact_turned _ _ _ _ |- _ => destruct H
  | H : role_changed _ _ _ _ _ |- _ => destruct H
  | H : review_inserted _ _ _ |- _ => destruct H
  | H : review_removed _ _ _ _ _ _ |- _ => destruct H
  end; subst.
Ltac open_stats :=
  repeat match goal with
  | H : recalculated _ _ _ _ |- _ =>
      let u := fresh "u" in let Hu := fresh "Hu" in
      unfold recalculated in H; simpl in H;
      match type of H with match ?x with _ => _ end => destruct x as [u|] eqn:Hu end;
      [destruct H as [? ->]|subst]
  end.
Ltac open_effect H := destruct H; open_writes; open_stats; simpl in *; try done.

Section keeps.
  Context `{UUID, CIText}.

(** ** Users *)

Lemma users_ok_put us i u w :
  users_ok us → us !! i = Some u → u_ID w = u_ID u → u_Email w = u_Email u →
  (u_DeletedAt w = None → u_DeletedAt u = None) → Valid (u_Role w) = true →
  users_check w = true → users_text w = true → users_ok (<[i := w]> us).
Proof.
  intros [Hk Hu] Hi Hid He Hd Hv Hc Ht. split.
  - apply map_Forall_insert_2; [|done]. rewrite Hid. destruct (Hk i u Hi) as (? & _ & ? & _). by split_and!.
  - eapply unique_by_put; [done..|]. unfold live_email. intros b. rewrite He.
    destruct (u_DeletedAt w); [done|]. by rewrite Hd.
Qed.

Lemma users_ok_insert u d :
  users_ok (users d) → users d !! u_ID u = None → Valid (u_Role u) = true → email_unique u d = true →
  users_check u = true → users_text u = true → canonical (u_ID u) → users_ok (<[u_ID u := stored_user u]> (users d)).
Proof.
  intros [Hk Hu] Hn Hv He Hch Htx Hc. split; [by apply map_Forall_insert_2|].
  apply unique_by_insert; [done|]. unfold live_email, email_unique in *. simpl.
  intros j w b Hj. destruct (u_DeletedAt u); [done|]. intros [= <-]. simpl in He.
  apply bool_decide_eq_true in He. destruct (He j w Hj) as [->|[[? ->]|Hne]]; [done..|].
  destruct (u_DeletedAt w); [done|]. unfold same_ci in Hne. apply same_false in Hne. congruence.
Qed.

Lemma users_row us i u :
  users_ok us → us !! i = Some u → Valid (u_Role u) = true ∧ users_check u = true ∧ users_text u = true.
Proof. intros [Hk _] Hi. by destruct (Hk i u Hi) as (_ & ? & _ & ? & ?). Qed.

Lemma users_kept {r} d d' : Inv d → effect r d d' → users_ok (users d').
Proof.
  intros Hd He. pose proof (iv_users _ Hd) as Hu. open_effect He.
  all: first [eapply users_ok_insert; [done..|congruence|done|done|done|done] | eapply users_ok_put; [done|eassumption|..]].
  all: try done; try congruence.
  all: try select (same_account _ _) (fun H => destruct H as [? ? Hr ? ? ? ?]); try congruence; try rewrite Hr.
  all: match goal with Hx : users _ !! _ = Some ?u |- _ => destruct (users_row _ _ u Hu Hx) as (? & ? & ?); assumption end.
Qed.

(** ** Tokens *)

Lemma tokens_ok_put ts i t t' :
  tokens_ok ts → ts !! i = Some t → t_ID t' = t_ID t → t_TokenHash t' = t_TokenHash t →
  auth_tokens_check t' = auth_tokens_check t → t_Email t' = t_Email t → (∀ at_, t_UsedAt t' = Some at_ → at_ < t_ExpiresAt t') →
  tokens_ok (<[i := t']> ts).
Proof.
  intros [Hk Hu] Hi Hid Hh Hc Hm He. destruct (Hk i t Hi) as (Hid' & Hc' & Hm' & _). split.
  - apply map_Forall_insert_2; [|done]. split_and!; [congruence..|done].
  - eapply unique_by_put; [done..|]. intros b. by rewrite Hh.
Qed.

Lemma tokens_ok_fmap (f : AuthToken → AuthToken) ts :
  tokens_ok ts → (∀ t, t_ID (f t) = t_ID t ∧ t_TokenHash (f t) = t_TokenHash t
    ∧ auth_tokens_check (f t) = auth_tokens_check t ∧ t_Email (f t) = t_Email t
    ∧ t_UsedAt (f t) = t_UsedAt t ∧ t_ExpiresAt (f t) = t_ExpiresAt t) →
  tokens_ok (f <$> ts).
Proof.
  intros [Hk Hu] Hf. split.
  - intros i t' (t & <- & Ht)%lookup_fmap_Some. destruct (Hf t) as (-> & _ & -> & -> & -> & ->). by apply Hk.
  - apply unique_by_fmap; [done|]. intros t b. by destruct (Hf t) as (_ & -> & _).
Qed.

Lemma tokens_ok_insert ts t :
  tokens_ok ts → auth_tokens_check t = true → nonempty (t_Email t) = true → t_UsedAt t = None →
  (∀ i w, ts !! i = Some w → t_TokenHash w ≠ t_TokenHash t) → tokens_ok (<[t_ID t := t]> ts).
Proof.
  intros [Hk Hu] Hc Hm Hn Hh. split.
  - apply map_Forall_insert_2; [|done]. split_and!; [done..|congruence].
  - apply unique_by_insert; [done|]. intros j w b Hj. specialize (Hh j w Hj). congruence.
Qed.

Lemma tokens_ok_used ts t hash purpose now :
  tokens_ok ts → (∃ i, ts !! i = Some t) → consumable hash purpose now t = true →
  tokens_ok (<[t_ID t := used_token now t]> ts).
Proof.
  intros Ht [i Hi] (_ & _ & _ & He & _)%consumable_true. destruct (proj1 Ht i t Hi) as [<- _].
  eapply tokens_ok_put; [done..|]. cbn -[stored_time]. by intros at_ [= <-].
Qed.

Lemma tokens_kept {r} d d' : Inv d → effect r d d' → tokens_ok (auth_tokens d').
Proof.
  intros Hd He. pose proof (iv_tokens _ Hd) as Ht. open_effect He.
  - by apply tokens_ok_insert.
  - by eapply tokens_ok_used.
  - by eapply tokens_ok_used.
  - apply tokens_ok_fmap; [done|]. intros w. by destruct (_ && _).
Qed.

(** ** Sessions *)

Lemma sessions_ok_later us us' ss : map_extends user_later us us' → sessions_ok us ss → sessions_ok us' ss.
Proof.
  intros Hus [Hk Hu]. split; [|done]. intros i s Hs. destruct (Hk i s Hs) as (? & ? & ?).
  split_and!; [done..|by eapply extends_is_Some].
Qed.

Lemma sessions_ok_insert us ss s :
  sessions_ok us ss → sessions_check s = true → is_Some (us !! s_UserID s) →
  (∀ i w, ss !! i = Some w → s_TokenHash w ≠ s_TokenHash s) → sessions_ok us (<[s_ID s := s]> ss).
Proof.
  intros [Hk Hu] Hc Hs Hh. split; [by apply map_Forall_insert_2|].
  apply unique_by_insert; [done|]. intros j w b Hj. specialize (Hh j w Hj). congruence.
Qed.

Definition same_session (s s' : Session) : Prop :=
  s_ID s' = s_ID s ∧ s_TokenHash s' = s_TokenHash s ∧ sessions_check s' = sessions_check s ∧ s_UserID s' = s_UserID s.

Lemma sessions_ok_put us ss i s s' :
  sessions_ok us ss → ss !! i = Some s → same_session s s' → sessions_ok us (<[i := s']> ss).
Proof.
  intros [Hk Hu] Hi (Hid & Hh & Hc & Hus). destruct (Hk i s Hi) as (? & ? & ?). split.
  - apply map_Forall_insert_2; [|done]. rewrite Hid, Hc, Hus. done.
  - eapply unique_by_put; [done..|]. intros b. by rewrite Hh.
Qed.

Lemma sessions_ok_fmap us ss (f : Session → Session) :
  sessions_ok us ss → (∀ s, same_session s (f s)) → sessions_ok us (f <$> ss).
Proof.
  intros [Hk Hu] Hf. split.
  - intros i s' (s & <- & Hs)%lookup_fmap_Some. destruct (Hf s) as (-> & _ & -> & ->). by apply Hk.
  - apply unique_by_fmap; [done|]. intros s b. by destruct (Hf s) as (_ & -> & _).
Qed.

Lemma sessions_kept {r} d d' : Inv d → effect r d d' → sessions_ok (users d') (sessions d').
Proof.
  intros Hd He. pose proof (sessions_ok_later _ _ _ (hi_users _ _ (effect_history _ _ Hd He)) (iv_sessions _ Hd)) as Hs.
  open_effect He.
  - by apply sessions_ok_insert.
  - by apply sessions_ok_insert.
  - apply sessions_ok_insert; [by eapply sessions_ok_put|done..].
  - by eapply sessions_ok_put.
  - apply sessions_ok_fmap; [by eapply sessions_ok_put|]. intros w. by destruct (unrevoked user w).
  - apply sessions_ok_fmap; [done|]. intros w. by destruct (_ && _).
Qed.

(** ** Registrations *)

Lemma facts_ok_later us us' os : map_extends user_later us us' → facts_ok us os → facts_ok us' os.
Proof.
  intros Hus [Hk Hu]. split; [|done]. intros i o Ho. destruct (Hk i o Ho) as (Hid & (u & Hou & He & Hc) & Hp).
  destruct (Hus _ _ Hou) as (w & Hw & []). split_and!; [done| |done]. exists w. split_and!; congruence.
Qed.

Lemma facts_kept {r} d d' : Inv d → effect r d d' → facts_ok (users d') (user_created_outbox d').
Proof.
  intros Hd He. pose proof (facts_ok_later _ _ _ (hi_users _ _ (effect_history _ _ Hd He)) (iv_facts _ Hd)) as Ho.
  open_effect He; destruct Ho as [Hk Hu].
  - split.
    + destruct tk_before as [i Hi]. destruct (proj1 (iv_tokens _ Hd) _ _ Hi) as (_ & _ & Hm & _).
      apply map_Forall_insert_2; [|done]. split_and!; [done| |auto]. exists (stored_user u).
      select (ob_UserID o = _) (fun H => rewrite H). by rewrite lookup_insert_eq.
    + apply unique_by_insert; [done|]. intros j w b Hj. select (∀ i w, _ → ob_UserID w ≠ _) (fun H => specialize (H j w Hj)).
      congruence.
  - destruct ft_before as [i Hi]. destruct (Hk i o Hi) as (Hid & Ha & Hp).
    assert (publishable o') as Hp'.
    { intros token. unfold encode, fact_of in *. specialize (Hp token). injection ft_content as -> -> -> -> -> -> _. done. }
    injection ft_content as ??????. assert (ob_EventID o' = i) as -> by congruence. split.
    + apply map_Forall_insert_2; [|done]. split_and!; [congruence| |done].
      destruct Ha as (u & ? & ? & ?). exists u. split_and!; congruence.
    + eapply unique_by_put; [done..|]. intros b. congruence.
Qed.

Lemma is_Some_put {V} (m : gmap string V) i j u w :
  m !! i = Some u → is_Some (<[i := w]> m !! j) → is_Some (m !! j).
Proof. intros Hi. destruct (decide (i = j)) as [<-|]; [by rewrite Hi|by rewrite lookup_insert_ne]. Qed.

Definition has_fact (j : string) (d : UDB) : Prop :=
  first_admin (admin_bootstrap d) = Some j ∨ ∃ e o, user_created_outbox d !! e = Some o ∧ ob_UserID o = j.

Lemma has_fact_later j d d' : history d d' → has_fact j d → has_fact j d'.
Proof.
  intros Hh [Hb|(e & o & Ho & Hj)].
  - left. destruct (hi_bootstrap _ _ Hh) as [Hn | ->]; [|done]. by rewrite Hn in Hb.
  - right. destruct (hi_facts _ _ Hh e o Ho) as (o' & Ho' & [Hc _]). exists e, o'. split; [done|].
    rewrite <- Hj. exact (f_equal ob_UserID Hc).
Qed.

Lemma new_users_announced {r} d d' j :
  effect r d d' → is_Some (users d' !! j) → is_Some (users d !! j) ∨ has_fact j d'.
Proof.
  intros He. unfold has_fact. open_effect He; auto; intros Hj; try (left; done); try (left; eapply is_Some_put; [|exact Hj]; done).
  - destruct (decide (u_ID u = j)) as [Hu|]; [|by left; rewrite lookup_insert_ne in Hj by done].
    right. right. exists (ob_EventID o), o. rewrite lookup_insert_eq. split; [done|congruence].
  - destruct (decide (u_ID u = j)) as [Hu|]; [|by left; rewrite lookup_insert_ne in Hj by done].
    right. left. unfold first_admin. simpl. congruence.
Qed.

Lemma announced_kept {r} d d' :
  Inv d → effect r d d' → announced (users d') (admin_bootstrap d') (user_created_outbox d').
Proof.
  intros Hd He j Hj. destruct (new_users_announced _ _ _ He Hj) as [Hu|Hf]; [|exact Hf].
  apply (has_fact_later j d d'); [by eapply effect_history|]. by apply (iv_announced _ Hd).
Qed.

(** ** Roles *)

Lemma role_after_snoc r cs c :
  role_after r (cs ++ [c]) = role_after r cs ≫= λ r', if same (rc_FromRole c) r' then Some (rc_ToRole c) else None.
Proof.
  revert r. induction cs as [|x cs IH]; intros r; simpl; [by destruct (same _ _)|].
  destruct (same _ _); [apply IH|done].
Qed.

Lemma changes_of_snoc user cs c :
  changes_of user (cs ++ [c]) = changes_of user cs ++ (if decide (rc_UserID c = user) then [c] else []).
Proof. unfold changes_of. rewrite filter_app. by f_equal. Qed.

Lemma starts_later b b' user r : set_once b b' → starts b user r → starts b' user r.
Proof. intros [-> | ->] [?|[? ?]]; [by left|done|by left|by right]. Qed.

Lemma traced_later b b' cs user r : set_once b b' → traced b cs user r → traced b' cs user r.
Proof. intros Hb (r0 & Hs & Hr). exists r0. split; [by eapply starts_later|done]. Qed.

(** The change of a user's role extends its trail; other trails stay. *)
Lemma traced_snoc b cs c :
  traced b cs (rc_UserID c) (rc_FromRole c) → traced b (cs ++ [c]) (rc_UserID c) (rc_ToRole c).
Proof.
  intros (r0 & Hs & Hr). exists r0. split; [done|].
  rewrite changes_of_snoc, decide_True, role_after_snoc, Hr by done. simpl. by rewrite same_refl.
Qed.
Lemma traced_other b cs c user r : rc_UserID c ≠ user → traced b cs user r → traced b (cs ++ [c]) user r.
Proof. intros Hn (r0 & Hs & Hr). exists r0. by rewrite changes_of_snoc, decide_False, app_nil_r. Qed.

Lemma authorised_later b b' l c : set_once b b' → authorised b l c → authorised b' l c.
Proof.
  intros Hb. unfold authorised. destruct (rc_CreatedBy c).
  - intros (Hn & r & Ht & Hp). split; [done|]. exists r. split; [by eapply traced_later|done].
  - destruct Hb as [-> | ->]; [|done]. by intros [? _].
Qed.

(** Users whose roles and lives do not change. *)
Lemma roles_ok_put us b cs i u w :
  roles_ok us b cs → us !! i = Some u → u_Role w = u_Role u →
  (first_admin b = Some i → u_DeletedAt w = u_DeletedAt u) → roles_ok (<[i := w]> us) b cs.
Proof.
  intros [Ht Hs Hf Hu Ha] Hi Hr Hd. split; [| | | |done].
  - intros j x [[<- <-]|[_ Hj]]%lookup_insert_Some; [rewrite Hr|]; eauto.
  - intros j x [[<- <-]|[_ Hj]]%lookup_insert_Some; [rewrite Hr|]; eauto.
  - intros j Hj. destruct (Hf j Hj) as (x & Hx & Hxr & Hxd). destruct (decide (i = j)) as [<-|].
    + exists w. rewrite lookup_insert_eq. specialize (Hd Hj). split_and!; [done|congruence..].
    + exists x. by rewrite lookup_insert_ne.
  - intros c Hc. destruct (decide (i = rc_UserID c)) as [->|]; [by rewrite lookup_insert_eq|].
    rewrite lookup_insert_ne by done. auto.
Qed.
Lemma changes_of_new us b cs i : roles_ok us b cs → us !! i = None → changes_of i cs = [].
Proof.
  intros Hr Hi. destruct (changes_of i cs) as [|c l] eqn:Hl; [done|].
  assert (c ∈ changes_of i cs) as [Hc Hin]%list_elem_of_filter by (rewrite Hl; by left).
  destruct (ro_users _ _ _ Hr c Hin) as [u Hu]. congruence.
Qed.

(** A new user, that may be the first administrator. *)
Lemma roles_ok_insert us b b' cs i u :
  roles_ok us b cs → us !! i = None → set_once b b' → starts b' i (u_Role u) → u_DeletedAt u = None →
  (∀ j, first_admin b' = Some j → first_admin b = Some j ∨ j = i ∧ u_Role u = RoleSuperAdmin) →
  roles_ok (<[i := u]> us) b' cs.
Proof.
  intros Hro Hi Hb Hst Hd Hf. pose proof (changes_of_new _ _ _ _ Hro Hi) as Hn. destruct Hro as [Ht Hs Hf0 Hu Ha].
  split.
  - intros j x [[<- <-]|[_ Hj]]%lookup_insert_Some.
    + exists (u_Role u). by rewrite Hn.
    + eapply traced_later; eauto.
  - intros j x [[<- <-]|[_ Hj]]%lookup_insert_Some Hx.
    + destruct Hst as [Hst|[_ ?]]; [congruence|done].
    + specialize (Hs j x Hj Hx). destruct Hb as [-> | ->]; [|done]. discriminate Hs.
  - intros j Hj. destruct (Hf j Hj) as [Hj'|[-> Hr]].
    + destruct (Hf0 j Hj') as (x & Hx & ?). exists x. rewrite lookup_insert_ne; [done|congruence].
    + exists u. by rewrite lookup_insert_eq.
  - intros c Hc. destruct (Hu c Hc) as [x Hx]. exists x. rewrite lookup_insert_ne; [done|congruence].
  - intros l1 c l2 Hl. eapply authorised_later; eauto.
Qed.

(** A change of a role, that may make the first administrator. *)
Lemma roles_ok_change us b b' cs c u w :
  roles_ok us b cs → us !! rc_UserID c = Some u → u_Role u = rc_FromRole c → rc_FromRole c ≠ RoleSuperAdmin →
  u_Role w = rc_ToRole c → u_DeletedAt w = None → set_once b b' → authorised b' cs c →
  (rc_ToRole c = RoleSuperAdmin → first_admin b' = Some (rc_UserID c)) →
  (∀ j, first_admin b' = Some j → first_admin b = Some j ∨ j = rc_UserID c ∧ rc_ToRole c = RoleSuperAdmin) →
  roles_ok (<[rc_UserID c := w]> us) b' (cs ++ [c]).
Proof.
  intros [Ht Hs Hf0 Hu Ha] Hi Hr Hns Hw Hd Hb Hauth Hto Hf. split.
  - intros j x [[<- <-]|[Hne Hj]]%lookup_insert_Some.
    + rewrite Hw. apply traced_snoc. rewrite <- Hr. eapply traced_later; eauto.
    + apply traced_other; [done|]. eapply traced_later; eauto.
  - intros j x [[<- <-]|[_ Hj]]%lookup_insert_Some Hx; [apply Hto; congruence|].
    specialize (Hs j x Hj Hx). destruct Hb as [-> | ->]; [|done]. discriminate Hs.
  - intros j Hj. destruct (Hf j Hj) as [Hj'|[-> Hsup]].
    + destruct (Hf0 j Hj') as (x & Hx & Hxr & ?). exists x. rewrite lookup_insert_ne; [done|]. intros <-. congruence.
    + exists w. rewrite lookup_insert_eq. split_and!; [done|congruence|done].
  - intros x [Hx| ->%list_elem_of_singleton]%elem_of_app; [|by rewrite lookup_insert_eq].
    destruct (decide (rc_UserID c = rc_UserID x)) as [->|]; [by rewrite lookup_insert_eq|].
    rewrite lookup_insert_ne by done. auto.
  - intros l1 x l2 Hl. destruct l2 as [|y l2 _] using rev_ind.
    + by apply app_inj_tail in Hl as [<- <-].
    + rewrite app_comm_cons, app_assoc in Hl. apply app_inj_tail in Hl as [Hl _].
      eapply authorised_later; eauto.
Qed.

Lemma roles_kept {r} d d' : Inv d → effect r d d' → roles_ok (users d') (admin_bootstrap d') (role_changes d').
Proof.
  intros Hd He. pose proof (iv_roles _ Hd) as Hr. open_effect He.
  - eapply roles_ok_insert; [done..|by left|done|by left].
  - select (same_account _ _) (fun H => destruct H). by eapply roles_ok_put.
  - assert (rc_FromRole c ≠ RoleSuperAdmin) by by eapply permitted_no_super.
    assert (rc_ToRole c ≠ RoleSuperAdmin).
    { intros Hto. select (permitted _ _ _ _) (fun H => destruct H as (_ & Has & _)). by rewrite Hto in Has. }
    eapply (roles_ok_change _ _ _ _ (stored_role_change c)); [done..| |done|by left].
    unfold authorised. simpl. select (rc_CreatedBy c = _) (fun H => rewrite H). split; [done|].
    exists (u_Role a). split; [|done]. by apply (ro_traced _ _ _ Hr).
  - eapply (roles_ok_insert _ (admin_bootstrap d)); [done|done|by left|right; split; done|done|].
    intros j [= <-]. by right.
  - eapply (roles_ok_change _ (admin_bootstrap d) _ _ (stored_role_change c)); [done..|simpl; congruence|done|done|by left| | |].
    + unfold authorised. simpl. by select (rc_CreatedBy c = _) (fun H => rewrite H).
    + done.
    + intros j [= <-]. by right.
  - select (users _ !! _ = Some _) (fun Hu => pose proof (ro_super _ _ _ Hr _ _ Hu ltac:(done)) as Hs).
    select (admin_bootstrap _ = None) (fun Hn => by rewrite Hn in Hs).
  - by eapply roles_ok_put.
  - by eapply roles_ok_put.
  - by eapply roles_ok_put.
Qed.

(** ** Reviews *)

Lemma reviews_ok_later us us' vs : map_extends user_later us us' → reviews_ok us vs → reviews_ok us' vs.
Proof.
  intros Hus [Hr ??]. split; [|done..]. intros i v Hv. destruct (Hr i v Hv) as (? & ? & ? & ? & ?).
  split_and!; [done..|by eapply extends_is_Some|by eapply extends_is_Some].
Qed.

Lemma reviews_ok_insert us vs v :
  reviews_ok us vs → vs !! v_ID v = None → review_ok us (v_ID v) v →
  (∀ i w, vs !! i = Some w → v_OrderID w = v_OrderID v →
     v_ReviewerID w ≠ v_ReviewerID v ∧ v_RevieweeID w ≠ v_RevieweeID v) →
  reviews_ok us (<[v_ID v := v]> vs).
Proof.
  intros [Hr Hu1 Hu2] Hn Hv Hu. split; [by apply map_Forall_insert_2|..];
    (apply unique_by_insert; [done|]); intros j w b Hj [= <-] [= Ho Hw]; by destruct (Hu j w Hj Ho).
Qed.

Lemma reviews_ok_put us vs i v v' :
  reviews_ok us vs → vs !! i = Some v → v' <| v_DeletedAt := None |> = v <| v_DeletedAt := None |> →
  reviews_ok us (<[i := v']> vs).
Proof.
  intros [Hr Hu1 Hu2] Hi Heq. injection Heq as Hid H1 H2 H3 H4 H5 H6. split.
  - apply map_Forall_insert_2; [|done]. destruct (Hr i v Hi) as (? & Hc & ?). unfold review_ok, reviews_check in *.
    rewrite Hid, H1, H2, H4, H5. done.
  - eapply unique_by_put; [done..|]. intros b. by rewrite H1, H3.
  - eapply unique_by_put; [done..|]. intros b. by rewrite H2, H3.
Qed.

Lemma reviews_kept {r} d d' : Inv d → effect r d d' → reviews_ok (users d') (reviews d').
Proof.
  intros Hd He. pose proof (reviews_ok_later _ _ _ (hi_users _ _ (effect_history _ _ Hd He)) (iv_reviews _ Hd)) as Hv.
  pose proof (hi_users _ _ (effect_history _ _ Hd He)) as Hus.
  open_effect He.
  - destruct ri_users. apply reviews_ok_insert; [done..| |done]. split_and!; try done;
      apply (extends_is_Some _ _ _ _ Hus); first [done | by rewrite Hu].
  - by destruct ri_users as [_ []].
  - by eapply reviews_ok_put.
  - by eapply reviews_ok_put.
Qed.

(** ** Statistics *)

Lemma ratings_ok_put us vs i u w :
  ratings_ok us vs → us !! i = Some u → u_ReviewCount w = u_ReviewCount u → u_AvgRating w = u_AvgRating u →
  ratings_ok (<[i := w]> us) vs.
Proof.
  intros Hr Hi Hc Ha. apply map_Forall_insert_2; [|done]. unfold rated_exactly. rewrite Hc, Ha. by apply Hr.
Qed.

Lemma review_stats_none us vs i : reviews_ok us vs → us !! i = None → review_stats vs i = (0, 0).
Proof.
  intros Hr Hi. assert (∀ k v, vs !! k = Some v → received i v = false) as Hn.
  { intros k v Hv. destruct (re_rows _ _ Hr k v Hv) as (_ & _ & _ & _ & [u Hu]). unfold received.
    rewrite (proj2 (same_false _ _)); [done|]. intros <-. congruence. }
  assert (∀ f, msum (λ _ v, if received i v then f v else 0) vs = 0) as Hz.
  { intros f. apply Z.le_antisymm; [|apply msum_nonneg; intros k v Hv; by rewrite (Hn k v Hv)].
    rewrite (msum_ext _ (λ _ _, 0)); [|intros k v Hv; by rewrite (Hn k v Hv)].
    clear. induction vs as [|k v m Hk IH] using map_ind; [by rewrite msum_empty|by rewrite msum_insert]. }
  unfold review_stats. by rewrite (Hz (λ _, 1)), (Hz v_Rating).
Qed.

Lemma ratings_ok_insert us vs i u :
  ratings_ok us vs → reviews_ok us vs → us !! i = None →
  u_ReviewCount u = 0 → u_AvgRating u = S754_zero false → ratings_ok (<[i := u]> us) vs.
Proof.
  intros Hr Hv Hi Hc Ha. apply map_Forall_insert_2; [|done]. unfold rated_exactly.
  rewrite (review_stats_none us); [|done..]. done.
Qed.

Lemma ratings_ok_rated us vs vs' i u now :
  ratings_ok us vs → us !! i = Some u → (∀ j, j ≠ i → review_stats vs' j = review_stats vs j) →
  ratings_ok (<[i := rated u (review_stats vs' i).1 (review_stats vs' i).2 now]> us) vs'.
Proof.
  intros Hr Hi Hs j w [[<- <-]|[Hne Hj]]%lookup_insert_Some; [done|].
  unfold rated_exactly. rewrite Hs by done. by apply Hr.
Qed.

Lemma received_other j v : j ≠ v_RevieweeID v → received j v = false.
Proof. intros Hne. unfold received. by rewrite (proj2 (same_false _ _)). Qed.

Lemma review_stats_insert vs v j :
  vs !! v_ID v = None → j ≠ v_RevieweeID v → review_stats (<[v_ID v := v]> vs) j = review_stats vs j.
Proof. intros Hn Hj. unfold review_stats. by rewrite !msum_insert, received_other. Qed.

Lemma review_stats_removed vs i v t j :
  vs !! i = Some v → j ≠ v_RevieweeID v → review_stats (<[i := removed_review t v]> vs) j = review_stats vs j.
Proof.
  intros Hi Hj. unfold review_stats. rewrite !(msum_update _ _ _ v), !received_other by done. f_equal; lia.
Qed.

Lemma ratings_kept {r} d d' : Inv d → effect r d d' → ratings_ok (users d') (reviews d').
Proof.
  intros Hd He. pose proof (iv_ratings _ Hd) as Hr. pose proof (iv_reviews _ Hd) as Hv. open_effect He.
  - by apply ratings_ok_insert.
  - select (same_account _ _) (fun H => destruct H). by eapply ratings_ok_put.
  - by eapply ratings_ok_put.
  - by apply ratings_ok_insert.
  - by eapply ratings_ok_put.
  - apply (ratings_ok_rated _ (reviews d)); [done..|]. intros j Hj. by apply review_stats_insert.
  - by destruct ri_users as [_ []].
  - apply (ratings_ok_rated _ (reviews d)); [done..|]. intros j Hj. by apply review_stats_removed.
  - destruct (re_rows _ _ Hv _ _ rr_before) as (_ & _ & _ & _ & [u Hu']). congruence.
  - by eapply ratings_ok_put.
Qed.

(** ** Removals *)

Lemma removals_ok_reviewed vs rs v :
  removals_ok vs rs → vs !! v_ID v = None → v_DeletedAt v = None → removals_ok (<[v_ID v := v]> vs) rs.
Proof.
  intros [Hr Hd Hu] Hn Hl. split; [| |done].
  - intros i r Hi. destruct (Hr i r Hi) as (Hid & w & Hw & Hwd). split; [done|]. exists w.
    by rewrite lookup_insert_ne by congruence.
  - intros i w [[<- <-]|[_ Hw]]%lookup_insert_Some; [|by apply Hd]. rewrite Hl. by intros [].
Qed.

Lemma removals_ok_removed vs rs i v r t :
  removals_ok vs rs → vs !! i = Some v → vr_ReviewID r = i → rs !! vr_ID r = None →
  (∀ j w, rs !! j = Some w → vr_ReviewID w ≠ vr_ReviewID r) →
  removals_ok (<[i := removed_review t v]> vs) (<[vr_ID r := r]> rs).
Proof.
  intros [Hr Hd Hu] Hi Ho Hn Hne. split.
  - intros j w [[<- <-]|[_ Hw]]%lookup_insert_Some.
    + split; [done|]. exists (removed_review t v). rewrite Ho, lookup_insert_eq. split; [done|by exists t].
    + destruct (Hr j w Hw) as (Hid & x & Hx & Hxd). split; [done|]. exists x.
      rewrite lookup_insert_ne; [done|]. specialize (Hne j w Hw). congruence.
  - intros j w [[<- <-]|[Hij Hw]]%lookup_insert_Some Hwd.
    + exists (vr_ID r), r. by rewrite lookup_insert_eq.
    + destruct (Hd j w Hw Hwd) as (k & x & Hx & Hxj). exists k, x.
      rewrite lookup_insert_ne; [done|congruence].
  - apply unique_by_insert; [done|]. intros j w b Hw. specialize (Hne j w Hw). congruence.
Qed.

Lemma removals_kept {r} d d' : Inv d → effect r d d' → removals_ok (reviews d') (review_removals d').
Proof.
  intros Hd He. pose proof (iv_removals _ Hd) as Hr. pose proof (iv_reviews _ Hd) as Hv.
  open_effect He; try (by apply removals_ok_reviewed); destruct (re_rows _ _ Hv _ _ rr_before) as [Hid _];
    (apply removals_ok_removed; [done..|congruence|done|done]).
Qed.

Theorem effect_keeps {r} d d' : Inv d → effect r d d' → Inv d'.
Proof.
  intros Hd He. split; [by eapply users_kept|by eapply tokens_kept|by eapply sessions_kept|by eapply facts_kept|
    by eapply announced_kept|by eapply roles_kept|by eapply reviews_kept|by eapply ratings_kept|by eapply removals_kept].
Qed.
End keeps.

(** * Reachable states

    Every call of the service, under any fault and whatever other calls do
    between its transactions, moves along steps; steps keep the invariant and
    extend the state. *)

Section reach.
  Context `{UUID, Digest, CIText, UnicodeLower, Codec, PhoneNumbers}.
  Context (cfg : Config).

Definition steps : UDB → UDB → Prop := rtc (user_step cfg).
Definition reachable (d : UDB) : Prop := steps empty_db d.

#[export] Instance steps_refl : Reflexive steps.
Proof. intros d. apply rtc_refl. Qed.
#[export] Instance steps_trans : Transitive steps.
Proof. intros d1 d2 d3 ??. unfold steps in *. by etrans. Qed.

Lemma user_step_Inv d d' : Inv d → user_step cfg d d' → Inv d' ∧ history d d'.
Proof.
  intros Hd Hs%step_effect; [|intros i o; by apply Inv_keyed].
  split; [by eapply effect_keeps|by eapply effect_history].
Qed.

Lemma user_steps_Inv d d' : Inv d → steps d d' → Inv d' ∧ history d d'.
Proof.
  intros Hd. induction 1 as [d|d d1 d' Hs _ IH]; [by split|].
  destruct (user_step_Inv _ _ Hd Hs) as [Hi1 Hh1]. destruct (IH Hi1) as [? Hh2]. split; [done|by etrans].
Qed.

Lemma user_reachable_Inv d : reachable d → Inv d.
Proof. intros Hr. by apply (user_steps_Inv empty_db); [apply user_Inv_empty|]. Qed.

Lemma reachable_steps d d' : reachable d → steps d d' → reachable d'.
Proof. unfold reachable. intros ??. by etrans. Qed.

(** Calls move along the steps of the service, so along any relation [R] that
    contains them: the steps with those of the relays, or those of the service
    alone. [others_by R] is what may happen between two transactions of a call. *)
Class Contains (R : UDB → UDB → Prop) : Prop := contains : ∀ d d', service_step cfg d d' → R d d'.
#[export] Instance user_step_contains : Contains (user_step cfg).
Proof. intros d d'. apply SService. Qed.
#[export] Instance service_step_contains : Contains (service_step cfg).
Proof. by intros d d'. Qed.

Definition others_by (R : UDB → UDB → Prop) (m : UDB → UDB) : Prop := ∀ d, rtc R d (m d).
Definition others : (UDB → UDB) → Prop := others_by (user_step cfg).

Section calls.
  Context {R : UDB → UDB → Prop} `{!Contains R}.

Lemma WithTransaction_steps {A} env fl (f : Tx A) d :
  (∀ a d', f env d = Ok (a, d') → service_step cfg d d') → rtc R d (WithTransaction env fl f d).2.
Proof.
  intros Hf. destruct (WithTransaction_ran env fl f d) as [->|(a & d' & Hr & -> & _)]; [done|].
  by eapply rtc_once, contains, Hf.
Qed.

Ltac in_transaction :=
  lazymatch goal with
  | |- rtc ?R ?d (let '(_, _) := WithTransaction ?env ?fl ?f ?d1 in _).2 =>
      let Ht := fresh "Ht" in
      assert (rtc R d1 (WithTransaction env fl f d1).2) as Ht;
      [apply WithTransaction_steps|destruct (WithTransaction env fl f d1); simpl in *]
  end.

(** ** Calls *)

Lemma RequestLink_steps env fl_reads fl_save m sent email d :
  others_by R m → rtc R d (RequestLink env fl_reads fl_save m sent email d).2.
Proof.
  intros Hm. unfold RequestLink. destruct (WithTransaction env fl_reads _ d).1 as [[e u]|e] eqn:Hr; [|done].
  apply WithTransaction_ok in Hr. unfold link_reads in Hr. split_run Hr.
  in_transaction; [|etrans; [apply Hm|done]].
  intros v d' Hs. eapply SLink; [|exact Hs]. simplify_eq. done.
Qed.

Lemma Login_steps env fl token d : rtc R d (Login cfg env fl token d).2.
Proof.
  unfold Login. destruct (digestMagicToken token) as [h|]; [|done].
  in_transaction; [|done]. intros v d' ?. by eapply SLogin.
Qed.

Lemma Register_steps env fl token p d : sound_env env → rtc R d (Register cfg env fl token p d).2.
Proof.
  intros Henv. unfold Register. destruct (negb _); [done|]. destruct (normalizedPhoneNumber _); [|done].
  destruct (digestMagicToken token) as [h|]; [|done].
  in_transaction; [|done]. intros v d' ?. by eapply SRegister.
Qed.

Lemma Refresh_steps env fl_read fl m token d :
  others_by R m → rtc R d (Refresh cfg env fl_read fl m token d).2.
Proof.
  intros Hm. unfold Refresh. destruct (refresh_claims token _) as [[user s]|]; [|done].
  destruct (WithTransaction env fl_read _ d).1 as [u|e]; [|done].
  in_transaction; [|etrans; [apply Hm|done]]. intros v d' ?. by eapply SRefresh.
Qed.

Lemma Logout_steps env fl token d : rtc R d (Logout env fl token d).2.
Proof.
  unfold Logout. destruct (_ ≫= _); [|done]. in_transaction; [|done]. intros v d' ?. by eapply SLogout.
Qed.

Lemma LogoutAll_steps env fl token d : rtc R d (LogoutAll env fl token d).2.
Proof.
  unfold LogoutAll. destruct (refresh_claims token _) as [[user s]|]; [|done].
  in_transaction; [|done]. intros v d' ?. by eapply SLogoutAll.
Qed.

Lemma UpdateMyProfile_steps env f1 f2 f3 m later actor i d :
  others_by R m → others_by R later → rtc R d (UpdateMyProfile env f1 f2 f3 m later actor i d).2.
Proof.
  intros Hm Hl. unfold UpdateMyProfile. destruct (valid_profile i) as [[name phone]|]; [|done].
  destruct (GetMyProfile _ _ _ _) as [u|]; [|done]. destruct (same _ _); [done|].
  in_transaction; [intros v d' ?; by eapply SProfile|].
  destruct r; simpl; (etrans; [apply Hm|]); [etrans; [done|apply Hl]|done].
Qed.

(** The actor's row stays locked between the reads and the write. *)
Definition keeps_row (actor : string) (m : UDB → UDB) : Prop := ∀ d, users (m d) !! actor = users d !! actor.

Lemma ChangeUserRole_steps env fl_reads fl m actor target to reason d :
  others_by R m → keeps_row actor m → rtc R d (ChangeUserRole env fl_reads fl m actor target to reason d).2.
Proof.
  intros Hm Hk.
  assert (∀ v d', ChangeUserRole env fl_reads no_faults (λ _, m d) actor target to reason d = (Ok v, d') →
    rtc R d d') as Hstep.
  { intros v d' Hr. etrans; [apply Hm|]. by eapply rtc_once, contains, SRole, Hr. }
  revert Hstep. unfold ChangeUserRole. destruct (same actor _); [done|]. destruct (_ || _); [done|].
  destruct (2000 <? _); [done|]. destruct (WithTransaction env fl_reads _ d).1 as [[u c]|e]; [|done].
  rewrite WithTransaction_no_faults. intros Hstep.
  destruct (WithTransaction_ran env fl (role_write u c) (m d)) as [->|(v & d' & Hr & -> & _)]; [apply Hm|].
  rewrite Hr in Hstep. by eapply Hstep.
Qed.

Lemma Bootstrap_steps env fl email name d : sound_env env → rtc R d (Bootstrap_Run env fl email name d).2.
Proof.
  intros Henv. unfold Bootstrap_Run. destruct (NormalizeEmail email) as [e|]; [|done].
  destruct (_ <? _); [done|]. apply WithTransaction_steps. intros v d' ?. by eapply SBootstrap.
Qed.

Lemma AllowDomain_steps env fl domain actor d : rtc R d (AllowDomain env fl domain actor d).2.
Proof. unfold AllowDomain. in_transaction; [|done]. intros v d' ?. by eapply SAllowDomain. Qed.

Lemma RemoveAllowedDomain_steps env fl id d : rtc R d (RemoveAllowedDomain env fl id d).2.
Proof. unfold RemoveAllowedDomain. in_transaction; [|done]. intros v d' ?. by eapply SRemoveDomain. Qed.

Lemma SubmitReview_steps env f1 f2 m reviewer reviewee order r d :
  others_by R m → rtc R d (SubmitReview env f1 f2 m reviewer reviewee order r d).2.
Proof.
  intros Hm.
  assert (∀ v d', SubmitReview env f1 no_faults (λ _, m d) reviewer reviewee order r d = (Ok v, d') →
    rtc R d d') as Hstep.
  { intros v d' Hr. etrans; [apply Hm|]. by eapply rtc_once, contains, SSubmit, Hr. }
  revert Hstep. unfold SubmitReview. destruct (same reviewer reviewee); [done|].
  destruct (WithTransaction env f1 _ d).1 as [[[] []]|]; try done. cbn [negb].
  rewrite WithTransaction_no_faults. set (i := {| ri_ID := _ |}). intros Hstep.
  destruct (WithTransaction_ran env f2 (submit_body i) (m d)) as [->|(v & d' & Hr & -> & _)]; [apply Hm|].
  rewrite Hr in Hstep. by eapply Hstep.
Qed.

Lemma RemoveReview_steps env fl id reason actor d : rtc R d (RemoveReview env fl id reason actor d).2.
Proof.
  unfold RemoveReview. destruct (_ || _); [done|]. apply WithTransaction_steps. intros v d' ?. by eapply SRemove.
Qed.

End calls.

Lemma settle_steps t f sent d : steps d (settle t f sent d).2.
Proof.
  unfold settle. destruct (tn_acked t); [|done]. destruct sent.
  - destruct (Outbox_Published _ _ d) eqn:Hp. by eapply rtc_once, SPublished.
  - destruct (Outbox_Retry _ _ d) eqn:Hr. by eapply rtc_once, SRetry.
Qed.

Lemma drain_one_steps eligible t d log : steps d (drain_one eligible t d log).1.2.
Proof.
  unfold drain_one. destruct (tn_claimed t); simpl; [|done].
  destruct (Outbox_Claim _ _ _ d) as [d1 [f|]] eqn:Hc; [|by eapply rtc_once, SClaim].
  etrans; [by eapply rtc_once, SClaim|]. destruct (send t f log) as [sent log'].
  pose proof (settle_steps t f sent d1) as Hs. by destruct (settle t f sent d1).
Qed.

Lemma drain_steps eligible turns d log : steps d (drain eligible turns d log).1.
Proof.
  revert d log. induction turns as [|t turns IH]; intros d log; [done|]. simpl.
  pose proof (drain_one_steps eligible t d log) as Ht.
  destruct (drain_one eligible t d log) as [[more d'] log']. destruct more; [|done]. etrans; [exact Ht|apply IH].
Qed.

End reach.

(** [apply] leaves the relation to be recognised. *)
#[export] Hint Extern 0 (Contains _ _) => apply _ : core.
