(* ===== verification/UserExamples.v ===== *)
(** * User: a concrete run

    The first administrator, an allowed domain, two registrations, a login, a
    refresh, a role change, a review and its removal, and the relay: the inputs at
    which the theorems are exercised. *)
From stdpp Require Import prelude gmap strings list relations pretty.
From Stdlib Require Import ZArith Lia SpecFloat Ascii.
From S2P Require Import Prelude.
From S2P Require Import GoLib.
From S2P Require Import GoText.
From S2P Require Import GoFloat.
From S2P Require Import GoMail.
From S2P Require Import UserTypes.
From S2P Require Import UserDB.
From S2P Require Import UserStore.
From S2P Require Import UserAuth.
From S2P Require Import UserAccounts.
From S2P Require Import UserReviews.
From S2P Require Import UserRuns.
From S2P Require Import UserSteps.
From S2P Require Import UserInvariant.
From S2P Require Import UserKeeps.

Local Open Scope Z_scope.
Local Open Scope foc_scope.

(** ** The code the service only calls *)

#[export] Instance ex_user_uuid : UUID := example_uuid.
#[export] Instance ex_user_laws : UUIDLaws := example_uuid_laws.
#[export] Instance ex_user_digest : Digest := λ s, s.
#[export] Instance ex_user_lower : UnicodeLower := λ r, text_of [r mod 256].
#[export] Instance ex_user_ci : CIText := {|
  citext_lower := λ s, of_bytes ((λ c, if within 65 90 c then c + 32 else c) <$> chars s); citext_key := λ s, s |}.
#[export] Instance ex_user_phones : PhoneNumbers := λ s,
  if Nat.eqb (String.length s) 8 then Some ("+65" +:+ s) else None.

(** A codec whose tokens are their payload as text; it signs what reads back. *)
Definition use_text (u : TokenUse) : string :=
  match u with AccessToken => "access" | RefreshToken => "refresh" | OtherUse s => s end.
Definition role_text (r : ClaimRole) : string :=
  match r with
  | ClaimSuperAdmin => "super_admin" | ClaimAdmin => "admin" | ClaimUser => "user"
  | ClaimSuspended => "suspended_user" | NoRole => "" | OtherClaim s => s
  end.
Definition text_use (s : string) : TokenUse :=
  if same s "access" then AccessToken else if same s "refresh" then RefreshToken else OtherUse s.
Definition text_role (s : string) : ClaimRole :=
  if same s "super_admin" then ClaimSuperAdmin else if same s "admin" then ClaimAdmin
  else if same s "user" then ClaimUser else if same s "suspended_user" then ClaimSuspended
  else if same s "" then NoRole else OtherClaim s.

Definition joined (l : list string) : string := String.concat "|" l.
Definition rendered (c : TokenClaims) : string :=
  joined [tc_Subject c; tc_SessionID c; use_text (tc_TokenUse c); role_text (tc_Role c); tc_ID c;
          pretty (default 0 (tc_IssuedAt c)); pretty (default 0 (tc_ExpiresAt c))].
Definition read_number (l : list Z) : Z := foldl (λ n c, 10 * n + (c - 48)) 0 l.
Definition read_token (s : string) : option TokenClaims :=
  match split_at 124 (chars s) with
  | [sub; sid; use; role; id; i; e] => Some {|
      tc_Subject := text_of sub; tc_SessionID := text_of sid; tc_TokenUse := text_use (text_of use);
      tc_Role := text_role (text_of role); tc_ID := text_of id; tc_IssuedAt := Some (read_number i);
      tc_ExpiresAt := Some (read_number e); tc_NotBefore := Some (read_number i) |}
  | _ => None
  end.
#[export] Instance TokenClaims_eq_dec : EqDecision TokenClaims.
Proof. solve_decision. Defined.

#[export] Instance ex_user_codec : Codec := {|
  codec_sign c := if decide (read_token (rendered c) = Some c) then Some (rendered c) else None;
  codec_parse token t :=
    c ← read_token token;
    if (default 0 (tc_IssuedAt c) * Second <=? t) && (t <? default 0 (tc_ExpiresAt c) * Second) then Some c else None |}.

#[export] Instance ex_user_codec_laws : CodecLaws.
Proof.
  split; unfold codec_parse, codec_sign; simpl.
  - intros token t1 t2 c1 c2. destruct (read_token token) as [c|]; simpl; [|done].
    destruct (_ && _); [|done]. destruct (_ && _); [|done]. congruence.
  - intros c token i e t. destruct (decide _) as [Hr|]; [|done]. intros [= <-] Hi _ He Ht. rewrite Hr. simpl.
    rewrite Hi, He. simpl. rewrite (proj2 (Z.leb_le _ _)), (proj2 (Z.ltb_lt _ _)) by lia. done.
Qed.

(** ** Clocks and draws *)

Definition ident (tag : string) : string := "00000000-0000-4000-8000-00000000" +:+ tag.
Definition kind_tag (k : Drawn) : string :=
  match k with
  | ForUser => "a" | ForToken => "b" | ForSession => "c" | ForChange => "d" | ForEvent => "e"
  | ForDomain => "f" | ForWarning => "0" | ForReview => "1" | ForRemoval => "2" | ForLease => "3"
  end.
(** The n-th call, at a time: some seconds after a start. *)
Definition start : Time := (unix_epoch + 1700000000) * Second.
Definition bytes (n : Z) (k : Z) : list Z := (λ i, (Z.of_nat i * 7 + n * 11 + k) mod 256) <$> seq 0 32.
Definition at_ (n : string) (z : Z) (seconds : Z) : Env := {|
  now_ := start + seconds * Second; gorm_now := start + seconds * Second; server_now := start + seconds * Second;
  new_id := λ k, ident (kind_tag k +:+ "00" +:+ n); placeholder := "placeholder-" +:+ n;
  link_bytes := bytes z 1; access_bytes := bytes z 2; refresh_bytes := bytes z 3 |}.

Definition conf : Config := {| cfg_FrontendPath := ""; cfg_AccessTokenTTL := AccessTokenLifetime;
  cfg_RefreshTokenTTL := RefreshTokenLifetime |}.

(** The token that the n-th call mails. *)
Definition link (z : Z) : string := (randomToken (bytes z 1)).1.

Definition ok_or {A} (x : A) (r : result Error A) : A := match r with Ok a => a | Err _ => x end.

(** ** The run *)

Definition root_mail : string := "root@nus.edu".
Definition alice_mail : string := "alice@u.nus.edu".
Definition bob_mail : string := "bob@u.nus.edu".
Definition root : string := ident "a001".
Definition alice : string := ident "a004".
Definition bob : string := ident "a006".
Definition person (name : string) : Profile := {| pf_DisplayName := name; pf_PhoneNumber := "81234567" |}.

(** The first administrator, and the domain of the students. *)
Definition d_root : UDB := (Bootstrap_Run (at_ "1" 1 0) no_faults root_mail "Root" empty_db).2.
Definition d_domain : UDB := (AllowDomain (at_ "2" 2 10) no_faults "U.nus.edu " root d_root).2.

(** Alice asks for a link and registers; then Bob. *)
Definition ask_link (n : string) (z seconds : Z) (email : string) (d : UDB) : UDB :=
  (RequestLink (at_ n z seconds) no_faults no_faults (λ d, d) true email d).2.
Definition d_link1 : UDB := ask_link "3" 3 20 alice_mail d_domain.
Definition registered1 : result Error (User * AuthTokens) * UDB :=
  Register conf (at_ "4" 4 60) no_faults (link 3) (person "Alice") d_link1.
Definition d_alice : UDB := registered1.2.
Definition d_link2 : UDB := ask_link "5" 5 70 bob_mail d_alice.
Definition d_bob : UDB := (Register conf (at_ "6" 6 80) no_faults (link 5) (person "Bob") d_link2).2.

(** Alice logs in with a link, exchanges her refresh token, and logs out everywhere. *)
Definition d_link3 : UDB := ask_link "7" 7 90 alice_mail d_bob.
Definition logged_in : result Error (User * AuthTokens) * UDB := Login conf (at_ "8" 8 100) no_faults (link 7) d_link3.
Definition d_login : UDB := logged_in.2.
Definition no_tokens : AuthTokens := {| at_AccessToken := ""; at_RefreshToken := ""; at_AccessExpiry := 0; at_RefreshExpiry := 0 |}.
Definition tokens_from (r : result Error (User * AuthTokens)) : AuthTokens :=
  match r with Ok (_, t) => t | Err _ => no_tokens end.
Definition first_refresh : string := at_RefreshToken (tokens_from logged_in.1).
Definition refreshed : result Error (User * AuthTokens) * UDB :=
  Refresh conf (at_ "9" 9 200) no_faults no_faults (λ d, d) first_refresh d_login.
Definition d_refresh : UDB := refreshed.2.
Definition second_refresh : string := at_RefreshToken (tokens_from refreshed.1).
Definition d_out : UDB := (LogoutAll (at_ "a" 10 300) no_faults second_refresh d_refresh).2.

(** The first administrator makes Bob an administrator. *)
Definition d_role : UDB :=
  (ChangeUserRole (at_ "b" 11 400) no_faults no_faults (λ d, d) root bob RoleAdmin " trusted " d_out).2.

(** Alice reviews Bob, and Bob Alice; the first review is removed. *)
Definition order : string := ident "0001".
Definition review_of (stars : Z) : ReviewSubmission := {| rs_Rating := stars; rs_Comment := "Quick." |}.
Definition d_review1 : UDB :=
  (SubmitReview (at_ "c" 12 500) no_faults no_faults (λ d, d) alice bob order (review_of 4) d_role).2.
Definition d_review2 : UDB :=
  (SubmitReview (at_ "d" 13 510) no_faults no_faults (λ d, d) bob alice order (review_of 5) d_review1).2.
Definition d_removed : UDB := (RemoveReview (at_ "e" 14 520) no_faults (ident "100c") "rude" bob d_review2).2.

(** The relay publishes both registrations. *)
Definition turn (n : string) : Turn := {| tn_now := start + 600 * Second; tn_later := start + 601 * Second;
  tn_token := ident ("300" +:+ n); tn_claimed := true; tn_accepted := true; tn_replied := true; tn_acked := true |}.
Definition drained : UDB * Log := drain (start + 600 * Second) [turn "1"; turn "2"; turn "3"] d_removed [].

(** ** The states are reachable *)

Ltac sound := split; [intros []; (split; [reflexivity|discriminate])|split; vm_compute; discriminate].

Lemma others_idle R : others_by R (λ d, d).
Proof. by intros d. Qed.

(** The service alone comes that far, without its relays. *)
Definition served : UDB → Prop := rtc (service_step conf) empty_db.
Lemma served_reachable d : served d → reachable conf d.
Proof. apply rtc_subrel. intros ??. apply SService. Qed.

Lemma served_later d d' : served d → rtc (service_step conf) d d' → served d'.
Proof. unfold served. intros ??. by etrans. Qed.

Lemma d_root_served : served d_root.
Proof. eapply Bootstrap_steps; [done|sound]. Qed.
Lemma d_domain_served : served d_domain.
Proof. eapply served_later; [apply d_root_served|by eapply AllowDomain_steps]. Qed.
Lemma d_link1_served : served d_link1.
Proof. eapply served_later; [apply d_domain_served|by eapply RequestLink_steps, others_idle]. Qed.
Lemma d_alice_served : served d_alice.
Proof. eapply served_later; [apply d_link1_served|]. eapply Register_steps; [done|sound]. Qed.
Lemma d_link2_served : served d_link2.
Proof. eapply served_later; [apply d_alice_served|by eapply RequestLink_steps, others_idle]. Qed.
Lemma d_bob_served : served d_bob.
Proof. eapply served_later; [apply d_link2_served|]. eapply Register_steps; [done|sound]. Qed.
Lemma d_link3_served : served d_link3.
Proof. eapply served_later; [apply d_bob_served|by eapply RequestLink_steps, others_idle]. Qed.
Lemma d_login_served : served d_login.
Proof. eapply served_later; [apply d_link3_served|by eapply Login_steps]. Qed.
Lemma d_refresh_served : served d_refresh.
Proof. eapply served_later; [apply d_login_served|by eapply Refresh_steps, others_idle]. Qed.
Lemma d_out_served : served d_out.
Proof. eapply served_later; [apply d_refresh_served|by eapply LogoutAll_steps]. Qed.
Lemma d_role_served : served d_role.
Proof. eapply served_later; [apply d_out_served|]. eapply ChangeUserRole_steps; [done|apply others_idle|done]. Qed.
Lemma d_review1_served : served d_review1.
Proof. eapply served_later; [apply d_role_served|by eapply SubmitReview_steps, others_idle]. Qed.
Lemma d_review2_served : served d_review2.
Proof. eapply served_later; [apply d_review1_served|by eapply SubmitReview_steps, others_idle]. Qed.
Lemma d_removed_served : served d_removed.
Proof. eapply served_later; [apply d_review2_served|by eapply RemoveReview_steps]. Qed.

Lemma d_root_reachable : reachable conf d_root.
Proof. apply served_reachable, d_root_served. Qed.
Lemma d_domain_reachable : reachable conf d_domain.
Proof. apply served_reachable, d_domain_served. Qed.
Lemma d_link1_reachable : reachable conf d_link1.
Proof. apply served_reachable, d_link1_served. Qed.
Lemma d_alice_reachable : reachable conf d_alice.
Proof. apply served_reachable, d_alice_served. Qed.
Lemma d_link2_reachable : reachable conf d_link2.
Proof. apply served_reachable, d_link2_served. Qed.
Lemma d_bob_reachable : reachable conf d_bob.
Proof. apply served_reachable, d_bob_served. Qed.
Lemma d_link3_reachable : reachable conf d_link3.
Proof. apply served_reachable, d_link3_served. Qed.
Lemma d_login_reachable : reachable conf d_login.
Proof. apply served_reachable, d_login_served. Qed.
Lemma d_refresh_reachable : reachable conf d_refresh.
Proof. apply served_reachable, d_refresh_served. Qed.
Lemma d_out_reachable : reachable conf d_out.
Proof. apply served_reachable, d_out_served. Qed.
Lemma d_role_reachable : reachable conf d_role.
Proof. apply served_reachable, d_role_served. Qed.
Lemma d_review1_reachable : reachable conf d_review1.
Proof. apply served_reachable, d_review1_served. Qed.
Lemma d_review2_reachable : reachable conf d_review2.
Proof. apply served_reachable, d_review2_served. Qed.
Lemma d_removed_reachable : reachable conf d_removed.
Proof. apply served_reachable, d_removed_served. Qed.

(** Later states come by steps. *)
Lemma d_login_to_role : steps conf d_login d_role.
Proof.
  transitivity d_refresh; [by eapply Refresh_steps, others_idle|].
  transitivity d_out; [by eapply LogoutAll_steps|]. eapply ChangeUserRole_steps; [done|apply others_idle|done].
Qed.
Lemma d_refresh_to_role : steps conf d_refresh d_role.
Proof. transitivity d_out; [by eapply LogoutAll_steps|]. eapply ChangeUserRole_steps; [done|apply others_idle|done]. Qed.
Lemma d_out_to_role : steps conf d_out d_role.
Proof. eapply ChangeUserRole_steps; [done|apply others_idle|done]. Qed.

Lemma d_alice_to_removed : steps conf d_alice d_removed.
Proof.
  transitivity d_link2; [by eapply RequestLink_steps, others_idle|].
  transitivity d_bob; [eapply Register_steps; [done|sound]|].
  transitivity d_link3; [by eapply RequestLink_steps, others_idle|].
  transitivity d_login; [by eapply Login_steps|].
  transitivity d_role; [apply d_login_to_role|].
  transitivity d_review1; [by eapply SubmitReview_steps, others_idle|].
  transitivity d_review2; [by eapply SubmitReview_steps, others_idle|]. by eapply RemoveReview_steps.
Qed.

(** States that differ in the number of their sessions. *)
Lemma sessions_differ d d' : size (sessions d) ≠ size (sessions d') → d ≠ d'.
Proof. by intros Hn ->. Qed.

Lemma is_ok_true {A} (r : result Error A) : is_ok r = true → ∃ a, r = Ok a.
Proof. destruct r as [a|]; [by exists a|done]. Qed.
Lemma is_ok_false {A} (r : result Error A) : is_ok r = false → ∃ e, r = Err e.
Proof. destruct r as [|e]; [done|by exists e]. Qed.
