(* ===== verification/UserSessions.v ===== *)
(** * User: magic links and sessions

    A link is redeemed once, a refresh token is exchanged once, and logging out
    everywhere is final; the tokens of a session verify while they last. *)
From stdpp Require Import prelude gmap strings list sorting relations.
From Stdlib Require Import ZArith Lia SpecFloat.
From S2P Require Import Prelude.
From S2P Require Import GoLib.
From S2P Require Import GoText.
From S2P Require Import GoFloat.
From S2P Require Import GoMail.
From S2P Require Import UserTypes.
From S2P Require Import UserDB.
From S2P Require Import UserStore.
From S2P Require Import UserAuth.
From S2P Require Import UserAccounts.
From S2P Require Import UserRuns.
From S2P Require Import UserSteps.
From S2P Require Import UserInvariant.
From S2P Require Import UserKeeps.

Local Open Scope Z_scope.
Local Open Scope foc_scope.

Lemma find_first_none {A} (p : A → bool) l : (∀ x, x ∈ l → p x = false) → find_first p l = None.
Proof.
  intros Hl. destruct (find_first p l) as [x|] eqn:Hf; [|done].
  apply find_first_some in Hf as [Hx Hp]. by rewrite Hl in Hp.
Qed.

Section sessions.
  Context `{UUID, Digest, CIText, UnicodeLower, Codec, PhoneNumbers}.
  Context (cfg : Config).

(** ** Links *)

(** The two calls that take a token from a link. *)
Inductive Redemption := ByLogin | ByRegister (p : Profile).
Definition redeem (env : Env) (fl : Faults) (r : Redemption) (token : string) (d : UDB)
    : result Error (User * AuthTokens) * UDB :=
  match r with
  | ByLogin => Login cfg env fl token d
  | ByRegister p => Register cfg env fl token p d
  end.

Definition spent (digest : string) (d : UDB) : Prop :=
  ∃ i t, auth_tokens d !! i = Some t ∧ t_TokenHash t = digest ∧ is_Some (t_UsedAt t).

Lemma spent_later digest d d' : history d d' → spent digest d → spent digest d'.
Proof.
  intros Hh (i & t & Ht & Hd & Hu). destruct (hi_tokens _ _ Hh i t Ht) as (t' & Ht' & Hl).
  exists i, t'. split_and!; [done|by rewrite (tl_hash _ _ Hl)|].
  destruct (tl_used _ _ Hl) as [Hn | ->]; [|done]. rewrite Hn in Hu. by destruct Hu.
Qed.

(** What a committed redemption did: it used the token up and made a session. *)
Record redeemed (p : TokenPurpose) (digest : string) (now : Time) (u : User) (tokens : AuthTokens)
    (env : Env) (d d' : UDB) (t : AuthToken) (s : Session) : Prop := {
  rd_token : ∃ i, auth_tokens d !! i = Some t;
  rd_consumable : consumable digest p now t = true;
  rd_after : auth_tokens d' = <[t_ID t := used_token now t]> (auth_tokens d);
  rd_user : ∃ w, users d' !! u_ID u = Some w ∧ u_DeletedAt w = None ∧ u_Role w = u_Role u;
  rd_session : sessions d' = <[s_ID s := s]> (sessions d);
  rd_of : s_UserID s = u_ID u ∧ s_ID s = new_id env ForSession;
  rd_live : s_RevokedAt s = None ∧ s_DeletedAt s = None;
  rd_hash : s_TokenHash s = sha256_hex (at_RefreshToken tokens);
  rd_expires : s_ExpiresAt s = stored_time (now + cfg_RefreshTokenTTL cfg);
  rd_signed : signSessionTokens cfg env u (s_ID s) now = Ok tokens;
}.

Lemma login_redeemed digest now env d u tokens d' :
  users_ok (users d) → login_body cfg digest now env d = Ok ((u, tokens), d') →
  ∃ t s, redeemed PurposeLogin digest now u tokens env d d' t s ∧ t_UserID t = Some (u_ID u) ∧ users d' = users d.
Proof.
  intros [Hk _] Hr. unfold login_body in Hr. split_run Hr. injection Hr as -> ->.
  destruct Hrun as (t & -> & [Hb Hc ->]), Hrun1 as [Hu Hl].
  destruct Hrun3 as (Hsign & w & [_ _ _ _ Hlive ->] & Hid & Hw & Hh & He). simpl in Hu.
  destruct (Hk _ _ Hu) as [Hu' _]. exists t, w. split_and!; [split; try done| |done].
  - exists a1. simpl. rewrite Hu'. done.
  - by rewrite Hid.
  - simpl in Hrun0. by rewrite Hrun0, Hu'.
Qed.

Lemma register_redeemed digest name phone now env d u tokens d' :
  register_body cfg digest name phone now env d = Ok ((u, tokens), d') →
  ∃ t s, redeemed PurposeRegister digest now u tokens env d d' t s
       ∧ u = created_user env (new_user (t_Email t) name (Some phone) RoleUser)
       ∧ users d !! u_ID u = None ∧ users d' = <[u_ID u := stored_user u]> (users d).
Proof.
  intros Hr. unfold register_body, UserProvisioner_Create, Outbox_Append in Hr. split_run Hr.
  injection Hr as -> ->. destruct Hrun as (t & -> & [Hb Hc ->]).
  apply Users_Create_run in Hrun1 as [-> [Hn _ _ _ _ ->]]. apply insert_fact_run in Hrun2 as [_ _ ->].
  destruct Hrun0 as (Hsign & w & [_ _ _ _ Hlive ->] & Hid & Hw & Hh & He).
  exists t, w. split_and!; [split; try done|done..].
  - eexists. simpl. by rewrite lookup_insert_eq.
  - by rewrite Hid.
Qed.

Lemma redeemed_spent p digest now u tokens env d d' t s :
  redeemed p digest now u tokens env d d' t s → spent digest d'.
Proof.
  intros [_ Hc Ha _ _ _ _ _ _]. apply consumable_true in Hc as (Hd & _).
  exists (t_ID t), (used_token now t). rewrite Ha, lookup_insert_eq. split_and!; [done..|by eexists].
Qed.

(** A redemption changed nothing or committed. *)
Lemma redeem_committed env fl r token d :
  users_ok (users d) →
  (redeem env fl r token d).2 = d
  ∨ ∃ digest p u tokens t s, digestMagicToken token = Some digest
      ∧ redeemed p digest (now_ env) u tokens env d (redeem env fl r token d).2 t s.
Proof.
  intros Hd. destruct r as [|p]; simpl.
  - unfold Login. destruct (digestMagicToken token) as [h|]; [|by left].
    destruct (WithTransaction_ran env fl (login_body cfg h (now_ env)) d) as [Hs|([u tokens] & d' & Hr & Hs & _)];
      destruct (WithTransaction _ _ _ _) as [out d1]; simpl in *; subst; [by left|right].
    apply login_redeemed in Hr as (t & s & Hr & _); [|done]. by exists h, PurposeLogin, u, tokens, t, s.
  - unfold Register. destruct (negb _); [by left|]. destruct (normalizedPhoneNumber _) as [phone|]; [|by left].
    destruct (digestMagicToken token) as [h|]; [|by left].
    destruct (WithTransaction_ran env fl (register_body cfg h (TrimSpace (pf_DisplayName p)) phone (now_ env)) d)
      as [Hs|([u tokens] & d' & Hr & Hs & _)];
      destruct (WithTransaction _ _ _ _) as [out d1]; simpl in *; subst; [by left|right].
    apply register_redeemed in Hr as (t & s & Hr & _). by exists h, PurposeRegister, u, tokens, t, s.
Qed.

(** A token that was used up is refused. *)
Lemma spent_refused digest p now env d :
  tokens_ok (auth_tokens d) → spent digest d → AuthTokens_Consume digest p now env d = Err ErrChallengeRejected.
Proof.
  intros [_ Hu] (i & t & Ht & Hd & [at_ Hat]). unfold AuthTokens_Consume, consume_token, exec, mbind, st_mbind.
  rewrite find_first_none; [done|]. intros w [j Hj]%elem_of_rows.
  destruct (consumable digest p now w) eqn:Hc; [|done]. apply consumable_true in Hc as (Hw & _ & Hn & _).
  assert (i = j) as -> by (eapply Hu; [exact Ht|exact Hj|done|congruence]). congruence.
Qed.

Lemma redeem_spent env fl r token digest d :
  tokens_ok (auth_tokens d) → digestMagicToken token = Some digest → spent digest d →
  (redeem env fl r token d).2 = d ∧ ∃ e, (redeem env fl r token d).1 = Err e.
Proof.
  intros Hd Ht Hs. pose proof (λ p, spent_refused digest p (now_ env) env d Hd Hs) as Hc.
  destruct r as [|p]; simpl; unfold Login, Register;
    [|destruct (negb _); [by eauto|]; destruct (normalizedPhoneNumber _) as [phone|]; [|by eauto]];
    rewrite Ht; unfold WithTransaction; destruct (begin_fault fl), (body_fault fl); simpl; eauto;
    unfold login_body, register_body, mbind, st_mbind; rewrite Hc; simpl; eauto.
Qed.

(** C12: A magic link works at most once. After a login or registration with a
    token reached the database, even when its reply was lost, every later login or
    registration with the same token is refused and changes nothing. *)
Theorem magic_link_once env fl r token d d' :
  reachable cfg d → sound_env env → (redeem env fl r token d).2 ≠ d →
  steps cfg (redeem env fl r token d).2 d' →
  ∀ env' fl' r', (redeem env' fl' r' token d').2 = d' ∧ ∃ e, (redeem env' fl' r' token d').1 = Err e.
Proof.
  intros Hd Henv Hc Hs env' fl' r'. pose proof (user_reachable_Inv _ _ Hd) as HI.
  destruct (redeem_committed env fl r token d (iv_users _ HI)) as [?|(h & p & u & tokens & t & s & Ht & Hr)]; [done|].
  assert (Inv (redeem env fl r token d).2) as HI1.
  { eapply user_reachable_Inv, reachable_steps; [exact Hd|]. destruct r; [by eapply Login_steps|by eapply Register_steps]. }
  destruct (user_steps_Inv _ _ _ HI1 Hs) as [HI' Hh].
  eapply redeem_spent; [apply iv_tokens, HI'|done|]. eapply spent_later; [done|by eapply redeemed_spent].
Qed.
(** ** Sessions *)

Definition ended (id : string) (d : UDB) : Prop :=
  ∃ s, sessions d !! id = Some s ∧ (is_Some (s_RevokedAt s) ∨ is_Some (s_DeletedAt s)).

Lemma set_once_kept {A} (o o' : option A) : set_once o o' → is_Some o → is_Some o'.
Proof. intros [-> | ->]; [|done]. by intros []. Qed.

Lemma ended_later id d d' : history d d' → ended id d → ended id d'.
Proof.
  intros Hh (s & Hs & He). destruct (hi_sessions _ _ Hh id s Hs) as (s' & Hs' & Hl). exists s'. split; [done|].
  destruct He; [left; eapply set_once_kept; [apply (sl_revoked _ _ Hl)|done]
               |right; eapply set_once_kept; [apply (sl_deleted _ _ Hl)|done]].
Qed.

Lemma ended_refused id h now env d : ended id d → Sessions_Revoke id h now env d = Err ErrSessionRejected.
Proof.
  intros (s & Hs & He). unfold Sessions_Revoke, revoke_session, live, exec, mbind, st_mbind, ask.
  rewrite Hs. simpl. destruct (s_DeletedAt s); simpl; [done|].
  destruct He as [[t ->]|[]]; [|done]. simpl. by rewrite andb_false_r.
Qed.

(** The session that a refresh token names: the same at every time. *)
Definition names_session (token : string) (now : Time) (id : string) : Prop :=
  Verify token RefreshToken now ≫= (λ c, uuid_parse (cl_SessionID c)) = Some id.

Lemma Verify_payload token use now c :
  Verify token use now = Some c →
  ∃ p, codec_parse token now = Some p ∧ cl_Subject c = tc_Subject p ∧ cl_SessionID c = tc_SessionID p.
Proof.
  unfold Verify. destruct (negb _); [done|]. destruct (Nat.ltb _ _); [done|].
  destruct (codec_parse token now) as [p|]; simpl; [|done]. destruct (Validate use p); [|done].
  intros [= <-]. by exists p.
Qed.

Lemma refresh_claims_names token now user id :
  refresh_claims token now = Some (user, id) → names_session token now id.
Proof.
  unfold refresh_claims, names_session. destruct (Verify _ _ _) as [c|]; simpl; [|done].
  destruct (uuid_parse (cl_Subject c)); simpl; [|done].
  destruct (uuid_parse (cl_SessionID c)); simpl; [|done]. by intros [= <- <-].
Qed.

Lemma names_session_stable `{!CodecLaws} token t1 t2 a b :
  names_session token t1 a → names_session token t2 b → a = b.
Proof.
  unfold names_session. destruct (Verify token _ t1) as [c1|] eqn:H1', (Verify token _ t2) as [c2|] eqn:H2'; simpl; try done.
  apply Verify_payload in H1' as (p1 & Hp1 & _ & ->), H2' as (p2 & Hp2 & _ & ->).
  rewrite (codec_stable _ _ _ _ _ Hp1 Hp2). congruence.
Qed.

(** A committed call ended the session that the token names. *)
Inductive ends (token : string) (d d' : UDB) : Prop :=
| EndRefresh env fl_read fl m :
    others cfg m → (Refresh cfg env fl_read fl m token d).2 = d' → d' ≠ d → d' ≠ m d → ends token d d'
| EndLogout env fl : (Logout env fl token d).2 = d' → d' ≠ d → ends token d d'
| EndLogoutAll env fl : (LogoutAll env fl token d).2 = d' → d' ≠ d → ends token d d'.

Lemma revoked_ended id h now at_ d d' s : session_revoked id h now at_ d d' s → ended id d'.
Proof.
  intros [_ _ _ _ ->]. exists (revoked now at_ s). simpl. rewrite lookup_insert_eq. split; [done|left; by eexists].
Qed.

Lemma refresh_body_ended u id token now env d v d' :
  refresh_body cfg u id token now env d = Ok (v, d') → ended id d'.
Proof.
  intros Hr. unfold refresh_body in Hr. split_run Hr.
  select (∃ s0, session_revoked _ _ _ _ _ _ s0) (fun H => destruct H as [r Hend]).
  destruct Hr as (_ & w & Hw & _).
  eapply ended_later; [by eapply session_inserted_history|by eapply revoked_ended].
Qed.

Lemma logout_all_body_ended user id token now env d v d' :
  logout_all_body user id token now env d = Ok (v, d') → ended id d'.
Proof.
  intros Hr. unfold logout_all_body, Sessions_RevokeAllForUser in Hr. split_run Hr.
  select (∃ s0, session_revoked _ _ _ _ _ _ s0) (fun H => destruct H as [r Hend]).
  select (Ok _ = Ok _) (fun H => apply Ok_inj in H; injection H as <- <-).
  eapply ended_later; [apply (revoke_sessions_history user now)|by eapply revoked_ended].
Qed.

Lemma ends_ended token d d' : ends token d d' → ∃ now id, names_session token now id ∧ ended id d'.
Proof.
  intros [env fl_read fl m Hm Hd Hn Hne|env fl Hd Hn|env fl Hd Hn]; subst d'.
  - unfold Refresh in *. destruct (refresh_claims token (now_ env)) as [[user id]|] eqn:Hc; [|done].
    destruct (WithTransaction env fl_read _ d).1 as [u|e]; [|done].
    destruct (WithTransaction_ran env fl (refresh_body cfg u id token (now_ env)) (m d)) as [Hs|(v & d' & Hr & Hs & _)];
      destruct (WithTransaction _ _ _ _) as [out d1]; simpl in *; subst; [done|].
    exists (now_ env), id. split; [by eapply refresh_claims_names|by eapply refresh_body_ended].
  - unfold Logout in *. destruct (_ ≫= _) as [id|] eqn:Hc; [|done].
    destruct (WithTransaction_ran env fl (Sessions_Revoke id (sha256_hex token) (now_ env)) d) as [Hs|(v & d' & Hr & Hs & _)];
      destruct (WithTransaction _ _ _ _) as [out d1]; simpl in *; subst; [done|].
    exists (now_ env), id. split; [done|]. apply Sessions_Revoke_run in Hr as [r Hr]. by eapply revoked_ended.
  - unfold LogoutAll in *. destruct (refresh_claims token (now_ env)) as [[user id]|] eqn:Hc; [|done].
    destruct (WithTransaction_ran env fl (logout_all_body user id token (now_ env)) d) as [Hs|(v & d' & Hr & Hs & _)];
      destruct (WithTransaction _ _ _ _) as [out d1]; simpl in *; subst; [done|].
    exists (now_ env), id. split; [by eapply refresh_claims_names|by eapply logout_all_body_ended].
Qed.

Lemma ends_steps token d d' : ends token d d' → steps cfg d d'.
Proof.
  intros [env fl_read fl m Hm <- _ _|env fl <- _|env fl <- _];
    [by eapply Refresh_steps|by eapply Logout_steps|by eapply LogoutAll_steps].
Qed.

(** A session that ended by the time of the transaction: no exchange. *)
Lemma Refresh_ended env fl_read fl m token id d :
  names_session token (now_ env) id → ended id (m d) →
  (∃ e, (Refresh cfg env fl_read fl m token d).1 = Err e)
  ∧ ((Refresh cfg env fl_read fl m token d).2 = d ∨ (Refresh cfg env fl_read fl m token d).2 = m d).
Proof.
  intros Hn He. unfold Refresh. destruct (refresh_claims token (now_ env)) as [[user id']|] eqn:Hc; [|by eauto].
  assert (id' = id) as ->.
  { apply refresh_claims_names in Hc. unfold names_session in *. congruence. }
  destruct (WithTransaction env fl_read _ d).1 as [u|e]; [|by eauto].
  unfold WithTransaction. destruct (begin_fault fl), (body_fault fl); simpl; eauto.
  unfold refresh_body, mbind, st_mbind. destruct (requireAllowedEmailDomain _ _ env (m d)) as [[v d1]|e] eqn:Hg; simpl; [|by eauto].
  apply requireAllowedEmailDomain_run in Hg as ->. rewrite ended_refused by done. simpl. eauto.
Qed.

(** C25: A refresh token is exchanged at most once. After a refresh, a logout or a
    logout everywhere with the token reached the database, a refresh with it whose
    transaction starts later, whatever it read before, is refused and changes nothing. *)
Theorem refresh_token_once `{!CodecLaws} token d d' :
  reachable cfg d → ends token d d' →
  ∀ env fl_read fl m d2, steps cfg d' (m d2) →
    (∃ e, (Refresh cfg env fl_read fl m token d2).1 = Err e)
    ∧ ((Refresh cfg env fl_read fl m token d2).2 = d2 ∨ (Refresh cfg env fl_read fl m token d2).2 = m d2).
Proof.
  intros Hd He env fl_read fl m d2 Hs. pose proof (ends_steps _ _ _ He) as Hst.
  destruct (ends_ended _ _ _ He) as (now & id & Hn & Hend).
  pose proof (user_reachable_Inv _ _ (reachable_steps _ _ _ Hd Hst)) as HI.
  destruct (user_steps_Inv _ _ _ HI Hs) as [_ Hh]. pose proof (ended_later _ _ _ Hh Hend) as Hend2.
  destruct (refresh_claims token (now_ env)) as [[user id']|] eqn:Hc.
  - apply Refresh_ended with id; [|done]. apply refresh_claims_names in Hc.
    by rewrite (names_session_stable _ _ _ _ _ Hn Hc).
  - unfold Refresh. rewrite Hc. eauto.
Qed.

Lemma revoke_all_revokes user now d i :
  (∃ s, sessions d !! i = Some s ∧ s_UserID s = user ∧ s_DeletedAt s = None) →
  ∃ s', sessions (revoke_sessions user now d).1 !! i = Some s' ∧ is_Some (s_RevokedAt s').
Proof.
  intros (s & Hs & Hu & Hd). simpl. rewrite lookup_fmap, Hs. eexists. split; [done|].
  unfold unrevoked. rewrite Hu, same_refl, Hd. simpl. rewrite andb_true_r.
  destruct (s_RevokedAt s) as [x|] eqn:Hr; simpl; [rewrite Hr|]; by eexists.
Qed.

(** C37: Logging out everywhere is final. It succeeds only by ending every session
    the user then has: none is ever active again, and no refresh token of one is
    exchanged by a refresh whose transaction starts later. *)
Theorem logout_all_final env fl token d d' user id :
  reachable cfg d → LogoutAll env fl token d = (Ok tt, d') → refresh_claims token (now_ env) = Some (user, id) →
  ∀ i s, sessions d !! i = Some s → s_UserID s = user → s_DeletedAt s = None →
  ∀ d2, steps cfg d' d2 →
    (∃ s2, sessions d2 !! i = Some s2 ∧ ∀ t, IsActive s2 t = false)
    ∧ ∀ env2 fl_read2 fl2 m token2 d3, m d3 = d2 → names_session token2 (now_ env2) i →
        (∃ e, (Refresh cfg env2 fl_read2 fl2 m token2 d3).1 = Err e)
        ∧ ((Refresh cfg env2 fl_read2 fl2 m token2 d3).2 = d3 ∨ (Refresh cfg env2 fl_read2 fl2 m token2 d3).2 = d2).
Proof.
  intros Hd Hl Hc i s Hi Hu Hsd d2 Hs.
  assert (Inv d') as HI.
  { eapply user_reachable_Inv, reachable_steps; [exact Hd|]. pose proof (LogoutAll_steps cfg (R:=user_step cfg) env fl token d) as Hst. by rewrite Hl in Hst. }
  destruct (user_steps_Inv _ _ _ HI Hs) as [_ Hh].
  assert (∃ s', sessions d' !! i = Some s' ∧ is_Some (s_RevokedAt s')) as (s' & Hs' & Hr).
  { unfold LogoutAll in Hl. rewrite Hc in Hl.
    destruct (WithTransaction env fl _ d) as [out d1] eqn:Hw. injection Hl as Ho <-.
    assert (out = Ok tt) as -> by (destruct out as [[]|]; [done|discriminate]).
    pose proof (WithTransaction_ok env fl (logout_all_body user id token (now_ env)) d tt) as Hr. rewrite Hw in Hr.
    specialize (Hr eq_refl). simpl in Hr. unfold logout_all_body, Sessions_RevokeAllForUser in Hr. split_run Hr.
    destruct Hrun as [r [Hb [_ Hrd] _ _ ->]]. apply Ok_inj in Hrun0.
    epose proof (revoke_all_revokes (s_UserID s) (now_ env) _ i) as Hall. erewrite Hrun0 in Hall. apply Hall. simpl.
    destruct (decide (id = i)) as [<-|].
    - exists (revoked (now_ env) (gorm_now env) r). rewrite lookup_insert_eq. simplify_eq. done.
    - exists s. by rewrite lookup_insert_ne. }
  assert (ended i d2) as Hend by (eapply ended_later; [done|]; exists s'; auto).
  split.
  - destruct (hi_sessions _ _ Hh i s' Hs') as (s2 & Hs2 & Hl2). exists s2. split; [done|]. intros t.
    unfold IsActive. by destruct (set_once_kept _ _ (sl_revoked _ _ Hl2) Hr) as [x ->].
  - intros env2 fl_read2 fl2 m token2 d3 <- Hn. by apply Refresh_ended with i.
Qed.
(** ** Tokens *)

(** What was signed verifies from its issue to its expiry. *)
Lemma Sign_Verify `{!CodecLaws} c token t :
  Sign c = Ok token → unix_epoch < unix (cl_IssuedAt c) → (String.length token ≤ 8192)%nat →
  unix (cl_IssuedAt c) * Second <= t < unix (cl_ExpiresAt c) * Second →
  ∃ c', Verify token (cl_Type c) t = Some c' ∧ cl_Subject c' = cl_Subject c
      ∧ cl_SessionID c' = cl_SessionID c ∧ cl_Role c' = cl_Role c.
Proof.
  intros Hs Hi Hl Ht. unfold Sign in Hs. inv_ok Hs.
  assert (codec_parse token t = Some (claims_payload c)) as Hp by by eapply codec_signed.
  repeat match goal with Hx : _ && _ = true |- _ => apply andb_prop in Hx as [Hx ?] end.
  assert (Validate (cl_Type c) (claims_payload c) = true) as Hv.
  { unfold Validate, claims_payload. cbn [tc_TokenUse tc_Subject tc_SessionID tc_ID tc_IssuedAt tc_ExpiresAt tc_NotBefore tc_Role].
    rewrite same_refl, Z.eqb_refl. repeat (apply andb_true_intro; split); try done.
    apply negb_true_iff, Z.leb_gt. lia. }
  unfold Verify. rewrite Hp. cbn [mbind option_bind]. rewrite Hv.
  match goal with Hx : _ || _ = true |- _ => rewrite Hx end.
  rewrite (proj2 (Nat.ltb_ge _ _)) by done. cbn [negb]. eexists. split; [reflexivity|done].
Qed.

(** Access and refresh token of a session. *)
Lemma signed_tokens env u sid now tokens :
  signSessionTokens cfg env u sid now = Ok tokens →
  ∃ role, jwtRole (u_Role u) = Some role
  ∧ Sign {| cl_Type := AccessToken; cl_Subject := u_ID u; cl_SessionID := sid; cl_Role := role; cl_IssuedAt := now;
      cl_ExpiresAt := now + cfg_AccessTokenTTL cfg; cl_TokenID := (randomToken (access_bytes env)).1 |} = Ok (at_AccessToken tokens)
  ∧ Sign {| cl_Type := RefreshToken; cl_Subject := u_ID u; cl_SessionID := sid; cl_Role := NoRole; cl_IssuedAt := now;
      cl_ExpiresAt := now + cfg_RefreshTokenTTL cfg; cl_TokenID := (randomToken (refresh_bytes env)).1 |} = Ok (at_RefreshToken tokens).
Proof.
  intros Hs. unfold signSessionTokens in Hs. inv_ok Hs. subst tokens. by exists a.
Qed.

Lemma jwtRole_admin r c : jwtRole r = Some c → same c ClaimAdmin || same c ClaimSuperAdmin = IsAdmin r.
Proof. destruct r; by intros [= <-]. Qed.

(** A redemption that succeeded committed. *)
Lemma redeem_ok env fl r token d u tokens d' :
  users_ok (users d) → redeem env fl r token d = (Ok (u, tokens), d') →
  ∃ digest p t s, digestMagicToken token = Some digest ∧ redeemed p digest (now_ env) u tokens env d d' t s
    ∧ match r with
      | ByLogin => p = PurposeLogin ∧ t_UserID t = Some (u_ID u) ∧ users d' = users d
      | ByRegister pf => p = PurposeRegister ∧ u_Email u = t_Email t ∧ u_Role u = RoleUser
          ∧ users d !! u_ID u = None ∧ users d' = <[u_ID u := stored_user u]> (users d)
      end.
Proof.
  intros Hd. destruct r as [|p]; simpl.
  - unfold Login. destruct (digestMagicToken token) as [h|]; [|done].
    destruct (WithTransaction env fl _ d) as [[[u0 t0]|e] d1] eqn:Hw; [|done]. intros [= -> -> ->].
    pose proof (WithTransaction_ok env fl (login_body cfg h (now_ env)) d (u, tokens)) as Hr. rewrite Hw in Hr.
    destruct (login_redeemed _ _ _ _ _ _ _ Hd (Hr eq_refl)) as (t & s & ? & ? & ?).
    exists h, PurposeLogin, t, s. by split_and!.
  - unfold Register. destruct (negb _); [done|]. destruct (normalizedPhoneNumber _) as [phone|]; [|done].
    destruct (digestMagicToken token) as [h|]; [|done].
    destruct (WithTransaction env fl _ d) as [[[u0 t0]|e] d1] eqn:Hw; [|done]. intros [= -> -> ->].
    pose proof (WithTransaction_ok env fl (register_body cfg h (TrimSpace (pf_DisplayName p)) phone (now_ env)) d (u, tokens)) as Hr.
    rewrite Hw in Hr. destruct (register_redeemed _ _ _ _ _ _ _ _ _ (Hr eq_refl)) as (t & s & ? & -> & ? & ?).
    exists h, PurposeRegister, t, s. by split_and!.
Qed.

(** C36: A link proves its address and yields tokens that work. Whoever redeems a
    link becomes the user that the link was made for, or registers its address, with
    an unused link of the right kind before it expires; the new session is active
    until it expires, the access token verifies as the user with its role, and the
    refresh token names the session. *)
Theorem redeemed_link_authenticates `{!CodecLaws} env fl r token d u tokens d' :
  reachable cfg d → sound_env env → redeem env fl r token d = (Ok (u, tokens), d') →
  (∃ i t, auth_tokens d !! i = Some t ∧ Some (t_TokenHash t) = digestMagicToken token ∧ t_UsedAt t = None
     ∧ stored_time (now_ env) < t_ExpiresAt t
     ∧ match r with
       | ByLogin => t_Purpose t = PurposeLogin ∧ t_UserID t = Some (u_ID u) ∧ users d' = users d
       | ByRegister _ => t_Purpose t = PurposeRegister ∧ u_Email u = t_Email t ∧ u_Role u = RoleUser
           ∧ users d !! u_ID u = None ∧ is_Some (users d' !! u_ID u)
       end)
  ∧ ∃ sid s role, sessions d' !! sid = Some s ∧ s_UserID s = u_ID u
      ∧ s_TokenHash s = sha256_hex (at_RefreshToken tokens)
      ∧ (∀ t, t < stored_time (now_ env + cfg_RefreshTokenTTL cfg) → IsActive s t = true)
      ∧ jwtRole (u_Role u) = Some role
      ∧ (unix_epoch < unix (now_ env) →
         (∀ t, unix (now_ env) * Second <= t < unix (now_ env + cfg_AccessTokenTTL cfg) * Second →
            (String.length (at_AccessToken tokens) ≤ 8192)%nat →
            VerifyAccess (at_AccessToken tokens) t
            = Some {| ca_ID := u_ID u; ca_SessionID := sid; ca_Role := role; ca_Admin := IsAdmin (u_Role u) |})
         ∧ ∀ t, unix (now_ env) * Second <= t < unix (now_ env + cfg_RefreshTokenTTL cfg) * Second →
            (String.length (at_RefreshToken tokens) ≤ 8192)%nat →
            refresh_claims (at_RefreshToken tokens) t = Some (u_ID u, sid)).
Proof.
  intros Hd Henv Hr. pose proof (user_reachable_Inv _ _ Hd) as HI.
  assert (Inv d') as HI'.
  { eapply user_reachable_Inv, reachable_steps; [exact Hd|]. replace d' with (redeem env fl r token d).2 by by rewrite Hr.
    destruct r; [by eapply Login_steps|by eapply Register_steps]. }
  destruct (redeem_ok _ _ _ _ _ _ _ _ (iv_users _ HI) Hr) as (h & p & t & s & Ht & Hred & Hrest).
  destruct Hred as [[i Hi] Hc _ (w & Hw & _) Hs [Hu Hid] [Hl Hdel] Hh He Hsign].
  apply consumable_true in Hc as (Hth & Hp & Hun & Hexp & _). split.
  { exists i, t. split_and!; [done|congruence|done..|]. destruct r; destruct_and?; split_and?; try congruence.
    by exists w. }
  destruct (signed_tokens _ _ _ _ _ Hsign) as (role & Hrole & Hacc & Href).
  exists (s_ID s), s, role. rewrite Hs, lookup_insert_eq. split_and!; try done.
  { intros x Hx. unfold IsActive, Before. rewrite Hl, He. simpl. by apply Z.ltb_lt. }
  destruct (proj1 (iv_users _ HI') _ _ Hw) as (_ & _ & [Hcan _] & _).
  intros Hep. split; intros x Hx Hlen.
  - destruct (Sign_Verify _ _ x Hacc Hep Hlen Hx) as (c & Hv & Hsub & Hses & Hrl). simpl in *.
    unfold VerifyAccess. rewrite Hv. simpl. rewrite Hsub, Hses, Hrl. by rewrite <- (jwtRole_admin _ _ Hrole).
  - destruct (Sign_Verify _ _ x Href Hep Hlen Hx) as (c & Hv & Hsub & Hses & Hrl). simpl in *.
    unfold refresh_claims. rewrite Hv. simpl. rewrite Hsub, Hses, Hcan. simpl. rewrite Hid.
    by rewrite (proj1 (se_ids _ Henv ForSession)).
Qed.
End sessions.

(** ** The theorems at the states of a run *)

From S2P Require Import UserExamples.

Lemma magic_link_once_witness :
  (redeem conf (at_ "b" 11 400) no_faults ByLogin (link 7) d_role).2 = d_role
  ∧ ∃ e, (redeem conf (at_ "b" 11 400) no_faults ByLogin (link 7) d_role).1 = Err e.
Proof.
  apply (magic_link_once conf (at_ "8" 8 100) no_faults ByLogin (link 7) d_link3 d_role);
    [apply d_link3_reachable|sound| |apply d_login_to_role].
  apply sessions_differ. vm_compute. discriminate.
Defined.

Lemma refresh_token_once_witness :
  ∃ e, (Refresh conf (at_ "b" 11 400) no_faults no_faults (λ d, d) first_refresh d_role).1 = Err e.
Proof.
  apply (refresh_token_once conf first_refresh d_login d_refresh);
    [apply d_login_reachable| |apply d_refresh_to_role].
  apply (EndRefresh conf first_refresh d_login d_refresh (at_ "9" 9 200) no_faults no_faults (λ d, d));
    [apply others_idle|reflexivity|apply sessions_differ; vm_compute; discriminate..].
Defined.

Lemma logout_all_final_witness :
  ∃ s, sessions d_role !! ident "c009" = Some s ∧ ∀ t, IsActive s t = false.
Proof.
  destruct (sessions d_refresh !! ident "c009") as [s|] eqn:Hs; [|vm_compute in Hs; discriminate].
  assert ((λ s, (s_UserID s, s_DeletedAt s)) <$> sessions d_refresh !! ident "c009" = Some (alice, None)) as Hof
    by (vm_compute; reflexivity).
  rewrite Hs in Hof. injection Hof as Hu Hd.
  apply (logout_all_final conf (at_ "a" 10 300) no_faults second_refresh d_refresh d_out alice (ident "c009"))
    with (i := ident "c009") (s := s); [apply d_refresh_reachable| |vm_compute; reflexivity|exact Hs|exact Hu|exact Hd|apply d_out_to_role].
  rewrite (surjective_pairing (LogoutAll _ _ _ _)). by f_equal.
Defined.

Lemma redeemed_link_authenticates_witness :
  ∃ sid, VerifyAccess (at_AccessToken (tokens_from registered1.1)) (start + 100 * Second)
         = Some {| ca_ID := alice; ca_SessionID := sid; ca_Role := ClaimUser; ca_Admin := false |}.
Proof.
  destruct registered1.1 as [[u tokens]|e] eqn:Hr; [|vm_compute in Hr; discriminate].
  assert ((λ r, match r with Ok (u, t) => Some (u_ID u, u_Role u, (String.length (at_AccessToken t) <=? 8192)%nat) | Err _ => None end)
            registered1.1 = Some (alice, RoleUser, true)) as Hc by (vm_compute; reflexivity).
  rewrite Hr in Hc. injection Hc as Hid Hrole Hlen.
  destruct (redeemed_link_authenticates conf (at_ "4" 4 60) no_faults (ByRegister (person "Alice")) (link 3) d_link1 u tokens d_alice)
    as [_ (sid & s & role & _ & _ & _ & _ & Hrl & Hv)]; [apply d_link1_reachable|sound| |].
  { rewrite <- Hr. apply surjective_pairing. }
  rewrite Hrole in Hrl. injection Hrl as <-. exists sid. simpl.
  destruct Hv as [Hv _]; [vm_compute; reflexivity|]. rewrite Hv, Hid, Hrole; [reflexivity|split; vm_compute; done|].
  by apply Nat.leb_le.
Defined.
