(* ===== verification/UserRelay.v ===== *)
(** * User: registrations and the relay

    The relay publishes the facts of registrations: a fact counts as published
    only after the broker accepted its message, the messages announce the users as
    they registered, and turns that work publish everything that waits. *)
From stdpp Require Import prelude gmap strings list sorting relations.
From Stdlib Require Import ZArith Lia SpecFloat.
From S2P Require Import Prelude.
From S2P Require Import GoLib.
From S2P Require Import GoText.
From S2P Require Import GoFloat.
From S2P Require Import GoMail.
From S2P Require Import UserTypes.
From S2P Require Import UserDB.
From S2P Require Import UserStore.
From S2P Require Import UserAuth.
From S2P Require Import UserReviews.
From S2P Require Import UserRuns.
From S2P Require Import UserSteps.
From S2P Require Import UserInvariant.
From S2P Require Import UserKeeps.

Local Open Scope Z_scope.
Local Open Scope foc_scope.

(** The message of a fact: the lease is not part of it. *)
Definition message (o : UserCreatedOutbox) : option UserCreated := encode (fact_of EmptyString o).

Lemma message_of token o : encode (fact_of token o) = message o.
Proof. done. Qed.
Lemma message_content o o' : fact_content o' = fact_content o → message o' = message o.
Proof. unfold message, encode. intros Hc. injection Hc as H1 H2 H3 H4 H5 H6 _. simpl. by rewrite H1, H2, H3, H4, H5, H6. Qed.

(** What a claim took: the oldest claimable fact, now leased. *)
Definition leased (token : string) (until : Time) (o : UserCreatedOutbox) : UserCreatedOutbox :=
  o <| ob_LeaseToken := Some token |> <| ob_LeaseUntil := Some (stored_time until) |>.

Lemma claim_cases token eligible until d :
  (Outbox_Claim token eligible until d = (d, None)
   ∧ ∀ e o, user_created_outbox d !! e = Some o → claimable eligible o = false)
  ∨ ∃ e o, user_created_outbox d !! e = Some o ∧ claimable eligible o = true
      ∧ Outbox_Claim token eligible until d = (put_fact (leased token until o) d, Some (fact_of token (leased token until o))).
Proof.
  unfold Outbox_Claim, claim_fact. destruct (merge_sort _ _) as [|o l] eqn:Hs.
  - left. split; [done|]. intros e o Ho. destruct (claimable eligible o) eqn:Hc; [|done].
    assert (o ∈ merge_sort oldest_fact (filter (λ o, claimable eligible o = true) (snd <$> map_to_list (user_created_outbox d)))) as Hin.
    { rewrite merge_sort_Permutation. apply list_elem_of_filter. split; [done|]. apply elem_of_rows. by exists e. }
    rewrite Hs in Hin. by apply elem_of_nil in Hin.
  - right. assert (o ∈ o :: l) as Ho by left. rewrite <- Hs, merge_sort_Permutation in Ho.
    apply list_elem_of_filter in Ho as [Hc [e He]%elem_of_rows]. by exists e, o.
Qed.

Definition published_fact (at_ : Time) (o : UserCreatedOutbox) : UserCreatedOutbox :=
  o <| ob_PublishedAt := Some at_ |> <| ob_LeaseToken := None |> <| ob_LeaseUntil := None |>.

(** Acknowledging a fact that is still leased. *)
Lemma published_leased token until now o d :
  user_created_outbox d !! ob_EventID o = Some (leased token until o) → ob_PublishedAt o = None →
  stored_time now < stored_time until →
  Outbox_Published (fact_of token (leased token until o)) now d
  = (put_fact (published_fact (stored_time now) o) d, true).
Proof.
  intros Ho Hp Hl. unfold Outbox_Published, update_fact. cbn -[stored_time]. rewrite Ho. cbn -[stored_time].
  rewrite same_refl, Hp. cbn -[stored_time]. by rewrite (proj2 (Z.ltb_lt _ _)).
Qed.

Lemma published_sound f now d d' b :
  Outbox_Published f now d = (d', b) →
  d' = d ∨ ∃ o, user_created_outbox d !! fa_EventID f = Some o ∧ ob_PublishedAt o = None
    ∧ ob_LeaseToken o = Some (fa_LeaseToken f)
    ∧ d' = d <| user_created_outbox := <[fa_EventID f := published_fact (stored_time now) o]> (user_created_outbox d) |>.
Proof.
  unfold Outbox_Published, update_fact. destruct (user_created_outbox d !! fa_EventID f) as [o|] eqn:Ho;
    [|intros [= <- _]; by left].
  destruct (_ && _ && _) eqn:Hc; intros [= <- _]; [|by left]. right.
  apply andb_prop in Hc as [[Ht%same_eq Hp%negb_is_some]%andb_prop _]. by exists o.
Qed.

Section relay.
  Context `{UUID, Digest, CIText, UnicodeLower, Codec, PhoneNumbers}.
  Context (cfg : Config).

(** A turn in which nothing fails, acknowledged within its lease. *)
Record works (t : Turn) : Prop := {
  wk_claimed : tn_claimed t = true;
  wk_accepted : tn_accepted t = true;
  wk_replied : tn_replied t = true;
  wk_acked : tn_acked t = true;
  wk_lease : tn_later t + Microsecond <= tn_now t + claimLease;
}.

Lemma stored_time_apart t u : t + Microsecond <= u → stored_time t < stored_time u.
Proof.
  intros Htu. pose proof (time_truncate_le t Microsecond ltac:(done)). pose proof (time_truncate_le u Microsecond ltac:(done)).
  unfold stored_time. lia.
Qed.

Lemma fact_message d e o : Inv d → user_created_outbox d !! e = Some o → ob_EventID o = e ∧ ∃ m, message o = Some m.
Proof. intros Hd Ho. destruct (proj1 (iv_facts _ Hd) e o Ho) as (Hid & _ & Hp). split; [done|]. apply Hp. Qed.

Lemma claimable_unpublished eligible o : claimable eligible o = true → ob_PublishedAt o = None.
Proof. unfold claimable. by intros [[?%negb_is_some _]%andb_prop _]%andb_prop. Qed.

Lemma put_fact_twice o o' d : ob_EventID o' = ob_EventID o → put_fact o (put_fact o' d) = put_fact o d.
Proof. intros He. unfold put_fact. rewrite He. cbn. by rewrite insert_insert_eq. Qed.

(** A turn that works publishes a fact that waits, if there is one. *)
Lemma drain_one_works eligible t d log :
  Inv d → works t →
  (drain_one eligible t d log = (false, d, log)
   ∧ ∀ e o, user_created_outbox d !! e = Some o → claimable eligible o = false)
  ∨ ∃ o m, user_created_outbox d !! ob_EventID o = Some o ∧ claimable eligible o = true ∧ message o = Some m
      ∧ drain_one eligible t d log
        = (true, put_fact (published_fact (stored_time (tn_later t)) o) d, log ++ [m]).
Proof.
  intros Hd [Hcl Hac Hre Hak Hle]. unfold drain_one. rewrite Hcl. cbn [negb].
  destruct (claim_cases (tn_token t) eligible (tn_now t + claimLease) d) as [[-> Hn]|(e & o & Ho & Hc & ->)]; [by left|right].
  destruct (fact_message _ _ _ Hd Ho) as [<- [m Hm]]. exists o, m. split_and!; try done.
  unfold send, settle. rewrite message_of, (message_content o) by done. rewrite Hm, Hac, Hre, Hak. cbn [andb].
  rewrite published_leased; [by rewrite put_fact_twice| |by eapply claimable_unpublished|by apply stored_time_apart].
  cbn. by rewrite lookup_insert_eq.
Qed.

(** How many facts wait. *)
Definition waiting (eligible : Time) (d : UDB) : Z :=
  msum (λ _ o, if claimable eligible o then 1 else 0) (user_created_outbox d).

Lemma waiting_published eligible o at_ d :
  user_created_outbox d !! ob_EventID o = Some o → claimable eligible o = true →
  waiting eligible (put_fact (published_fact at_ o) d) = waiting eligible d - 1.
Proof.
  intros Ho Hc. unfold waiting, put_fact. cbn [user_created_outbox set_user_created_outbox].
  cbn. rewrite (msum_update _ _ _ o), Hc by done. unfold claimable, published_fact. cbn. lia.
Qed.

Lemma waiting_none eligible d e o :
  waiting eligible d <= 0 → user_created_outbox d !! e = Some o → claimable eligible o = false.
Proof.
  intros Hw Ho. destruct (claimable eligible o) eqn:Hc; [|done].
  pose proof (msum_lookup_le (λ _ o, if claimable eligible o then 1 else 0) _ _ _ Ho) as Hle. cbv beta in Hle. rewrite Hc in Hle.
  unfold waiting in Hw. enough (1 <= 0) by lia. etrans; [apply Hle|done]. intros k v _. by destruct (claimable eligible v).
Qed.

Lemma drain_log eligible turns d log : ∃ more, (drain eligible turns d log).2 = log ++ more.
Proof.
  revert d log. induction turns as [|t turns IH]; intros d log; [by exists []; rewrite app_nil_r|].
  simpl. assert (∃ more, (drain_one eligible t d log).2 = log ++ more) as [more Hm].
  { unfold drain_one. destruct (tn_claimed t); simpl; [|by exists []; rewrite app_nil_r].
    destruct (Outbox_Claim _ _ _ d) as [d1 [f|]]; [|by exists []; rewrite app_nil_r].
    unfold send. destruct (encode f) as [m|], (tn_accepted t); destruct (settle _ _ _ _); simpl;
      first [by exists [m] | by exists []; rewrite app_nil_r]. }
  destruct (drain_one eligible t d log) as [[go d1] log1]. simpl in Hm. subst log1. destruct go; [|by exists more].
  destruct (IH d1 (log ++ more)) as [more' ->]. exists (more ++ more'). by rewrite app_assoc.
Qed.
(** ** Everything that waits is published *)

Definition delivered (e : string) (d : UDB) (log : Log) : Prop :=
  ∃ o m, user_created_outbox d !! e = Some o ∧ is_Some (ob_PublishedAt o) ∧ message o = Some m ∧ m ∈ log.

Lemma delivered_later e d d' log log' :
  history d d' → (∃ more, log' = log ++ more) → delivered e d log → delivered e d' log'.
Proof.
  intros Hh [more ->] (o & m & Ho & Hp & Hm & Hin). destruct (hi_facts _ _ Hh e o Ho) as (o' & Ho' & [Hc Hpub]).
  exists o', m. split_and!; [done| |by rewrite (message_content o)|apply elem_of_app; by left].
  destruct Hpub as [Hn | ->]; [|done]. rewrite Hn in Hp. by destruct Hp.
Qed.

Lemma drain_delivers eligible turns d log :
  Inv d → Forall works turns → waiting eligible d <= Z.of_nat (length turns) →
  ∀ e o, user_created_outbox d !! e = Some o → claimable eligible o = true →
  delivered e (drain eligible turns d log).1 (drain eligible turns d log).2.
Proof.
  revert d log. induction turns as [|t turns IH]; intros d log Hd Ht Hw e o Ho Hc.
  { by rewrite (waiting_none eligible d e o) in Hc. }
  apply Forall_cons in Ht as [Ht Hts]. pose proof (drain_one_steps cfg eligible t d log) as Hst.
  destruct (user_steps_Inv _ _ _ Hd Hst) as [Hd1 _]. simpl.
  destruct (drain_one_works eligible t d log Hd Ht) as [[_ Hn]|(o1 & m & Ho1 & Hc1 & Hm & Heq)]; [by rewrite (Hn e o) in Hc|].
  rewrite Heq in Hd1 |- *. cbn [fst snd] in Hd1. set (d1 := put_fact _ d) in *.
  destruct (decide (e = ob_EventID o1)) as [->|Hne].
  - eapply (delivered_later _ d1 _ (log ++ [m])); [|apply drain_log|].
    + by apply (user_steps_Inv cfg); [|apply drain_steps].
    + exists (published_fact (stored_time (tn_later t)) o1), m. subst d1. cbn. rewrite lookup_insert_eq.
      split_and!; [done|by eexists|done|apply elem_of_app; right; by left].
  - apply (IH d1 (log ++ [m])) with o; [done|done| |by subst d1; cbn; rewrite lookup_insert_ne|done].
    subst d1. rewrite waiting_published by done. cbn [length] in Hw. lia.
Qed.

(** A drain publishes everything that waits. With as many working turns as
    facts wait, every fact that was claimable is marked published and its message
    was accepted by the broker. *)
Theorem drain_publishes_waiting eligible turns d log e o :
  reachable cfg d → Forall works turns → waiting eligible d <= Z.of_nat (length turns) →
  user_created_outbox d !! e = Some o → claimable eligible o = true →
  delivered e (drain eligible turns d log).1 (drain eligible turns d log).2.
Proof. intros Hd Ht Hw Ho Hc. eapply drain_delivers; eauto. by eapply user_reachable_Inv. Qed.

(** ** The relays and the broker

    Any number of relays run beside the service. Each goes through the phases of an
    iteration of Drain: it holds a fact that it claimed, then what it learnt of
    publishing it, and settles that. In between the service and other relays do what
    they like, leases expire, and a relay may stop for good. *)
Inductive Phase := Claimed (f : Fact) | Tried (f : Fact) (sent : bool).
Record Relays := mkRelays { rl_db : UDB; rl_log : Log; rl_phases : gmap nat Phase }.

Inductive relays_step : Relays → Relays → Prop :=
| RService d d' log ph :
    service_step cfg d d' → relays_step (mkRelays d log ph) (mkRelays d' log ph)
| RClaim k t eligible f d d' log ph :
    ph !! k = None → Outbox_Claim (tn_token t) eligible (tn_now t + claimLease) d = (d', Some f) →
    relays_step (mkRelays d log ph) (mkRelays d' log (<[k := Claimed f]> ph))
| RSend k t f sent d log log' ph :
    ph !! k = Some (Claimed f) → send t f log = (sent, log') →
    relays_step (mkRelays d log ph) (mkRelays d log' (<[k := Tried f sent]> ph))
| RSettle k t f sent more d d' log ph :
    ph !! k = Some (Tried f sent) → settle t f sent d = (more, d') →
    relays_step (mkRelays d log ph) (mkRelays d' log (delete k ph))
| RStop k d log ph : relays_step (mkRelays d log ph) (mkRelays d log (delete k ph)).

Definition relay_reachable (x : UDB * Log) : Prop :=
  ∃ ph, rtc relays_step (mkRelays empty_db [] ∅) (mkRelays x.1 x.2 ph).

(** What a relay holds is of a fact of the outbox; a message that it knows to be
    accepted is in the log. *)
Definition phase_ok (d : UDB) (log : Log) (p : Phase) : Prop :=
  let remembers f := ∃ o, user_created_outbox d !! fa_EventID f = Some o ∧ encode f = message o in
  match p with
  | Claimed f => remembers f
  | Tried f sent => remembers f ∧ (sent = true → ∃ m, encode f = Some m ∧ m ∈ log)
  end.

Record announced_soundly (x : Relays) : Prop := {
  an_Inv : Inv (rl_db x);
  an_published : ∀ e o, user_created_outbox (rl_db x) !! e = Some o → is_Some (ob_PublishedAt o) →
    delivered e (rl_db x) (rl_log x);
  an_sent : ∀ m, m ∈ rl_log x → ∃ e o, user_created_outbox (rl_db x) !! e = Some o ∧ message o = Some m;
  an_phases : map_Forall (λ _, phase_ok (rl_db x) (rl_log x)) (rl_phases x);
}.

Definition publishes_nothing (d d' : UDB) : Prop :=
  ∀ e o', user_created_outbox d' !! e = Some o' → is_Some (ob_PublishedAt o') →
    ∃ o, user_created_outbox d !! e = Some o ∧ is_Some (ob_PublishedAt o).

Lemma publishes_nothing_refl d : publishes_nothing d d.
Proof. intros e o Ho Hp. by exists o. Qed.

Lemma publishes_nothing_put i o' d :
  ob_PublishedAt o' = None →
  publishes_nothing d (d <| user_created_outbox := <[i := o']> (user_created_outbox d) |>).
Proof.
  intros Hn e o Ho Hp. cbn in Ho. apply lookup_insert_Some in Ho as [[<- <-]|[_ Ho]]; [|by exists o].
  rewrite Hn in Hp. by destruct Hp.
Qed.

Lemma retry_publishes_nothing f available d d' b : Outbox_Retry f available d = (d', b) → publishes_nothing d d'.
Proof.
  unfold Outbox_Retry, update_fact. destruct (user_created_outbox d !! fa_EventID f) as [o|] eqn:Ho;
    [|intros [= <- _]; apply publishes_nothing_refl].
  destruct (_ && _ && _) eqn:Hc; intros [= <- _]; [|apply publishes_nothing_refl].
  apply andb_prop in Hc as [[_ Hp%negb_is_some]%andb_prop _]. by apply publishes_nothing_put.
Qed.

(** The calls of the service publish nothing. *)
Lemma service_publishes_nothing d d' : service_step cfg d d' → publishes_nothing d d'.
Proof.
  intros He%service_effect. unfold publishes_nothing. open_effect He; intros e x Hw Hp; try (by exists x).
  apply lookup_insert_Some in Hw as [[_ <-]|[_ Hw]]; [|by exists x].
  match goal with Hn : ob_PublishedAt _ = None |- _ => rewrite Hn in Hp end. by destruct Hp.
Qed.

Lemma phase_ok_later d d' log log' p :
  history d d' → (∃ more, log' = log ++ more) → phase_ok d log p → phase_ok d' log' p.
Proof.
  intros Hh [more ->]. assert (∀ f, (∃ o, user_created_outbox d !! fa_EventID f = Some o ∧ encode f = message o) →
    ∃ o, user_created_outbox d' !! fa_EventID f = Some o ∧ encode f = message o) as Hf.
  { intros f (o & Ho & He). destruct (hi_facts _ _ Hh _ o Ho) as (o' & Ho' & [Hc _]).
    exists o'. split; [done|]. by rewrite (message_content o). }
  destruct p as [f|f sent]; cbn; [apply Hf|]. intros [Ho Hs]. split; [by apply Hf|].
  intros Hsent. destruct (Hs Hsent) as (m & ? & ?). exists m. split; [done|]. apply elem_of_app. by left.
Qed.

(** A change of the database that publishes only what was accepted. *)
Lemma soundly_moved d d' log ph :
  announced_soundly (mkRelays d log ph) → user_step cfg d d' →
  (∀ e o', user_created_outbox d' !! e = Some o' → is_Some (ob_PublishedAt o') →
     (∃ o, user_created_outbox d !! e = Some o ∧ is_Some (ob_PublishedAt o))
     ∨ ∃ m, message o' = Some m ∧ m ∈ log) →
  announced_soundly (mkRelays d' log ph).
Proof.
  intros [Hd Hp Hs Hph] Hst Hpub; cbn in *. destruct (user_step_Inv _ _ _ Hd Hst) as [Hd' Hh].
  assert (∃ more, log = log ++ more) as Hlog by (exists []; by rewrite app_nil_r). split; cbn; [done| | |].
  - intros e o' Ho' Hpo'. destruct (Hpub e o' Ho' Hpo') as [(o & Ho & Hpo)|(m & Hm & Hin)]; [|by exists o', m].
    eapply delivered_later; [exact Hh|exact Hlog|by eapply Hp].
  - intros m (e & o & Ho & Hm)%Hs. destruct (hi_facts _ _ Hh e o Ho) as (o' & Ho' & [Hc _]).
    exists e, o'. split; [done|]. by rewrite (message_content o).
  - intros k p Hk. eapply phase_ok_later; [exact Hh|exact Hlog|by eapply Hph].
Qed.

Lemma soundly_phased d log ph ph' :
  announced_soundly (mkRelays d log ph) →
  (∀ k p, ph' !! k = Some p → ph !! k = Some p ∨ phase_ok d log p) → announced_soundly (mkRelays d log ph').
Proof. intros [] Hph. split; [done..|]. intros k p [Hk|?]%Hph; [by eapply an_phases0|done]. Qed.

Lemma soundly_stopped d log ph k :
  announced_soundly (mkRelays d log ph) → announced_soundly (mkRelays d log (delete k ph)).
Proof. intros Hs. eapply soundly_phased; [exact Hs|]. intros j p [_ Hj]%lookup_delete_Some. by left. Qed.

Lemma claim_soundly k t eligible f d d' log ph :
  announced_soundly (mkRelays d log ph) →
  Outbox_Claim (tn_token t) eligible (tn_now t + claimLease) d = (d', Some f) →
  announced_soundly (mkRelays d' log (<[k := Claimed f]> ph)).
Proof.
  intros Hs Hc. pose proof (an_Inv _ Hs) as Hd. cbn in Hd.
  destruct (claim_cases (tn_token t) eligible (tn_now t + claimLease) d) as [[Hn _]|(e & o & Ho & Hcl & Heq)];
    [congruence|]. rewrite Heq in Hc. injection Hc as <- <-. destruct (fact_message _ _ _ Hd Ho) as [<- _].
  set (o1 := leased _ _ o) in *. apply (soundly_phased _ _ ph).
  - eapply soundly_moved; [exact Hs|by eapply SClaim|]. intros e' o' Ho' Hp. left.
    exact (publishes_nothing_put (ob_EventID o1) o1 d (claimable_unpublished _ _ Hcl) e' o' Ho' Hp).
  - intros j p [[<- <-]|[_ Hj]]%lookup_insert_Some; [right|by left]. cbn. exists o1. split; [apply lookup_insert_eq|done].
Qed.

Lemma send_soundly k t f sent d log log' ph :
  announced_soundly (mkRelays d log ph) → ph !! k = Some (Claimed f) → send t f log = (sent, log') →
  announced_soundly (mkRelays d log' (<[k := Tried f sent]> ph)).
Proof.
  intros [Hd Hp Hs Hph] Hk Hsend; cbn in *. destruct (Hph k _ Hk) as (o & Ho & He).
  destruct (fact_message _ _ _ Hd Ho) as [_ [m Hm]]. unfold send in Hsend. rewrite He, Hm in Hsend.
  assert (∃ more, log' = log ++ more) as Hlog.
  { injection Hsend as _ <-. destruct (tn_accepted t); [by exists [m]|exists []; by rewrite app_nil_r]. }
  split; cbn; [done| | |].
  - intros e o' Ho' Hpub. eapply delivered_later; [reflexivity|exact Hlog|by eapply Hp].
  - intros m' Hm'. injection Hsend as _ <-. destruct (tn_accepted t); [|by apply Hs].
    apply elem_of_app in Hm' as [?| ->%list_elem_of_singleton]; [by apply Hs|by exists (fa_EventID f), o].
  - intros j p [[<- <-]|[_ Hj]]%lookup_insert_Some; [|eapply phase_ok_later; [reflexivity|exact Hlog|by eapply Hph]].
    cbn. split; [by exists o|]. intros ->. injection Hsend as [Hacc _]%andb_prop <-. rewrite Hacc.
    exists m. split; [congruence|]. apply elem_of_app. right. by apply list_elem_of_singleton.
Qed.

Lemma settle_soundly k t f sent more d d' log ph :
  announced_soundly (mkRelays d log ph) → ph !! k = Some (Tried f sent) → settle t f sent d = (more, d') →
  announced_soundly (mkRelays d' log ph).
Proof.
  intros Hs Hk Hset. destruct (an_phases _ Hs k _ Hk) as [(o & Ho & He) Hsent]; cbn in *.
  unfold settle in Hset. destruct (tn_acked t); [|by injection Hset as _ <-]. destruct sent.
  - destruct (Outbox_Published _ _ d) as [d1 b] eqn:Hp. injection Hset as _ <-.
    eapply soundly_moved; [exact Hs|by eapply SPublished|]. intros e o' Ho' Hpub.
    apply published_sound in Hp as [->|(o1 & Ho1 & _ & _ & ->)]; [left; by exists o'|].
    rewrite Ho in Ho1. injection Ho1 as <-.
    cbn in Ho'. apply lookup_insert_Some in Ho' as [[<- <-]|[_ Ho']]; [right|left; by exists o'].
    destruct (Hsent eq_refl) as (m & Hm & Hin). exists m. split; [|done].
    transitivity (message o); [done|congruence].
  - destruct (Outbox_Retry _ _ d) as [d1 b] eqn:Hr. injection Hset as _ <-.
    eapply soundly_moved; [exact Hs|by eapply SRetry|]. intros e o' Ho' Hpub. left.
    by eapply retry_publishes_nothing.
Qed.

Lemma relays_step_sound x x' : announced_soundly x → relays_step x x' → announced_soundly x'.
Proof.
  intros Hs Hst. destruct Hst; eauto using claim_soundly, send_soundly, soundly_stopped, settle_soundly.
  eapply soundly_moved; [exact Hs|by apply SService|]. intros e o' Ho' Hp. left.
  by eapply service_publishes_nothing.
Qed.

Lemma relays_steps_sound x y : rtc relays_step x y → announced_soundly x → announced_soundly y.
Proof. induction 1 as [|x y z Hxy _ IH]; [done|]. intros Hx. by eapply IH, relays_step_sound. Qed.

Lemma relay_reachable_sound x :
  relay_reachable x → ∃ ph, announced_soundly (mkRelays x.1 x.2 ph).
Proof.
  intros [ph Hr]. exists ph. eapply relays_steps_sound; [exact Hr|].
  split; cbn; [apply user_Inv_empty| |by intros m ?%elem_of_nil|apply map_Forall_empty].
  intros e o Ho. change (user_created_outbox empty_db) with (∅ : gmap string UserCreatedOutbox) in Ho.
  by rewrite lookup_empty in Ho.
Qed.

(** A drain is one relay going through its phases. *)
Lemma drain_one_relays eligible t d log ph :
  rtc relays_step (mkRelays d log ph)
    (mkRelays (drain_one eligible t d log).1.2 (drain_one eligible t d log).2 ph).
Proof.
  unfold drain_one. destruct (tn_claimed t); [cbn [negb]|done].
  destruct (claim_cases (tn_token t) eligible (tn_now t + claimLease) d) as [[-> _]|(e & o & Ho & Hc & Hcl)]; [done|].
  rewrite Hcl. destruct (send t _ log) as [sent log'] eqn:Hsend. destruct (settle t _ sent _) as [more d2] eqn:Hset.
  set (k := fresh (dom ph)). assert (ph !! k = None) as Hk by apply not_elem_of_dom, is_fresh.
  eapply rtc_l; [eapply (RClaim k); [exact Hk|exact Hcl]|].
  eapply rtc_l; [eapply (RSend k); [apply lookup_insert_eq|exact Hsend]|].
  eapply rtc_l; [eapply (RSettle k); [apply lookup_insert_eq|exact Hset]|].
  rewrite delete_insert_eq, delete_insert_id by done. done.
Qed.

Lemma drain_relays eligible turns d log ph :
  let x := drain eligible turns d log in rtc relays_step (mkRelays d log ph) (mkRelays x.1 x.2 ph).
Proof.
  cbn zeta. revert d log. induction turns as [|t turns IH]; intros d log; [done|]. simpl.
  pose proof (drain_one_relays eligible t d log ph) as Ht.
  destruct (drain_one eligible t d log) as [[go d1] log1]. cbn [fst snd] in *.
  etrans; [exact Ht|]. by destruct go.
Qed.

(** The service before any relay runs. *)
Lemma service_relays d : rtc (service_step cfg) empty_db d → relay_reachable (d, []).
Proof.
  intros Hs. exists ∅. cbn. eapply (rtc_congruence (λ d, mkRelays d [] ∅)); [|exact Hs]. intros ??. apply RService.
Qed.

(** C38: What is published was announced, and announced truly. With any number of
    relays beside the service, each anywhere between claiming, publishing and
    settling: a fact is marked published only if the broker accepted its message;
    every accepted message names a user by canonical identifier,
    with the address and time it registered with; a user's messages are all the same
    one; and every user but the one bootstrap created has a fact that has a message.
    A drain is a run of such a relay. *)
Theorem registrations_announced d log :
  relay_reachable (d, log) →
  (∀ e o, user_created_outbox d !! e = Some o → is_Some (ob_PublishedAt o) → ∃ m, message o = Some m ∧ m ∈ log)
  ∧ (∀ m, m ∈ log → uuid_parse (uc_UserId m) = Some (uc_UserId m)
       ∧ ∃ u, users d !! uc_UserId m = Some u ∧ uc_Email m = u_Email u ∧ uc_CreatedAt m = u_CreatedAt u)
  ∧ (∀ m m', m ∈ log → m' ∈ log → uc_UserId m = uc_UserId m' → m = m')
  ∧ (∀ i, is_Some (users d !! i) → first_admin (admin_bootstrap d) ≠ Some i →
       ∃ e o m, user_created_outbox d !! e = Some o ∧ message o = Some m ∧ uc_UserId m = i)
  ∧ ∀ eligible turns, relay_reachable (drain eligible turns d log).
Proof.
  intros Hr. destruct (relay_reachable_sound _ Hr) as (ph & [Hd Hp Hs _]).
  cbn [fst snd rl_db rl_log] in *. destruct (iv_facts _ Hd) as [Hrows Huniq].
  assert (∀ o m, message o = Some m → uc_UserId m = ob_UserID o ∧ uc_Email m = ob_Email o ∧ uc_CreatedAt m = ob_UserCreatedAt o) as Hmsg.
  { intros o m Hm. unfold message, encode in Hm. destruct (_ && _ && _); [|done]. by injection Hm as <-. }
  split_and!.
  - intros e o Ho Hpub. destruct (Hp e o Ho Hpub) as (o' & m & Ho' & _ & Hm & Hin). exists m. by simplify_eq.
  - intros m (e & o & Ho & Hm)%Hs. destruct (Hmsg o m Hm) as (-> & -> & ->).
    destruct (Hrows e o Ho) as (_ & (u & Hu & ? & ?) & _). split; [|by exists u].
    by destruct (proj1 (iv_users _ Hd) _ _ Hu) as (_ & _ & [? _] & _).
  - intros m m' (e & o & Ho & Hm)%Hs (e' & o' & Ho' & Hm')%Hs Heq.
    destruct (Hmsg o m Hm) as (Hid & _), (Hmsg o' m' Hm') as (Hid' & _).
    assert (e = e') as <- by (eapply Huniq; [exact Ho|exact Ho'|done|congruence]). congruence.
  - intros i Hi Hne. destruct (iv_announced _ Hd i Hi) as [?|(e & o & Ho & <-)]; [done|].
    destruct (fact_message _ _ _ Hd Ho) as [_ [m Hm]]. exists e, o, m. split_and!; [done..|]. by destruct (Hmsg o m Hm).
  - intros eligible turns. destruct Hr as [ph' Hr]. exists ph'. etrans; [exact Hr|apply drain_relays].
Qed.
End relay.

(** ** The theorems at the states of a run *)

From S2P Require Import UserExamples.

Lemma drain_publishes_waiting_witness : delivered (ident "e004") drained.1 drained.2.
Proof.
  destruct (user_created_outbox d_removed !! ident "e004") as [o|] eqn:Ho; [|vm_compute in Ho; discriminate].
  assert (claimable (start + 600 * Second) <$> user_created_outbox d_removed !! ident "e004" = Some true) as Hc
    by (vm_compute; reflexivity).
  rewrite Ho in Hc. injection Hc as Hc.
  apply (drain_publishes_waiting conf (start + 600 * Second) [turn "1"; turn "2"; turn "3"] d_removed [] (ident "e004") o);
    [apply d_removed_reachable| |vm_compute; discriminate|exact Ho|exact Hc].
  repeat constructor; vm_compute; discriminate.
Defined.

Lemma d_removed_relays : relay_reachable conf (d_removed, []).
Proof. apply service_relays, d_removed_served. Qed.

Lemma registrations_announced_witness :
  ∃ m u, m ∈ drained.2 ∧ users drained.1 !! uc_UserId m = Some u ∧ uc_Email m = u_Email u.
Proof.
  destruct (registrations_announced conf d_removed [] d_removed_relays) as (_ & _ & _ & _ & Hdrain).
  pose proof (Hdrain (start + 600 * Second) [turn "1"; turn "2"; turn "3"]) as Hr. fold drained in Hr.
  rewrite (surjective_pairing drained) in Hr.
  destruct (registrations_announced conf drained.1 drained.2 Hr) as (_ & Hm & _).
  destruct drained.2 as [|m l] eqn:Hl; [vm_compute in Hl; discriminate|].
  destruct (Hm m) as (_ & u & Hu & He & _); [by left|]. exists m, u. split_and!; [by left|done..].
Defined.
