(* ===== verification/UserProperties.v ===== *)
(** * User: roles, reviews and the history of the database

    What every reachable state satisfies: roles are explained by the audit trail,
    the statistics of a user are those of the live reviews, nothing that was
    recorded changes, and the pages of a listing are complete; at the end the policy
    of roles. *)
From stdpp Require Import prelude gmap strings list sorting relations.
From Stdlib Require Import ZArith Lia SpecFloat.
From S2P Require Import Prelude.
From S2P Require Import GoLib.
From S2P Require Import GoText.
From S2P Require Import GoFloat.
From S2P Require Import GoMail.
From S2P Require Import UserTypes.
From S2P Require Import UserDB.
From S2P Require Import UserStore.
From S2P Require Import UserAuth.
From S2P Require Import UserAccounts.
From S2P Require Import UserReviews.
From S2P Require Import UserRuns.
From S2P Require Import UserSteps.
From S2P Require Import UserInvariant.
From S2P Require Import UserKeeps.

Local Open Scope Z_scope.
Local Open Scope foc_scope.

(** ** Lists *)

Lemma lsum_bounds {A} (f : A → Z) (lo hi : Z) l :
  (∀ x, x ∈ l → lo <= f x <= hi) → lo * Z.of_nat (length l) <= lsum f l <= hi * Z.of_nat (length l).
Proof.
  induction l as [|x l IH]; intros Hl; simpl; [lia|].
  pose proof (Hl x ltac:(by left)). destruct IH; [intros y Hy; apply Hl; by right|]. lia.
Qed.

(** Rows that differ in a column have no column twice. *)
Lemma NoDup_column {A B} `{EqDecision B} (f : A → B) (m : gmap string A) (p : A → bool) :
  (∀ i j x y, m !! i = Some x → m !! j = Some y → p x = true → p y = true → f x = f y → i = j) →
  NoDup (f <$> filter (λ x, p x = true) (snd <$> map_to_list m)).
Proof.
  intros Hu. pose proof (NoDup_map_to_list m) as Hnd.
  assert (∀ i x, (i, x) ∈ map_to_list m → m !! i = Some x) as Hm by by intros ? ? ?%elem_of_map_to_list.
  revert Hnd Hm. induction (map_to_list m) as [|[i x] l IH]; intros Hnd Hm; [constructor|].
  apply NoDup_cons in Hnd as [Hin Hnd]. assert (m !! i = Some x) as Hi by (apply Hm; by left).
  specialize (IH Hnd ltac:(intros j y ?; apply Hm; by right)). rewrite fmap_cons. simpl.
  destruct (p x) eqn:Hp; [rewrite filter_cons_True by done|by rewrite filter_cons_False by congruence].
  rewrite fmap_cons. constructor; [|done].
  intros (y & Hf & [Hy ([j z] & -> & Hj)%list_elem_of_fmap]%list_elem_of_filter)%list_elem_of_fmap.
  assert (i = j) as <- by (eapply Hu; [exact Hi|by apply Hm; right|done|done|done]).
  assert (z = x) as -> by (assert (m !! i = Some z) by (apply Hm; by right); congruence). done.
Qed.

Lemma omap_total {A B C} (f : A → option B) (g : B → C) (h : A → C) (l : list A) :
  (∀ x, x ∈ l → ∃ y, f x = Some y ∧ g y = h x) → g <$> omap f l = h <$> l.
Proof.
  induction l as [|x l IH]; intros Hl; [done|]. destruct (Hl x ltac:(by left)) as (y & Hf & Hg).
  cbn. rewrite Hf. cbn. f_equal; [done|]. apply IH. intros z Hz. apply Hl. by right.
Qed.

Section properties.
  Context `{UUID, Digest, CIText, UnicodeLower, Codec, PhoneNumbers}.
  Context (cfg : Config).

(** ** Roles *)

(** C17: Roles are explained by the audit trail. In every reachable state the role of
    a user is the one to which the recorded changes lead from the role it started
    with; every change was made by another user whose role, by the trail before it,
    permitted it, or is the promotion of the first administrator; and the only super
    administrator is the one that bootstrap recorded, who stays live. Changing roles,
    whatever others do before the conditional update, and bootstrap stay within
    these states, whoever calls and whatever fails. *)
Theorem roles_explained d :
  reachable cfg d →
  (∀ i u, users d !! i = Some u → traced (admin_bootstrap d) (role_changes d) i (u_Role u)
     ∧ (u_Role u = RoleSuperAdmin ↔ first_admin (admin_bootstrap d) = Some i))
  ∧ (∀ i, first_admin (admin_bootstrap d) = Some i → ∃ u, users d !! i = Some u ∧ u_DeletedAt u = None)
  ∧ (∀ l1 c l2, role_changes d = l1 ++ c :: l2 → authorised (admin_bootstrap d) l1 c)
  ∧ (∀ env fl_reads fl m actor target to reason, others cfg m → keeps_row actor m →
       reachable cfg (ChangeUserRole env fl_reads fl m actor target to reason d).2)
  ∧ ∀ env fl email name, sound_env env → reachable cfg (Bootstrap_Run env fl email name d).2.
Proof.
  intros Hd. pose proof (user_reachable_Inv _ _ Hd) as [Ht Hs Hf _ Ha]%iv_roles.
  split_and!; [|intros i (u & ? & _ & ?)%Hf; by exists u|done| |].
  - intros i u Hu. split; [by apply Ht|]. split; [by apply Hs|]. intros (w & Hw & Hr & _)%Hf. congruence.
  - intros. eapply reachable_steps; [exact Hd|]. by eapply ChangeUserRole_steps.
  - intros. eapply reachable_steps; [exact Hd|]. by eapply Bootstrap_steps.
Qed.

(** ** Reviews *)

Lemma received_rows d user v :
  v ∈ reviews_where (received user) d ↔ ∃ i, reviews d !! i = Some v ∧ received user v = true.
Proof.
  unfold reviews_where. rewrite list_elem_of_filter, elem_of_rows. split; [intros [? [i ?]]|intros (i & ? & ?)]; eauto.
Qed.

Lemma received_true user v : received user v = true ↔ v_RevieweeID v = user ∧ v_DeletedAt v = None.
Proof. unfold received. by rewrite andb_true_iff, same_true, negb_is_some. Qed.

(** C23: The statistics of a user are exact. In every reachable state its review count
    and average rating are those of the live reviews that it received, of which there
    is at most one per order, by someone else, with 1 to 5 stars; and a review is
    deleted exactly when one removal records it. *)
Theorem review_statistics_exact d i u :
  reachable cfg d → users d !! i = Some u →
  let l := reviews_where (received i) d in
  let count := Z.of_nat (length l) in
  (u_ReviewCount u = count ∧ u_AvgRating u = stats_average count (lsum v_Rating l)
   ∧ count <= lsum v_Rating l <= 5 * count)
  ∧ NoDup (v_OrderID <$> l)
  ∧ (∀ v, v ∈ l → v_ReviewerID v ≠ i ∧ is_Some (users d !! v_ReviewerID v))
  ∧ ∀ j v, reviews d !! j = Some v →
      (is_Some (v_DeletedAt v) ↔ ∃ k r, review_removals d !! k = Some r ∧ vr_ReviewID r = j).
Proof.
  intros Hd%user_reachable_Inv Hu l count. pose proof (iv_ratings _ Hd i u Hu) as [Hc Ha].
  rewrite <- (RevieweeStatistics_stats i d) in Hc, Ha. destruct (iv_reviews _ Hd) as [Hrows _ Huniq].
  split_and!; [done|done| | | | |].
  1,2: destruct (lsum_bounds v_Rating 1 5 l) as [H1' H5']; [|lia];
    intros v (j & Hj & _)%received_rows; destruct (Hrows j v Hj) as (_ & [Hr _]%andb_prop & _);
    unfold within in Hr; lia.
  - apply NoDup_column. intros j k v w Hj Hk [Hv _]%received_true [Hw _]%received_true Ho.
    eapply Huniq; [exact Hj|exact Hk|done|]. by rewrite Ho, Hv, Hw.
  - intros v (j & Hj & [<- _]%received_true)%received_rows. by destruct (Hrows j v Hj) as (_ & _ & ? & ? & _).
  - destruct (iv_removals _ Hd) as [Hrm Hrd _]. intros j v Hj. split; [by apply Hrd|].
    intros (k & r & Hk & <-). destruct (Hrm k r Hk) as [_ (w & Hw & ?)]. congruence.
Qed.

(** ** History *)

(** What is recorded stays. Between reachable states users, links, sessions, facts
    and reviews never disappear nor change what identifies them; used, revoked,
    published and deleted columns are set once; role changes are only appended,
    removals only added; the first administrator never changes and no super
    administrator is ever demoted. *)
Theorem user_history d d' : reachable cfg d → steps cfg d d' → history d d'.
Proof. intros Hd Hs. by apply (user_steps_Inv cfg d d'); [eapply user_reachable_Inv|]. Qed.

(** ** Pages *)

Lemma New_page (i size : nat) :
  (1 ≤ size)%nat → Z.of_nat size <= 100 → Z.of_nat i < 2 ^ 31 →
  pagination.New (Z.of_nat i + 1) (Z.of_nat size)
  = Ok {| pagination.page := Z.of_nat i + 1; pagination.pageSize := Z.of_nat size |}.
Proof.
  intros Hs Hm Hi. unfold pagination.New, pagination.maxPageSize.
  rewrite (proj2 (Z.leb_gt _ 0)), (proj2 (Z.leb_gt (Z.of_nat size) 0)), (proj2 (Z.ltb_ge _ _)) by lia.
  rewrite sub64_id by int64_lia.
  assert (Z.of_nat i <= Z.quot max_int64 (Z.of_nat size)) as Hq.
  { rewrite Z.quot_div_nonneg by (unfold max_int64; lia). apply Z.div_le_lower_bound; unfold max_int64; nia. }
  rewrite (proj2 (Z.ltb_ge _ _)) by lia. done.
Qed.

Lemma NewPageInfo_ceiling p size total :
  0 < size → 0 <= total < 2 ^ 31 → size <= 100 →
  pagination.pi_totalPages (pagination.NewPageInfo p size total) = (total + size - 1) / size.
Proof.
  intros Hs Ht Hm. simpl. destruct (Z.ltb_spec 0 size); [|lia]. destruct (Z.ltb_spec 0 total); simpl.
  - rewrite sub64_id by int64_lia. rewrite Z.quot_div_nonneg by lia.
    pose proof (Z.div_le_upper_bound (total - 1) size (2 ^ 31) Hs ltac:(nia)).
    pose proof (Z.div_pos (total - 1) size ltac:(lia) Hs).
    rewrite add64_id by int64_lia. rewrite <- Z.div_add by lia. f_equal. lia.
  - assert (total = 0) as -> by lia. rewrite Z.div_small; lia.
Qed.

(** The page number [i], from 0, of the reviews that a user received. *)
Definition review_rows (user : string) (d : UDB) : list (Review * string * string) :=
  omap (named_review d) (merge_sort newest_review (reviews_where (received user) d)).
Definition review_page (user : string) (size : nat) (d : UDB) (i : nat)
    : list (Review * string * string) * pagination.PageInfo :=
  (take size (drop (i * size) (review_rows user d)),
   pagination.NewPageInfo (Z.of_nat i + 1) (Z.of_nat size) (CountReviews (received user) d)).

Lemma list_reviews_page user (size i : nat) env d :
  (1 ≤ size)%nat → Z.of_nat size <= 100 → Z.of_nat i < 2 ^ 31 →
  ListReviewsForUser user {| pagination.page := Z.of_nat i + 1; pagination.pageSize := Z.of_nat size |}
    env no_faults no_faults (λ d, d) d
  = Ok (review_page user size d i).
Proof.
  intros Hs Hm Hi. unfold ListReviewsForUser, listing. rewrite !WithTransaction_no_faults. simpl.
  unfold review_page, ListReviews, page_of, review_rows.
  unfold pagination.Offset. simpl. rewrite sub64_id by int64_lia. rewrite mul64_id by (unfold is_int64, min_int64, max_int64; nia).
  rewrite Nat2Z.id. replace (Z.to_nat _) with (i * size)%nat by lia. done.
Qed.

#[export] Instance newest_review_total : Total newest_review.
Proof.
  intros v w. unfold newest_review. pose proof (total string_le (v_ID v) (v_ID w)).
  destruct (Z.lt_total (v_CreatedAt v) (v_CreatedAt w)) as [? | [? | ?]]; intuition.
Qed.

(** The pages of a user's reviews are complete. For any page size up to the
    maximum, pages 1 to TotalPages of an unchanged state together list each live review that the user
    received exactly once, newest first, with the names of both users. *)
Theorem review_pages_complete env c raw user (size : nat) d :
  reachable cfg d → request_id raw = Some user →
  caller_suspended c = false ∨ uuid_parse (ca_ID c) = Some user →
  (1 ≤ size)%nat → Z.of_nat size <= 100 → CountReviews (received user) d < 2 ^ 31 →
  ∃ pages : list (list (Review * string * string) * pagination.PageInfo),
    (∀ i page, pages !! i = Some page →
       rpc_ListReviewsForUser env no_faults no_faults (λ d, d) c raw (Some (Z.of_nat i + 1, Z.of_nat size)) d = Ok page
       ∧ pagination.pi_totalPages page.2 = Z.of_nat (length pages))
    ∧ fst ∘ fst <$> concat (fst <$> pages) ≡ₚ reviews_where (received user) d
    ∧ Sorted newest_review (fst ∘ fst <$> concat (fst <$> pages))
    ∧ ∀ v a b, (v, a, b) ∈ concat (fst <$> pages) → ∃ r w, users d !! v_ReviewerID v = Some r
        ∧ users d !! user = Some w ∧ a = u_DisplayName r ∧ b = u_DisplayName w.
Proof.
  intros Hd%user_reachable_Inv Hraw Hgate Hs Hm Hcount.
  set (total := CountReviews (received user) d) in *. assert (0 <= total) as H0' by (unfold total, CountReviews; lia).
  destruct (pages_cover total (Z.of_nat size)) as [Hcover Hle]; [lia..|].
  set (n := Z.to_nat ((total + Z.of_nat size - 1) / Z.of_nat size)).
  assert (Z.of_nat n = (total + Z.of_nat size - 1) / Z.of_nat size) as Hn by (apply Z2Nat.id, Z.div_pos; lia).
  rewrite <- Hn in Hcover, Hle.
  assert (fst ∘ fst <$> review_rows user d = merge_sort newest_review (reviews_where (received user) d)) as Hall.
  { unfold review_rows. rewrite <- (list_fmap_id (merge_sort _ _)) at 2. apply omap_total.
    intros v Hv. rewrite merge_sort_Permutation in Hv. apply received_rows in Hv as (i & Hi & _).
    destruct (re_rows _ _ (iv_reviews _ Hd) i v Hi) as (_ & _ & _ & [r Hr] & [w Hw]).
    unfold named_review. rewrite Hr, Hw. by eexists. }
  assert (concat (fst <$> (review_page user size d <$> seq 0 n)) = review_rows user d) as Hconcat.
  { rewrite <- list_fmap_compose.
    change (fst ∘ review_page user size d) with (λ i, take size (drop (i * size) (review_rows user d))).
    rewrite concat_chunks, take_ge; [done|].
    rewrite <- (length_fmap (fst ∘ fst)), Hall, merge_sort_Permutation. unfold total, CountReviews in Hcover. lia. }
  exists (review_page user size d <$> seq 0 n). rewrite Hconcat, Hall.
  split_and!; [|apply merge_sort_Permutation|apply Sorted_merge_sort, _|].
  - intros i page (j & -> & [-> Hj]%lookup_seq)%list_lookup_fmap_Some. rewrite length_fmap, length_seq.
    split; [|rewrite Hn; apply (NewPageInfo_ceiling (Z.of_nat i + 1)); lia].
    unfold rpc_ListReviewsForUser. rewrite Hraw.
    transitivity (authorizeSelfReviews c user ≫= λ _, newPage (Some (Z.of_nat i + 1, Z.of_nat size)) ≫= λ pg,
      ListReviewsForUser user pg env no_faults no_faults (λ d, d) d); [done|].
    unfold authorizeSelfReviews, newPage. rewrite New_page by lia.
    replace (negb (caller_suspended c) || _) with true; [by apply list_reviews_page; lia|].
    destruct Hgate as [-> | Hself]; [done|]. by rewrite Hself, same_refl, orb_true_r.
  - intros v a b (v' & Hv & Hnm)%list_elem_of_omap. rewrite merge_sort_Permutation in Hv.
    apply received_rows in Hv as (_ & _ & [<- _]%received_true). unfold named_review in Hnm.
    destruct (users d !! v_ReviewerID v') as [r|] eqn:Hr; [|done]. simpl in Hnm.
    destruct (users d !! v_RevieweeID v') as [w|] eqn:Hw; [|done]. injection Hnm as <- <- <-. by exists r, w.
Qed.
End properties.

(** ** The theorems at the states of a run *)

From S2P Require Import UserExamples.

Lemma roles_explained_witness :
  traced (admin_bootstrap d_role) (role_changes d_role) bob RoleAdmin
  ∧ length (role_changes d_role) = 1%nat ∧ first_admin (admin_bootstrap d_role) = Some root.
Proof.
  destruct (users d_role !! bob) as [u|] eqn:Hu; [|vm_compute in Hu; discriminate].
  destruct (roles_explained conf d_role d_role_reachable) as [Hr _]. destruct (Hr bob u Hu) as [Ht _].
  assert (u_Role <$> users d_role !! bob = Some RoleAdmin) as Ha by (vm_compute; reflexivity).
  rewrite Hu in Ha. injection Ha as Ha. rewrite Ha in Ht.
  split; [exact Ht|]. split; vm_compute; reflexivity.
Defined.

(** Alice keeps the 5 stars of Bob; her review of him is removed. *)
Lemma review_statistics_exact_witness :
  (∃ u, users d_removed !! alice = Some u ∧ u_ReviewCount u = 1 ∧ u_AvgRating u = stats_average 1 5)
  ∧ ∃ u, users d_removed !! bob = Some u ∧ u_ReviewCount u = 0.
Proof.
  assert (length (reviews_where (received alice) d_removed) = 1%nat) as Hl by (vm_compute; reflexivity).
  assert (lsum v_Rating (reviews_where (received alice) d_removed) = 5) as Hs by (vm_compute; reflexivity).
  assert (length (reviews_where (received bob) d_removed) = 0%nat) as Hb by (vm_compute; reflexivity).
  destruct (users d_removed !! alice) as [u|] eqn:Hu; [|vm_compute in Hu; discriminate].
  destruct (users d_removed !! bob) as [w|] eqn:Hw; [|vm_compute in Hw; discriminate].
  destruct (review_statistics_exact conf d_removed alice u d_removed_reachable Hu) as [(Hc & Hr & _) _].
  destruct (review_statistics_exact conf d_removed bob w d_removed_reachable Hw) as [(Hc' & _) _].
  rewrite Hl, Hs in Hr. rewrite Hl in Hc. rewrite Hb in Hc'.
  split; [exists u; split; [reflexivity|split; [exact Hc|exact Hr]]|exists w; split; [reflexivity|exact Hc']].
Defined.

Lemma user_history_witness : ∃ s s', sessions d_login !! ident "c008" = Some s
  ∧ sessions d_role !! ident "c008" = Some s' ∧ session_later s s' ∧ s_RevokedAt s = None ∧ s_RevokedAt s' ≠ None.
Proof.
  destruct (sessions d_login !! ident "c008") as [s|] eqn:Hs; [|vm_compute in Hs; discriminate].
  destruct (user_history conf d_login d_role d_login_reachable d_login_to_role) as [_ _ Hses _ _ _ _ _].
  destruct (Hses (ident "c008") s Hs) as (s' & Hs' & Hl). exists s, s'.
  split; [reflexivity|]. split; [exact Hs'|]. split; [exact Hl|].
  assert ((s_RevokedAt <$> sessions d_login !! ident "c008") = Some None) as Hr by (vm_compute; reflexivity).
  assert ((is_some ∘ s_RevokedAt <$> sessions d_role !! ident "c008") = Some true) as Hr' by (vm_compute; reflexivity).
  rewrite Hs in Hr. rewrite Hs' in Hr'. injection Hr as Hr. injection Hr' as Hr'. split; [exact Hr|].
  destruct (s_RevokedAt s'); discriminate.
Defined.

Lemma review_pages_complete_witness :
  ∃ pages : list (list (Review * string * string) * pagination.PageInfo),
    fst ∘ fst <$> concat (fst <$> pages) ≡ₚ reviews_where (received alice) d_removed
    ∧ length (reviews_where (received alice) d_removed) = 1%nat.
Proof.
  destruct (review_pages_complete conf (at_ "f" 15 530)
      {| ca_ID := bob; ca_SessionID := EmptyString; ca_Role := ClaimAdmin; ca_Admin := true |} alice alice 2 d_removed)
    as (pages & _ & Hp & _);
    [exact d_removed_reachable|vm_compute; reflexivity|left; reflexivity|lia|lia|vm_compute; reflexivity|].
  exists pages. split; [exact Hp|vm_compute; reflexivity].
Defined.

(** * The policy of roles

    ChangeUserRole succeeds exactly when the policy permits the move, and then
    changes the role and the trail and nothing else. *)

Section roles.
  Context `{UUID, Digest, CIText, UnicodeLower, Codec, PhoneNumbers}.
  Context (cfg : Config).

Definition reason_of (reason : string) : option string := if nonempty reason then Some reason else None.

Lemma Users_GetByID_ok id env d u :
  users d !! id = Some u → u_DeletedAt u = None → Users_GetByID id env d = Ok (u, d).
Proof.
  intros Hu Hl. unfold Users_GetByID, get_user, live, gets, require, mbind, st_mbind. rewrite Hu. simpl. by rewrite Hl.
Qed.

Lemma role_reads_ok actor target to reason env d a w :
  users d !! actor = Some a → u_DeletedAt a = None → users d !! target = Some w → u_DeletedAt w = None →
  actor ≠ target → permitted (u_Role a) (u_Role w) to (reason_of reason) →
  ∃ c, role_reads actor target to reason env d = Ok ((w, c), d)
    ∧ rc_UserID c = target ∧ rc_FromRole c = u_Role w ∧ rc_ToRole c = to ∧ rc_Reason c = reason_of reason
    ∧ rc_CreatedBy c = Some actor.
Proof.
  intros Ha Hal Hw Hwl Hne Hp. assert (assignable to = true) as Hto by apply Hp.
  apply permitted_checks in Hp as (H1' & H2' & H3' & H4'); [|done].
  unfold role_reads, Users_GetByIDForUpdate, reporting, mbind, st_mbind.
  rewrite (Users_GetByID_ok _ _ _ _ Ha Hal). simpl. rewrite H1'. simpl. rewrite (proj2 (same_false _ _)) by done. simpl.
  rewrite (Users_GetByID_ok _ _ _ _ Hw Hwl). simpl. rewrite H2'. simpl. rewrite H3'. simpl. rewrite H4'.
  eexists. split; [reflexivity|done].
Qed.
(** The state after a change. *)
Definition with_change (env : Env) (c : RoleChange) (w : User) (d : UDB) : UDB :=
  put_user (rc_UserID c) (changed_user c (gorm_now env) w) d
    <| role_changes := role_changes d ++ [stored_role_change (created_change env c)] |>.

Lemma role_write_ok env c w actor d :
  users_ok (users d) → users d !! rc_UserID c = Some w → u_DeletedAt w = None → u_Role w = rc_FromRole c →
  Valid (rc_ToRole c) = true → rc_CreatedBy c = Some actor → is_Some (users d !! actor) →
  opt_text_ok (rc_Reason c) = true → role_changes_check c = true → new_id env ForChange ∉ rc_ID <$> role_changes d →
  role_write w c env d
  = Ok (w <| u_Role := rc_ToRole c |> <| u_UpdatedAt := gorm_now env |>, with_change env c w d).
Proof.
  intros Hok Hw Hl Hf Hv Hby [a Ha] Htx Hc Hn. destruct (users_row _ _ _ Hok Hw) as (Hvw & Hch & Htxt).
  unfold role_write, Admin_ChangeRole, reporting, exec, exec_unit, update_user, get_user, live, ask, mbind, st_mbind.
  rewrite Hw. simpl. rewrite Hl. simpl. rewrite Hf, same_refl. simpl.
  change (users_text (written_user _)) with (users_text w). change (users_check (written_user _)) with (users_check w).
  rewrite Htxt, Hch. simpl. rewrite Hv, Hby. simpl. rewrite Ha. simpl.
  unfold insert_role_change, exec. simpl. rewrite Htx. simpl.
  change (role_changes_check (created_change env c)) with (role_changes_check c). rewrite Hc. simpl.
  rewrite bool_decide_eq_true_2 by done. simpl. rewrite lookup_insert_eq, Hby. simpl.
  rewrite <- Hf, Hvw, Hv. simpl. assert (is_some (<[rc_UserID c := changed_user c (gorm_now env) w]> (users d) !! actor) = true) as Hact.
  { destruct (decide (rc_UserID c = actor)) as [->|]; [by rewrite lookup_insert_eq|by rewrite lookup_insert_ne, Ha]. }
  unfold changed_user in Hact. rewrite Hby in Hact. simpl in Hact. rewrite Hact. simpl.
  unfold with_change, changed_user. by rewrite Hby.
Qed.

(** A permitted change, with a trimmed reason of 2000 characters at most, passes
    the checks of role_changes. *)
Lemma permitted_recordable ra c why :
  permitted ra (rc_FromRole c) (rc_ToRole c) (rc_Reason c) → rc_Reason c = reason_of (TrimSpace why) →
  RuneCountInString (TrimSpace why) <= 2000 → role_changes_check c = true ∧ Valid (rc_ToRole c) = true.
Proof.
  intros (_ & Has & Hne & _ & _ & Hsus) Hr Hlen. split.
  2: { unfold assignable in Has. by apply orb_true_iff in Has as [[->%same_eq| ->%same_eq]%orb_true_iff| ->%same_eq]. }
  unfold role_changes_check. rewrite Hr in *. unfold reason_of in *.
  rewrite (proj2 (same_false (rc_FromRole c) (rc_ToRole c))) by done.
  assert (rc_FromRole c = RoleSuspended ∨ rc_ToRole c = RoleSuspended → nonempty (TrimSpace why) = true) as Hs.
  { intros Hc. specialize (Hsus Hc). by destruct (nonempty (TrimSpace why)). }
  assert (nonempty (TrimSpace why) = true → 0 < char_length (btrim (TrimSpace why))) as Hb.
  { intros Hn. rewrite btrim_TrimSpace. apply segments_nonempty. intros Heq. by rewrite Heq in Hn. }
  destruct (nonempty (TrimSpace why)); simpl.
  - rewrite (proj2 (Z.leb_le _ _)) by done. rewrite (proj2 (Z.ltb_lt _ _)) by auto. by rewrite orb_true_r.
  - destruct (decide (rc_FromRole c = RoleSuspended)) as [?|H1']; [exfalso; by discriminate Hs; auto|].
    destruct (decide (rc_ToRole c = RoleSuspended)) as [?|H2']; [exfalso; by discriminate Hs; auto|].
    by rewrite !(proj2 (same_false _ _)).
Qed.
Section policy.
  Context (env : Env) (actor target : string) (to : RoleName) (reason : string) (d : UDB).

(** Without faults, and with no other call in between. *)
Definition change_alone : result Error User * UDB :=
  ChangeUserRole env no_faults no_faults (λ d, d) actor target to reason d.

(** What the policy asks for. *)
Definition allowed_change (a w : User) : Prop :=
  RuneCountInString (TrimSpace reason) <= 2000 ∧ actor ≠ target
  ∧ users d !! actor = Some a ∧ u_DeletedAt a = None ∧ users d !! target = Some w ∧ u_DeletedAt w = None
  ∧ permitted (u_Role a) (u_Role w) to (reason_of (TrimSpace reason)).

(** The entry of the trail. *)
Definition records_change (w : User) (c : RoleChange) : Prop :=
  rc_UserID c = target ∧ rc_FromRole c = u_Role w ∧ rc_ToRole c = to
  ∧ rc_Reason c = reason_of (TrimSpace reason) ∧ rc_CreatedBy c = Some actor.

Lemma change_alone_ok a w :
  users_ok (users d) → actor ≠ uuid_nil → target ≠ uuid_nil → no_nul (TrimSpace reason) = true →
  new_id env ForChange ∉ rc_ID <$> role_changes d → allowed_change a w →
  ∃ c, records_change w c
    ∧ change_alone = (Ok (w <| u_Role := to |> <| u_UpdatedAt := gorm_now env |>), with_change env c w d).
Proof.
  intros Hok Hna Hnt Htx Hfresh (Hlen & Hne & Ha & Hal & Hw & Hwl & Hp).
  destruct (role_reads_ok _ _ _ _ env _ _ _ Ha Hal Hw Hwl Hne Hp) as (c & Hr & Hid & Hf & Hto & Hrs & Hby).
  rewrite <- Hf, <- Hto, <- Hrs in Hp. destruct (permitted_recordable _ _ _ Hp Hrs Hlen) as [Hchk Hv].
  assert (opt_text_ok (rc_Reason c) = true).
  { rewrite Hrs. unfold reason_of. by destruct (nonempty (TrimSpace reason)). }
  exists c. split; [by split_and!|]. unfold change_alone, ChangeUserRole.
  rewrite !(proj2 (same_false _ _)) by done. destruct Hp as (_ & Has & _). rewrite <- Hto, Has. simpl.
  rewrite (proj2 (Z.ltb_ge _ _)) by done. rewrite WithTransaction_no_faults, Hto, Hr. simpl.
  rewrite WithTransaction_no_faults. pose proof (role_write_ok env c w actor d) as Hwr. rewrite Hto, Hid, Hf in Hwr.
  rewrite Hwr; first [done | congruence | by exists a].
Qed.

Lemma change_alone_only u : change_alone.1 = Ok u → ∃ a w, allowed_change a w.
Proof.
  unfold change_alone, ChangeUserRole. destruct (same actor uuid_nil); [done|].
  destruct (same target uuid_nil || negb (assignable to)) eqn:Has; [done|].
  apply orb_false_iff in Has as [_ Has%negb_false_iff]. destruct (2000 <? _) eqn:Hlen; [done|]. apply Z.ltb_ge in Hlen.
  destruct (WithTransaction env no_faults (role_reads _ _ _ _) d).1 as [[w c]|] eqn:Hr; [|done]. intros _.
  apply WithTransaction_ok, role_reads_run in Hr
    as (_ & Hne & Hid & Hby & Hto & Hw & Hwl & Hf & Hrs & a & Ha & Hal & Hp); [|done].
  exists a, w. split_and!; try done. by rewrite <- Hf; unfold reason_of; rewrite <- Hrs.
Qed.

Lemma change_alone_failed e : change_alone.1 = Err e → change_alone.2 = d.
Proof.
  unfold change_alone, ChangeUserRole. destruct (same actor uuid_nil); [done|].
  destruct (_ || _); [done|]. destruct (2000 <? _); [done|].
  destruct (WithTransaction env no_faults (role_reads _ _ _ _) d).1 as [[w c]|]; [|done].
  rewrite WithTransaction_no_faults. by destruct (role_write w c env d) as [[]|].
Qed.
End policy.

(** C13: The policy of roles is exactly the documented one. Without faults a change
    succeeds if and only if both users are live and distinct, the trimmed reason has
    at most 2000 characters, and the move is permitted: a super administrator moves
    others among admin, user and suspended_user, an administrator between user and
    suspended_user, nobody a super administrator, and suspending or restoring takes a
    reason. Then the role and one audit entry are written; else nothing is. *)
Theorem change_role_policy env actor target to reason d :
  reachable cfg d → actor ≠ uuid_nil → target ≠ uuid_nil → no_nul (TrimSpace reason) = true →
  new_id env ForChange ∉ rc_ID <$> role_changes d →
  let out := change_alone env actor target to reason d in
  ((∃ u, out.1 = Ok u) ↔ ∃ a w, allowed_change actor target to reason d a w)
  ∧ (∀ u, out.1 = Ok u → u_Role u = to ∧ ∃ w c, users d !! target = Some w
       ∧ records_change actor target to reason w c ∧ out.2 = with_change env c w d)
  ∧ (∀ e, out.1 = Err e → out.2 = d).
Proof.
  intros Hd Hna Hnt Htx Hfresh out. pose proof (iv_users _ (user_reachable_Inv _ _ Hd)) as Hok.
  pose proof (λ a w, change_alone_ok env actor target to reason d a w Hok Hna Hnt Htx Hfresh) as Hsucc.
  split_and!.
  - split; [intros [u Hu]; by eapply change_alone_only|]. intros (a & w & Hc).
    destruct (Hsucc a w Hc) as (c & _ & Ho). subst out. rewrite Ho. by eexists.
  - intros u Hu. destruct (change_alone_only _ _ _ _ _ _ _ Hu) as (a & w & Hc).
    destruct (Hsucc a w Hc) as (c & Hrec & Ho). subst out. rewrite Ho in *. injection Hu as <-. split; [done|].
    exists w, c. by destruct Hc as (_ & _ & _ & _ & ? & _).
  - intros e. apply change_alone_failed.
Qed.
End roles.

(** ** The theorem at a state of a run *)

From S2P Require Import UserExamples.

Lemma change_role_policy_witness :
  (∃ u, (change_alone (at_ "b" 11 400) root bob RoleAdmin " trusted " d_out).1 = Ok u)
  ∧ (∃ w c, users d_out !! bob = Some w ∧ records_change root bob RoleAdmin " trusted " w c)
  ∧ (change_alone (at_ "b" 11 400) alice bob RoleSuspended "spam" d_out).2 = d_out.
Proof.
  assert (∀ why actor to, no_nul (TrimSpace why) = true → actor ≠ uuid_nil → 
    let out := change_alone (at_ "b" 11 400) actor bob to why d_out in
    (∀ u, out.1 = Ok u → ∃ w c, users d_out !! bob = Some w ∧ records_change actor bob to why w c)
    ∧ ∀ e, out.1 = Err e → out.2 = d_out) as Hall.
  { intros why actor to Hw Ha out.
    destruct (change_role_policy conf (at_ "b" 11 400) actor bob to why d_out d_out_reachable Ha) as (_ & Hok & Herr);
      [discriminate|exact Hw|vm_compute; set_solver|]. split; [|exact Herr].
    intros u Hu. destruct (Hok u Hu) as (_ & w & c & Hb & Hc & _). exists w, c. split; [exact Hb|exact Hc]. }
  assert (is_ok (change_alone (at_ "b" 11 400) root bob RoleAdmin " trusted " d_out).1 = true) as Hok by (vm_compute; reflexivity).
  assert (is_ok (change_alone (at_ "b" 11 400) alice bob RoleSuspended "spam" d_out).1 = false) as Hbad by (vm_compute; reflexivity).
  destruct (Hall " trusted " root RoleAdmin ltac:(vm_compute; reflexivity) ltac:(discriminate)) as [Hgood _].
  destruct (Hall "spam" alice RoleSuspended ltac:(vm_compute; reflexivity) ltac:(discriminate)) as [_ Hrefused].
  destruct (is_ok_true _ Hok) as [u Hu], (is_ok_false _ Hbad) as [e He].
  split; [exists u; exact Hu|]. split; [exact (Hgood u Hu)|exact (Hrefused e He)].
Defined.
