(* ===== verification/UserCredit.v ===== *)
(** * User and Credit: a registration opens an account

    The path of a registration through both services: the transaction that creates
    the user records a fact, a relay publishes it, and Credit's consumer opens the
    account. *)
From stdpp Require Import prelude gmap strings list sorting relations.
From Stdlib Require Import ZArith Lia SpecFloat.
From S2P Require Import Prelude.
From S2P Require Import GoLib.
From S2P Require Import GoText.
From S2P Require Import GoFloat.
From S2P Require Import GoMail.
From S2P Require Import CreditTypes.
From S2P Require Import CreditDB.
From S2P Require Import CreditAccount.
From S2P Require Import CreditReservation.
From S2P Require Import CreditOutcome.
From S2P Require Import CreditService.
From S2P Require Import CreditExamples.
From S2P Require Import CreditProperties.
From S2P Require Import UserTypes.
From S2P Require Import UserDB.
From S2P Require Import UserStore.
From S2P Require Import UserAuth.
From S2P Require Import UserReviews.
From S2P Require Import UserRuns.
From S2P Require Import UserSteps.
From S2P Require Import UserInvariant.
From S2P Require Import UserKeeps.
From S2P Require Import UserSessions.
From S2P Require Import UserRelay.

Local Open Scope Z_scope.
Local Open Scope foc_scope.

(** Credit's consumer, fed with the message. *)
Definition consume `{UUID, UUIDv7} (c : CreditDB.Clocks) (m : UserCreated) (db : CreditDB.DB)
    : CreditOutcome.handled * CreditDB.DB :=
  CreditOutcome.Users_Handle c CreditReservation.no_faults (uc_UserId m) db.

Section composition.
  Context `{UUID, !UUIDLaws, UUIDv7, !UUIDv7Laws, Digest, CIText, UnicodeLower, Codec, PhoneNumbers}.
  Context (cfg : Config) (payout : CreditOutcome.PayoutRule).

(** Credit opens the account once, and acknowledges every delivery. *)
Definition opens_account (m : UserCreated) : Prop :=
  ∀ c db, CreditService.reachable payout db →
  ∃ a db', consume c m db = (CreditOutcome.Acknowledged, db')
    ∧ CreditDB.accounts db' !! uc_UserId m = Some a
    ∧ (CreditDB.accounts db !! uc_UserId m = None →
         CreditDB.ac_Balance a = CreditTypes.account.StartingCredits ∧ CreditDB.ac_Reserved a = 0
         ∧ CreditDB.accounts db' = <[uc_UserId m := a]> (CreditDB.accounts db))
    ∧ (is_Some (CreditDB.accounts db !! uc_UserId m) → db' = db)
    ∧ ∀ c', consume c' m db' = (CreditOutcome.Acknowledged, db').

Lemma canonical_opens m : uuid_parse (uc_UserId m) = Some (uc_UserId m) → opens_account m.
Proof.
  intros Hid c db Hr. unfold consume.
  destruct (CreditProperties.Users_Handle_opens payout c _ _ _ Hr Hid) as (db' & Hh & Hdb').
  assert (CreditService.reachable payout db') as Hr'.
  { eapply rtc_r; [exact Hr|]. unfold CreditOutcome.Users_Handle in Hh.
    destruct (CreditOutcome.open_account c CreditReservation.no_faults (uc_UserId m) db) as [out db1] eqn:Ho.
    injection Hh as _ <-. by eapply CreditService.step_open. }
  assert (∃ a, CreditDB.accounts db' !! uc_UserId m = Some a) as [a Ha].
  { destruct (CreditDB.accounts db !! uc_UserId m) as [a|] eqn:Ha; [subst; by exists a|].
    destruct Hdb' as (a & -> & _). exists a. apply lookup_insert_eq. }
  exists a, db'. split_and!; [done|done| | |].
  - intros Hn. rewrite Hn in Hdb'. destruct Hdb' as (w & Hw & Hb & Hres). rewrite Hw, lookup_insert_eq in Ha.
    injection Ha as ->. done.
  - intros [w Hw]. by rewrite Hw in Hdb'.
  - intros c'. destruct (CreditProperties.Users_Handle_opens payout c' _ _ _ Hr' Hid) as (db2 & -> & Hdb2).
    rewrite Ha in Hdb2. by subst.
Qed.

(** The fact of a user that was registered. *)
Lemma registered_fact env fl token p d u tokens d1 d2 :
  UserKeeps.reachable cfg d → sound_env env →
  Register cfg env fl token p d = (Ok (u, tokens), d1) → steps cfg d1 d2 →
  ∃ e o m, user_created_outbox d2 !! e = Some o ∧ message o = Some m
    ∧ uc_UserId m = u_ID u ∧ uc_Email m = u_Email u ∧ uuid_parse (u_ID u) = Some (u_ID u).
Proof.
  intros Hd Henv Hr Hs. pose proof (UserKeeps.user_reachable_Inv _ _ Hd) as HI.
  pose proof (Register_steps cfg (R:=user_step cfg) env fl token p d Henv) as Hst. rewrite Hr in Hst. cbn [snd] in Hst.
  destruct (UserKeeps.user_steps_Inv _ _ _ HI Hst) as [HI1 Hh1], (UserKeeps.user_steps_Inv _ _ _ HI1 Hs) as [HI2 Hh2].
  destruct (redeem_ok cfg env fl (ByRegister p) token d u tokens d1 (iv_users _ HI) Hr)
    as (_ & _ & _ & _ & _ & _ & _ & _ & Hrole & _ & Hus).
  assert (users d1 !! u_ID u = Some (stored_user u)) as Hu1 by (by rewrite Hus, lookup_insert_eq).
  destruct (hi_users _ _ Hh2 _ _ Hu1) as (w & Hw & Hwl).
  destruct (iv_announced _ HI1 (u_ID u)) as [Hb|(e & o & Ho & Hof)]; [by eexists| |].
  { destruct (ro_first _ _ _ (iv_roles _ HI1) _ Hb) as (x & Hx & Hsup & _).
    rewrite Hu1 in Hx. injection Hx as <-. cbn in Hsup. congruence. }
  destruct (hi_facts _ _ Hh2 e o Ho) as (o2 & Ho2 & [Hc _]).
  destruct (fact_message _ _ _ HI2 Ho2) as [_ [m Hm]]. exists e, o2, m. split; [done|]. split; [done|].
  destruct (proj1 (iv_facts _ HI2) e o2 Ho2) as (_ & (x & Hx & He & _) & _).
  assert (ob_UserID o2 = u_ID u) as Hid by (rewrite <- Hof; by injection Hc).
  rewrite Hid, Hw in Hx. injection Hx as <-.
  unfold message, encode in Hm. destruct (_ && _ && _); [|done]. injection Hm as <-. cbn.
  split; [done|]. rewrite He, (ul_email _ _ Hwl). split; [done|].
  by destruct (proj1 (iv_users _ HI2) _ _ Hw) as (_ & _ & [? _] & _).
Qed.

(** C5: A registered user gets a Credit account. Once a registration succeeded, in
    every later state of the service and its relays there is a fact of the user with
    one message; when the fact is not leased or held back, a drain with as many working
    turns as facts wait has the broker accept that message, which names the user and
    its address; and in every state of Credit its consumer acknowledges the message,
    opens the account with the starting credits unless it exists, and changes nothing
    when the message is delivered again. *)
Theorem registered_user_gets_account env fl token p d u tokens d1 d2 log eligible turns :
  UserKeeps.reachable cfg d → sound_env env → Register cfg env fl token p d = (Ok (u, tokens), d1) →
  steps cfg d1 d2 → relay_reachable cfg (d2, log) →
  Forall works turns → waiting eligible d2 <= Z.of_nat (length turns) →
  ∃ e o m, user_created_outbox d2 !! e = Some o ∧ message o = Some m
    ∧ uc_UserId m = u_ID u ∧ uc_Email m = u_Email u
    ∧ (is_Some (ob_PublishedAt o) ∨ claimable eligible o = true → m ∈ (drain eligible turns d2 log).2)
    ∧ opens_account m.
Proof.
  intros Hd Henv Hr Hs Hrel Ht Hw.
  destruct (registered_fact _ _ _ _ _ _ _ _ _ Hd Henv Hr Hs) as (e & o & m & Ho & Hm & Hid & He & Hcan).
  exists e, o, m. split_and!; [done..| |apply canonical_opens; by rewrite Hid].
  destruct (relay_reachable_sound cfg _ Hrel) as (ph & [HI Hpub _ _]). cbn [fst snd rl_db rl_log] in *. intros [Hp|Hc].
  - destruct (Hpub e o Ho Hp) as (o' & m' & Ho' & _ & Hm' & Hin). destruct (drain_log eligible turns d2 log) as [more ->].
    apply elem_of_app. left. by simplify_eq.
  - destruct (drain_delivers cfg eligible turns d2 log HI Ht Hw e o Ho Hc) as (o' & m' & Ho' & _ & Hm' & Hin).
    assert (Inv (drain eligible turns d2 log).1) as HI' by by apply (UserKeeps.user_steps_Inv cfg d2 _ HI), drain_steps.
    destruct (UserKeeps.user_steps_Inv cfg d2 _ HI (drain_steps cfg eligible turns d2 log)) as [_ Hh].
    destruct (hi_facts _ _ Hh e o Ho) as (o2 & Ho2 & [Hcont _]). rewrite Ho2 in Ho'. injection Ho' as <-.
    rewrite (message_content o) in Hm' by done. by simplify_eq.
Qed.
End composition.

(** ** The theorem at the states of a run *)

From S2P Require Import UserExamples.

Lemma registered_user_gets_account_witness :
  ∃ m, m ∈ drained.2 ∧ uc_UserId m = UserExamples.alice ∧ uc_Email m = alice_mail
    ∧ ∃ a db, consume (CreditExamples.ex_clocks 700) m CreditExamples.db_settled = (CreditOutcome.Acknowledged, db)
        ∧ CreditDB.accounts db !! UserExamples.alice = Some a
        ∧ CreditDB.ac_Balance a = CreditTypes.account.StartingCredits.
Proof.
  destruct registered1.1 as [[u tokens]|e] eqn:Hr; [|vm_compute in Hr; discriminate].
  assert ((λ r, match r with Ok (u, _) => Some (u_ID u, u_Email u) | Err _ => None end) registered1.1
          = Some (UserExamples.alice, alice_mail)) as Hc by (vm_compute; reflexivity).
  rewrite Hr in Hc. injection Hc as Hid Hmail.
  destruct (registered_user_gets_account conf CreditOutcome.LatenessPayout (at_ "4" 4 60) UserStore.no_faults (link 3)
      (person "Alice") d_link1 u tokens d_alice d_removed [] (start + 600 * Second) [turn "1"; turn "2"; turn "3"])
    as (e & o & m & Ho & Hm & Hu & He & Hin & Hopen);
    [exact d_link1_reachable|sound| |exact d_alice_to_removed|exact d_removed_relays| |vm_compute; discriminate|].
  { rewrite <- Hr. apply surjective_pairing. }
  { repeat constructor; vm_compute; discriminate. }
  assert (claimable (start + 600 * Second) o = true) as Hcl.
  { assert (map_Forall (λ _ o, claimable (start + 600 * Second) o = true) (user_created_outbox d_removed)) as Hall
      by (refine (bool_decide_eq_true_1 _ _); vm_compute; reflexivity). exact (Hall e o Ho). }
  rewrite Hid in Hu. rewrite Hmail in He.
  destruct (Hopen (CreditExamples.ex_clocks 700) CreditExamples.db_settled CreditExamples.db_settled_reachable)
    as (a & db & Hcon & Ha & Hnew & _).
  exists m. split; [exact (Hin (or_intror Hcl))|]. split; [exact Hu|]. split; [exact He|].
  exists a, db. split; [exact Hcon|]. rewrite Hu in Ha, Hnew. split; [exact Ha|]. apply Hnew. vm_compute. reflexivity.
Defined.
