(* ===== verification/CommunicationDB.v ===== *)
(** * Communication: data and database

    communication-service: the types of linking, chat and telegram, the tables of
    the migrations, and the statements of queries/ with the stores that run them
    (linking/postgres.go, chat/postgres.go, notify/postgres.go). A bytea is kept
    in hexadecimal. *)
From stdpp Require Import prelude gmap strings list sorting.
From Stdlib Require Import ZArith Lia.
From S2P Require Import Prelude.
From S2P Require Import GoLib.
From S2P Require Import GoText.
From S2P Require Import GoMail.
From S2P Require Import OrderTypes.
From S2P Require Import OrderOutbox.

Local Open Scope Z_scope.
Local Open Scope foc_scope.

(** ** Linking (linking/service.go) *)

Definition CodeLifetime : Duration := 10 * Minute.

Record Link := { l_UserID : string; l_ChatID : Z; l_Username : string; l_LinkedAt : Time }.
(** The chat redeeming a code. *)
Record Chat := { ch_ID : Z; ch_Username : string }.

(** ** Orders and messages (chat/order.go, chat/relay.go)

    An identifier is its canonical text; [uuid_nil] stands for no courier. *)
Module chat.
Definition GracePeriod : Duration := Hour.
Definition Retention : Duration := 30 * 24 * Hour.
Definition AwaitingPickup : string := "awaiting_pickup".
Definition Delivering : string := "delivering".
Definition Delivered : string := "delivered".
Definition Completed : string := "completed".
Definition Cancelled : string := "cancelled".
Definition Failed : string := "failed".

Record Order := mkOrder {
  ID : string;
  RequesterID : string;
  CourierID : string;
  Status : string;
  Revision : Z;
  PickupName : string;
  (** Zero until the order ends. *)
  EndedAt : Time;
}.
#[global] Instance Order_eq_dec : EqDecision Order.
Proof. solve_decision. Defined.

Definition under_way (status : string) : bool :=
  same status AwaitingPickup || same status Delivering || same status Delivered.
Definition ended (status : string) : bool :=
  same status Completed || same status Cancelled || same status Failed.

Definition IsOpen (o : Order) (now : Time) : bool :=
  if same (CourierID o) uuid_nil then false
  else if under_way (Status o) then true
  else if ended (Status o) then negb (IsZero (EndedAt o)) && Before now (EndedAt o + GracePeriod)
  else false.

(** The participant who isn't [user], and whether [user] is a participant. *)
Definition Other (o : Order) (user : string) : string * bool :=
  if same user (RequesterID o) then (CourierID o, negb (same (CourierID o) uuid_nil))
  else if same user (CourierID o) then (RequesterID o, true)
  else (uuid_nil, false).

Definition Label (o : Order) : string :=
  if nonempty (PickupName o) then PickupName o +:+ " order" else "your order".

Record Message := {
  m_ID : string;
  m_OrderID : string;
  m_SenderID : string;
  m_RecipientID : string;
  m_Body : string;
  m_SentAt : Time;
}.
#[global] Instance Message_eq_dec : EqDecision Message.
Proof. solve_decision. Defined.
End chat.

(** ** The Bot API (telegram/client.go)

    The fields that the code reads; of a message replied to, its identifier. *)
Module telegram.
Record APIError := { Code : Z; Description : string; RetryAfter : Duration }.
#[global] Instance APIError_eq_dec : EqDecision APIError.
Proof. solve_decision. Defined.

Fixpoint contains (sub s : string) : bool :=
  HasPrefix sub s || match s with EmptyString => false | String _ s' => contains sub s' end.

Definition ChatGone `{UnicodeLower} (e : APIError) : bool :=
  (Code e =? 403) || ((Code e =? 400) && contains "chat not found" (ToLower (Description e))).
Definition Rejected (e : APIError) : bool :=
  (400 <=? Code e) && (Code e <? 500) && negb (Code e =? 429).

Record User := { u_ID : Z; u_Username : string }.
Record Chat := { c_ID : Z; c_Type : string }.
Record Message := {
  MessageID : Z;
  From : option User;
  InChat : Chat;
  Text : string;
  ReplyToMessage : option Z;
}.
Record CallbackQuery := { cb_ID : string; cb_From : User; cb_Message : option Message; cb_Data : string }.
Record InlineButton := { b_Text : string; CallbackData : string }.
#[global] Instance InlineButton_eq_dec : EqDecision InlineButton.
Proof. solve_decision. Defined.
(** One row of buttons after another. *)
Definition InlineKeyboard : Type := list (list InlineButton).
Record ChatMemberUpdated := { mm_Chat : Chat; mm_NewStatus : string }.
Record Update := {
  UpdateID : Z;
  up_Message : option Message;
  up_MyChatMember : option ChatMemberUpdated;
  up_CallbackQuery : option CallbackQuery;
}.
End telegram.

(** ** Errors *)

Inductive Error :=
| ErrNotLinked | ErrInvalidCode
(** chat: nothing stored; and why no order was routed to *)
| ErrNotFound | ErrNoChats | ErrClosed | ErrChoose (orders : list chat.Order)
(** telegram: a rejected token, a refused request, a call that failed *)
| ErrUnauthorized | ErrAPI (e : telegram.APIError) | ErrCall (message : string)
(** The source of randomness failed; a database error, by SQLSTATE. *)
| ErrRandom
| Pg (sqlstate : string).
#[export] Instance Error_eq_dec : EqDecision Error.
Proof. solve_decision. Defined.

(** ** Tables (migrations) *)

Record LinkRow := { tl_ChatID : Z; tl_Username : option string; tl_LinkedAt : Time }.
#[export] Instance LinkRow_eq_dec : EqDecision LinkRow.
Proof. solve_decision. Defined.
Record CodeRow := mkCodeRow { lc_UserID : string; lc_ExpiresAt : Time; lc_UsedAt : option Time; lc_CreatedAt : Time }.
#[export] Instance CodeRow_eq_dec : EqDecision CodeRow.
Proof. solve_decision. Defined.
#[export] Instance CodeRow_eta : Eta CodeRow := λ c,
  mkCodeRow (lc_UserID c) (lc_ExpiresAt c) (lc_UsedAt c) (lc_CreatedAt c).
#[export] Instance set_lc_UsedAt : Setter lc_UsedAt := ltac:(build_setter lc_UsedAt).

Record ParticipantsRow := {
  op_RequesterID : string;
  op_CourierID : option string;
  op_Status : string;
  op_Revision : Z;
  op_PickupName : string;
  op_EndedAt : option Time;
  op_UpdatedAt : Time;
}.
#[export] Instance ParticipantsRow_eq_dec : EqDecision ParticipantsRow.
Proof. solve_decision. Defined.
Record TargetRow := { rt_OrderID : string; rt_CreatedAt : Time }.
Record SelectionRow := { cs_OrderID : string; cs_SelectedAt : Time }.

Record CDB := mkCDB {
  (** By user. *)
  telegram_links : gmap string LinkRow;
  (** By the hash of the code. *)
  telegram_link_codes : gmap string CodeRow;
  (** By event and user: when it was sent. *)
  order_notifications_sent : gmap (string * string) Time;
  order_participants : gmap string ParticipantsRow;
  chat_messages : gmap string chat.Message;
  (** By chat and message. *)
  chat_reply_targets : gmap (Z * Z) TargetRow;
  chat_selections : gmap string SelectionRow;
}.
#[export] Instance CDB_eta : Eta CDB := λ d,
  mkCDB (telegram_links d) (telegram_link_codes d) (order_notifications_sent d) (order_participants d)
    (chat_messages d) (chat_reply_targets d) (chat_selections d).
#[export] Instance set_telegram_links : Setter telegram_links := ltac:(build_setter telegram_links).
#[export] Instance set_telegram_link_codes : Setter telegram_link_codes :=
  ltac:(build_setter telegram_link_codes).
#[export] Instance set_order_notifications_sent : Setter order_notifications_sent :=
  ltac:(build_setter order_notifications_sent).
#[export] Instance set_order_participants : Setter order_participants :=
  ltac:(build_setter order_participants).
#[export] Instance set_chat_messages : Setter chat_messages := ltac:(build_setter chat_messages).
#[export] Instance set_chat_reply_targets : Setter chat_reply_targets :=
  ltac:(build_setter chat_reply_targets).
#[export] Instance set_chat_selections : Setter chat_selections := ltac:(build_setter chat_selections).

Definition empty_cdb : CDB := mkCDB ∅ ∅ ∅ ∅ ∅ ∅ ∅.

(** A statement changes the database and answers, or fails. *)
Definition Statement (A : Type) : Type := CDB → result Error (CDB * A).
Definition reads {A} (f : CDB → A) : Statement A := λ d, Ok (d, f d).
Definition changes (f : CDB → CDB) : Statement unit := λ d, Ok (f d, tt).

Abbreviation check b := (guard_ok b (Pg "23514")).
Abbreviation unique b := (guard_ok b (Pg "23505")).
Abbreviation valid_text b := (guard_ok b (Pg "22021")).

(** ** Linking (queries/linking.sql) *)

Definition hash_check (hash : string) : bool := bool_decide (String.length hash = 64%nat).
Definition unused (c : CodeRow) : bool := negb (is_some (lc_UsedAt c)).

(** The unused code of a user: the partial unique index keeps one. *)
Definition unused_code (user : string) (d : CDB) : option (string * CodeRow) :=
  find_first (λ c, same (lc_UserID c.2) user && unused c.2) (map_to_list (telegram_link_codes d)).

Definition ReplaceCode (hash user : string) (expires created : Time) : Statement unit := λ d,
  _ ← check (hash_check hash);
  let row := {| lc_UserID := user; lc_ExpiresAt := stored_time expires; lc_UsedAt := None;
                lc_CreatedAt := stored_time created |} in
  let others := match unused_code user d with
                | Some (old, _) => delete old (telegram_link_codes d)
                | None => telegram_link_codes d
                end in
  _ ← unique (negb (is_some (others !! hash)));
  mret (d <| telegram_link_codes := <[hash := row]> others |>, tt).

Definition UseCode (now : Time) (hash : string) : Statement (option string) := λ d,
  match telegram_link_codes d !! hash with
  | Some c =>
      if unused c && (stored_time now <? lc_ExpiresAt c) then
        mret (d <| telegram_link_codes :=
                <[hash := c <| lc_UsedAt := Some (stored_time now) |>]> (telegram_link_codes d) |>,
              Some (lc_UserID c))
      else mret (d, None)
  | None => mret (d, None)
  end.

Definition ReleaseChat (chat_id : Z) (user : string) : Statement unit :=
  changes (λ d, d <| telegram_links := filter (λ l, ¬ (tl_ChatID l.2 = chat_id ∧ l.1 ≠ user))
                       (telegram_links d) |>).

Definition SaveLink (user : string) (chat_id : Z) (username : option string) (linked : Time) : Statement unit := λ d,
  _ ← valid_text (opt_text_ok username);
  _ ← unique (bool_decide (map_Forall (λ u l, u = user ∨ tl_ChatID l ≠ chat_id) (telegram_links d)));
  mret (d <| telegram_links :=
          <[user := {| tl_ChatID := chat_id; tl_Username := username; tl_LinkedAt := stored_time linked |}]>
            (telegram_links d) |>, tt).

Definition row_link (user : string) (l : LinkRow) : Link :=
  {| l_UserID := user; l_ChatID := tl_ChatID l; l_Username := default EmptyString (tl_Username l);
     l_LinkedAt := tl_LinkedAt l |}.

Definition GetLink_row (user : string) (d : CDB) : option Link := row_link user <$> telegram_links d !! user.
Definition GetLinkByChat_row (chat_id : Z) (d : CDB) : option Link :=
  (λ l, row_link l.1 l.2) <$>
    find_first (λ l, tl_ChatID l.2 =? chat_id) (map_to_list (telegram_links d)).

Definition DeleteLink_rows (user : string) : Statement unit :=
  changes (λ d, d <| telegram_links := delete user (telegram_links d) |>).
Definition DeleteUnusedCodes (user : string) : Statement unit :=
  changes (λ d, d <| telegram_link_codes :=
    filter (λ c, ¬ (lc_UserID c.2 = user ∧ unused c.2 = true)) (telegram_link_codes d) |>).
Definition DeleteLinkByChat (chat_id : Z) : Statement unit :=
  changes (λ d, d <| telegram_links := filter (λ l, tl_ChatID l.2 ≠ chat_id) (telegram_links d) |>).

(** One statement after another, in one transaction. *)
Definition then_ {A B} (s : Statement A) (k : A → Statement B) : Statement B := λ d,
  match s d with Ok (d', a) => k a d' | Err e => Err e end.
Definition or_error {A} (e : Error) (s : Statement (option A)) : Statement A :=
  then_ s (λ o d, match o with Some a => Ok (d, a) | None => Err e end).

(** An empty Telegram username is stored as NULL. *)
Definition optional (s : string) : option string := if nonempty s then Some s else None.

(** The transaction of RedeemCode. The lock on the chat and the locks on the
    rows serialise it with others about the same chat, code or user. *)
Definition RedeemCode (hash : string) (c : Chat) (now : Time) : Statement Link :=
  then_ (or_error ErrInvalidCode (UseCode now hash)) (λ user,
  then_ (ReleaseChat (ch_ID c) user) (λ _,
  then_ (SaveLink user (ch_ID c) (optional (ch_Username c)) now) (λ _ d,
  Ok (d, {| l_UserID := user; l_ChatID := ch_ID c; l_Username := ch_Username c; l_LinkedAt := now |})))).

Definition GetLink (user : string) : Statement Link := or_error ErrNotLinked (reads (GetLink_row user)).
Definition GetLinkByChat (chat_id : Z) : Statement Link :=
  or_error ErrNotLinked (reads (GetLinkByChat_row chat_id)).
Definition DeleteLink (user : string) : Statement unit :=
  then_ (DeleteUnusedCodes user) (λ _, DeleteLink_rows user).

(** ** Notifications (queries/notifications.sql) *)

Definition HasBeenSent (event user : string) : Statement bool :=
  reads (λ d, is_some (order_notifications_sent d !! (event, user))).
Definition RecordSent (event user : string) (at_ : Time) : Statement unit :=
  changes (λ d, match order_notifications_sent d !! (event, user) with
    | Some _ => d
    | None => d <| order_notifications_sent := <[(event, user) := stored_time at_]> (order_notifications_sent d) |>
    end).

(** ** Chat (queries/chat.sql) *)

Definition nullID (id : string) : option string := if same id uuid_nil then None else Some id.
Definition nullTime (t : Time) : option Time := if IsZero t then None else Some t.

Definition participants_row (o : chat.Order) (now : Time) : ParticipantsRow := {|
  op_RequesterID := chat.RequesterID o; op_CourierID := nullID (chat.CourierID o);
  op_Status := chat.Status o; op_Revision := chat.Revision o; op_PickupName := chat.PickupName o;
  op_EndedAt := stored_times (nullTime (chat.EndedAt o)); op_UpdatedAt := stored_time now |}.

(** Only a newer revision replaces a row. *)
Definition newer (old : option ParticipantsRow) (revision : Z) : bool :=
  match old with Some p => op_Revision p <? revision | None => true end.
Definition SaveOrder (o : chat.Order) (now : Time) : Statement unit := λ d,
  let row := participants_row o now in
  _ ← valid_text (no_nul (op_Status row) && no_nul (op_PickupName row));
  mret (if newer (order_participants d !! chat.ID o) (chat.Revision o)
        then d <| order_participants := <[chat.ID o := row]> (order_participants d) |> else d, tt).

Definition fromRow (id : string) (p : ParticipantsRow) : chat.Order := {|
  chat.ID := id; chat.RequesterID := op_RequesterID p; chat.CourierID := default uuid_nil (op_CourierID p);
  chat.Status := op_Status p; chat.Revision := op_Revision p; chat.PickupName := op_PickupName p;
  chat.EndedAt := default zero_time (op_EndedAt p) |}.

Definition GetOrder (id : string) : Statement chat.Order :=
  or_error ErrNotFound (reads (λ d, fromRow id <$> order_participants d !! id)).

(** The WHERE clause of ListUserOrders; a comparison with NULL is not true. *)
Definition eligible (user : string) (since : Time) (p : ParticipantsRow) : bool :=
  (same (op_RequesterID p) user || same (op_CourierID p) (Some user))
  && is_some (op_CourierID p)
  && (chat.under_way (op_Status p)
      || (chat.ended (op_Status p)
          && match op_EndedAt p with Some t => stored_time since <? t | None => false end)).

(** ORDER BY updated_at DESC; the order of equal times is left open. *)
Definition newest (a b : string * ParticipantsRow) : Prop := op_UpdatedAt b.2 <= op_UpdatedAt a.2.
#[export] Instance newest_dec : RelDecision newest.
Proof. unfold RelDecision, newest. apply _. Defined.

Definition keyboard_limit : nat := 20.
Definition UserOrders (user : string) (since : Time) : Statement (list chat.Order) :=
  reads (λ d, (λ p, fromRow p.1 p.2) <$>
    take keyboard_limit (merge_sort newest
      (filter (λ p, eligible user since p.2 = true) (map_to_list (order_participants d))))).

Definition ReplyTarget (chat_id message_id : Z) : Statement string :=
  or_error ErrNotFound (reads (λ d, rt_OrderID <$> chat_reply_targets d !! (chat_id, message_id))).
Definition SaveReplyTarget (chat_id message_id : Z) (order : string) (at_ : Time) : Statement unit :=
  changes (λ d, d <| chat_reply_targets :=
    <[(chat_id, message_id) := {| rt_OrderID := order; rt_CreatedAt := stored_time at_ |}]> (chat_reply_targets d) |>).

Definition Selection (user : string) : Statement string :=
  or_error ErrNotFound (reads (λ d, cs_OrderID <$> chat_selections d !! user)).
Definition Select (user order : string) (at_ : Time) : Statement unit :=
  changes (λ d, d <| chat_selections :=
    <[user := {| cs_OrderID := order; cs_SelectedAt := stored_time at_ |}]> (chat_selections d) |>).

Definition stored_message (m : chat.Message) : chat.Message := {|
  chat.m_ID := chat.m_ID m; chat.m_OrderID := chat.m_OrderID m; chat.m_SenderID := chat.m_SenderID m;
  chat.m_RecipientID := chat.m_RecipientID m; chat.m_Body := chat.m_Body m;
  chat.m_SentAt := stored_time (chat.m_SentAt m) |}.
Definition SaveMessage (m : chat.Message) : Statement unit := λ d,
  _ ← valid_text (no_nul (chat.m_Body m));
  mret (match chat_messages d !! chat.m_ID m with
        | Some _ => d
        | None => d <| chat_messages := <[chat.m_ID m := stored_message m]> (chat_messages d) |>
        end, tt).

(** ** Retention (chat/postgres.go) *)

Definition ended_before (cutoff : Time) (p : ParticipantsRow) : bool :=
  match op_EndedAt p with Some t => t <? stored_time cutoff | None => false end.

Definition message_expired (cutoff : Time) (d : CDB) (m : chat.Message) : bool :=
  match order_participants d !! chat.m_OrderID m with
  | Some p => ended_before cutoff p
  | None => chat.m_SentAt m <? stored_time cutoff
  end.
Definition DeleteExpiredChatMessages (cutoff : Time) : Statement Z := λ d,
  Ok (d <| chat_messages := filter (λ m, message_expired cutoff d m.2 = false) (chat_messages d) |>,
      Z.of_nat (size (filter (λ m, message_expired cutoff d m.2 = true) (chat_messages d)))).

Definition target_expired (cutoff : Time) (d : CDB) (t : TargetRow) : bool :=
  match order_participants d !! rt_OrderID t with
  | Some p =>
      ended_before cutoff p
      || (rt_CreatedAt t <? stored_time cutoff)
         && negb (is_some (op_EndedAt p) || is_some (op_CourierID p) && chat.under_way (op_Status p))
  | None => rt_CreatedAt t <? stored_time cutoff
  end.
Definition DeleteExpiredReplyTargets (cutoff : Time) : Statement unit :=
  changes (λ d, d <| chat_reply_targets := filter (λ t, target_expired cutoff d t.2 = false) (chat_reply_targets d) |>).

Definition DeleteExpiredNotificationRecords (cutoff : Time) : Statement unit :=
  changes (λ d, d <| order_notifications_sent :=
    filter (λ n, ¬ (n.2 < stored_time cutoff)) (order_notifications_sent d) |>).

Definition selection_closed (closed_before : Time) (d : CDB) (s : SelectionRow) : bool :=
  match order_participants d !! cs_OrderID s with
  | Some p => match op_EndedAt p with Some t => t <=? stored_time closed_before | None => false end
  | None => true
  end.
Definition DeleteClosedSelections (closed_before : Time) : Statement unit :=
  changes (λ d, d <| chat_selections := filter (λ s, selection_closed closed_before d s.2 = false) (chat_selections d) |>).

Definition DeleteExpiredOrderParticipants (cutoff : Time) : Statement unit :=
  changes (λ d, d <| order_participants := filter (λ p, ended_before cutoff p.2 = false) (order_participants d) |>).

Definition DeleteExpired (cutoff closed_before : Time) : Statement Z :=
  then_ (DeleteExpiredChatMessages cutoff) (λ deleted,
  then_ (DeleteExpiredReplyTargets cutoff) (λ _,
  then_ (DeleteExpiredNotificationRecords cutoff) (λ _,
  then_ (DeleteClosedSelections closed_before) (λ _,
  then_ (DeleteExpiredOrderParticipants cutoff) (λ _ d, Ok (d, deleted)))))).
