(* ===== verification/Communication.v ===== *)
(** * Communication: the operations

    communication-service/internal: linking (codes and links), chat (the relay, the
    projection of orders, the cleanup), notify, bot, the poller of telegram, the
    handlers of telegramlink, and how cmd/server puts them together.

    None of these is a transaction: an operation is a program that runs statements,
    reads clocks and calls the Bot API one after another, while other clients of
    the database do what they like in between. *)
From stdpp Require Import prelude gmap strings list sorting.
From Stdlib Require Import ZArith Lia.
From S2P Require Import Prelude.
From S2P Require Import GoLib.
From S2P Require Import GoText.
From S2P Require Import GoMail.
From S2P Require Import OrderTypes.
From S2P Require Import OrderOutbox.
From S2P Require Import CommunicationDB.

Local Open Scope Z_scope.
Local Open Scope foc_scope.

(** ** Programs

    Each action takes one turn, which says what others did to the database before
    it and how the outside answered: whether the statement failed (and was applied
    all the same), what the Bot API returned, the time, what was drawn. The log
    keeps the database after each statement, every time read and every call of the
    Bot API. *)
Record Turn := {
  t_others : CDB → CDB;
  t_fault : option (string * bool);
  t_sent : result Error Z;
  t_answered : result Error unit;
  t_now : Time;
  t_uuid : option string;
  t_bytes : option (list Z);
}.
Definition Turns : Type := nat → Turn.

Inductive Event :=
| Statement_run (d : CDB)
| Clock (t : Time)
| Sent (chat_id : Z) (text : string) (kb : option telegram.InlineKeyboard) (r : result Error Z)
| Answered (callback_id text : string) (r : result Error unit).

Record World := mkWorld { w_db : CDB; w_turn : nat; w_log : list Event }.

Definition Io (F A : Type) : Type := Turns → World → result F A * World.

#[export] Instance io_mret {F} : MRet (Io F) := λ A a _ w, (Ok a, w).
#[export] Instance io_mbind {F} : MBind (Io F) := λ A B k m ts w,
  match m ts w with
  | (Ok a, w') => k a ts w'
  | (Err e, w') => (Err e, w')
  end.

Definition fail {F A} (e : F) : Io F A := λ _ w, (Err e, w).
(** The result of [m] as a value: an error of [m] is tested, not propagated. *)
Definition try_ {F G A} (m : Io F A) : Io G (result F A) := λ ts w, let '(r, w') := m ts w in (Ok r, w').
Definition failing {F G A} (f : F → G) (m : Io F A) : Io G A := λ ts w,
  let '(r, w') := m ts w in (match r with Ok a => Ok a | Err e => Err (f e) end, w').

(** [for _, x := range l] with early return. *)
Fixpoint each {F A} (f : A → Io F unit) (l : list A) : Io F unit :=
  match l with
  | [] => mret tt
  | x :: l' => _ ← f x; each f l'
  end.

Definition next (w : World) (d : CDB) (e : list Event) : World :=
  mkWorld d (S (w_turn w)) (w_log w ++ e).

Definition statement {A} (f : Statement A) : Io Error A := λ ts w,
  let t := ts (w_turn w) in
  let d := t_others t (w_db w) in
  let after := match f d with Ok (d', _) => d' | Err _ => d end in
  match t_fault t with
  | None => (match f d with Ok (_, a) => Ok a | Err e => Err e end, next w after [Statement_run after])
  | Some (code, applied) =>
      let d' := if applied : bool then after else d in (Err (Pg code), next w d' [Statement_run d'])
  end.

Definition Send (chat_id : Z) (text : string) (kb : option telegram.InlineKeyboard) : Io Error Z := λ ts w,
  let r := t_sent (ts (w_turn w)) in (r, next w (w_db w) [Sent chat_id text kb r]).
Definition AnswerCallback (id text : string) : Io Error unit := λ ts w,
  let r := t_answered (ts (w_turn w)) in (r, next w (w_db w) [Answered id text r]).
Definition Now : Io Error Time := λ ts w, 
  let t := t_now (ts (w_turn w)) in (Ok t, next w (w_db w) [Clock t]).
Definition NewV7 : Io Error string := λ ts w,
  (from_option_ok (t_uuid (ts (w_turn w))) ErrRandom, next w (w_db w) []).
Definition rand_Read : Io Error (list Z) := λ ts w,
  (from_option_ok (t_bytes (ts (w_turn w))) ErrRandom, next w (w_db w) []).

(** ** Text *)

(** strings.Cut at a space. *)
Fixpoint Cut (s : string) : string * string :=
  match s with
  | EmptyString => (EmptyString, EmptyString)
  | String a s' => if code a =? 32 then (EmptyString, s')
                   else let '(before, after) := Cut s' in (String a before, after)
  end.

(** The names of the enumeration in lower case, without their prefix. *)
Definition status_name (s : Status) : string :=
  match s with
  | PendingReservation => "pending_reservation"
  | AwaitingCourier => "awaiting_courier"
  | AwaitingPickup => "awaiting_pickup"
  | Delivering => "delivering"
  | Delivered => "delivered"
  | Completed => "completed"
  | Cancelled => "cancelled"
  | Expired => "expired"
  | Failed => "failed"
  | Rejected => "rejected"
  | OtherStatus _ => "unspecified"
  end.

Fixpoint spaced (s : string) : string :=
  match s with
  | EmptyString => EmptyString
  | String a s' => String (if code a =? 95 then byte 32 else a) (spaced s')
  end.

(** strings.ToUpper of the first byte, which alone is no rune from U+0080. *)
Definition capitalize (s : string) : string :=
  match s with
  | EmptyString => EmptyString
  | String a s' => (if code a <? 128 then of_bytes [if within 97 122 (code a) then code a - 32 else code a]
                    else of_bytes [239; 191; 189]) +:+ s'
  end.

Section communication.
  Context `{UUID, Digest, UnicodeLower}.

(** ** Linking (linking/service.go) *)

Definition hashCode (link_code : string) : string := sha256_hex link_code.

Definition CreateCode (user : string) : Io Error (string * Time) :=
  raw ← rand_Read;
  let link_code := text_of (EncodeToString raw) in
  now ← Now;
  let expires := now + CodeLifetime in
  _ ← statement (ReplaceCode (hashCode link_code) user expires now);
  mret (link_code, expires).

Definition Redeem (link_code : string) (c : Chat) : Io Error Link :=
  if nonempty link_code then now ← Now; statement (RedeemCode (hashCode link_code) c now)
  else fail ErrInvalidCode.

Definition Get (user : string) : Io Error Link := statement (GetLink user).
Definition GetByChat (chat_id : Z) : Io Error Link := statement (GetLinkByChat chat_id).
Definition Unlink (user : string) : Io Error unit := statement (DeleteLink user).
Definition UnlinkChat (chat_id : Z) : Io Error unit := statement (DeleteLinkByChat chat_id).

(** *** The calls of telegramlink/handler.go

    A link's URL is its path and its start parameter. *)
Inductive RpcError := CodeUnauthenticated | CodeUnavailable | CodeInternal.
Record LinkURL := { lu_Path : string; lu_Start : string }.
Record GetTelegramLinkResponse := { gr_Linked : bool; gr_LinkedAt : option Time; gr_TelegramUsername : option string }.

Definition callerID (caller : option string) : result RpcError string :=
  match caller ≫= uuid_parse with
  | Some id => if same id uuid_nil then Err CodeUnauthenticated else Ok id
  | None => Err CodeUnauthenticated
  end.
Definition as_caller {A} (caller : option string) (k : string → Io RpcError A) : Io RpcError A :=
  match callerID caller with Ok id => k id | Err e => fail e end.
Definition internal (_ : Error) : RpcError := CodeInternal.

Definition CreateTelegramLink (bot : string) (caller : option string) : Io RpcError (LinkURL * Time) :=
  as_caller caller (λ user,
  if nonempty bot then
    out ← failing internal (CreateCode user);
    mret ({| lu_Path := "/" +:+ bot; lu_Start := out.1 |}, out.2)
  else fail CodeUnavailable).

Definition GetTelegramLink (caller : option string) : Io RpcError GetTelegramLinkResponse :=
  as_caller caller (λ user,
  link ← try_ (Get user);
  match link with
  | Ok link => mret {| gr_Linked := true; gr_LinkedAt := Some (l_LinkedAt link);
                       gr_TelegramUsername := optional (l_Username link) |}
  | Err ErrNotLinked => mret {| gr_Linked := false; gr_LinkedAt := None; gr_TelegramUsername := None |}
  | Err _ => fail CodeInternal
  end).

Definition UnlinkTelegram (caller : option string) : Io RpcError unit :=
  as_caller caller (λ user, failing internal (Unlink user)).

(** ** The relay (chat/relay.go) *)

Definition maxMessageLength : Z := 4096.
Definition selectPrefix : string := "chat:".

Definition notLinkedReply : string :=
  "Connect Telegram in the FoC app first. Then you can chat about your orders here.".
Definition noChatsReply : string :=
  "You have no order chats open. A chat opens when a courier accepts an order.".
Definition chooseReply : string :=
  "Which order is this about? Reply to one of its messages, or choose one below, then send your message again.".
Definition textOnlyReply : string := "Only text messages can be sent to the other person.".
Definition tooLongReply : string := "That message is too long. Please send a shorter one.".
Definition notConnectedReply : string :=
  "The other person hasn't connected Telegram, so they won't see messages here. Please contact them through the FoC app.".
Definition unreachableReply : string :=
  "The other person can't receive Telegram messages right now. Please contact them through the FoC app.".
Definition retryReply : string := "That message couldn't be delivered just now. Please send it again.".
Definition closedReply : string := "Chat for that order has closed.".
Definition pickReply : string :=
  "Choose an order to chat about. Your messages go to the other person until you choose another. You can also reply to any message about an order.".

(** The continuation of a RetryError, and the errors of a handler. *)
Inductive Stage :=
| RecordAndSend (m : chat.Message) (sender_chat : Z)
| SelectAndSend (m : chat.Message) (sender_chat : Z)
| SaveDeliveredTarget (chat_id message_id : Z) (order : string) (at_ : Time)
| Reply (chat_id : Z) (text : string) (kb : option telegram.InlineKeyboard).
Inductive Failure := Plain (e : Error) | RetryError (e : Error) (retry : Stage).

Definition final_for_reply (e : Error) : bool :=
  match e with ErrUnauthorized => true | ErrAPI a => telegram.Rejected a | _ => false end.
Definition reply (chat_id : Z) (text : string) (kb : option telegram.InlineKeyboard) : Io Failure unit :=
  r ← try_ (Send chat_id text kb);
  match r with
  | Ok _ => mret tt
  | Err e => if final_for_reply e then mret tt else fail (RetryError e (Reply chat_id text kb))
  end.

Definition relayedText (o : chat.Order) (sender body : string) : string :=
  let role := if same sender (chat.CourierID o) then "courier" else "requester" in
  "Your " +:+ role +:+ " (" +:+ chat.Label o +:+ "):" +:+ of_bytes [10] +:+ body.

Definition otherRole (o : chat.Order) (user : string) : string :=
  if same user (chat.CourierID o) then "requester" else "courier".

Definition keyboard (orders : list chat.Order) : telegram.InlineKeyboard :=
  (λ o, [{| telegram.b_Text := chat.Label o +:+ " · " +:+ spaced (chat.Status o) +:+ " · "
                               +:+ String.substring 0 6 (chat.ID o);
            telegram.CallbackData := selectPrefix +:+ chat.ID o |}]) <$> orders.

(** The order, if [user] may chat about it now. *)
Definition may_chat (user : string) (now : Time) (o : chat.Order) : bool :=
  (chat.Other o user).2 && chat.IsOpen o now.
Definition openOrder (user order : string) (now : Time) : Io Error chat.Order :=
  r ← try_ (statement (GetOrder order));
  match r with
  | Ok o => if may_chat user now o then mret o else fail ErrClosed
  | Err ErrNotFound => fail ErrClosed
  | Err e => fail e
  end.

Definition openOrders (user : string) (now : Time) : Io Error (list chat.Order) :=
  l ← statement (UserOrders user (now - chat.GracePeriod));
  mret (filter (λ o, may_chat user now o = true) l).

Definition only_open (user : string) (now : Time) : Io Error chat.Order :=
  l ← openOrders user now;
  match l with
  | [] => fail ErrNoChats
  | [o] => mret o
  | _ => fail (ErrChoose l)
  end.

Definition route_plain (user : string) (now : Time) : Io Error chat.Order :=
  selected ← try_ (statement (Selection user));
  match selected with
  | Ok order =>
      o ← try_ (openOrder user order now);
      match o with
      | Ok o => mret o
      | Err ErrClosed => only_open user now
      | Err e => fail e
      end
  | Err ErrNotFound => only_open user now
  | Err e => fail e
  end.

Definition route (user : string) (msg : telegram.Message) (now : Time) : Io Error chat.Order :=
  match telegram.ReplyToMessage msg with
  | Some replied =>
      target ← try_ (statement (ReplyTarget (telegram.c_ID (telegram.InChat msg)) replied));
      match target with
      | Ok order => openOrder user order now
      | Err ErrNotFound => route_plain user now
      | Err e => fail e
      end
  | None => route_plain user now
  end.

Definition saveDeliveredTarget (chat_id message_id : Z) (order : string) (at_ : Time) : Io Failure unit :=
  failing (λ e, RetryError e (SaveDeliveredTarget chat_id message_id order at_))
    (statement (SaveReplyTarget chat_id message_id order at_)).

(** The recheck before each stage: the order, or what to do instead. *)
Definition still_open (m : chat.Message) : Io Error chat.Order :=
  now ← Now;
  o ← openOrder (chat.m_SenderID m) (chat.m_OrderID m) now;
  if same (chat.Other o (chat.m_SenderID m)).1 (chat.m_RecipientID m) then mret o else fail ErrClosed.

Definition relay_send (m : chat.Message) (sender_chat recipient_chat : Z) (text : string) : Io Failure unit :=
  sent ← try_ (Send recipient_chat text None);
  match sent with
  | Ok id => saveDeliveredTarget recipient_chat id (chat.m_OrderID m) (chat.m_SentAt m)
  | Err (ErrAPI a) =>
      if telegram.ChatGone a then
        _ ← failing Plain (UnlinkChat recipient_chat);
        reply sender_chat unreachableReply None
      else reply sender_chat retryReply None
  | Err _ => reply sender_chat retryReply None
  end.

Definition selectAndSend (m : chat.Message) (sender_chat : Z) : Io Failure unit :=
  let retry e := RetryError e (SelectAndSend m sender_chat) in
  order ← try_ (still_open m);
  match order with
  | Err ErrClosed => reply sender_chat closedReply None
  | Err e => fail (retry e)
  | Ok order =>
      sender ← try_ (Get (chat.m_SenderID m));
      match sender with
      | Err ErrNotLinked => reply sender_chat notLinkedReply None
      | Err e => fail (retry e)
      | Ok sender =>
          if negb (l_ChatID sender =? sender_chat) then reply sender_chat notLinkedReply None
          else
          recipient ← try_ (Get (chat.m_RecipientID m));
          match recipient with
          | Err ErrNotLinked => reply sender_chat notConnectedReply None
          | Err e => fail (retry e)
          | Ok recipient =>
              let text := relayedText order (chat.m_SenderID m) (chat.m_Body m) in
              if maxMessageLength <? RuneCountInString text then reply sender_chat tooLongReply None
              else
              _ ← failing retry (now ← Now; statement (Select (chat.m_SenderID m) (chat.m_OrderID m) now));
              relay_send m sender_chat (l_ChatID recipient) text
          end
      end
  end.

Definition recordAndSend (m : chat.Message) (sender_chat : Z) : Io Failure unit :=
  let retry e := RetryError e (RecordAndSend m sender_chat) in
  order ← try_ (still_open m);
  match order with
  | Err ErrClosed => reply sender_chat closedReply None
  | Err e => fail (retry e)
  | Ok _ =>
      _ ← failing retry (statement (SaveMessage m));
      selectAndSend m sender_chat
  end.

Definition resume (s : Stage) : Io Failure unit :=
  match s with
  | RecordAndSend m c => recordAndSend m c
  | SelectAndSend m c => selectAndSend m c
  | SaveDeliveredTarget c i o t => saveDeliveredTarget c i o t
  | Reply c text kb => reply c text kb
  end.

(** The message to relay, once it has been routed to [order]. *)
Definition relay_to (sender : Link) (order : chat.Order) (msg : telegram.Message) (now : Time)
    : Io Failure unit :=
  let chat_id := telegram.c_ID (telegram.InChat msg) in
  let recipient := (chat.Other order (l_UserID sender)).1 in
  let text := relayedText order (l_UserID sender) (telegram.Text msg) in
  if maxMessageLength <? RuneCountInString text then reply chat_id tooLongReply None
  else
    link ← try_ (Get recipient);
    match link with
    | Err ErrNotLinked => reply chat_id notConnectedReply None
    | Err e => fail (Plain e)
    | Ok _ =>
        id ← failing Plain NewV7;
        recordAndSend {| chat.m_ID := id; chat.m_OrderID := chat.ID order; chat.m_SenderID := l_UserID sender;
                         chat.m_RecipientID := recipient; chat.m_Body := telegram.Text msg;
                         chat.m_SentAt := now |} chat_id
    end.

Definition HandleMessage (msg : telegram.Message) : Io Failure unit :=
  let chat_id := telegram.c_ID (telegram.InChat msg) in
  sender ← try_ (GetByChat chat_id);
  match sender with
  | Err ErrNotLinked => reply chat_id notLinkedReply None
  | Err e => fail (Plain e)
  | Ok sender =>
      if negb (nonempty (TrimSpace (telegram.Text msg))) then reply chat_id textOnlyReply None
      else
      now ← failing Plain Now;
      order ← try_ (route (l_UserID sender) msg now);
      match order with
      | Err ErrNoChats => reply chat_id noChatsReply None
      | Err ErrClosed => reply chat_id closedReply None
      | Err (ErrChoose orders) => reply chat_id chooseReply (Some (keyboard orders))
      | Err e => fail (Plain e)
      | Ok order => relay_to sender order msg now
      end
  end.

Definition ShowChats (msg : telegram.Message) : Io Failure unit :=
  let chat_id := telegram.c_ID (telegram.InChat msg) in
  sender ← try_ (GetByChat chat_id);
  match sender with
  | Err ErrNotLinked => reply chat_id notLinkedReply None
  | Err e => fail (Plain e)
  | Ok sender =>
      orders ← failing Plain (now ← Now; openOrders (l_UserID sender) now);
      match orders with
      | [] => reply chat_id noChatsReply None
      | _ => reply chat_id pickReply (Some (keyboard orders))
      end
  end.

(** The order of a button that the user pressed in a private chat with the bot. *)
Definition pressed (cb : telegram.CallbackQuery) : option string :=
  data ← strip_prefix selectPrefix (telegram.cb_Data cb);
  order ← uuid_parse data;
  msg ← telegram.cb_Message cb;
  if same (telegram.c_Type (telegram.InChat msg)) "private"
     && (telegram.c_ID (telegram.InChat msg) =? telegram.u_ID (telegram.cb_From cb))
  then Some order else None.

Definition HandleCallback (cb : telegram.CallbackQuery) : Io Failure unit :=
  let answer text := failing Plain (AnswerCallback (telegram.cb_ID cb) text) in
  let chat_id := telegram.u_ID (telegram.cb_From cb) in
  match pressed cb with
  | None => answer EmptyString
  | Some id =>
      sender ← try_ (GetByChat chat_id);
      match sender with
      | Err ErrNotLinked => answer notLinkedReply
      | Err e => fail (Plain e)
      | Ok sender =>
          now ← failing Plain Now;
          order ← try_ (statement (GetOrder id));
          match order with
          | Err ErrNotFound => answer closedReply
          | Err e => fail (Plain e)
          | Ok order =>
              if may_chat (l_UserID sender) now order then
                _ ← failing Plain (statement (Select (l_UserID sender) (chat.ID order) now));
                _ ← answer EmptyString;
                reply chat_id ("Your messages now go to your " +:+ otherRole order (l_UserID sender)
                  +:+ " for the " +:+ chat.Label order +:+ ".") None
              else answer closedReply
          end
      end
  end.

(** ** The projection of orders (chat/projection.go) *)

Definition ends_order (s : Status) : bool :=
  match s with Completed | Cancelled | Expired | Failed | Rejected => true | _ => false end.

(** The participants that an event carries, unless it is malformed. *)
Definition participants (e : OrderStatusChanged) : option chat.Order :=
  order ← uuid_parse (sc_OrderId e);
  requester ← uuid_parse (sc_RequesterId e);
  courier ← match sc_CourierId e with Some c => uuid_parse c | None => Some uuid_nil end;
  Some {| chat.ID := order; chat.RequesterID := requester; chat.CourierID := courier;
          chat.Status := status_name (sc_Status e); chat.Revision := sc_Revision e;
          chat.PickupName := sc_PickupLocationName e;
          chat.EndedAt := if ends_order (sc_Status e) then sc_OccurredAt e else zero_time |}.

Definition Apply (e : OrderStatusChanged) : Io Error unit :=
  match participants e with
  | Some o => now ← Now; statement (SaveOrder o now)
  | None => mret tt
  end.

(** ** Notifications (notify) *)

Definition MaxAge : Duration := Hour.

Inductive role := requester | courier | previousCourier.
#[global] Instance role_eq_dec : EqDecision role.
Proof. solve_decision. Defined.
Record recipient := { rc_userID : string; rc_role : role }.

Definition recipients (e : OrderStatusChanged) : list recipient :=
  let actor := if same (sc_ActorKind e) User then default EmptyString (sc_ActorId e) else EmptyString in
  let courier_id := default EmptyString (sc_CourierId e) in
  let previous := default EmptyString (sc_PreviousCourierId e) in
  (if nonempty (sc_RequesterId e) && negb (EqualFold (sc_RequesterId e) actor)
   then [{| rc_userID := sc_RequesterId e; rc_role := requester |}] else [])
  ++ (if nonempty courier_id && negb (EqualFold courier_id actor) && negb (EqualFold courier_id (sc_RequesterId e))
      then [{| rc_userID := courier_id; rc_role := courier |}] else [])
  ++ (if nonempty previous && negb (nonempty courier_id) && negb (EqualFold previous actor)
      then [{| rc_userID := previous; rc_role := previousCourier |}] else []).

Definition order_text (e : OrderStatusChanged) (r : role) : string :=
  let order := match r with
               | requester => "your order"
               | courier => "the order you're delivering"
               | previousCourier => "the order"
               end in
  if nonempty (sc_PickupLocationName e) then order +:+ " from " +:+ sc_PickupLocationName e else order.

Definition message (e : OrderStatusChanged) (r : role) : string :=
  let order := order_text e r in
  match r with
  | previousCourier =>
      if same (sc_Status e) AwaitingCourier
      then "You've been unassigned from " +:+ order +:+ ". You don't need to pick it up."
      else EmptyString
  | _ =>
      let to_courier := same r courier in
      match sc_Status e with
      | AwaitingCourier =>
          if to_courier then EmptyString
          else if same (sc_PreviousStatus e) AwaitingPickup
          then "Your courier is no longer assigned to " +:+ order +:+ ". It's open for other couriers again."
          else capitalize order +:+ " is open. We'll tell you when a courier accepts it."
      | AwaitingPickup =>
          if to_courier then "Your offer was accepted. Head to the pickup location for " +:+ order +:+ "."
          else "A courier accepted " +:+ order +:+ "."
      | Delivering => capitalize order +:+ " has been picked up and is on its way."
      | Delivered =>
          if to_courier then EmptyString
          else capitalize order +:+ " has been delivered. Please confirm receipt in the FoC app."
      | Completed =>
          if to_courier then "The requester confirmed receipt of " +:+ order +:+ ". Thanks for delivering!"
          else capitalize order +:+ " is complete."
      | Cancelled =>
          if to_courier && same (sc_PreviousStatus e) Delivering
          then capitalize order +:+ " was cancelled after pickup. Please record where you left the item in the FoC app."
          else capitalize order +:+ " was cancelled."
      | Expired => capitalize order +:+ " expired before a courier accepted it."
      | Failed => "Delivery of " +:+ order +:+ " failed."
      | Rejected => capitalize order +:+ " couldn't be opened because the reward couldn't be reserved."
      | _ => EmptyString
      end
  end.

(** After a send that Telegram accepted. *)
Definition record_sent (event order user : string) (chat_id message_id : Z) : Io Error unit :=
  _ ← (now ← Now; statement (RecordSent event user now));
  match uuid_parse order with
  | Some id => _ ← try_ (F := Error) (now ← Now; statement (SaveReplyTarget chat_id message_id id now)); mret tt
  | None => mret tt
  end.

Definition notify (event order user text : string) : Io Error unit :=
  sent ← statement (HasBeenSent event user);
  if sent : bool then mret tt
  else
    link ← try_ (Get user);
    match link with
    | Err ErrNotLinked => mret tt
    | Err e => fail e
    | Ok link =>
        r ← try_ (Send (l_ChatID link) text None);
        match r with
        | Ok id => record_sent event order user (l_ChatID link) id
        | Err (ErrAPI a) =>
            if telegram.ChatGone a then UnlinkChat (l_ChatID link)
            else if telegram.Rejected a then mret tt
            else fail (ErrAPI a)
        | Err e => fail e
        end
    end.

Definition notify_recipient (e : OrderStatusChanged) (event : string) (r : recipient) : Io Error unit :=
  let text := message e (rc_role r) in
  if nonempty text then
    match uuid_parse (rc_userID r) with
    | Some user => notify event (sc_OrderId e) user text
    | None => mret tt
    end
  else mret tt.

Definition Notify_Handle (e : OrderStatusChanged) : Io Error unit :=
  match uuid_parse (sc_EventId e) with
  | None => mret tt
  | Some event =>
      now ← Now;
      if MaxAge <? time_sub now (sc_OccurredAt e) then mret tt
      else each (notify_recipient e event) (recipients e)
  end.

(** The consumer of cmd/server: an error replays the event. *)
Definition consume (e : OrderStatusChanged) : Io Error unit := _ ← Apply e; Notify_Handle e.

Definition notificationRetryDelay (e : Error) (backoff : Duration) : Duration :=
  match e with
  | ErrAPI a => if telegram.Code a =? 429 then Z.max backoff (telegram.RetryAfter a) else backoff
  | _ => backoff
  end.

(** ** The bot (bot/handler.go) *)

Definition startReply : string :=
  "Hi! This is the Friend on Campus bot. To get order updates and chat with your courier or requester here, choose Connect Telegram in the FoC app.".
Definition helpReply : string :=
  "Send a message to chat with the other person on your order. Reply to a message about an order to answer about that order, or use /chat to choose one.".
Definition linkedReply : string :=
  "Connected. You'll get FoC order updates here. You can disconnect anytime from your FoC profile.".
Definition invalidReply : string :=
  "This link has expired or was already used. Choose Connect Telegram in the FoC app to get a new one.".
Definition bot_retryReply : string := "Something went wrong connecting your account. Please press Start again.".

Definition SendMessage (chat_id : Z) (text : string) : Io Failure unit :=
  _ ← failing Plain (Send chat_id text None); mret tt.

Definition redeem_start (msg : telegram.Message) (link_code : string) : Io Failure unit :=
  let chat_id := telegram.c_ID (telegram.InChat msg) in
  let username := match telegram.From msg with Some u => telegram.u_Username u | None => EmptyString end in
  link ← try_ (Redeem link_code {| ch_ID := chat_id; ch_Username := username |});
  match link with
  | Ok _ => SendMessage chat_id linkedReply
  | Err ErrInvalidCode => SendMessage chat_id invalidReply
  | Err _ => SendMessage chat_id bot_retryReply
  end.

Definition handleMessage (msg : telegram.Message) : Io Failure unit :=
  let chat_id := telegram.c_ID (telegram.InChat msg) in
  if negb (same (telegram.c_Type (telegram.InChat msg)) "private") then mret tt
  else
    let '(command, rest) := Cut (TrimSpace (telegram.Text msg)) in
    if same command "/chat" then ShowChats msg
    else if same command "/help" then SendMessage chat_id helpReply
    else if HasPrefix "/" command && negb (same command "/start") then SendMessage chat_id helpReply
    else if negb (same command "/start") then HandleMessage msg
    else
      let link_code := TrimSpace rest in
      if nonempty link_code then redeem_start msg link_code else SendMessage chat_id startReply.

Definition handleMembership (change : telegram.ChatMemberUpdated) : Io Failure unit :=
  if same (telegram.c_Type (telegram.mm_Chat change)) "private" && same (telegram.mm_NewStatus change) "kicked"
  then failing Plain (UnlinkChat (telegram.c_ID (telegram.mm_Chat change)))
  else mret tt.

Definition Bot_Handle (u : telegram.Update) : Io Failure unit :=
  match telegram.up_MyChatMember u, telegram.up_CallbackQuery u, telegram.up_Message u with
  | Some change, _, _ => handleMembership change
  | None, Some cb, _ => HandleCallback cb
  | None, None, Some msg => handleMessage msg
  | None, None, None => mret tt
  end.

(** ** The poller (telegram/poller.go)

    An update that keeps failing is retried until the service stops: [patience]
    is how many times that is, and the result whether the update is done with. *)
Definition retry_delay (e : Error) (backoff : Duration) : Duration :=
  match e with ErrAPI a => Z.max backoff (telegram.RetryAfter a) | _ => backoff end.

Fixpoint retrying (patience : nat) (r : result Failure unit) : Io Error bool :=
  match r with
  | Ok _ | Err (Plain _) => mret true
  | Err (RetryError _ s) =>
      match patience with
      | O => mret false
      | S n => r ← try_ (resume s); retrying n r
      end
  end.

Definition process (patience : nat) (u : telegram.Update) : Io Error bool :=
  r ← try_ (Bot_Handle u); retrying patience r.

(** The updates of one poll, and the next offset; [false] when the service stops. *)
Fixpoint process_all (patience : telegram.Update → nat) (us : list telegram.Update) (offset : Z)
    : Io Error (Z * bool) :=
  match us with
  | [] => mret (offset, true)
  | u :: us' =>
      done_ ← process (patience u) u;
      if done_ : bool then process_all patience us' (add64 (telegram.UpdateID u) 1) else mret (offset, false)
  end.

(** The polls until the service stops: what getUpdates answers at an offset. *)
Fixpoint Run (patience : telegram.Update → nat) (polls : list (Z → result Error (list telegram.Update)))
    (offset : Z) : Io Error Z :=
  match polls with
  | [] => mret offset
  | GetUpdates :: polls' =>
      match GetUpdates offset with
      | Err ErrUnauthorized => fail ErrUnauthorized
      | Err _ => Run patience polls' offset
      | Ok us =>
          r ← process_all patience us offset;
          if r.2 : bool then Run patience polls' r.1 else mret r.1
      end
  end.

(** ** The cleanup (chat/retention.go): one round of RunCleanup *)
Definition cleanup : Io Error Z :=
  now ← Now; statement (DeleteExpired (now - chat.Retention) (now - chat.GracePeriod)).

End communication.
