(* ===== verification/CommunicationRuns.v ===== *)
(** * Communication: its runs

    The changes that the service makes to its database and the invariant that every
    sequence of them keeps; that programs make only such changes; and a logic for
    what a program logs. *)
From stdpp Require Import prelude gmap strings list sorting.
From Stdlib Require Import ZArith Lia.
From S2P Require Import Prelude.
From S2P Require Import GoLib.
From S2P Require Import GoText.
From S2P Require Import GoMail.
From S2P Require Import OrderTypes.
From S2P Require Import OrderOutbox.
From S2P Require Import CommunicationDB.
From S2P Require Import Communication.

Local Open Scope Z_scope.
Local Open Scope foc_scope.

(** ** Changes of the database

    What a statement or transaction of the service may be; one that fails is
    rolled back. *)
Inductive Op :=
| OpReplaceCode (hash user : string) (expires created : Time)
| OpRedeem (hash : string) (c : Chat) (now : Time)
| OpUnlink (user : string)
| OpUnlinkChat (chat_id : Z)
| OpSaveOrder (o : chat.Order) (now : Time)
| OpSaveTarget (chat_id message_id : Z) (order : string) (at_ : Time)
| OpSelect (user order : string) (at_ : Time)
| OpSaveMessage (m : chat.Message)
| OpRecordSent (event user : string) (at_ : Time)
| OpCleanup (cutoff closed_before : Time).

Definition left_by {A} (s : Statement A) (d : CDB) : CDB := match s d with Ok (d', _) => d' | Err _ => d end.

Definition apply_op (d : CDB) (o : Op) : CDB :=
  match o with
  | OpReplaceCode h u e c => left_by (ReplaceCode h u e c) d
  | OpRedeem h c now => left_by (RedeemCode h c now) d
  | OpUnlink u => left_by (DeleteLink u) d
  | OpUnlinkChat c => left_by (DeleteLinkByChat c) d
  | OpSaveOrder o now => left_by (SaveOrder o now) d
  | OpSaveTarget c m o t => left_by (SaveReplyTarget c m o t) d
  | OpSelect u o t => left_by (Select u o t) d
  | OpSaveMessage m => left_by (SaveMessage m) d
  | OpRecordSent e u t => left_by (RecordSent e u t) d
  | OpCleanup c b => left_by (DeleteExpired c b) d
  end.

Definition run (ops : list Op) (d : CDB) : CDB := foldl apply_op d ops.
Definition reachable (d : CDB) : Prop := ∃ ops, d = run ops empty_cdb.

Lemma run_app ops1 ops2 d : run (ops1 ++ ops2) d = run ops2 (run ops1 d).
Proof. apply foldl_app. Qed.

Lemma run_cons o ops d : run (o :: ops) d = run ops (apply_op d o).
Proof. done. Qed.

Lemma run_keeps (P : Op → Prop) (Q : CDB → Prop) ops d :
  (∀ o d, P o → Q d → Q (apply_op d o)) → Forall P ops → Q d → Q (run ops d).
Proof. intros Hs Hops. revert d. induction Hops as [|o ops Ho _ IH]; intros d Hd; [done|]. apply IH. eauto. Qed.

(** The transaction of RedeemCode, when it succeeds. *)
Lemma RedeemCode_ok hash c now d d' link :
  RedeemCode hash c now d = Ok (d', link) ↔
  ∃ row, telegram_link_codes d !! hash = Some row ∧ unused row = true
    ∧ stored_time now < lc_ExpiresAt row ∧ opt_text_ok (optional (ch_Username c)) = true
    ∧ link = {| l_UserID := lc_UserID row; l_ChatID := ch_ID c; l_Username := ch_Username c; l_LinkedAt := now |}
    ∧ d' = d <| telegram_link_codes := <[hash := row <| lc_UsedAt := Some (stored_time now) |>]> (telegram_link_codes d) |>
             <| telegram_links :=
                <[lc_UserID row := {| tl_ChatID := ch_ID c; tl_Username := optional (ch_Username c);
                                      tl_LinkedAt := stored_time now |}]>
                  (filter (λ l, ¬ (tl_ChatID l.2 = ch_ID c ∧ l.1 ≠ lc_UserID row)) (telegram_links d)) |>.
Proof.
  assert (∀ user (m : gmap string LinkRow),
    bool_decide (map_Forall (λ u l, u = user ∨ tl_ChatID l ≠ ch_ID c)
      (filter (λ l, ¬ (tl_ChatID l.2 = ch_ID c ∧ l.1 ≠ user)) m)) = true) as Huniq.
  { intros user m. apply bool_decide_eq_true. intros u l [_ Hn]%map_lookup_filter_Some. simpl in Hn.
    destruct (decide (u = user)); [by left|right]. tauto. }
  unfold RedeemCode, then_, or_error, then_, UseCode, ReleaseChat, changes, SaveLink.
  destruct (telegram_link_codes d !! hash) as [row|]; [|split; [done|by intros (? & [=] & _)]].
  destruct (unused row) eqn:Hu; cbn [andb]; [|split; [done|intros (? & [= <-] & Hu' & _); congruence]].
  destruct (Z.ltb_spec (stored_time now) (lc_ExpiresAt row)); cbn [mret result_mret];
    [|split; [done|intros (? & [= <-] & _ & ? & _); lia]].
  unfold update_field, set_telegram_links. cbn. rewrite Huniq.
  destruct (opt_text_ok _) eqn:Ht; cbn; [|split; [done|intros (? & _ & _ & _ & ? & _); congruence]].
  split.
  - intros [= <- <-]. exists row. by repeat split.
  - by intros (? & [= <-] & _ & _ & _ & -> & ->).
Qed.

(** ** The invariant *)

Definition chat_of (l : LinkRow) : option Z := Some (tl_ChatID l).
Definition unused_by (c : CodeRow) : option string := if unused c then Some (lc_UserID c) else None.

Record participants_ok (p : ParticipantsRow) : Prop := {
  po_courier : op_CourierID p ≠ Some uuid_nil;
  po_ended t : op_EndedAt p = Some t → stored_time t = t;
}.

Record CInv (d : CDB) : Prop := {
  ci_chat : unique_by chat_of (telegram_links d);
  ci_code : unique_by unused_by (telegram_link_codes d);
  ci_message id m : chat_messages d !! id = Some m → chat.m_ID m = id;
  ci_order id p : order_participants d !! id = Some p → participants_ok p;
}.

Lemma CInv_empty : CInv empty_cdb.
Proof. split; try apply unique_by_empty; intros ?? Hp; cbn in Hp; by rewrite lookup_empty in Hp. Qed.

Lemma unused_code_spec user d :
  match unused_code user d with
  | Some (h, c) => telegram_link_codes d !! h = Some c ∧ lc_UserID c = user ∧ unused c = true
  | None => ∀ h c, telegram_link_codes d !! h = Some c → unused c = true → lc_UserID c ≠ user
  end.
Proof.
  unfold unused_code. destruct (find_first _ _) as [[h c]|] eqn:Hf.
  - apply find_first_some in Hf as [Hin [?%same_eq ?]%andb_prop]. by apply elem_of_map_to_list in Hin.
  - intros h c Hh Hu Hc. eapply find_first_None in Hf; [|by apply elem_of_map_to_list].
    cbn in Hf. by rewrite Hc, same_refl, Hu in Hf.
Qed.

Lemma unique_by_filter {K A B} `{Countable K} (key : A → option B) (P : K * A → Prop)
    `{∀ x, Decision (P x)} (m : gmap K A) : unique_by key m → unique_by key (filter P m).
Proof.
  intros Hm i j x y b [Hi _]%map_lookup_filter_Some [Hj _]%map_lookup_filter_Some. by apply Hm.
Qed.

Lemma ReplaceCode_inv h u e c d d' x : ReplaceCode h u e c d = Ok (d', x) → CInv d → CInv d'.
Proof.
  unfold ReplaceCode. intros Hr HI. inv_ok Hr. simplify_eq.
  split; cbn; try apply HI. pose proof (unused_code_spec u d) as Hs.
  apply unique_by_insert.
  - destruct (unused_code u d) as [[old ?]|]; [|apply HI].
    intros i j y z b [? Hi]%lookup_delete_Some [? Hj]%lookup_delete_Some. by apply (ci_code d HI).
  - intros j y b Hj [= <-] Hy. exfalso. unfold unused_by in Hy.
    destruct (unused y) eqn:Hu; [|done]. injection Hy as Hy.
    destruct (unused_code u d) as [[old w]|].
    + apply lookup_delete_Some in Hj as [Hne Hj]. destruct Hs as (Hold & Hw & Hwu). apply Hne.
      eapply (ci_code d HI); [exact Hold|exact Hj|unfold unused_by; by rewrite Hwu|].
      unfold unused_by. rewrite Hu. congruence.
    + by apply (Hs _ _ Hj Hu).
Qed.

Lemma RedeemCode_inv h c now d d' x : RedeemCode h c now d = Ok (d', x) → CInv d → CInv d'.
Proof.
  intros (row & Hrow & Hu & _ & _ & _ & ->)%RedeemCode_ok HI. split; cbn; try apply HI.
  - apply unique_by_insert; [apply unique_by_filter, HI|].
    intros j y b [_ Hn]%map_lookup_filter_Some Hb Hy. unfold chat_of in *. cbn in *. simplify_eq.
    destruct (decide (lc_UserID row = j)); [done|]. exfalso. apply Hn. split; congruence.
  - eapply unique_by_put; [apply HI|exact Hrow|]. by intros b [=].
Qed.

Lemma SaveOrder_inv o now d d' x : SaveOrder o now d = Ok (d', x) → CInv d → CInv d'.
Proof.
  unfold SaveOrder. intros Hr HI. inv_ok Hr. simplify_eq.
  destruct (newer _ _); [|done]. split; cbn; try apply HI.
  intros id p [[<- <-]|[_ Hp]]%lookup_insert_Some; [|by eapply (ci_order d HI)].
  split; cbn.
  - unfold nullID. destruct (same _ _) eqn:Hs; [done|]. apply same_ne in Hs. congruence.
  - intros t. destruct (nullTime _); [|done]. intros [= <-]. apply stored_time_idemp.
Qed.

Lemma SaveMessage_inv m d d' x : SaveMessage m d = Ok (d', x) → CInv d → CInv d'.
Proof.
  unfold SaveMessage. intros Hr HI. inv_ok Hr. simplify_eq.
  destruct (chat_messages d !! _) eqn:Hm; [done|]. split; cbn; try apply HI.
  intros id w [[<- <-]|[_ Hw]]%lookup_insert_Some; [done|by eapply (ci_message d HI)].
Qed.

Lemma left_by_inv {A} (s : Statement A) d :
  (∀ d' x, s d = Ok (d', x) → CInv d → CInv d') → CInv d → CInv (left_by s d).
Proof. unfold left_by. intros Hs HI. destruct (s d) as [[d' x]|] eqn:E; [by eapply Hs|done]. Qed.

Lemma apply_op_inv d o : CInv d → CInv (apply_op d o).
Proof.
  intros HI. destruct o; unfold apply_op.
  - apply left_by_inv; [intros ??; apply ReplaceCode_inv|done].
  - apply left_by_inv; [intros ??; apply RedeemCode_inv|done].
  - split; cbn; try apply HI. { intros i j a b k [? Hi]%lookup_delete_Some [? Hj]%lookup_delete_Some. by apply (ci_chat d HI). }
    apply unique_by_filter, HI.
  - split; cbn; try apply HI. apply unique_by_filter, HI.
  - apply left_by_inv; [intros ??; apply SaveOrder_inv|done].
  - by destruct HI.
  - by destruct HI.
  - apply left_by_inv; [intros ??; apply SaveMessage_inv|done].
  - cbn. destruct (_ !! _); by destruct HI.
  - split; cbn; try apply HI; intros ? ? [Hp _]%map_lookup_filter_Some;
      [by eapply (ci_message d HI)|by eapply (ci_order d HI)].
Qed.

Lemma reachable_CInv d : reachable d → CInv d.
Proof.
  intros [ops ->]. apply (run_keeps (λ _, True)); [|by apply Forall_true|apply CInv_empty].
  intros d o _. apply apply_op_inv.
Qed.

(** ** What programs do to the database

    Other clients of the database change it as the service does, by the changes
    that [P] allows. *)
Definition others_within (P : Op → Prop) (ts : Turns) : Prop :=
  ∀ n d, ∃ ops, Forall P ops ∧ t_others (ts n) d = run ops d.
Definition others_ok : Turns → Prop := others_within (λ _, True).

Definition in_log (d : CDB) (w : World) : Prop := Statement_run d ∈ w_log w.

Definition is_cleanup (o : Op) : Prop := match o with OpCleanup _ _ => True | _ => False end.

Lemma reachable_step d o : reachable d → reachable (apply_op d o).
Proof. intros [ops ->]. exists (ops ++ [o]). by rewrite run_app. Qed.
Lemma reachable_run d ops : reachable d → reachable (run ops d).
Proof. intros [ops0 ->]. exists (ops0 ++ ops). by rewrite run_app. Qed.

Create HintDb comm discriminated.

Section sound.
  Context (P : Op → Prop) (HP : ∀ o, ¬ is_cleanup o → P o).

(** Whatever the changes of [P] keep, [m] keeps, and sees nothing else. *)
Definition sound {F A} (m : Io F A) : Prop := ∀ (I : CDB → Prop) ts w,
  (∀ d o, P o → I d → I (apply_op d o)) → others_within P ts → I (w_db w) →
  I (w_db (m ts w).2) ∧ ∀ d, in_log d (m ts w).2 → in_log d w ∨ I d.

Lemma sound_ret {F A} (a : A) : sound (F := F) (mret a).
Proof. intros I ts w _ _ Hw. split; auto. Qed.
Lemma sound_fail {F A} (e : F) : sound (A := A) (fail e).
Proof. intros I ts w _ _ Hw. split; auto. Qed.
Lemma sound_bind {F A B} (m : Io F A) (k : A → Io F B) : sound m → (∀ a, sound (k a)) → sound (m ≫= k).
Proof.
  intros Hm Hk I ts w HI Ho Hw. unfold mbind, io_mbind. destruct (Hm I ts w HI Ho Hw) as [H1 H2].
  destruct (m ts w) as [[a|e] w']; [|done]. destruct (Hk a I ts w' HI Ho H1) as [H3 H4].
  split; [done|]. intros d [?|?]%H4; auto.
Qed.
Lemma sound_try {F G A} (m : Io F A) : sound m → sound (try_ (G := G) m).
Proof. intros Hm I ts w HI Ho Hw. unfold try_. specialize (Hm I ts w HI Ho Hw). by destruct (m ts w). Qed.
Lemma sound_failing {F G A} (f : F → G) (m : Io F A) : sound m → sound (failing f m).
Proof. intros Hm I ts w HI Ho Hw. unfold failing. specialize (Hm I ts w HI Ho Hw). by destruct (m ts w). Qed.

(** A call that logs no database. *)
Lemma sound_call {F A} (m : Io F A) :
  (∀ ts w, ∃ e, (m ts w).2 = next w (w_db w) e ∧ ∀ d, Statement_run d ∉ e) → sound m.
Proof.
  intros Hm I ts w _ _ Hw. destruct (Hm ts w) as (e & -> & He). split; [done|].
  intros d [?|?]%elem_of_app; [by left|by destruct (He d)].
Qed.
Lemma sound_Send c text kb : sound (Send c text kb).
Proof. apply sound_call. intros. eexists. split; [done|]. intros d. by rewrite list_elem_of_singleton. Qed.
Lemma sound_AnswerCallback id text : sound (AnswerCallback id text).
Proof. apply sound_call. intros. eexists. split; [done|]. intros d. by rewrite list_elem_of_singleton. Qed.
Lemma sound_Now : sound Now.
Proof. apply sound_call. intros. eexists. split; [done|]. intros d. by rewrite list_elem_of_singleton. Qed.
Lemma sound_NewV7 : sound NewV7.
Proof. apply sound_call. intros. eexists. split; [done|]. intros d. apply not_elem_of_nil. Qed.
Lemma sound_rand_Read : sound rand_Read.
Proof. apply sound_call. intros. eexists. split; [done|]. intros d. apply not_elem_of_nil. Qed.

Lemma sound_statement {A} (f : Statement A) :
  (∀ d, ∃ ops, Forall P ops ∧ left_by f d = run ops d) → sound (statement f).
Proof.
  intros Hf I ts w HI Ho Hw. unfold statement. destruct (Ho (w_turn w) (w_db w)) as (ops & Hops & Hd).
  assert (I (t_others (ts (w_turn w)) (w_db w))) as H1 by (rewrite Hd; apply (run_keeps P); auto).
  assert (I (left_by f (t_others (ts (w_turn w)) (w_db w)))) as H2.
  { destruct (Hf (t_others (ts (w_turn w)) (w_db w))) as (ops' & ? & ->). apply (run_keeps P); auto. }
  unfold left_by in H2.
  destruct (t_fault _) as [[code []]|]; cbn [snd w_db next]; (split; [done|]);
    intros d [?|[= ->]%list_elem_of_singleton]%elem_of_app; by auto.
Qed.
Lemma changes_by {A} (f : Statement A) o : P o → (∀ d, left_by f d = apply_op d o) → sound (statement f).
Proof. intros Ho Hf. apply sound_statement. intros d. exists [o]. split; [by repeat constructor|apply Hf]. Qed.
Lemma reading {A} (f : Statement A) : (∀ d, left_by f d = d) → sound (statement f).
Proof. intros Hf. apply sound_statement. intros d. exists []. split; [constructor|apply Hf]. Qed.
Lemma reads_or_error {A} (e : Error) (f : CDB → option A) d : left_by (or_error e (reads f)) d = d.
Proof. unfold left_by, or_error, then_, reads. by destruct (f d). Qed.

#[local] Hint Resolve sound_ret sound_fail sound_Send sound_AnswerCallback sound_Now sound_NewV7
  sound_rand_Read : comm.

(** [sound_steps] takes a program apart. *)
Ltac sound_steps :=
  repeat (cbn beta zeta; lazymatch goal with
  | |- ∀ _, _ => intro
  | |- sound (mbind _ _) => apply sound_bind
  | |- sound (try_ _) => apply sound_try
  | |- sound (failing _ _) => apply sound_failing
  | |- sound (match ?x with _ => _ end) => destruct x
  | |- sound _ => solve [auto with comm]
  end).

  Context `{UUID, Digest, UnicodeLower}.

Lemma sound_ReplaceCode h u e c : sound (statement (ReplaceCode h u e c)).
Proof. apply (changes_by _ (OpReplaceCode h u e c)); [|done]. by apply HP; intros []. Qed.
Lemma sound_RedeemCode h c now : sound (statement (RedeemCode h c now)).
Proof. apply (changes_by _ (OpRedeem h c now)); [|done]. by apply HP; intros []. Qed.
Lemma sound_DeleteLink u : sound (statement (DeleteLink u)).
Proof. apply (changes_by _ (OpUnlink u)); [|done]. by apply HP; intros []. Qed.
Lemma sound_DeleteLinkByChat c : sound (statement (DeleteLinkByChat c)).
Proof. apply (changes_by _ (OpUnlinkChat c)); [|done]. by apply HP; intros []. Qed.
Lemma sound_SaveOrder o now : sound (statement (SaveOrder o now)).
Proof. apply (changes_by _ (OpSaveOrder o now)); [|done]. by apply HP; intros []. Qed.
Lemma sound_SaveReplyTarget c m o t : sound (statement (SaveReplyTarget c m o t)).
Proof. apply (changes_by _ (OpSaveTarget c m o t)); [|done]. by apply HP; intros []. Qed.
Lemma sound_Select u o t : sound (statement (Select u o t)).
Proof. apply (changes_by _ (OpSelect u o t)); [|done]. by apply HP; intros []. Qed.
Lemma sound_SaveMessage m : sound (statement (SaveMessage m)).
Proof. apply (changes_by _ (OpSaveMessage m)); [|done]. by apply HP; intros []. Qed.
Lemma sound_RecordSent e u t : sound (statement (RecordSent e u t)).
Proof. apply (changes_by _ (OpRecordSent e u t)); [|done]. by apply HP; intros []. Qed.
Lemma sound_DeleteExpired c b : P (OpCleanup c b) → sound (statement (DeleteExpired c b)).
Proof. intros Hp. by apply (changes_by _ (OpCleanup c b)). Qed.
Lemma sound_GetLink u : sound (statement (GetLink u)).
Proof. apply reading, reads_or_error. Qed.
Lemma sound_GetLinkByChat c : sound (statement (GetLinkByChat c)).
Proof. apply reading, reads_or_error. Qed.
Lemma sound_GetOrder i : sound (statement (GetOrder i)).
Proof. apply reading, reads_or_error. Qed.
Lemma sound_ReplyTarget c i : sound (statement (ReplyTarget c i)).
Proof. apply reading, reads_or_error. Qed.
Lemma sound_Selection u : sound (statement (Selection u)).
Proof. apply reading, reads_or_error. Qed.
Lemma sound_UserOrders u t : sound (statement (UserOrders u t)).
Proof. by apply reading. Qed.
Lemma sound_HasBeenSent e u : sound (statement (HasBeenSent e u)).
Proof. by apply reading. Qed.
#[local] Hint Resolve sound_ReplaceCode sound_RedeemCode sound_DeleteLink sound_DeleteLinkByChat sound_SaveOrder
  sound_SaveReplyTarget sound_Select sound_SaveMessage sound_RecordSent sound_GetLink
  sound_GetLinkByChat sound_GetOrder sound_ReplyTarget sound_Selection sound_UserOrders sound_HasBeenSent : comm.

Lemma sound_Redeem link_code c : sound (Redeem link_code c).
Proof. unfold Redeem. sound_steps. Qed.
#[local] Hint Resolve sound_Redeem : comm.
Lemma sound_CreateTelegramLink bot caller : sound (CreateTelegramLink bot caller).
Proof. unfold CreateTelegramLink, as_caller, CreateCode. sound_steps. Qed.
Lemma sound_GetTelegramLink caller : sound (GetTelegramLink caller).
Proof. unfold GetTelegramLink, as_caller, Get. sound_steps. Qed.
Lemma sound_UnlinkTelegram caller : sound (UnlinkTelegram caller).
Proof. unfold UnlinkTelegram, as_caller, Unlink. sound_steps. Qed.

Lemma sound_reply c text kb : sound (reply c text kb).
Proof. unfold reply. sound_steps. Qed.
Lemma sound_SendMessage c text : sound (SendMessage c text).
Proof. unfold SendMessage. sound_steps. Qed.
Lemma sound_openOrder u o now : sound (openOrder u o now).
Proof. unfold openOrder. sound_steps. Qed.
Lemma sound_openOrders u now : sound (openOrders u now).
Proof. unfold openOrders. sound_steps. Qed.
#[local] Hint Resolve sound_reply sound_SendMessage sound_openOrder sound_openOrders : comm.
Lemma sound_route u msg now : sound (route u msg now).
Proof. unfold route, route_plain, only_open. sound_steps. Qed.
Lemma sound_saveDeliveredTarget c i o t : sound (saveDeliveredTarget c i o t).
Proof. unfold saveDeliveredTarget. sound_steps. Qed.
#[local] Hint Resolve sound_route sound_saveDeliveredTarget : comm.
Lemma sound_selectAndSend m c : sound (selectAndSend m c).
Proof. unfold selectAndSend, still_open, relay_send, Get, UnlinkChat. sound_steps. Qed.
#[local] Hint Resolve sound_selectAndSend : comm.
Lemma sound_recordAndSend m c : sound (recordAndSend m c).
Proof. unfold recordAndSend, still_open. sound_steps. Qed.
#[local] Hint Resolve sound_recordAndSend : comm.
Lemma sound_HandleMessage msg : sound (HandleMessage msg).
Proof. unfold HandleMessage, relay_to, GetByChat, Get. sound_steps. Qed.
Lemma sound_ShowChats msg : sound (ShowChats msg).
Proof. unfold ShowChats, GetByChat. sound_steps. Qed.
Lemma sound_HandleCallback cb : sound (HandleCallback cb).
Proof. unfold HandleCallback, GetByChat. sound_steps. Qed.
#[local] Hint Resolve sound_HandleMessage sound_ShowChats sound_HandleCallback : comm.

Lemma sound_Bot_Handle u : sound (Bot_Handle u).
Proof.
  unfold Bot_Handle, handleMembership, handleMessage, redeem_start, UnlinkChat. sound_steps.
Qed.
Lemma sound_resume s : sound (resume s).
Proof. unfold resume. sound_steps. Qed.
#[local] Hint Resolve sound_Bot_Handle sound_resume : comm.
Lemma sound_retrying n r : sound (retrying n r).
Proof. revert r. induction n as [|n IH]; intros [?|[|]]; cbn [retrying]; sound_steps. Qed.
Lemma sound_process n u : sound (process n u).
Proof. unfold process. sound_steps. apply sound_retrying. Qed.

(** Where a program leads is a sequence of changes away. *)
Lemma sound_reaches {F A} (m : Io F A) ts w : sound m → others_within P ts → ∃ ops, w_db (m ts w).2 = run ops (w_db w).
Proof.
  intros Hm Ho. apply (Hm (λ d, ∃ ops, d = run ops (w_db w)) ts w); [|done|by exists []].
  intros d o _ [ops ->]. exists (ops ++ [o]). by rewrite run_app.
Qed.

Lemma sound_each {F A} (f : A → Io F unit) l : (∀ x, sound (f x)) → sound (each f l).
Proof. intros Hf. induction l as [|x l IH]; cbn [each]; sound_steps; apply Hf. Qed.
Lemma sound_consume e : sound (consume e).
Proof.
  unfold consume, Apply, Notify_Handle. sound_steps. apply sound_each. intros r.
  unfold notify_recipient, notify, record_sent, Get, UnlinkChat. sound_steps.
Qed.
Lemma sound_cleanup : (∀ o, P o) → sound cleanup.
Proof. intros Hp. unfold cleanup. sound_steps. by apply sound_DeleteExpired. Qed.
End sound.

(** ** What programs log

    From any world with log [l], [m] ends with a result and a log in [Q]. *)
Definition logs {F A} (m : Io F A) (l : list Event) (Q : result F A → list Event → Prop) : Prop :=
  ∀ ts w, w_log w = l → Q (m ts w).1 (w_log (m ts w).2).

Lemma logs_mono {F A} (m : Io F A) l (Q Q' : result F A → list Event → Prop) :
  logs m l Q → (∀ r l', Q r l' → Q' r l') → logs m l Q'.
Proof. intros Hm HQ ts w Hw. apply HQ, Hm, Hw. Qed.
Lemma logs_ret {F A} (a : A) l (Q : result F A → list Event → Prop) : Q (Ok a) l → logs (mret a) l Q.
Proof. by intros HQ ts w <-. Qed.
Lemma logs_fail {F A} (e : F) l (Q : result F A → list Event → Prop) : Q (Err e) l → logs (fail e) l Q.
Proof. by intros HQ ts w <-. Qed.
Lemma logs_bind {F A B} (m : Io F A) (k : A → Io F B) l Q :
  logs m l (λ r l', match r with Ok a => logs (k a) l' Q | Err e => Q (Err e) l' end) → logs (m ≫= k) l Q.
Proof.
  intros Hm ts w Hw. specialize (Hm ts w Hw). unfold mbind, io_mbind.
  destruct (m ts w) as [[a|e] w']; cbn in *; [by apply Hm|done].
Qed.
Lemma logs_try {F G A} (m : Io F A) l (Q : result G (result F A) → list Event → Prop) :
  logs m l (λ r, Q (Ok r)) → logs (try_ m) l Q.
Proof. intros Hm ts w Hw. specialize (Hm ts w Hw). unfold try_. by destruct (m ts w). Qed.
Lemma logs_failing {F G A} (f : F → G) (m : Io F A) l (Q : result G A → list Event → Prop) :
  logs m l (λ r, Q (match r with Ok a => Ok a | Err e => Err (f e) end)) → logs (failing f m) l Q.
Proof. intros Hm ts w Hw. specialize (Hm ts w Hw). unfold failing. by destruct (m ts w). Qed.
Lemma logs_statement {A} (f : Statement A) l (Q : result Error A → list Event → Prop) :
  (∀ d d' a, f d = Ok (d', a) → Q (Ok a) (l ++ [Statement_run d'])) →
  (∀ e d, Q (Err e) (l ++ [Statement_run d])) → logs (statement f) l Q.
Proof.
  intros Hok Herr ts w <-. unfold statement.
  destruct (t_fault _) as [[]|]; [apply Herr|].
  destruct (f _) as [[d' a]|e] eqn:E; cbn; [by eapply Hok|apply Herr].
Qed.
(** A statement that fails by itself, or by a fault. *)
Lemma logs_statement_errors {A} (f : Statement A) l (Q : result Error A → list Event → Prop) :
  (∀ d d' a, f d = Ok (d', a) → Q (Ok a) (l ++ [Statement_run d'])) →
  (∀ d e, f d = Err e → Q (Err e) (l ++ [Statement_run d])) →
  (∀ d code, Q (Err (Pg code)) (l ++ [Statement_run d])) → logs (statement f) l Q.
Proof.
  intros Hok Herr Hfault ts w <-. unfold statement.
  destruct (t_fault _) as [[]|]; [apply Hfault|].
  destruct (f _) as [[d' a]|e] eqn:E; cbn; [by eapply Hok|by apply Herr].
Qed.
Lemma logs_Send c text kb l (Q : result Error Z → list Event → Prop) :
  (∀ r, Q r (l ++ [Sent c text kb r])) → logs (Send c text kb) l Q.
Proof. intros HQ ts w <-. apply HQ. Qed.
Lemma logs_Answer id text l (Q : result Error unit → list Event → Prop) :
  (∀ r, Q r (l ++ [Answered id text r])) → logs (AnswerCallback id text) l Q.
Proof. intros HQ ts w <-. apply HQ. Qed.
Lemma logs_Now l (Q : result Error Time → list Event → Prop) :
  (∀ t, Q (Ok t) (l ++ [Clock t])) → logs Now l Q.
Proof. intros HQ ts w <-. apply HQ. Qed.
Lemma logs_NewV7 l (Q : result Error string → list Event → Prop) : (∀ r, Q r l) → logs NewV7 l Q.
Proof. intros HQ ts w <-. unfold NewV7. cbn. rewrite app_nil_r. apply HQ. Qed.

(** [logs_steps] runs a program symbolically. *)
Ltac logs_step :=
  lazymatch goal with
  | |- logs (mbind _ _) _ _ => apply logs_bind
  | |- logs (mret _) _ _ => apply logs_ret
  | |- logs (fail _) _ _ => apply logs_fail
  | |- logs (try_ _) _ _ => apply logs_try
  | |- logs (failing _ _) _ _ => apply logs_failing
  | |- logs Now _ _ => apply logs_Now; intro
  | |- logs NewV7 _ _ => apply logs_NewV7; intros [?|?]
  | |- logs (AnswerCallback _ _) _ _ => apply logs_Answer; intros [[]|?]
  | |- logs (statement _) _ _ => apply logs_statement; [intros ????|intros ??]
  | |- logs (match ?x with _ => _ end) _ _ => destruct x eqn:?
  end.
Ltac logs_steps := repeat (logs_step; cbn beta iota zeta).

(** A program that sends nothing. *)
Definition silent (e : Event) : Prop := match e with Sent _ _ _ _ => False | _ => True end.
Definition quiet {F A} (m : Io F A) : Prop :=
  ∀ l, logs m l (λ _ l', ∃ es, l' = l ++ es ∧ Forall silent es).

Lemma quiet_ret {F A} (a : A) : quiet (F := F) (mret a).
Proof. intros l. apply logs_ret. exists []. by rewrite app_nil_r. Qed.
Lemma quiet_fail {F A} (e : F) : quiet (A := A) (fail e).
Proof. intros l. apply logs_fail. exists []. by rewrite app_nil_r. Qed.
Lemma quiet_bind {F A B} (m : Io F A) (k : A → Io F B) : quiet m → (∀ a, quiet (k a)) → quiet (m ≫= k).
Proof.
  intros Hm Hk l. apply logs_bind. eapply logs_mono; [apply Hm|]. intros [a|e] l' (es & -> & Hes).
  - eapply logs_mono; [apply Hk|]. intros r l'' (es' & -> & Hes'). exists (es ++ es').
    rewrite app_assoc. split; [done|by apply Forall_app].
  - by exists es.
Qed.
Lemma quiet_try {F G A} (m : Io F A) : quiet m → quiet (try_ (G := G) m).
Proof. intros Hm l. apply logs_try. eapply logs_mono; [apply Hm|]. done. Qed.
Lemma quiet_failing {F G A} (f : F → G) (m : Io F A) : quiet m → quiet (failing f m).
Proof. intros Hm l. apply logs_failing. eapply logs_mono; [apply Hm|]. done. Qed.
Lemma quiet_statement {A} (f : Statement A) : quiet (statement f).
Proof. intros l. apply logs_statement; intros; eexists; (split; [done|by repeat constructor]). Qed.
Lemma quiet_Now : quiet Now.
Proof. intros l. apply logs_Now. intros. eexists. split; [done|by repeat constructor]. Qed.
Lemma quiet_Answer id text : quiet (AnswerCallback id text).
Proof. intros l. apply logs_Answer. intros. eexists. split; [done|by repeat constructor]. Qed.
#[export] Hint Resolve quiet_ret quiet_fail quiet_statement quiet_Now quiet_Answer : comm.
Ltac quiet_steps :=
  repeat (cbn beta zeta; lazymatch goal with
  | |- ∀ _, _ => intro
  | |- quiet (mbind _ _) => apply quiet_bind
  | |- quiet (try_ _) => apply quiet_try
  | |- quiet (failing _ _) => apply quiet_failing
  | |- quiet (match ?x with _ => _ end) => destruct x
  | |- quiet _ => solve [auto with comm]
  end).

Lemma reads_ok {A} (e : Error) (f : CDB → option A) d d' a :
  or_error e (reads f) d = Ok (d', a) → d' = d ∧ f d = Some a.
Proof. unfold or_error, then_, reads. destruct (f d) eqn:E; [|done]. intros [=]. by subst. Qed.

(** ** What is sent, and after what

    Every message sent satisfies [J] of the log before it, the chat and the text. *)
Definition sends_only (J : list Event → Z → string → Prop) (l : list Event) : Prop :=
  ∀ l1 c text kb r l2, l = l1 ++ Sent c text kb r :: l2 → J l1 c text.

Section sends.
  Context (J : list Event → Z → string → Prop).

Lemma sends_nil : sends_only J [].
Proof. intros [] ?????; done. Qed.

Lemma sends_snoc l e :
  sends_only J l → (∀ c text kb r, e = Sent c text kb r → J l c text) → sends_only J (l ++ [e]).
Proof.
  intros Hl He l1 c text kb r l2 Heq. destruct l2 as [|x l2 _] using rev_ind.
  - apply app_inj_tail in Heq as [<- He']. by eapply He.
  - rewrite app_comm_cons, app_assoc in Heq. apply app_inj_tail in Heq as [-> _]. by eapply Hl.
Qed.

Lemma sends_silent l es : Forall silent es → sends_only J l → sends_only J (l ++ es).
Proof.
  intros Hes Hl. revert l Hl. induction Hes as [|e es He _ IH]; intros l Hl; [by rewrite app_nil_r|].
  rewrite cons_middle, app_assoc. apply IH, sends_snoc; [done|]. by intros ???? ->.
Qed.
End sends.

Lemma sends_mono (J J' : list Event → Z → string → Prop) l :
  (∀ l1 l2 c text, l = l1 ++ l2 → J l1 c text → J' l1 c text) → sends_only J l → sends_only J' l.
Proof. intros HJ Hl l1 c text kb r l2 Heq. eapply HJ; [exact Heq|]. by eapply Hl. Qed.

(** A loop keeps what each round keeps. *)
Lemma logs_each {F A} (f : A → Io F unit) (I : list Event → Prop) (xs : list A) l :
  I l → (∀ x l', x ∈ xs → I l' → logs (f x) l' (λ _, I)) → logs (each f xs) l (λ _, I).
Proof.
  revert l. induction xs as [|x xs IH]; intros l Hl Hf; [by apply logs_ret|]. cbn [each]. apply logs_bind.
  eapply logs_mono; [apply Hf; [set_solver|done]|]. intros [u|e] l' Hl'; [|done].
  apply IH; [done|]. intros y l'' Hy. apply Hf. set_solver.
Qed.

(** A loop that ends well has done [P] for every element. *)
Lemma logs_each_all {F A} (f : A → Io F unit) (P : A → list Event → Prop) (xs : list A) l :
  (∀ x l l', P x l → l `prefix_of` l' → P x l') →
  (∀ x l, logs (f x) l (λ r l', l `prefix_of` l' ∧ (is_ok r = true → P x l'))) →
  logs (each f xs) l (λ r l', l `prefix_of` l' ∧ (is_ok r = true → ∀ x, x ∈ xs → P x l')).
Proof.
  intros HP Hf. revert l. induction xs as [|x xs IH]; intros l; cbn [each].
  - apply logs_ret. split; [done|]. by intros _ x ?%elem_of_nil.
  - apply logs_bind. eapply logs_mono; [apply Hf|]. intros [u|e] l' [Hl Hx]; [|by split].
    eapply logs_mono; [apply IH|]. intros r l'' [Hl' Hxs]. split; [by etrans|].
    intros Hr y [->|Hy]%elem_of_cons; [|by apply Hxs]. eapply HP; [by apply Hx|done].
Qed.
