(* ===== verification/CommunicationProperties.v ===== *)
(** * Communication: what its operations promise

    The changes that the service makes to its database, the invariant that every
    sequence of them keeps, and the theorems about links, the copy of the orders,
    the relay, notifications and retention. *)
From stdpp Require Import prelude gmap strings list sorting.
From Stdlib Require Import ZArith Lia.
From S2P Require Import Prelude.
From S2P Require Import GoLib.
From S2P Require Import GoText.
From S2P Require Import GoMail.
From S2P Require Import OrderTypes.
From S2P Require Import OrderOutbox.
From S2P Require Import CommunicationDB.
From S2P Require Import Communication.
From S2P Require Import CommunicationRuns.

Local Open Scope Z_scope.
Local Open Scope foc_scope.

(** ** What the relay sends *)

(** The text of a relayed message, as opposed to an answer of the bot. *)
Definition is_relay (text : string) : bool :=
  HasPrefix "Your courier (" text || HasPrefix "Your requester (" text.

Lemma relayedText_relay o sender body : is_relay (relayedText o sender body) = true.
Proof. unfold relayedText. destruct (same sender (chat.CourierID o)); reflexivity. Qed.

Definition accepted (e : Event) : bool :=
  match e with Sent _ text _ (Ok _) => is_relay text | _ => false end.
Definition relays (l : list Event) : nat := length (filter (λ e, accepted e = true) l).

(** The record of [m] was inserted, or was there. *)
Definition recorded (m : chat.Message) (l : list Event) : Prop :=
  ∃ d d', SaveMessage m d = Ok (d', tt) ∧ Statement_run d' ∈ l.

(** The log before [text] is sent to [recipient_chat]: the message was recorded;
    then the order, the sender's and the recipient's link and the selection were
    read and written in four statements, the last events of the log. *)
Record justified (sender_chat : Z) (body : string) (l : list Event) (recipient_chat : Z) (text : string)
    (m : chat.Message) : Prop := {
  ju_body : chat.m_Body m = body;
  ju_recorded : recorded m l;
  ju_checks : ∃ l0 now d1 d2 d3 t d4 p r s,
    l = l0 ++ [Clock now; Statement_run d1; Statement_run d2; Statement_run d3; Clock t; Statement_run d4]
    ∧ order_participants d1 !! chat.m_OrderID m = Some p
    ∧ (let o := fromRow (chat.m_OrderID m) p in
       may_chat (chat.m_SenderID m) now o = true
       ∧ (chat.Other o (chat.m_SenderID m)).1 = chat.m_RecipientID m
       ∧ text = relayedText o (chat.m_SenderID m) body)
    ∧ telegram_links d2 !! chat.m_SenderID m = Some s ∧ tl_ChatID s = sender_chat
    ∧ telegram_links d3 !! chat.m_RecipientID m = Some r ∧ tl_ChatID r = recipient_chat;
}.

(** Whatever is sent is an answer to the chat that wrote, or a justified relay. *)
Definition allowed (sender_chat : Z) (body : string) (l : list Event) (c : Z) (text : string) : Prop :=
  if is_relay text then ∃ m, justified sender_chat body l c text m else c = sender_chat.
Definition trace_ok (sender_chat : Z) (body : string) : list Event → Prop := sends_only (allowed sender_chat body).

Lemma relays_app l1 l2 : relays (l1 ++ l2) = (relays l1 + relays l2)%nat.
Proof. unfold relays. by rewrite filter_app, length_app. Qed.
Lemma relays_one e : relays [e] = if accepted e then 1%nat else 0%nat.
Proof.
  unfold relays. rewrite filter_cons. destruct (accepted e); [by rewrite decide_True|by rewrite decide_False].
Qed.
Lemma relays_silent es : Forall silent es → relays es = 0%nat.
Proof.
  induction 1 as [|e es He _ IH]; [done|]. change (e :: es) with ([e] ++ es). rewrite relays_app, IH.
  by destruct e.
Qed.
Lemma recorded_app m l l' : recorded m l → recorded m (l ++ l').
Proof. intros (d & d' & ? & ?). exists d, d'. split; [done|]. apply elem_of_app. by left. Qed.

(** ** Handling an update, with its retries

    Where it stands after a result with log [l]. *)
Definition stage_ok (c : Z) (body : string) (s : Stage) (l : list Event) : Prop :=
  match s with
  | RecordAndSend m c' => c' = c ∧ chat.m_Body m = body ∧ relays l = 0%nat
  | SelectAndSend m c' => c' = c ∧ chat.m_Body m = body ∧ relays l = 0%nat ∧ recorded m l
  | SaveDeliveredTarget _ _ _ _ => (relays l ≤ 1)%nat
  | Reply c' text _ => c' = c ∧ is_relay text = false ∧ (relays l ≤ 1)%nat
  end.
Definition stands (c : Z) (body : string) (r : result Failure unit) (l : list Event) : Prop :=
  trace_ok c body l ∧
  match r with Err (RetryError _ s) => stage_ok c body s l | _ => (relays l ≤ 1)%nat end.

(** Log entries of statements and clocks at the end change nothing. *)
Lemma trace_statement c body l d : trace_ok c body l → trace_ok c body (l ++ [Statement_run d]).
Proof. apply sends_silent. by repeat constructor. Qed.
Lemma trace_clock c body l t : trace_ok c body l → trace_ok c body (l ++ [Clock t]).
Proof. apply sends_silent. by repeat constructor. Qed.
Lemma relays_statement l d : relays (l ++ [Statement_run d]) = relays l.
Proof. rewrite relays_app, relays_one. simpl. lia. Qed.
Lemma relays_clock l t : relays (l ++ [Clock t]) = relays l.
Proof. rewrite relays_app, relays_one. simpl. lia. Qed.
Create Rewrite HintDb comm_relays.
#[local] Hint Resolve trace_statement trace_clock recorded_app : comm.
#[local] Hint Rewrite relays_statement relays_clock : comm_relays.

Ltac relays_lia := autorewrite with comm_relays in *; lia.

Lemma reply_stands c body text kb l :
  is_relay text = false → trace_ok c body l → (relays l ≤ 1)%nat → logs (reply c text kb) l (stands c body).
Proof.
  intros Ht Hl Hn. unfold reply. logs_steps. apply logs_Send. intros r.
  assert (trace_ok c body (l ++ [Sent c text kb r])) as Hl'.
  { apply sends_snoc; [done|]. intros ???? [= <- <- _ _]. unfold allowed. by rewrite Ht. }
  assert (relays (l ++ [Sent c text kb r]) ≤ 1)%nat as Hn'.
  { rewrite relays_app, relays_one. destruct r; cbn; rewrite ?Ht; lia. }
  logs_steps; (split; [done|]); by repeat split.
Qed.

Lemma openOrder_logs user order now l (Q : result Error chat.Order → list Event → Prop) :
  (∀ d p, order_participants d !! order = Some p → may_chat user now (fromRow order p) = true →
     Q (Ok (fromRow order p)) (l ++ [Statement_run d])) →
  (∀ e d, Q (Err e) (l ++ [Statement_run d])) → logs (openOrder user order now) l Q.
Proof.
  intros Hok Herr. unfold openOrder. apply logs_bind, logs_try, logs_statement.
  - intros d d' o Hr. unfold GetOrder in Hr. apply (reads_ok (A:=chat.Order)) in Hr as [-> (p & Hp & ->)%fmap_Some]. logs_steps; auto.
  - intros e d. logs_steps; auto.
Qed.

(** The answers of the relay are no relays. *)
Ltac answers := apply reply_stands; [reflexivity|by auto 10 with comm|relays_lia].

Section relay.
  Context `{UUID, Digest, UnicodeLower}.

Lemma saveDeliveredTarget_stands c body chat_id id order at_ l :
  trace_ok c body l → (relays l ≤ 1)%nat →
  logs (saveDeliveredTarget chat_id id order at_) l (stands c body).
Proof.
  intros Hl Hn. unfold saveDeliveredTarget. logs_steps; (split; [by auto 10 with comm|cbn; relays_lia]).
Qed.

Lemma relay_send_stands c body m c' text l :
  trace_ok c body l → relays l = 0%nat → justified c body l c' text m → is_relay text = true →
  logs (relay_send m c c' text) l (stands c body).
Proof.
  intros Hl Hn Hj Ht. unfold relay_send. apply logs_bind, logs_try, logs_Send. intros r.
  assert (trace_ok c body (l ++ [Sent c' text None r])) as Hl'.
  { apply sends_snoc; [done|]. intros ???? [= <- <- _ _]. unfold allowed. rewrite Ht. by exists m. }
  assert (relays (l ++ [Sent c' text None r]) = if is_ok r then 1%nat else 0%nat) as Hn'.
  { rewrite relays_app, relays_one, Hn. destruct r; cbn; by rewrite ?Ht. }
  destruct r as [id|e]; cbn in Hn'.
  - apply saveDeliveredTarget_stands; [done|lia].
  - destruct e; cbn beta iota; try answers. unfold UnlinkChat.
    logs_steps; try answers. split; [by auto 10 with comm|cbn; relays_lia].
Qed.

(** The recheck, when it succeeds, leaves what it saw in the log. *)
Lemma still_open_logs m l (Q : result Error chat.Order → list Event → Prop) :
  (∀ now d p, order_participants d !! chat.m_OrderID m = Some p →
     may_chat (chat.m_SenderID m) now (fromRow (chat.m_OrderID m) p) = true →
     (chat.Other (fromRow (chat.m_OrderID m) p) (chat.m_SenderID m)).1 = chat.m_RecipientID m →
     Q (Ok (fromRow (chat.m_OrderID m) p)) ((l ++ [Clock now]) ++ [Statement_run d])) →
  (∀ e now d, Q (Err e) ((l ++ [Clock now]) ++ [Statement_run d])) → logs (still_open m) l Q.
Proof.
  intros Hok Herr. unfold still_open. apply logs_bind, logs_Now. intros now. cbn beta iota.
  apply logs_bind, openOrder_logs; [|auto]. intros d p Hp Hm. cbn beta iota.
  destruct (same _ _) eqn:Hs; [|apply logs_fail, Herr]. apply logs_ret. apply same_eq in Hs. auto.
Qed.

Lemma selectAndSend_stands c body m l :
  trace_ok c body l → relays l = 0%nat → chat.m_Body m = body → recorded m l →
  logs (selectAndSend m c) l (stands c body).
Proof.
  intros Hl Hn Hb Hr. unfold selectAndSend. apply logs_bind, logs_try, still_open_logs.
  2:{ intros e now d. destruct e; cbn beta iota zeta; try answers; apply logs_fail;
      (split; [by auto 10 with comm|cbn; split_and!; try done; [by relays_lia|by auto 10 with comm]]). }
  intros now d1 p Hp Hmay Hother. cbn beta iota zeta. unfold Get, GetLink.
  apply logs_bind, logs_try, logs_statement.
  2:{ intros e d. destruct e; cbn beta iota zeta; try answers; apply logs_fail;
      (split; [by auto 10 with comm|cbn; split_and!; try done; [by relays_lia|by auto 10 with comm]]). }
  intros d2 d2' sl Hs. apply (reads_ok (A:=Link)) in Hs as [-> Hs]. cbn beta iota zeta.
  destruct (l_ChatID sl =? c) eqn:Hc; cbn [negb]; [|answers]. apply Z.eqb_eq in Hc.
  apply logs_bind, logs_try, logs_statement.
  2:{ intros e d. destruct e; cbn beta iota zeta; try answers; apply logs_fail;
      (split; [by auto 10 with comm|cbn; split_and!; try done; [by relays_lia|by auto 10 with comm]]). }
  intros d3 d3' rl Hrl. apply (reads_ok (A:=Link)) in Hrl as [-> Hrl]. cbn beta iota zeta.
  destruct (maxMessageLength <? _); [answers|].
  apply logs_bind, logs_failing, logs_bind, logs_Now. intros t. cbn beta iota zeta.
  apply logs_statement; intros; cbn beta iota zeta.
  2:{ split; [by auto 10 with comm|cbn; split_and!; try done; [by relays_lia|by auto 10 with comm]]. }
  unfold GetLink_row in Hs, Hrl. apply fmap_Some in Hs as (srow & Hs & ->).
  apply fmap_Some in Hrl as (rrow & Hrl & ->).
  apply relay_send_stands; [by auto 10 with comm|by relays_lia| |apply relayedText_relay].
  split; [done|by auto 10 with comm|].
  exists l, now, d1, d2, d3, t, d', p, rrow, srow. rewrite <- !app_assoc. subst body. by split_and!.
Qed.

Lemma recordAndSend_stands c body m l :
  trace_ok c body l → relays l = 0%nat → chat.m_Body m = body → logs (recordAndSend m c) l (stands c body).
Proof.
  intros Hl Hn Hb. unfold recordAndSend. apply logs_bind, logs_try, still_open_logs.
  2:{ intros e now d. destruct e; cbn beta iota zeta; try answers; apply logs_fail;
      (split; [by auto 10 with comm|cbn; split_and!; try done; by relays_lia]). }
  intros now d1 p _ _ _. cbn beta iota zeta. apply logs_bind, logs_failing, logs_statement.
  - intros d d' [] Hs. apply selectAndSend_stands; [by auto 10 with comm|by relays_lia|done|].
    exists d, d'. split; [done|]. apply elem_of_app. right. by apply list_elem_of_singleton.
  - intros e d. split; [by auto 10 with comm|cbn; split_and!; try done; by relays_lia].
Qed.

Lemma resume_stands c body e s l :
  stands c body (Err (RetryError e s)) l → logs (resume s) l (stands c body).
Proof.
  intros [Hl Hs]. destruct s; cbn [resume stage_ok] in *.
  - destruct Hs as (-> & ? & ?). by apply recordAndSend_stands.
  - destruct Hs as (-> & ? & ? & ?). by apply selectAndSend_stands.
  - by apply saveDeliveredTarget_stands.
  - destruct Hs as (-> & ? & ?). by apply reply_stands.
Qed.

Lemma retrying_stands c body n r l :
  stands c body r l → logs (retrying n r) l (λ _ l', trace_ok c body l' ∧ (relays l' ≤ 1)%nat).
Proof.
  assert (∀ e s l, stands c body (Err (RetryError e s)) l → (relays l ≤ 1)%nat) as Hle.
  { intros e s l0 [_ Hs]. destruct s; cbn in Hs; try lia; destruct Hs as (_ & _ & ?); lia. }
  revert r l. induction n as [|n IH]; intros [u|[e|e s]] l Hst; cbn [retrying];
    try (apply logs_ret; by (destruct Hst; eauto)).
  - apply logs_ret. split; [apply Hst|by eapply Hle].
  - apply logs_bind, logs_try. eapply logs_mono; [by eapply resume_stands|]. intros r l' Hr. by apply IH.
Qed.

(** *** Dispatch *)

Definition update_chat (u : telegram.Update) : Z :=
  match telegram.up_CallbackQuery u, telegram.up_Message u with
  | Some cb, _ => telegram.u_ID (telegram.cb_From cb)
  | None, Some msg => telegram.c_ID (telegram.InChat msg)
  | None, None => 0
  end.
Definition update_text (u : telegram.Update) : string :=
  match telegram.up_Message u with Some msg => telegram.Text msg | None => EmptyString end.

Definition fresh (c : Z) (body : string) (l : list Event) : Prop := trace_ok c body l ∧ relays l = 0%nat.

Lemma logs_quiet {F A} (m : Io F A) c body l (Q : result F A → list Event → Prop) :
  quiet m → fresh c body l → (∀ r l', fresh c body l' → Q r l') → logs m l Q.
Proof.
  intros Hm [Hl Hn] HQ. eapply logs_mono; [apply Hm|]. intros r l' (es & -> & Hes). apply HQ.
  split; [by apply sends_silent|by rewrite relays_app, (relays_silent es), Hn].
Qed.

Lemma quiet_openOrder u o now : quiet (openOrder u o now).
Proof. unfold openOrder. quiet_steps. Qed.
Lemma quiet_openOrders u now : quiet (openOrders u now).
Proof. unfold openOrders. quiet_steps. Qed.
#[local] Hint Resolve quiet_openOrder quiet_openOrders : comm.
Lemma quiet_route u msg now : quiet (route u msg now).
Proof. unfold route, route_plain, only_open. quiet_steps. Qed.
Lemma quiet_NewV7 : quiet NewV7.
Proof. intros l. apply logs_NewV7. intros r. exists []. by rewrite app_nil_r. Qed.
#[local] Hint Resolve quiet_route quiet_NewV7 : comm.

Lemma fresh_reply c body text kb l : fresh c body l → is_relay text = false → logs (reply c text kb) l (stands c body).
Proof. intros [Hl Hn] Ht. apply reply_stands; [done..|lia]. Qed.
Lemma fresh_stands c body l r :
  fresh c body l → match r with Err (RetryError _ _) => False | _ => True end → stands c body r l.
Proof. intros [Hl Hn] Hr. split; [done|]. destruct r as [|[]]; [lia|lia|done]. Qed.
Lemma fresh_plain {A B} c body (m : Io Error A) (k : A → Io Failure B) l Q :
  fresh c body l → quiet m → (∀ a l', fresh c body l' → logs (k a) l' Q) →
  (∀ e l', fresh c body l' → Q (Err (Plain e)) l') → logs (failing Plain m ≫= k) l Q.
Proof.
  intros Hl Hm Hk He. apply logs_bind, logs_failing. eapply logs_quiet; [done..|].
  intros [a|e] l' Hl'; auto.
Qed.
Lemma fresh_try {F A B} c body (m : Io F A) (k : result F A → Io Failure B) l Q :
  fresh c body l → quiet m → (∀ r l', fresh c body l' → logs (k r) l' Q) → logs (try_ m ≫= k) l Q.
Proof. intros Hl Hm Hk. apply logs_bind, logs_try. eapply logs_quiet; [done..|]. intros r l' Hl'. by apply Hk. Qed.

(** [dispatch] runs the reads of a handler up to what it sends. *)
Ltac dispatch :=
  repeat (cbn beta iota zeta; lazymatch goal with
  | |- logs (try_ _ ≫= _) _ _ => eapply fresh_try; [eassumption|solve [quiet_steps]|intros]
  | |- logs (failing Plain _ ≫= _) _ _ => eapply fresh_plain; [eassumption|solve [quiet_steps]|intros|intros]
  | |- logs (fail _) _ _ => apply logs_fail
  | |- logs (mret _) _ _ => apply logs_ret
  | |- logs (reply _ _ _) _ _ => eapply fresh_reply; [eassumption|reflexivity]
  | |- logs (match ?x with _ => _ end) _ _ => destruct x eqn:?
  | |- stands _ _ _ _ => by eapply fresh_stands
  end).

Lemma relay_to_stands body sender order msg now l :
  telegram.Text msg = body → fresh (telegram.c_ID (telegram.InChat msg)) body l →
  logs (relay_to sender order msg now) l (stands (telegram.c_ID (telegram.InChat msg)) body).
Proof.
  intros Hb Hl. unfold relay_to, Get. dispatch.
  match goal with Hf : fresh _ _ _ |- logs (recordAndSend _ _) ?l _ => by destruct Hf; apply recordAndSend_stands end.
Qed.

Lemma HandleMessage_stands body msg l :
  telegram.Text msg = body → fresh (telegram.c_ID (telegram.InChat msg)) body l →
  logs (HandleMessage msg) l (stands (telegram.c_ID (telegram.InChat msg)) body).
Proof. intros Hb Hl. unfold HandleMessage, GetByChat. dispatch. by apply relay_to_stands. Qed.

Lemma ShowChats_stands body msg l :
  fresh (telegram.c_ID (telegram.InChat msg)) body l →
  logs (ShowChats msg) l (stands (telegram.c_ID (telegram.InChat msg)) body).
Proof. intros Hl. unfold ShowChats, GetByChat. dispatch. Qed.

Lemma fresh_answer c body id text l :
  fresh c body l → logs (failing Plain (AnswerCallback id text)) l (stands c body).
Proof.
  intros Hl. apply logs_failing. eapply logs_quiet; [apply quiet_Answer|done|]. intros [] l' Hl'; by eapply fresh_stands.
Qed.

Lemma HandleCallback_stands body cb l :
  fresh (telegram.u_ID (telegram.cb_From cb)) body l →
  logs (HandleCallback cb) l (stands (telegram.u_ID (telegram.cb_From cb)) body).
Proof. intros Hl. unfold HandleCallback, GetByChat. dispatch; by eapply fresh_answer. Qed.

Lemma SendMessage_stands c body text l :
  is_relay text = false → fresh c body l → logs (SendMessage c text) l (stands c body).
Proof.
  intros Ht [Hl Hn]. unfold SendMessage. apply logs_bind, logs_failing, logs_Send. intros r.
  assert (trace_ok c body (l ++ [Sent c text None r]) ∧ relays (l ++ [Sent c text None r]) = 0%nat) as Hf.
  { split; [apply sends_snoc; [done|]; intros ???? [= <- <- _ _]; unfold allowed; by rewrite Ht|].
    rewrite relays_app, relays_one, Hn. destruct r; cbn; by rewrite ?Ht. }
  destruct r; [apply logs_ret|]; by apply fresh_stands.
Qed.

Lemma handleMessage_stands body msg l :
  telegram.Text msg = body → fresh (telegram.c_ID (telegram.InChat msg)) body l →
  logs (handleMessage msg) l (stands (telegram.c_ID (telegram.InChat msg)) body).
Proof.
  intros Hb Hl. unfold handleMessage, redeem_start, Redeem. dispatch; try by apply SendMessage_stands.
  - by apply ShowChats_stands.
  - by apply HandleMessage_stands.
Qed.

Lemma process_stands n u l :
  fresh (update_chat u) (update_text u) l →
  logs (process n u) l (λ _ l', trace_ok (update_chat u) (update_text u) l' ∧ (relays l' ≤ 1)%nat).
Proof.
  intros Hl. unfold process. apply logs_bind, logs_try.
  eapply logs_mono with (Q := stands (update_chat u) (update_text u)); [|intros; by apply retrying_stands].
  unfold Bot_Handle, handleMembership, update_chat, update_text, UnlinkChat in *.
  destruct (telegram.up_MyChatMember u) as [ch|].
  { dispatch. apply logs_failing. eapply logs_quiet; [apply quiet_statement|done|].
    intros [] l' Hl'; by apply fresh_stands. }
  destruct (telegram.up_CallbackQuery u); [by apply HandleCallback_stands|].
  destruct (telegram.up_Message u); [by apply handleMessage_stands|]. by apply logs_ret, fresh_stands.
Qed.
End relay.

(** ** Links and codes *)

Lemma statement_ok {A} (f : Statement A) ts w a w' :
  statement f ts w = (Ok a, w') → f (t_others (ts (w_turn w)) (w_db w)) = Ok (w_db w', a).
Proof.
  unfold statement. destruct (t_fault _) as [[]|]; [done|].
  destruct (f _) as [[d' b]|e] eqn:E; [|done]. by intros [= -> <-].
Qed.

(** A code that was used stays as it is. *)
Definition used (hash : string) (row : CodeRow) (d : CDB) : Prop :=
  telegram_link_codes d !! hash = Some row ∧ unused row = false.

Lemma used_kept hash row d o : used hash row d → used hash row (apply_op d o).
Proof.
  intros [Hh Hu]. split; [|done]. destruct o; cbn [apply_op]; unfold left_by; try done.
  - unfold ReplaceCode. pose proof (unused_code_spec user d) as Hs.
    destruct (guard_ok (hash_check hash0) _); cbn; [|done].
    assert (match unused_code user d with Some (old, _) => delete old (telegram_link_codes d)
            | None => telegram_link_codes d end !! hash = Some row) as Ho.
    { destruct (unused_code user d) as [[old w]|]; [|done]. apply lookup_delete_Some. split; [|done].
      intros <-. destruct Hs as (? & _ & ?). congruence. }
    destruct (negb _) eqn:Hn; cbn; [|done]. apply negb_is_some in Hn.
    apply lookup_insert_Some. right. split; [congruence|done].
  - destruct (RedeemCode _ _ _ _) as [[d' x]|] eqn:E; [|done].
    apply RedeemCode_ok in E as (r & Hr & Hru & _ & _ & _ & ->). cbn.
    apply lookup_insert_Some. right. split; [congruence|done].
  - cbn. apply map_lookup_filter_Some. split; [done|]. intros [_ ?]. cbn in *. congruence.
  - unfold SaveOrder. destruct (guard_ok _ _); cbn; [|done]. by destruct (newer _ _).
  - unfold SaveMessage. destruct (guard_ok _ _); cbn; [|done]. by destruct (chat_messages d !! _).
  - cbn. by destruct (order_notifications_sent d !! _).
Qed.

Lemma used_run hash row ops d : used hash row d → used hash row (run ops d).
Proof. apply (run_keeps (λ _, True)); [|by apply Forall_true]. intros d0 o _. apply used_kept. Qed.

(** The user has neither a link nor a code that could make one. *)
Definition disconnected (user : string) (d : CDB) : Prop :=
  telegram_links d !! user = None
  ∧ ∀ h c, telegram_link_codes d !! h = Some c → unused c = true → lc_UserID c ≠ user.

Definition creates_code (user : string) (o : Op) : Prop :=
  match o with OpReplaceCode _ u _ _ => u = user | _ => False end.

Lemma disconnected_kept user d o :
  ¬ creates_code user o → disconnected user d → disconnected user (apply_op d o).
Proof.
  intros Ho [Hl Hc]. destruct o; cbn [apply_op]; unfold left_by.
  - destruct (ReplaceCode _ _ _ _ _) as [[d' x]|] eqn:E; [|done]. cbn in Ho. revert E. unfold ReplaceCode. intros E.
    inv_ok E. simplify_eq. split; [done|]. cbn.
    intros h c [[<- <-]|[_ Hh]]%lookup_insert_Some; [done|]. eapply Hc.
    destruct (unused_code _ _) as [[]|]; [by apply lookup_delete_Some in Hh as [_ ?]|done].
  - destruct (RedeemCode _ _ _ _) as [[d' x]|] eqn:E; [|done].
    apply RedeemCode_ok in E as (r & Hr & Hru & _ & _ & _ & ->). split; cbn.
    + rewrite lookup_insert_ne by by eapply Hc. apply map_lookup_filter_None. by left.
    + intros h w [[<- <-]|[_ ?]]%lookup_insert_Some; [done|by eapply Hc].
  - split; cbn; [|by intros h c [? _]%map_lookup_filter_Some; eapply Hc]. apply lookup_delete_None. by right.
  - split; cbn; [|done]. apply map_lookup_filter_None. by left.
  - unfold SaveOrder. destruct (guard_ok _ _); cbn; [|done]. by destruct (newer _ _).
  - done.
  - done.
  - unfold SaveMessage. destruct (guard_ok _ _); cbn; [|done]. by destruct (chat_messages d !! _).
  - cbn. by destruct (order_notifications_sent d !! _).
  - done.
Qed.

Lemma DeleteLink_disconnects user d d' x : DeleteLink user d = Ok (d', x) → disconnected user d'.
Proof.
  unfold DeleteLink, then_, DeleteUnusedCodes, DeleteLink_rows, changes. intros [= <- _]. split; cbn.
  - apply lookup_delete_eq.
  - intros h c [_ Hn]%map_lookup_filter_Some Hu Hc. by apply Hn.
Qed.

Section links.
  Context `{UUID, Digest, UnicodeLower}.

Lemma Redeem_ok link_code c ts w link w' :
  Redeem link_code c ts w = (Ok link, w') →
  ∃ now d, RedeemCode (hashCode link_code) c now d = Ok (w_db w', link)
    ∧ (others_ok ts → ∃ ops, d = run ops (w_db w)).
Proof.
  unfold Redeem. destruct (nonempty link_code); [|done]. unfold mbind, io_mbind, Now. intros Hs.
  apply statement_ok in Hs. cbn [w_db w_turn next] in Hs. eexists _, _. split; [exact Hs|]. intros Ho.
  destruct (Ho (S (w_turn w)) (w_db w)) as (ops & _ & ->). by exists ops.
Qed.

(** C19: a link code links once. Redeeming it connects the chat to the user who
    created it, moves the chat from whoever had it, and leaves every other link as
    it was; and whatever the service does afterwards, whoever presents the code
    again, from whichever chat, is not linked. *)
Theorem link_code_redeemed_once link_code c ts w link w' :
  others_ok ts → Redeem link_code c ts w = (Ok link, w') →
  (∃ ops d row, d = run ops (w_db w)
    ∧ telegram_link_codes d !! hashCode link_code = Some row ∧ l_UserID link = lc_UserID row
    ∧ ∀ user, GetLink_row user (w_db w') =
        if decide (user = l_UserID link)
        then Some {| l_UserID := user; l_ChatID := ch_ID c; l_Username := ch_Username c;
                     l_LinkedAt := stored_time (l_LinkedAt link) |}
        else l ← GetLink_row user d; if l_ChatID l =? ch_ID c then None else Some l)
  ∧ ∀ ops c2 ts2 w2, w_db w2 = run ops (w_db w') → others_ok ts2 → is_ok (Redeem link_code c2 ts2 w2).1 = false.
Proof.
  intros Ho Hr. apply Redeem_ok in Hr as (now & d & Hr & Hd).
  destruct (Hd Ho) as [ops Hops]. apply RedeemCode_ok in Hr as (row & Hrow & Hu & _ & Htext & -> & Hw). split.
  - exists ops, d, row. split_and!; [done..|]. intros user. unfold GetLink_row. rewrite Hw. cbn.
    destruct (decide (user = lc_UserID row)) as [->|Hne].
    + rewrite lookup_insert_eq. unfold row_link, optional, nonempty. cbn.
      destruct (bool_decide (ch_Username c = EmptyString)) eqn:He; [|done].
      apply bool_decide_eq_true in He. by rewrite He.
    + rewrite lookup_insert_ne by done. rewrite map_lookup_filter.
      destruct (telegram_links d !! user) as [l|]; [|done]. cbn. unfold row_link at 2. cbn.
      destruct (Z.eqb_spec (tl_ChatID l) (ch_ID c)).
      * rewrite option_guard_False; [done|]. intros Hn. by apply Hn.
      * rewrite option_guard_True; [done|]. by intros [].
  - intros ops2 c2 ts2 w2 Hw2 Ho2.
    assert (used (hashCode link_code) (row <| lc_UsedAt := Some (stored_time now) |>) (w_db w2)) as Hused.
    { rewrite Hw2, Hw. apply used_run. split; [|done]. cbn. apply lookup_insert_eq. }
    destruct (Redeem link_code c2 ts2 w2) as [[l2|] w3] eqn:E; [|done].
    apply Redeem_ok in E as (now2 & d2 & Hr2 & Hd2). destruct (Hd2 Ho2) as [ops3 ->].
    apply RedeemCode_ok in Hr2 as (row2 & Hrow2 & Hu2 & _).
    destruct (used_run _ _ ops3 _ Hused) as [Hh Hn]. congruence.
Qed.

(** C39: disconnecting is final. After the user disconnected, no sequence of
    changes links the account again unless it creates a new code for it: an
    earlier code does not. *)
Theorem unlink_final user ts w w' ops :
  Unlink user ts w = (Ok tt, w') → Forall (λ o, ¬ creates_code user o) ops →
  GetLink_row user (run ops (w_db w')) = None
  ∧ ∀ hash c now d' link, RedeemCode hash c now (run ops (w_db w')) = Ok (d', link) → l_UserID link ≠ user.
Proof.
  intros Hs Hops. apply statement_ok, DeleteLink_disconnects in Hs.
  assert (disconnected user (run ops (w_db w'))) as [Hl Hc].
  { eapply run_keeps; [|exact Hops|exact Hs]. intros d o. apply disconnected_kept. }
  split; [unfold GetLink_row; by rewrite Hl|].
  intros hash c now d' link (row & Hrow & Hu & _ & _ & -> & _)%RedeemCode_ok. by eapply Hc.
Qed.

(** C40: the database is sound in every reachable state: a chat belongs to one
    user, a user has at most one code to redeem, and the uniqueness of chats never
    refuses a redemption. Every call, update, event and cleanup keeps to reachable
    states and sees no other, whatever the outside answers and others do. *)
Theorem communication_sound d :
  reachable d →
  CInv d
  ∧ (∀ hash c now, RedeemCode hash c now d ≠ Err (Pg "23505"))
  ∧ ∀ ts w, others_ok ts → w_db w = d → w_log w = [] →
    let safe w' := reachable (w_db w') ∧ ∀ d', in_log d' w' → reachable d' in
    (∀ bot caller, safe (CreateTelegramLink bot caller ts w).2)
    ∧ (∀ caller, safe (GetTelegramLink caller ts w).2 ∧ safe (UnlinkTelegram caller ts w).2)
    ∧ (∀ n u, safe (process n u ts w).2)
    ∧ (∀ e, safe (consume e ts w).2) ∧ safe (cleanup ts w).2.
Proof.
  intros Hd. split; [by apply reachable_CInv|]. split.
  - intros hash c now. unfold RedeemCode, then_, or_error, then_, UseCode, ReleaseChat, changes, SaveLink.
    destruct (telegram_link_codes d !! hash) as [row|]; [|done]. destruct (_ && _); [|done].
    cbn [mret result_mret]. destruct (guard_ok (opt_text_ok _) _) eqn:Ht; cbn.
    + unfold guard_ok. rewrite bool_decide_true; [done|].
      intros u l [_ Hn]%map_lookup_filter_Some. simpl in Hn. destruct (decide (u = lc_UserID row)); [by left|right]. tauto.
    + unfold guard_ok in Ht. destruct (opt_text_ok _); congruence.
  - intros ts w Ho <- Hl safe.
    assert (∀ F A (m : Io F A), sound (λ _, True) m → safe (m ts w).2) as Hsafe.
    { intros F A m Hm. destruct (Hm reachable ts w) as [Hr Hlog]; [intros ???; apply reachable_step|done..|].
      split; [done|]. intros d' [Hin|?]%Hlog; [|done]. unfold in_log in Hin. rewrite Hl in Hin.
      by apply elem_of_nil in Hin. }
    repeat match goal with |- _ ∧ _ => split | |- ∀ _, _ => intro end; apply Hsafe;
      auto using sound_CreateTelegramLink, sound_GetTelegramLink, sound_UnlinkTelegram, sound_process,
        sound_consume, sound_cleanup.
Qed.
End links.

(** ** The copies of the orders *)

Definition storable (o : chat.Order) : bool := no_nul (chat.Status o) && no_nul (chat.PickupName o).

Lemma SaveOrder_participants o now d :
  order_participants (apply_op d (OpSaveOrder o now)) =
    if storable o && newer (order_participants d !! chat.ID o) (chat.Revision o)
    then <[chat.ID o := participants_row o now]> (order_participants d) else order_participants d.
Proof.
  cbn [apply_op]. unfold left_by, SaveOrder, storable. cbn [op_Status op_PickupName participants_row].
  destruct (_ && _); cbn; [|done]. by destruct (newer _ _).
Qed.

(** No other operation but the cleanup touches them. *)
Lemma other_participants d o :
  ¬ is_cleanup o → (∀ x now, o ≠ OpSaveOrder x now) → order_participants (apply_op d o) = order_participants d.
Proof.
  intros Hc Hs. destruct o; cbn [apply_op]; unfold left_by; try done.
  - destruct (ReplaceCode _ _ _ _ _) as [[d' x]|] eqn:E; [|done]. revert E. unfold ReplaceCode. intros E.
    inv_ok E. by simplify_eq.
  - destruct (RedeemCode _ _ _ _) as [[d' x]|] eqn:E; [|done]. by apply RedeemCode_ok in E as (? & _ & _ & _ & _ & _ & ->).
  - by destruct (Hs o now).
  - unfold SaveMessage. destruct (guard_ok _ _); cbn; [|done]. by destruct (chat_messages d !! _).
  - cbn. by destruct (order_notifications_sent d !! _).
Qed.

Lemma op_cases o : is_cleanup o ∨ (∃ x now, o = OpSaveOrder x now) ∨ (¬ is_cleanup o ∧ ∀ x now, o ≠ OpSaveOrder x now).
Proof. destruct o; try (right; right; split; [by intros []|done]); [right; left; eauto|by left]. Qed.

(** A copy is one that was saved. *)
Lemma copy_saved ops d id p :
  order_participants (run ops d) !! id = Some p →
  order_participants d !! id = Some p
  ∨ ∃ o now, OpSaveOrder o now ∈ ops ∧ chat.ID o = id ∧ p = participants_row o now.
Proof.
  induction ops as [|op ops IH] using rev_ind; [by left|]. rewrite run_app. cbn [run foldl]. intros Hp.
  assert (order_participants (run ops d) !! id = Some p
          ∨ ∃ o now, op = OpSaveOrder o now ∧ chat.ID o = id ∧ p = participants_row o now) as [Hp'|Hnew].
  { destruct (op_cases op) as [Hc|[(x & now & ->)|[Hc Hs]]].
    - destruct op; try done. cbn in Hp. apply map_lookup_filter_Some in Hp as [Hp _]. by left.
    - rewrite SaveOrder_participants in Hp. destruct (_ && _); [|by left].
      apply lookup_insert_Some in Hp as [[<- <-]|[_ Hp]]; [right; eauto|by left].
    - rewrite other_participants in Hp by done. by left. }
  - destruct (IH Hp') as [|(o & now & ? & ?)]; [by left|right]. exists o, now. split; [set_solver|done].
  - destruct Hnew as (o & now & -> & ?). right. exists o, now. split; [set_solver|done].
Qed.

(** Without a cleanup the copy is never older than what was saved, in whatever
    order and however often. *)
Definition at_least (id : string) (n : Z) (d : CDB) : Prop :=
  ∃ p, order_participants d !! id = Some p ∧ n ≤ op_Revision p.

Lemma at_least_kept id n d op : ¬ is_cleanup op → at_least id n d → at_least id n (apply_op d op).
Proof.
  intros Hc (p & Hp & Hn). destruct (op_cases op) as [?|[(x & now & ->)|[_ Hs]]]; [done| |].
  - unfold at_least. rewrite SaveOrder_participants. destruct (storable x); cbn; [|eauto].
    destruct (newer _ _) eqn:E; [|eauto]. destruct (decide (chat.ID x = id)) as [<-|Hne].
    + exists (participants_row x now). rewrite lookup_insert_eq. split; [done|]. rewrite Hp in E. cbn in *. lia.
    + exists p. by rewrite lookup_insert_ne.
  - exists p. by rewrite other_participants.
Qed.

Lemma copy_at_least ops d o now :
  Forall (λ op, ¬ is_cleanup op) ops → OpSaveOrder o now ∈ ops → storable o = true →
  at_least (chat.ID o) (chat.Revision o) (run ops d).
Proof.
  intros Hops (l1 & l2 & ->)%list_elem_of_split Ho.
  apply Forall_app in Hops as [_ Hops]. apply Forall_cons in Hops as [_ Hops].
  rewrite run_app, run_cons. eapply run_keeps; [|exact Hops|].
  { intros. by apply at_least_kept. }
  unfold at_least. rewrite SaveOrder_participants, Ho. cbn. destruct (newer _ _) eqn:E.
  - exists (participants_row o now). rewrite lookup_insert_eq. split; [done|]. cbn. lia.
  - unfold newer in E. destruct (order_participants _ !! chat.ID o) as [p|]; [|done]. exists p. split; [done|].
    apply Z.ltb_ge in E. lia.
Qed.


Lemma filter_all {A} (P : A → Prop) `{∀ x, Decision (P x)} (l : list A) : (∀ x, x ∈ l → P x) → filter P l = l.
Proof.
  induction l as [|x l IH]; intros Hl; [done|]. rewrite filter_cons_True by (apply Hl; set_solver).
  f_equal. apply IH. intros y Hy. apply Hl. set_solver.
Qed.

(** The statement selects the orders that the code calls open. *)
Lemma eligible_may_chat user now id p :
  participants_ok p → user ≠ uuid_nil → chat.GracePeriod ≤ now →
  eligible user (now - chat.GracePeriod) p = may_chat user now (fromRow id p).
Proof.
  intros [Hc He] Hu Hnow. unfold eligible, may_chat, chat.Other, chat.IsOpen.
  cbn [fromRow chat.RequesterID chat.CourierID chat.Status chat.EndedAt].
  assert (same (default uuid_nil (op_CourierID p)) uuid_nil = negb (is_some (op_CourierID p))) as ->.
  { destruct (op_CourierID p) as [c|]; cbn; [|apply same_refl]. apply same_false. congruence. }
  assert (same (op_CourierID p) (Some user) = same user (default uuid_nil (op_CourierID p))) as ->.
  { destruct (op_CourierID p) as [c|]; cbn.
    - destruct (same user c) eqn:Hs; [apply same_eq in Hs as ->; apply same_refl|].
      apply same_false. apply same_ne in Hs. congruence.
    - trans false; [by apply same_false|symmetry; by apply same_false]. }
  assert (same (op_RequesterID p) user = same user (op_RequesterID p)) as ->.
  { destruct (same user (op_RequesterID p)) eqn:Hs; [apply same_eq in Hs as <-; apply same_refl|].
    apply same_false. apply same_ne in Hs. congruence. }
  assert (match op_EndedAt p with Some t => stored_time (now - chat.GracePeriod) <? t | None => false end
          = negb (IsZero (default zero_time (op_EndedAt p)))
            && Before now (default zero_time (op_EndedAt p) + chat.GracePeriod)) as ->.
  { destruct (op_EndedAt p) as [t|]; [|done]. cbn [default]. specialize (He t eq_refl).
    unfold IsZero, Before, stored_time, time_truncate in *. cbn [Z.leb] in *.
    change (Microsecond <=? 0) with false in *. cbn iota in *.
    unfold Microsecond in *. pose proof (Z.mod_pos_bound (now - chat.GracePeriod) 1000).
    pose proof (Z.div_mod (now - chat.GracePeriod) 1000). pose proof (Z.div_mod t 1000). pose proof (Z.mod_pos_bound t 1000).
    apply Bool.eq_iff_eq_true. rewrite andb_true_iff, negb_true_iff, !Z.ltb_lt, Z.eqb_neq.
    unfold Datatypes.id, chat.GracePeriod, Hour, Minute, Second in *. lia. }
  destruct (op_CourierID p) as [c|]; cbn [is_some negb]; [|by rewrite !andb_false_r].
  destruct (same user (op_RequesterID p)), (same user (default uuid_nil (Some c))); cbn; try done;
    by destruct (chat.under_way (op_Status p)), (chat.ended (op_Status p)).
Qed.

(** C18: the chats that /chat offers, and among which a message without an order
    is routed, are the user's open ones: every listed order is one in which the
    user may chat now, and an open order is missing only when twenty others were
    listed that were updated no earlier. *)
Theorem open_chats_exact user now ts w l w' :
  reachable (w_db w) → others_ok ts → user ≠ uuid_nil → chat.GracePeriod ≤ now →
  openOrders user now ts w = (Ok l, w') →
  (∀ o, o ∈ l → may_chat user now o = true
     ∧ ∃ p, order_participants (w_db w') !! chat.ID o = Some p ∧ o = fromRow (chat.ID o) p)
  ∧ ∀ id p, order_participants (w_db w') !! id = Some p → may_chat user now (fromRow id p) = true →
    fromRow id p ∈ l
    ∨ length l = keyboard_limit ∧ ∀ o, o ∈ l → ∃ q, order_participants (w_db w') !! chat.ID o = Some q
                                       ∧ op_UpdatedAt p ≤ op_UpdatedAt q.
Proof.
  intros Hd Ho Hu Hnow Hrun. unfold openOrders in Hrun. unfold mbind, io_mbind in Hrun.
  destruct (statement _ ts w) as [[l0|] w1] eqn:Hs; [|done]. cbn in Hrun. injection Hrun as Hl <-.
  apply statement_ok in Hs. unfold UserOrders, reads in Hs. injection Hs as Hdb Hl0.
  assert (CInv (w_db w1)) as HI.
  { apply reachable_CInv. rewrite <- Hdb. destruct (Ho (w_turn w) (w_db w)) as (ops & _ & ->). by apply reachable_run. }
  rewrite Hdb in Hl0. clear Hdb.
  set (rows := filter (λ p, eligible user (now - chat.GracePeriod) p.2 = true)
                 (map_to_list (order_participants (w_db w1)))) in *.
  assert (∀ x, x ∈ rows ↔ order_participants (w_db w1) !! x.1 = Some x.2 ∧ may_chat user now (fromRow x.1 x.2) = true) as Hrows.
  { intros [id p]. unfold rows. rewrite list_elem_of_filter, elem_of_map_to_list. cbn. split.
    - intros [He Hp]. split; [done|]. rewrite <- He. symmetry. apply eligible_may_chat; [by eapply (ci_order _ HI)|done..].
    - intros [Hp He]. split; [|done]. rewrite <- He. apply eligible_may_chat; [by eapply (ci_order _ HI)|done..]. }
  set (sorted := merge_sort newest rows) in *.
  assert (∀ x, x ∈ sorted ↔ x ∈ rows) as Hperm by (intros x; unfold sorted; by rewrite merge_sort_Permutation).
  assert (∀ x, x ∈ take keyboard_limit sorted → x ∈ rows) as Htake.
  { intros x Hx. apply Hperm. rewrite <- (take_drop keyboard_limit sorted). apply elem_of_app. by left. }
  assert (l = l0) as ->.
  { rewrite <- Hl, <- Hl0. apply filter_all. intros o (x & -> & Hx)%list_elem_of_fmap. by apply Hrows, Htake. }
  clear Hl. subst l0. split.
  - intros o (x & -> & Hx)%list_elem_of_fmap. apply Htake, Hrows in Hx as [Hp Hm]. split; [done|]. by exists x.2.
  - intros id p Hp Hm. destruct (decide ((id, p) ∈ take keyboard_limit sorted)) as [Hin|Hout].
    { left. apply list_elem_of_fmap. by exists (id, p). }
    right. assert ((id, p) ∈ drop keyboard_limit sorted) as Hdrop.
    { assert ((id, p) ∈ sorted) as Hin by (by apply Hperm, Hrows).
      rewrite <- (take_drop keyboard_limit sorted) in Hin. by apply elem_of_app in Hin as [?|?]. }
    split.
    + rewrite length_fmap, length_take. assert (keyboard_limit < length sorted)%nat; [|lia].
      destruct (decide (keyboard_limit < length sorted)%nat); [done|]. rewrite drop_ge in Hdrop by lia.
      by apply elem_of_nil in Hdrop.
    + intros o (x & -> & Hx)%list_elem_of_fmap. exists x.2. split; [by apply Htake, Hrows in Hx as [? _]|].
      assert (StronglySorted newest sorted) as Hsort.
      { apply Sorted_StronglySorted; [intros a b c; unfold newest; lia|]. apply Sorted_merge_sort.
        intros a b. unfold newest. lia. }
      rewrite <- (take_drop keyboard_limit sorted) in Hsort. exact (StronglySorted_app_1_elem_of newest _ _ _ _ Hsort Hx Hdrop).
Qed.

Section theorems.
  Context `{UUID, Digest, UnicodeLower}.

(** C10: what a participant writes reaches only the other participant. While an
    update is handled, with however many retries and whatever the outside does,
    every message the bot sends is an answer to the chat that the update came from,
    or a relay of its text: sent to the chat linked to the other participant of an
    order in which the writer may chat, as four statements just before found, with
    the message recorded by then. *)
Theorem relay_reaches_counterpart n u ts w l1 c text kb r l2 :
  w_log w = [] → w_log (process n u ts w).2 = l1 ++ Sent c text kb r :: l2 →
  if is_relay text then ∃ m, justified (update_chat u) (update_text u) l1 c text m else c = update_chat u.
Proof.
  intros Hl Heq. destruct (process_stands n u [] (conj (sends_nil _) eq_refl) ts w Hl) as [Ht _].
  exact (Ht l1 c text kb r l2 Heq).
Qed.

(** C21: a message that Telegram accepted is not relayed again: handling an update,
    retries included, has at most one relay accepted. *)
Theorem relayed_at_most_once n u ts w :
  w_log w = [] → (relays (w_log (process n u ts w).2) ≤ 1)%nat.
Proof. intros Hl. apply (process_stands n u [] (conj (sends_nil _) eq_refl) ts w Hl). Qed.

(** ** Notifications *)

(** Whom an event concerns: the requester; the courier, unless that is the
    requester; the courier who was unassigned, when there is no other; never the
    user who caused the change. *)
Record concerned (e : OrderStatusChanged) (r : recipient) : Prop := {
  co_named : rc_userID r ≠ EmptyString;
  co_actor a : sc_ActorKind e = User → sc_ActorId e = Some a → EqualFold (rc_userID r) a = false;
  co_role : match rc_role r with
            | requester => rc_userID r = sc_RequesterId e
            | courier => sc_CourierId e = Some (rc_userID r) ∧ EqualFold (rc_userID r) (sc_RequesterId e) = false
            | previousCourier => sc_PreviousCourierId e = Some (rc_userID r)
                                 ∧ (sc_CourierId e = None ∨ sc_CourierId e = Some EmptyString)
            end;
}.

Lemma nonempty_true s : nonempty s = true ↔ s ≠ EmptyString.
Proof. unfold nonempty. by rewrite negb_true_iff, bool_decide_eq_false. Qed.
Lemma EqualFold_empty s : nonempty s = true → EqualFold s EmptyString = false.
Proof. by destruct s. Qed.

Lemma not_actor_spec e id :
  nonempty id = true →
  EqualFold id (if same (sc_ActorKind e) User then default EmptyString (sc_ActorId e) else EmptyString) = false
  ↔ ∀ a, sc_ActorKind e = User → sc_ActorId e = Some a → EqualFold id a = false.
Proof.
  intros Hn. destruct (same (sc_ActorKind e) User) eqn:Hk.
  - apply same_eq in Hk. destruct (sc_ActorId e) as [a|]; cbn; [naive_solver|]. by rewrite EqualFold_empty.
  - apply same_ne in Hk. by rewrite EqualFold_empty.
Qed.

Lemma elem_of_if {A} (b : bool) (x y : A) : x ∈ (if b then [y] else []) ↔ b = true ∧ x = y.
Proof. destruct b; rewrite ?list_elem_of_singleton, ?elem_of_nil; naive_solver. Qed.

(** The code notifies exactly those. *)
Lemma recipients_concerned e r : r ∈ recipients e ↔ concerned e r.
Proof.
  unfold recipients. rewrite !elem_of_app, !elem_of_if, !andb_true_iff, !negb_true_iff. split.
  - intros [[[Hn Ha] ->]|[[[[Hn Ha] Hr] ->]|[[[Hn Hc] Ha] ->]]];
      (split; cbn; [by apply nonempty_true|by apply not_actor_spec|]); [done| |].
    + split; [|done]. by destruct (sc_CourierId e).
    + destruct (sc_PreviousCourierId e); [|done]. split; [done|].
      destruct (sc_CourierId e) as [c|]; [right|by left]. f_equal. cbn in Hc. by apply negb_false_iff, bool_decide_eq_true in Hc.
  - intros [Hn%nonempty_true Ha Hr]. apply not_actor_spec in Ha; [|done]. destruct r as [id []]; cbn in *.
    + left. by subst.
    + right. left. destruct Hr as [-> Hr]. by cbn.
    + right. right. destruct Hr as [-> Hr]. cbn. split_and!; [done| |done|done]. by destruct Hr as [->| ->].
Qed.

(** A notification of the event to [user]: they are a participant who did not
    cause the change, the event was fresh, and the two statements just before found
    that they had not been notified and that [c] is their chat. *)
Definition notifies (e : OrderStatusChanged) (user : string) (l : list Event) (c : Z) (text : string) : Prop :=
  ∃ event r now l0 d1 d2 link,
    uuid_parse (sc_EventId e) = Some event ∧ concerned e r ∧ uuid_parse (rc_userID r) = Some user
    ∧ text = message e (rc_role r) ∧ text ≠ EmptyString
    ∧ Clock now ∈ l ∧ time_sub now (sc_OccurredAt e) ≤ MaxAge
    ∧ l = l0 ++ [Statement_run d1; Statement_run d2]
    ∧ order_notifications_sent d1 !! (event, user) = None
    ∧ telegram_links d2 !! user = Some link ∧ tl_ChatID link = c.
Definition notifying (e : OrderStatusChanged) : list Event → Prop := sends_only (λ l c text, ∃ user, notifies e user l c text).

Definition since (e : OrderStatusChanged) (now : Time) (l : list Event) : Prop :=
  notifying e l ∧ Clock now ∈ l.

Lemma since_silent e now l es : Forall silent es → since e now l → since e now (l ++ es).
Proof. intros Hes [Hl Hc]. split; [by apply sends_silent|set_solver]. Qed.
Lemma logs_since {F A} (m : Io F A) e now l : quiet m → since e now l → logs m l (λ _, since e now).
Proof. intros Hm Hl. eapply logs_mono; [apply Hm|]. intros r l' (es & -> & Hes). by apply since_silent. Qed.

Lemma notify_since e event now r user l :
  uuid_parse (sc_EventId e) = Some event → time_sub now (sc_OccurredAt e) ≤ MaxAge → concerned e r →
  uuid_parse (rc_userID r) = Some user → message e (rc_role r) ≠ EmptyString → since e now l →
  logs (notify event (sc_OrderId e) user (message e (rc_role r))) l (λ _, since e now).
Proof.
  intros He Hage Hr Hu Ht Hl. unfold notify. apply logs_bind, logs_statement.
  2:{ intros x d. by apply since_silent; [repeat constructor|]. }
  intros d d1 sent [= -> <-]. cbn beta iota. assert (since e now (l ++ [Statement_run d1])) as Hl1
    by (by apply since_silent; [repeat constructor|]).
  destruct (order_notifications_sent d1 !! (event, user)) eqn:Hs; cbn [is_some]; [by apply logs_ret|].
  apply logs_bind, logs_try. unfold Get, GetLink. apply logs_statement.
  2:{ intros x d2. destruct x; cbn beta iota; first [apply logs_ret|apply logs_fail];
      (apply since_silent; [by repeat constructor|done]). }
  intros d0 d2 link Hlink. apply (reads_ok (A:=Link)) in Hlink as [-> Hlink]. cbn beta iota.
  unfold GetLink_row in Hlink. apply fmap_Some in Hlink as (row & Hrow & ->).
  set (l2 := (l ++ [Statement_run d1]) ++ [Statement_run d0]).
  assert (since e now l2) as Hl2 by (apply since_silent; [by repeat constructor|done]).
  apply logs_bind, logs_try, logs_Send. intros res.
  assert (since e now (l2 ++ [Sent (tl_ChatID row) (message e (rc_role r)) None res])) as Hl3.
  { split; [|destruct Hl2; set_solver]. apply sends_snoc; [apply Hl2|]. intros c text kb r0 [= <- <- _ _].
    exists user, event, r, now, l, d1, d0, row. split_and!; try done; [apply Hl2|].
    unfold l2. by rewrite <- app_assoc. }
  change (l_ChatID (row_link user row)) with (tl_ChatID row).
  destruct res as [id|[]]; cbn beta iota; try (apply logs_fail; exact Hl3).
  - apply logs_since; [|done]. unfold record_sent. quiet_steps.
  - destruct (telegram.ChatGone _); [apply logs_since; [apply quiet_statement|done]|].
    destruct (telegram.Rejected _); [by apply logs_ret|by apply logs_fail].
Qed.

Lemma consume_notifying e l : notifying e l → logs (consume e) l (λ _, notifying e).
Proof.
  intros Hl. unfold consume. apply logs_bind. assert (quiet (Apply e)) as Hq by (unfold Apply; quiet_steps).
  eapply logs_mono; [apply Hq|]. intros r l' (es & -> & Hes).
  assert (notifying e (l ++ es)) as Hl' by by apply sends_silent.
  destruct r as [u|x]; [|done]. unfold Notify_Handle.
  destruct (uuid_parse (sc_EventId e)) as [event|] eqn:He; [|by apply logs_ret].
  apply logs_bind, logs_Now. intros now. cbn beta iota.
  assert (since e now ((l ++ es) ++ [Clock now])) as Hs.
  { split; [apply sends_silent; [by repeat constructor|done]|set_solver]. }
  destruct (Z.ltb_spec MaxAge (time_sub now (sc_OccurredAt e))); [apply logs_ret, Hs|].
  apply (logs_mono _ _ (λ _, since e now)); [|by intros ?? [? _]]. apply logs_each; [exact Hs|]. intros r l' Hr Hl''.
  unfold notify_recipient. destruct (nonempty _) eqn:Ht; [|by apply logs_ret].
  destruct (uuid_parse (rc_userID r)) as [user|] eqn:Hu; [|by apply logs_ret].
  apply (notify_since e event now r user); try done; [by apply recipients_concerned|by apply nonempty_true].
Qed.

(** What consuming the event achieved for [user]: the log shows that the user is
    recorded as notified, or has no chat, or that Telegram refused the message for
    good. *)
Definition handled (event user text : string) (l : list Event) : Prop :=
  (∃ d, Statement_run d ∈ l ∧ is_Some (order_notifications_sent d !! (event, user)))
  ∨ (∃ d, Statement_run d ∈ l ∧ telegram_links d !! user = None)
  ∨ ∃ c a, Sent c text None (Err (ErrAPI a)) ∈ l ∧ (telegram.ChatGone a = true ∨ telegram.Rejected a = true).

Lemma handled_later event user text l l' : handled event user text l → l `prefix_of` l' → handled event user text l'.
Proof. intros Hh [k ->]. unfold handled in *. set_solver. Qed.

Lemma prefix_snoc {A} (l l' : list A) x : l `prefix_of` l' → l `prefix_of` l' ++ [x].
Proof. apply prefix_app_r. Qed.
Lemma quiet_prefix {F A} (m : Io F A) l : quiet m → logs m l (λ _ l', l `prefix_of` l').
Proof. intros Hm. eapply logs_mono; [apply Hm|]. intros r l' (es & -> & _). by apply prefix_app_r. Qed.

Lemma record_sent_handled event order user text c id l :
  logs (record_sent event order user c id) l
    (λ r l', l `prefix_of` l' ∧ (is_ok r = true → handled event user text l')).
Proof.
  unfold record_sent. apply logs_bind, logs_bind, logs_Now. intros now. cbn beta iota.
  apply logs_statement; [|intros; by split; [apply prefix_snoc, prefix_snoc|]].
  intros d d' [] Hs. cbn beta iota. set (l1 := (l ++ [Clock now]) ++ [Statement_run d']).
  assert (handled event user text l1) as Hh.
  { left. exists d'. split; [unfold l1; set_solver|]. unfold RecordSent, changes in Hs. injection Hs as <-.
    destruct (order_notifications_sent d !! (event, user)) eqn:E; cbn; [by rewrite E|].
    rewrite lookup_insert_eq. by eexists. }
  assert (l `prefix_of` l1) as Hl by by apply prefix_snoc, prefix_snoc.
  destruct (uuid_parse order); [|by apply logs_ret]. eapply logs_mono; [apply quiet_prefix; by quiet_steps|].
  intros r l' Hl'. split; [by etrans|]. intros _. by eapply handled_later.
Qed.

Lemma notify_handled event order user text l :
  logs (notify event order user text) l (λ r l', l `prefix_of` l' ∧ (is_ok r = true → handled event user text l')).
Proof.
  unfold notify. apply logs_bind, logs_statement; [|intros; by split; [apply prefix_snoc|]].
  intros d d1 sent [= -> <-]. cbn beta iota.
  destruct (order_notifications_sent d1 !! (event, user)) as [t|] eqn:Hs; cbn [is_some].
  { apply logs_ret. split; [by apply prefix_snoc|]. intros _. left. exists d1. rewrite Hs. split; [set_solver|by eexists]. }
  apply logs_bind, logs_try. unfold Get, GetLink. apply logs_statement_errors.
  2:{ intros d2 x Hx. unfold or_error, then_, reads in Hx. destruct (GetLink_row user d2) eqn:Hl; [done|]. injection Hx as <-.
      cbn beta iota. apply logs_ret. split; [by apply prefix_snoc, prefix_snoc|]. intros _. right. left. exists d2.
      split; [set_solver|]. unfold GetLink_row in Hl. by destruct (telegram_links d2 !! user). }
  2:{ intros d2 code. cbn beta iota. apply logs_fail. by split; [apply prefix_snoc, prefix_snoc|]. }
  intros d2 d2' link _. cbn beta iota. apply logs_bind, logs_try, logs_Send. intros res. cbn beta iota.
  set (l1 := ((l ++ [Statement_run d1]) ++ [Statement_run d2']) ++ [Sent (l_ChatID link) text None res]).
  assert (l `prefix_of` l1) as Hl by by apply prefix_snoc, prefix_snoc, prefix_snoc.
  destruct res as [id|[]]; try (apply logs_fail; by split).
  - eapply logs_mono; [apply record_sent_handled|]. intros r l' [Hl' Hh]. split; [by etrans|exact Hh].
  - assert (telegram.ChatGone e = true ∨ telegram.Rejected e = true → handled event user text l1) as Hh.
    { intros Ha. right. right. exists (l_ChatID link), e. split; [unfold l1; set_solver|done]. }
    destruct (telegram.ChatGone e) eqn:Hg.
    { eapply logs_mono; [apply quiet_prefix; unfold UnlinkChat; by quiet_steps|]. intros r l' Hl'.
      split; [by etrans|]. intros _. eapply handled_later; [by apply Hh; left|done]. }
    destruct (telegram.Rejected e) eqn:Hj; [apply logs_ret|apply logs_fail]; (split; [done|]); [|done].
    intros _. apply Hh. by right.
Qed.

(** The clocks of the log show the event to be at most an hour old. *)
Definition seen_fresh (e : OrderStatusChanged) (l : list Event) : Prop :=
  ∀ now, Clock now ∈ l → time_sub now (sc_OccurredAt e) ≤ MaxAge.

Lemma consume_handles e event :
  uuid_parse (sc_EventId e) = Some event →
  logs (consume e) [] (λ r l, is_ok r = true → seen_fresh e l →
    ∀ rc user, concerned e rc → uuid_parse (rc_userID rc) = Some user → message e (rc_role rc) ≠ EmptyString →
      handled event user (message e (rc_role rc)) l).
Proof.
  intros He. unfold consume. apply logs_bind.
  eapply logs_mono; [apply (quiet_prefix (Apply e)); unfold Apply; by quiet_steps|]. intros [[]|x] l _; [|done].
  unfold Notify_Handle. rewrite He. apply logs_bind, logs_Now. intros now. cbn beta iota.
  destruct (Z.ltb_spec MaxAge (time_sub now (sc_OccurredAt e))) as [Hold|_].
  { apply logs_ret. intros _ Hf. specialize (Hf now). exfalso.
    enough (time_sub now (sc_OccurredAt e) ≤ MaxAge) by lia. apply Hf. set_solver. }
  eapply logs_mono; [apply (logs_each_all _ (λ rc l, ∀ user, uuid_parse (rc_userID rc) = Some user →
    message e (rc_role rc) ≠ EmptyString → handled event user (message e (rc_role rc)) l))|].
  - intros rc l1 l2 Hh Hl user Hu Ht. by eapply handled_later; [apply Hh|].
  - intros rc l1. unfold notify_recipient. destruct (nonempty _) eqn:Hn.
    2:{ apply logs_ret. split; [done|]. intros _ user _ Ht%nonempty_true. congruence. }
    destruct (uuid_parse (rc_userID rc)) as [user|]; [|by apply logs_ret].
    eapply logs_mono; [apply notify_handled|]. intros r l' [Hl Hh]. split; [done|]. intros Hr user' [= <-] _. by apply Hh.
  - intros r l' [_ Hall] Hr _ rc user Hc Hu Ht. apply Hall; [done| |done..]. by apply recipients_concerned.
Qed.

(** C22: who is notified of what. While an event is consumed, everything sent is the
    text of the event for a participant who did not cause the change, to the chat
    linked to that user, while the event is at most an hour old and the user is not
    recorded as notified. So a recorded user is not notified again, however often
    the event is delivered, as long as the records are not cleaned up. And an event
    is acknowledged while it is fresh only when every such participant for whom it
    has a text is recorded as notified, has no chat, or Telegram refused. *)
Theorem notified_participants e ts w :
  w_log w = [] →
  (∀ l1 c text kb r l2, w_log (consume e ts w).2 = l1 ++ Sent c text kb r :: l2 →
     ∃ user, notifies e user l1 c text)
  ∧ (∀ event user, uuid_parse (sc_EventId e) = Some event →
      is_Some (order_notifications_sent (w_db w) !! (event, user)) →
      others_within (λ o, ¬ is_cleanup o) ts →
      ∀ l1 c text kb r l2, w_log (consume e ts w).2 = l1 ++ Sent c text kb r :: l2 → ¬ notifies e user l1 c text)
  ∧ ∀ event r user, uuid_parse (sc_EventId e) = Some event → (consume e ts w).1 = Ok tt →
      seen_fresh e (w_log (consume e ts w).2) →
      concerned e r → uuid_parse (rc_userID r) = Some user → message e (rc_role r) ≠ EmptyString →
      handled event user (message e (rc_role r)) (w_log (consume e ts w).2).
Proof.
  intros Hl. split; [exact (consume_notifying e [] (sends_nil _) ts w Hl)|]. split.
  2:{ intros event r user He Hr Hf. apply (consume_handles e event He ts w Hl); [by rewrite Hr|exact Hf]. }
  intros event user He Hs Ho l1 c text kb r l2 Heq (ev & rc & now & l0 & d1 & d2 & link & He' & _ & _ & _ & _ & _ & _ & -> & Hn & _).
  rewrite He in He'. injection He' as <-.
  destruct (sound_consume (λ o, ¬ is_cleanup o) (λ o Ho, Ho) e
    (λ d, is_Some (order_notifications_sent d !! (event, user))) ts w) as [_ Hlog]; [|done|done|].
  - intros d o Hc [t Ht]. destruct o; cbn [apply_op]; unfold left_by; try (by exists t).
    + destruct (ReplaceCode _ _ _ _ _) as [[d' x]|] eqn:E; [|by exists t]. revert E. unfold ReplaceCode. intros E.
      inv_ok E. simplify_eq. by exists t.
    + destruct (RedeemCode _ _ _ _) as [[d' x]|] eqn:E; [|by exists t].
      apply RedeemCode_ok in E as (? & _ & _ & _ & _ & _ & ->). by exists t.
    + unfold SaveOrder. destruct (guard_ok _ _); cbn; [|by exists t]. destruct (newer _ _); by exists t.
    + unfold SaveMessage. destruct (guard_ok _ _); cbn; [|by exists t]. destruct (chat_messages d !! _); by exists t.
    + cbn. destruct (order_notifications_sent d !! (event0, user0)) eqn:E; [by exists t|]. cbn.
      rewrite lookup_insert_ne; [by exists t|]. intros [= -> ->]. congruence.
  - destruct (Hlog d1) as [Hin|Hin].
    + unfold in_log. rewrite Heq. set_solver.
    + unfold in_log in Hin. rewrite Hl in Hin. by apply elem_of_nil in Hin.
    + rewrite Hn in Hin. by destruct Hin.
Qed.

(** ** Retention *)

(** A copy that was saved from an event. *)
Definition copied (p : ParticipantsRow) : Prop :=
  ∃ e o now, participants e = Some o ∧ p = participants_row o now.

Lemma copied_ended p t : copied p → op_EndedAt p = Some t → chat.under_way (op_Status p) = false.
Proof.
  intros (e & o & now & Hp & ->) Ht. unfold participants in Hp.
  destruct (uuid_parse (sc_OrderId e)); [|done]. cbn in Hp. destruct (uuid_parse (sc_RequesterId e)); [|done].
  cbn in Hp. destruct (match sc_CourierId e with Some _ => _ | None => _ end); [|done]. injection Hp as <-.
  cbn in *. by destruct (sc_Status e).
Qed.

Lemma DeleteExpired_result cutoff closed d :
  DeleteExpired cutoff closed d = Ok (
    d <| chat_messages := filter (λ m, message_expired cutoff d m.2 = false) (chat_messages d) |>
      <| chat_reply_targets := filter (λ t, target_expired cutoff d t.2 = false) (chat_reply_targets d) |>
      <| order_notifications_sent := filter (λ n, ¬ (n.2 < stored_time cutoff)) (order_notifications_sent d) |>
      <| chat_selections := filter (λ s, selection_closed closed d s.2 = false) (chat_selections d) |>
      <| order_participants := filter (λ p, ended_before cutoff p.2 = false) (order_participants d) |>,
    Z.of_nat (size (filter (λ m, message_expired cutoff d m.2 = true) (chat_messages d)))).
Proof. reflexivity. Qed.

(** The rows of a table that are about an order. *)
Definition about {K A} `{Countable K} (f : A → string) (id : string) (m : gmap K A) : gmap K A :=
  filter (λ r, f r.2 = id) m.

Lemma about_kept {K A} `{Countable K} (f : A → string) id (P : K * A → Prop) `{∀ x, Decision (P x)} (m : gmap K A) :
  (∀ k r, m !! k = Some r → f r = id → P (k, r)) → about f id (filter P m) = about f id m.
Proof.
  intros HP. unfold about. apply map_eq. intros k. apply option_eq. intros r.
  rewrite !map_lookup_filter_Some. cbn. split; [by intros [[? _] ?]|]. intros [Hk Hr]. auto.
Qed.
Lemma about_gone {K A} `{Countable K} (f : A → string) id (P : K * A → Prop) `{∀ x, Decision (P x)} (m : gmap K A) :
  (∀ k r, m !! k = Some r → f r = id → ¬ P (k, r)) → about f id (filter P m) = ∅.
Proof.
  intros HP. unfold about. apply map_eq. intros k. rewrite lookup_empty. apply map_lookup_filter_None. right.
  intros r [Hk Hr]%map_lookup_filter_Some Hf. by apply (HP k r).
Qed.

Lemma size_split {A} `{Countable K} (f : A → bool) (m : gmap K A) :
  size m = (size (filter (λ x, f x.2 = false) m) + size (filter (λ x, f x.2 = true) m))%nat.
Proof.
  rewrite <- (map_filter_union_complement (λ x, f x.2 = false) m) at 1.
  rewrite map_size_disj_union by apply map_disjoint_filter_complement. f_equal. f_equal.
  apply map_filter_ext. intros k x _. cbn. by destruct (f x).
Qed.

(** What the rows say of an open chat, and of a long ended one. *)
Lemma open_kept id p now :
  copied p → chat.IsOpen (fromRow id p) now = true →
  ended_before (now - chat.Retention) p = false
  ∧ match op_EndedAt p with Some t => t <=? stored_time (now - chat.GracePeriod) | None => false end = false
  ∧ is_some (op_EndedAt p) || is_some (op_CourierID p) && chat.under_way (op_Status p) = true.
Proof.
  intros Hcop Hopen. unfold chat.IsOpen in Hopen. cbn [fromRow chat.CourierID chat.Status chat.EndedAt] in Hopen.
  pose proof (copied_ended p) as Hend. unfold ended_before.
  destruct (op_CourierID p) as [c|]; cbn [default] in Hopen; [|by rewrite same_refl in Hopen].
  destruct (same _ _); [done|]. destruct (op_EndedAt p) as [t|].
  - specialize (Hend t Hcop eq_refl). rewrite Hend in Hopen. destruct (chat.ended _); [|done].
    apply andb_prop in Hopen as [_ Hlt%Z.ltb_lt]. cbn in Hlt.
    pose proof (stored_time_le (now - chat.Retention)). pose proof (stored_time_le (now - chat.GracePeriod)).
    unfold chat.Retention, chat.GracePeriod, Hour, Minute, Second in *.
    split_and!; [apply Z.ltb_ge; lia|apply Z.leb_gt; lia|done].
  - split_and!; [done..|]. cbn. destruct (chat.under_way _); [done|]. by destruct (chat.ended _).
Qed.

Lemma ended_gone p now t :
  op_EndedAt p = Some t → t < stored_time (now - chat.Retention) →
  ended_before (now - chat.Retention) p = true
  ∧ match op_EndedAt p with Some t => t <=? stored_time (now - chat.GracePeriod) | None => false end = true.
Proof.
  intros Ht Hlt. unfold ended_before. rewrite Ht. split; [by apply Z.ltb_lt|]. apply Z.leb_le.
  assert (stored_time (now - chat.Retention) ≤ stored_time (now - chat.GracePeriod)); [|lia].
  apply time_truncate_mono. unfold chat.Retention, chat.GracePeriod, Hour, Minute, Second. lia.
Qed.

(** C20: the cleanup keeps what is needed and no more. It leaves every chat that is
    open untouched: the copy of the order, its messages, the messages one can reply
    to and the selections of it. Of an order that ended more than the retention
    period ago it leaves nothing. A record of a notification is kept at least for
    the retention period, and the count that it reports is that of the messages it
    deleted. *)
Theorem retention now d :
  (∀ id p, order_participants d !! id = Some p → copied p) →
  ∃ d' n, DeleteExpired (now - chat.Retention) (now - chat.GracePeriod) d = Ok (d', n)
  ∧ n = Z.of_nat (size (chat_messages d)) - Z.of_nat (size (chat_messages d'))
  ∧ (∀ key at_, order_notifications_sent d !! key = Some at_ → now - chat.Retention ≤ at_ →
       order_notifications_sent d' !! key = Some at_)
  ∧ ∀ id p, order_participants d !! id = Some p →
      (chat.IsOpen (fromRow id p) now = true →
         order_participants d' !! id = Some p
         ∧ about chat.m_OrderID id (chat_messages d') = about chat.m_OrderID id (chat_messages d)
         ∧ about rt_OrderID id (chat_reply_targets d') = about rt_OrderID id (chat_reply_targets d)
         ∧ about cs_OrderID id (chat_selections d') = about cs_OrderID id (chat_selections d))
      ∧ (∀ ended, op_EndedAt p = Some ended → ended < stored_time (now - chat.Retention) →
         order_participants d' !! id = None
         ∧ about chat.m_OrderID id (chat_messages d') = ∅
         ∧ about rt_OrderID id (chat_reply_targets d') = ∅
         ∧ about cs_OrderID id (chat_selections d') = ∅).
Proof.
  intros Hrows. rewrite DeleteExpired_result. do 2 eexists. split; [done|].
  pose proof (stored_time_le (now - chat.Retention)) as Hst. split; [|split].
  - cbn. pose proof (size_split (message_expired (now - chat.Retention) d) (chat_messages d)). lia.
  - intros key at_ Hk Hat. apply map_lookup_filter_Some. split; [done|]. intros Hlt. cbn [snd] in Hlt. lia.
  - intros id p Hp. split.
    + intros Hopen. destruct (open_kept id p now (Hrows id p Hp) Hopen) as (He & Hs & Ht). cbn. split_and!.
      * by apply map_lookup_filter_Some.
      * apply about_kept. intros k m _ Hm. cbn. unfold message_expired. by rewrite Hm, Hp.
      * apply about_kept. intros k t _ Hm. cbn. unfold target_expired. by rewrite Hm, Hp, He, Ht, andb_false_r.
      * apply about_kept. intros k s _ Hm. cbn. unfold selection_closed. by rewrite Hm, Hp.
    + intros ended Hend Hlt. destruct (ended_gone p now ended Hend Hlt) as [He Hs]. cbn. split_and!.
      * apply map_lookup_filter_None. right. intros q Hq. cbn. rewrite Hp in Hq. injection Hq as <-. congruence.
      * apply about_gone. intros k m _ Hm. cbn. unfold message_expired. by rewrite Hm, Hp, He.
      * apply about_gone. intros k t _ Hm. cbn. unfold target_expired. by rewrite Hm, Hp, He.
      * apply about_gone. intros k s _ Hm. cbn. unfold selection_closed. by rewrite Hm, Hp, Hs.
Qed.
End theorems.

(** ** A run

    A requester and a courier connect their chats; the courier writes to the
    requester about the order that was accepted; the requester is told of the
    pickup, disconnects, and everything is cleaned up in time. *)
#[local] Instance ex_uuid : UUID := example_uuid.
#[local] Instance ex_digest : Digest := λ s,
  String.substring 0 64 (s +:+ "0000000000000000000000000000000000000000000000000000000000000000").
#[local] Instance ex_lower : UnicodeLower := λ _, EmptyString.

Definition ex_requester : string := "11111111-1111-1111-1111-111111111111".
Definition ex_courier : string := "22222222-2222-2222-2222-222222222222".
Definition ex_order : string := "33333333-3333-3333-3333-333333333333".
Definition ex_event : string := "44444444-4444-4444-4444-444444444444".
Definition ex_message : string := "55555555-5555-5555-5555-555555555555".
Definition ex_noon : Time := 63_900_000_000 * Second.

Definition ex_turn (n : nat) : Turn := {|
  t_others := λ d, d; t_fault := None; t_sent := Ok 900; t_answered := Ok tt; t_now := ex_noon;
  t_uuid := Some ex_message; t_bytes := Some [] |}.
Lemma ex_others P : others_within P ex_turn.
Proof. intros n d. exists []. by split; [constructor|]. Qed.

Definition ex_changed (revision : Z) (previous status : Status) : OrderStatusChanged := {|
  sc_EventId := ex_event; sc_OrderId := ex_order; sc_Revision := revision; sc_PreviousStatus := previous;
  sc_Status := status; sc_ActorKind := User; sc_ActorId := Some ex_courier; sc_RequesterId := ex_requester;
  sc_CourierId := Some ex_courier; sc_PreviousCourierId := None; sc_PickupLocationName := "Fine Food";
  sc_OccurredAt := ex_noon |}.

Definition ex_ops : list Op := [
  OpReplaceCode (hashCode "for the requester") ex_requester (ex_noon + CodeLifetime) ex_noon;
  OpReplaceCode (hashCode "for the courier") ex_courier (ex_noon + CodeLifetime) ex_noon;
  OpRedeem (hashCode "for the courier") {| ch_ID := 200; ch_Username := "runner" |} ex_noon].
Definition ex_start : World := mkWorld (run ex_ops empty_cdb) 0 [].
Definition ex_chat : Chat := {| ch_ID := 100; ch_Username := EmptyString |}.
Definition ex_linked : World := (Redeem "for the requester" ex_chat ex_turn ex_start).2.
Definition cleared (w : World) : World := mkWorld (w_db w) (w_turn w) [].
Lemma cleared_db w : w_db (cleared w) = w_db w.
Proof. done. Qed.
Definition ex_accepted : World := cleared (consume (ex_changed 5 AwaitingCourier AwaitingPickup) ex_turn ex_linked).2.

Definition ex_update : telegram.Update := {|
  telegram.UpdateID := 7;
  telegram.up_Message := Some {| telegram.MessageID := 8; telegram.From := None;
    telegram.InChat := {| telegram.c_ID := 200; telegram.c_Type := "private" |};
    telegram.Text := "I am at the stall"; telegram.ReplyToMessage := None |};
  telegram.up_MyChatMember := None; telegram.up_CallbackQuery := None |}.
Definition ex_relayed : World := (process 0 ex_update ex_turn ex_accepted).2.

Lemma ex_start_reachable : reachable (w_db ex_start).
Proof. by exists ex_ops. Qed.
Lemma ex_linked_reachable : reachable (w_db ex_linked).
Proof.
  unfold ex_linked. destruct (sound_reaches (λ _, True) _ ex_turn ex_start
    (sound_Redeem (λ _, True) (λ _ _, I) "for the requester" ex_chat) (ex_others _)) as [ops ->].
  apply reachable_run, ex_start_reachable.
Qed.
Lemma ex_accepted_later : ∃ ops, w_db ex_accepted = run ops (w_db ex_linked).
Proof.
  unfold ex_accepted. rewrite cleared_db. apply (sound_reaches (λ _, True)); [by apply sound_consume|apply ex_others].
Qed.
Lemma ex_accepted_reachable : reachable (w_db ex_accepted).
Proof. destruct ex_accepted_later as [ops ->]. apply reachable_run, ex_linked_reachable. Qed.

(** The run does what it should: one relay was accepted. *)
Example ex_run_relays : relays (w_log ex_relayed) = 1%nat.
Proof. vm_compute. reflexivity. Qed.

(** Facts about the run, evaluated once. *)
Lemma ex_redeemed : is_ok (Redeem "for the requester" ex_chat ex_turn ex_start).1 = true.
Proof. vm_compute. reflexivity. Qed.
Lemma ex_opened : is_ok (openOrders ex_courier ex_noon ex_turn ex_accepted).1 = true.
Proof. vm_compute. reflexivity. Qed.
Definition ex_text : string :=
  relayedText (chat.mkOrder ex_order ex_requester ex_courier "awaiting_pickup" 5 "Fine Food" 0) ex_courier "I am at the stall".
Definition ex_before : list Event := take 14 (w_log ex_relayed).
Definition ex_after : list Event := drop (S 14) (w_log ex_relayed).
Lemma ex_relayed_log :
  w_log (process 0 ex_update ex_turn ex_accepted).2 = ex_before ++ Sent 100 ex_text None (Ok 900) :: ex_after.
Proof.
  unfold ex_before, ex_after, ex_relayed. rewrite take_drop_middle; [exact eq_refl|]. vm_compute. reflexivity.
Qed.
Lemma ex_text_relay : is_relay ex_text = true.
Proof. vm_compute. reflexivity. Qed.
Lemma ex_notified : is_Some (order_notifications_sent (w_db ex_accepted) !! (ex_event, ex_requester)).
Proof. apply is_some_iff. vm_compute. reflexivity. Qed.

Lemma link_code_redeemed_once_witness :
  is_ok (Redeem "for the requester" {| ch_ID := 300; ch_Username := "" |} ex_turn ex_accepted).1 = false.
Proof.
  destruct (Redeem "for the requester" ex_chat ex_turn ex_start) as [[link|e] w'] eqn:E;
    pose proof ex_redeemed as Hok; rewrite E in Hok; [|discriminate].
  destruct ex_accepted_later as [ops Hops].
  apply (proj2 (link_code_redeemed_once _ _ _ _ _ _ (ex_others _) E) ops); [|apply ex_others].
  replace w' with ex_linked by (unfold ex_linked; by rewrite E). exact Hops.
Defined.

Lemma ex_unlinked : is_ok (Unlink ex_requester ex_turn ex_linked).1 = true.
Proof. vm_compute. reflexivity. Qed.
Lemma unlink_final_witness :
  GetLink_row ex_requester (run [OpRedeem (hashCode "for the requester") ex_chat ex_noon]
    (w_db (Unlink ex_requester ex_turn ex_linked).2)) = None.
Proof.
  destruct (Unlink ex_requester ex_turn ex_linked) as [[[]|e] w'] eqn:E;
    pose proof ex_unlinked as Hok; rewrite E in Hok; [|discriminate].
  apply (unlink_final ex_requester ex_turn ex_linked w' _ E). constructor; [by intros []|constructor].
Defined.

Lemma communication_sound_witness : CInv (w_db ex_accepted).
Proof. exact (proj1 (communication_sound _ ex_accepted_reachable)). Defined.

Lemma relay_reaches_counterpart_witness :
  ∃ m, justified (update_chat ex_update) (update_text ex_update) ex_before 100 ex_text m.
Proof.
  pose proof (relay_reaches_counterpart 0 ex_update ex_turn ex_accepted ex_before 100 ex_text None (Ok 900) ex_after
    eq_refl ex_relayed_log) as Hr.
  rewrite ex_text_relay in Hr. exact Hr.
Defined.

Lemma relayed_at_most_once_witness : (relays (w_log ex_relayed) ≤ 1)%nat.
Proof. exact (relayed_at_most_once 0 ex_update ex_turn ex_accepted eq_refl). Defined.

(** The chats of the courier. *)
Lemma open_chats_exact_witness :
  ∃ l w', openOrders ex_courier ex_noon ex_turn ex_accepted = (Ok l, w')
    ∧ ∀ o, o ∈ l → may_chat ex_courier ex_noon o = true.
Proof.
  destruct (openOrders ex_courier ex_noon ex_turn ex_accepted) as [[l|e] w'] eqn:E;
    pose proof ex_opened as Hok; rewrite E in Hok; [|discriminate].
  exists l, w'. split; [exact eq_refl|]. intros o Ho.
  exact (proj1 (proj1 (open_chats_exact ex_courier ex_noon ex_turn ex_accepted l w' ex_accepted_reachable
    (ex_others _) ltac:(discriminate) ltac:(by vm_compute) E) o Ho)).
Defined.

(** The event once more: the requester is not told again. *)
Lemma notified_participants_witness :
  is_Some (order_notifications_sent (w_db ex_accepted) !! (ex_event, ex_requester))
  ∧ ¬ ∃ l1 c text kb r l2,
    w_log (consume (ex_changed 5 AwaitingCourier AwaitingPickup) ex_turn ex_accepted).2 = l1 ++ Sent c text kb r :: l2
    ∧ notifies (ex_changed 5 AwaitingCourier AwaitingPickup) ex_requester l1 c text.
Proof.
  split; [exact ex_notified|]. intros (l1 & c & text & kb & r & l2 & Heq & Hn). revert Hn.
  exact (proj1 (proj2 (@notified_participants ex_uuid ex_lower (ex_changed 5 AwaitingCourier AwaitingPickup) ex_turn ex_accepted eq_refl))
    ex_event ex_requester eq_refl ex_notified (ex_others _) l1 c text kb r l2 Heq).
Defined.

(** The order is delivered and completed; an hour later its chat is still there,
    and after the retention period nothing of it is. *)
Definition ex_ended : CDB :=
  w_db (consume (ex_changed 9 Delivered Completed) ex_turn ex_relayed).2.
Lemma ex_ended_copied id p : order_participants ex_ended !! id = Some p → copied p.
Proof.
  intros Hp. exists (ex_changed 9 Delivered Completed). eexists. exists ex_noon. split; [reflexivity|].
  assert (map_Forall (λ _ q, q = participants_row (default (chat.mkOrder "" "" "" "" 0 "" 0)
    (participants (ex_changed 9 Delivered Completed))) ex_noon) (order_participants ex_ended)) as Hall.
  { apply (bool_decide_unpack _). vm_compute. exact I. }
  exact (Hall id p Hp).
Qed.
Lemma retention_witness :
  ∃ d' n, DeleteExpired (ex_noon + 31 * 24 * Hour - chat.Retention) (ex_noon + 31 * 24 * Hour - chat.GracePeriod) ex_ended
    = Ok (d', n) ∧ n = Z.of_nat (size (chat_messages ex_ended)) - Z.of_nat (size (chat_messages d')).
Proof.
  destruct (retention (ex_noon + 31 * 24 * Hour) ex_ended ex_ended_copied) as (d' & n & Hr & Hn & _). exact (ex_intro _ d' (ex_intro _ n (conj Hr Hn))).
Defined.
