(* ===== verification/OrderChat.v ===== *)
(** * Order and Communication: the chat follows the order

    Order publishes what happens to an order; Communication keeps a copy of who
    takes part in it and opens the chat by it. *)
From stdpp Require Import prelude gmap strings list relations sorting.
From Stdlib Require Import ZArith Lia.
From S2P Require Import Prelude.
From S2P Require Import GoLib.
From S2P Require Import GoText.
From S2P Require Import GoMail.
From S2P Require Import OrderTypes.
From S2P Require Import OrderPolicy.
From S2P Require Import OrderDB.
From S2P Require Import OrderStore.
From S2P Require Import OrderOutbox.
From S2P Require Import OrderInvariant.
From S2P Require Import OrderSteps.
From S2P Require Import OrderExamples.
From S2P Require Import OrderCalls.
From S2P Require Import OrderProperties.
From S2P Require Import CommunicationDB.
From S2P Require Import Communication.
From S2P Require Import CommunicationRuns.
From S2P Require Import CommunicationProperties.

Local Open Scope Z_scope.
Local Open Scope foc_scope.

Section composition.
  Context `{UUID, !UUIDLaws, !UUIDFold, Digest}.

(** The event is what Order's relay makes of a fact of its outbox. *)
Definition published (d : ODB) (e : OrderStatusChanged) : Prop :=
  ∃ row f, row ∈ outbox d ∧ fr_Kind row = StatusChanged
    ∧ ft_Kind f = fr_Kind row ∧ ft_OrderID f = fr_OrderID row ∧ ft_Revision f = fr_Revision row
    ∧ ft_Version f = fr_PayloadVersion row ∧ ft_Payload f = fr_Payload row
    ∧ encode f = Ok (MStatusChanged e).

Lemma published_fields d e :
  published d e → ∃ row, row ∈ outbox d ∧ fr_Kind row = StatusChanged
    ∧ sc_OrderId e = fr_OrderID row ∧ sc_Revision e = fr_Revision row ∧ sc_Status e = p_Status (fr_Payload row).
Proof.
  intros (row & f & Hin & Hk & Hfk & Ho & Hr & _ & Hp & He). exists row. split; [done|]. split; [done|].
  unfold encode in He. rewrite Hfk, Hk in He. inv_ok He. simplify_eq. cbn. by rewrite Ho, Hr, Hp.
Qed.

(** The relay publishes nothing else. *)
Lemma claimed_published token now until d d' f e :
  Claim token now until d = (Ok (Some f), d') → ft_Kind f = StatusChanged → encode f = Ok (MStatusChanged e) →
  published d e.
Proof.
  unfold Claim. destruct (ClaimOrderFact token until now d) as [[row d1]|] eqn:Hc; [|done].
  assert (∃ row0, row0 ∈ outbox d ∧ publication_only row0 row) as (row0 & Hin & Hpub).
  { unfold ClaimOrderFact in Hc. destruct (merge_sort _ _) as [|row0 l] eqn:Hs; [done|]. injection Hc as <- _.
    exists row0. split; [|done].
    assert (row0 ∈ row0 :: l) as Hm by set_solver. rewrite <- Hs, merge_sort_Permutation in Hm.
    by apply list_elem_of_filter in Hm as [_ ?]. }
  apply publication_fields in Hpub as (Eo & Er & Ek & Ev & Ep).
  destruct (audit d1 !! _) as [actor|]; [|done]. destruct (orders d1 !! _); [|done].
  destruct (unmarshal_snapshot _); [|done]. intros [= <- _] Hk He. cbn in Hk.
  exists row0. eexists. split; [done|]. split; [congruence|]. split_and!; [| | | | |exact He]; cbn; congruence.
Qed.

(** The last revision that changed the status, from revision [k] down. *)
Lemma last_change d id r (k : nat) a :
  order_ok d id r → audit d !! (id, Z.of_nat k + 1) = Some a →
  ∃ n b, n ≤ Z.of_nat k + 1 ∧ audit d !! (id, n) = Some b ∧ changes_status b
    ∧ ad_ResultingStatus b = ad_ResultingStatus a
    ∧ ∀ m c, n < m ≤ Z.of_nat k + 1 → audit d !! (id, m) = Some c → ¬ changes_status c.
Proof.
  intros Hok. revert a. induction k as [|k IH]; intros a Ha.
  - exists 1, a. split; [lia|]. split; [done|]. split.
    + destruct (oi_first _ _ _ Hok a Ha) as (_ & Hp & Hr). unfold changes_status. by rewrite Hp, Hr.
    + split; [done|]. intros m c Hm. lia.
  - replace (Z.of_nat (S k) + 1) with (Z.of_nat k + 1 + 1) in * by lia.
    destruct (decide (ad_PreviousStatus a = ad_ResultingStatus a)) as [Heq|Hch].
    2:{ exists (Z.of_nat k + 1 + 1), a. split_and!; [done..|]. intros m c Hm. lia. }
    assert (is_Some (audit d !! (id, Z.of_nat k + 1))) as [b Hb].
    { apply (oi_audit _ _ _ Hok). apply mk_is_Some, (oi_audit _ _ _ Hok) in Ha. lia. }
    destruct (IH b Hb) as (n & c & Hn & Hc & Hcc & Hcs & Hlater). exists n, c.
    pose proof (oi_chain _ _ _ Hok _ _ _ Hb Ha) as [Hprev _].
    split_and!; [lia|done|done|congruence|]. intros m x Hm Hx.
    destruct (decide (m = Z.of_nat k + 1 + 1)) as [->|]; [|apply (Hlater m x); [lia|done]].
    rewrite Ha in Hx. injection Hx as <-. by intros [].
Qed.

Lemma parseID_parses s t : parseID s = Ok t → uuid_parse s = Some t.
Proof. unfold parseID. destruct (uuid_parse s); [|done]. case_decide; [done|]. by intros [= ->]. Qed.

(** An event that Communication can store. *)
Definition deliverable (e : OrderStatusChanged) : Prop :=
  ∃ o, participants e = Some o ∧ storable o = true.

Lemma count_one p l : count p l = 1%nat → ∃ f, f ∈ l ∧ p f = true.
Proof.
  induction l as [|f l IH]; [done|]. change (f :: l) with ([f] ++ l). rewrite count_app.
  destruct (p f) eqn:Hp; [exists f; set_solver|]. unfold count at 1. cbn. rewrite Hp. cbn.
  intros (g & ? & ?)%IH. exists g. set_solver.
Qed.

(** C11: the chat follows the order. Let Order be in a reachable state and let
    Communication have received the published changes of status, all of those of
    the order among them, in any order and any number of times, while it did
    whatever else it does short of the cleanup. Then its copy of the order has the
    status that the order has. *)
Theorem chat_copy_follows_order d id row (es : list OrderStatusChanged) (ops : list Op) :
  rtc order_step empty_odb d → orders d !! id = Some row →
  (∀ e, e ∈ es → published d e ∧ deliverable e) →
  (∀ f, f ∈ outbox d → fr_OrderID f = id → fr_Kind f = StatusChanged →
     ∃ e, e ∈ es ∧ sc_OrderId e = id ∧ sc_Revision e = fr_Revision f) →
  (∀ e o, e ∈ es → participants e = Some o → ∃ now, OpSaveOrder o now ∈ ops) →
  (∀ o now, OpSaveOrder o now ∈ ops → ∃ e, e ∈ es ∧ participants e = Some o) →
  Forall (λ op, ¬ is_cleanup op) ops →
  ∃ p, order_participants (run ops empty_cdb) !! id = Some p
    ∧ op_Status p = status_name (r_Status row) ∧ op_Revision p ≤ r_Revision row.
Proof.
  intros HI%reachable_aggregate Hrow Hes Hall Hin Hout Hops. pose proof (inv_orders d HI _ _ Hrow) as Hok.
  destruct (trail_latest _ _ _ Hok) as (a & Ha & Hast).
  assert (1 ≤ r_Revision row) as Hrev by (apply mk_is_Some, (oi_audit _ _ _ Hok) in Ha; lia).
  destruct (last_change d id row (Z.to_nat (r_Revision row - 1)) a Hok) as (n & b & Hn & Hb & Hbc & Hbs & Hlater).
  { by replace (Z.of_nat (Z.to_nat (r_Revision row - 1)) + 1) with (r_Revision row) by lia. }
  replace (Z.of_nat (Z.to_nat (r_Revision row - 1)) + 1) with (r_Revision row) in * by lia.
  destruct (count_one _ _ (oi_announced _ _ _ Hok n b Hb Hbc)) as (f & Hf & Hfp).
  apply andb_prop in Hfp as [[Hfo%same_eq Hfr%Z.eqb_eq]%andb_prop Hfk%same_eq].
  assert (uuid_parse id = Some id) as Hid by apply parseID_parses, (ro_canonical _ _ (oi_row _ _ _ Hok)).
  (* The event of that revision was stored. *)
  destruct (Hall f Hf Hfo Hfk) as (e & He & Heo & Her).
  destruct (Hes e He) as [_ (o & Ho & Hst)]. destruct (Hin e o He Ho) as [now Hnow].
  pose proof (copy_at_least ops empty_cdb o now Hops Hnow Hst) as (p & Hp & Hle).
  assert (∀ e o, participants e = Some o → uuid_parse (sc_OrderId e) = Some (chat.ID o)
    ∧ chat.Revision o = sc_Revision e ∧ chat.Status o = status_name (sc_Status e)) as Hparts.
  { intros e' o' Hp'. unfold participants in Hp'. destruct (uuid_parse (sc_OrderId e')); [|done]. cbn in Hp'.
    destruct (uuid_parse (sc_RequesterId e')); [|done]. cbn in Hp'.
    destruct (match sc_CourierId e' with Some _ => _ | None => _ end); [|done]. by injection Hp' as <-. }
  destruct (Hparts e o Ho) as (Hoid & Horev & _). rewrite Heo, Hid in Hoid. injection Hoid as Hoid.
  rewrite <- Hoid in Hp. exists p. split; [done|].
  (* The copy comes from an event of a revision that changed the status. *)
  destruct (copy_saved _ _ _ _ Hp) as [Hp0|(o' & now' & Hop & Hoid' & ->)]; [cbn in Hp0; by rewrite lookup_empty in Hp0|].
  destruct (Hout o' now' Hop) as (e' & He' & Ho'). destruct (Hparts e' o' Ho') as (Hid' & Hrev' & Hst').
  destruct (Hes e' He') as [Hpub _]. apply published_fields in Hpub as (g & Hg & Hgk & Ego & Egr & Egs).
  destruct (inv_facts d HI g Hg) as (c & Hc & Hann).
  assert (fr_OrderID g = id) as Hgid.
  { destruct (an_order _ _ Hann) as [Hgo Hgp]. apply parseID_parses in Hgp.
    rewrite <- Hgo in Hgp. apply uuid_parse_canonical in Hgp.
    rewrite <- Ego, Hid' in Hgp. injection Hgp as Hgp. congruence. }
  rewrite Hgid in Hc. cbn. rewrite Hst', Egs, (an_status _ _ Hann), Hrev', Egr.
  assert (fr_Revision g = n) as Hgn.
  { pose proof (an_changes _ _ Hann) as Hcc. cbn in Hle. rewrite Hrev', Egr, Horev, Her, Hfr in Hle.
    destruct (decide (n < fr_Revision g)); [|lia]. exfalso. apply (Hlater (fr_Revision g) c); [|done|done].
    apply mk_is_Some, (oi_audit _ _ _ Hok) in Hc. lia. }
  rewrite Hgn in *. rewrite Hb in Hc. injection Hc as <-. split; [congruence|lia].
Qed.
End composition.

(** ** A run: the completed order, its events delivered newest first, then again *)

Definition claimed_fact (row : FactRow) : OrderOutbox.Fact := {|
  ft_ID := fr_EventID row; ft_OrderID := fr_OrderID row; ft_Kind := fr_Kind row; ft_LeaseToken := EmptyString;
  ft_ActorKind := System; ft_PickupName := "Fine Food"; ft_ActorID := None; ft_Revision := fr_Revision row;
  ft_Version := fr_PayloadVersion row; ft_Payload := fr_Payload row |}.
Definition event_of (row : FactRow) : option OrderStatusChanged :=
  if same (fr_Kind row) StatusChanged then
    match encode (claimed_fact row) with Ok (MStatusChanged e) => Some e | _ => None end
  else None.
Definition ex_events : list OrderStatusChanged := omap event_of (outbox d_completed).
Definition ex_deliveries : list Op :=
  (λ o, OpSaveOrder o ex_noon) <$> omap participants (rev ex_events ++ ex_events).

Lemma event_of_published row e : row ∈ outbox d_completed → event_of row = Some e → published d_completed e.
Proof.
  intros Hin. unfold event_of. destruct (same _ _) eqn:Hk; [|done]. apply same_eq in Hk.
  destruct (encode _) as [[]|] eqn:He; [|done..]. intros [= <-]. exists row, (claimed_fact row). by split_and!.
Qed.

(** Every change of status was encoded, for the order and revision of its fact, and
    can be stored. *)
Lemma ex_events_check :
  forallb (λ row, negb (same (fr_Kind row) StatusChanged)
    || match event_of row with
       | Some e => same (sc_OrderId e) (fr_OrderID row) && (sc_Revision e =? fr_Revision row)
                   && match participants e with Some o => storable o | None => false end
       | None => false
       end) (outbox d_completed) = true.
Proof. vm_compute. reflexivity. Qed.
Lemma ex_event row :
  row ∈ outbox d_completed → fr_Kind row = StatusChanged →
  ∃ e o, event_of row = Some e ∧ sc_OrderId e = fr_OrderID row ∧ sc_Revision e = fr_Revision row
    ∧ participants e = Some o ∧ storable o = true.
Proof.
  intros Hin Hk. pose proof ex_events_check as Hall. rewrite forallb_forall in Hall.
  specialize (Hall row (proj1 (list_elem_of_In _ _) Hin)). rewrite Hk, same_refl in Hall. cbn [negb orb] in Hall.
  destruct (event_of row) as [e|]; [|done].
  apply andb_prop in Hall as [[?%same_eq ?%Z.eqb_eq]%andb_prop Hp].
  destruct (participants e) as [o|] eqn:Ho; [|done]. by exists e, o.
Qed.
Lemma event_of_kind row e : event_of row = Some e → fr_Kind row = StatusChanged.
Proof. unfold event_of. destruct (same _ _) eqn:Hk; [|done]. by apply same_eq in Hk. Qed.

Lemma chat_copy_follows_order_witness :
  ∃ p, order_participants (run ex_deliveries empty_cdb) !! the_order = Some p
    ∧ op_Status p = "completed" ∧ op_Revision p ≤ r_Revision (row_in d_completed).
Proof.
  apply (chat_copy_follows_order d_completed the_order _ ex_events ex_deliveries reach_completed row_completed).
  - intros e (row & Hin & He)%list_elem_of_omap. split; [by eapply event_of_published|].
    destruct (ex_event row Hin (event_of_kind _ _ He)) as (e' & o & He' & _ & _ & Ho & Hs).
    rewrite He in He'. injection He' as <-. by exists o.
  - intros f Hf <- Hk. destruct (ex_event f Hf Hk) as (e & o & He & Ho & Hr & _). exists e.
    split; [apply list_elem_of_omap; eauto|done].
  - intros e o He Ho. exists ex_noon. unfold ex_deliveries. apply list_elem_of_fmap. exists o. split; [done|].
    apply list_elem_of_omap. exists e. split; [|done]. apply elem_of_app. by right.
  - intros o now (o' & [= -> ->] & (e & He & Ho)%list_elem_of_omap)%list_elem_of_fmap. exists e. split; [|done].
    apply elem_of_app in He as [He|He]; [|done].
    rewrite list_elem_of_In in He. apply in_rev in He. by apply list_elem_of_In.
  - unfold ex_deliveries. apply Forall_fmap, Forall_true. by intros o [].
Defined.
